(* ===== verification/_CoqProject ===== *)
-Q . S2P
Prelude.v
RustStr.v
Tables.v
StdText.v
StdIo.v
ArgvBudget.v
Framing.v
External.v
Digest.v
RunContract.v
StoreBase.v
AuditMetadata.v
AssistantContent.v
RunStore.v
TurnContract.v
TurnStore.v
TurnContext.v
Preview.v
RunLedger.v
TurnLedger.v
TurnMoves.v
TurnSteps.v
TurnHistory.v
TurnAdmission.v
TurnReferences.v
TurnRead.v
ContextProps.v
TurnProps.v
TurnExample.v
RunPages.v
ToolApproval.v
ToolExecution.v
ToolLedger.v
ModelOperation.v
Manager.v
ManagerBounds.v
ManagerProps.v
ManagerTurns.v
Provider.v
ProviderProps.v
ProviderExample.v
Cron.v
Schedule.v
ScheduleProps.v
ScheduleExample.v
Identity.v
IdentityStore.v
IdentityValidation.v
IdentityOps.v
IdentityLedger.v
IdentityReads.v
IdentityOrders.v
IdentityCalls.v
IdentityProps.v
IdentityExample.v
Threads.v
ModelInference.v
ModelLifecycle.v
ModelInferenceProps.v
ModelKeys.v
ModelEnds.v
LifecycleExample.v
StdNet.v
RustFloat.v
RustFloatProps.v
Circuit.v
CircuitProps.v
Scoring.v
Routing.v
ScoringProps.v
RoutingProps.v
RouterProps.v
McpRpc.v
McpServer.v
McpProps.v
McpHttp.v
McpHttpProps.v
McpSessions.v
McpSessionProps.v
McpExample.v
