(* ===== verification/Prelude.v ===== *)
(** * Abbey: a verification of the durable runtime

    Abbey (src/) is a Rust companion for coding and operations.  Its daemon keeps
    everything it does in a durable ledger: runs with an append-only event
    history, tool calls that need an explicit approval, model operations, and the
    schedule of automations.  Beside it stand the router of its model providers and
    the server that offers its read-only tools to MCP clients.  This library models
    that core and proves what makes it trustworthy.

    ** The program and the files

    - Prelude.v: results and the question-mark operator, the transaction monad
      [Tx] (explicit state passing, [transaction] rolls back on error), machine
      integers, the tactics [bools], [deex], [tx_inv], the hint database [tx].
    - RustStr.v: Rust strings as bytes, UTF-8 decoding, character boundaries,
      decimal numbers, their order.  StdText.v: lossy decoding, trimming,
      splitting, ASCII case and number parsing.  StdIo.v: buffered sources that deliver
      bytes, interruptions and errors over time.  Tables.v: folds, counts and orderings of finite maps.
      Digest.v: SHA-256 as a class, hexadecimal text.
    - ArgvBudget.v: src/src/argv_budget.rs and the failure-message bound of
      src/src/runtime/executor.rs.
    - Framing.v: src/src/daemon/framing.rs, over a class of readers and writers.
    - External.v: JSON values; the class [External] stands for uuid, chrono
      timestamps and serde_json, [ExternalLaws] for what is relied on of them (a
      text is read back unless containers nest deeper than 127);
      [Fixture] is a concrete instance.
    - RunContract.v: src/src/app_core/{run,contracts,policy,ids,routes}.rs: the run
      lifecycle, the validators of the wire contract, capabilities and policy.
    - StoreBase.v, AssistantContent.v, RunStore.v: src/src/runtime/store.rs with
      store/{codec,records,projection,audit}.rs and the part of store/v4_turn.rs
      that run transitions write.  The tables of the SQL migrations are finite
      maps ([RunDb]); each SQL statement is a definition that checks the
      constraints of its table (keys, CHECK, foreign keys) and fails with the
      error SQLite reports.
    - AuditMetadata.v: the redacting constructor of store/audit.rs.
    - TurnContract.v: src/src/app_core/v4.rs, v4/conversation.rs and v4_content.rs:
      the records of conversations, turns, messages and content pages with their
      validators.
    - TurnStore.v: src/src/runtime/store/v4.rs and v4_turn.rs: conversations,
      admission of turns, appended content and the preview message, pages,
      deletion, finalization.  Preview.v: the text of the preview as a
      function of the whole reply, and cutting text between characters.
    - RunLedger.v: every call of the run and turn stores as one [store_op], the
      ledger invariant, the abstract run ([represents]: a state and a history),
      refinement, idempotent admission and restart recovery.
    - TurnLedger.v: the invariant [turns] of the assistant tables, one record per
      concern (references, content, messages, lifecycle, states) and the frame
      lemmas; TurnMoves.v, TurnSteps.v: that run transitions and the v4 calls keep
      it; TurnHistory.v: what no call changes; TurnAdmission.v: admission case by
      case; TurnRead.v: pages of content and messages; TurnProps.v: the properties;
      TurnExample.v: their examples on stores built by the calls.
    - TurnContext.v: src/src/runtime/store/v4_context.rs, the history a turn is
      given; TurnReferences.v: the invariant of message references it relies on;
      ContextProps.v: the walk over stored events read back, and its reference
      function [greedy].
    - Provider.v: src/src/runtime/provider.rs, provider/content_sink.rs and
      provider/conversation.rs: the route table, the two event sinks, the prompt of
      a turn and both executions, over the class [ModelRuntime] of providers and a
      [World] of other threads between store calls; ProviderProps.v,
      ProviderExample.v: their properties and examples.
    - RunPages.v: the gap check and the paging of events.
    - ToolApproval.v, ToolExecution.v: src/src/runtime/store/tool_approval.rs and
      tool_execution.rs; ToolLedger.v: their invariant, the abstract approval
      machine ([tool_effect]) and its safety.
    - ModelOperation.v: src/src/runtime/store/model_operation.rs.
    - Manager.v: src/src/runtime/manager.rs, manager/helpers.rs and the panic
      boundary of executor.rs.  Every lock acquisition or atomic access is one
      [atomic] section; [Env] gives the clock, the executor and [interfere], an
      arbitrary action of the other threads before each section.
    - ManagerProps.v: a rely-guarantee logic ([hoare], [rely], [stable]) for these
      programs; convergence of settlement and cancellation, waiting, shutdown, and
      that the evidence written is readable.  ManagerBounds.v: the bounded queue;
      ManagerTurns.v: submission of assistant turns.
    - Cron.v, Schedule.v: src/src/automation_schedule/cron.rs and
      automation_schedule.rs, over the class [Chrono] for chrono and chrono-tz;
      ScheduleProps.v: exactness of the occurrence search; ScheduleExample.v: a
      concrete calendar and zones.

    - Identity.v: src/src/runtime/identity.rs, the digests of conversation
      identities; IdentityStore.v: the tables of migrations 3 and 4 and
      store/identity_receipts.rs; IdentityValidation.v: store/identity_validation.rs;
      IdentityOps.v: store/identity.rs, its saves, clears and reads.
      IdentityLedger.v: the abstract log of mutations and how the tables
      [represents] it; IdentityReads.v: the read of a scope; IdentityOrders.v: the
      search among the orders of a migrated scope set; IdentityCalls.v: the statements
      of a call and the log machine [identity_spec]; IdentityProps.v,
      IdentityExample.v: properties and examples.

    - Threads.v: programs of atomic sections that share a world, their pools, a
      rely-guarantee logic ([wp], ghost state owned by threads) and termination of
      every schedule.
    - ModelInference.v: src/src/app_core/v3_model.rs and
      daemon/runtime_v3/model_lifecycle/model_inference.rs; ModelLifecycle.v:
      src/src/daemon/runtime_v3/model_lifecycle.rs, each handler and background
      thread as a program over a [World] of the operation table, the audit ledger,
      the busy revisions, the loaded models and the clock.  ModelInferenceProps.v:
      results and requests; ModelKeys.v: ownership of busy revisions; ModelEnds.v:
      ownership of operations; LifecycleExample.v: concrete schedules.

    - StdNet.v: IP addresses of the standard library and their parser.  RustFloat.v: [f64] as the
      binary64 numbers of the Standard Library's SpecFloat; RustFloatProps.v: rounding
      is monotone and keeps the unit interval.
    - Circuit.v, Scoring.v, Routing.v: src/extensions/bot/src/provider/circuit.rs,
      scoring.rs and routing.rs, with the identifiers of domain.rs: circuit breakers,
      live scores and the adaptive router of the Discord bot's model providers.
      CircuitProps.v, ScoringProps.v, RoutingProps.v: their invariants and behaviour;
      RouterProps.v: the router as a state machine.

    - McpRpc.v: src/src/mcp_host/jsonrpc.rs, limits.rs and redact.rs; McpServer.v:
      serve.rs and the generic part of tools.rs: one session with its handshake, tool
      calls and transport over lines.  McpProps.v: properties of a session
      and of its transcript; McpExample.v: a small JSON and sample sessions.
    - McpHttp.v: src/src/mcp_host/http/wire.rs and origin.rs; McpSessions.v:
      http/session.rs, gate.rs and mod.rs, where the servers of sessions are a heap
      and the gate a step relation of threads.  McpHttpProps.v: reading and the
      authority checks; McpSessionProps.v: sessions, admission and the endpoint under
      concurrent connections.

    The manager calls the run store through [store_call], one transaction per
    call; a run transition of the store writes the end of an assistant turn
    through [sync_message_state], in the transaction of the transition; admitting
    a turn creates its run, first event, message and turn together; the tool executions consume tool approvals in the same
    transaction; pages and snapshots project stored events to the contract.  Both MCP
    transports hand frames to [handle_frame] and their answers to [encode_frame]; the
    endpoint finds the session of a request in the table under one lock and dispatches
    under the lock of its server.

    ** What the theorems show

    - Run ledger: every call keeps the numbered history without gaps, failed
      calls change nothing, a stored event is readable unless its payload nests too
      deep, history is append-only, terminal runs are final,
      [transition_run] refines the abstract transition (TurnProps.v, with its
      effect on assistant turns), admission is idempotent,
      recovery interrupts exactly the active runs, paging is complete.
    - Assistant turns: admission refines an abstract protocol and is answered for
      ever; the invariant holds under every mix of legacy and v4 calls; the
      preview equals the longest prefix of the reply; one turn at a time; the
      transcript ends with the final state, also after recovery, unless a caller
      wrote an end marker of its own ([self_marking]); deletion removes
      one transcript and nothing else; reading never reports corruption and the
      pages of a transcript are complete.
    - Execution on a route: the context of a turn is a greedy selection of its
      recent history, the prompt always fits, a stored reply consists of prefixes
      of what the provider said and is complete when the execution succeeds, and
      route tables are unambiguous.
    - Tools: an effect needs one live, exact, explicit approval and happens once;
      identifiers are never reused; expiry always wins; recovery.
    - Model operations: bounded, monotone, exact, recoverable.
    - Model lifecycle, under every interleaving of its handlers and threads: a
      loaded model is never replaced, and loading and unloading happen only while
      the revision is marked busy; the threads end, leave no revision busy (when
      threads can be created) and every operation final (when the clock does not
      go back).  An inference result answers one request and only complete native
      runs become results.
    - Manager: settlement and cancellation converge within their eight attempts
      whatever other threads do; finished items are settled; stopping leaves
      nothing running; the queue stays within 1..32; a submitted turn is queued or
      ended before the call returns.
    - Contract, framing, argument budget: exact validators, policy, frame round
      trip and soundness, bounded serialization, UTF-8-safe truncation.
    - Conversation identities: every save and clear is one step of a log machine
      (an error, the last commit again, or one appended mutation), a scope shows
      what its last mutation left, clears are authorized exactly, and the digest
      search over the orders of a migrated scope set is complete.  These hold for
      stores created at the current schema, which have no migrated rows.
    - Schedules: cron fields and fixed kinds mean what they say; next, preview
      and catch-up are exact.
    - Provider routing: a circuit opens exactly when three transient failures fall
      into five minutes or a delay is asked for, one probe decides about an open one,
      and an outcome counts once; scores stay in the unit interval, a selection takes
      the eligible provider that ranks first, the router never panics, and a
      conversation falls back at most once and never after a visible effect.
    - MCP server: a session over lines is a function of its input and never hangs or
      panics; every request gets one answer with its identifier and notifications
      none; tools run only after the handshake, with arguments of bounded depth; what
      leaves is bounded and redacted; the depth check is exact.
    - MCP over HTTP: reading a request is bounded and reads back what a client wrote,
      only loopback authorities are served, sessions live as long as promised and are
      kept apart under concurrency (each answer is that of a private server that
      served the frames of the same address before), admission and permits stay within their limits,
      and the endpoint answers a body as the other transport answers a frame.
    - Audit metadata: whatever is recorded is bounded and redacted.
    - Eight lemmas record defects: [deep_event_is_stored_but_not_read],
      [self_written_marker], [recovery_fails_on_clock_rollback],
      [catch_up_misses_fold_over_midnight], [cancelled_load_stays_loaded],
      [failed_spawn_can_leave_model_busy], [inference_audit_hides_token_counts],
      [slow_head_outlives_the_deadline].

    ** Bounds and fuel

    The retry loops of the manager have the fuel of the source (8); the lifecycle
    has at most four steps, so this is enough (proved).  The page walk of a
    client is given as many pages as events.  The worker loop takes its number of
    iterations as an argument; its theorems hold for every value.  The schedule
    search has the source's 2932 days and 2881 minutes; finding nothing is
    related to a horizon of 2927 days, more than any eight calendar years.  The digest search, a loop without a bound in
    the source, has one turn more than there are orders, meets each of them once
    and always ends (proved; running out of turns is an outcome of its own).  The loops that read MCP lines and
    requests have as much fuel as their source has bytes and reads left (proved enough),
    the depth check as much as a document has nodes.  Decimal printing has twenty digits, enough
    for 64 bits.  Integers are [Z] with the range checks and checked or saturating
    operations of the source written out.

    ** Parameters

    Code outside the repository is a parameter: [External] (uuid, RFC 3339,
    serde_json), [ContentCodec] and [V4Json] (the JSON of payloads, submissions and
    pages; [ContentLaws], [V4JsonLaws]: their round trip and bounds on their
    length), [MillisFormat] (chrono), [ModelRuntime] (the agent runtime crate's
    providers: an identifier and, per call, emitted events and a report), [RequestDigest] (the JSON of a request), [Digest]
    (SHA-256), [SqlLike] (LIKE),
    [Chrono] (calendar and time zones), [UuidFormat] (the text of sixteen bytes), the allocator and the streams of the
    framing, the clock, identifiers and executor of the manager, [ModelCrates],
    [Binding] and [Input] (the signed registry, downloads, providers and thread
    creation of the model lifecycle), [InferenceJson] and [JsonSizeLaws] (lengths
    of JSON texts).  For the MCP server: [JsonNumbers] and [JsonText] (serde_json; [JsonTextLaws]: writing
    succeeds and the compact text has no line break), [Urls] (the url crate), the
    registry of tools, the fate of each worker thread and the text of new UUIDs.  Each
    has a concrete instance, used by the witnesses.

    ** Not modelled

    The startup document of the model lifecycle (private files, signatures),
    panics and poisoned locks; opening and migrating the database file, permission profiles
    (store/v4_admin.rs), the governed-tool store; the daemon's sockets and dispatch, the
    fixed-recipe process provider and supervised processes, the terminal and
    desktop interfaces, memory adapters, learning and training, vendored code.
    Of the MCP host, the handlers of its registry (they query the command core), its
    sockets and command lines are left out.  Next in line: the governed store over a
    capability parameter and permission profiles. *)
From stdpp Require Import base list gmap strings.
From Stdlib Require Import ZArith Lia.

Open Scope Z_scope.

(** ** Results: Rust's [Result<A, E>] and the [?] operator *)
Inductive result (E A : Type) : Type :=
| Ok (a : A)
| Err (e : E).
Arguments Ok {E A} a.
Arguments Err {E A} e.

Declare Scope rust_scope.
Delimit Scope rust_scope with rust.
Open Scope rust_scope.

Notation "'let?' x := m 'in' k" :=
  (match m with Ok x => k | Err e => Err e end)
  (at level 10, x pattern, m at level 100, k at level 200) : rust_scope.

(** [fail? b with e in k]: the early return [if b { return Err(e) } k]. *)
Notation "'fail?' b 'with' e 'in' k" :=
  (if (b : bool) then Err e else k)
  (at level 10, b at level 100, e at level 100, k at level 200) : rust_scope.

Definition is_ok {E A} (r : result E A) : bool :=
  match r with Ok _ => true | Err _ => false end.

Definition map_err {E F A} (f : E -> F) (r : result E A) : result F A :=
  match r with Ok a => Ok a | Err e => Err (f e) end.

Definition ok_or {E A} (o : option A) (e : E) : result E A :=
  match o with Some a => Ok a | None => Err e end.

(** [iter.map(f).collect::<Result<Vec<_>, _>>()] *)
Fixpoint map_result {A B E} (f : A -> result E B) (l : list A) : result E (list B) :=
  match l with
  | [] => Ok []
  | x :: r => let? y := f x in let? ys := map_result f r in Ok (y :: ys)
  end.

(** ** Fallible state transformers

    A store operation reads and writes a database state [S] and either returns
    a value or an error.  The state is returned in both cases, so that what an
    operation leaves behind when it fails is part of the model. *)
Definition Tx (S E A : Type) : Type := S -> result E A * S.

Definition tret {S E A} (a : A) : Tx S E A := fun s => (Ok a, s).
Definition traise {S E A} (e : E) : Tx S E A := fun s => (Err e, s).
Definition tlift {S E A} (r : result E A) : Tx S E A := fun s => (r, s).
Definition tread {S E A} (f : S -> result E A) : Tx S E A := fun s => (f s, s).
Definition tmodify {S E} (f : S -> S) : Tx S E unit := fun s => (Ok tt, f s).
Definition tbind {S E A B} (m : Tx S E A) (k : A -> Tx S E B) : Tx S E B :=
  fun s => match m s with
           | (Ok a, s') => k a s'
           | (Err e, s') => (Err e, s')
           end.

Notation "x <- m ; k" := (tbind m (fun x => k))
  (at level 100, m at next level, right associativity) : rust_scope.
Notation "m ;; k" := (tbind m (fun _ => k))
  (at level 100, right associativity) : rust_scope.

(** A SQL transaction: the changes survive only when the body returns [Ok]
    (the guard is dropped, hence rolled back, on every error path). *)
Definition transaction {S E A} (m : Tx S E A) : Tx S E A :=
  fun s => match m s with
           | (Ok a, s') => (Ok a, s')
           | (Err e, _) => (Err e, s)
           end.

(** ** Machine integers

    Unsigned and signed integers are [Z] values; the widths appear as the range
    predicates below and as the checked operations the code calls. *)
Definition u16_max : Z := 65535.
Definition u32_max : Z := 4294967295.
Definition i64_max : Z := 9223372036854775807.
Definition u64_max : Z := 18446744073709551615.

Definition is_u16 (n : Z) : Prop := 0 <= n <= u16_max.
Definition is_u64 (n : Z) : Prop := 0 <= n <= u64_max.

Definition u64_checked_add (a b : Z) : option Z :=
  if a + b <=? u64_max then Some (a + b) else None.
Definition u64_checked_sub (a b : Z) : option Z :=
  if b <=? a then Some (a - b) else None.
Definition usize_saturating_sub (a b : Z) : Z := Z.max 0 (a - b).
Definition usize_saturating_add (a b : Z) : Z := Z.min u64_max (a + b).

(** ** Lemmas on results and transactions *)
Section TxLemmas.
Context {S E : Type}.
Implicit Types s : S.

Lemma tbind_ok {A B} (m : Tx S E A) (k : A -> Tx S E B) s b s' :
  tbind m k s = (Ok b, s') <->
  exists a s1, m s = (Ok a, s1) /\ k a s1 = (Ok b, s').
Proof.
  unfold tbind. destruct (m s) as [[a|e] s1]; split.
  - eauto.
  - intros (a' & s1' & Heq & Hk). by simplify_eq.
  - discriminate.
  - intros (a' & s1' & Heq & Hk). by simplify_eq.
Qed.

Lemma tbind_err {A B} (m : Tx S E A) (k : A -> Tx S E B) s e s' :
  tbind m k s = (Err e, s') <->
  m s = (Err e, s') \/ exists a s1, m s = (Ok a, s1) /\ k a s1 = (Err e, s').
Proof.
  unfold tbind. destruct (m s) as [[a|e'] s1]; split.
  - eauto.
  - intros [Heq|(a' & s1' & Heq & Hk)]; by simplify_eq.
  - intros Heq. by simplify_eq; left.
  - intros [Heq|(a' & s1' & Heq & Hk)]; by simplify_eq.
Qed.

Lemma transaction_ok {A} (m : Tx S E A) s a s' :
  transaction m s = (Ok a, s') <-> m s = (Ok a, s').
Proof.
  unfold transaction. destruct (m s) as [[a'|e] s1]; split; intros H; by simplify_eq.
Qed.

(** A transaction that fails leaves the database as it found it. *)
Lemma transaction_err {A} (m : Tx S E A) s e s' :
  transaction m s = (Err e, s') <-> s' = s /\ exists s1, m s = (Err e, s1).
Proof.
  unfold transaction. destruct (m s) as [[a'|e'] s1]; split.
  - discriminate.
  - intros (_ & s2 & Heq). by simplify_eq.
  - intros Heq. simplify_eq. eauto.
  - intros (-> & s2 & Heq). by simplify_eq.
Qed.

(** [keeps P m]: whatever [m] returns, an invariant [P] that held before
    holds after. *)
Definition keeps {A} (P : S -> Prop) (m : Tx S E A) : Prop :=
  forall s, P s -> P (snd (m s)).

Lemma keeps_ret {A} P (a : A) : keeps P (tret a).
Proof. by intros s. Qed.
Lemma keeps_raise {A} P (e : E) : keeps (A := A) P (traise e).
Proof. by intros s. Qed.
Lemma keeps_lift {A} P (r : result E A) : keeps P (tlift r).
Proof. by intros s. Qed.
Lemma keeps_read {A} P (f : S -> result E A) : keeps P (tread f).
Proof. by intros s. Qed.
Lemma keeps_modify P (f : S -> S) :
  (forall s, P s -> P (f s)) -> keeps (A := unit) P (tmodify f).
Proof. intros Hf s Hs. by apply Hf. Qed.
Lemma keeps_bind {A B} P (m : Tx S E A) (k : A -> Tx S E B) :
  keeps P m -> (forall a, keeps P (k a)) -> keeps P (tbind m k).
Proof.
  intros Hm Hk s Hs. unfold tbind. specialize (Hm s Hs).
  destruct (m s) as [[a|e] s1]; simpl in *; [by apply Hk | done].
Qed.
Lemma keeps_transaction {A} P (m : Tx S E A) :
  (forall s a s', P s -> m s = (Ok a, s') -> P s') -> keeps P (transaction m).
Proof.
  intros Hm s Hs. unfold transaction.
  destruct (m s) as [[a|e] s1] eqn:Heq; simpl; [by eapply Hm | done].
Qed.
End TxLemmas.

Create HintDb tx.
#[export] Hint Resolve keeps_ret keeps_raise keeps_lift keeps_read : tx.
#[export] Hint Unfold tret traise tlift tread tmodify : tx.

(** ** Tactics *)

(** Open conjunctions and existentials while keeping names readable. *)
Ltac deex :=
  repeat match goal with
         | H : ex _ |- _ => let x := fresh "x" in destruct H as [x H]
         | H : _ /\ _ |- _ => destruct H
         end.

(** Reflect the boolean tests of the code into propositions. *)
Ltac bools :=
  repeat match goal with
         | H : (_ && _)%bool = true |- _ => apply andb_true_iff in H as [? ?]
         | H : (_ || _)%bool = false |- _ => apply orb_false_iff in H as [? ?]
         | H : negb _ = true |- _ => apply negb_true_iff in H
         | H : negb _ = false |- _ => apply negb_false_iff in H
         | H : (_ <? _) = true |- _ => apply Z.ltb_lt in H
         | H : (_ <? _) = false |- _ => apply Z.ltb_ge in H
         | H : (_ <=? _) = true |- _ => apply Z.leb_le in H
         | H : (_ <=? _) = false |- _ => apply Z.leb_gt in H
         | H : (_ =? _) = true |- _ => apply Z.eqb_eq in H
         | H : (_ =? _) = false |- _ => apply Z.eqb_neq in H
         | H : bool_decide _ = true |- _ => apply bool_decide_eq_true in H
         | H : bool_decide _ = false |- _ => apply bool_decide_eq_false in H
         end.

(** Invert a run of a store operation that ended in [Ok]. *)
Ltac tx_inv :=
  repeat match goal with
         | H : transaction _ _ = (Ok _, _) |- _ => apply transaction_ok in H
         | H : tbind _ _ _ = (Ok _, _) |- _ =>
             let a := fresh "a" in let s := fresh "db" in
             let H1 := fresh "Hop" in
             apply tbind_ok in H as (a & s & H1 & H)
         | H : tret _ _ = (Ok _, _) |- _ => unfold tret in H; simplify_eq
         | H : traise _ _ = (Ok _, _) |- _ => discriminate H
         | H : tlift _ _ = (Ok _, _) |- _ => unfold tlift in H; simplify_eq
         | H : tread _ _ = (Ok _, _) |- _ => unfold tread in H; simplify_eq
         | H : tmodify _ _ = (Ok _, _) |- _ => unfold tmodify in H; simplify_eq
         end.

(** ** Generic list facts *)
Lemma existsb_false_Forall {A} (f : A -> bool) l :
  existsb f l = false <-> Forall (fun x => f x = false) l.
Proof.
  induction l as [|x l IH]; simpl; [by split|].
  rewrite orb_false_iff, IH, Forall_cons. done.
Qed.

Lemma forallb_Forall {A} (f : A -> bool) l :
  forallb f l = true <-> Forall (fun x => f x = true) l.
Proof.
  induction l as [|x l IH]; simpl; [by split|].
  rewrite andb_true_iff, IH, Forall_cons. done.
Qed.

Lemma map_result_ok {A B E} (f : A -> result E B) l l' :
  map_result f l = Ok l' <-> Forall2 (fun x y => f x = Ok y) l l'.
Proof.
  revert l'. induction l as [|x l IH]; intros l'; simpl.
  - split; [intros [= <-]; constructor|]. by intros ->%Forall2_nil_inv_l.
  - destruct (f x) as [y|e] eqn:Hx; [destruct (map_result f l) as [ys|e] eqn:Hl|].
    + split; [intros [= <-]; constructor; [done|by apply IH]|].
      intros (y' & ys' & Hy & Hys & ->)%Forall2_cons_inv_l. apply IH in Hys. congruence.
    + split; [discriminate|]. intros (y' & ys' & _ & Hys & ->)%Forall2_cons_inv_l.
      by apply IH in Hys.
    + split; [discriminate|]. intros (y' & ys' & Hy & _ & ->)%Forall2_cons_inv_l. congruence.
Qed.
