(* ===== verification/RustStr.v ===== *)
(** * Rust strings

    A Rust [str] is a sequence of UTF-8 bytes.  It is modelled by Rocq's
    [string] (a list of bytes): [slen] is [str::len], [bytes] is [str::bytes],
    [chars] is the decoder behind [str::chars], and [is_char_boundary] is the
    byte-level test the slicing code relies on. *)
From stdpp Require Import base list strings pretty sorting.
From Stdlib Require Import ZArith Lia.
From S2P Require Import Prelude.

Open Scope Z_scope.
Open Scope rust_scope.

(** ** Bytes *)
Definition byte_val (c : Ascii.ascii) : Z := Z.of_N (Ascii.N_of_ascii c).

Fixpoint bytes (s : string) : list Z :=
  match s with
  | EmptyString => []
  | String c s' => byte_val c :: bytes s'
  end.

Definition slen (s : string) : Z := Z.of_nat (String.length s).

Definition is_empty (s : string) : bool :=
  match s with EmptyString => true | _ => false end.

Definition is_ascii_digit (b : Z) : bool := (48 <=? b) && (b <=? 57).
Definition is_ascii_lower (b : Z) : bool := (97 <=? b) && (b <=? 122).
Definition is_ascii_upper (b : Z) : bool := (65 <=? b) && (b <=? 90).
Definition is_ascii_alphanumeric (b : Z) : bool :=
  is_ascii_digit b || is_ascii_lower b || is_ascii_upper b.
(** [b'0'..=b'9' | b'a'..=b'f'] *)
Definition is_lower_hex (b : Z) : bool :=
  is_ascii_digit b || ((97 <=? b) && (b <=? 102)).

(** ** Characters *)

(** [core::str::next_code_point]: decode_utf8 one scalar value at a time. *)
Fixpoint decode_utf8 (bs : list Z) : list Z :=
  match bs with
  | [] => []
  | x :: r =>
      if x <? 128 then x :: decode_utf8 r
      else match r with
           | [] => []
           | y :: r1 =>
               let init := Z.land x 31 in
               let y6 := Z.land y 63 in
               if x <? 224 then Z.lor (Z.shiftl init 6) y6 :: decode_utf8 r1
               else match r1 with
                    | [] => []
                    | z :: r2 =>
                        let yz := Z.lor (Z.shiftl y6 6) (Z.land z 63) in
                        if x <? 240 then Z.lor (Z.shiftl init 12) yz :: decode_utf8 r2
                        else match r2 with
                             | [] => []
                             | w :: r3 =>
                                 Z.lor (Z.shiftl (Z.land init 7) 18)
                                   (Z.lor (Z.shiftl yz 6) (Z.land w 63)) :: decode_utf8 r3
                             end
                    end
           end
  end.

Definition chars (s : string) : list Z := decode_utf8 (bytes s).

(** [char::is_control]: general category Cc. *)
Definition is_control (c : Z) : bool := (c <=? 31) || ((127 <=? c) && (c <=? 159)).

(** [char::is_whitespace]: the White_Space property. *)
Definition is_whitespace (c : Z) : bool :=
  ((9 <=? c) && (c <=? 13)) || (c =? 32) || (c =? 133) || (c =? 160) || (c =? 5760)
  || ((8192 <=? c) && (c <=? 8202)) || (c =? 8232) || (c =? 8233) || (c =? 8239)
  || (c =? 8287) || (c =? 12288).

Fixpoint drop_while (p : Z -> bool) (l : list Z) : list Z :=
  match l with
  | [] => []
  | x :: r => if p x then drop_while p r else l
  end.

(** [str::trim], on the characters of the string. *)
Definition trim (cs : list Z) : list Z :=
  rev (drop_while is_whitespace (rev (drop_while is_whitespace cs))).

(** ** Boundaries and slices *)
Definition is_continuation (b : Z) : bool := (128 <=? b) && (b <? 192).

(** [str::is_char_boundary] *)
Definition is_char_boundary (s : string) (i : nat) : bool :=
  match i with
  | O => true
  | _ => match bytes s !! i with
         | None => Nat.eqb i (String.length s)
         | Some b => negb (is_continuation b)
         end
  end.

(** [&s[..n]] *)
Fixpoint str_take (n : nat) (s : string) : string :=
  match n, s with
  | S n', String c s' => String c (str_take n' s')
  | _, _ => EmptyString
  end.

(** [while end > 0 && !s.is_char_boundary(end) { end -= 1 }] *)
Fixpoint floor_char_boundary (s : string) (i : nat) : nat :=
  if is_char_boundary s i then i
  else match i with O => O | S i' => floor_char_boundary s i' end.

(** ** Well-formed UTF-8 *)
Definition encode_char (c : Z) : list Z :=
  if c <? 128 then [c]
  else if c <? 2048 then [192 + c / 64; 128 + c mod 64]
  else if c <? 65536 then [224 + c / 4096; 128 + (c / 64) mod 64; 128 + c mod 64]
  else [240 + c / 262144; 128 + (c / 4096) mod 64; 128 + (c / 64) mod 64; 128 + c mod 64].

Definition is_scalar (c : Z) : Prop := 0 <= c < 55296 \/ 57344 <= c < 1114112.

Definition valid_utf8 (s : string) : Prop :=
  exists cs, Forall is_scalar cs /\ bytes s = concat (map encode_char cs).

(** ** Lemmas *)
Lemma length_bytes s : length (bytes s) = String.length s.
Proof. induction s; simpl; congruence. Qed.

Lemma bytes_inj a b : bytes a = bytes b -> a = b.
Proof.
  revert b. induction a as [|x a IH]; intros [|y b]; try done. cbn. intros [= Hx Hr]. f_equal; [|by apply IH].
  rewrite <- (Ascii.ascii_N_embedding x), <- (Ascii.ascii_N_embedding y). unfold byte_val in Hx. f_equal. lia.
Qed.
Lemma slen_bytes s : slen s = Z.of_nat (length (bytes s)).
Proof. unfold slen. by rewrite length_bytes. Qed.

Lemma slen_nonneg s : 0 <= slen s.
Proof. unfold slen. lia. Qed.

Lemma bytes_app s1 s2 : bytes (s1 +:+ s2) = bytes s1 ++ bytes s2.
Proof. induction s1 as [|c s1 IH]; [done|]. simpl. by rewrite <- IH. Qed.

Lemma slen_app s1 s2 : slen (s1 +:+ s2) = slen s1 + slen s2.
Proof. rewrite !slen_bytes, bytes_app, length_app. lia. Qed.

Lemma append_empty_r s : s +:+ EmptyString = s.
Proof. induction s as [|x s IH]; [done|]. exact (f_equal (String x) IH). Qed.

Lemma append_assoc (a b c : string) : (a +:+ b) +:+ c = a +:+ (b +:+ c).
Proof. induction a as [|x a IH]; [done|]. exact (f_equal (String x) IH). Qed.

Lemma append_cons c s t : String c s +:+ t = String c (s +:+ t).
Proof. done. Qed.

Lemma bytes_str_take n s : bytes (str_take n s) = take n (bytes s).
Proof. revert n; induction s; intros [|n]; simpl; [done..|]. by f_equal. Qed.

Lemma slen_str_take n s :
  slen (str_take n s) = Z.min (Z.of_nat n) (slen s).
Proof. rewrite !slen_bytes, bytes_str_take, length_take. lia. Qed.

Lemma byte_val_range c : 0 <= byte_val c < 256.
Proof.
  unfold byte_val. pose proof (Ascii.N_ascii_bounded c). lia.
Qed.

Lemma bytes_range s : Forall (fun b => 0 <= b < 256) (bytes s).
Proof. induction s; simpl; constructor; auto using byte_val_range. Qed.

Lemma floor_char_boundary_S s i :
  floor_char_boundary s (S i) =
  if is_char_boundary s (S i) then S i else floor_char_boundary s i.
Proof. reflexivity. Qed.

Lemma floor_char_boundary_ok s i : is_char_boundary s (floor_char_boundary s i) = true.
Proof.
  induction i as [|i IH]; [done|]. rewrite floor_char_boundary_S.
  by destruct (is_char_boundary s (S i)) eqn:Heq.
Qed.

Lemma floor_char_boundary_le s i : (floor_char_boundary s i <= i)%nat.
Proof.
  induction i as [|i IH]; [done|]. rewrite floor_char_boundary_S.
  destruct (is_char_boundary s (S i)); lia.
Qed.

(** Nothing between the chosen position and the requested one is a boundary:
    the cut keeps the longest prefix that is a valid string. *)
Lemma floor_char_boundary_max s i j :
  (floor_char_boundary s i < j <= i)%nat -> is_char_boundary s j = false.
Proof.
  induction i as [|i IH]; [simpl; lia|]. rewrite floor_char_boundary_S.
  destruct (is_char_boundary s (S i)) eqn:Heq; [lia|].
  intros Hj. destruct (decide (j = S i)) as [->|Hne]; [done|]. apply IH. lia.
Qed.

Lemma is_char_boundary_len s : is_char_boundary s (String.length s) = true.
Proof.
  unfold is_char_boundary. destruct (String.length s) as [|n] eqn:Hn; [done|].
  assert (bytes s !! S n = None) as ->.
  { apply lookup_ge_None. rewrite length_bytes. lia. }
  by apply Nat.eqb_refl.
Qed.

Lemma is_continuation_low6 x : is_continuation (128 + x mod 64) = true.
Proof.
  unfold is_continuation. pose proof (Z.mod_pos_bound x 64 ltac:(lia)).
  apply andb_true_iff. lia.
Qed.

Lemma is_continuation_lead b : b < 128 \/ 192 <= b -> is_continuation b = false.
Proof. intros H. unfold is_continuation. apply andb_false_iff. lia. Qed.

(** Every character starts with a byte that is not a continuation byte, and
    goes on with continuation bytes only. *)
Lemma encode_char_shape c :
  is_scalar c ->
  exists b t, encode_char c = b :: t /\ is_continuation b = false
              /\ Forall (fun x => is_continuation x = true) t.
Proof.
  intros Hc. unfold encode_char, is_scalar in *.
  destruct (Z.ltb_spec c 128); [|destruct (Z.ltb_spec c 2048);
    [|destruct (Z.ltb_spec c 65536)]];
    do 2 eexists; (split; [reflexivity|split;
      [apply is_continuation_lead|auto using is_continuation_low6]]).
  - by left.
  - right. pose proof (Z.div_pos c 64). lia.
  - right. pose proof (Z.div_pos c 4096). lia.
  - right. pose proof (Z.div_pos c 262144). lia.
Qed.

Lemma valid_utf8_app s1 s2 : valid_utf8 s1 -> valid_utf8 s2 -> valid_utf8 (s1 +:+ s2).
Proof.
  intros (c1 & H1 & E1) (c2 & H2 & E2). exists (c1 ++ c2). split.
  - by apply Forall_app.
  - by rewrite bytes_app, E1, E2, map_app, concat_app.
Qed.

Lemma concat_encode_prefix cs n :
  Forall is_scalar cs ->
  (n = length (concat (map encode_char cs)) \/
   exists b, concat (map encode_char cs) !! n = Some b /\ is_continuation b = false) ->
  exists k, take n (concat (map encode_char cs)) = concat (map encode_char (take k cs)).
Proof.
  intros Hcs. revert n. induction Hcs as [|c cs Hc Hcs IH]; intros n Hn; simpl in *.
  { exists O. by rewrite take_nil. }
  destruct (encode_char_shape c Hc) as (b & t & Henc & Hb & Ht).
  destruct (decide (n < length (encode_char c))%nat) as [Hlt|Hge].
  - destruct n as [|n]; [by exists O|]. exfalso.
    destruct Hn as [Hn|(b' & Hl & Hb')].
    + rewrite length_app in Hn. lia.
    + rewrite lookup_app_l in Hl by done. rewrite Henc in Hl. simpl in Hl.
      rewrite Forall_lookup in Ht. apply Ht in Hl. congruence.
  - destruct (IH (n - length (encode_char c))%nat) as [k Hk].
    + destruct Hn as [Hn|(b' & Hl & Hb')]; [left|right].
      * rewrite length_app in Hn. lia.
      * rewrite lookup_app_r in Hl by lia. eauto.
    + exists (S k). simpl. rewrite take_app, (take_ge (encode_char c)) by lia.
      by rewrite Hk.
Qed.

(** A boundary lies between two encoded characters. *)
Lemma boundary_cut s cs n :
  Forall is_scalar cs -> bytes s = concat (map encode_char cs) -> is_char_boundary s n = true ->
  exists k, take n (bytes s) = concat (map encode_char (take k cs)).
Proof.
  intros Hcs Hb Hn. rewrite Hb. apply concat_encode_prefix; [done|]. rewrite <- Hb.
  unfold is_char_boundary in Hn. destruct n as [|n].
  - destruct (bytes s) as [|b l] eqn:Hs; [by left|].
    right. exists b. split; [done|].
    destruct Hcs as [|c cs Hc Hcs]; simpl in Hb; [done|].
    destruct (encode_char_shape c Hc) as (b' & t & Henc & Hb' & Ht).
    rewrite Henc in Hb. by simplify_eq/=.
  - destruct (bytes s !! S n) as [b|] eqn:Hl.
    + right. exists b. split; [done|]. by apply negb_true_iff.
    + left. apply Nat.eqb_eq in Hn. by rewrite length_bytes.
Qed.

(** Cutting a valid string at a boundary gives a valid string. *)
Lemma valid_utf8_take s n :
  valid_utf8 s -> is_char_boundary s n = true -> valid_utf8 (str_take n s).
Proof.
  intros (cs & Hcs & Hb) Hn. destruct (boundary_cut s cs n Hcs Hb Hn) as [k Hk].
  exists (take k cs). split; [by apply Forall_take|]. by rewrite bytes_str_take.
Qed.

Lemma valid_utf8_ascii s :
  Forall (fun b => b < 128) (bytes s) -> valid_utf8 s.
Proof.
  intros H. exists (bytes s).
  assert (Hr := bytes_range s).
  induction (bytes s) as [|b l IH]; [done|].
  apply Forall_cons in H as [Hb H]. apply Forall_cons in Hr as [Hr0 Hr].
  destruct (IH H Hr) as [IHs IHc]. split.
  - constructor; [unfold is_scalar; lia | done].
  - simpl. unfold encode_char at 1. rewrite (proj2 (Z.ltb_lt b 128)) by lia.
    simpl. by rewrite <- IHc.
Qed.

(** ** Decoding what was encoded *)
Lemma lor_shiftl a b n : 0 <= n -> 0 <= b < 2 ^ n -> Z.lor (Z.shiftl a n) b = a * 2 ^ n + b.
Proof.
  intros Hn Hb. assert (Z.land (Z.shiftl a n) b = 0) as Hz.
  { apply Z.bits_inj'. intros i Hi. rewrite Z.land_spec, Z.bits_0.
    destruct (Z.lt_ge_cases i n).
    - by rewrite Z.shiftl_spec_low.
    - replace b with (b mod 2 ^ n) by (by rewrite Z.mod_small).
      rewrite Z.mod_pow2_bits_high by lia. by rewrite andb_false_r. }
  rewrite <- Z.shiftl_mul_pow2 by done. rewrite Z.add_nocarry_lxor by done.
  by rewrite Z.lxor_lor.
Qed.

Lemma land_63 a : Z.land a 63 = a mod 64.
Proof. by apply (Z.land_ones a 6). Qed.
Lemma land_31 a : Z.land a 31 = a mod 32.
Proof. by apply (Z.land_ones a 5). Qed.
Lemma land_7 a : Z.land a 7 = a mod 8.
Proof. by apply (Z.land_ones a 3). Qed.

(** One encoded character is decoded in front of the rest. *)
Lemma decode_encode_char c r :
  is_scalar c -> decode_utf8 (encode_char c ++ r) = c :: decode_utf8 r.
Proof.
  intros Hc. assert (0 <= c < 1114112) as Hr by (unfold is_scalar in Hc; lia). clear Hc.
  unfold encode_char. destruct (Z.ltb_spec c 128); [|destruct (Z.ltb_spec c 2048);
    [|destruct (Z.ltb_spec c 65536)]]; simpl app; cbn [decode_utf8].
  - by rewrite (proj2 (Z.ltb_lt c 128)).
  - rewrite (proj2 (Z.ltb_ge _ 128)), (proj2 (Z.ltb_lt _ 224)) by (Z.div_mod_to_equations; lia).
    rewrite land_31, land_63, (lor_shiftl _ _ 6) by (Z.div_mod_to_equations; lia).
    f_equal. change (2 ^ 6) with 64. Z.div_mod_to_equations; lia.
  - rewrite (proj2 (Z.ltb_ge _ 128)), (proj2 (Z.ltb_ge _ 224)), (proj2 (Z.ltb_lt _ 240))
      by (Z.div_mod_to_equations; lia).
    rewrite land_31, !land_63, (lor_shiftl _ _ 6) by (Z.div_mod_to_equations; lia).
    rewrite (lor_shiftl _ _ 12) by (change (2 ^ 6) with 64; change (2 ^ 12) with 4096; Z.div_mod_to_equations; lia).
    f_equal. change (2 ^ 6) with 64. change (2 ^ 12) with 4096. Z.div_mod_to_equations; lia.
  - rewrite (proj2 (Z.ltb_ge _ 128)), (proj2 (Z.ltb_ge _ 224)), (proj2 (Z.ltb_ge _ 240))
      by (Z.div_mod_to_equations; lia).
    rewrite land_31, land_7, !land_63, (lor_shiftl ((128 + c / 4096 mod 64) mod 64) _ 6) by (Z.div_mod_to_equations; lia).
    rewrite (lor_shiftl _ ((128 + c mod 64) mod 64) 6) by (Z.div_mod_to_equations; lia).
    rewrite (lor_shiftl _ _ 18) by (change (2 ^ 6) with 64; change (2 ^ 18) with 262144; Z.div_mod_to_equations; lia).
    f_equal. change (2 ^ 6) with 64. change (2 ^ 18) with 262144. Z.div_mod_to_equations; lia.
Qed.

Lemma decode_encoded_chars cs : Forall is_scalar cs -> decode_utf8 (concat (map encode_char cs)) = cs.
Proof. induction 1 as [|c cs Hc _ IH]; [done|]. simpl. rewrite decode_encode_char by done. by rewrite IH. Qed.

(** A valid string is the encoding of its characters. *)
Lemma valid_utf8_chars s : valid_utf8 s -> Forall is_scalar (chars s) /\ bytes s = concat (map encode_char (chars s)).
Proof. intros (cs & Hcs & Hb). unfold chars. by rewrite Hb, decode_encoded_chars. Qed.

Lemma encode_char_zero c : is_scalar c -> 0 ∈ encode_char c <-> c = 0.
Proof.
  intros Hc. assert (0 <= c < 1114112) as Hr by (unfold is_scalar in Hc; lia). clear Hc. unfold encode_char.
  destruct (Z.ltb_spec c 128); [|destruct (Z.ltb_spec c 2048); [|destruct (Z.ltb_spec c 65536)]];
    rewrite ?elem_of_cons, elem_of_nil; (split; [|intros ->; try lia; auto]);
    intros Hd; repeat (destruct Hd as [Hd|Hd]; [Z.div_mod_to_equations; lia|]); done.
Qed.

(** A character is NUL exactly when a byte is. *)
Lemma nul_char_byte s : valid_utf8 s -> 0 ∈ chars s <-> 0 ∈ bytes s.
Proof.
  intros Hv. destruct (valid_utf8_chars s Hv) as [Hs ->]. induction Hs as [|c cs Hc _ IH]; simpl; [done|].
  rewrite elem_of_cons, elem_of_app, IH, encode_char_zero by done. split; intros [?|?]; auto.
Qed.

(** No more characters than bytes. *)
Lemma length_decode_utf8 bs : (length (decode_utf8 bs) <= length bs)%nat.
Proof.
  induction bs as [[|x r] IH] using (well_founded_induction (well_founded_ltof _ (@length Z))); [done|].
  simpl. assert (forall r', (length r' <= length r)%nat -> (length (decode_utf8 r') <= length r')%nat) as IH'.
  { intros r' Hr. apply IH. unfold ltof. simpl. lia. }
  destruct (x <? 128); simpl; [specialize (IH' r); lia|].
  destruct r as [|y r1]; simpl in *; [lia|].
  destruct (x <? 224); simpl; [specialize (IH' r1); lia|].
  destruct r1 as [|z r2]; simpl in *; [lia|].
  destruct (x <? 240); simpl; [specialize (IH' r2); lia|].
  destruct r2 as [|w r3]; simpl in *; [lia|]. specialize (IH' r3). lia.
Qed.

Lemma decode_ascii bs : Forall (fun b => b < 128) bs -> decode_utf8 bs = bs.
Proof.
  induction 1 as [|b bs Hb _ IH]; [done|]. cbn [decode_utf8]. rewrite (proj2 (Z.ltb_lt _ _) Hb). by rewrite IH.
Qed.

Lemma chars_le s : Z.of_nat (length (chars s)) <= slen s.
Proof. rewrite slen_bytes. unfold chars. pose proof (length_decode_utf8 (bytes s)). lia. Qed.

(** ** Unsigned decimal numbers: [Display] and [FromStr] *)
Definition digit_char (d : Z) : Ascii.ascii := Ascii.ascii_of_N (Z.to_N (48 + d)).

(** Twenty digits are enough for every 64-bit value. *)
Fixpoint decimal_go (fuel : nat) (n : Z) (acc : string) : string :=
  match fuel with
  | O => acc
  | S fuel' =>
      let acc' := String (digit_char (n mod 10)) acc in
      if n <? 10 then acc' else decimal_go fuel' (n / 10) acc'
  end.
Definition decimal (n : Z) : string := decimal_go 20 n EmptyString.

(** The value of a run of ASCII digits, most significant first. *)
Definition digits_value (bs : list Z) : Z :=
  foldl (fun acc b => acc * 10 + (b - 48)) 0 bs.

Lemma byte_val_digit_char d : 0 <= d < 10 -> byte_val (digit_char d) = 48 + d.
Proof.
  intros Hd. unfold byte_val, digit_char. rewrite Ascii.N_ascii_embedding by lia. lia.
Qed.

Lemma decimal_go_digits fuel n acc :
  0 <= n -> Forall (fun b => is_ascii_digit b = true) (bytes acc) ->
  Forall (fun b => is_ascii_digit b = true) (bytes (decimal_go fuel n acc)).
Proof.
  revert n acc. induction fuel as [|fuel IH]; intros n acc Hn Hacc; [done|].
  cbn [decimal_go].
  assert (Forall (fun b => is_ascii_digit b = true) (bytes (String (digit_char (n mod 10)) acc))).
  { simpl. constructor; [|done].
    pose proof (Z.mod_pos_bound n 10 ltac:(lia)).
    rewrite byte_val_digit_char by lia. unfold is_ascii_digit.
    apply andb_true_iff. lia. }
  destruct (n <? 10); [done|]. apply IH; [|done]. apply Z.div_pos; lia.
Qed.

Lemma decimal_digits n :
  0 <= n -> Forall (fun b => is_ascii_digit b = true) (bytes (decimal n)).
Proof. intros Hn. apply decimal_go_digits; [done|constructor]. Qed.

Lemma digits_value_go fuel n acc :
  0 <= n < 10 ^ Z.of_nat fuel ->
  foldl (fun a b => a * 10 + (b - 48)) 0 (bytes (decimal_go fuel n acc)) =
  foldl (fun a b => a * 10 + (b - 48)) n (bytes acc).
Proof.
  revert n acc. induction fuel as [|fuel IH]; intros n acc Hn.
  { simpl in *. by replace n with 0 by lia. }
  cbn [decimal_go].
  pose proof (Z.mod_pos_bound n 10 ltac:(lia)).
  pose proof (Z.div_mod n 10 ltac:(lia)).
  destruct (Z.ltb_spec n 10).
  - simpl. rewrite byte_val_digit_char by lia. f_equal.
    rewrite Z.mod_small by lia. lia.
  - rewrite IH.
    + simpl. rewrite byte_val_digit_char by lia. f_equal. lia.
    + rewrite Nat2Z.inj_succ, Z.pow_succ_r in Hn by lia.
      split; [apply Z.div_pos; lia|]. apply Z.div_lt_upper_bound; lia.
Qed.

(** Printing and reading back a 64-bit number. *)
Lemma digits_value_decimal n : is_u64 n -> digits_value (bytes (decimal n)) = n.
Proof.
  intros Hn. unfold digits_value, decimal. rewrite digits_value_go; [done|].
  unfold is_u64, u64_max in Hn. lia.
Qed.

Lemma decimal_nonempty n : is_empty (decimal n) = false.
Proof.
  assert (H : forall fuel m acc, is_empty acc = false -> is_empty (decimal_go fuel m acc) = false).
  { induction fuel as [|fuel IH]; intros m acc Ha; [done|]. cbn [decimal_go].
    destruct (m <? 10); [done|]. by apply IH. }
  unfold decimal. change 20%nat with (S 19). generalize 19%nat as k. intros k.
  cbn [decimal_go]. destruct (n <? 10); [done|]. by apply H.
Qed.

Lemma slen_decimal n : slen (decimal n) <= 20.
Proof.
  assert (H : forall fuel m acc, slen (decimal_go fuel m acc) <= Z.of_nat fuel + slen acc).
  { induction fuel as [|fuel IH]; intros m acc; cbn [decimal_go]; [lia|].
    destruct (m <? 10); [unfold slen; simpl; lia|]. specialize (IH (m / 10) (String (digit_char (m mod 10)) acc)).
    unfold slen in *. simpl in *. lia. }
  apply (H 20%nat).
Qed.

Lemma valid_utf8_decimal n : 0 <= n -> valid_utf8 (decimal n).
Proof.
  intros Hn. apply valid_utf8_ascii. eapply Forall_impl; [by apply decimal_digits|].
  intros b Hb. unfold is_ascii_digit in Hb. bools. lia.
Qed.

(** * The order of strings

    Rust compares strings byte by byte; [str_le] is the order in which BTree
    maps and sets of strings are walked. *)

(** [<] on [&str]: byte by byte. *)
Fixpoint bytes_ltb (a b : list Z) : bool :=
  match a, b with
  | [], [] => false
  | [], _ :: _ => true
  | _ :: _, [] => false
  | x :: a', y :: b' => (x <? y) || ((x =? y) && bytes_ltb a' b')
  end.
Definition str_ltb (a b : string) : bool := bytes_ltb (bytes a) (bytes b).
Definition str_le (a b : string) : Prop := str_ltb b a = false.
#[export] Instance str_le_dec : RelDecision str_le.
Proof. intros a b. unfold str_le. apply _. Defined.

Lemma bytes_ltb_irrefl a : bytes_ltb a a = false.
Proof. induction a as [|x a IH]; [done|]. cbn. by rewrite Z.ltb_irrefl, IH, andb_false_r. Qed.
Lemma bytes_ltb_trans a b c : bytes_ltb a b = true -> bytes_ltb b c = true -> bytes_ltb a c = true.
Proof.
  revert b c. induction a as [|x a IH]; intros [|y b] [|z c]; try done. cbn.
  rewrite !orb_true_iff, !andb_true_iff, !Z.ltb_lt, !Z.eqb_eq. intros [H1|[-> H1]] [H2|[-> H2]]; [left; lia|by left|by left|].
  right. split; [done|]. by eapply IH.
Qed.
Lemma bytes_ltb_total a b : bytes_ltb a b = false -> bytes_ltb b a = false -> a = b.
Proof.
  revert b. induction a as [|x a IH]; intros [|y b]; try done. cbn. rewrite !orb_false_iff.
  intros [H1 H2] [H3 H4]. bools. assert (x = y) as -> by lia. rewrite Z.eqb_refl in H2, H4. f_equal. by apply IH.
Qed.

Lemma str_ltb_irrefl s : str_ltb s s = false.
Proof. apply bytes_ltb_irrefl. Qed.
Lemma str_ltb_trans a b c : str_ltb a b = true -> str_ltb b c = true -> str_ltb a c = true.
Proof. apply bytes_ltb_trans. Qed.
Lemma str_ltb_total a b : str_ltb a b = false -> str_ltb b a = false -> a = b.
Proof. intros H1 H2. by apply bytes_inj, bytes_ltb_total. Qed.

#[export] Instance str_le_total : Total str_le.
Proof.
  intros a b. unfold str_le. destruct (str_ltb b a) eqn:Hba; [right|by left].
  apply not_true_is_false. intros Hab. pose proof (str_ltb_trans _ _ _ Hba Hab) as Hbb.
  by rewrite str_ltb_irrefl in Hbb.
Qed.
#[export] Instance str_le_transitive : Transitive str_le.
Proof.
  intros a b c Hab Hbc. unfold str_le in *. destruct (str_ltb c a) eqn:Hca; [|done].
  destruct (str_ltb a b) eqn:H1; [by rewrite (str_ltb_trans _ _ _ Hca H1) in Hbc|].
  rewrite (str_ltb_total a b H1 Hab) in Hca. congruence.
Qed.

(** Antisymmetry, so that a sorted list of strings is determined by its elements. *)
#[export] Instance str_le_antisymm : AntiSymm (=) str_le.
Proof. intros a b Hab Hba. by apply str_ltb_total. Qed.
