(* ===== verification/Tables.v ===== *)
(** * Queries over tables

    Lemmas shared by the components that keep their state in tables: MAX, EXISTS
    and COUNT as folds over a finite map, and ORDER BY as a sorted list. *)
From stdpp Require Import base list gmap sorting.
From Stdlib Require Import ZArith Lia.
From S2P Require Import Prelude.

Open Scope Z_scope.

Section Folds.
Context `{Countable K} {V : Type}.
Implicit Types (m : gmap K V) (P : K -> V -> bool) (f : K -> V -> Z).

(** [COALESCE(MAX(f), 0) .. WHERE P] *)
Definition fold_max P f m : Z :=
  map_fold (fun k v acc => if P k v then Z.max (f k v) acc else acc) 0 m.

Lemma fold_max_spec P f m :
  0 <= fold_max P f m
  /\ (forall k v, m !! k = Some v -> P k v = true -> f k v <= fold_max P f m)
  /\ (fold_max P f m = 0 \/ exists k v, m !! k = Some v /\ P k v = true /\ f k v = fold_max P f m).
Proof.
  unfold fold_max. apply (map_fold_weak_ind (fun r m =>
    0 <= r /\ (forall k v, m !! k = Some v -> P k v = true -> f k v <= r)
    /\ (r = 0 \/ exists k v, m !! k = Some v /\ P k v = true /\ f k v = r))).
  - split; [done|]. split; [intros k v Hk; by rewrite lookup_empty in Hk|by left].
  - intros k v m' r Hk (H0 & Hle & Hex).
    assert (forall k' v', m' !! k' = Some v' -> <[k:=v]> m' !! k' = Some v') as Hin.
    { intros k' v' Hk'. rewrite lookup_insert_ne; [done|]. intros ->. congruence. }
    destruct (P k v) eqn:HP.
    + split; [lia|]. split.
      * intros k' v' [[<- <-]|[? Hk']]%lookup_insert_Some HP'; [lia|]. specialize (Hle k' v' Hk' HP'). lia.
      * destruct (Z.max_spec (f k v) r) as [[? ->]|[? ->]].
        -- destruct Hex as [?|(k' & v' & ? & ? & ?)]; [by left|right; exists k', v'; auto].
        -- right. exists k, v. by rewrite lookup_insert_eq.
    + split; [done|]. split.
      * intros k' v' [[<- <-]|[? Hk']]%lookup_insert_Some HP'; [congruence|by eapply Hle].
      * destruct Hex as [?|(k' & v' & ? & ? & ?)]; [by left|right; exists k', v'; auto].
Qed.

(** [EXISTS(SELECT 1 .. WHERE P)] *)
Definition fold_exists P m : bool := map_fold (fun k v acc => P k v || acc) false m.

Lemma fold_exists_true P m : fold_exists P m = true <-> exists k v, m !! k = Some v /\ P k v = true.
Proof.
  unfold fold_exists. apply (map_fold_weak_ind (fun r m =>
    r = true <-> exists k v, m !! k = Some v /\ P k v = true)).
  - split; [discriminate|]. intros (k & v & Hk & _). by rewrite lookup_empty in Hk.
  - intros k v m' r Hk IH. rewrite orb_true_iff, IH. split.
    + intros [HP|(k' & v' & Hk' & HP)].
      * exists k, v. by rewrite lookup_insert_eq.
      * exists k', v'. rewrite lookup_insert_ne; [done|]. intros ->. congruence.
    + intros (k' & v' & [[<- <-]|[? Hk']]%lookup_insert_Some & HP); [by left|right; eauto].
Qed.

Lemma fold_exists_false P m :
  fold_exists P m = false <-> forall k v, m !! k = Some v -> P k v = false.
Proof.
  rewrite <- not_true_iff_false, fold_exists_true. split.
  - intros Hn k v Hk. apply not_true_iff_false. intros HP. eauto.
  - intros Hall (k & v & Hk & HP). by rewrite (Hall k v Hk) in HP.
Qed.

(** [COUNT( * ) .. WHERE P] is zero when no row qualifies. *)
Lemma count_zero (P : K * V -> Prop) `{!forall p, Decision (P p)} m :
  Z.of_nat (size (filter P m)) <= 0 <-> forall k v, m !! k = Some v -> ~ P (k, v).
Proof.
  assert (Z.of_nat (size (filter P m)) <= 0 <-> size (filter P m) = O) as -> by lia.
  rewrite map_size_empty_iff, map_empty_filter. unfold map_Forall. done.
Qed.
End Folds.

(** ** ORDER BY *)
Lemma NoDup_omap {A B} (f : A -> option B) (l : list A) :
  (forall x y z, f x = Some z -> f y = Some z -> x = y) -> NoDup l -> NoDup (omap f l).
Proof.
  intros Hinj. induction 1 as [|x l Hx _ IH]; simpl; [constructor|].
  destruct (f x) as [z|] eqn:Hz; [|done]. constructor; [|done].
  intros (y & Hy & Hfy)%list_elem_of_omap. by rewrite (Hinj x y z) in Hx.
Qed.

Definition ordered_by {A} (key : A -> Z) (l : list A) : Prop :=
  StronglySorted (fun a b => key a <= key b) l.

(** The sort of the queries: the tables are read in an unspecified order. *)
Lemma merge_sort_ordered {A} (key : A -> Z) (R : A -> A -> Prop) `{!RelDecision R} l :
  (forall a b, R a b <-> key a <= key b) -> ordered_by key (merge_sort R l).
Proof.
  intros HR. assert (Total R) by (intros a b; rewrite !HR; lia).
  assert (Transitive R) by (intros a b c; rewrite !HR; lia).
  pose proof (StronglySorted_merge_sort R l) as Hs. unfold ordered_by.
  induction Hs as [|a l' _ IH Ha]; constructor; [done|].
  eapply Forall_impl; [exact Ha|]. intros b. by apply HR.
Qed.

(** A sorted list is determined by its elements when keys are distinct. *)
Lemma ordered_unique {A} (key : A -> Z) l1 l2 :
  ordered_by key l1 -> ordered_by key l2 ->
  (forall x y, x ∈ l1 -> y ∈ l1 -> key x = key y -> x = y) -> l1 ≡ₚ l2 -> l1 = l2.
Proof.
  intros H1 H2 Hinj Hp.
  apply (StronglySorted_unique_strong (fun a b => key a <= key b)); [|done..].
  intros x y Hx Hy L1 L2. apply Hinj; [done| |lia]. by rewrite Hp.
Qed.

Lemma ordered_snoc {A} (key : A -> Z) l x :
  ordered_by key l -> (forall y, y ∈ l -> key y <= key x) -> ordered_by key (l ++ [x]).
Proof.
  intros Hs. induction Hs as [|a l Hs IH Ha]; intros Hx; simpl.
  - repeat constructor.
  - constructor; [apply IH; intros y Hy; apply Hx; by right|].
    apply Forall_app. split; [done|]. constructor; [apply Hx; left|constructor].
Qed.

Lemma ordered_filter {A} (key : A -> Z) (P : A -> Prop) `{!forall x, Decision (P x)} l :
  ordered_by key l -> ordered_by key (filter P l).
Proof.
  intros Hs. induction Hs as [|a l Hs IH Ha]; [constructor|].
  destruct (decide (P a)); [rewrite filter_cons_True by done|by rewrite filter_cons_False].
  constructor; [done|]. apply Forall_forall. intros x [_ Hx]%list_elem_of_filter.
  by eapply Forall_forall in Ha.
Qed.

Lemma ordered_strict {A} (key : A -> Z) l :
  ordered_by key l -> NoDup l -> (forall a b, a ∈ l -> b ∈ l -> key a = key b -> a = b) ->
  StronglySorted (fun a b => key a < key b) l.
Proof.
  intros Hs Hnd Hinj. induction Hs as [|a l Hs IH Ha]; constructor.
  - apply NoDup_cons in Hnd as [_ Hnd]. apply IH; [done|]. intros x y Hx Hy. apply Hinj; by right.
  - apply NoDup_cons in Hnd as [Hn _]. apply Forall_forall. intros b Hb. rewrite Forall_forall in Ha.
    specialize (Ha b Hb). assert (key a <> key b); [|lia]. intros Heq. apply Hn.
    rewrite (Hinj a b); [done|left|by right|done].
Qed.

(** In a sorted list the elements past a key are a suffix. *)
Lemma ordered_split {A} (key : A -> Z) l x :
  ordered_by key l -> (forall a b, a ∈ l -> b ∈ l -> key a = key b -> a = b) -> NoDup l -> x ∈ l ->
  exists l1, l = l1 ++ x :: filter (fun y => key x < key y) l.
Proof.
  intros Hs Hinj Hnd (l1 & l2 & ->)%list_elem_of_split. exists l1. f_equal. f_equal.
  rewrite filter_app, filter_cons_False by lia.
  assert (forall y, y ∈ l1 -> key y <= key x) as H1.
  { clear -Hs. induction l1 as [|a l1 IH]; [by intros y ?%elem_of_nil|].
    inversion Hs as [|? ? Hs' Ha]; subst. intros y [->|Hy]%elem_of_cons; [|by apply IH].
    eapply Forall_forall in Ha; [done|]. apply elem_of_app. right. left. }
  assert (forall y, y ∈ l2 -> key x < key y) as H2.
  { intros y Hy. assert (key x <= key y).
    { clear -Hs Hy. induction l1 as [|a l1 IH]; inversion Hs as [|? ? Hs' Ha]; subst; [|by apply IH].
      by eapply Forall_forall in Ha. }
    assert (key x <> key y); [|lia]. intros Heq.
    assert (x = y) as <-. { apply Hinj; [apply elem_of_app; right; left|apply elem_of_app; right; by right|done]. }
    apply NoDup_app in Hnd as (_ & _ & Hnd). by apply NoDup_cons in Hnd as [? _]. }
  assert (forall l : list A, (forall y, y ∈ l -> key x < key y) -> filter (fun y => key x < key y) l = l) as Hall.
  { clear. induction l as [|a l IH]; intros Hl; [done|]. rewrite filter_cons_True by (apply Hl; left).
    f_equal. apply IH. intros y Hy. apply Hl. by right. }
  assert (forall l : list A, (forall y, y ∈ l -> key y <= key x) -> filter (fun y => key x < key y) l = []) as Hnone.
  { clear. induction l as [|a l IH]; intros Hl; [done|].
    assert (key a <= key x) by (apply Hl; left).
    rewrite filter_cons_False by lia. apply IH. intros y Hy. apply Hl. by right. }
  by rewrite Hnone, Hall.
Qed.
