(* ===== verification/StdText.v ===== *)
(** * Text functions of the standard library

    What the code calls of [str], [String] and [core::num] besides RustStr.v:
    lossy decoding, trimming and splitting, ASCII case and unsigned parsing. *)
From stdpp Require Import base list strings.
From Stdlib Require Import ZArith Lia.
From S2P Require Import Prelude RustStr.

Open Scope Z_scope.
Open Scope rust_scope.

Fixpoint string_of_bytes (bs : list Z) : string :=
  match bs with [] => EmptyString | b :: r => String (Ascii.ascii_of_N (Z.to_N b)) (string_of_bytes r) end.
Definition of_chars (cs : list Z) : string := string_of_bytes (concat (map encode_char cs)).

(** ** Lossy decoding: [String::from_utf8_lossy] *)

(** [safe_get] of core::str::lossy: zero beyond the end. *)
Definition byte_at (bs : list Z) (i : nat) : Z := default 0 (bs !! i).

(** Whether a second byte may follow a first byte of a character of three or
    four bytes. *)
Definition second_of_three (a b : Z) : bool :=
  ((a =? 224) && (160 <=? b) && (b <=? 191))
  || ((225 <=? a) && (a <=? 236) && (128 <=? b) && (b <=? 191))
  || ((a =? 237) && (128 <=? b) && (b <=? 159))
  || ((238 <=? a) && (a <=? 239) && (128 <=? b) && (b <=? 191)).
Definition second_of_four (a b : Z) : bool :=
  ((a =? 240) && (144 <=? b) && (b <=? 191))
  || ((241 <=? a) && (a <=? 243) && (128 <=? b) && (b <=? 191))
  || ((a =? 244) && (128 <=? b) && (b <=? 143)).

(** One round of the loop of [Utf8Chunks::next]: how many bytes are taken, and
    whether they are a character. *)
Definition next_sequence (bs : list Z) : nat * bool :=
  let a := byte_at bs 0 in
  let b := byte_at bs 1 in
  if a <? 128 then (1, true)%nat
  else if (194 <=? a) && (a <=? 223)
  then if is_continuation b then (2, true)%nat else (1, false)%nat
  else if (224 <=? a) && (a <=? 239)
  then if negb (second_of_three a b) then (1, false)%nat
       else if is_continuation (byte_at bs 2) then (3, true)%nat else (2, false)%nat
  else if (240 <=? a) && (a <=? 244)
  then if negb (second_of_four a b) then (1, false)%nat
       else if negb (is_continuation (byte_at bs 2)) then (2, false)%nat
       else if is_continuation (byte_at bs 3) then (4, true)%nat else (3, false)%nat
  else (1, false)%nat.

(** U+FFFD *)
Definition REPLACEMENT : list Z := [239; 191; 189].

Fixpoint lossy_go (fuel : nat) (bs : list Z) : list Z :=
  match fuel, bs with
  | S fuel, _ :: _ =>
      let '(n, valid) := next_sequence bs in
      (if valid : bool then take n bs else REPLACEMENT) ++ lossy_go fuel (drop n bs)
  | _, _ => []
  end.
Definition from_utf8_lossy (bs : list Z) : string := string_of_bytes (lossy_go (length bs) bs).

(** ** Trimming and splitting *)
Definition str_trim (s : string) : string := of_chars (trim (chars s)).

(** [trim_end_matches] of ASCII characters. *)
Definition trim_end_matches (p : Z -> bool) (s : string) : string :=
  string_of_bytes (rev (drop_while p (rev (bytes s)))).

(** The bytes before the first byte that satisfies [p], and those from it on. *)
Fixpoint span (p : Z -> bool) (bs : list Z) : list Z * list Z :=
  match bs with
  | [] => ([], [])
  | b :: r => if p b then ([], bs) else let '(x, y) := span p r in (b :: x, y)
  end.

(** [split_once] and [rsplit_once] at an ASCII character. *)
Definition split_once (c : Z) (s : string) : option (string * string) :=
  match span (Z.eqb c) (bytes s) with
  | (_, []) => None
  | (before, _ :: after) => Some (string_of_bytes before, string_of_bytes after)
  end.
Definition rsplit_once (c : Z) (s : string) : option (string * string) :=
  match span (Z.eqb c) (rev (bytes s)) with
  | (_, []) => None
  | (after, _ :: before) => Some (string_of_bytes (rev before), string_of_bytes (rev after))
  end.
(** [s.split(p).next().unwrap_or(..)]: a split always has a first part. *)
Definition first_part (p : Z -> bool) (s : string) : string := string_of_bytes (fst (span p (bytes s))).

(** [str::split_whitespace], on characters. *)
Fixpoint words (word : list Z) (cs : list Z) : list (list Z) :=
  match cs with
  | [] => match word with [] => [] | _ => [rev word] end
  | c :: r =>
      if is_whitespace c
      then match word with [] => words [] r | _ => rev word :: words [] r end
      else words (c :: word) r
  end.
Definition split_whitespace (s : string) : list string := map of_chars (words [] (chars s)).

(** ** ASCII case *)
Definition ascii_lower (b : Z) : Z := if is_ascii_upper b then b + 32 else b.
Definition ascii_upper (b : Z) : Z := if is_ascii_lower b then b - 32 else b.
Definition to_ascii_lowercase (s : string) : string := string_of_bytes (map ascii_lower (bytes s)).
Definition to_ascii_uppercase (s : string) : string := string_of_bytes (map ascii_upper (bytes s)).
Definition eq_ignore_ascii_case (a b : string) : bool :=
  bool_decide (map ascii_lower (bytes a) = map ascii_lower (bytes b)).

(** [str::starts_with] and [str::contains], on bytes. *)
Fixpoint prefix_of (p s : list Z) : bool :=
  match p, s with
  | [], _ => true
  | x :: p, y :: s => (x =? y) && prefix_of p s
  | _ :: _, [] => false
  end.
Fixpoint contains (p s : list Z) : bool :=
  prefix_of p s || match s with [] => false | _ :: s => contains p s end.
Definition starts_with (s p : string) : bool := prefix_of (bytes p) (bytes s).

(** ** Unsigned parsing: [str::parse] of an unsigned integer up to [max] *)
Definition parse_digits (max : Z) (bs : list Z) : option Z :=
  foldl (fun acc b =>
    match acc with
    | Some n => if is_ascii_digit b && (n * 10 + (b - 48) <=? max) then Some (n * 10 + (b - 48)) else None
    | None => None
    end) (Some 0) bs.
Definition parse_unsigned (max : Z) (s : string) : option Z :=
  match bytes s with
  | [] => None
  | [43] => None
  | 43 :: r => parse_digits max r
  | bs => parse_digits max bs
  end.

(** ** Lemmas *)
Lemma bytes_string_of bs : Forall (fun b => 0 <= b < 256) bs -> bytes (string_of_bytes bs) = bs.
Proof.
  induction 1 as [|b bs Hb _ IH]; [done|]. simpl. rewrite IH. f_equal.
  unfold byte_val. rewrite Ascii.N_ascii_embedding; lia.
Qed.

Lemma string_of_bytes_of s : string_of_bytes (bytes s) = s.
Proof. apply bytes_inj, bytes_string_of, bytes_range. Qed.

Lemma prefix_of_spec p s : prefix_of p s = true <-> exists r, s = p ++ r.
Proof.
  revert s. induction p as [|x p IH]; intros s; simpl; [naive_solver|].
  destruct s as [|y s]; [split; [done|naive_solver]|].
  rewrite andb_true_iff, Z.eqb_eq, IH. naive_solver.
Qed.

Lemma contains_spec p s : contains p s = true <-> exists l r, s = l ++ p ++ r.
Proof.
  induction s as [|b s IH]; simpl; rewrite orb_true_iff, prefix_of_spec.
  - split.
    + intros [[r Hr]|]; [|done]. by exists [], r.
    + intros ([|] & r & Hl); [by left; exists r|done].
  - rewrite IH. split.
    + intros [[r Hr]|(l & r & ->)]; [by exists [], r|by exists (b :: l), r].
    + intros ([|b' l] & r & Hl); [by left; exists r|]. right. simpl in Hl. injection Hl as -> ->. eauto.
Qed.

Lemma span_spec p bs :
  fst (span p bs) ++ snd (span p bs) = bs
  /\ Forall (fun b => p b = false) (fst (span p bs))
  /\ match snd (span p bs) with [] => True | b :: _ => p b = true end.
Proof.
  induction bs as [|b bs (IH1 & IH2 & IH3)]; [done|]. simpl. destruct (p b) eqn:Hb; [done|].
  destruct (span p bs) as [x y]. simpl in *. split_and!; [by rewrite IH1|by constructor|done].
Qed.

Lemma span_app p x c y :
  Forall (fun b => p b = false) x -> p c = true -> span p (x ++ c :: y) = (x, c :: y).
Proof. induction 1 as [|b x Hb _ IH]; intros Hc; simpl; [by rewrite Hc|]. by rewrite Hb, IH. Qed.

(** ** ASCII text *)
Definition ascii (bs : list Z) : Prop := Forall (fun b => 0 <= b < 128) bs.

Lemma ascii_app a b : ascii (a ++ b) <-> ascii a /\ ascii b.
Proof. apply Forall_app. Qed.

Lemma bytes_of_ascii bs : ascii bs -> bytes (string_of_bytes bs) = bs.
Proof. intros Hb. apply bytes_string_of. eapply Forall_impl; [exact Hb|]. simpl. lia. Qed.

Lemma encode_ascii cs : ascii cs -> concat (map encode_char cs) = cs.
Proof.
  induction 1 as [|b l Hb _ IH]; [done|]. simpl. rewrite IH.
  unfold encode_char. by destruct (Z.ltb_spec b 128); [|lia].
Qed.

Lemma chars_ascii s : ascii (bytes s) -> chars s = bytes s.
Proof. intros Hs. apply decode_ascii. eapply Forall_impl; [exact Hs|]. simpl. lia. Qed.

Lemma of_chars_ascii cs : ascii cs -> of_chars cs = string_of_bytes cs.
Proof. intros Hs. unfold of_chars. by rewrite encode_ascii. Qed.

Lemma lossy_ascii fuel bs : ascii bs -> (length bs <= fuel)%nat -> lossy_go fuel bs = bs.
Proof.
  intros Hs. revert fuel. induction Hs as [|b bs Hb _ IH]; intros fuel Hf; [by destruct fuel|].
  destruct fuel as [|fuel]; [simpl in Hf; lia|]. cbn [lossy_go].
  unfold next_sequence, byte_at. simpl. rewrite (proj2 (Z.ltb_lt b 128)) by lia. simpl.
  rewrite ?drop_0. f_equal. apply IH. simpl in Hf. lia.
Qed.

Lemma from_utf8_lossy_ascii bs : ascii bs -> from_utf8_lossy bs = string_of_bytes bs.
Proof. intros Hs. unfold from_utf8_lossy. by rewrite lossy_ascii. Qed.

(** Trimming removes [p] at both ends and stops at the first other character. *)
Lemma drop_while_stop p x y :
  Forall (fun c => p c = true) x -> match y with [] => True | c :: _ => p c = false end ->
  drop_while p (x ++ y) = y.
Proof.
  intros Hx Hy. induction Hx as [|c x Hc _ IH]; simpl; [|by rewrite Hc].
  destruct y as [|c y]; [done|]. simpl. by rewrite Hy.
Qed.

(** Text that neither starts nor ends with a character that satisfies [p]. *)
Definition bounded_by (p : Z -> bool) (l : list Z) : Prop :=
  match l with [] => True | c :: _ => p c = false end
  /\ match rev l with [] => True | c :: _ => p c = false end.

Lemma trim_end_matches_spec p l m :
  ascii l -> ascii m -> Forall (fun c => p c = true) m ->
  match rev l with [] => True | c :: _ => p c = false end ->
  trim_end_matches p (string_of_bytes (l ++ m)) = string_of_bytes l.
Proof.
  intros Hl Hm Hp Hend. unfold trim_end_matches. rewrite bytes_of_ascii by (by apply ascii_app).
  rewrite rev_app_distr, drop_while_stop; [by rewrite rev_involutive| |done].
  apply Forall_forall. intros c Hc. rewrite Forall_forall in Hp. apply Hp.
  apply list_elem_of_In, in_rev, list_elem_of_In, Hc.
Qed.

Lemma str_trim_ascii x l y :
  ascii (x ++ l ++ y) -> Forall (fun c => is_whitespace c = true) x -> Forall (fun c => is_whitespace c = true) y ->
  bounded_by is_whitespace l ->
  str_trim (string_of_bytes (x ++ l ++ y)) = string_of_bytes l.
Proof.
  intros Ha Hx Hy [Hstart Hend]. unfold str_trim. rewrite chars_ascii by (by rewrite bytes_of_ascii).
  rewrite bytes_of_ascii by done. apply ascii_app in Ha as [_ [Hl _]%ascii_app].
  rewrite <-of_chars_ascii by done. f_equal. unfold trim. destruct l as [|c l].
  - simpl app. assert (drop_while is_whitespace (x ++ y) = []) as ->; [|done].
    rewrite <-(app_nil_r (x ++ y)). apply drop_while_stop; [by apply Forall_app|done].
  - rewrite drop_while_stop by done. rewrite rev_app_distr, drop_while_stop; [by rewrite rev_involutive| |done].
    apply Forall_forall. intros d Hd. rewrite Forall_forall in Hy. apply Hy.
    apply list_elem_of_In, in_rev, list_elem_of_In, Hd.
Qed.

Lemma split_once_here c x y :
  ascii (x ++ c :: y) -> (c ∉ x) ->
  split_once c (string_of_bytes (x ++ c :: y)) = Some (string_of_bytes x, string_of_bytes y).
Proof.
  intros Ha Hc. unfold split_once. rewrite bytes_of_ascii by done.
  rewrite span_app; [done| |by apply Z.eqb_refl].
  apply Forall_forall. intros b Hb. apply Z.eqb_neq. by intros ->.
Qed.

(** Graphic characters: no blank and no control. *)
Definition graphic (bs : list Z) : Prop := Forall (fun b => 33 <= b < 127) bs.

Lemma graphic_ascii bs : graphic bs -> ascii bs.
Proof. intros Hb. eapply Forall_impl; [exact Hb|]. simpl. lia. Qed.

Lemma graphic_whitespace b : 33 <= b < 127 -> is_whitespace b = false.
Proof.
  intros Hb. unfold is_whitespace.
  repeat match goal with
         | |- context [?a <=? ?b] => destruct (Z.leb_spec a b); try lia
         | |- context [?a =? ?b] => destruct (Z.eqb_spec a b); try lia
         end; done.
Qed.

Lemma graphic_bounded bs : graphic bs -> bounded_by is_whitespace bs.
Proof.
  intros Hb. split; [destruct Hb; [done|by apply graphic_whitespace]|].
  assert (graphic (rev bs)) as Hr by (by apply Forall_rev).
  destruct Hr; [done|by apply graphic_whitespace].
Qed.

Lemma words_graphic word x rest :
  graphic x -> words word (x ++ rest) = words (rev x ++ word) rest.
Proof.
  intros Hx. revert word. induction Hx as [|c x Hc _ IH]; intros word; [done|].
  simpl. rewrite graphic_whitespace by done. rewrite IH. f_equal. by rewrite <-app_assoc.
Qed.

(** The words of three words with a space between them. *)
Lemma split_whitespace_three a b c :
  graphic a -> graphic b -> graphic c -> a <> [] -> b <> [] -> c <> [] ->
  split_whitespace (string_of_bytes (a ++ 32 :: b ++ 32 :: c))
  = [string_of_bytes a; string_of_bytes b; string_of_bytes c].
Proof.
  intros Ha Hb Hc Hna Hnb Hnc. unfold split_whitespace.
  assert (forall w rest, w <> [] -> graphic w -> words [] (w ++ 32 :: rest) = w :: words [] rest) as Hword.
  { intros w rest Hw Hg. rewrite words_graphic by done. rewrite app_nil_r. simpl.
    destruct (rev w) as [|x r] eqn:Hr; [by destruct w; [|apply app_eq_nil in Hr as []]|].
    by rewrite <-Hr, rev_involutive. }
  assert (ascii (a ++ 32 :: b ++ 32 :: c)) as Hall.
  { apply ascii_app. split; [by apply graphic_ascii|]. apply Forall_cons. split; [lia|].
    apply ascii_app. split; [by apply graphic_ascii|]. apply Forall_cons. split; [lia|]. by apply graphic_ascii. }
  rewrite chars_ascii, bytes_of_ascii by (by rewrite ?bytes_of_ascii).
  rewrite !Hword by done. rewrite <-(app_nil_r c), words_graphic, !app_nil_r by done.
  destruct (rev c) as [|x r] eqn:Hr; [by destruct c; [|apply app_eq_nil in Hr as []]|].
  cbn [words map]. rewrite <-Hr, rev_involutive.
  by rewrite !of_chars_ascii by (by apply graphic_ascii).
Qed.

(** Parsing what [decimal] prints. *)
Lemma parse_digits_value max acc bs :
  0 <= acc -> Forall (fun b => is_ascii_digit b = true) bs ->
  acc <= foldl (fun a b => a * 10 + (b - 48)) acc bs
  /\ (foldl (fun a b => a * 10 + (b - 48)) acc bs <= max ->
      foldl (fun acc b =>
        match acc with
        | Some n => if is_ascii_digit b && (n * 10 + (b - 48) <=? max) then Some (n * 10 + (b - 48)) else None
        | None => None
        end) (Some acc) bs = Some (foldl (fun a b => a * 10 + (b - 48)) acc bs)).
Proof.
  intros Hacc Hb. revert acc Hacc. induction Hb as [|b bs Hb _ IH]; intros acc Hacc; [by split|].
  assert (48 <= b <= 57) as Hr by (unfold is_ascii_digit in Hb; bools; lia).
  destruct (IH (acc * 10 + (b - 48)) ltac:(lia)) as [IH1 IH2]. simpl. split; [lia|].
  intros Hm. rewrite Hb. destruct (Z.leb_spec (acc * 10 + (b - 48)) max); [by apply IH2|lia].
Qed.

Lemma parse_unsigned_decimal max n : is_u64 n -> n <= max -> parse_unsigned max (decimal n) = Some n.
Proof.
  intros Hn Hm. pose proof (decimal_digits n ltac:(unfold is_u64 in Hn; lia)) as Hd.
  pose proof (digits_value_decimal n Hn) as Hv. pose proof (decimal_nonempty n) as Hne.
  destruct (parse_digits_value max 0 (bytes (decimal n)) ltac:(lia) Hd) as [_ Hp].
  unfold digits_value in Hv. rewrite Hv in Hp. specialize (Hp Hm). unfold parse_unsigned.
  destruct (decimal n) as [|c s]; [done|]. simpl bytes in *.
  apply Forall_cons in Hd as [Hc _]. assert (48 <= byte_val c <= 57) as Hr by (unfold is_ascii_digit in Hc; bools; lia).
  unfold parse_digits. destruct (byte_val c) as [|p|]; [done| |lia].
  assert (p <> 43%positive) by lia.
  repeat (destruct p as [p|p|]; try done; try lia).
Qed.
