(* ===== verification/StdIo.v ===== *)
(** * Buffered reading of the standard library

    [std::io::BufRead] over a source that delivers its bytes in pieces: what one
    read of the source returns is one [Input], with the time the read took.  A
    piece that is only partly used stays in front, which is the buffer. *)
From stdpp Require Import base list.
From Stdlib Require Import ZArith Lia.
From S2P Require Import Prelude.

Open Scope Z_scope.
Open Scope rust_scope.

(** The result of one read: some bytes (none at the end of the file), an
    interruption, an expired read timeout, or another error. *)
Inductive Input := Bytes (bs : list Z) | Interrupted | TimedOut | Broken.
Inductive ReadError := ReadTimeout | ReadOther.

(** The present time and the reads to come; the end of the file when there are none. *)
Record Reader := mkReader { clock : Z; inputs : list (Z * Input) }.

Definition unread (bs : list Z) (ins : list (Z * Input)) : list (Z * Input) :=
  match bs with [] => ins | _ => (0, Bytes bs) :: ins end.

(** The bytes up to and including the first [d]. *)
Fixpoint through (d : Z) (bs : list Z) : option (list Z) :=
  match bs with
  | [] => None
  | b :: r => if b =? d then Some [b] else option_map (cons b) (through d r)
  end.

(** [reader.take(limit).read_until(delimiter, &mut acc)]: interruptions are retried. *)
Fixpoint read_until_go (d : Z) (limit : nat) (acc : list Z) (now : Z) (ins : list (Z * Input))
    : result ReadError (list Z) * Reader :=
  match limit with
  | O => (Ok acc, mkReader now ins)
  | _ =>
      match ins with
      | [] => (Ok acc, mkReader now [])
      | (wait, Interrupted) :: rest => read_until_go d limit acc (now + wait) rest
      | (wait, TimedOut) :: rest => (Err ReadTimeout, mkReader (now + wait) rest)
      | (wait, Broken) :: rest => (Err ReadOther, mkReader (now + wait) rest)
      | (wait, Bytes []) :: rest => (Ok acc, mkReader (now + wait) rest)
      | (wait, Bytes bs) :: rest =>
          let available := take limit bs in
          match through d available with
          | Some line => (Ok (acc ++ line), mkReader (now + wait) (unread (drop (length line) bs) rest))
          | None =>
              if (length bs <=? limit)%nat
              then read_until_go d (limit - length bs) (acc ++ bs) (now + wait) rest
              else (Ok (acc ++ available), mkReader (now + wait) (unread (drop limit bs) rest))
          end
      end
  end.
Definition read_until (d : Z) (limit : Z) (r : Reader) : result ReadError (list Z) * Reader :=
  read_until_go d (Z.to_nat limit) [] (clock r) (inputs r).

(** One [read] into a buffer of [n] bytes; [None] is an interruption. *)
Definition read_some (n : nat) (r : Reader) : result (option ReadError) (list Z) * Reader :=
  match inputs r with
  | [] => (Ok [], r)
  | (wait, i) :: rest =>
      match i with
      | Bytes bs => (Ok (take n bs), mkReader (clock r + wait) (unread (drop n bs) rest))
      | Interrupted => (Err None, mkReader (clock r + wait) rest)
      | TimedOut => (Err (Some ReadTimeout), mkReader (clock r + wait) rest)
      | Broken => (Err (Some ReadOther), mkReader (clock r + wait) rest)
      end
  end.

(** ** Lemmas *)

(** All bytes a source delivers. *)
Definition input_bytes (i : Z * Input) : list Z := match snd i with Bytes bs => bs | _ => [] end.
Definition data (r : Reader) : list Z := concat (map input_bytes (inputs r)).

(** A source that fails neither in between nor before its end: any cut into
    pieces, with interruptions. *)
Definition intact (i : Z * Input) : Prop :=
  match snd i with Bytes bs => bs <> [] | Interrupted => True | _ => False end.
Definition steady (r : Reader) : Prop := Forall intact (inputs r).

(** The first line of [bs], or its first [limit] bytes. *)
Definition line_of (d : Z) (limit : nat) (bs : list Z) : list Z :=
  match through d (take limit bs) with Some l => l | None => take limit bs end.

Lemma through_some d bs l :
  through d bs = Some l <-> exists x y, bs = x ++ d :: y /\ (d ∉ x) /\ l = x ++ [d].
Proof.
  revert l. induction bs as [|b bs IH]; intros l; simpl.
  - split; [done|]. by intros ([] & y & Hb & _).
  - destruct (Z.eqb_spec b d) as [->|Hb].
    + split.
      * intros [= <-]. exists [], bs. split_and!; [done|apply not_elem_of_nil|done].
      * intros (x & y & Hx & Hn & ->). destruct x as [|x0 x]; [done|].
        injection Hx as -> _. by destruct Hn; left.
    + rewrite fmap_Some. split.
      * intros (l' & (x & y & -> & Hx & ->)%IH & ->). exists (b :: x), y. split_and!; [done| |done].
        by apply not_elem_of_cons.
      * intros (x & y & Hx & Hn & ->). destruct x as [|x0 x]; injection Hx as -> ->; [done|].
        apply not_elem_of_cons in Hn as [_ Hn]. exists (x ++ [d]). split; [|done]. apply IH. eauto.
Qed.

Lemma through_none d bs : through d bs = None <-> d ∉ bs.
Proof.
  induction bs as [|b bs IH]; simpl; [split; [intros _; apply not_elem_of_nil|done]|].
  rewrite not_elem_of_cons. destruct (Z.eqb_spec b d) as [->|Hb]; [naive_solver|].
  destruct (through d bs); simpl; naive_solver.
Qed.

Lemma through_app d a b :
  through d (a ++ b) = match through d a with Some l => Some l | None => option_map (app a) (through d b) end.
Proof.
  induction a as [|x a IH]; simpl; [by destruct (through d b)|].
  destruct (x =? d); [done|]. rewrite IH. destruct (through d a); simpl; [done|]. by destruct (through d b).
Qed.

Lemma line_of_prefix d limit bs : exists l, bs = line_of d limit bs ++ l.
Proof.
  unfold line_of. destruct (through d (take limit bs)) as [l|] eqn:Hl.
  - apply through_some in Hl as (x & y & Ht & _ & ->). exists (y ++ drop limit bs).
    rewrite <-(take_drop limit bs) at 1. rewrite Ht. by rewrite <-!app_assoc.
  - exists (drop limit bs). by rewrite take_drop.
Qed.

Lemma line_of_length d limit bs : (length (line_of d limit bs) <= limit)%nat.
Proof.
  unfold line_of. destruct (through d (take limit bs)) as [l|] eqn:Hl; [|rewrite length_take; lia].
  apply through_some in Hl as (x & y & Ht & _ & ->). apply (f_equal length) in Ht.
  rewrite length_take, length_app in Ht. simpl in Ht. rewrite length_app. simpl. lia.
Qed.

Lemma data_unread bs ins now : data (mkReader now (unread bs ins)) = bs ++ concat (map input_bytes ins).
Proof. by destruct bs. Qed.
Lemma steady_unread bs ins : Forall intact ins -> Forall intact (unread bs ins).
Proof. destruct bs; [done|]. by constructor. Qed.

Lemma through_here d x y : (d ∉ x) -> through d (x ++ d :: y) = Some (x ++ [d]).
Proof. intros Hx. apply through_some. eauto. Qed.

Lemma line_of_here d limit x y :
  (d ∉ x) -> (length x < limit)%nat -> line_of d limit (x ++ d :: y) = x ++ [d].
Proof.
  intros Hx Hl. unfold line_of. rewrite take_app, take_ge by lia.
  destruct (limit - length x)%nat as [|k] eqn:Hk; [lia|]. rewrite firstn_cons. by rewrite through_here.
Qed.

(** A piece in front of the rest: what [line_of] takes from both. *)
Lemma line_of_app d limit a b :
  line_of d limit (a ++ b) =
  match through d (take limit a) with
  | Some l => l
  | None => if (length a <=? limit)%nat then a ++ line_of d (limit - length a) b else take limit a
  end.
Proof.
  unfold line_of. rewrite take_app, through_app.
  destruct (through d (take limit a)) as [l|] eqn:Hl; [done|].
  destruct (Nat.leb_spec (length a) limit).
  - rewrite (take_ge a) by lia. by destruct (through d (take _ b)).
  - replace (limit - length a)%nat with O by lia. by rewrite !take_0, app_nil_r.
Qed.

(** A read of a line from a steady source depends on the bytes alone. *)
Lemma read_until_steady d limit acc now ins :
  Forall intact ins ->
  exists r, read_until_go d limit acc now ins
            = (Ok (acc ++ line_of d limit (concat (map input_bytes ins))), r)
    /\ steady r
    /\ concat (map input_bytes ins) = line_of d limit (concat (map input_bytes ins)) ++ data r.
Proof.
  intros Hs. revert limit acc now. induction Hs as [|[wait i] ins Hi Hs IH]; intros limit acc now.
  - exists (mkReader now []). simpl. unfold line_of. rewrite take_nil. simpl.
    rewrite app_nil_r. split_and!; [by destruct limit|by constructor|done].
  - simpl concat. destruct limit as [|limit].
    { exists (mkReader now ((wait, i) :: ins)). unfold line_of. rewrite take_0. simpl. rewrite app_nil_r.
      split_and!; [done|by constructor|done]. }
    destruct i as [[|b bs]| | |]; try done.
    + change (input_bytes (wait, Bytes (b :: bs))) with (b :: bs).
      rewrite line_of_app. cbn [read_until_go]. cbv zeta.
      destruct (through d (take (S limit) (b :: bs))) as [l|] eqn:Hl.
      * eexists. split; [done|]. rewrite data_unread. split; [by apply steady_unread|].
        assert (exists z, b :: bs = l ++ z) as [z ->].
        { destruct (line_of_prefix d (S limit) (b :: bs)) as [z Hz]. unfold line_of in Hz. rewrite Hl in Hz. eauto. }
        by rewrite drop_app_length, <-app_assoc.
      * destruct (Nat.leb_spec (length (b :: bs)) (S limit)).
        -- destruct (IH (S limit - length (b :: bs))%nat (acc ++ b :: bs) (now + wait)) as (r & Hr & Hst & Hd).
           exists r. rewrite Hr, <-!app_assoc. split_and!; [done|done|]. by rewrite Hd at 1.
        -- eexists. split; [done|]. rewrite data_unread. split; [by apply steady_unread|].
           by rewrite app_assoc, take_drop.
    + apply IH.
Qed.

(** Whatever the source does, a read that returns bytes uses some of it up. *)
Definition left_over (r : Reader) : nat := (length (inputs r) + length (data r))%nat.

Lemma left_over_unread bs ins now :
  (left_over (mkReader now (unread bs ins))
   <= S (length ins) + length bs + length (concat (map input_bytes ins)))%nat.
Proof. unfold left_over. rewrite data_unread, length_app. destruct bs; simpl; lia. Qed.

Lemma through_length d bs l : through d bs = Some l -> (length l <= length bs)%nat.
Proof. intros (x & y & -> & _ & ->)%through_some. rewrite !length_app. simpl. lia. Qed.

Lemma read_until_left d limit acc now ins :
  let '(res, r) := read_until_go d limit acc now ins in
  (left_over r + match res with Ok bs => length bs - length acc | Err _ => 0 end
   <= length ins + length (concat (map input_bytes ins)))%nat
  /\ match res with Ok bs => (length acc <= length bs)%nat | Err _ => True end.
Proof.
  revert limit acc now. induction ins as [|[wait i] ins IH]; intros limit acc now.
  { destruct limit; simpl; unfold left_over, data; simpl; lia. }
  destruct limit as [|limit]; [simpl; unfold left_over, data; simpl; lia|].
  destruct i as [[|b bs]| | |]; cbn [read_until_go].
  - unfold left_over, data; simpl; lia.
  - cbv zeta. change (concat (map input_bytes ((wait, Bytes (b :: bs)) :: ins)))
      with ((b :: bs) ++ concat (map input_bytes ins)).
    set (piece := b :: bs). assert (0 < length piece)%nat as Hpos by (simpl; lia). clearbody piece. clear b bs.
    rewrite length_app. simpl length.
    destruct (through d (take (S limit) piece)) as [l|] eqn:Hl; [|destruct (Nat.leb_spec (length piece) (S limit))].
    + apply through_length in Hl. rewrite length_take in Hl.
      pose proof (left_over_unread (drop (length l) piece) ins (now + wait)) as Hu.
      rewrite length_drop in Hu. rewrite length_app. lia.
    + specialize (IH (S limit - length piece)%nat (acc ++ piece) (now + wait)).
      destruct (read_until_go _ _ _ _ _) as [[out|] r]; rewrite ?length_app in IH; lia.
    + pose proof (left_over_unread (drop (S limit) piece) ins (now + wait)) as Hu.
      rewrite length_drop in Hu. rewrite length_app, length_take. lia.
  - specialize (IH (S limit) acc (now + wait)). destruct (read_until_go _ _ _ _ _) as [[]]; simpl; lia.
  - unfold left_over, data; simpl; lia.
  - unfold left_over, data; simpl; lia.
Qed.

Lemma read_until_uses d n r bs r' :
  read_until d n r = (Ok bs, r') -> (left_over r' + length bs <= left_over r)%nat.
Proof.
  unfold read_until. pose proof (read_until_left d (Z.to_nat n) [] (clock r) (inputs r)) as Hr.
  destruct (read_until_go _ _ _ _ _) as [res r1]. intros [= -> ->]. simpl in Hr.
  change (left_over r) with (length (inputs r) + length (concat (map input_bytes (inputs r))))%nat. lia.
Qed.

(** ** Time *)

(** When a source has delivered everything. *)
Definition finish (r : Reader) : Z := clock r + foldr Z.add 0 (map fst (inputs r)).
Definition no_time_back (r : Reader) : Prop := Forall (fun i => 0 <= fst i) (inputs r).

Lemma finish_unread bs ins now : finish (mkReader now (unread bs ins)) = now + foldr Z.add 0 (map fst ins).
Proof. by destruct bs. Qed.
Lemma no_time_back_unread bs ins now :
  Forall (fun i : Z * Input => 0 <= fst i) ins -> no_time_back (mkReader now (unread bs ins)).
Proof. destruct bs; [done|]. by constructor. Qed.

Lemma clock_finish r : no_time_back r -> clock r <= finish r.
Proof.
  unfold finish, no_time_back. intros Hr. induction Hr as [|[w i] ins Hw _ IH]; simpl in *; lia.
Qed.

Lemma read_until_time d limit acc now ins :
  let r' := snd (read_until_go d limit acc now ins) in
  finish r' = now + foldr Z.add 0 (map fst ins)
  /\ (Forall (fun i : Z * Input => 0 <= fst i) ins -> no_time_back r').
Proof.
  revert limit acc now. induction ins as [|[wait i] ins IH]; intros limit acc now.
  { by destruct limit. }
  destruct limit as [|limit]; [done|].
  assert (forall now', finish (mkReader now' ins) = now' + foldr Z.add 0 (map fst ins)) as Hf by done.
  destruct i as [[|b bs]| | |]; cbn [read_until_go]; simpl map; simpl foldr.
  - split; [simpl; rewrite Hf; lia|]. by intros [_ ?]%Forall_cons.
  - cbv zeta. destruct (through d (take (S limit) (b :: bs))) as [l|]; [|destruct (_ <=? _)%nat].
    + simpl snd. rewrite finish_unread. split; [lia|]. intros [_ ?]%Forall_cons. by apply no_time_back_unread.
    + destruct (IH (S limit - length (b :: bs))%nat (acc ++ b :: bs) (now + wait)) as [H1 H2].
      split; [rewrite H1; lia|]. by intros [_ ?%H2]%Forall_cons.
    + simpl snd. rewrite finish_unread. split; [lia|]. intros [_ ?]%Forall_cons. by apply no_time_back_unread.
  - destruct (IH (S limit) acc (now + wait)) as [H1 H2]. split; [rewrite H1; lia|]. by intros [_ ?%H2]%Forall_cons.
  - split; [simpl; rewrite Hf; lia|]. by intros [_ ?]%Forall_cons.
  - split; [simpl; rewrite Hf; lia|]. by intros [_ ?]%Forall_cons.
Qed.

Lemma read_some_time n r :
  let r' := snd (read_some n r) in
  finish r' = finish r /\ (no_time_back r -> no_time_back r').
Proof.
  unfold read_some. destruct r as [now [|[wait i] ins]]; [done|]. unfold finish at 2, no_time_back at 1. simpl.
  destruct i as [bs| | |]; simpl.
  - rewrite finish_unread. split; [lia|]. intros [_ ?]%Forall_cons. by apply no_time_back_unread.
  - unfold finish. simpl. split; [lia|]. by intros [_ ?]%Forall_cons.
  - unfold finish. simpl. split; [lia|]. by intros [_ ?]%Forall_cons.
  - unfold finish. simpl. split; [lia|]. by intros [_ ?]%Forall_cons.
Qed.

(** ** Prompt sources *)

(** A source that delivers everything, in any pieces, before the deadline. *)
Definition prompt (deadline : Z) (r : Reader) : Prop :=
  steady r /\ no_time_back r /\ finish r < deadline.

Lemma prompt_clock deadline r : prompt deadline r -> clock r < deadline.
Proof. intros (_ & Ht & Hf). pose proof (clock_finish r Ht). lia. Qed.

(** Reading the line that comes next. *)
Lemma read_line deadline d limit r x y :
  prompt deadline r -> data r = x ++ d :: y -> (d ∉ x) -> Z.of_nat (length x) < limit ->
  exists r', read_until d limit r = (Ok (x ++ [d]), r') /\ prompt deadline r' /\ data r' = y.
Proof.
  intros (Hs & Ht & Hf) Hd Hx Hl. unfold read_until.
  destruct (read_until_steady d (Z.to_nat limit) [] (clock r) (inputs r) Hs) as (r' & Hr & Hs' & Hd').
  destruct (read_until_time d (Z.to_nat limit) [] (clock r) (inputs r)) as [Hf' Ht'].
  fold (data r) in Hr, Hd'. rewrite Hd, line_of_here in Hr, Hd' by (done || lia).
  rewrite Hr in Hf', Ht'. exists r'. split_and!; [exact Hr| |].
  - split_and!; [done|by apply Ht'|]. simpl in Hf'. unfold finish in *. lia.
  - change (d :: y) with ([d] ++ y) in Hd'. rewrite app_assoc in Hd'. by apply app_inv_head in Hd'.
Qed.

(** A read of a prompt source: an interruption, or the next bytes. *)
Lemma read_piece deadline n r :
  prompt deadline r -> (0 < n)%nat -> data r <> [] ->
  exists r', prompt deadline r' /\ (left_over r' < left_over r)%nat
    /\ ((read_some n r = (Err None, r') /\ data r' = data r)
        \/ exists piece, read_some n r = (Ok piece, r') /\ piece <> [] /\ (length piece <= n)%nat
             /\ data r = piece ++ data r').
Proof.
  intros (Hs & Ht & Hf) Hn Hd. destruct (read_some_time n r) as [Hf' Ht'].
  destruct r as [now [|[wait i] ins]]; [done|]. apply Forall_cons in Hs as [Hi Hs].
  unfold read_some in *. simpl in *. destruct i as [bs| | |]; [| |done..].
  - exists (mkReader (now + wait) (unread (drop n bs) ins)). simpl in *.
    destruct bs as [|b bs]; [done|]. destruct n as [|n]; [lia|]. simpl drop. simpl take.
    split_and!.
    + split_and!; [by apply steady_unread|by apply Ht'|].
      eapply Z.le_lt_trans; [apply Z.eq_le_incl, Hf'|exact Hf].
    + pose proof (left_over_unread (drop n bs) ins (now + wait)) as Hu. rewrite length_drop in Hu.
      unfold left_over at 2, data. simpl. rewrite length_app. lia.
    + right. exists (b :: take n bs). split_and!; [done|done|simpl; rewrite length_take; lia|].
      rewrite data_unread. unfold data. simpl. change (input_bytes (wait, Bytes (b :: bs))) with (b :: bs).
      by rewrite app_assoc, <-(take_drop n bs) at 1.
  - exists (mkReader (now + wait) ins). split_and!.
    + split_and!; [done|by apply Ht'|].
      eapply Z.le_lt_trans; [apply Z.eq_le_incl, Hf'|exact Hf].
    + unfold left_over, data. simpl. lia.
    + left. done.
Qed.
