(* ===== verification/ArgvBudget.v ===== *)
(** * Argument budgets (src/src/argv_budget.rs, src/src/runtime/executor.rs)

    Truncation of prompt text on UTF-8 boundaries, the shared byte budget of a
    process argument vector, and the bounded failure message of an executor. *)
From stdpp Require Import base list strings.
From Stdlib Require Import ZArith Lia.
From S2P Require Import Prelude RustStr.

Open Scope Z_scope.
Open Scope rust_scope.

Definition MAX_PROCESS_ARG_BYTES : Z := 32 * 1024.
Definition MAX_PROCESS_TOTAL_ARG_BYTES : Z := 64 * 1024.

(** [windows] is [cfg!(windows)]. *)
Definition max_prompt_bytes (windows : bool) : Z :=
  if windows then 24 * 1024 else MAX_PROCESS_ARG_BYTES.

Definition newline : string := String (Ascii.ascii_of_nat 10) EmptyString.

(** The [format!] of the truncation marker. *)
Definition truncation_marker (max_bytes len : Z) : string :=
  newline +:+ newline +:+ "… [truncated for OS argv limit; kept " +:+ decimal max_bytes
  +:+ " of " +:+ decimal len +:+ " bytes]".

Definition truncate_utf8_bytes (s : string) (max_bytes : Z) : string :=
  if slen s <=? max_bytes then s
  else
    let marker := truncation_marker max_bytes (slen s) in
    let budget := usize_saturating_sub max_bytes (slen marker) in
    let end_ := floor_char_boundary s (Z.to_nat (Z.min budget (slen s))) in
    let out := str_take end_ s +:+ marker in
    if max_bytes <? slen out
    then str_take (floor_char_boundary out (Z.to_nat max_bytes)) out
    else out.

(** The [for prompt in prompts] loop: the pushed texts, with the budget left. *)
Fixpoint prompt_texts (windows : bool) (remaining : Z) (prompts : list string) : list string :=
  match prompts with
  | [] => []
  | prompt :: rest =>
      let text := truncate_utf8_bytes prompt (Z.min (max_prompt_bytes windows) remaining) in
      text :: prompt_texts windows (usize_saturating_sub remaining (slen text)) rest
  end.

Definition append_prompt_args (windows : bool) (args prompts : list string) : list string :=
  let fixed_bytes := foldl usize_saturating_add 0 (map slen args) in
  let remaining := usize_saturating_sub MAX_PROCESS_TOTAL_ARG_BYTES fixed_bytes in
  args ++ prompt_texts windows remaining prompts.

Definition MAX_FAILURE_BYTES : Z := 4096.

(** [bounded_message] of executor.rs. *)
Definition bounded_message (message : string) : string :=
  if slen message <=? MAX_FAILURE_BYTES then message
  else
    let end_ := floor_char_boundary message
                  (Z.to_nat (usize_saturating_sub MAX_FAILURE_BYTES 3)) in
    str_take end_ message +:+ "...".

(** ** Lemmas *)
Lemma slen_floor_take s n :
  0 <= n -> slen (str_take (floor_char_boundary s (Z.to_nat n)) s) <= n.
Proof.
  intros Hn. rewrite slen_str_take.
  pose proof (floor_char_boundary_le s (Z.to_nat n)). lia.
Qed.

Lemma valid_utf8_floor_take s n :
  valid_utf8 s -> valid_utf8 (str_take (floor_char_boundary s n) s).
Proof. intros Hs. apply valid_utf8_take; [done|]. apply floor_char_boundary_ok. Qed.

Lemma valid_utf8_marker m n : 0 <= m -> 0 <= n -> valid_utf8 (truncation_marker m n).
Proof.
  intros Hm Hn. unfold truncation_marker.
  assert (Hasc : forall s, forallb (fun b => b <? 128) (bytes s) = true -> valid_utf8 s).
  { intros s Hs. apply valid_utf8_ascii. apply forallb_Forall in Hs.
    eapply Forall_impl; [done|]. intros b Hb. by apply Z.ltb_lt. }
  change "… [truncated for OS argv limit; kept "
    with ("…" +:+ " [truncated for OS argv limit; kept ").
  repeat apply valid_utf8_app; try (by apply Hasc); try (by apply valid_utf8_decimal).
  exists [8230]. split; [|reflexivity].
  constructor; [unfold is_scalar; lia|constructor].
Qed.

Lemma truncate_len s m : 0 <= m -> slen (truncate_utf8_bytes s m) <= m.
Proof.
  intros Hm. unfold truncate_utf8_bytes.
  destruct (Z.leb_spec (slen s) m); [done|]. cbv zeta.
  destruct (Z.ltb_spec m (slen (str_take (floor_char_boundary s
    (Z.to_nat (Z.min (usize_saturating_sub m (slen (truncation_marker m (slen s)))) (slen s)))) s
    +:+ truncation_marker m (slen s)))); [|done].
  by apply slen_floor_take.
Qed.

Lemma truncate_valid s m : 0 <= m -> valid_utf8 s -> valid_utf8 (truncate_utf8_bytes s m).
Proof.
  intros Hm Hs. unfold truncate_utf8_bytes.
  destruct (slen s <=? m); [done|]. cbv zeta.
  match goal with |- context [m <? slen ?o] => set (out := o) end.
  assert (valid_utf8 out).
  { apply valid_utf8_app; [by apply valid_utf8_floor_take|].
    apply valid_utf8_marker; [done|apply slen_nonneg]. }
  destruct (m <? slen out); [by apply valid_utf8_floor_take|done].
Qed.

Fixpoint total_bytes (l : list string) : Z :=
  match l with [] => 0 | s :: r => slen s + total_bytes r end.

Lemma total_bytes_nonneg l : 0 <= total_bytes l.
Proof. induction l as [|s l IH]; simpl; [lia|]. pose proof (slen_nonneg s). lia. Qed.

Lemma total_bytes_app l1 l2 : total_bytes (l1 ++ l2) = total_bytes l1 + total_bytes l2.
Proof. induction l1; simpl; lia. Qed.

Lemma max_prompt_bytes_nonneg w : 0 <= max_prompt_bytes w.
Proof. destruct w; unfold max_prompt_bytes, MAX_PROCESS_ARG_BYTES; lia. Qed.

Lemma prompt_texts_total w r prompts :
  0 <= r -> total_bytes (prompt_texts w r prompts) <= r.
Proof.
  revert r. induction prompts as [|p ps IH]; intros r Hr; simpl; [lia|].
  pose proof (max_prompt_bytes_nonneg w).
  set (t := truncate_utf8_bytes p (Z.min (max_prompt_bytes w) r)).
  assert (slen t <= Z.min (max_prompt_bytes w) r) by (apply truncate_len; lia).
  unfold usize_saturating_sub.
  specialize (IH (Z.max 0 (r - slen t)) ltac:(lia)). lia.
Qed.

Lemma prompt_texts_each w r prompts :
  0 <= r -> Forall (fun t => slen t <= max_prompt_bytes w) (prompt_texts w r prompts).
Proof.
  revert r. induction prompts as [|p ps IH]; intros r Hr; simpl; [done|].
  pose proof (max_prompt_bytes_nonneg w). constructor.
  - etrans; [apply truncate_len; lia|lia].
  - apply IH. unfold usize_saturating_sub. lia.
Qed.

Lemma fixed_bytes_total args acc :
  0 <= acc <= u64_max ->
  foldl usize_saturating_add acc (map slen args) = Z.min u64_max (acc + total_bytes args).
Proof.
  revert acc. induction args as [|a args IH]; intros acc Hacc; simpl; [lia|].
  pose proof (slen_nonneg a). pose proof (total_bytes_nonneg args).
  unfold usize_saturating_add at 2. rewrite IH by lia. lia.
Qed.

Lemma prompt_texts_length w r prompts :
  length (prompt_texts w r prompts) = length prompts.
Proof. revert r. induction prompts; intros r; simpl; congruence. Qed.

Lemma prompt_texts_valid w r prompts :
  0 <= r -> Forall valid_utf8 prompts -> Forall valid_utf8 (prompt_texts w r prompts).
Proof.
  intros Hr Hp. revert r Hr. induction Hp as [|p ps Hp Hps IH]; intros r Hr; simpl; [done|].
  pose proof (max_prompt_bytes_nonneg w). constructor.
  - apply truncate_valid; [lia|done].
  - apply IH. unfold usize_saturating_sub. lia.
Qed.

(** ** Properties *)

(** Truncation of a valid UTF-8 string to [m] bytes never exceeds [m], always
    yields valid UTF-8 (so no slice of it can panic), returns a string that fits
    unchanged, and when the marker fits keeps the longest whole-character prefix
    that leaves room for the marker, followed by the marker. *)
Theorem truncate_utf8_bytes_correct (s : string) (m : Z) (Hm : 0 <= m) (Hs : valid_utf8 s) :
  let out := truncate_utf8_bytes s m in
  let marker := truncation_marker m (slen s) in
  slen out <= m /\ valid_utf8 out
  /\ (slen s <= m -> out = s)
  /\ (m < slen s -> slen marker <= m ->
      exists k : nat,
        out = str_take k s +:+ marker
        /\ is_char_boundary s k = true
        /\ Z.of_nat k <= m - slen marker
        /\ forall j : nat, (k < j)%nat -> Z.of_nat j <= m - slen marker ->
             is_char_boundary s j = false).
Proof.
  intros out marker. repeat split.
  - by apply truncate_len.
  - by apply truncate_valid.
  - intros Hle. unfold out, truncate_utf8_bytes.
    by rewrite (proj2 (Z.leb_le _ _) Hle).
  - intros Hgt Hfit. unfold out, truncate_utf8_bytes. fold marker.
    rewrite (proj2 (Z.leb_gt _ _) Hgt). cbv zeta.
    set (n := Z.to_nat (Z.min (usize_saturating_sub m (slen marker)) (slen s))).
    assert (Hn : Z.of_nat n = m - slen marker).
    { unfold n, usize_saturating_sub. pose proof (slen_nonneg s).
      pose proof (slen_nonneg marker). lia. }
    pose proof (floor_char_boundary_le s n) as Hle.
    exists (floor_char_boundary s n).
    assert (Hlen : slen (str_take (floor_char_boundary s n) s +:+ marker) <= m).
    { rewrite slen_app, slen_str_take. lia. }
    rewrite (proj2 (Z.ltb_ge _ _) Hlen). split; [done|]. split.
    + apply floor_char_boundary_ok.
    + split; [lia|]. intros j Hj1 Hj2. apply (floor_char_boundary_max s n). lia.
Qed.

Lemma truncate_utf8_bytes_correct_witness :
  slen (truncate_utf8_bytes "abc" 2) <= 2.
Proof.
  refine (proj1 (truncate_utf8_bytes_correct "abc" 2 _ _)); [lia|].
  apply valid_utf8_ascii. repeat constructor; vm_compute; reflexivity.
Defined.

(** Appending prompts preserves every fixed argument in place, adds exactly one
    text per prompt, keeps each of them within the platform's prompt limit and
    valid, and, when the fixed arguments fit the aggregate ceiling, the whole
    vector fits it too. *)
Theorem append_prompt_args_within_budget (windows : bool) (args prompts : list string)
    (Hvalid : Forall valid_utf8 prompts)
    (Hfixed : total_bytes args <= MAX_PROCESS_TOTAL_ARG_BYTES) :
  exists texts,
    append_prompt_args windows args prompts = args ++ texts
    /\ length texts = length prompts
    /\ Forall (fun t => slen t <= max_prompt_bytes windows
                        /\ slen t <= MAX_PROCESS_ARG_BYTES /\ valid_utf8 t) texts
    /\ total_bytes (args ++ texts) <= MAX_PROCESS_TOTAL_ARG_BYTES.
Proof.
  unfold append_prompt_args. eexists. split; [reflexivity|].
  pose proof (total_bytes_nonneg args) as Hnn.
  rewrite fixed_bytes_total by (unfold u64_max; lia).
  set (r := usize_saturating_sub _ _).
  assert (Hr : r = MAX_PROCESS_TOTAL_ARG_BYTES - total_bytes args).
  { unfold r, usize_saturating_sub, u64_max. unfold MAX_PROCESS_TOTAL_ARG_BYTES in *. lia. }
  split; [apply prompt_texts_length|]. split.
  - pose proof (prompt_texts_each windows r prompts ltac:(lia)) as Heach.
    pose proof (prompt_texts_valid windows r prompts ltac:(lia) Hvalid) as Hv.
    rewrite Forall_forall in Heach, Hv |- *. intros t Ht.
    specialize (Heach t Ht). split; [exact Heach|]. split; [|exact (Hv t Ht)].
    destruct windows; unfold max_prompt_bytes, MAX_PROCESS_ARG_BYTES in *; lia.
  - rewrite total_bytes_app.
    pose proof (prompt_texts_total windows r prompts ltac:(lia)). lia.
Qed.

Lemma append_prompt_args_within_budget_witness :
  exists texts, append_prompt_args false ["--model"; "m"] ["hello"] = ["--model"; "m"] ++ texts.
Proof.
  destruct (append_prompt_args_within_budget false ["--model"; "m"] ["hello"])
    as (texts & Heq & _).
  - repeat constructor. apply valid_utf8_ascii. repeat constructor; vm_compute; reflexivity.
  - vm_compute. discriminate.
  - exists texts. exact Heq.
Defined.

(** An executor failure message is bounded and stays valid UTF-8. *)
Lemma bounded_message_ok s :
  valid_utf8 s -> slen (bounded_message s) <= MAX_FAILURE_BYTES /\ valid_utf8 (bounded_message s).
Proof.
  intros Hs. unfold bounded_message.
  destruct (Z.leb_spec (slen s) MAX_FAILURE_BYTES); [done|]. split.
  - rewrite slen_app.
    pose proof (slen_floor_take s (usize_saturating_sub MAX_FAILURE_BYTES 3)
      ltac:(unfold usize_saturating_sub; lia)) as Hl.
    unfold usize_saturating_sub, MAX_FAILURE_BYTES in *. change (slen "...") with 3. lia.
  - apply valid_utf8_app; [by apply valid_utf8_floor_take|].
    apply valid_utf8_ascii. repeat constructor; vm_compute; reflexivity.
Qed.
