(* ===== verification/Framing.v ===== *)
(** * Daemon framing (src/src/daemon/framing.rs)

    Length-prefixed control frames: legacy frames carry a big-endian [u32]
    length, schema-3 frames the magic [ABS3] before it.  The reader and writer
    are Rust's [Read] and [Write] traits, given here as type classes; allocation
    is a parameter, since [try_reserve_exact] may refuse. *)
From stdpp Require Import base list strings.
From Stdlib Require Import ZArith Lia.
From S2P Require Import Prelude RustStr.

Open Scope Z_scope.
Open Scope rust_scope.

Definition MAX_APP_FRAME_BYTES : Z := 1024 * 1024.
Definition MAX_V4_CONTROL_BYTES : Z := 64 * 1024.
Definition APP_SCHEMA_V4 : Z := 3.
Definition APP_SCHEMA_V4_CONVERSATIONS : Z := 2.

(** [*b"ABS3"] *)
Definition SCHEMA3_MAGIC : list Z := bytes "ABS3".

Inductive FrameKind := Legacy | Schema3.
#[export] Instance FrameKind_eq_dec : EqDecision FrameKind.
Proof. solve_decision. Defined.

Module FrameKindOps.
Definition limit (k : FrameKind) (legacy : Z) : Z :=
  match k with
  | Legacy => Z.min legacy MAX_APP_FRAME_BYTES
  | Schema3 => Z.min legacy MAX_V4_CONTROL_BYTES
  end.
Definition schema (k : FrameKind) : Z :=
  match k with
  | Legacy => APP_SCHEMA_V4_CONVERSATIONS
  | Schema3 => APP_SCHEMA_V4
  end.
End FrameKindOps.
Import FrameKindOps.

Inductive FrameFailure := Empty | Oversize | Io.

Record FrameReadError := mkFrameReadError { fre_kind : FrameKind; fre_failure : FrameFailure }.

Inductive IoError := InvalidData (message : string) | OutOfMemory (message : string) | WriteFailed.

(** [std::io::Read] and [std::io::Write], as far as the code uses them. *)
Class Read (R : Type) := {
  read_exact : R -> nat -> option (list Z) * R;
  read_exact_len : forall r n bs r', read_exact r n = (Some bs, r') -> length bs = n;
}.
Class Write (W : Type) := {
  write_all : W -> list Z -> result IoError unit * W;
  flush : W -> result IoError unit * W;
}.

(** [impl Read for &[u8]]: a short input is drained and reported. *)
#[export] Program Instance slice_Read : Read (list Z) := {|
  read_exact r n :=
    if Nat.leb n (length r) then (Some (take n r), drop n r) else (None, []);
|}.
Next Obligation.
  intros r n bs r' H. simpl in H. destruct (Nat.leb_spec n (length r)); [|discriminate].
  simplify_eq. rewrite length_take. lia.
Qed.

(** [impl Write for Vec<u8>] *)
#[export] Instance vec_Write : Write (list Z) := {|
  write_all w bs := (Ok tt, w ++ bs);
  flush w := (Ok tt, w);
|}.

(** [u32::to_be_bytes] and [u32::from_be_bytes] *)
Definition u32_to_be_bytes (n : Z) : list Z :=
  [n / 16777216; (n / 65536) mod 256; (n / 256) mod 256; n mod 256].
Definition u32_from_be_bytes (bs : list Z) : Z :=
  foldl (fun acc b => acc * 256 + b) 0 bs.

Section Frames.
Context `{Read R} `{Write W}.
(** Whether an exact reservation of that many bytes is granted. *)
Context (alloc : Z -> bool).

Definition read_frame (reader : R) (legacy_max : Z)
    : result FrameReadError (FrameKind * list Z) * R :=
  match read_exact reader 4 with
  | (None, reader) => (Err (mkFrameReadError Legacy Io), reader)
  | (Some prefix, reader) =>
      let kind := if bool_decide (prefix = SCHEMA3_MAGIC) then Schema3 else Legacy in
      let second :=
        if bool_decide (kind = Schema3) then read_exact reader 4 else (Some prefix, reader) in
      match second with
      | (None, reader) => (Err (mkFrameReadError kind Io), reader)
      | (Some prefix, reader) =>
          let length := u32_from_be_bytes prefix in
          if length =? 0 then (Err (mkFrameReadError kind Empty), reader)
          else if limit kind legacy_max <? length
          then (Err (mkFrameReadError kind Oversize), reader)
          else if negb (alloc length)
          then (Err (mkFrameReadError kind Oversize), reader)
          else match read_exact reader (Z.to_nat length) with
               | (None, reader) => (Err (mkFrameReadError kind Io), reader)
               | (Some bytes, reader) => (Ok (kind, bytes), reader)
               end
      end
  end.

Definition write_frame (kind : FrameKind) (bs : list Z) (legacy_max : Z) : Tx W IoError unit :=
  let len := Z.of_nat (length bs) in
  if (len =? 0) || (limit kind legacy_max <? len)
  then traise (InvalidData "invalid control frame length")
  else if u32_max <? len
  then traise (InvalidData "invalid control frame length")
  else
    (if bool_decide (kind = Schema3) then (fun w => write_all w SCHEMA3_MAGIC) else tret tt) ;;
    (fun w => write_all w (u32_to_be_bytes len)) ;;
    (fun w => write_all w bs) ;;
    (fun w => flush w).

(** The [Bounded] writer of [serialize_bounded]. *)
Record Bounded := mkBounded { b_bytes : list Z; b_capacity : Z; b_max : Z }.

Definition bounded_len (b : Bounded) : Z := Z.of_nat (length (b_bytes b)).

(** [target] in [Bounded::write]: the size the buffer is grown to. *)
Definition bounded_target (b : Bounded) (required : Z) : Z :=
  Z.min (Z.max required (Z.max (Z.min u64_max (b_capacity b * 2)) 4096)) (b_max b).

Definition bounded_write (bs : list Z) : Tx Bounded IoError unit := fun b =>
  let n := Z.of_nat (length bs) in
  if usize_saturating_sub (b_max b) (bounded_len b) <? n
  then (Err (InvalidData "control frame too large"), b)
  else
    let required := bounded_len b + n in
    if b_capacity b <? required
    then
      let target := bounded_target b required in
      if alloc target
      then (Ok tt, mkBounded (b_bytes b ++ bs) target (b_max b))
      else (Err (OutOfMemory "control frame allocation refused"), b)
    else (Ok tt, mkBounded (b_bytes b ++ bs) (b_capacity b) (b_max b)).

Fixpoint bounded_write_chunks (chunks : list (list Z)) : Tx Bounded IoError unit :=
  match chunks with
  | [] => tret tt
  | c :: rest => bounded_write c ;; bounded_write_chunks rest
  end.

(** [chunks] are the buffers the JSON serializer hands to the writer. *)
Definition serialize_bounded (chunks : list (list Z)) (max : Z) : result IoError (list Z) :=
  match bounded_write_chunks chunks (mkBounded [] 0 max) with
  | (Err _, _) => Err (InvalidData "invalid control frame")
  | (Ok _, b) => Ok (b_bytes b)
  end.
End Frames.

(** ** Lemmas *)
Definition is_byte (b : Z) : Prop := 0 <= b < 256.

Lemma u32_be_roundtrip n : 0 <= n <= u32_max -> u32_from_be_bytes (u32_to_be_bytes n) = n.
Proof.
  intros Hn. unfold u32_max in Hn. unfold u32_from_be_bytes, u32_to_be_bytes. simpl.
  pose proof (Z.div_mod n 256 ltac:(lia)).
  pose proof (Z.div_mod (n / 256) 256 ltac:(lia)).
  pose proof (Z.div_mod (n / 65536) 256 ltac:(lia)).
  assert (n / 65536 = n / 256 / 256) by (rewrite Z.div_div; [reflexivity|lia|lia]).
  assert (n / 16777216 = n / 65536 / 256) by (rewrite Z.div_div; [reflexivity|lia|lia]).
  assert (0 <= n / 16777216 < 256)
    by (split; [apply Z.div_pos; lia | apply Z.div_lt_upper_bound; lia]).
  lia.
Qed.

Lemma u32_be_inj n bs :
  length bs = 4%nat -> Forall is_byte bs -> u32_from_be_bytes bs = n -> bs = u32_to_be_bytes n.
Proof.
  intros Hl Hb Hn.
  destruct bs as [|a [|b [|c [|d [|]]]]]; try discriminate.
  unfold u32_from_be_bytes in Hn. simpl in Hn.
  repeat (apply Forall_cons in Hb as [?Hx Hb]). unfold is_byte in *.
  unfold u32_to_be_bytes.
  assert (n mod 256 = d) by (symmetry; apply (Z.mod_unique _ _ ((a * 256 + b) * 256 + c)); lia).
  assert (n / 256 = (a * 256 + b) * 256 + c) as H1
    by (symmetry; apply (Z.div_unique _ _ _ d); lia).
  assert (n / 65536 = a * 256 + b) as H2
    by (symmetry; apply (Z.div_unique _ _ _ (c * 256 + d)); lia).
  assert (n / 16777216 = a) as H3
    by (symmetry; apply (Z.div_unique _ _ _ ((b * 256 + c) * 256 + d)); lia).
  rewrite H1, H2, H3.
  assert ((((a * 256 + b) * 256 + c) mod 256) = c)
    by (symmetry; apply (Z.mod_unique _ _ (a * 256 + b)); lia).
  assert ((a * 256 + b) mod 256 = b) by (symmetry; apply (Z.mod_unique _ _ a); lia).
  congruence.
Qed.

Lemma u32_from_be_bytes_nonneg bs : Forall is_byte bs -> 0 <= u32_from_be_bytes bs.
Proof.
  intros Hbs.
  assert (Hgo : forall acc, 0 <= acc -> 0 <= foldl (fun acc b => acc * 256 + b) acc bs).
  { induction Hbs as [|b l Hb Hl IH]; intros acc Hacc; simpl; [done|].
    apply IH. unfold is_byte in Hb. lia. }
  by apply Hgo.
Qed.

Lemma u32_to_be_bytes_range n : 0 <= n <= u32_max -> Forall is_byte (u32_to_be_bytes n).
Proof.
  intros Hn. unfold u32_max in Hn. unfold u32_to_be_bytes, is_byte.
  repeat constructor; try (apply Z.mod_pos_bound; lia).
  - apply Z.div_pos; lia.
  - apply Z.div_lt_upper_bound; lia.
Qed.

Lemma limit_bound k m : limit k m <= MAX_APP_FRAME_BYTES.
Proof. destruct k; unfold limit, MAX_APP_FRAME_BYTES, MAX_V4_CONTROL_BYTES; lia. Qed.

(** A legacy length within the ceiling never spells the schema-3 magic. *)
Lemma legacy_prefix_not_magic n :
  0 <= n <= MAX_APP_FRAME_BYTES -> u32_to_be_bytes n <> SCHEMA3_MAGIC.
Proof.
  intros Hn Heq. unfold MAX_APP_FRAME_BYTES in Hn.
  assert (u32_from_be_bytes (u32_to_be_bytes n) = n)
    by (apply u32_be_roundtrip; unfold u32_max; lia).
  rewrite Heq in H. vm_compute in H. lia.
Qed.

Lemma slice_read_app (a b : list Z) n :
  n = length a -> read_exact (a ++ b) n = (Some a, b).
Proof.
  intros ->. simpl. rewrite length_app.
  rewrite (proj2 (Nat.leb_le _ _)) by lia. by rewrite take_app_length, drop_app_length.
Qed.

Lemma slice_read_inv (r : list Z) n bs r' :
  read_exact r n = (Some bs, r') -> r = bs ++ r' /\ length bs = n.
Proof.
  intros H. split; [|by eapply read_exact_len].
  simpl in H. destruct (Nat.leb n (length r)); [|discriminate]. simplify_eq.
  by rewrite take_drop.
Qed.

(** The bytes [write_frame] emits for an accepted frame. *)
Definition frame_header (kind : FrameKind) (len : Z) : list Z :=
  (if bool_decide (kind = Schema3) then SCHEMA3_MAGIC else []) ++ u32_to_be_bytes len.

Lemma write_frame_vec kind bs m w :
  write_frame kind bs m w =
  (if (Z.of_nat (length bs) =? 0) || (limit kind m <? Z.of_nat (length bs))
   then (Err (InvalidData "invalid control frame length"), w)
   else (Ok tt, w ++ frame_header kind (Z.of_nat (length bs)) ++ bs)).
Proof.
  unfold write_frame, frame_header, traise.
  destruct ((Z.of_nat (length bs) =? 0) || (limit kind m <? Z.of_nat (length bs))) eqn:Hc; [done|].
  bools. pose proof (limit_bound kind m).
  rewrite (proj2 (Z.ltb_ge _ _)) by (unfold u32_max, MAX_APP_FRAME_BYTES in *; lia).
  destruct kind; simpl; unfold tbind, tret; simpl; by rewrite <- ?app_assoc.
Qed.

Lemma read_frame_header alloc kind len m rest :
  0 <= len <= MAX_APP_FRAME_BYTES ->
  read_frame alloc (frame_header kind len ++ rest) m =
  (if len =? 0 then (Err (mkFrameReadError kind Empty), rest)
   else if limit kind m <? len then (Err (mkFrameReadError kind Oversize), rest)
   else if negb (alloc len) then (Err (mkFrameReadError kind Oversize), rest)
   else match read_exact rest (Z.to_nat len) with
        | (None, r) => (Err (mkFrameReadError kind Io), r)
        | (Some bs, r) => (Ok (kind, bs), r)
        end).
Proof.
  intros Hlen. unfold frame_header.
  assert (Hrt : u32_from_be_bytes (u32_to_be_bytes len) = len).
  { apply u32_be_roundtrip. unfold u32_max, MAX_APP_FRAME_BYTES in *. lia. }
  destruct kind; case_bool_decide; try done.
  - unfold read_frame. rewrite app_nil_l, slice_read_app by reflexivity.
    rewrite (bool_decide_false _ (legacy_prefix_not_magic len Hlen)).
    rewrite bool_decide_false by discriminate. by rewrite Hrt.
  - unfold read_frame. rewrite <- app_assoc, slice_read_app by reflexivity.
    rewrite (bool_decide_true (SCHEMA3_MAGIC = SCHEMA3_MAGIC)) by done.
    rewrite (bool_decide_true (Schema3 = Schema3)) by done.
    rewrite slice_read_app by reflexivity. by rewrite Hrt.
Qed.

(** What [read_frame] saw when it got past the header of a byte stream. *)
Lemma read_frame_inv alloc stream m res rest :
  Forall is_byte stream ->
  read_frame alloc stream m = (res, rest) ->
  match res with
  | Ok (kind, bs) =>
      0 < Z.of_nat (length bs) <= limit kind m
      /\ stream = frame_header kind (Z.of_nat (length bs)) ++ bs ++ rest
  | Err e =>
      fre_failure e = Io \/ exists hdr, stream = hdr ++ rest /\ (length hdr <= 8)%nat
  end.
Proof.
  intros Hb. unfold read_frame.
  destruct (read_exact stream 4) as [[p1|] r1] eqn:H1; [|by intros; simplify_eq; left].
  apply slice_read_inv in H1 as [-> Hp1].
  set (kind := if bool_decide (p1 = SCHEMA3_MAGIC) then Schema3 else Legacy).
  destruct (if bool_decide (kind = Schema3) then read_exact r1 4 else (Some p1, r1))
    as [[p2|] r2] eqn:H2; [|by intros; simplify_eq; left].
  assert (Hp2 : Forall is_byte p2).
  { apply Forall_app in Hb as [Hb1 Hb2]. destruct (bool_decide (kind = Schema3)); [|by simplify_eq].
    apply slice_read_inv in H2 as [-> _]. by apply Forall_app in Hb2 as [? _]. }
  assert (Hhdr : exists hdr, p1 ++ r1 = hdr ++ r2 /\ (length hdr <= 8)%nat
            /\ hdr = frame_header kind (u32_from_be_bytes p2)).
  { unfold kind, frame_header in *. destruct (decide (p1 = SCHEMA3_MAGIC)) as [->|Hne].
    - rewrite !bool_decide_true in * by done.
      apply slice_read_inv in H2 as [-> Hl2]. exists (SCHEMA3_MAGIC ++ p2).
      rewrite <- app_assoc. split; [done|]. rewrite length_app, Hl2. split; [simpl; lia|].
      f_equal. by apply u32_be_inj.
    - rewrite (bool_decide_false _ Hne) in *. rewrite bool_decide_false in * by discriminate.
      simplify_eq. exists p2. split; [done|]. split; [lia|].
      by apply u32_be_inj. }
  destruct Hhdr as (hdr & Heq & Hl & Hh).
  destruct (Z.eqb_spec (u32_from_be_bytes p2) 0) as [|Hnz]; [intros; simplify_eq; eauto|].
  destruct (Z.ltb_spec (limit kind m) (u32_from_be_bytes p2)); [intros; simplify_eq; eauto|].
  destruct (negb (alloc (u32_from_be_bytes p2))); [intros; simplify_eq; eauto|].
  destruct (read_exact r2 (Z.to_nat (u32_from_be_bytes p2))) as [[bs|] r3] eqn:H3;
    [|by intros; simplify_eq; left].
  apply slice_read_inv in H3 as [-> Hbs]. intros; simplify_eq.
  pose proof (u32_from_be_bytes_nonneg p2 Hp2).
  rewrite Hbs, Z2Nat.id by lia. split; [lia|]. by rewrite Heq.
Qed.

(** ** Properties *)

(** Every payload that [write_frame] accepts is written as one frame which
    [read_frame] decodes to the same kind and payload, leaving the rest of the
    stream untouched; legacy lengths can never be mistaken for the magic. *)
Theorem frame_roundtrip (alloc : Z -> bool) (kind : FrameKind) (bs rest : list Z) (m : Z)
    (Hne : bs <> []) (Hlim : Z.of_nat (length bs) <= limit kind m)
    (Halloc : alloc (Z.of_nat (length bs)) = true) :
  exists w,
    write_frame kind bs m [] = (Ok tt, w)
    /\ read_frame alloc (w ++ rest) m = (Ok (kind, bs), rest).
Proof.
  rewrite write_frame_vec. pose proof (limit_bound kind m).
  assert (Z.of_nat (length bs) <> 0) by (destruct bs; [done|simpl; lia]).
  rewrite (proj2 (Z.eqb_neq _ _)), (proj2 (Z.ltb_ge _ _)) by lia.
  eexists. split; [reflexivity|].
  rewrite app_nil_l, <- app_assoc, read_frame_header by lia.
  rewrite (proj2 (Z.eqb_neq _ _)), (proj2 (Z.ltb_ge _ _)), Halloc by lia. simpl negb. cbv iota.
  by rewrite slice_read_app by lia.
Qed.

Lemma frame_roundtrip_witness :
  exists w, write_frame Schema3 [123; 125] 4096 [] = (Ok tt, w)
            /\ read_frame (fun _ => true) (w ++ [7]) 4096 = (Ok (Schema3, [123; 125]), [7]).
Proof.
  apply (frame_roundtrip (fun _ => true) Schema3 [123; 125] [7] 4096);
    [discriminate | vm_compute; discriminate | reflexivity].
Defined.

(** Whatever [read_frame] accepts from a byte stream is exactly a frame that
    [write_frame] would have produced, within the limit of its kind, and a frame
    refused for its length has cost at most eight bytes of the stream. *)
Theorem read_frame_sound (alloc : Z -> bool) (stream rest : list Z) (m : Z)
    (res : result FrameReadError (FrameKind * list Z))
    (Hbytes : Forall is_byte stream)
    (Hread : read_frame alloc stream m = (res, rest)) :
  match res with
  | Ok (kind, bs) =>
      0 < Z.of_nat (length bs) <= limit kind m
      /\ exists w, write_frame kind bs m [] = (Ok tt, w) /\ stream = w ++ rest
  | Err e =>
      fre_failure e = Io
      \/ exists header, stream = header ++ rest /\ (length header <= 8)%nat
  end.
Proof.
  pose proof (read_frame_inv alloc stream m res rest Hbytes Hread) as Hinv.
  destruct res as [[kind bs]|e]; [|exact Hinv].
  destruct Hinv as [Hlen Hs]. split; [exact Hlen|].
  rewrite write_frame_vec.
  rewrite (proj2 (Z.eqb_neq _ _)), (proj2 (Z.ltb_ge _ _)) by lia.
  eexists. split; [reflexivity|]. by rewrite app_nil_l, <- app_assoc.
Qed.

Lemma read_frame_sound_witness :
  exists header, [0; 32; 0; 0; 1; 2] = header ++ [1; 2] /\ (length header <= 8)%nat.
Proof.
  destruct (read_frame_sound (fun _ => true) [0; 32; 0; 0; 1; 2] [1; 2] 4096
              (Err (mkFrameReadError Legacy Oversize))) as [H|H].
  - repeat constructor; vm_compute; (reflexivity || discriminate).
  - reflexivity.
  - discriminate H.
  - exact H.
Defined.

Definition total_len (chunks : list (list Z)) : Z := Z.of_nat (length (concat chunks)).

Lemma bounded_target_bounds b required :
  0 <= b_max b -> required <= b_max b -> required <= bounded_target b required <= b_max b.
Proof. unfold bounded_target. lia. Qed.

(** One chunk: it is accepted exactly when it fits (and memory is granted). *)
Lemma bounded_write_spec alloc c b :
  bounded_len b <= b_max b ->
  (bounded_len b + Z.of_nat (length c) <= b_max b ->
   (forall n, n <= b_max b -> alloc n = true) ->
   exists cap, bounded_write alloc c b = (Ok tt, mkBounded (b_bytes b ++ c) cap (b_max b)))
  /\ (forall b', bounded_write alloc c b = (Ok tt, b') ->
        b_bytes b' = b_bytes b ++ c /\ b_max b' = b_max b
        /\ bounded_len b + Z.of_nat (length c) <= b_max b).
Proof.
  intros Hb. unfold bounded_write, usize_saturating_sub.
  destruct (Z.ltb_spec (Z.max 0 (b_max b - bounded_len b)) (Z.of_nat (length c))) as [Hlt|Hge].
  { split; [lia|discriminate]. }
  assert (0 <= bounded_len b) by (unfold bounded_len; lia).
  destruct (Z.ltb_spec (b_capacity b) (bounded_len b + Z.of_nat (length c))).
  - split.
    + intros Hfit Ha. rewrite Ha; [eauto|]. apply bounded_target_bounds; lia.
    + intros b'. destruct (alloc _); [|discriminate]. intros; simplify_eq/=. repeat split. lia.
  - split; [eauto|]. intros b' ?; simplify_eq/=. repeat split. lia.
Qed.

Lemma bounded_len_app b c cap :
  bounded_len (mkBounded (b_bytes b ++ c) cap (b_max b)) = bounded_len b + Z.of_nat (length c).
Proof. unfold bounded_len. simpl. rewrite length_app. lia. Qed.

Lemma bounded_chunks_ok alloc chunks b :
  bounded_len b <= b_max b ->
  (forall n, n <= b_max b -> alloc n = true) ->
  bounded_len b + total_len chunks <= b_max b ->
  exists cap, bounded_write_chunks alloc chunks b
              = (Ok tt, mkBounded (b_bytes b ++ concat chunks) cap (b_max b)).
Proof.
  intros Hb Ha. revert b Hb Ha. induction chunks as [|c cs IH]; intros b Hb Ha Hfit; simpl.
  { exists (b_capacity b). rewrite app_nil_r. by destruct b. }
  unfold total_len in *. simpl in Hfit. rewrite length_app in Hfit.
  destruct (proj1 (bounded_write_spec alloc c b Hb) ltac:(lia) Ha) as [cap Hw].
  unfold tbind. rewrite Hw.
  destruct (IH (mkBounded (b_bytes b ++ c) cap (b_max b))) as [cap' Hcs].
  - rewrite bounded_len_app. simpl. lia.
  - done.
  - rewrite bounded_len_app. simpl. lia.
  - exists cap'. rewrite Hcs. simpl. by rewrite app_assoc.
Qed.

Lemma bounded_chunks_inv alloc chunks b b' :
  bounded_len b <= b_max b ->
  bounded_write_chunks alloc chunks b = (Ok tt, b') ->
  b_bytes b' = b_bytes b ++ concat chunks /\ b_max b' = b_max b
  /\ bounded_len b + total_len chunks <= b_max b.
Proof.
  revert b. induction chunks as [|c cs IH]; intros b Hb Hw; simpl in *.
  { tx_inv. rewrite app_nil_r. unfold total_len. simpl. repeat split. lia. }
  apply tbind_ok in Hw as ([] & b1 & Hw & Hcs).
  apply (proj2 (bounded_write_spec alloc c b Hb)) in Hw as (Hbytes & Hmax & Hfit).
  destruct (IH b1) as (H1 & H2 & H3); [|done|].
  - unfold bounded_len in *. rewrite Hbytes, Hmax, length_app. lia.
  - rewrite H1, H2, Hbytes, Hmax, app_assoc. repeat split.
    unfold total_len, bounded_len in *. rewrite Hbytes, Hmax, !length_app in H3.
    simpl. rewrite length_app. lia.
Qed.

(** Bounded serialization returns the whole document exactly when it fits the
    cap (memory being granted), never returns more than the cap, and never asks
    for an allocation above it: the answer depends on the allocator's behaviour
    only up to the cap. *)
Theorem serialize_bounded_correct (alloc : Z -> bool) (chunks : list (list Z)) (max : Z)
    (Hmax : 0 <= max) :
  (forall out, serialize_bounded alloc chunks max = Ok out ->
     out = concat chunks /\ Z.of_nat (length out) <= max)
  /\ (total_len chunks <= max -> (forall n, n <= max -> alloc n = true) ->
      serialize_bounded alloc chunks max = Ok (concat chunks))
  /\ (max < total_len chunks -> is_ok (serialize_bounded alloc chunks max) = false).
Proof.
  assert (Hinv : forall out, serialize_bounded alloc chunks max = Ok out ->
            out = concat chunks /\ total_len chunks <= max).
  { intros out. unfold serialize_bounded.
    destruct (bounded_write_chunks alloc chunks (mkBounded [] 0 max)) as [[[]|] b] eqn:Hw;
      [|discriminate].
    apply bounded_chunks_inv in Hw as (Hb & _ & Hfit); [|exact Hmax].
    intros; simplify_eq. rewrite Hb. unfold bounded_len in Hfit. simpl in Hfit. split; [done|lia]. }
  split; [|split].
  - intros out Hout. apply Hinv in Hout as [-> Hle]. done.
  - intros Hfit Ha. unfold serialize_bounded.
    destruct (bounded_chunks_ok alloc chunks (mkBounded [] 0 max)) as [cap Hw]; try done.
    by rewrite Hw.
  - intros Hgt. destruct (serialize_bounded alloc chunks max) as [out|] eqn:Hout; [|done].
    destruct (Hinv out eq_refl) as [_ Hle]. lia.
Qed.

Lemma serialize_bounded_correct_witness :
  serialize_bounded (fun n => n <=? 8) [[123]; [34; 97; 34]; [125]] 8
  = Ok [123; 34; 97; 34; 125].
Proof.
  apply (proj2 (serialize_bounded_correct (fun n => n <=? 8) [[123]; [34; 97; 34]; [125]] 8
           ltac:(lia))).
  - vm_compute. discriminate.
  - intros n Hn. apply Z.leb_le. exact Hn.
Defined.
