(* ===== verification/External.v ===== *)
(** * Code the repository only calls

    The functions of third-party crates (uuid, chrono, serde_json) that the
    modelled code calls are parameters: the class [External] names them and
    [ExternalLaws] states the documented behaviour some theorems rely on.
    A concrete instance at the end shows the laws can hold together. *)
From stdpp Require Import base list strings countable.
From Stdlib Require Import ZArith Lia Ascii.
From S2P Require Import Prelude RustStr.

Open Scope Z_scope.
Open Scope rust_scope.

(** [serde_json::Value], without the floating-point numbers the modelled code
    never builds. *)
#[warnings="-register-all"]
Inductive Value :=
| VNull
| VBool (b : bool)
| VNumber (n : Z)
| VString (s : string)
| VArray (items : list Value)
| VObject (fields : list (string * Value)).

(** [Map::insert]: replaces the value of a present key. *)
Fixpoint map_insert (k : string) (v : Value) (m : list (string * Value)) : list (string * Value) :=
  match m with
  | [] => [(k, v)]
  | (k', v') :: r => if bool_decide (k' = k) then (k, v) :: r else (k', v') :: map_insert k v r
  end.

Fixpoint map_get (k : string) (m : list (string * Value)) : option Value :=
  match m with
  | [] => None
  | (k', v') :: r => if bool_decide (k' = k) then Some v' else map_get k r
  end.

(** [Value::get] with a string key, and [Value::as_str]. *)
Definition value_get (v : Value) (k : string) : option Value :=
  match v with VObject m => map_get k m | _ => None end.
Definition as_str (v : Value) : option string :=
  match v with VString s => Some s | _ => None end.
(** [v.get(k).and_then(Value::as_str)] *)
Definition get_str (v : Value) (k : string) : option string :=
  match value_get v k with Some w => as_str w | None => None end.

(** The nesting of containers in a value. *)
Fixpoint value_depth (v : Value) : Z :=
  match v with
  | VArray items => 1 + foldr (fun v n => Z.max (value_depth v) n) 0 items
  | VObject fields => 1 + foldr (fun kv n => Z.max (value_depth kv.2) n) 0 fields
  | _ => 0
  end.

Class External := {
  (** [Uuid::parse_str(s).map(|u| u.to_string())]: the canonical form of the
      identifier [s] denotes, if it denotes one. *)
  uuid_canonical : string -> option string;
  (** [DateTime::parse_from_rfc3339]: the instant, in nanoseconds. *)
  parse_from_rfc3339 : string -> option Z;
  (** [serde_json::to_string] and [from_str] on [Value]. *)
  json_to_string : Value -> string;
  json_from_str : string -> option Value;
}.

Class ExternalLaws `{External} := {
  (** [serde_json] reads the text of a value unless containers nest deeper than
      127: its parser has a recursion limit of 128, its printer has none. *)
  json_recursion_limit : forall v,
    is_Some (json_from_str (json_to_string v)) <-> value_depth v <= 127;
  (** The empty object prints as two braces. *)
  json_empty_object : json_to_string (VObject []) = "{}";
  (** The hyphenated form of an identifier has 36 characters. *)
  uuid_length : forall s c, uuid_canonical s = Some c -> slen c = 36;
}.

(** [DateTime::from_timestamp_millis(n)] printed by [to_rfc3339_opts] with
    milliseconds; chrono's calendar ends in the year 262142. *)
Class MillisFormat := { rfc3339_millis : Z -> option string }.
Class MillisFormatLaws `{MillisFormat} := {
  rfc3339_millis_range : forall n s, rfc3339_millis n = Some s -> n <= 8210266876799999;
}.

(** ** A concrete instance

    Values other than the empty object are written through their numbering as
    binary digits; identifiers
    are their own canonical form when they are 36 bytes long; timestamps are
    decimal numbers. *)
Module Fixture.
Fixpoint value_to_tree (v : Value) : gen_tree (bool + Z + string) :=
  match v with
  | VNull => GenNode 0 []
  | VBool b => GenLeaf (inl (inl b))
  | VNumber n => GenLeaf (inl (inr n))
  | VString s => GenLeaf (inr s)
  | VArray l => GenNode 1 (map value_to_tree l)
  | VObject m => GenNode 2 (map (fun kv => GenNode 3 [GenLeaf (inr (fst kv)); value_to_tree (snd kv)]) m)
  end.

Fixpoint tree_to_value (t : gen_tree (bool + Z + string)) : Value :=
  match t with
  | GenLeaf (inl (inl b)) => VBool b
  | GenLeaf (inl (inr n)) => VNumber n
  | GenLeaf (inr s) => VString s
  | GenNode 1 l => VArray (map tree_to_value l)
  | GenNode 2 l =>
      VObject (map (fun t => match t with
                             | GenNode _ [GenLeaf (inr k); t'] => (k, tree_to_value t')
                             | _ => (EmptyString, VNull)
                             end) l)
  | GenNode _ _ => VNull
  end.

Fixpoint tree_roundtrip (v : Value) : tree_to_value (value_to_tree v) = v.
Proof.
  destruct v as [|b|n|s|l|m]; try reflexivity.
  - simpl. f_equal. induction l as [|x l IH]; [reflexivity|]. simpl. f_equal; [apply tree_roundtrip|apply IH].
  - simpl. f_equal. induction m as [|[k x] m IH]; [reflexivity|]. simpl. f_equal; [|apply IH].
    f_equal. apply tree_roundtrip.
Defined.

Fixpoint positive_to_string (p : positive) : string :=
  match p with
  | xH => EmptyString
  | xO p' => String "0"%char (positive_to_string p')
  | xI p' => String "1"%char (positive_to_string p')
  end.
Fixpoint string_to_positive (s : string) : positive :=
  match s with
  | EmptyString => xH
  | String c s' => if bool_decide (c = "1"%char) then xI (string_to_positive s')
                   else xO (string_to_positive s')
  end.
Lemma positive_roundtrip p : string_to_positive (positive_to_string p) = p.
Proof. induction p; simpl; try congruence; by rewrite IHp. Qed.

#[export] Instance fixture : External := {|
  uuid_canonical s := if slen s =? 36 then Some s else None;
  parse_from_rfc3339 s :=
    if forallb is_ascii_digit (bytes s) then Some (digits_value (bytes s)) else None;
  json_to_string v :=
    match v with
    | VObject [] => "{}"
    | _ => positive_to_string (encode (value_to_tree v))
    end;
  json_from_str s :=
    if bool_decide (s = "{}") then Some (VObject [])
    else match option_map tree_to_value (decode (string_to_positive s)) with
         | Some v => if value_depth v <=? 127 then Some v else None
         | None => None
         end;
|}.

Lemma positive_not_braces p : positive_to_string p <> "{}".
Proof. by destruct p. Qed.

Lemma decode_binary v :
  option_map tree_to_value
    (decode (string_to_positive (positive_to_string (encode (value_to_tree v))))) = Some v.
Proof. rewrite positive_roundtrip, decode_encode. simpl. by rewrite tree_roundtrip. Qed.

Lemma binary_readable v :
  is_Some (if bool_decide (positive_to_string (encode (value_to_tree v)) = "{}") then Some (VObject [])
           else match option_map tree_to_value
                        (decode (string_to_positive (positive_to_string (encode (value_to_tree v))))) with
                | Some v => if value_depth v <=? 127 then Some v else None
                | None => None
                end) <-> value_depth v <= 127.
Proof.
  rewrite bool_decide_eq_false_2 by apply positive_not_braces. rewrite decode_binary.
  destruct (Z.leb_spec (value_depth v) 127); split; [done|by eexists|by intros [? ?]|lia].
Qed.

#[export] Instance fixture_laws : ExternalLaws.
Proof.
  constructor; [|reflexivity|].
  2:{ intros s c. simpl. destruct (Z.eqb_spec (slen s) 36) as [Hs|]; [|discriminate]. by intros [= <-]. }
  intros v. assert (v = VObject [] \/ v <> VObject []) as [->|Hv] by (destruct v as [| | | | |[|]]; auto).
  - split; [simpl; lia|]. intros _. by eexists.
  - rewrite <- binary_readable. by destruct v as [| | | | |[|]].
Qed.

#[export] Instance millis_fixture : MillisFormat := {|
  rfc3339_millis n := if n <=? 8210266876799999 then Some (decimal n) else None;
|}.
#[export] Instance millis_fixture_laws : MillisFormatLaws.
Proof.
  constructor. intros n s. simpl. destruct (Z.leb_spec n 8210266876799999); [done|discriminate].
Qed.
End Fixture.
