(* ===== verification/Digest.v ===== *)
(** * Digests (the [sha2] crate and the lower-case hexadecimal rendering)

    SHA-256 is a parameter; what is relied on of it is that it returns 32 bytes
    and, for the theorems that compare digests, that no two different inputs the
    store meets collide ([collision_free]).  [hexadecimal] is the rendering the
    source uses everywhere: two lower-case digits for each byte. *)
From stdpp Require Import base list strings.
From Stdlib Require Import ZArith Lia Ascii.
From S2P Require Import Prelude RustStr.

Open Scope Z_scope.
Open Scope rust_scope.

Class Digest := { sha256 : list Z -> list Z }.
Class DigestLaws `{Digest} := {
  sha256_length : forall bs, length (sha256 bs) = 32%nat;
  sha256_bytes : forall bs, Forall (fun b => 0 <= b < 256) (sha256 bs);
}.

(** No two of the inputs in [X] have the same digest. *)
Definition collision_free `{Digest} (X : list Z -> Prop) : Prop :=
  forall a b, X a -> X b -> sha256 a = sha256 b -> a = b.

(** [format!("{byte:02x}")] *)
Definition hex_digit (n : Z) : ascii :=
  ascii_of_nat (Z.to_nat (if n <? 10 then 48 + n else 87 + n)).
Fixpoint hexadecimal (digest : list Z) : string :=
  match digest with
  | [] => EmptyString
  | b :: r => String (hex_digit (b / 16)) (String (hex_digit (b mod 16)) (hexadecimal r))
  end.

Lemma hex_byte b :
  0 <= b < 256 -> is_lower_hex (byte_val (hex_digit (b / 16))) = true
                  /\ is_lower_hex (byte_val (hex_digit (b mod 16))) = true.
Proof.
  intros Hb. pose proof (Z.div_mod b 16 ltac:(lia)). pose proof (Z.mod_pos_bound b 16 ltac:(lia)).
  assert (forall d, 0 <= d < 16 -> is_lower_hex (byte_val (hex_digit d)) = true) as Hd.
  { intros d Hd. assert (d ∈ seqZ 0 16) as Hin by (apply elem_of_seqZ; lia).
    apply (proj1 (Forall_forall (fun d => is_lower_hex (byte_val (hex_digit d)) = true) (seqZ 0 16)));
      [|done]. repeat constructor. }
  split; apply Hd; lia.
Qed.

Lemma hexadecimal_ok bs :
  Forall (fun b => 0 <= b < 256) bs ->
  slen (hexadecimal bs) = 2 * Z.of_nat (length bs)
  /\ Forall (fun b => is_lower_hex b = true) (bytes (hexadecimal bs)).
Proof.
  induction 1 as [|b bs Hb _ [IH1 IH2]]; [by split|]. destruct (hex_byte b Hb) as [H1 H2]. simpl. split.
  - unfold slen in *. simpl in *. lia.
  - by repeat constructor.
Qed.

Lemma hex_digit_inj a b : 0 <= a < 16 -> 0 <= b < 16 -> hex_digit a = hex_digit b -> a = b.
Proof.
  intros Ha Hb Heq.
  assert (Forall (fun p : Z * Z => hex_digit p.1 = hex_digit p.2 -> p.1 = p.2)
            (x ← seqZ 0 16; y ← seqZ 0 16; [(x, y)])) as Hall
    by (vm_compute; repeat constructor; simpl; congruence).
  rewrite Forall_forall in Hall. apply (Hall (a, b)); [|done].
  apply list_elem_of_bind. exists a. split; [|apply elem_of_seqZ; lia].
  apply list_elem_of_bind. exists b. split; [left|apply elem_of_seqZ; lia].
Qed.

Lemma hexadecimal_inj x y :
  Forall (fun b => 0 <= b < 256) x -> Forall (fun b => 0 <= b < 256) y ->
  hexadecimal x = hexadecimal y -> x = y.
Proof.
  intros Hx. revert y. induction Hx as [|a x Ha _ IH]; intros [|b y] Hy; simpl; try done.
  apply Forall_cons in Hy as [Hb Hy]. intros [= H1 H2 H3].
  assert (forall d, 0 <= d < 256 -> 0 <= d / 16 < 16 /\ 0 <= d mod 16 < 16) as Hr
    by (intros d Hd; Z.div_mod_to_equations; lia).
  destruct (Hr a Ha), (Hr b Hb).
  apply hex_digit_inj in H1, H2; [|done..].
  f_equal; [|by apply IH].
  pose proof (Z.div_mod a 16 ltac:(lia)). pose proof (Z.div_mod b 16 ltac:(lia)). lia.
Qed.

(** The rendered digests of distinct inputs differ as long as nothing collides. *)
Lemma rendered_digest_inj `{DigestLaws} X a b :
  collision_free X -> X a -> X b -> hexadecimal (sha256 a) = hexadecimal (sha256 b) -> a = b.
Proof. intros HX Ha Hb Heq. apply HX; [done..|]. apply hexadecimal_inj in Heq; auto using sha256_bytes. Qed.

(** ** A concrete function for examples

    The first 32 bytes of the input, filled up with zeros: two inputs of at most
    31 bytes that do not end in zero never collide. *)
Module DigestFixture.
#[export] Instance digest_fixture : Digest := {| sha256 bs := take 32 (map (fun b => b mod 256) bs ++ repeat 0 32) |}.
#[export] Instance digest_fixture_laws : DigestLaws.
Proof.
  constructor; intros bs; unfold sha256, digest_fixture.
  - rewrite length_take, length_app, repeat_length. lia.
  - apply Forall_take, Forall_app. split.
    + apply Forall_map, Forall_forall. intros b _. apply Z.mod_pos_bound. lia.
    + simpl. repeat constructor; lia.
Qed.
End DigestFixture.
