(* ===== verification/RunContract.v ===== *)
(** * Run contracts (src/src/app_core/run.rs, ids.rs, contracts.rs, policy.rs)

    The validated data the application boundary exchanges: identifiers, the run
    lifecycle graph, requests, snapshots, event pages, capability sets and the
    policy that decides which command a capability set permits. *)
From stdpp Require Import base list strings sorting.
From Stdlib Require Import ZArith Lia.
From S2P Require Import Prelude RustStr External.

Open Scope Z_scope.
Open Scope rust_scope.

(** ** Identifiers *)
(** [ValidationError] carries its static message. *)
Record ValidationError := mkValidationError { ve_message : string }.
Inductive IdError := mkIdError.

Definition RunId := string.
Definition ConversationId := string.
Definition IdempotencyKey := string.

Definition MAX_INPUT_BYTES : Z := 32 * 1024.
Definition MAX_LABELS : Z := 16.
Definition MAX_LABEL_BYTES : Z := 64.
Definition MAX_IDEMPOTENCY_KEY_BYTES : Z := 128.
Definition MAX_FAILURE_CODE_BYTES : Z := 64.
Definition MAX_FAILURE_MESSAGE_BYTES : Z := 2048.
Definition MAX_CONVERSATION_TITLE_BYTES : Z := 256.
Definition MAX_TIMESTAMP_BYTES : Z := 64.
Definition MAX_RUN_EVENT_PAGE : Z := 16.

(** [char::is_control() && !matches!(c, '\n' | '\r' | '\t')] *)
Definition is_forbidden_control (c : Z) : bool :=
  is_control c && negb ((c =? 10) || (c =? 13) || (c =? 9)).

Definition validate_text (value : string) (max_bytes : Z) (message : string)
    : result ValidationError unit :=
  if bool_decide (trim (chars value) = []) || (max_bytes <? slen value)
     || existsb is_forbidden_control (chars value)
  then Err (mkValidationError message)
  else Ok tt.

(** [byte.is_ascii_alphanumeric() || matches!(byte, b'-' | b'_' | b'.' | b':')] *)
Definition is_identifier_byte (b : Z) : bool :=
  is_ascii_alphanumeric b || (b =? 45) || (b =? 95) || (b =? 46) || (b =? 58).

Definition validate_identifier (value : string) (max_bytes : Z) (message : string)
    : result ValidationError unit :=
  if is_empty value || (max_bytes <? slen value)
     || negb (forallb is_identifier_byte (bytes value))
  then Err (mkValidationError message)
  else Ok tt.

Definition IdempotencyKey_from_str (value : string) : result ValidationError IdempotencyKey :=
  let? _ := validate_identifier value MAX_IDEMPOTENCY_KEY_BYTES "invalid idempotency key" in
  Ok value.

Section WithExternal.
Context `{External}.

(** [string_uuid_id!]: the [FromStr] of [RunId] and [ConversationId]. *)
Definition id_from_str (value : string) : result IdError string :=
  match uuid_canonical value with
  | None => Err mkIdError
  | Some parsed => if bool_decide (parsed = value) then Ok value else Err mkIdError
  end.

Definition parse_timestamp (value : string) : result ValidationError Z :=
  if is_empty value || (MAX_TIMESTAMP_BYTES <? slen value)
  then Err (mkValidationError "invalid RFC 3339 timestamp")
  else ok_or (parse_from_rfc3339 value) (mkValidationError "invalid RFC 3339 timestamp").
End WithExternal.

(** ** The lifecycle graph *)
Inductive RunState :=
| Queued | Starting | Running | CancelRequested
| Succeeded | Failed | Cancelled | Interrupted.

#[export] Instance RunState_eq_dec : EqDecision RunState.
Proof. solve_decision. Defined.

Module RunStateOps.
Definition is_terminal (s : RunState) : bool :=
  match s with
  | Succeeded | Failed | Cancelled | Interrupted => true
  | _ => false
  end.

Definition transition_valid (s next : RunState) : bool :=
  match s with
  | Queued =>
      match next with
      | Starting | CancelRequested | Cancelled | Failed | Interrupted => true | _ => false
      end
  | Starting =>
      match next with
      | Running | CancelRequested | Cancelled | Failed | Interrupted => true | _ => false
      end
  | Running =>
      match next with
      | CancelRequested | Succeeded | Failed | Cancelled | Interrupted => true | _ => false
      end
  | CancelRequested =>
      match next with
      | Succeeded | Failed | Cancelled | Interrupted => true | _ => false
      end
  | Succeeded | Failed | Cancelled | Interrupted => false
  end.

Definition validate_transition (s next : RunState) : result ValidationError unit :=
  if transition_valid s next then Ok tt
  else Err (mkValidationError "invalid run state transition").
End RunStateOps.
Import RunStateOps.

(** ** Requests and queries *)
Inductive RunMode := Interactive | OneShot | Background | Automation.
Inductive BackendSelection := Cursor | Abi | FoundationModels | Grok.
#[export] Instance BackendSelection_eq_dec : EqDecision BackendSelection.
Proof. solve_decision. Defined.

(** The derived [PartialOrd]: declaration order. *)
Definition mode_rank (m : RunMode) : Z :=
  match m with Interactive => 0 | OneShot => 1 | Background => 2 | Automation => 3 end.
Definition backend_rank (b : BackendSelection) : Z :=
  match b with Cursor => 0 | Abi => 1 | FoundationModels => 2 | Grok => 3 end.

(** [slice.windows(2).any(|pair| pair[0] >= pair[1])] *)
Fixpoint windows_unordered {A} (rank : A -> Z) (l : list A) : bool :=
  match l with
  | x :: ((y :: _) as r) => (rank y <=? rank x) || windows_unordered rank r
  | _ => false
  end.

Record RunRequest := mkRunRequest {
  rq_idempotency_key : IdempotencyKey;
  rq_conversation_id : option ConversationId;
  rq_mode : RunMode;
  rq_backend : BackendSelection;
  rq_input : string;
  rq_labels : list string;
}.

Fixpoint validate_labels (labels : list string) : result ValidationError unit :=
  match labels with
  | [] => Ok tt
  | label :: rest =>
      let? _ := validate_identifier label MAX_LABEL_BYTES "invalid run label" in
      validate_labels rest
  end.

Definition RunRequest_validate (r : RunRequest) : result ValidationError unit :=
  let? _ := validate_text (rq_input r) MAX_INPUT_BYTES "invalid run input" in
  fail? MAX_LABELS <? Z.of_nat (length (rq_labels r))
  with mkValidationError "run request has too many labels" in
  validate_labels (rq_labels r).

Record RunQuery := mkRunQuery { q_run_id : RunId }.
Definition RunQuery_validate (q : RunQuery) : result ValidationError unit := Ok tt.

Definition default_run_event_limit : Z := MAX_RUN_EVENT_PAGE.

Record RunEventsQuery := mkRunEventsQuery {
  eq_run_id : RunId;
  eq_after_sequence : Z;
  eq_through_sequence : option Z;
  eq_limit : Z;
}.

Definition RunEventsQuery_validate (q : RunEventsQuery) : result ValidationError unit :=
  fail? (eq_limit q =? 0) || (MAX_RUN_EVENT_PAGE <? eq_limit q)
  with mkValidationError "run event page limit must be from 1 through 16" in
  fail? match eq_through_sequence q with
        | Some through => through <? eq_after_sequence q
        | None => false
        end
  with mkValidationError "run event cursor exceeds its snapshot watermark" in
  Ok tt.

Record RunRouteCapability := mkRunRouteCapability {
  rc_backend : BackendSelection;
  rc_modes : list RunMode;
}.

Definition RunRouteCapability_validate (c : RunRouteCapability) : result ValidationError unit :=
  fail? negb (match rc_backend c with Abi | FoundationModels => true | _ => false end)
  with mkValidationError "run route backend is not supported by protocol v2" in
  fail? match rc_modes c with [] => true | _ => false end
        || windows_unordered mode_rank (rc_modes c)
  with mkValidationError "run route modes must be nonempty, strictly ordered, and duplicate-free" in
  fail? existsb (fun m => match m with Interactive | Automation => true | _ => false end) (rc_modes c)
  with mkValidationError "run route mode is not supported by protocol v2" in
  Ok tt.

(** ** Snapshots and events *)
Record RunFailure := mkRunFailure { rf_code : string; rf_message : string; rf_retryable : bool }.

Definition RunFailure_validate (f : RunFailure) : result ValidationError unit :=
  let? _ := validate_identifier (rf_code f) MAX_FAILURE_CODE_BYTES "invalid run failure code" in
  validate_text (rf_message f) MAX_FAILURE_MESSAGE_BYTES "invalid run failure message".

Inductive RunCancellationReason := Requested | CancelManagerShutdown.
Inductive RunInterruptionReason := DaemonRestart | InterruptManagerShutdown.

Inductive RunLifecycleEvent :=
| EvQueued | EvStarting | EvRunning | EvCancelRequested | EvSucceeded
| EvFailed (failure : RunFailure)
| EvCancelled (reason : RunCancellationReason)
| EvInterrupted (reason : RunInterruptionReason).

Definition RunLifecycleEvent_validate (e : RunLifecycleEvent) : result ValidationError unit :=
  match e with
  | EvFailed failure => RunFailure_validate failure
  | _ => Ok tt
  end.

Record RunSnapshot := mkRunSnapshot {
  sn_run_id : RunId;
  sn_conversation_id : option ConversationId;
  sn_idempotency_key : IdempotencyKey;
  sn_state : RunState;
  sn_created_at : string;
  sn_updated_at : string;
  sn_failure : option RunFailure;
  sn_event_count : Z;
}.

Record RunEventRecord := mkRunEventRecord {
  er_run_id : RunId;
  er_sequence : Z;
  er_recorded_at : string;
  er_event : RunLifecycleEvent;
}.

Inductive RunSubmissionDisposition := Enqueued | Existing | QueueFull.
#[export] Instance RunSubmissionDisposition_eq_dec : EqDecision RunSubmissionDisposition.
Proof. solve_decision. Defined.

Record RunSubmission := mkRunSubmission {
  su_disposition : RunSubmissionDisposition;
  su_run : RunSnapshot;
}.

Record RunEventPage := mkRunEventPage {
  pg_run_id : RunId;
  pg_events : list RunEventRecord;
  pg_after_sequence : Z;
  pg_next_after_sequence : Z;
  pg_through_sequence : Z;
  pg_has_more : bool;
}.

Record ConversationMetadata := mkConversationMetadata {
  cm_conversation_id : ConversationId;
  cm_title : option string;
  cm_created_at : string;
  cm_updated_at : string;
  cm_run_count : Z;
}.

Section Validators.
Context `{External}.

Definition RunSnapshot_validate (s : RunSnapshot) : result ValidationError unit :=
  let? created := parse_timestamp (sn_created_at s) in
  let? updated := parse_timestamp (sn_updated_at s) in
  fail? updated <? created with mkValidationError "run timestamps are out of order" in
  fail? sn_event_count s =? 0
  with mkValidationError "run snapshot must contain at least one lifecycle event" in
  let? _ := match sn_failure s with
            | Some failure => RunFailure_validate failure
            | None => Ok tt
            end in
  let shape_valid :=
    Bool.eqb (bool_decide (sn_state s = Failed))
             (match sn_failure s with Some _ => true | None => false end) in
  fail? negb shape_valid
  with mkValidationError "run snapshot fields do not match its state" in
  Ok tt.

Definition RunEventRecord_validate (r : RunEventRecord) : result ValidationError unit :=
  fail? er_sequence r =? 0 with mkValidationError "run event sequence must start at one" in
  let? _ := parse_timestamp (er_recorded_at r) in
  RunLifecycleEvent_validate (er_event r).

Definition RunSubmission_validate (s : RunSubmission) : result ValidationError unit :=
  let? _ := RunSnapshot_validate (su_run s) in
  fail? bool_decide (su_disposition s = QueueFull)
        && (negb (bool_decide (sn_state (su_run s) = Failed))
            || negb (bool_decide (option_map rf_code (sn_failure (su_run s)) = Some "queue_full")))
  with mkValidationError "queue-full submission must contain a failed run" in
  Ok tt.

(** The [for record in &self.events] loop of [RunEventPage::validate]. *)
Fixpoint page_events_contiguous (run_id : RunId) (expected : Z) (events : list RunEventRecord)
    : result ValidationError unit :=
  match events with
  | [] => Ok tt
  | record :: rest =>
      let? _ := RunEventRecord_validate record in
      fail? negb (bool_decide (er_run_id record = run_id)) || negb (er_sequence record =? expected)
      with mkValidationError "run event page is not contiguous for the requested run" in
      let? expected' := ok_or (u64_checked_add expected 1)
                          (mkValidationError "run event sequence overflowed") in
      page_events_contiguous run_id expected' rest
  end.

Definition RunEventPage_validate (p : RunEventPage) : result ValidationError unit :=
  fail? MAX_RUN_EVENT_PAGE <? Z.of_nat (length (pg_events p))
  with mkValidationError "run event page exceeds 16 records" in
  fail? (pg_next_after_sequence p <? pg_after_sequence p)
        || (pg_through_sequence p <? pg_next_after_sequence p)
  with mkValidationError "run event page cursors are invalid" in
  let? expected := ok_or (u64_checked_add (pg_after_sequence p) 1)
                     (mkValidationError "run event sequence overflowed") in
  let? _ := page_events_contiguous (pg_run_id p) expected (pg_events p) in
  let expected_next := match last (pg_events p) with
                       | Some record => er_sequence record
                       | None => pg_after_sequence p
                       end in
  fail? negb (pg_next_after_sequence p =? expected_next)
        || negb (Bool.eqb (pg_has_more p) (pg_next_after_sequence p <? pg_through_sequence p))
        || ((match pg_events p with [] => true | _ => false end) && pg_has_more p)
  with mkValidationError "run event page continuation metadata is inconsistent" in
  Ok tt.

Definition ConversationMetadata_validate (c : ConversationMetadata) : result ValidationError unit :=
  let? created := parse_timestamp (cm_created_at c) in
  let? updated := parse_timestamp (cm_updated_at c) in
  fail? updated <? created with mkValidationError "conversation timestamps are out of order" in
  match cm_title c with
  | Some title => validate_text title MAX_CONVERSATION_TITLE_BYTES "invalid conversation title"
  | None => Ok tt
  end.
End Validators.

(** ** Commands, capabilities and policy *)
Inductive ClaimStatus :=
| ClCurrent | ClPartial | ClProposed | ClBlocked | ClOutOfScope
| ClFailed | ClRevoked | ClSuperseded | ClExpired.

Record ClaimsQuery := mkClaimsQuery { cq_status : option ClaimStatus; cq_contains : option string }.

Definition MAX_CLAIMS_FILTER_BYTES : Z := 256.
Definition MAX_ROUTE_AUDIT_PAGE : Z := 50.

(** [char::len_utf8], summed: the byte length of a trimmed slice. *)
Definition len_utf8 (c : Z) : Z :=
  if c <? 128 then 1 else if c <? 2048 then 2 else if c <? 65536 then 3 else 4.
Definition chars_len (cs : list Z) : Z := foldr (fun c n => len_utf8 c + n) 0 cs.

Definition ClaimsQuery_validate (q : ClaimsQuery) : result ValidationError unit :=
  match cq_contains q with
  | None => Ok tt
  | Some filter =>
      let filter := trim (chars filter) in
      fail? bool_decide (filter = []) with mkValidationError "claims filter cannot be empty" in
      fail? MAX_CLAIMS_FILTER_BYTES <? chars_len filter
      with mkValidationError "claims filter exceeds 256 bytes" in
      fail? existsb is_control filter
      with mkValidationError "claims filter cannot contain control characters" in
      Ok tt
  end.

Record RouteAuditQuery := mkRouteAuditQuery { ra_limit : Z }.
Definition RouteAuditQuery_validate (q : RouteAuditQuery) : result ValidationError unit :=
  fail? (ra_limit q =? 0) || (MAX_ROUTE_AUDIT_PAGE <? ra_limit q)
  with mkValidationError "route audit limit must be from 1 through 50" in
  Ok tt.

Inductive AppCommand :=
| Status
| Claims (q : ClaimsQuery)
| ReadRoutes (q : RouteAuditQuery)
| SubmitRun (r : RunRequest)
| GetRun (q : RunQuery)
| CancelRun (q : RunQuery)
| RunEvents (q : RunEventsQuery).

Definition AppCommand_validate (c : AppCommand) : result ValidationError unit :=
  match c with
  | Status => Ok tt
  | Claims query => ClaimsQuery_validate query
  | ReadRoutes query => RouteAuditQuery_validate query
  | SubmitRun request => RunRequest_validate request
  | GetRun query | CancelRun query => RunQuery_validate query
  | RunEvents query => RunEventsQuery_validate query
  end.

Definition APP_PROTOCOL_V1 : Z := 1.
Definition APP_PROTOCOL_VERSION : Z := 2.

Definition minimum_protocol_version (c : AppCommand) : Z :=
  match c with
  | Status | Claims _ | ReadRoutes _ => APP_PROTOCOL_V1
  | SubmitRun _ | GetRun _ | CancelRun _ | RunEvents _ => APP_PROTOCOL_VERSION
  end.

Inductive AppCapability :=
| CapReadStatus | CapReadClaims | CapReadRun | CapReadRunEvents
| CapSubmitRun | CapCancelRun | CapReadRoutes.
#[export] Instance AppCapability_eq_dec : EqDecision AppCapability.
Proof. solve_decision. Defined.

(** The derived [Ord] of [AppCapability]: declaration order. *)
Definition capability_rank (c : AppCapability) : Z :=
  match c with
  | CapReadStatus => 0 | CapReadClaims => 1 | CapReadRun => 2 | CapReadRunEvents => 3
  | CapSubmitRun => 4 | CapCancelRun => 5 | CapReadRoutes => 6
  end.

Record CapabilitySet := mkCapabilitySet { capabilities : list AppCapability }.

Module CapabilitySetOps.
Definition standard : CapabilitySet :=
  mkCapabilitySet [CapReadStatus; CapReadClaims; CapReadRoutes].

Definition runtime_v2_for_routes (has_routes : bool) : CapabilitySet :=
  mkCapabilitySet
    ([CapReadStatus; CapReadClaims; CapReadRun; CapReadRunEvents]
     ++ (if has_routes then [CapSubmitRun] else [])
     ++ [CapCancelRun] ++ [CapReadRoutes]).

Definition runtime_v2 : CapabilitySet := runtime_v2_for_routes true.

(** [slice::binary_search]: halve the window [base, base + size) while it has
    more than one element, then compare. *)
Fixpoint binary_search_loop (fuel : nat) (l : list AppCapability) (x : AppCapability)
    (base size : nat) : nat :=
  match fuel with
  | O => base
  | S fuel' =>
      if Nat.leb size 1 then base
      else
        let half := Nat.div2 size in
        let mid := (base + half)%nat in
        let base' := match l !! mid with
                     | Some y => if capability_rank x <? capability_rank y then base else mid
                     | None => base
                     end in
        binary_search_loop fuel' l x base' (size - half)
  end.

Definition contains (s : CapabilitySet) (x : AppCapability) : bool :=
  let l := capabilities s in
  match length l with
  | O => false
  | n => match l !! binary_search_loop n l x 0 n with
         | Some y => capability_rank y =? capability_rank x
         | None => false
         end
  end.

Definition validate (s : CapabilitySet) : result ValidationError unit :=
  fail? windows_unordered capability_rank (capabilities s)
  with mkValidationError "capabilities must be strictly ordered and duplicate-free" in
  Ok tt.
End CapabilitySetOps.

Module StandardPolicy.
Definition required (command : AppCommand) : AppCapability :=
  match command with
  | Status => CapReadStatus
  | Claims _ => CapReadClaims
  | ReadRoutes _ => CapReadRoutes
  | SubmitRun _ => CapSubmitRun
  | GetRun _ => CapReadRun
  | CancelRun _ => CapCancelRun
  | RunEvents _ => CapReadRunEvents
  end.

Definition permits (command : AppCommand) (capabilities : CapabilitySet) : bool :=
  CapabilitySetOps.contains capabilities (required command).
End StandardPolicy.

(** ** Lemmas: identifiers and pages *)
Lemma validate_identifier_ok value max_bytes message :
  validate_identifier value max_bytes message = Ok tt <->
  is_empty value = false /\ slen value <= max_bytes
  /\ Forall (fun b => is_identifier_byte b = true) (bytes value).
Proof.
  unfold validate_identifier. rewrite <- forallb_Forall.
  destruct (is_empty value), (Z.ltb_spec max_bytes (slen value)),
    (forallb is_identifier_byte (bytes value)); simpl;
    split; intros; deex; try discriminate; try lia; done.
Qed.

Lemma IdempotencyKey_from_str_ok v k : IdempotencyKey_from_str v = Ok k -> k = v.
Proof.
  unfold IdempotencyKey_from_str. destruct (validate_identifier _ _ _); intros; by simplify_eq.
Qed.

(** What [RunEventPage::validate] checks of the records: each is valid, belongs
    to the run, and they carry consecutive numbers that do not overflow. *)
Definition contiguous_records `{External} (run_id : RunId) (expected : Z)
    (events : list RunEventRecord) : Prop :=
  (events = [] \/ expected + Z.of_nat (length events) <= u64_max)
  /\ forall (i : nat) r, events !! i = Some r ->
       RunEventRecord_validate r = Ok tt /\ er_run_id r = run_id
       /\ er_sequence r = expected + Z.of_nat i.

Lemma contiguous_records_cons `{External} run_id expected r events :
  contiguous_records run_id expected (r :: events) <->
  (RunEventRecord_validate r = Ok tt /\ er_run_id r = run_id /\ er_sequence r = expected)
  /\ expected + 1 <= u64_max /\ contiguous_records run_id (expected + 1) events.
Proof.
  unfold contiguous_records. split.
  - intros [Hb Hr]. destruct Hb as [Hb|Hb]; [done|]. simpl in Hb.
    destruct (Hr O r eq_refl) as (Hv & Hid & Hs). split.
    { repeat split; [done..|]. rewrite Hs. simpl. lia. }
    split; [lia|]. split; [right; lia|].
    intros i r' Hi. destruct (Hr (S i) r' Hi) as (Hv' & Hid' & Hs').
    repeat split; [done..|]. rewrite Hs'. lia.
  - intros ((Hv & Hid & Hs) & Hb & [Hb' Hr]). split.
    + right. simpl. destruct Hb' as [->|Hb']; simpl; lia.
    + intros [|i] r' Hi; simpl in Hi.
      * simplify_eq. repeat split; [done..|]. simpl. lia.
      * destruct (Hr i r' Hi) as (Hv' & Hid' & Hs'). repeat split; [done..|]. rewrite Hs'. lia.
Qed.

Lemma page_events_contiguous_ok `{External} run_id expected events :
  page_events_contiguous run_id expected events = Ok tt <->
  contiguous_records run_id expected events.
Proof.
  revert expected. induction events as [|r events IH]; intros expected.
  { split; [|done]. intros _. split; [by left|]. intros i r Hi. by rewrite lookup_nil in Hi. }
  rewrite contiguous_records_cons, <- IH. simpl. unfold u64_checked_add.
  destruct (RunEventRecord_validate r) as [[]|e]; [|split; [discriminate|by intros ((? & _) & _)]].
  destruct (bool_decide (er_run_id r = run_id)) eqn:Hid; simpl; bools;
    [|split; [discriminate|tauto]].
  destruct (Z.eqb_spec (er_sequence r) expected); simpl; [|split; [discriminate|tauto]].
  destruct (Z.leb_spec (expected + 1) u64_max); simpl; [tauto|].
  split; [discriminate|]. intros (_ & ? & _). lia.
Qed.

Lemma last_sequence `{External} run_id expected events :
  contiguous_records run_id expected events ->
  match last events with Some r => er_sequence r | None => expected - 1 end
  = expected - 1 + Z.of_nat (length events).
Proof.
  intros [_ Hr]. destruct (last events) as [r|] eqn:Hl.
  - rewrite last_lookup in Hl.
    destruct (Hr _ _ Hl) as (_ & _ & Hs). rewrite Hs.
    destruct events; [done|]. simpl. lia.
  - apply last_None in Hl as ->. simpl. lia.
Qed.

(** The page contract, as one proposition. *)
Definition valid_page `{External} (p : RunEventPage) : Prop :=
  Z.of_nat (length (pg_events p)) <= MAX_RUN_EVENT_PAGE
  /\ pg_after_sequence p < u64_max
  /\ contiguous_records (pg_run_id p) (pg_after_sequence p + 1) (pg_events p)
  /\ pg_next_after_sequence p = pg_after_sequence p + Z.of_nat (length (pg_events p))
  /\ pg_next_after_sequence p <= pg_through_sequence p
  /\ pg_has_more p = (pg_next_after_sequence p <? pg_through_sequence p)
  /\ (pg_events p = [] -> pg_has_more p = false).

Lemma RunEventPage_validate_ok `{External} p :
  RunEventPage_validate p = Ok tt <-> valid_page p.
Proof.
  unfold RunEventPage_validate, valid_page.
  destruct (Z.ltb_spec MAX_RUN_EVENT_PAGE (Z.of_nat (length (pg_events p))));
    [split; [discriminate|lia]|].
  destruct (Z.ltb_spec (pg_next_after_sequence p) (pg_after_sequence p)); simpl;
    [split; [discriminate|lia]|].
  destruct (Z.ltb_spec (pg_through_sequence p) (pg_next_after_sequence p)); simpl;
    [split; [discriminate|lia]|].
  unfold u64_checked_add.
  destruct (Z.leb_spec (pg_after_sequence p + 1) u64_max); simpl; [|split; [discriminate|lia]].
  rewrite <- page_events_contiguous_ok.
  destruct (page_events_contiguous _ _ (pg_events p)) as [[]|] eqn:Hc;
    [|split; [discriminate|by intros (_ & _ & ? & _)]].
  apply page_events_contiguous_ok, last_sequence in Hc.
  replace (pg_after_sequence p + 1 - 1) with (pg_after_sequence p) in Hc by lia. rewrite Hc.
  destruct (Z.eqb_spec (pg_next_after_sequence p)
              (pg_after_sequence p + Z.of_nat (length (pg_events p)))); simpl;
    [|split; [discriminate|tauto]].
  destruct (Bool.eqb (pg_has_more p) (pg_next_after_sequence p <? pg_through_sequence p)) eqn:Hm;
    simpl.
  - apply Bool.eqb_prop in Hm.
    destruct (pg_events p) eqn:He; simpl; [destruct (pg_has_more p) eqn:Hh|].
    + split; [discriminate|]. intros (_ & _ & _ & _ & _ & _ & Hf). by specialize (Hf eq_refl).
    + split; [intros _|done]. repeat split; try done; lia.
    + split; [intros _|done]. repeat split; try done; lia.
  - split; [discriminate|]. intros (_ & _ & _ & _ & _ & Hh & _). rewrite Hh in Hm.
    by rewrite Bool.eqb_reflx in Hm.
Qed.

(** ** Lemmas: the lifecycle graph *)

(** The steps a run can still take at most. *)
Definition steps_left (s : RunState) : nat :=
  match s with
  | Queued => 4 | Starting => 3 | Running => 2 | CancelRequested => 1
  | Succeeded | Failed | Cancelled | Interrupted => 0
  end.

Lemma transition_decreases s next :
  transition_valid s next = true -> (steps_left next < steps_left s)%nat.
Proof. destruct s, next; simpl; intros; try discriminate; lia. Qed.

Lemma validate_transition_ok s next :
  validate_transition s next = Ok tt <-> transition_valid s next = true.
Proof. unfold validate_transition. by destruct (transition_valid s next). Qed.

(** A history of states, each reached from the previous one by an edge that
    [validate_transition] accepts. *)
Inductive lifecycle_path : RunState -> list RunState -> Prop :=
| path_nil s : lifecycle_path s []
| path_cons s next rest :
    validate_transition s next = Ok tt ->
    lifecycle_path next rest ->
    lifecycle_path s (next :: rest).

Lemma lifecycle_path_bounded s path :
  lifecycle_path s path -> (length path <= steps_left s)%nat.
Proof.
  induction 1 as [s|s next rest Hv _ IH]; simpl; [lia|].
  apply validate_transition_ok, transition_decreases in Hv. lia.
Qed.

(** ** Lemmas: capability sets *)
Definition strictly_ordered {A} (rank : A -> Z) (l : list A) : Prop :=
  forall (i j : nat) x y, (i < j)%nat -> l !! i = Some x -> l !! j = Some y -> rank x < rank y.

Lemma windows_ordered {A} (rank : A -> Z) l :
  windows_unordered rank l = false <-> strictly_ordered rank l.
Proof.
  induction l as [|x [|y r] IH].
  - split; [|done]. intros _ i j a b _ Hi. by rewrite lookup_nil in Hi.
  - split; [|done]. intros _ [|i] [|j] a b Hij Hi Hj; simpl in *; try lia; try discriminate.
  - cbn [windows_unordered]. rewrite orb_false_iff, IH, Z.leb_gt. clear IH. split.
    + intros [Hxy Hr] i j a b Hij Hi Hj.
      destruct i as [|i]; simpl in Hi; [|destruct j as [|j]; [lia|]; apply (Hr i j); [lia|done..]].
      simplify_eq. destruct j as [|[|j]]; simpl in Hj; [lia|by simplify_eq|].
      etrans; [exact Hxy|]. apply (Hr O (S j)); [lia|done..].
    + intros H. split; [apply (H 0%nat 1%nat); [lia|done..]|].
      intros i j a b Hij Hi Hj. apply (H (S i) (S j)); [lia|done..].
Qed.

(** While an occurrence of [x] exists, the search window keeps it. *)
Lemma binary_search_finds fuel l x base size i :
  strictly_ordered capability_rank l ->
  (size <= fuel)%nat -> (base <= i < base + size)%nat -> (base + size <= length l)%nat ->
  l !! i = Some x ->
  CapabilitySetOps.binary_search_loop fuel l x base size = i.
Proof.
  intros Hord. revert base size. induction fuel as [|fuel IH]; intros base size Hf Hi Hs Hx; [lia|].
  simpl. destruct (Nat.leb_spec size 1); [lia|].
  rewrite Nat.div2_div.
  pose proof (Nat.div_mod_eq size 2). pose proof (Nat.mod_upper_bound size 2 ltac:(lia)).
  pose proof (Nat.div_str_pos size 2 ltac:(lia)).
  destruct (lookup_lt_is_Some_2 l (base + size / 2)%nat) as [y Hy]; [lia|]. rewrite Hy.
  destruct (Z.ltb_spec (capability_rank x) (capability_rank y)) as [Hlt|Hge].
  - apply IH; [lia| |lia|done]. split; [lia|].
    destruct (decide (base + size / 2 <= i)%nat) as [Hle|]; [exfalso|lia].
    + destruct (decide (i = base + size / 2)%nat) as [->|].
      * rewrite Hx in Hy. simplify_eq. lia.
      * assert (capability_rank y < capability_rank x) by (eapply Hord; [|exact Hy|exact Hx]; lia).
        lia.
  - apply IH; [lia| |lia|done]. split; [|lia].
    destruct (decide (i < base + size / 2)%nat) as [Hlt|]; [|lia].
    assert (capability_rank x < capability_rank y) by (eapply Hord; [|exact Hx|exact Hy]; lia).
    lia.
Qed.

Lemma capability_rank_inj x y : capability_rank x = capability_rank y -> x = y.
Proof. by destruct x, y. Qed.

Lemma contains_iff s x :
  CapabilitySetOps.validate s = Ok tt ->
  CapabilitySetOps.contains s x = true <-> x ∈ capabilities s.
Proof.
  unfold CapabilitySetOps.validate, CapabilitySetOps.contains.
  destruct (windows_unordered _ _) eqn:Hw; [discriminate|]. intros _.
  apply windows_ordered in Hw. rename Hw into Hord.
  destruct (length (capabilities s)) as [|n] eqn:Hn.
  { apply length_zero_iff_nil in Hn. rewrite Hn. split; [discriminate|by intros ?%elem_of_nil]. }
  rewrite <- Hn. split.
  - destruct (capabilities s !! _) as [y|] eqn:Hy; [|discriminate].
    intros Heq%Z.eqb_eq%capability_rank_inj. subst y. apply list_elem_of_lookup. eauto.
  - intros [i Hi]%list_elem_of_lookup.
    pose proof (lookup_lt_Some _ _ _ Hi).
    rewrite (binary_search_finds _ _ x 0 _ i) by (done || lia). rewrite Hi. apply Z.eqb_refl.
Qed.

(** ** Properties *)

(** The lifecycle graph is a bounded one-way street: a history from [s] has at
    most [steps_left s] transitions (four from [Queued]), terminal states accept
    no transition at all, and every non-terminal state can still be failed,
    cancelled or interrupted. *)
Theorem lifecycle_is_bounded_and_terminal_is_final (s : RunState) :
  (forall path, lifecycle_path s path -> (length path <= steps_left s <= 4)%nat)
  /\ (is_terminal s = true -> forall next, is_ok (validate_transition s next) = false)
  /\ (is_terminal s = false ->
      validate_transition s Failed = Ok tt
      /\ validate_transition s Cancelled = Ok tt
      /\ validate_transition s Interrupted = Ok tt).
Proof.
  split; [|split].
  - intros path Hp. split; [by apply lifecycle_path_bounded|]. destruct s; simpl; lia.
  - intros Ht next. by destruct s, next.
  - intros Ht. by destruct s.
Qed.

(** [RunEventPage::validate] accepts a page exactly when its records are valid,
    belong to the run, are numbered consecutively after the cursor without
    overflow, and the continuation data says what the records say. *)
Theorem run_event_page_validate_iff (E : External) (p : RunEventPage) :
  RunEventPage_validate p = Ok tt <-> valid_page p.
Proof. exact (RunEventPage_validate_ok p). Qed.

(** On a well-formed capability set the binary-searched policy check permits a
    command exactly when the capability it requires was granted; the two
    shipped sets are well formed, and submission needs a bound route. *)
Theorem policy_permits_iff_granted (s : CapabilitySet) (command : AppCommand)
    (Hs : CapabilitySetOps.validate s = Ok tt) :
  (StandardPolicy.permits command s = true
   <-> StandardPolicy.required command ∈ capabilities s)
  /\ CapabilitySetOps.validate CapabilitySetOps.standard = Ok tt
  /\ (forall routes, CapabilitySetOps.validate (CapabilitySetOps.runtime_v2_for_routes routes) = Ok tt
        /\ forall r, StandardPolicy.permits (SubmitRun r)
                       (CapabilitySetOps.runtime_v2_for_routes routes) = routes)
  /\ forall r, StandardPolicy.permits (SubmitRun r) CapabilitySetOps.standard = false.
Proof.
  split; [by apply contains_iff|]. split; [reflexivity|]. split; [|reflexivity].
  by intros [].
Qed.

Lemma policy_permits_iff_granted_witness :
  StandardPolicy.permits Status CapabilitySetOps.standard = true
  <-> CapReadStatus ∈ capabilities CapabilitySetOps.standard.
Proof.
  exact (proj1 (policy_permits_iff_granted CapabilitySetOps.standard Status eq_refl)).
Defined.
