(* ===== verification/StoreBase.v ===== *)
(** * Runtime store: errors, columns and codecs
    (src/src/runtime/store.rs, store/codec.rs, store/records.rs)

    The store keeps its state in SQLite.  A table is modelled as a finite map
    from its primary key to a row of raw columns; a statement of the source is
    a function on tables that enforces the table's declared constraints; a
    transaction is [Prelude.transaction].  Failures of the storage medium
    itself (I/O, a busy database) are not modelled. *)
From stdpp Require Import base list gmap strings.
From Stdlib Require Import ZArith Lia.
From S2P Require Import Prelude RustStr External RunContract.
Import RunStateOps.

Open Scope Z_scope.
Open Scope rust_scope.

(** The [rusqlite] failures the code can meet: constraint violations, column
    conversions and the missing row of a [query_row]. *)
Inductive SqlError :=
| ConstraintPrimaryKey
| ConstraintUnique
| ConstraintForeignKey
| ConstraintCheck
| FromSqlConversionFailure (column : Z)
| InvalidColumnType (column : Z)
| QueryReturnedNoRows.

Inductive StoreError :=
| InvalidInput (message : string)
| InvalidAuditMetadata (message : string)
| IdempotencyConflict
| RunNotFound (run : string)
| ConversationNotFound (conversation : string)
| AssistantNotFound
| AssistantConflict
| UnexpectedStatus (expected found : RunState)
| InvalidTransition (from to : RunState)
| TerminalRun (run_id : string)
| ToolApprovalNotFound (call_id : string)
| ToolApprovalConflict
| ToolApprovalDigestMismatch
| ToolExecutionNotFound (call_id : string)
| ToolExecutionConflict
| ModelOperationNotFound (operation_id : string)
| ModelOperationConflict
| ModelOperationCapacity
| CorruptData (message : string)
| Database (error : SqlError).

(** ** Column codecs *)
Definition state_as_str (state : RunState) : string :=
  match state with
  | Queued => "queued"
  | Starting => "starting"
  | Running => "running"
  | CancelRequested => "cancel_requested"
  | Succeeded => "succeeded"
  | Failed => "failed"
  | Cancelled => "cancelled"
  | Interrupted => "interrupted"
  end.

Definition parse_run_state (value : string) : result StoreError RunState :=
  if bool_decide (value = "queued") then Ok Queued
  else if bool_decide (value = "starting") then Ok Starting
  else if bool_decide (value = "running") then Ok Running
  else if bool_decide (value = "cancel_requested") then Ok CancelRequested
  else if bool_decide (value = "succeeded") then Ok Succeeded
  else if bool_decide (value = "failed") then Ok Failed
  else if bool_decide (value = "cancelled") then Ok Cancelled
  else if bool_decide (value = "interrupted") then Ok Interrupted
  else Err (CorruptData "unknown run status").

Definition backend_as_str (backend : BackendSelection) : string :=
  match backend with
  | Cursor => "cursor"
  | Abi => "abi"
  | FoundationModels => "foundation_models"
  | Grok => "grok"
  end.

Definition sql_sequence (sequence : Z) : result StoreError Z :=
  if sequence <=? i64_max then Ok sequence
  else Err (CorruptData "event sequence exceeds SQLite integer range").

(** [to_sql_error]: every conversion failure becomes one [rusqlite] error. *)
Definition to_sql_error {A} (r : result StoreError A) : result StoreError A :=
  map_err (fun _ => Database (FromSqlConversionFailure 0)) r.

Section Ids.
Context `{External}.
Definition parse_run_id (value : string) : result StoreError RunId :=
  map_err (fun _ => CorruptData "invalid run UUID") (id_from_str value).
Definition parse_conversation_id (value : string) : result StoreError ConversationId :=
  map_err (fun _ => CorruptData "invalid conversation UUID") (id_from_str value).
End Ids.

(** ** Records *)
Record NewRun := mkNewRun {
  nr_conversation_id : option ConversationId;
  nr_idempotency_key : IdempotencyKey;
  nr_request_digest : string;
}.

Record RunRecord := mkRunRecord {
  run_id : RunId;
  run_conversation_id : option ConversationId;
  run_idempotency_key : IdempotencyKey;
  run_request_digest : string;
  run_status : RunState;
  run_next_event_sequence : Z;
  run_created_at : string;
  run_updated_at : string;
}.

Record NewRunEvent := mkNewRunEvent { ne_kind : string; ne_payload : Value }.

Record RunEvent := mkRunEvent {
  ev_run_id : RunId;
  ev_sequence : Z;
  ev_kind : string;
  ev_payload : Value;
  ev_created_at : string;
}.

Record ConversationBackend := mkConversationBackend {
  cb_conversation_id : ConversationId;
  cb_backend : BackendSelection;
  cb_backend_conversation_id : option string;
  cb_updated_at : string;
}.

(** ** Tables of the run component *)
Record RunRow := mkRunRow {
  c_conversation_id : option string;
  c_idempotency_key : string;
  c_request_digest : string;
  c_status : string;
  c_next_event_sequence : Z;
  c_created_at : string;
  c_updated_at : string;
}.

Record EventRow := mkEventRow { c_kind : string; c_payload_json : string; c_event_created_at : string }.

Record AuditRow := mkAuditRow {
  au_id : Z;
  au_run_id : option string;
  au_action : string;
  au_outcome : string;
  au_metadata_json : string;
  au_created_at : string;
}.

Record MessageRow := mkMessageRow {
  m_conversation_id : string;
  m_run_id : string;
  m_role : string;
  m_sequence : Z;
  m_body : string;
  m_text_bytes : Z;
  m_text_complete : bool;
  m_state : string;
  m_created_at_ms : Z;
}.

Record ConversationRow := mkConversationRow {
  cv_sequence : Z;
  cv_title : string;
  cv_archived : bool;
  cv_pinned : bool;
  cv_imported_history : bool;
  cv_deleted : bool;
  cv_created_at_ms : Z;
  cv_updated_at_ms : Z;
}.

Record TurnRow := mkTurnRow {
  tn_conversation_id : string;
  tn_user_message_id : option string;
  tn_assistant_message_id : option string;
  tn_user_sequence : Z;
  tn_route_id : string;
  tn_permission_profile_id : string;
  tn_created_at_ms : Z;
}.

Record ProfileRow := mkProfileRow { pf_document_json : string; pf_updated_at_ms : Z }.

Record ContentRow := mkContentRow {
  ct_request_id : string;
  ct_run_id : string;
  ct_kind : string;
  ct_byte_count : Z;
  ct_timestamp_ms : Z;
}.

Record RunDb := mkRunDb {
  conversations : gmap string (string * string);
  conversation_backends : gmap (string * string) (option string * string);
  runs : gmap string RunRow;
  run_events : gmap (string * Z) EventRow;
  audit_events : list AuditRow;
  assistant_conversations : gmap string ConversationRow;
  assistant_profiles : gmap string ProfileRow;
  assistant_turns : gmap string TurnRow;
  assistant_messages : gmap string MessageRow;
  assistant_content_events : gmap (string * Z) ContentRow;
  assistant_content_payloads : gmap (string * Z) string;
}.

Definition empty_run_db : RunDb := mkRunDb ∅ ∅ ∅ ∅ [] ∅ ∅ ∅ ∅ ∅ ∅.

Definition set_conversations t db :=
  mkRunDb t (conversation_backends db) (runs db) (run_events db)
    (audit_events db) (assistant_conversations db) (assistant_profiles db) (assistant_turns db)
    (assistant_messages db) (assistant_content_events db) (assistant_content_payloads db).
Definition set_backends t db :=
  mkRunDb (conversations db) t (runs db) (run_events db)
    (audit_events db) (assistant_conversations db) (assistant_profiles db) (assistant_turns db)
    (assistant_messages db) (assistant_content_events db) (assistant_content_payloads db).
Definition set_runs t db :=
  mkRunDb (conversations db) (conversation_backends db) t (run_events db)
    (audit_events db) (assistant_conversations db) (assistant_profiles db) (assistant_turns db)
    (assistant_messages db) (assistant_content_events db) (assistant_content_payloads db).
Definition set_run_events t db :=
  mkRunDb (conversations db) (conversation_backends db) (runs db) t
    (audit_events db) (assistant_conversations db) (assistant_profiles db) (assistant_turns db)
    (assistant_messages db) (assistant_content_events db) (assistant_content_payloads db).
Definition set_audit_events t db :=
  mkRunDb (conversations db) (conversation_backends db) (runs db) (run_events db)
    t (assistant_conversations db) (assistant_profiles db) (assistant_turns db)
    (assistant_messages db) (assistant_content_events db) (assistant_content_payloads db).
Definition set_assistant_conversations t db :=
  mkRunDb (conversations db) (conversation_backends db) (runs db) (run_events db)
    (audit_events db) t (assistant_profiles db) (assistant_turns db)
    (assistant_messages db) (assistant_content_events db) (assistant_content_payloads db).
Definition set_profiles t db :=
  mkRunDb (conversations db) (conversation_backends db) (runs db) (run_events db)
    (audit_events db) (assistant_conversations db) t (assistant_turns db)
    (assistant_messages db) (assistant_content_events db) (assistant_content_payloads db).
Definition set_turns t db :=
  mkRunDb (conversations db) (conversation_backends db) (runs db) (run_events db)
    (audit_events db) (assistant_conversations db) (assistant_profiles db) t
    (assistant_messages db) (assistant_content_events db) (assistant_content_payloads db).
Definition set_messages t db :=
  mkRunDb (conversations db) (conversation_backends db) (runs db) (run_events db)
    (audit_events db) (assistant_conversations db) (assistant_profiles db) (assistant_turns db)
    t (assistant_content_events db) (assistant_content_payloads db).
Definition set_content_events t db :=
  mkRunDb (conversations db) (conversation_backends db) (runs db) (run_events db)
    (audit_events db) (assistant_conversations db) (assistant_profiles db) (assistant_turns db)
    (assistant_messages db) t (assistant_content_payloads db).
Definition set_content_payloads t db :=
  mkRunDb (conversations db) (conversation_backends db) (runs db) (run_events db)
    (audit_events db) (assistant_conversations db) (assistant_profiles db) (assistant_turns db)
    (assistant_messages db) (assistant_content_events db) t.

(** ** Lemmas on the codecs *)
Lemma parse_state_as_str s : parse_run_state (state_as_str s) = Ok s.
Proof. by destruct s. Qed.

Lemma state_as_str_inj s1 s2 : state_as_str s1 = state_as_str s2 -> s1 = s2.
Proof. by destruct s1, s2. Qed.

Lemma parse_run_state_ok v s : parse_run_state v = Ok s -> v = state_as_str s.
Proof.
  unfold parse_run_state.
  repeat (case_bool_decide; [intros; by simplify_eq|]). discriminate.
Qed.

Lemma sql_sequence_ok n m : sql_sequence n = Ok m <-> m = n /\ n <= i64_max.
Proof.
  unfold sql_sequence. destruct (Z.leb_spec n i64_max); split; intros; deex; simplify_eq; auto; lia.
Qed.

Lemma id_from_str_ok `{External} v r : id_from_str v = Ok r <-> r = v /\ uuid_canonical v = Some v.
Proof.
  unfold id_from_str. destruct (uuid_canonical v) as [c|]; [case_bool_decide|].
  - subst. split; intros; deex; by simplify_eq.
  - split; [discriminate|]. intros [-> ?]. by simplify_eq.
  - split; [discriminate|]. by intros [_ ?].
Qed.

Lemma to_sql_error_ok {A} (r : result StoreError A) a : to_sql_error r = Ok a <-> r = Ok a.
Proof. destruct r; simpl; split; intros; by simplify_eq. Qed.

Lemma parse_run_id_ok `{External} v r : parse_run_id v = Ok r <-> r = v /\ uuid_canonical v = Some v.
Proof.
  rewrite <- id_from_str_ok. unfold parse_run_id.
  destruct (id_from_str v); simpl; split; intros; by simplify_eq.
Qed.

Lemma parse_conversation_id_ok `{External} v r :
  parse_conversation_id v = Ok r <-> r = v /\ uuid_canonical v = Some v.
Proof.
  rewrite <- id_from_str_ok. unfold parse_conversation_id.
  destruct (id_from_str v); simpl; split; intros; by simplify_eq.
Qed.
