(* ===== verification/AuditMetadata.v ===== *)
(** * Audit metadata (src/src/runtime/store/audit.rs)

    The only way to build the metadata of an audit record: a JSON object whose
    size, nesting, keys and strings are bounded and in which whatever looks like
    a secret has been replaced. *)
From stdpp Require Import base list strings.
From Stdlib Require Import ZArith Lia Ascii.
From S2P Require Import Prelude RustStr External RunContract StoreBase.

Open Scope Z_scope.
Open Scope rust_scope.

Definition MAX_METADATA_BYTES : Z := 4 * 1024.
Definition MAX_STRING_BYTES : Z := 512.
Definition MAX_COLLECTION_ITEMS : Z := 32.
Definition MAX_DEPTH : Z := 4.

(** ** Strings *)
Definition lower_char (c : ascii) : ascii :=
  if is_ascii_upper (byte_val c) then ascii_of_N (Z.to_N (byte_val c + 32)) else c.
Fixpoint map_chars (f : ascii -> ascii) (s : string) : string :=
  match s with EmptyString => EmptyString | String c r => String (f c) (map_chars f r) end.
(** [str::to_ascii_lowercase], and [str::replace] of the characters [-] and space. *)
Definition to_ascii_lowercase : string -> string := map_chars lower_char.
Definition replace_separators : string -> string :=
  map_chars (fun c => if bool_decide (c = "-"%char) || bool_decide (c = " "%char) then "_"%char else c).

Fixpoint starts_with_str (p s : string) : bool :=
  match p, s with
  | EmptyString, _ => true
  | String a p', String b s' => bool_decide (a = b) && starts_with_str p' s'
  | String _ _, EmptyString => false
  end.
(** [str::contains] *)
Fixpoint contains_str (p s : string) : bool :=
  starts_with_str p s || match s with EmptyString => false | String _ s' => contains_str p s' end.

Definition is_sensitive_key (key : string) : bool :=
  let key := replace_separators (to_ascii_lowercase key) in
  existsb (fun marker => contains_str marker key)
    ["prompt"; "credential"; "password"; "secret"; "token"; "authorization"; "cookie"; "api_key"].

Definition looks_secret (value : string) : bool :=
  let lower := to_ascii_lowercase value in
  starts_with_str "bearer " lower || starts_with_str "sk-" lower
  || contains_str "-----begin private key-----" lower.

(** ** Sanitization *)
Definition REDACTED : Value := VString "[REDACTED]".

Definition key_invalid (key : string) : bool :=
  is_empty key || (64 <? slen key) || existsb is_control (chars key).

(** The loop of [sanitize_object]; [rec] is [sanitize_value] one level down. *)
Definition sanitize_fields (rec : Value -> result StoreError Value)
    : list (string * Value) -> result StoreError (list (string * Value)) :=
  fix go fields :=
    match fields with
    | [] => Ok []
    | (key, value) :: rest =>
        fail? key_invalid key with InvalidAuditMetadata "metadata key is invalid" in
        let? value' := (if is_sensitive_key key then Ok REDACTED else rec value) in
        let? rest' := go rest in
        Ok ((key, value') :: rest')
    end.

Definition sanitize_object (rec : Value -> result StoreError Value) (fields : list (string * Value))
    : result StoreError Value :=
  fail? MAX_COLLECTION_ITEMS <? Z.of_nat (length fields)
  with InvalidAuditMetadata "metadata object exceeds 32 fields" in
  let? fields' := sanitize_fields rec fields in
  Ok (VObject fields').

Fixpoint sanitize_value (value : Value) (depth : Z) {struct value} : result StoreError Value :=
  fail? MAX_DEPTH <? depth with InvalidAuditMetadata "metadata nesting exceeds four levels" in
  match value with
  | VObject fields => sanitize_object (fun v => sanitize_value v (depth + 1)) fields
  | VArray items =>
      fail? MAX_COLLECTION_ITEMS <? Z.of_nat (length items)
      with InvalidAuditMetadata "metadata array exceeds 32 items" in
      let? items' := map_result (fun v => sanitize_value v (depth + 1)) items in
      Ok (VArray items')
  | VString text =>
      fail? MAX_STRING_BYTES <? slen text with InvalidAuditMetadata "metadata string exceeds 512 bytes" in
      Ok (if looks_secret text then REDACTED else VString text)
  | VNull | VBool _ | VNumber _ => Ok value
  end.

Definition AuditMetadata_new `{External} (value : Value) : result StoreError Value :=
  fail? match value with VObject _ => false | _ => true end
  with InvalidAuditMetadata "metadata must be a JSON object" in
  let? value' := sanitize_value value 0 in
  fail? MAX_METADATA_BYTES <? slen (json_to_string value')
  with InvalidAuditMetadata "metadata exceeds 4096 bytes" in
  Ok value'.

(** ** What clean metadata is *)
#[warnings="-register-all"]
Inductive clean : Z -> Value -> Prop :=
| clean_null d : d <= MAX_DEPTH -> clean d VNull
| clean_bool d b : d <= MAX_DEPTH -> clean d (VBool b)
| clean_number d n : d <= MAX_DEPTH -> clean d (VNumber n)
| clean_string d s : d <= MAX_DEPTH -> slen s <= MAX_STRING_BYTES -> looks_secret s = false -> clean d (VString s)
| clean_array d items :
    d <= MAX_DEPTH -> Z.of_nat (length items) <= MAX_COLLECTION_ITEMS ->
    Forall (clean (d + 1)) items -> clean d (VArray items)
| clean_object d fields :
    d <= MAX_DEPTH -> Z.of_nat (length fields) <= MAX_COLLECTION_ITEMS ->
    Forall (fun p => key_invalid p.1 = false
              /\ ((is_sensitive_key p.1 = true /\ p.2 = REDACTED)
                  \/ (is_sensitive_key p.1 = false /\ clean (d + 1) p.2))) fields ->
    clean d (VObject fields).

(** [v'] is [v] with some parts replaced by the redaction mark. *)
#[warnings="-register-all"]
Inductive redacted : Value -> Value -> Prop :=
| red_same v : redacted v v
| red_mark v : redacted v REDACTED
| red_array items items' : Forall2 redacted items items' -> redacted (VArray items) (VArray items')
| red_object fields fields' :
    Forall2 (fun p p' => p.1 = p'.1 /\ redacted p.2 p'.2) fields fields' ->
    redacted (VObject fields) (VObject fields').

(** ** Lemmas *)
Section ValueInd.
Variable P : Value -> Prop.
Hypothesis Hnull : P VNull.
Hypothesis Hbool : forall b, P (VBool b).
Hypothesis Hnumber : forall n, P (VNumber n).
Hypothesis Hstring : forall s, P (VString s).
Hypothesis Harray : forall items, Forall P items -> P (VArray items).
Hypothesis Hobject : forall fields, Forall (fun p => P p.2) fields -> P (VObject fields).

(** Induction through the elements of arrays and objects. *)
Fixpoint value_induction (v : Value) : P v :=
  match v with
  | VNull => Hnull
  | VBool b => Hbool b
  | VNumber n => Hnumber n
  | VString s => Hstring s
  | VArray items =>
      Harray items ((fix go l : Forall P l :=
        match l with
        | [] => List.Forall_nil P
        | x :: r => List.Forall_cons P x r (value_induction x) (go r)
        end) items)
  | VObject fields =>
      Hobject fields ((fix go l : Forall (fun p => P p.2) l :=
        match l with
        | [] => List.Forall_nil (fun p => P p.2)
        | p :: r => List.Forall_cons (fun p => P p.2) p r (value_induction p.2) (go r)
        end) fields)
  end.
End ValueInd.

Lemma sanitize_fields_ok rec fields fields' :
  sanitize_fields rec fields = Ok fields' <->
  Forall2 (fun p p' => p.1 = p'.1 /\ key_invalid p.1 = false
             /\ (if is_sensitive_key p.1 then p'.2 = REDACTED else rec p.2 = Ok p'.2)) fields fields'.
Proof.
  revert fields'. induction fields as [|[k v] fields IH]; intros fields'; simpl.
  - split; [intros [= <-]; constructor|by intros ->%Forall2_nil_inv_l].
  - split.
    + destruct (key_invalid k) eqn:Hk; [done|].
      destruct (is_sensitive_key k) eqn:Hs; [|destruct (rec v) as [v'|] eqn:Hv; [|done]];
        (destruct (sanitize_fields rec fields) as [r|] eqn:Hr; [|done]); intros [= <-];
        (constructor; [simpl; by rewrite Hs|by apply IH]).
    + intros ([k' v'] & r & (Hk & Hbad & Hv) & Hr & ->)%Forall2_cons_inv_l. simpl in *. subst k'.
      rewrite Hbad. apply IH in Hr. destruct (is_sensitive_key k); [subst v'|rewrite Hv]; by rewrite Hr.
Qed.

Lemma redacted_clean d : d <= MAX_DEPTH -> clean d REDACTED.
Proof. intros Hd. apply clean_string; [done|by vm_compute|by vm_compute]. Qed.

(** What sanitization returns is clean, and only redacts. *)
Lemma sanitize_clean v d v' :
  sanitize_value v d = Ok v' -> clean d v' /\ redacted v v'.
Proof.
  revert d v'. induction v as [|b|n|s|items IH|fields IH] using value_induction; intros d v' Hs;
    simpl in Hs; (destruct (Z.ltb_spec MAX_DEPTH d) as [|Hd]; [done|]).
  1-3: injection Hs as <-; split; [by constructor|constructor].
  - destruct (Z.ltb_spec MAX_STRING_BYTES (slen s)); [done|]. injection Hs as <-.
    destruct (looks_secret s) eqn:Hl; [split; [by apply redacted_clean|constructor]|split; [by constructor|constructor]].
  - destruct (Z.ltb_spec MAX_COLLECTION_ITEMS (Z.of_nat (length items))); [done|].
    destruct (map_result _ items) as [items'|] eqn:Hm; [|done]. injection Hs as <-. apply map_result_ok in Hm.
    assert (Forall2 (fun x y => clean (d + 1) y /\ redacted x y) items items') as Hall.
    { clear -IH Hm. induction Hm as [|x y xs ys Hx _ IHm]; [constructor|].
      apply Forall_cons in IH as [Hi IH]. constructor; [by apply Hi|by apply IHm]. }
    pose proof (Forall2_length _ _ _ Hm) as Hlen. split.
    + constructor; [done|lia|]. clear -Hall. induction Hall as [|x y xs ys [H _]]; by constructor.
    + constructor. eapply Forall2_impl; [exact Hall|]. by intros x y [_ ?].
  - unfold sanitize_object in Hs. destruct (Z.ltb_spec MAX_COLLECTION_ITEMS (Z.of_nat (length fields))); [done|].
    destruct (sanitize_fields _ fields) as [fields'|] eqn:Hm; [|done]. injection Hs as <-.
    apply sanitize_fields_ok in Hm. pose proof (Forall2_length _ _ _ Hm) as Hlen.
    assert (Forall2 (fun p p' => (p.1 = p'.1 /\ redacted p.2 p'.2) /\ key_invalid p'.1 = false
              /\ ((is_sensitive_key p'.1 = true /\ p'.2 = REDACTED)
                  \/ (is_sensitive_key p'.1 = false /\ clean (d + 1) p'.2))) fields fields') as Hall.
    { clear -IH Hm. induction Hm as [|[k x] [k' y] xs ys (Hk & Hbad & Hx) _ IHm]; [constructor|].
      apply Forall_cons in IH as [Hi IH]. simpl in *. subst k'. constructor; [|by apply IHm]. simpl.
      destruct (is_sensitive_key k); [subst y|apply Hi in Hx as [? ?]]; repeat split; auto; constructor. }
    split.
    + constructor; [done|lia|]. clear -Hall. induction Hall as [|x y xs ys [_ H]]; by constructor.
    + constructor. eapply Forall2_impl; [exact Hall|]. by intros x y [? _].
Qed.

(** Clean values are left alone. *)
Lemma clean_sanitize v d : clean d v -> sanitize_value v d = Ok v.
Proof.
  revert d. induction v as [|b|n|s|items IH|fields IH] using value_induction; intros d Hc; simpl;
    inversion Hc as [? Hd|? ? Hd|? ? Hd|? ? Hd Hlen Hl|? ? Hd Hlen Hall|? ? Hd Hlen Hall]; subst;
    (destruct (Z.ltb_spec MAX_DEPTH d); [lia|]); try done.
  - destruct (Z.ltb_spec MAX_STRING_BYTES (slen s)); [lia|]. by rewrite Hl.
  - destruct (Z.ltb_spec MAX_COLLECTION_ITEMS (Z.of_nat (length items))); [lia|].
    rewrite (proj2 (map_result_ok _ items items)); [done|]. clear -IH Hall.
    induction IH as [|x xs Hi IH IHx]; [constructor|]. apply Forall_cons in Hall as [Hx Hall].
    constructor; [by apply Hi|by apply IHx].
  - unfold sanitize_object. destruct (Z.ltb_spec MAX_COLLECTION_ITEMS (Z.of_nat (length fields))); [lia|].
    rewrite (proj2 (sanitize_fields_ok _ fields fields)); [done|]. clear -IH Hall.
    induction IH as [|[k x] xs Hi IH IHx]; [constructor|]. apply Forall_cons in Hall as [[Hk Hx] Hall].
    constructor; [|by apply IHx]. simpl in *. split; [done|]. split; [done|].
    destruct Hx as [[-> ->]|[-> Hx]]; [done|by apply Hi].
Qed.

Lemma sanitize_is_object fields d v' :
  sanitize_value (VObject fields) d = Ok v' -> exists fields', v' = VObject fields'.
Proof.
  simpl. destruct (MAX_DEPTH <? d); [done|]. unfold sanitize_object. destruct (MAX_COLLECTION_ITEMS <? _); [done|].
  destruct (sanitize_fields _ fields) as [fields'|]; [|done]. intros [= <-]. eauto.
Qed.

Lemma new_unchanged `{External} v :
  clean 0 v -> (exists fields, v = VObject fields) -> slen (json_to_string v) <= MAX_METADATA_BYTES ->
  AuditMetadata_new v = Ok v.
Proof.
  intros Hc [fields ->] Hlen. unfold AuditMetadata_new. rewrite clean_sanitize by done.
  by destruct (Z.ltb_spec MAX_METADATA_BYTES (slen (json_to_string (VObject fields)))); [lia|].
Qed.

(** C40: audit metadata is always clean: what the constructor returns is an object
    of at most 4096 bytes, nested at most four levels, with at most 32 bounded
    entries per collection, no string that looks like a secret and nothing but
    the redaction mark under a sensitive key; it differs from the input only by
    redactions; sanitizing again changes nothing; and metadata that is already
    clean is kept as it is. *)
Theorem audit_metadata_is_clean `{External} (v : Value) :
  (forall v', AuditMetadata_new v = Ok v' ->
     clean 0 v' /\ (exists fields, v' = VObject fields)
     /\ slen (json_to_string v') <= MAX_METADATA_BYTES
     /\ redacted v v' /\ AuditMetadata_new v' = Ok v')
  /\ (clean 0 v -> (exists fields, v = VObject fields) ->
      slen (json_to_string v) <= MAX_METADATA_BYTES -> AuditMetadata_new v = Ok v).
Proof.
  split; [|by intros; apply new_unchanged]. intros v' Hn. unfold AuditMetadata_new in Hn.
  destruct v as [| | | | |fields]; try done. destruct (sanitize_value (VObject fields) 0) as [w|] eqn:Hs; [|done].
  destruct (Z.ltb_spec MAX_METADATA_BYTES (slen (json_to_string w))); [done|]. injection Hn as <-.
  pose proof (sanitize_is_object _ _ _ Hs) as Hobj. apply sanitize_clean in Hs as [Hc Hr].
  split; [done|]. split; [done|]. split; [done|]. split; [done|]. by apply new_unchanged.
Qed.

Example redaction :
  sanitize_value (VObject [("API-Key", VNumber 7); ("note", VString "Bearer abc"); ("list", VArray [VString "ok"])]) 0
  = Ok (VObject [("API-Key", REDACTED); ("note", REDACTED); ("list", VArray [VString "ok"])]).
Proof. vm_compute. reflexivity. Qed.
