(* ===== verification/AssistantContent.v ===== *)
(** * Assistant content (src/src/app_core/v4_content.rs, src/src/runtime/store/v4_turn.rs)

    The part of the assistant tables a run transition writes: the state of the
    run's messages and the one terminal content event. *)
From stdpp Require Import base list gmap strings.
From Stdlib Require Import ZArith Lia Ascii.
From S2P Require Import Prelude RustStr External RunContract StoreBase.
Import RunStateOps.

Open Scope Z_scope.
Open Scope rust_scope.

Definition MAX_V4_CONTENT_EVENTS : Z := 65536.
Definition MAX_V4_DELTA_BYTES : Z := 16 * 1024.
Definition MAX_SAFE_INTEGER : Z := 9007199254740991.
Definition MAX_SEQUENCE : Z := 65536.

Inductive V4ToolState := ToolStarted | ToolSucceeded | ToolFailed | ToolCancelled.
Inductive V4NoticeCode := Truncated | Reconnecting | ProviderUnavailable | RecoveryRequired.

Inductive V4ContentPayload :=
| TextDelta (text : string)
| Tool (tool_id : string) (state : V4ToolState)
| Notice (code : V4NoticeCode)
| Usage (input_tokens output_tokens : Z)
| Terminal (state : RunState).

Definition ensure (ok : bool) : result ValidationError unit :=
  if ok then Ok tt else Err (mkValidationError "invalid v4 contract").

Definition contains_nul (s : string) : bool := existsb (fun c => c =? 0) (chars s).

Definition text (value : string) (max : Z) : result ValidationError unit :=
  ensure (negb (bool_decide (trim (chars value) = [])) && (slen value <=? max)
          && negb (contains_nul value)).

Definition label (value : string) : result ValidationError unit :=
  let? _ := text value 256 in
  ensure (negb (existsb is_control (chars value))).

Definition timestamp (value : Z) : result ValidationError unit := ensure (value <=? MAX_SAFE_INTEGER).

Definition V4ContentPayload_validate (p : V4ContentPayload) : result ValidationError unit :=
  match p with
  | TextDelta value =>
      ensure (negb (is_empty value) && (slen value <=? MAX_V4_DELTA_BYTES)
              && negb (contains_nul value))
  | Tool tool_id _ => label tool_id
  | Terminal state => ensure (is_terminal state)
  | _ => Ok tt
  end.

Record V4ContentEvent := mkV4ContentEvent {
  ce_conversation_id : ConversationId;
  ce_run_id : RunId;
  ce_sequence : Z;
  ce_timestamp_ms : Z;
  ce_payload : V4ContentPayload;
}.

Definition V4ContentEvent_validate (e : V4ContentEvent) : result ValidationError unit :=
  let? _ := timestamp (ce_timestamp_ms e) in
  let? _ := ensure ((0 <? ce_sequence e) && (ce_sequence e <=? MAX_V4_CONTENT_EVENTS)) in
  V4ContentPayload_validate (ce_payload e).

(** [serde_json::to_string] and [from_str] on the payload type ([from_str] also
    runs the validator). *)
Class ContentCodec := {
  content_json : V4ContentPayload -> string;
  content_of_json : string -> option V4ContentPayload;
}.

(** The values the Rust type holds: token counts are 32-bit. *)
Definition payload_typed (p : V4ContentPayload) : Prop :=
  match p with Usage i o => 0 <= i <= u32_max /\ 0 <= o <= u32_max | _ => True end.

(** What is relied on: a valid payload is read back, its encoding has at least
    two characters, JSON escapes a byte of text by at most six, and a text is
    wrapped in at least one and at most 64 bytes. *)
Class ContentLaws `{ContentCodec} := {
  content_roundtrip : forall p, V4ContentPayload_validate p = Ok tt -> payload_typed p ->
    content_of_json (content_json p) = Some p;
  content_nonempty : forall p, (2 <= length (chars (content_json p)))%nat;
  content_size : forall p, V4ContentPayload_validate p = Ok tt -> payload_typed p ->
    slen (content_json p) <= 6 * (match p with TextDelta t => slen t | Tool id _ => slen id | _ => 0 end) + 1024;
  content_text : forall t, slen t < slen (content_json (TextDelta t)) <= 6 * slen t + 64;
}.

Module ContentFixture.
(** A concrete codec: a letter for the variant, a colon and the data. *)
Definition tool_letter (s : V4ToolState) : Ascii.ascii :=
  match s with ToolStarted => "s" | ToolSucceeded => "o" | ToolFailed => "f" | ToolCancelled => "c" end%char.
Definition notice_letter (c : V4NoticeCode) : Ascii.ascii :=
  match c with Truncated => "t" | Reconnecting => "r" | ProviderUnavailable => "p" | RecoveryRequired => "q" end%char.
Definition state_letter (s : RunState) : Ascii.ascii :=
  match s with
  | Queued => "q" | Starting => "s" | Running => "r" | CancelRequested => "x"
  | Succeeded => "o" | Failed => "f" | Cancelled => "c" | Interrupted => "i"
  end%char.
Definition letter (c : Ascii.ascii) (s : string) : string := String c (String ":" s).

Definition tool_of (c : Ascii.ascii) : option V4ToolState :=
  match c with
  | "s" => Some ToolStarted | "o" => Some ToolSucceeded | "f" => Some ToolFailed
  | "c" => Some ToolCancelled | _ => None
  end%char.
Definition notice_of (c : Ascii.ascii) : option V4NoticeCode :=
  match c with
  | "t" => Some Truncated | "r" => Some Reconnecting | "p" => Some ProviderUnavailable
  | "q" => Some RecoveryRequired | _ => None
  end%char.
Definition state_of (c : Ascii.ascii) : option RunState :=
  match c with
  | "q" => Some Queued | "s" => Some Starting | "r" => Some Running | "x" => Some CancelRequested
  | "o" => Some Succeeded | "f" => Some Failed | "c" => Some Cancelled | "i" => Some Interrupted
  | _ => None
  end%char.

#[export] Instance content_fixture : ContentCodec := {|
  content_json p :=
    match p with
    | TextDelta t => letter "t" t
    | Tool id s => letter "o" (String (tool_letter s) id)
    | Notice c => letter "n" (String (notice_letter c) EmptyString)
    | Usage i o => letter "u" (decimal (i * 4294967296 + o))
    | Terminal s => letter "e" (String (state_letter s) EmptyString)
    end;
  content_of_json s :=
    match s with
    | String "t" (String ":" t) => Some (TextDelta t)
    | String "o" (String ":" (String c id)) => (fun x => Tool id x) <$> tool_of c
    | String "n" (String ":" (String c EmptyString)) => Notice <$> notice_of c
    | String "u" (String ":" n) =>
        let v := digits_value (bytes n) in Some (Usage (v / 4294967296) (v mod 4294967296))
    | String "e" (String ":" (String c EmptyString)) => Terminal <$> state_of c
    | _ => None
    end;
|}.

#[export] Instance content_fixture_laws : ContentLaws.
Proof.
  constructor.
  - intros [t|id s|c|i o|s] _ Hty; [done|by destruct s|by destruct c| |by destruct s].
    destruct Hty as [Hi Ho]. unfold u32_max in *. unfold content_of_json, content_json, content_fixture, letter.
    rewrite digits_value_decimal by (unfold is_u64, u64_max; lia).
    f_equal. f_equal; Z.div_mod_to_equations; lia.
  - intros [t|id s|c|i o|s]; unfold chars; simpl; lia.
  - intros [t|id s|c|i o|s] _ Hty; unfold content_json, content_fixture, letter, slen; simpl String.length; try lia.
    pose proof (slen_decimal (i * 4294967296 + o)). unfold slen in *. lia.
  - intros t. unfold content_json, content_fixture, letter, slen. simpl String.length. lia.
Qed.
End ContentFixture.

Definition kind_of (payload : V4ContentPayload) : string :=
  match payload with
  | TextDelta _ => "output_bounded"
  | Terminal state =>
      match state with
      | Cancelled | CancelRequested => "cancelled"
      | Failed => "failed"
      | Interrupted => "interrupted"
      | _ => "completed"
      end
  | Tool _ ToolStarted => "started"
  | _ => "output_bounded"
  end.

(** [ms]: a timestamp as a SQL integer. *)
Definition ms (v : Z) : result StoreError Z :=
  if v <=? i64_max then Ok v else Err (InvalidInput "ts range").

(** The largest content sequence of a conversation, or zero. *)
Definition last_content_sequence (cid : string) (db : RunDb) : Z :=
  map_fold (fun (k : string * Z) _ acc => if bool_decide (k.1 = cid) then Z.max k.2 acc else acc)
    0 (assistant_content_events db).

Definition is_terminal_kind (kind : string) : bool :=
  bool_decide (kind = "completed") || bool_decide (kind = "cancelled")
  || bool_decide (kind = "failed") || bool_decide (kind = "interrupted").

(** [INSERT INTO assistant_content_events] with the table's constraints. *)
Definition insert_content_row (cid : string) (seq : Z) (row : ContentRow) : Tx RunDb StoreError unit :=
  fun db =>
    if negb ((1 <=? seq) && (seq <=? 65536) && (1 <=? slen (ct_request_id row))
             && (slen (ct_request_id row) <=? 128) && (0 <=? ct_byte_count row)
             && (ct_byte_count row <=? 32768) && (0 <=? ct_timestamp_ms row))
    then (Err (Database ConstraintCheck), db)
    else match assistant_content_events db !! (cid, seq) with
         | Some _ => (Err (Database ConstraintPrimaryKey), db)
         | None =>
             if negb (bool_decide (is_Some (assistant_conversations db !! cid)))
                || negb (bool_decide (is_Some (runs db !! ct_run_id row)))
             then (Err (Database ConstraintForeignKey), db)
             else (Ok tt, set_content_events (<[(cid, seq) := row]> (assistant_content_events db)) db)
         end.

(** [INSERT OR IGNORE INTO assistant_content_payloads]: a payload outside the
    CHECK or already present is skipped. *)
Definition insert_payload_row (cid : string) (seq : Z) (pjson : string) : Tx RunDb StoreError unit :=
  fun db =>
    let n := Z.of_nat (length (chars pjson)) in
    if (2 <=? n) && (n <=? 131072)
       && bool_decide (assistant_content_payloads db !! (cid, seq) = None)
    then (Ok tt, set_content_payloads (<[(cid, seq) := pjson]> (assistant_content_payloads db)) db)
    else (Ok tt, db).

Section Ops.
Context `{External} `{ContentCodec}.

(** [query_row]: a missing turn is [QueryReturnedNoRows]. *)
Definition turn_conversation (run : string) (db : RunDb) : result StoreError string :=
  ok_or (tn_conversation_id <$> assistant_turns db !! run) (Database QueryReturnedNoRows).

Definition turn_conversation_id (rid : RunId) (db : RunDb) : result StoreError ConversationId :=
  let? s := turn_conversation rid db in
  map_err (fun _ => CorruptData "cid") (id_from_str s).

Definition insert_content_event (cid : ConversationId) (rid : RunId) (payload : V4ContentPayload)
    (now_ms : Z) : Tx RunDb StoreError V4ContentEvent :=
  tlift (map_err (fun _ => InvalidInput "content payload invalid")
           (V4ContentPayload_validate payload)) ;;
  last <- tread (fun db => Ok (last_content_sequence cid db)) ;
  seq <- tlift (match u64_checked_add last 1 with
                | Some s => if s <=? MAX_SEQUENCE then Ok s else Err AssistantConflict
                | None => Err AssistantConflict
                end) ;
  tlift (if negb (match payload with Terminal _ => true | _ => false end) && (seq =? MAX_SEQUENCE)
         then Err AssistantConflict else Ok tt) ;;
  let pjson := content_json payload in
  let byte_count := match payload with TextDelta text => slen text | _ => slen pjson end in
  sql_seq <- tlift (sql_sequence seq) ;
  sql_ms <- tlift (ms now_ms) ;
  insert_content_row cid sql_seq (mkContentRow rid rid (kind_of payload) byte_count sql_ms) ;;
  insert_payload_row cid sql_seq pjson ;;
  let ev := mkV4ContentEvent cid rid seq now_ms payload in
  tlift (map_err (fun _ => CorruptData "content event invalid") (V4ContentEvent_validate ev)) ;;
  tret ev.

(** [UPDATE assistant_messages SET state=?2, text_complete=(length(CAST(body AS
    BLOB))=text_bytes) WHERE run_id=?1] *)
Definition update_message_states (rid : RunId) (state : string) (db : RunDb) : RunDb :=
  set_messages
    ((fun m =>
        if bool_decide (m_run_id m = rid)
        then mkMessageRow (m_conversation_id m) (m_run_id m) (m_role m) (m_sequence m) (m_body m)
               (m_text_bytes m) (slen (m_body m) =? m_text_bytes m) state (m_created_at_ms m)
        else m) <$> assistant_messages db) db.

Definition terminal_marked (rid : RunId) (db : RunDb) : bool :=
  map_fold (fun _ row acc => (bool_decide (ct_run_id row = rid) && is_terminal_kind (ct_kind row)) || acc)
    false (assistant_content_events db).

Definition sync_message_state (rid : RunId) (next : RunState) (now_ms : Z) : Tx RunDb StoreError unit :=
  fun db =>
    match assistant_turns db !! rid with
    | None => (Ok tt, db)
    | Some _ =>
        let db1 := update_message_states rid (state_as_str next) db in
        if negb (is_terminal next) then (Ok tt, db1)
        else if terminal_marked rid db1 then (Ok tt, db1)
        else match turn_conversation_id rid db1 with
             | Err e => (Err e, db1)
             | Ok cid =>
                 match insert_content_event cid rid (Terminal next) now_ms db1 with
                 | (Ok _, db2) => (Ok tt, db2)
                 | (Err AssistantConflict, db2) => (Ok tt, db2)
                 | (Err e, db2) => (Err e, db2)
                 end
             end
    end.
End Ops.

(** ** Frame: only the assistant tables change *)
Record core_tables := mkCore {
  k_conversations : gmap string (string * string);
  k_backends : gmap (string * string) (option string * string);
  k_runs : gmap string RunRow;
  k_events : gmap (string * Z) EventRow;
  k_audit : list AuditRow;
  k_turns : gmap string TurnRow;
}.
Definition core (db : RunDb) : core_tables :=
  mkCore (conversations db) (conversation_backends db) (runs db) (run_events db)
    (audit_events db) (assistant_turns db).

Lemma insert_content_row_core cid seq row k :
  keeps (fun db => core db = k) (insert_content_row cid seq row).
Proof.
  intros db Hk. unfold insert_content_row.
  destruct (negb _); [done|]. destruct (_ !! _); [done|]. by destruct (_ || _).
Qed.

Lemma insert_payload_row_core cid seq p k :
  keeps (fun db => core db = k) (insert_payload_row cid seq p).
Proof. intros db Hk. unfold insert_payload_row. by destruct (_ && _). Qed.

Lemma insert_content_event_core `{External} `{ContentCodec} cid rid p now k :
  keeps (fun db => core db = k) (insert_content_event cid rid p now).
Proof.
  unfold insert_content_event.
  repeat (apply keeps_bind; [solve [eauto using insert_content_row_core, insert_payload_row_core with tx]
                            |intros ?]).
  auto with tx.
Qed.

Lemma sync_message_state_core `{External} `{ContentCodec} rid next now k :
  keeps (fun db => core db = k) (sync_message_state rid next now).
Proof.
  intros db Hk. unfold sync_message_state. destruct (assistant_turns db !! rid); [|done].
  destruct (negb _); [done|]. destruct (terminal_marked _ _); [done|].
  destruct (turn_conversation_id _ _) as [cid|e]; [|done].
  pose proof (insert_content_event_core cid rid (Terminal next) now k
                (update_message_states rid (state_as_str next) db) Hk) as Hc.
  destruct (insert_content_event _ _ _ _ _) as [[ev|e] db2]; [done|]. by destruct e.
Qed.

Lemma sync_message_state_none `{External} `{ContentCodec} rid next now db :
  assistant_turns db !! rid = None -> sync_message_state rid next now db = (Ok tt, db).
Proof. intros Hn. unfold sync_message_state. by rewrite Hn. Qed.
