(* ===== verification/RunStore.v ===== *)
(** * Run lifecycle store (src/src/runtime/store.rs, store/projection.rs, store/codec.rs)

    Durable runs with their append-only event ledger: admission by idempotency
    key, guarded transitions, appends, bounded pages over a fixed watermark,
    snapshots for the application boundary and recovery after a restart.

    The clock and the generator of run identifiers are arguments of the
    operations that read them. *)
From stdpp Require Import base list gmap strings sorting.
From Stdlib Require Import ZArith Lia.
From S2P Require Import Prelude RustStr External RunContract StoreBase AssistantContent.
Import RunStateOps.

Open Scope Z_scope.
Open Scope rust_scope.

Definition MAX_EVENT_KIND_BYTES : Z := 64.
Definition MAX_EVENT_PAYLOAD_BYTES : Z := 16 * 1024.

(** One reading of the clock: [now()] and the epoch milliseconds. *)
Record Tick := mkTick { now : string; now_ms : Z }.

Record NewAuditEvent := mkNewAuditEvent {
  na_run_id : option RunId;
  na_action : string;
  na_outcome : string;
  na_metadata : Value;
}.
Record AuditEvent := mkAuditEvent {
  ae_id : Z;
  ae_run_id : option RunId;
  ae_action : string;
  ae_outcome : string;
  ae_metadata : Value;
  ae_created_at : string;
}.

(** ** Input validation *)
Definition validate_new_run (run : NewRun) : result StoreError unit :=
  if negb (slen (nr_request_digest run) =? 64)
     || negb (forallb is_lower_hex (bytes (nr_request_digest run)))
  then Err (InvalidInput "request digest must be 64 lower-case hexadecimal bytes")
  else Ok tt.

Definition validate_label (value : string) (error : string) : result StoreError unit :=
  if is_empty value || (MAX_EVENT_KIND_BYTES <? slen value) || existsb is_control (chars value)
  then Err (InvalidInput error)
  else Ok tt.

Definition validate_audit_label (value : string) (error : string) : result StoreError unit :=
  if is_empty value || (64 <? slen value) || existsb is_control (chars value)
  then Err (InvalidInput error)
  else Ok tt.

Section Store.
Context `{External} `{ContentCodec}.

Definition validate_event (event : NewRunEvent) : result StoreError unit :=
  let? _ := validate_label (ne_kind event) "event kind is empty or exceeds 64 bytes" in
  fail? MAX_EVENT_PAYLOAD_BYTES <? slen (json_to_string (ne_payload event))
  with InvalidInput "event payload exceeds 16384 bytes" in
  Ok tt.

(** ** Rows *)
Definition row_to_run (id : string) (row : RunRow) : result StoreError RunRecord :=
  let? id' := to_sql_error (parse_run_id id) in
  let? conversation := match c_conversation_id row with
                       | None => Ok None
                       | Some value =>
                           let? c := to_sql_error (parse_conversation_id value) in Ok (Some c)
                       end in
  let? key := map_err (fun _ => Database (FromSqlConversionFailure 0))
                (IdempotencyKey_from_str (c_idempotency_key row)) in
  let? status := to_sql_error (parse_run_state (c_status row)) in
  fail? c_next_event_sequence row <? 0 with Database (FromSqlConversionFailure 0) in
  Ok (mkRunRecord id' conversation key (c_request_digest row) status
        (c_next_event_sequence row) (c_created_at row) (c_updated_at row)).

Definition row_to_event (run : string) (sequence : Z) (row : EventRow) : result StoreError RunEvent :=
  let? id := to_sql_error (parse_run_id run) in
  fail? sequence <? 0 with Database (FromSqlConversionFailure 0) in
  let? payload := ok_or (json_from_str (c_payload_json row)) (Database (FromSqlConversionFailure 3)) in
  Ok (mkRunEvent id sequence (c_kind row) payload (c_event_created_at row)).

Definition run_by_id (id : string) (db : RunDb) : result StoreError (option RunRecord) :=
  match runs db !! id with
  | None => Ok None
  | Some row => let? run := row_to_run id row in Ok (Some run)
  end.

(** The row the UNIQUE index on [idempotency_key] selects. *)
Definition find_key (key : string) (db : RunDb) : option (string * RunRow) :=
  head (filter (fun p : string * RunRow => c_idempotency_key p.2 = key) (map_to_list (runs db))).

Definition run_by_idempotency_key (key : string) (db : RunDb) : result StoreError (option RunRecord) :=
  match find_key key db with
  | None => Ok None
  | Some (id, row) => let? run := row_to_run id row in Ok (Some run)
  end.

(** [run_by_id(..)?.ok_or_else(|| RunNotFound)] *)
Definition require_run (id : string) (db : RunDb) : result StoreError RunRecord :=
  let? found := run_by_id id db in
  ok_or found (RunNotFound id).

(** ** Statements *)
Definition insert_run_row (id : string) (row : RunRow) : Tx RunDb StoreError unit := fun db =>
  match runs db !! id with
  | Some _ => (Err (Database ConstraintPrimaryKey), db)
  | None =>
      match find_key (c_idempotency_key row) db with
      | Some _ => (Err (Database ConstraintUnique), db)
      | None =>
          if match c_conversation_id row with
             | Some c => bool_decide (conversations db !! c = None)
             | None => false
             end
          then (Err (Database ConstraintForeignKey), db)
          else (Ok tt, set_runs (<[id := row]> (runs db)) db)
      end
  end.

Definition insert_event_row (run : string) (sequence : Z) (row : EventRow) : Tx RunDb StoreError unit :=
  fun db =>
    if sequence <? 1 then (Err (Database ConstraintCheck), db)
    else match run_events db !! (run, sequence) with
         | Some _ => (Err (Database ConstraintPrimaryKey), db)
         | None =>
             match runs db !! run with
             | None => (Err (Database ConstraintForeignKey), db)
             | Some _ => (Ok tt, set_run_events (<[(run, sequence) := row]> (run_events db)) db)
             end
         end.

(** [UPDATE runs SET status=?3, next_event_sequence=?4, updated_at=?5
     WHERE id=?1 AND status=?2 AND next_event_sequence=?6]: the changed rows. *)
Definition update_run_guarded (id status next : string) (next_sequence : Z) (updated : string)
    (sequence : Z) : Tx RunDb StoreError Z := fun db =>
  match runs db !! id with
  | Some row =>
      if bool_decide (c_status row = status) && (c_next_event_sequence row =? sequence)
      then if next_sequence <? 1 then (Err (Database ConstraintCheck), db)
           else (Ok 1, set_runs (<[id := mkRunRow (c_conversation_id row) (c_idempotency_key row)
                                          (c_request_digest row) next next_sequence
                                          (c_created_at row) updated]> (runs db)) db)
      else (Ok 0, db)
  | None => (Ok 0, db)
  end.

(** [UPDATE runs SET next_event_sequence=?2, updated_at=?3 WHERE id=?1] *)
Definition update_run_sequence (id : string) (next_sequence : Z) (updated : string)
    : Tx RunDb StoreError unit := fun db =>
  match runs db !! id with
  | Some row =>
      if next_sequence <? 1 then (Err (Database ConstraintCheck), db)
      else (Ok tt, set_runs (<[id := mkRunRow (c_conversation_id row) (c_idempotency_key row)
                                       (c_request_digest row) (c_status row) next_sequence
                                       (c_created_at row) updated]> (runs db)) db)
  | None => (Ok tt, db)
  end.

(** ** Appending to the ledger *)
Definition append_event (run : RunRecord) (event : NewRunEvent) (timestamp : string)
    : Tx RunDb StoreError RunEvent :=
  let payload_json := json_to_string (ne_payload event) in
  sequence <- tlift (sql_sequence (run_next_event_sequence run)) ;
  insert_event_row (run_id run) sequence (mkEventRow (ne_kind event) payload_json timestamp) ;;
  tret (mkRunEvent (run_id run) (run_next_event_sequence run) (ne_kind event) (ne_payload event)
          timestamp).

Definition update_and_append (run : RunRecord) (next : RunState) (event : NewRunEvent)
    (timestamp : string) (clock_ms : Z) : Tx RunDb StoreError RunEvent :=
  sequence <- tlift (sql_sequence (run_next_event_sequence run)) ;
  next_sequence <- tlift (sql_sequence (run_next_event_sequence run + 1)) ;
  changed <- update_run_guarded (run_id run) (state_as_str (run_status run)) (state_as_str next)
               next_sequence timestamp sequence ;
  if negb (changed =? 1)
  then found <- tread (require_run (run_id run)) ;
       traise (UnexpectedStatus (run_status run) (run_status found))
  else
    stored <- append_event run event timestamp ;
    sync_message_state (run_id run) next clock_ms ;;
    tret stored.

(** ** Operations *)
Definition create_conversation (id : ConversationId) (t : Tick) : Tx RunDb StoreError unit := fun db =>
  match conversations db !! id with
  | Some _ => (Ok tt, db)
  | None => (Ok tt, set_conversations (<[id := (now t, now t)]> (conversations db)) db)
  end.

Definition set_conversation_backend (conversation_id : ConversationId) (backend : BackendSelection)
    (backend_conversation_id : option string) (t : Tick) : Tx RunDb StoreError ConversationBackend :=
  fun db =>
    if match backend_conversation_id with
       | Some value => (512 <? slen value) || existsb is_control (chars value)
       | None => false
       end
    then (Err (InvalidInput "backend conversation id contains controls or exceeds 512 bytes"), db)
    else match conversations db !! conversation_id with
         | None => (Err (ConversationNotFound conversation_id), db)
         | Some _ =>
             (Ok (mkConversationBackend conversation_id backend backend_conversation_id (now t)),
              set_backends (<[(conversation_id, backend_as_str backend) :=
                                (backend_conversation_id, now t)]> (conversation_backends db)) db)
         end.

(** [fresh] is the identifier [RunId::new] returned. *)
Definition create_or_get_run (new_run : NewRun) (fresh : RunId) (t : Tick)
    : Tx RunDb StoreError RunRecord :=
  tlift (validate_new_run new_run) ;;
  transaction
    (found <- tread (run_by_idempotency_key (nr_idempotency_key new_run)) ;
     match found with
     | Some existing =>
         if bool_decide (run_request_digest existing = nr_request_digest new_run)
         then tret existing
         else traise IdempotencyConflict
     | None =>
         (fun db =>
            match insert_run_row fresh
                    (mkRunRow (nr_conversation_id new_run) (nr_idempotency_key new_run)
                       (nr_request_digest new_run) "queued" 2 (now t) (now t)) db with
            | (Err (Database ConstraintForeignKey), db') =>
                (Err (ConversationNotFound (default EmptyString (nr_conversation_id new_run))), db')
            | r => r
            end) ;;
         insert_event_row fresh 1 (mkEventRow "run_queued" "{}" (now t)) ;;
         record <- tread (run_by_id fresh) ;
         tlift (ok_or record (CorruptData "newly inserted run disappeared"))
     end).

Definition get_run (id : RunId) : Tx RunDb StoreError (option RunRecord) := tread (run_by_id id).

Definition transition_run (id : RunId) (expected next : RunState) (event : NewRunEvent) (t : Tick)
    : Tx RunDb StoreError RunEvent :=
  tlift (validate_event event) ;;
  transaction
    (run <- tread (require_run id) ;
     if negb (bool_decide (run_status run = expected))
     then traise (UnexpectedStatus expected (run_status run))
     else if is_terminal (run_status run)
     then traise (TerminalRun id)
     else if negb (is_ok (validate_transition (run_status run) next))
     then traise (InvalidTransition (run_status run) next)
     else update_and_append run next event (now t) (now_ms t)).

Definition append_run_event (id : RunId) (event : NewRunEvent) (t : Tick)
    : Tx RunDb StoreError RunEvent :=
  tlift (validate_event event) ;;
  transaction
    (run <- tread (require_run id) ;
     if is_terminal (run_status run)
     then traise (TerminalRun id)
     else
       stored <- append_event run event (now t) ;
       next_sequence <- tlift (sql_sequence (run_next_event_sequence run + 1)) ;
       update_run_sequence id next_sequence (now t) ;;
       tret stored).

(** ** Queries over the ledger *)
Definition sequence_le (a b : Z * EventRow) : Prop := a.1 <= b.1.
#[local] Instance sequence_le_dec : RelDecision sequence_le.
Proof. intros a b. unfold sequence_le. apply _. Defined.

Definition event_of_run (id : string) (p : string * Z * EventRow) : option (Z * EventRow) :=
  if bool_decide (p.1.1 = id) then Some (p.1.2, p.2) else None.

(** [SELECT .. FROM run_events WHERE run_id=?1 ORDER BY sequence] *)
Definition events_of (id : string) (db : RunDb) : list (Z * EventRow) :=
  merge_sort sequence_le (omap (event_of_run id) (map_to_list (run_events db))).

Definition run_events_query (id : RunId) : Tx RunDb StoreError (list RunEvent) :=
  tread (fun db => map_result (fun p => row_to_event id p.1 p.2) (events_of id db)).

(** [SELECT COUNT(_), MIN(sequence), MAX(sequence)] *)
Definition minimum (l : list Z) : option Z :=
  match l with [] => None | x :: r => Some (foldr Z.min x r) end.
Definition maximum (l : list Z) : option Z :=
  match l with [] => None | x :: r => Some (foldr Z.max x r) end.

Definition validate_event_snapshot (id : RunId) (current_watermark : Z) (db : RunDb)
    : result StoreError unit :=
  let sequences := map fst (events_of id db) in
  let? expected := sql_sequence current_watermark in
  if negb (Z.of_nat (length sequences) =? expected)
     || negb (bool_decide (minimum sequences = Some 1))
     || negb (bool_decide (maximum sequences = Some expected))
  then Err (CorruptData "run event snapshot contains a sequence gap")
  else Ok tt.

(** ** Projection to the application boundary *)
Definition lifecycle_state (event : RunLifecycleEvent) : RunState :=
  match event with
  | EvQueued => Queued
  | EvStarting => Starting
  | EvRunning => Running
  | EvCancelRequested => CancelRequested
  | EvSucceeded => Succeeded
  | EvFailed _ => Failed
  | EvCancelled _ => Cancelled
  | EvInterrupted _ => Interrupted
  end.

(** The fixed message and retry flag of each failure code. *)
Definition failure_code_table (code : string) : option (string * bool) :=
  if bool_decide (code = "worker_unavailable") then Some ("run worker is unavailable", true)
  else if bool_decide (code = "queue_full") then Some ("bounded run queue is full", true)
  else if bool_decide (code = "executor_failed") then Some ("executor returned a failure", false)
  else if bool_decide (code = "executor_unsupported")
  then Some ("executor does not support this request", false)
  else if bool_decide (code = "executor_spawn_failed")
  then Some ("executor process failed to start", true)
  else if bool_decide (code = "executor_timed_out") then Some ("executor exceeded its deadline", true)
  else if bool_decide (code = "executor_output_limit")
  then Some ("executor output exceeded its limit", false)
  else if bool_decide (code = "executor_provider_exit")
  then Some ("executor process exited unsuccessfully", true)
  else if bool_decide (code = "executor_teardown_failed")
  then Some ("executor process teardown failed", false)
  else if bool_decide (code = "executor_panicked") then Some ("executor panicked", false)
  else None.

Definition project_failure (payload : Value) : result StoreError RunFailure :=
  match get_str payload "code" with
  | None => Err (CorruptData "run failure code is missing")
  | Some code =>
      match failure_code_table code with
      | None => Err (CorruptData "run failure code is invalid")
      | Some (message, retryable) =>
          fail? negb (bool_decide (get_str payload "message" = Some message))
          with CorruptData "run failure message is invalid" in
          Ok (mkRunFailure code message retryable)
      end
  end.

Definition project_kind (event : RunEvent) (current_state : option RunState)
    : result StoreError RunLifecycleEvent :=
  let kind := ev_kind event in
  if bool_decide (kind = "run_queued") then Ok EvQueued
  else if bool_decide (kind = "run_starting") then Ok EvStarting
  else if bool_decide (kind = "run_started") then Ok EvRunning
  else if bool_decide (kind = "run_cancel_requested") then Ok EvCancelRequested
  else if bool_decide (kind = "run_succeeded") then Ok EvSucceeded
  else if bool_decide (kind = "run_failed")
  then let? failure := project_failure (ev_payload event) in Ok (EvFailed failure)
  else if bool_decide (kind = "run_cancelled")
  then match get_str (ev_payload event) "reason" with
       | None => Ok (EvCancelled Requested)
       | Some reason =>
           if bool_decide (reason = "requested") then Ok (EvCancelled Requested)
           else if bool_decide (reason = "manager_shutdown") then Ok (EvCancelled CancelManagerShutdown)
           else Err (CorruptData "run cancellation reason is invalid")
       end
  else if bool_decide (kind = "run_manager_stopped")
  then match current_state with
       | Some Cancelled => Ok (EvCancelled CancelManagerShutdown)
       | Some Interrupted => Ok (EvInterrupted InterruptManagerShutdown)
       | _ => Err (CorruptData "manager shutdown event does not match the run state")
       end
  else if bool_decide (kind = "run_recovered_interrupted")
  then if negb (bool_decide (get_str (ev_payload event) "reason" = Some "daemon_restart"))
       then Err (CorruptData "run interruption reason is invalid")
       else Ok (EvInterrupted DaemonRestart)
  else Err (CorruptData "run event kind cannot cross the application boundary").

Definition project_run_event (event : RunEvent) (current_state : option RunState)
    : result StoreError RunEventRecord :=
  let? projected := project_kind event current_state in
  fail? match current_state with
        | Some state => negb (bool_decide (lifecycle_state projected = state))
        | None => false
        end
  with CorruptData "latest run event does not match the run state" in
  let record := mkRunEventRecord (ev_run_id event) (ev_sequence event) (ev_created_at event) projected in
  let? _ := map_err (fun _ => CorruptData "run event projection is invalid")
              (RunEventRecord_validate record) in
  Ok record.

(** [next_event_sequence.checked_sub(1).filter(|n| *n > 0)] *)
Definition watermark_of (run : RunRecord) : result StoreError Z :=
  match u64_checked_sub (run_next_event_sequence run) 1 with
  | Some n => if 0 <? n then Ok n else Err (CorruptData "run event watermark is missing")
  | None => Err (CorruptData "run event watermark is missing")
  end.

Definition project_run_snapshot (run : RunRecord) (db : RunDb) : result StoreError RunSnapshot :=
  let? event_count := watermark_of run in
  let? _ := validate_event_snapshot (run_id run) event_count db in
  let? sequence := sql_sequence event_count in
  let? row := ok_or (run_events db !! (run_id run, sequence)) (Database QueryReturnedNoRows) in
  let? latest := row_to_event (run_id run) sequence row in
  let? latest := project_run_event latest (Some (run_status run)) in
  let failure := match er_event latest with EvFailed failure => Some failure | _ => None end in
  let snapshot := mkRunSnapshot (run_id run) (run_conversation_id run) (run_idempotency_key run)
                    (run_status run) (run_created_at run) (run_updated_at run) failure event_count in
  let? _ := map_err (fun _ => CorruptData "run snapshot projection is invalid")
              (RunSnapshot_validate snapshot) in
  Ok snapshot.

Definition run_snapshot (id : RunId) : Tx RunDb StoreError (option RunSnapshot) :=
  tread (fun db =>
           let? run := run_by_id id db in
           match run with
           | None => Ok None
           | Some run => let? s := project_run_snapshot run db in Ok (Some s)
           end).

Definition run_events_page (id : RunId) (after_sequence : Z) (through_sequence : option Z)
    (limit : Z) : Tx RunDb StoreError RunEventPage :=
  tread (fun db =>
    fail? negb ((1 <=? limit) && (limit <=? MAX_RUN_EVENT_PAGE))
    with InvalidInput "run event page limit must be within 1..=16" in
    fail? (0 <? after_sequence) && bool_decide (through_sequence = None)
    with InvalidInput "run event continuation requires a watermark" in
    let? run := require_run id db in
    let? current_watermark := watermark_of run in
    let? _ := validate_event_snapshot id current_watermark db in
    let fixed_watermark := default current_watermark through_sequence in
    fail? (fixed_watermark =? 0) || (current_watermark <? fixed_watermark)
    with InvalidInput "run event watermark is missing or in the future" in
    fail? fixed_watermark <? after_sequence
    with InvalidInput "run event cursor is missing or beyond the watermark" in
    let? after_sql := sql_sequence after_sequence in
    let? watermark_sql := sql_sequence fixed_watermark in
    let selected :=
      take (Z.to_nat limit)
        (filter (fun p : Z * EventRow => after_sql < p.1 /\ p.1 <= watermark_sql) (events_of id db)) in
    let? raw_events := map_result (fun p => row_to_event id p.1 p.2) selected in
    let? events :=
      map_result (fun event =>
                    project_run_event event
                      (if ev_sequence event =? current_watermark
                       then Some (run_status run) else None)) raw_events in
    let next_after_sequence :=
      match last events with Some event => er_sequence event | None => after_sequence end in
    let has_more := next_after_sequence <? fixed_watermark in
    let page := mkRunEventPage id events after_sequence next_after_sequence fixed_watermark has_more in
    let? _ := map_err (fun _ => CorruptData "run event page projection is invalid")
                (RunEventPage_validate page) in
    Ok page).

(** ** Audit ledger *)

(** [AUTOINCREMENT] never reuses an identifier; rows are never deleted. *)
Definition next_audit_id (db : RunDb) : Z := foldr Z.max 0 (map au_id (audit_events db)) + 1.

Definition record_audit (event : NewAuditEvent) (t : Tick) : Tx RunDb StoreError AuditEvent :=
  tlift (validate_audit_label (na_action event) "audit action is empty or exceeds 64 bytes") ;;
  tlift (validate_audit_label (na_outcome event) "audit outcome is empty or exceeds 64 bytes") ;;
  (fun db =>
     if match na_run_id event with
        | Some id => bool_decide (runs db !! id = None)
        | None => false
        end
     then (Err (RunNotFound (default EmptyString (na_run_id event))), db)
     else
       let id := next_audit_id db in
       (Ok (mkAuditEvent id (na_run_id event) (na_action event) (na_outcome event)
              (na_metadata event) (now t)),
        set_audit_events
          (audit_events db ++ [mkAuditRow id (na_run_id event) (na_action event) (na_outcome event)
                                 (json_to_string (na_metadata event)) (now t)]) db)).

Definition row_to_audit (row : AuditRow) : result StoreError AuditEvent :=
  let? run := match au_run_id row with
              | None => Ok None
              | Some v => let? r := to_sql_error (parse_run_id v) in Ok (Some r)
              end in
  let? metadata := ok_or (json_from_str (au_metadata_json row)) (Database (FromSqlConversionFailure 4)) in
  Ok (mkAuditEvent (au_id row) run (au_action row) (au_outcome row) metadata (au_created_at row)).

(** Rows are kept in insertion order, which is the order of their identifiers. *)
Definition audit_events_for_run (run : option RunId) : Tx RunDb StoreError (list AuditEvent) :=
  tread (fun db => map_result row_to_audit
                     (filter (fun row => au_run_id row = run) (audit_events db))).

(** ** Recovery *)
Definition is_interruptible (status : string) : bool :=
  bool_decide (status = "starting") || bool_decide (status = "running")
  || bool_decide (status = "cancel_requested").

Definition created_le (a b : string * RunRow) : Prop :=
  c_created_at a.2 ≠ c_created_at b.2 /\ String.le (c_created_at a.2) (c_created_at b.2)
  \/ c_created_at a.2 = c_created_at b.2 /\ String.le a.1 b.1.
#[local] Instance created_le_dec : RelDecision created_le.
Proof. intros a b. unfold created_le. apply _. Defined.

(** [SELECT id FROM runs WHERE status IN (..) ORDER BY created_at, id] *)
Definition interrupted_ids (db : RunDb) : list string :=
  map fst (merge_sort created_le
             (filter (fun p : string * RunRow => is_interruptible (c_status p.2) = true)
                (map_to_list (runs db)))).

Definition recovery_event : NewRunEvent :=
  mkNewRunEvent "run_recovered_interrupted" (VObject [("reason", VString "daemon_restart")]).

Fixpoint recover_each (t : Tick) (ids : list string) : Tx RunDb StoreError unit :=
  match ids with
  | [] => tret tt
  | raw_id :: rest =>
      id <- tlift (parse_run_id raw_id) ;
      found <- tread (run_by_id id) ;
      run <- tlift (ok_or found (CorruptData "recovery selected a missing run")) ;
      update_and_append run Interrupted recovery_event (now t) (now_ms t) ;;
      recover_each t rest
  end.

Definition recover_interrupted_on (t : Tick) : Tx RunDb StoreError Z :=
  transaction
    (ids <- tread (fun db => Ok (interrupted_ids db)) ;
     recover_each t ids ;;
     tret (Z.of_nat (length ids))).
End Store.
