(* ===== verification/TurnContract.v ===== *)
(** * Conversation contracts (src/src/app_core/v4.rs, v4/conversation.rs, v4_content.rs)

    The wire records of conversations, turns, messages and content, with their
    validators.  The serializer is a parameter: the validators only use the
    length of a page's encoding. *)
From stdpp Require Import base list strings.
From Stdlib Require Import ZArith Lia.
From S2P Require Import Prelude RustStr External RunContract StoreBase AssistantContent.
Import RunStateOps.

Open Scope Z_scope.
Open Scope rust_scope.

Definition MAX_V4_INPUT_BYTES : Z := 32 * 1024.
Definition MAX_V4_PAGE : Z := 50.
Definition MAX_V4_PAGE_BYTES : Z := 512 * 1024.
Definition MAX_V4_CONTENT_BYTES : Z := 4 * 1024 * 1024.
Definition MAX_V4_QUERY_BYTES : Z := 256.

(** [b.is_ascii_alphanumeric() || b"._:-".contains(&b)] *)
Definition is_route_byte (b : Z) : bool :=
  is_ascii_alphanumeric b || (b =? 46) || (b =? 95) || (b =? 58) || (b =? 45).

Definition route (value : string) : result ValidationError unit :=
  ensure (negb (is_empty value) && (slen value <=? 128) && forallb is_route_byte (bytes value)).

Definition limit (value : Z) : result ValidationError unit :=
  ensure ((1 <=? value) && (value <=? MAX_V4_PAGE)).

(** ** Conversations *)
Record V4Conversation := mkV4Conversation {
  vc_conversation_id : ConversationId;
  vc_id : string;
  vc_title : string;
  vc_created_at_ms : Z;
  vc_updated_at_ms : Z;
  vc_archived : bool;
  vc_pinned : bool;
  vc_sequence : Z;
  vc_message_count : Z;
}.

Definition V4Conversation_validate (c : V4Conversation) : result ValidationError unit :=
  let? _ := label (vc_title c) in
  let? _ := timestamp (vc_updated_at_ms c) in
  let? _ := timestamp (vc_sequence c) in
  let? _ := timestamp (vc_message_count c) in
  ensure ((0 <? vc_sequence c) && (vc_created_at_ms c <=? vc_updated_at_ms c)).

Record V4ConversationPatch := mkV4ConversationPatch {
  vp_title : option string;
  vp_archived : option bool;
  vp_pinned : option bool;
}.

Definition V4ConversationPatch_validate (p : V4ConversationPatch) : result ValidationError unit :=
  let? _ := match vp_title p with Some t => label t | None => Ok tt end in
  ensure (bool_decide (is_Some (vp_title p)) || bool_decide (is_Some (vp_archived p))
          || bool_decide (is_Some (vp_pinned p))).

Record V4ConversationQuery := mkV4ConversationQuery {
  vq_search : option string;
  vq_after : option ConversationId;
  vq_limit : Z;
  vq_archived : bool;
}.

Definition V4ConversationQuery_validate (q : V4ConversationQuery) : result ValidationError unit :=
  let? _ := limit (vq_limit q) in
  match vq_search q with Some s => text s MAX_V4_QUERY_BYTES | None => Ok tt end.

(** ** Turns *)
Record V4SubmitTurn := mkV4SubmitTurn {
  st_conversation_id : ConversationId;
  st_idempotency_key : IdempotencyKey;
  st_route_id : string;
  st_input : string;
}.

Definition V4SubmitTurn_validate (s : V4SubmitTurn) : result ValidationError unit :=
  let? _ := route (st_route_id s) in
  text (st_input s) MAX_V4_INPUT_BYTES.

Record V4TurnSubmission := mkV4TurnSubmission {
  ts_conversation_id : ConversationId;
  ts_run_id : RunId;
  ts_idempotency_key : IdempotencyKey;
  ts_user_message_sequence : Z;
  ts_state : RunState;
  ts_duplicate : bool;
}.

Definition V4TurnSubmission_validate (s : V4TurnSubmission) : result ValidationError unit :=
  ensure ((0 <? ts_user_message_sequence s) && (ts_user_message_sequence s <=? MAX_SAFE_INTEGER)).

Definition V4TurnSubmission_validate_for (s : V4TurnSubmission) (request : V4SubmitTurn)
    : result ValidationError unit :=
  let? _ := V4TurnSubmission_validate s in
  let? _ := V4SubmitTurn_validate request in
  ensure (bool_decide (ts_conversation_id s = st_conversation_id request)
          && bool_decide (ts_idempotency_key s = st_idempotency_key request)).

(** ** Messages *)
Inductive V4MessageRole := User | Assistant.
#[export] Instance V4MessageRole_eq_dec : EqDecision V4MessageRole.
Proof. solve_decision. Defined.

Record V4MessageQuery := mkV4MessageQuery {
  mq_conversation_id : ConversationId;
  mq_after : option Z;
  mq_limit : Z;
}.

Definition V4MessageQuery_validate (q : V4MessageQuery) : result ValidationError unit :=
  let? _ := limit (mq_limit q) in
  match mq_after q with Some s => timestamp s | None => Ok tt end.

Record V4Message := mkV4Message {
  vm_conversation_id : ConversationId;
  vm_run_id : RunId;
  vm_sequence : Z;
  vm_role : V4MessageRole;
  vm_state : RunState;
  vm_text : string;
  vm_text_bytes : Z;
  vm_text_complete : bool;
  vm_context_truncated : bool;
  vm_created_at_ms : Z;
}.

(** The longest text shown for a role. *)
Definition text_cap (role : V4MessageRole) : Z :=
  match role with User => MAX_V4_INPUT_BYTES | Assistant => MAX_V4_DELTA_BYTES end.

Definition V4Message_validate (m : V4Message) : result ValidationError unit :=
  let? _ := timestamp (vm_created_at_ms m) in
  ensure ((0 <? vm_sequence m) && (vm_sequence m <=? MAX_SAFE_INTEGER)
          && (vm_text_bytes m <=? MAX_V4_CONTENT_BYTES)
          && (slen (vm_text m) <=? vm_text_bytes m)
          && eqb (vm_text_complete m) (slen (vm_text m) =? vm_text_bytes m)
          && (slen (vm_text m) <=? text_cap (vm_role m))
          && (negb (bool_decide (vm_role m = User))
              || (vm_text_complete m && negb (vm_context_truncated m)))
          && negb (contains_nul (vm_text m))).

(** ** Pages *)
Record V4ConversationPage := mkV4ConversationPage {
  cp_conversations : list V4Conversation;
  cp_next_after : option ConversationId;
}.

Record V4MessagePage := mkV4MessagePage {
  mp_conversation_id : ConversationId;
  mp_messages : list V4Message;
  mp_next_after : option Z;
}.

Record V4ContentQuery := mkV4ContentQuery {
  tq_conversation_id : ConversationId;
  tq_run_id : RunId;
  tq_after : Z;
  tq_limit : Z;
}.

Definition V4ContentQuery_validate (q : V4ContentQuery) : result ValidationError unit :=
  let? _ := limit (tq_limit q) in
  ensure (tq_after q <=? MAX_V4_CONTENT_EVENTS).

Record V4ContentPage := mkV4ContentPage {
  tp_conversation_id : ConversationId;
  tp_run_id : RunId;
  tp_after : Z;
  tp_events : list V4ContentEvent;
  tp_next_after : option Z;
}.

(** [serde_json::to_vec]: the bytes of a submission and the length of the other
    encodings. *)
Class V4Json := {
  submit_json : V4SubmitTurn -> list Z;
  conversation_page_len : V4ConversationPage -> Z;
  message_page_len : V4MessagePage -> Z;
  content_page_len : V4ContentPage -> Z;
}.

Definition page_bytes (encoded_len : Z) : result ValidationError unit :=
  ensure (encoded_len <=? MAX_V4_PAGE_BYTES).

Definition is_terminal_payload (p : V4ContentPayload) : bool :=
  match p with Terminal _ => true | _ => false end.

Definition V4ContentEvent_validate_after (e : V4ContentEvent) (conversation : ConversationId)
    (run : RunId) (after : Z) : result ValidationError unit :=
  let? _ := V4ContentEvent_validate e in
  ensure (bool_decide (ce_conversation_id e = conversation) && bool_decide (ce_run_id e = run)
          && (after <? ce_sequence e)).

(** The loop of [V4ContentPage::validate] with its mutable [last], [terminal] and
    [bytes]. *)
Fixpoint content_events_valid (conversation : ConversationId) (run : RunId) (events : list V4ContentEvent)
    (last : Z) (terminal : bool) (bytes : Z) : result ValidationError (Z * bool * Z) :=
  match events with
  | [] => Ok (last, terminal, bytes)
  | e :: r =>
      let? _ := ensure (negb terminal) in
      let? _ := V4ContentEvent_validate_after e conversation run last in
      content_events_valid conversation run r (ce_sequence e) (is_terminal_payload (ce_payload e))
        (match ce_payload e with TextDelta text => bytes + slen text | _ => bytes end)
  end.

Section Pages.
Context `{V4Json}.

Definition V4ConversationPage_validate (p : V4ConversationPage) : result ValidationError unit :=
  let? _ := page_bytes (conversation_page_len p) in
  let? _ := ensure (Z.of_nat (length (cp_conversations p)) <=? MAX_V4_PAGE) in
  let? _ := map_result V4Conversation_validate (cp_conversations p) in
  ensure (match cp_next_after p with
          | None => true
          | Some id => match list.last (cp_conversations p) with
                       | Some c => bool_decide (vc_conversation_id c = id)
                       | None => false
                       end
          end).

(** The loop of [V4MessagePage::validate] with its mutable [last]. *)
Fixpoint messages_valid (conversation : ConversationId) (messages : list V4Message) (last : Z)
    : result ValidationError Z :=
  match messages with
  | [] => Ok last
  | m :: r =>
      let? _ := V4Message_validate m in
      let? _ := ensure (bool_decide (vm_conversation_id m = conversation) && (last <? vm_sequence m)) in
      messages_valid conversation r (vm_sequence m)
  end.

Definition V4MessagePage_validate (p : V4MessagePage) : result ValidationError unit :=
  let? _ := page_bytes (message_page_len p) in
  let? _ := ensure (Z.of_nat (length (mp_messages p)) <=? MAX_V4_PAGE) in
  let? last := messages_valid (mp_conversation_id p) (mp_messages p) 0 in
  ensure (match mp_next_after p with
          | None => true
          | Some s => negb (bool_decide (mp_messages p = [])) && (s =? last)
          end).

Definition V4ContentPage_validate (p : V4ContentPage) : result ValidationError unit :=
  let? _ := page_bytes (content_page_len p) in
  let? _ := ensure ((tp_after p <=? MAX_V4_CONTENT_EVENTS)
                    && (Z.of_nat (length (tp_events p)) <=? MAX_V4_PAGE)) in
  let? r := content_events_valid (tp_conversation_id p) (tp_run_id p) (tp_events p) (tp_after p) false 0 in
  let '(last, terminal, bytes) := r in
  ensure ((bytes <=? MAX_V4_CONTENT_BYTES)
          && match tp_next_after p with
             | None => true
             | Some s => negb terminal && negb (bool_decide (tp_events p = [])) && (s =? last)
             end).
End Pages.

(** The numbers of a page are 64-bit. *)
Definition content_page_typed (p : V4ContentPage) : Prop :=
  is_u64 (tp_after p) /\ (forall n, tp_next_after p = Some n -> is_u64 n)
  /\ Forall (fun e => is_u64 (ce_sequence e) /\ is_u64 (ce_timestamp_ms e)) (tp_events p).

(** Bounds on the length of an encoded page: field names, punctuation and
    numbers, identifiers with every byte escaped, and the payloads. *)
Class V4JsonLaws `{V4Json, ContentCodec} := {
  content_page_size : forall p, content_page_typed p ->
    content_page_len p <= 1024 + 6 * slen (tp_conversation_id p) + 6 * slen (tp_run_id p)
      + foldr Z.add 0 (map (fun e => 512 + 6 * slen (ce_conversation_id e) + 6 * slen (ce_run_id e)
                                      + slen (content_json (ce_payload e))) (tp_events p));
}.

(** ** A concrete encoding for examples: fields one after the other, and lengths
    that count the texts and payloads. *)
Module JsonFixture.
Definition sum (l : list Z) : Z := foldr Z.add 0 l.
#[export] Instance json_fixture : V4Json := {|
  submit_json s :=
    bytes (st_input s) ++ 255 :: bytes (st_route_id s) ++ 255 :: bytes (st_idempotency_key s)
      ++ 255 :: bytes (st_conversation_id s);
  conversation_page_len p := 64 + sum (map (fun c => 512 + 6 * slen (vc_title c)) (cp_conversations p));
  message_page_len p := 64 + sum (map (fun m => 512 + 6 * slen (vm_text m)) (mp_messages p));
  content_page_len p :=
    128 + sum (map (fun e => 256 + slen (@content_json ContentFixture.content_fixture (ce_payload e))) (tp_events p));
|}.

#[export] Instance json_fixture_laws : @V4JsonLaws json_fixture ContentFixture.content_fixture.
Proof.
  constructor. intros p _. cbn [content_page_len json_fixture]. pose proof (slen_nonneg (tp_conversation_id p)).
  pose proof (slen_nonneg (tp_run_id p)). unfold sum.
  induction (tp_events p) as [|e l IH]; cbn [map foldr] in *; [lia|].
  pose proof (slen_nonneg (ce_conversation_id e)). pose proof (slen_nonneg (ce_run_id e)). lia.
Qed.
End JsonFixture.
