(* ===== verification/TurnStore.v ===== *)
(** * Assistant turn store (src/src/runtime/store/v4.rs, v4_turn.rs)

    Conversations, turns, messages and content of protocol v4 on the assistant
    tables of [RunDb].  Identifiers and clock readings are arguments; the
    [LIKE] operator of SQLite, the serializer and SHA-256 are parameters. *)
From stdpp Require Import base list gmap strings sorting.
From Stdlib Require Import ZArith Lia Ascii.
From S2P Require Import Prelude RustStr External Digest RunContract StoreBase AssistantContent RunStore TurnContract.
Import RunStateOps.

Open Scope Z_scope.
Open Scope rust_scope.

(** [title LIKE pattern ESCAPE '\'] *)
Class SqlLike := { like : string -> string -> bool }.

(** [u64::try_from(v).unwrap_or(0)] on a stored integer. *)
Definition u64_or_zero (v : Z) : Z := if v <? 0 then 0 else v.

Definition char_count (s : string) : Z := Z.of_nat (length (chars s)).

(** [stamp]: the timestamp of the legacy columns. *)
Definition stamp `{MillisFormat} (v : Z) : result StoreError string :=
  let? v' := ms v in ok_or (rfc3339_millis v') (InvalidInput "ts range").

(** [like_contains]: escape the wildcards and search anywhere. *)
Fixpoint escape_like (v : string) : string :=
  match v with
  | EmptyString => EmptyString
  | String c r =>
      if bool_decide (byte_val c = 92) || bool_decide (byte_val c = 37) || bool_decide (byte_val c = 95)
      then String "\"%char (String c (escape_like r))
      else String c (escape_like r)
  end.
Definition like_contains (v : string) : string := "%" +:+ escape_like v +:+ "%".

Definition state_from_str (s : string) : RunState :=
  match parse_run_state s with Ok st => st | Err _ => Queued end.

Definition parse_role (s : string) : V4MessageRole :=
  if bool_decide (s = "assistant") then Assistant else User.

(** ** Statements on the assistant tables *)
Definition conversation_check (row : ConversationRow) : bool :=
  (1 <=? cv_sequence row) && (1 <=? char_count (cv_title row)) && (char_count (cv_title row) <=? 256)
  && (0 <=? cv_created_at_ms row) && (cv_created_at_ms row <=? cv_updated_at_ms row).

Definition message_check (m : MessageRow) : bool :=
  (bool_decide (m_role m = "user") || bool_decide (m_role m = "assistant"))
  && (1 <=? m_sequence m) && (slen (m_body m) <=? 32768)
  && (0 <=? m_text_bytes m) && (m_text_bytes m <=? 4194304)
  && is_ok (parse_run_state (m_state m)) && (0 <=? m_created_at_ms m).

Definition turn_check (row : TurnRow) : bool :=
  (1 <=? tn_user_sequence row) && (1 <=? char_count (tn_route_id row))
  && (char_count (tn_route_id row) <=? 128) && (0 <=? tn_created_at_ms row).

(** The row that would break [UNIQUE (sequence)]. *)
Definition sequence_taken (seq : Z) (db : RunDb) : bool :=
  map_fold (fun _ row acc => (cv_sequence row =? seq) || acc) false (assistant_conversations db).
Definition message_sequence_taken (cid : string) (seq : Z) (db : RunDb) : bool :=
  map_fold (fun _ m acc => (bool_decide (m_conversation_id m = cid) && (m_sequence m =? seq)) || acc)
    false (assistant_messages db).
(** The row that would break [UNIQUE] on a message reference of the turns. *)
Definition message_referenced (mid : string) (db : RunDb) : bool :=
  map_fold (fun _ row acc => bool_decide (tn_user_message_id row = Some mid) || acc)
    false (assistant_turns db).

(** [INSERT INTO assistant_conversations] *)
Definition insert_conversation_row (id : string) (row : ConversationRow) : Tx RunDb StoreError unit :=
  fun db =>
    if negb (conversation_check row) then (Err (Database ConstraintCheck), db)
    else match assistant_conversations db !! id with
         | Some _ => (Err (Database ConstraintPrimaryKey), db)
         | None =>
             if sequence_taken (cv_sequence row) db then (Err (Database ConstraintUnique), db)
             else match conversations db !! id with
                  | None => (Err (Database ConstraintForeignKey), db)
                  | Some _ =>
                      (Ok tt, set_assistant_conversations (<[id := row]> (assistant_conversations db)) db)
                  end
         end.

(** [UPDATE assistant_conversations SET .. WHERE id=?1] *)
Definition update_conversation_row (id : string) (f : ConversationRow -> ConversationRow)
    : Tx RunDb StoreError unit := fun db =>
  match assistant_conversations db !! id with
  | None => (Ok tt, db)
  | Some row =>
      if negb (conversation_check (f row)) then (Err (Database ConstraintCheck), db)
      else (Ok tt, set_assistant_conversations (<[id := f row]> (assistant_conversations db)) db)
  end.

(** The same with [AND deleted=0]. *)
Definition update_live_conversation (id : string) (f : ConversationRow -> ConversationRow)
    : Tx RunDb StoreError unit := fun db =>
  match assistant_conversations db !! id with
  | Some row => if cv_deleted row then (Ok tt, db) else update_conversation_row id f db
  | None => (Ok tt, db)
  end.

(** [INSERT INTO assistant_messages] *)
Definition insert_message_row (id : string) (m : MessageRow) : Tx RunDb StoreError unit := fun db =>
  if negb (message_check m && (1 <=? char_count id) && (char_count id <=? 128))
  then (Err (Database ConstraintCheck), db)
  else match assistant_messages db !! id with
       | Some _ => (Err (Database ConstraintPrimaryKey), db)
       | None =>
           if message_sequence_taken (m_conversation_id m) (m_sequence m) db
           then (Err (Database ConstraintUnique), db)
           else if bool_decide (assistant_conversations db !! m_conversation_id m = None)
                   || bool_decide (runs db !! m_run_id m = None)
           then (Err (Database ConstraintForeignKey), db)
           else (Ok tt, set_messages (<[id := m]> (assistant_messages db)) db)
       end.

(** [INSERT INTO assistant_turns] *)
Definition insert_turn_row (rid : string) (row : TurnRow) : Tx RunDb StoreError unit := fun db =>
  if negb (turn_check row) then (Err (Database ConstraintCheck), db)
  else match assistant_turns db !! rid with
       | Some _ => (Err (Database ConstraintPrimaryKey), db)
       | None =>
           if match tn_user_message_id row with Some m => message_referenced m db | None => false end
           then (Err (Database ConstraintUnique), db)
           else if bool_decide (runs db !! rid = None)
                   || bool_decide (assistant_conversations db !! tn_conversation_id row = None)
                   || match tn_user_message_id row with
                      | Some m => bool_decide (assistant_messages db !! m = None)
                      | None => false
                      end
                   || bool_decide (assistant_profiles db !! tn_permission_profile_id row = None)
           then (Err (Database ConstraintForeignKey), db)
           else (Ok tt, set_turns (<[rid := row]> (assistant_turns db)) db)
       end.

(** [INSERT OR IGNORE INTO assistant_permission_profiles] *)
Definition insert_or_ignore_profile (id document : string) (updated : Z) : Tx RunDb StoreError unit :=
  fun db =>
    match assistant_profiles db !! id with
    | Some _ => (Ok tt, db)
    | None => (Ok tt, set_profiles (<[id := mkProfileRow document updated]> (assistant_profiles db)) db)
    end.

(** [DELETE FROM assistant_content_events WHERE conversation_id=?1], with the
    cascade to the payloads. *)
Definition delete_content (cid : string) : Tx RunDb StoreError unit := tmodify (fun db =>
  set_content_payloads (filter (fun p : string * Z * string => p.1.1 <> cid) (assistant_content_payloads db))
    (set_content_events (filter (fun p : string * Z * ContentRow => p.1.1 <> cid) (assistant_content_events db)) db)).

(** [DELETE FROM assistant_messages WHERE conversation_id=?1]; the references of
    the turns become NULL. *)
Definition clear_reference (db : RunDb) (cid : string) (ref : option string) : option string :=
  match ref with
  | Some m => match assistant_messages db !! m with
              | Some row => if bool_decide (m_conversation_id row = cid) then None else Some m
              | None => Some m
              end
  | None => None
  end.
Definition delete_messages (cid : string) : Tx RunDb StoreError unit := tmodify (fun db =>
  set_turns ((fun t => mkTurnRow (tn_conversation_id t) (clear_reference db cid (tn_user_message_id t))
                         (clear_reference db cid (tn_assistant_message_id t)) (tn_user_sequence t)
                         (tn_route_id t) (tn_permission_profile_id t) (tn_created_at_ms t))
               <$> assistant_turns db)
    (set_messages (filter (fun p : string * MessageRow => m_conversation_id p.2 <> cid) (assistant_messages db)) db)).

(** ** Reads *)

(** [SELECT COUNT( * ) FROM assistant_messages WHERE conversation_id=?1] *)
Definition message_count (cid : string) (db : RunDb) : Z :=
  Z.of_nat (size (filter (fun p : string * MessageRow => m_conversation_id p.2 = cid) (assistant_messages db))).

(** [SELECT COALESCE(MAX(sequence), 0)] of the conversations, and of the messages
    of one. *)
Definition last_conversation_sequence (db : RunDb) : Z :=
  map_fold (fun _ row acc => Z.max (cv_sequence row) acc) 0 (assistant_conversations db).
Definition last_message_sequence (cid : string) (db : RunDb) : Z :=
  map_fold (fun _ m acc => if bool_decide (m_conversation_id m = cid) then Z.max (m_sequence m) acc else acc)
    0 (assistant_messages db).

Definition next_message_sequence (cid : string) (db : RunDb) : Z := last_message_sequence cid db + 1.

(** [SELECT COUNT( * ) FROM runs WHERE conversation_id=?1 AND status IN ('queued',
    'starting', 'running', 'cancel_requested')] *)
Definition is_active_status (status : string) : bool :=
  bool_decide (status = "queued") || bool_decide (status = "starting")
  || bool_decide (status = "running") || bool_decide (status = "cancel_requested").
Definition active_runs (cid : string) (db : RunDb) : Z :=
  Z.of_nat (size (filter (fun p : string * RunRow =>
    c_conversation_id p.2 = Some cid /\ is_active_status (c_status p.2) = true) (runs db))).

Definition project_conversation (id : string) (row : ConversationRow) (count : Z) : V4Conversation :=
  mkV4Conversation id id (cv_title row) (u64_or_zero (cv_created_at_ms row))
    (u64_or_zero (cv_updated_at_ms row)) (cv_archived row) (cv_pinned row)
    (u64_or_zero (cv_sequence row)) (u64_or_zero count).

Definition conversation_row (id : ConversationId) (db : RunDb) : result StoreError (option V4Conversation) :=
  match assistant_conversations db !! id with
  | Some row =>
      if cv_deleted row then Ok None
      else let c := project_conversation id row (message_count id db) in
           let? _ := map_err (fun _ => CorruptData "stored conv invalid") (V4Conversation_validate c) in
           Ok (Some c)
  | None => Ok None
  end.

Definition required_conversation (id : ConversationId) (db : RunDb) : result StoreError V4Conversation :=
  let? found := conversation_row id db in ok_or found AssistantNotFound.

Definition touch_conversation (id : ConversationId) (db : RunDb) : result StoreError unit :=
  let? found := conversation_row id db in
  match found with None => Err AssistantNotFound | Some _ => Ok tt end.

(** ** Conversations *)
Section Store.
Context `{External} `{ContentCodec} `{MillisFormat} `{Digest} `{V4Json} `{SqlLike}.

Definition insert_conversation (id : ConversationId) (title : string) (imported : bool) (now_ms : Z)
    (require : bool) : Tx RunDb StoreError V4Conversation :=
  transaction
    (stamp' <- tlift (stamp now_ms) ;
     (if require
      then tread (fun db => match conversations db !! id with
                            | None => Err (ConversationNotFound id)
                            | Some _ => Ok tt
                            end)
      else create_conversation id (mkTick stamp' now_ms)) ;;
     tread (fun db => match assistant_conversations db !! id with
                      | Some _ => Err AssistantConflict
                      | None => Ok tt
                      end) ;;
     last <- tread (fun db => Ok (last_conversation_sequence db)) ;
     seq <- tlift (sql_sequence (last + 1)) ;
     created <- tlift (ms now_ms) ;
     insert_conversation_row id (mkConversationRow seq title false false imported false created created) ;;
     tread (required_conversation id)).

(** [fresh] is the identifier [ConversationId::new] returned. *)
Definition v4_create_conversation (title : string) (fresh : ConversationId) (now_ms : Z)
    : Tx RunDb StoreError V4Conversation :=
  insert_conversation fresh title true now_ms false.

Definition v4_note_legacy_shell (id : ConversationId) (title : string) (now_ms : Z)
    : Tx RunDb StoreError V4Conversation :=
  insert_conversation id title false now_ms true.

Definition v4_conversation (id : ConversationId) : Tx RunDb StoreError V4Conversation :=
  tread (required_conversation id).

Definition set_title (t : string) (now_ms : Z) (r : ConversationRow) : ConversationRow :=
  mkConversationRow (cv_sequence r) t (cv_archived r) (cv_pinned r) (cv_imported_history r)
    (cv_deleted r) (cv_created_at_ms r) now_ms.
Definition set_archived (a : bool) (now_ms : Z) (r : ConversationRow) : ConversationRow :=
  mkConversationRow (cv_sequence r) (cv_title r) a (cv_pinned r) (cv_imported_history r)
    (cv_deleted r) (cv_created_at_ms r) now_ms.
Definition set_pinned (p : bool) (now_ms : Z) (r : ConversationRow) : ConversationRow :=
  mkConversationRow (cv_sequence r) (cv_title r) (cv_archived r) p (cv_imported_history r)
    (cv_deleted r) (cv_created_at_ms r) now_ms.
Definition set_deleted (now_ms : Z) (r : ConversationRow) : ConversationRow :=
  mkConversationRow (cv_sequence r) (cv_title r) (cv_archived r) (cv_pinned r) (cv_imported_history r)
    true (cv_created_at_ms r) now_ms.
Definition set_updated (now_ms : Z) (r : ConversationRow) : ConversationRow :=
  mkConversationRow (cv_sequence r) (cv_title r) (cv_archived r) (cv_pinned r) (cv_imported_history r)
    (cv_deleted r) (cv_created_at_ms r) now_ms.

(** One optional field of a patch: its UPDATE statement. *)
Definition patch_field {A} (id : ConversationId) (now_ms : Z) (field : option A)
    (f : A -> Z -> ConversationRow -> ConversationRow) : Tx RunDb StoreError unit :=
  match field with
  | None => tret tt
  | Some a => n <- tlift (ms now_ms) ; update_live_conversation id (f a n)
  end.

Definition v4_patch_conversation (id : ConversationId) (patch : V4ConversationPatch) (now_ms : Z)
    : Tx RunDb StoreError V4Conversation :=
  transaction
    (tread (touch_conversation id) ;;
     patch_field id now_ms (vp_title patch) set_title ;;
     patch_field id now_ms (vp_archived patch) set_archived ;;
     patch_field id now_ms (vp_pinned patch) set_pinned ;;
     tread (required_conversation id)).

Definition v4_rename_conversation (id : ConversationId) (title : string) (now_ms : Z) :=
  v4_patch_conversation id (mkV4ConversationPatch (Some title) None None) now_ms.
Definition v4_archive_conversation (id : ConversationId) (now_ms : Z) :=
  v4_patch_conversation id (mkV4ConversationPatch None (Some true) None) now_ms.
Definition v4_set_pinned (id : ConversationId) (pinned : bool) (now_ms : Z) :=
  v4_patch_conversation id (mkV4ConversationPatch None None (Some pinned)) now_ms.

Definition v4_delete_conversation (id : ConversationId) (now_ms : Z) : Tx RunDb StoreError unit :=
  transaction
    (tread (touch_conversation id) ;;
     tread (fun db => if 0 <? active_runs id db then Err AssistantConflict else Ok tt) ;;
     delete_content id ;;
     delete_messages id ;;
     n <- tlift (ms now_ms) ;
     update_conversation_row id (set_deleted n)).

(** ** Lists of conversations *)
Definition u16_saturating_add (a b : Z) : Z := Z.min u16_max (a + b).

(** The conditions of the WHERE clause other than the cursor. *)
Definition listed (q : V4ConversationQuery) (row : ConversationRow) : bool :=
  negb (cv_deleted row)
  && match vq_search q with Some s => like (like_contains s) (cv_title row) | None => true end
  && Bool.eqb (cv_archived row) (vq_archived q).

Definition conversation_le (a b : string * ConversationRow) : Prop := cv_sequence a.2 <= cv_sequence b.2.
#[local] Instance conversation_le_dec : RelDecision conversation_le.
Proof. intros a b. unfold conversation_le. apply _. Defined.

(** [SELECT id .. WHERE .. AND sequence > ?1 ORDER BY sequence] *)
Definition listed_after (q : V4ConversationQuery) (after : Z) (db : RunDb) : list (string * ConversationRow) :=
  merge_sort conversation_le
    (filter (fun p : string * ConversationRow => listed q p.2 = true /\ after < cv_sequence p.2)
       (map_to_list (assistant_conversations db))).

Definition list_cursor (q : V4ConversationQuery) (db : RunDb) : result StoreError Z :=
  match vq_after q with
  | None => Ok 0
  | Some after =>
      match assistant_conversations db !! after with
      | Some row => if listed q row then Ok (cv_sequence row)
                    else Err (InvalidInput "conversation cursor invalid")
      | None => Err (InvalidInput "conversation cursor invalid")
      end
  end.

Definition list_conversations (q : V4ConversationQuery) (db : RunDb) : result StoreError V4ConversationPage :=
  let? after_seq := list_cursor q db in
  let fetch := u16_saturating_add (vq_limit q) 1 in
  let? convs := map_result (fun p : string * ConversationRow =>
                              let? cid := map_err (fun _ => CorruptData "bad conv id") (id_from_str p.1) in
                              required_conversation cid db)
                  (take (Z.to_nat fetch) (listed_after q after_seq db)) in
  let limit := Z.to_nat (vq_limit q) in
  let has_more := (limit <? length convs)%nat in
  let convs := take limit convs in
  let page := mkV4ConversationPage convs
                (if has_more then vc_conversation_id <$> list.last convs else None) in
  let? _ := map_err (fun _ => CorruptData "v4 conv page invalid") (V4ConversationPage_validate page) in
  Ok page.

Definition v4_list_conversations (q : V4ConversationQuery) : Tx RunDb StoreError V4ConversationPage :=
  tlift (map_err (fun _ => InvalidInput "conversation query invalid") (V4ConversationQuery_validate q)) ;;
  tread (list_conversations q).
Definition v4_search_conversations (q : V4ConversationQuery) := v4_list_conversations q.

(** ** Messages *)
Definition message_le (a b : MessageRow) : Prop := m_sequence a <= m_sequence b.
#[local] Instance message_le_dec : RelDecision message_le.
Proof. intros a b. unfold message_le. apply _. Defined.

(** [SELECT .. FROM assistant_messages WHERE conversation_id=?1 AND sequence > ?2
    ORDER BY sequence] *)
Definition messages_after (cid : string) (after : Z) (db : RunDb) : list MessageRow :=
  merge_sort message_le
    (filter (fun m => m_conversation_id m = cid /\ after < m_sequence m)
       (map snd (map_to_list (assistant_messages db)))).

(** The EXISTS column: the exact run of an assistant message recorded that its
    context was truncated. *)
Definition context_truncated (m : MessageRow) (db : RunDb) : bool :=
  bool_decide (m_role m = "assistant")
  && map_fold (fun (k : string * Z) row acc =>
       (bool_decide (k.1 = m_conversation_id m) && bool_decide (ct_run_id row = m_run_id m)
        && bool_decide (ct_request_id row = m_run_id m) && bool_decide (ct_kind row = "output_bounded")
        && bool_decide (assistant_content_payloads db !! k = Some (content_json (Notice Truncated)))
        && (ct_byte_count row =? slen (content_json (Notice Truncated)))) || acc)
       false (assistant_content_events db).

Definition project_message (cid : ConversationId) (run : string) (role : V4MessageRole) (sequence : Z)
    (text : string) (stored_bytes : Z) (state : RunState) (context_truncated : bool) (created_at_ms : Z)
    : result StoreError V4Message :=
  let cap := text_cap role in
  let text := if cap <? slen text
              then str_take (floor_char_boundary text (Z.to_nat cap)) text else text in
  let shown := slen text in
  let '(text_bytes, text_complete) :=
    match role with
    | User => (shown, true)
    | Assistant => let b := Z.max stored_bytes shown in (b, shown =? b)
    end in
  let? run_id := map_err (fun _ => CorruptData "stored msg invalid") (id_from_str run) in
  let message := mkV4Message cid run_id sequence role state text text_bytes text_complete
                   context_truncated created_at_ms in
  let? _ := map_err (fun _ => CorruptData "stored msg invalid") (V4Message_validate message) in
  Ok message.

Definition message_page (cid : ConversationId) (after : option Z) (limit : Z) (db : RunDb)
    : result StoreError (list V4Message) :=
  let? after := sql_sequence (default 0 after) in
  map_result (fun m =>
      project_message cid (m_run_id m) (parse_role (m_role m)) (u64_or_zero (m_sequence m)) (m_body m)
        (u64_or_zero (m_text_bytes m)) (state_from_str (m_state m)) (context_truncated m db)
        (u64_or_zero (m_created_at_ms m)))
    (take (Z.to_nat limit) (messages_after cid after db)).

(** [while page.messages.len() > 1 && encoded length > MAX_V4_PAGE_BYTES { pop }];
    [n] is the number of messages left. *)
Fixpoint fit_loop (n : nat) (cid : ConversationId) (next_after : option Z) (messages : list V4Message)
    (has_more : bool) : list V4Message * bool :=
  match n with
  | S (S _ as n') =>
      if MAX_V4_PAGE_BYTES <? message_page_len (mkV4MessagePage cid messages next_after)
      then fit_loop n' cid next_after (removelast messages) true
      else (messages, has_more)
  | _ => (messages, has_more)
  end.

Definition fit_message_page (page : V4MessagePage) : V4MessagePage :=
  let '(messages, has_more) :=
    fit_loop (length (mp_messages page)) (mp_conversation_id page) (mp_next_after page)
      (mp_messages page) (bool_decide (is_Some (mp_next_after page))) in
  mkV4MessagePage (mp_conversation_id page) messages
    (if has_more then vm_sequence <$> list.last messages else None).

Definition v4_messages (q : V4MessageQuery) : Tx RunDb StoreError V4MessagePage :=
  tlift (map_err (fun _ => InvalidInput "message query invalid") (V4MessageQuery_validate q)) ;;
  tread (fun db =>
    let cid := mq_conversation_id q in
    let? found := conversation_row cid db in
    match found with
    | None => Err AssistantNotFound
    | Some _ =>
        let? messages := message_page cid (mq_after q) (u16_saturating_add (mq_limit q) 1) db in
        let limit := Z.to_nat (mq_limit q) in
        let has_more := (limit <? length messages)%nat in
        let messages := take limit messages in
        let page := fit_message_page
                      (mkV4MessagePage cid messages
                         (if has_more then vm_sequence <$> list.last messages else None)) in
        let? _ := map_err (fun _ => CorruptData "v4 message page invalid") (V4MessagePage_validate page) in
        Ok page
    end).

(** ** Turns *)
Definition run_bound_to (conversation : ConversationId) (run : RunId) (db : RunDb) : bool :=
  match assistant_turns db !! run with
  | Some row => bool_decide (tn_conversation_id row = conversation)
  | None => false
  end.

(** [SELECT user_sequence FROM assistant_turns WHERE run_id=?1] *)
Definition user_sequence (run : RunId) (db : RunDb) : result StoreError Z :=
  ok_or (tn_user_sequence <$> assistant_turns db !! run) (Database QueryReturnedNoRows).

Definition submission_for (run : RunId) (db : RunDb) : result StoreError V4TurnSubmission :=
  let? found := run_by_id run db in
  let? record := ok_or found AssistantNotFound in
  let? seq := user_sequence (run_id record) db in
  let? conversation := ok_or (run_conversation_id record) (CorruptData "v4 run missing conversation") in
  fail? seq <? 0 with CorruptData "seq" in
  let submission := mkV4TurnSubmission conversation (run_id record) (run_idempotency_key record) seq
                      (run_status record) false in
  let? _ := map_err (fun _ => CorruptData "turn sub invalid") (V4TurnSubmission_validate submission) in
  Ok submission.

Definition v4_lookup_turn (conversation : ConversationId) (key : IdempotencyKey)
    : Tx RunDb StoreError (option V4TurnSubmission) :=
  tread (fun db =>
    let? found := conversation_row conversation db in
    match found with
    | None => Err AssistantNotFound
    | Some _ =>
        let? run := run_by_idempotency_key key db in
        match run with
        | None => Ok None
        | Some run =>
            fail? negb (bool_decide (run_conversation_id run = Some conversation))
            with AssistantNotFound in
            fail? negb (run_bound_to conversation (run_id run) db) with AssistantNotFound in
            let? submission := submission_for (run_id run) db in
            Ok (Some submission)
        end
    end).

Definition v4_require_turn (conversation : ConversationId) (run : RunId) : Tx RunDb StoreError unit :=
  tread (fun db => if run_bound_to conversation run db then Ok tt else Err AssistantNotFound).

(** ["abbey:v4-turn-submit:v1\0"] *)
Definition submit_domain : list Z := bytes "abbey:v4-turn-submit:v1" ++ [0].
Definition submit_digest (s : V4SubmitTurn) : string :=
  hexadecimal (sha256 (submit_domain ++ submit_json s)).

Definition duplicate_submission (existing : RunRecord) (submit : V4SubmitTurn) (db : RunDb)
    : result StoreError V4TurnSubmission :=
  fail? negb (bool_decide (run_request_digest existing = submit_digest submit))
        || negb (bool_decide (run_conversation_id existing = Some (st_conversation_id submit)))
  with IdempotencyConflict in
  let? seq := user_sequence (run_id existing) db in
  let submission := mkV4TurnSubmission (st_conversation_id submit) (run_id existing)
                      (st_idempotency_key submit) (u64_or_zero seq) (run_status existing) true in
  let? _ := map_err (fun _ => CorruptData "turn sub invalid") (V4TurnSubmission_validate submission) in
  Ok submission.

(** The rows [v4_admit_turn] inserts for a new turn; [run] and [msg] are the
    identifiers [RunId::new] and [Uuid::new_v4] returned. *)
Definition insert_turn (submit : V4SubmitTurn) (run : RunId) (msg : string) (now_ms : Z)
    : Tx RunDb StoreError V4TurnSubmission :=
  let conv := st_conversation_id submit in
  stamp' <- tlift (stamp now_ms) ;
  insert_run_row run (mkRunRow (Some conv) (st_idempotency_key submit) (submit_digest submit) "queued" 2
                        stamp' stamp') ;;
  insert_event_row run 1 (mkEventRow "run_queued" "{}" stamp') ;;
  seq <- tread (fun db => Ok (next_message_sequence conv db)) ;
  sql_seq <- tlift (sql_sequence seq) ;
  created <- tlift (ms now_ms) ;
  insert_message_row msg (mkMessageRow conv run "user" sql_seq (st_input submit) (slen (st_input submit))
                            true "queued" created) ;;
  insert_or_ignore_profile "desk.default" "{}" created ;;
  insert_turn_row run (mkTurnRow conv (Some msg) None sql_seq (st_route_id submit) "desk.default" created) ;;
  update_conversation_row conv (set_updated created) ;;
  let sub := mkV4TurnSubmission conv run (st_idempotency_key submit) seq Queued false in
  tlift (map_err (fun _ => CorruptData "turn sub invalid") (V4TurnSubmission_validate sub)) ;;
  tret sub.

Definition v4_admit_turn (submit : V4SubmitTurn) (run : RunId) (msg : string) (now_ms : Z)
    : Tx RunDb StoreError V4TurnSubmission :=
  let conv := st_conversation_id submit in
  tlift (map_err (fun _ => InvalidInput "turn submit invalid") (V4SubmitTurn_validate submit)) ;;
  transaction
    (found <- tread (run_by_idempotency_key (st_idempotency_key submit)) ;
     match found with
     | Some existing => tread (duplicate_submission existing submit)
     | None =>
         c <- tread (conversation_row conv) ;
         match c with
         | None => traise AssistantNotFound
         | Some _ =>
             tread (fun db => if 0 <? active_runs conv db then Err AssistantConflict else Ok tt) ;;
             tread (fun db => if MAX_SEQUENCE - 2 <? last_content_sequence conv db
                              then Err AssistantConflict else Ok tt) ;;
             insert_turn submit run msg now_ms
         end
     end).

(** ** Content *)
Definition is_preview_of (rid : string) (m : MessageRow) : bool :=
  bool_decide (m_run_id m = rid) && bool_decide (m_role m = "assistant").

(** The assistant message of a run ([query_row .. optional()]). *)
Definition assistant_message (rid : string) (db : RunDb) : option MessageRow :=
  head (filter (fun m => is_preview_of rid m = true) (map snd (map_to_list (assistant_messages db)))).

(** [UPDATE assistant_messages SET body=?2, text_bytes=?3, text_complete=0,
    state='running' WHERE run_id=?1 AND role='assistant'] *)
Definition write_preview (body : string) (total : Z) (m : MessageRow) : MessageRow :=
  mkMessageRow (m_conversation_id m) (m_run_id m) (m_role m) (m_sequence m) body total false "running"
    (m_created_at_ms m).
Definition update_preview (rid body : string) (total : Z) : Tx RunDb StoreError unit := fun db =>
  if existsb (fun m => is_preview_of rid m && negb (message_check (write_preview body total m)))
       (map snd (map_to_list (assistant_messages db)))
  then (Err (Database ConstraintCheck), db)
  else (Ok tt, set_messages
                 ((fun m => if is_preview_of rid m then write_preview body total m else m)
                    <$> assistant_messages db) db).

(** [16 * 1024 - combined.len()] on [usize]. *)
Definition usize_wrapping_sub (a b : Z) : Z := (a - b) mod 18446744073709551616.

(** What the preview becomes: the body is extended only while it is complete,
    and cut at a character boundary. *)
Definition extend_preview (existing : option MessageRow) (delta : string) : string :=
  let body := match existing with Some m => m_body m | None => EmptyString end in
  if match existing with Some m => slen (m_body m) =? m_text_bytes m | None => true end
  then body +:+ str_take (floor_char_boundary delta
                            (Z.to_nat (Z.min (slen delta) (usize_wrapping_sub (16 * 1024) (slen body))))) delta
  else body.

(** [msg] is the identifier [Uuid::new_v4] returned. *)
Definition update_assistant_preview (rid : RunId) (delta : string) (msg : string) (now : Z)
    : Tx RunDb StoreError unit :=
  existing <- tread (fun db => Ok (assistant_message rid db)) ;
  total <- tlift (let b := match existing with Some m => m_text_bytes m | None => 0 end + slen delta in
                  if (0 <=? b) && (b <=? MAX_V4_CONTENT_BYTES) then Ok b else Err AssistantConflict) ;
  let combined := extend_preview existing delta in
  match existing with
  | Some _ => update_preview rid combined total
  | None =>
      cid <- tread (turn_conversation rid) ;
      tlift (map_err (fun _ => CorruptData "bad cid") (id_from_str cid)) ;;
      seq <- tread (fun db => Ok (next_message_sequence cid db)) ;
      sql_seq <- tlift (sql_sequence seq) ;
      created <- tlift (ms now) ;
      insert_message_row msg (mkMessageRow cid rid "assistant" sql_seq combined total false "running" created)
  end.

Definition v4_append_content (rid : RunId) (payload : V4ContentPayload) (msg : string) (now_ms : Z)
    : Tx RunDb StoreError V4ContentEvent :=
  transaction
    (found <- tread (run_by_id rid) ;
     run <- tlift (ok_or found AssistantNotFound) ;
     if is_terminal (run_status run)
     then traise (TerminalRun (run_id run))
     else
       conv <- tread (turn_conversation rid) ;
       cid <- tlift (map_err (fun _ => CorruptData "bad cid") (id_from_str conv)) ;
       event <- insert_content_event cid rid payload now_ms ;
       match ce_payload event with
       | TextDelta text => if is_empty text then tret tt else update_assistant_preview rid text msg now_ms
       | _ => tret tt
       end ;;
       tret event).

Definition content_le (a b : Z * ContentRow) : Prop := a.1 <= b.1.
#[local] Instance content_le_dec : RelDecision content_le.
Proof. intros a b. unfold content_le. apply _. Defined.

(** [SELECT .. WHERE conversation_id=?1 AND run_id=?2 AND sequence > ?3 ORDER BY
    sequence] *)
Definition content_of (cid rid : string) (p : string * Z * ContentRow) : option (Z * ContentRow) :=
  if bool_decide (p.1.1 = cid) && bool_decide (ct_run_id p.2 = rid) then Some (p.1.2, p.2) else None.
Definition content_after (cid rid : string) (after : Z) (db : RunDb) : list (Z * ContentRow) :=
  merge_sort content_le
    (filter (fun p : Z * ContentRow => after < p.1)
       (omap (content_of cid rid) (map_to_list (assistant_content_events db)))).

(** One row of the LEFT JOIN: a missing payload is a NULL column. *)
Definition decode_content (cid : ConversationId) (rid : RunId) (db : RunDb) (p : Z * ContentRow)
    : result StoreError V4ContentEvent :=
  let? pjson := ok_or (assistant_content_payloads db !! (cid, p.1)) (Database (InvalidColumnType 2)) in
  let? payload := ok_or (content_of_json pjson) (Database (FromSqlConversionFailure 2)) in
  Ok (mkV4ContentEvent cid rid (u64_or_zero p.1) (u64_or_zero (ct_timestamp_ms p.2)) payload).

Definition check_content (e : V4ContentEvent) : result StoreError V4ContentEvent :=
  let? _ := map_err (fun _ => CorruptData "ev invalid") (V4ContentEvent_validate e) in Ok e.

Definition content_page (cid : ConversationId) (rid : RunId) (after limit : Z) (db : RunDb)
    : result StoreError (list V4ContentEvent) :=
  let? conv := turn_conversation rid db in
  fail? negb (bool_decide (conv = cid)) with AssistantNotFound in
  let? _ := (if after =? 0 then Ok tt
             else let? sql_after := sql_sequence after in
                  match assistant_content_events db !! (cid, sql_after) with
                  | Some row => if bool_decide (ct_run_id row = rid) then Ok tt
                                else Err (InvalidInput "content cursor invalid")
                  | None => Err (InvalidInput "content cursor invalid")
                  end) in
  let? sql_after := sql_sequence after in
  let? events := map_result (decode_content cid rid db)
                   (take (Z.to_nat limit) (content_after cid rid sql_after db)) in
  map_result check_content events.

(** The continuation of a page: the last sequence unless the page ends the run. *)
Definition content_cursor (events : list V4ContentEvent) : option Z :=
  match list.last events with
  | Some e => if is_terminal_payload (ce_payload e) then None else Some (ce_sequence e)
  | None => None
  end.

Definition content_candidate (q : V4ContentQuery) (events : list V4ContentEvent) : V4ContentPage :=
  mkV4ContentPage (tq_conversation_id q) (tq_run_id q) (tq_after q) events (content_cursor events).

(** [while !events.is_empty() { .. events.pop() }]; [n] is the number left. *)
Fixpoint fit_content (n : nat) (q : V4ContentQuery) (events : list V4ContentEvent) : list V4ContentEvent :=
  match n with
  | O => events
  | S n' =>
      if content_page_len (content_candidate q events) <=? MAX_V4_PAGE_BYTES then events
      else fit_content n' q (removelast events)
  end.

Definition v4_content (q : V4ContentQuery) : Tx RunDb StoreError V4ContentPage :=
  tlift (map_err (fun _ => InvalidInput "content query invalid") (V4ContentQuery_validate q)) ;;
  tread (fun db =>
    let? found := conversation_row (tq_conversation_id q) db in
    match found with
    | None => Err AssistantNotFound
    | Some _ =>
        let? events := content_page (tq_conversation_id q) (tq_run_id q) (tq_after q) (tq_limit q) db in
        let page := content_candidate q (fit_content (length events) q events) in
        let? _ := map_err (fun _ => CorruptData "content page invalid") (V4ContentPage_validate page) in
        Ok page
    end).
Definition v4_content_events (q : V4ContentQuery) := v4_content q.

(** ** The end of a turn *)
Definition v4_finalize_turn (run : RunId) (final_state : RunState) : Tx RunDb StoreError unit :=
  transaction
    (found <- tread (run_by_id run) ;
     record <- tlift (ok_or found AssistantNotFound) ;
     if negb (is_terminal final_state) || negb (bool_decide (run_status record = final_state))
     then traise AssistantConflict
     else tmodify (fun db =>
       set_messages
         ((fun msg =>
             if bool_decide (m_run_id msg = run) && bool_decide (m_role msg = "assistant")
             then mkMessageRow (m_conversation_id msg) (m_run_id msg) (m_role msg) (m_sequence msg)
                    (m_body msg) (m_text_bytes msg) (slen (m_body msg) =? m_text_bytes msg)
                    (state_as_str final_state) (m_created_at_ms msg)
             else msg) <$> assistant_messages db) db)).

Definition unadopted_event : NewRunEvent :=
  mkNewRunEvent "run_failed"
    (VObject [("code", VString "executor_unsupported");
              ("message", VString "executor does not support this request")]).

Definition v4_fail_unadopted_turn (run : RunId) (t : Tick) : Tx RunDb StoreError V4TurnSubmission :=
  fun db =>
    match transition_run run Queued Failed unadopted_event t db with
    | (Ok _, db1) | (Err (UnexpectedStatus _ _), db1) | (Err (TerminalRun _), db1) =>
        tread (submission_for run) db1
    | (Err error, db1) => (Err error, db1)
    end.

(** The result of the insertion is dropped, its statements are not. *)
Definition mark_interrupted (rid : RunId) (now_ms : Z) : Tx RunDb StoreError unit :=
  tmodify (update_message_states rid "interrupted") ;;
  cid <- tread (turn_conversation_id rid) ;
  (fun db => (Ok tt, (insert_content_event cid rid (Terminal Interrupted) now_ms db).2)).
End Store.

(** ** Frame: what the assistant operations leave alone

    [outside k db]: the runs and their events are those of [k], and no legacy
    conversation of [k] disappeared. *)
Definition outside (k : core_tables) (db : RunDb) : Prop :=
  k_conversations k ⊆ conversations db /\ runs db = k_runs k /\ run_events db = k_events k.

Lemma outside_refl db : outside (core db) db.
Proof. done. Qed.

Section Frame.
Context {EX : External} {CC : ContentCodec} {MF : MillisFormat} {DG : Digest} {VJ : V4Json}.
Variable k : core_tables.
Implicit Types (cid rid id : string).

Lemma keeps_core_outside {A} (m : Tx RunDb StoreError A) :
  (forall c, keeps (fun db => core db = c) m) -> keeps (outside k) m.
Proof.
  intros Hm db (H1 & H2 & H3). specialize (Hm (core db) db eq_refl).
  unfold outside. rewrite (f_equal k_conversations Hm : conversations _ = _),
    (f_equal k_runs Hm : runs _ = _), (f_equal k_events Hm : run_events _ = _). done.
Qed.

Lemma create_conversation_outside id t : keeps (outside k) (create_conversation id t).
Proof.
  intros db (H1 & H2 & H3). unfold create_conversation.
  case_match; [done|]. split; [|done].
  etrans; [exact H1|]. by apply insert_subseteq.
Qed.

Lemma insert_content_event_outside cid rid p now : keeps (outside k) (insert_content_event cid rid p now).
Proof. apply keeps_core_outside. intros c. apply insert_content_event_core. Qed.

Lemma insert_conversation_row_outside id row : keeps (outside k) (insert_conversation_row id row).
Proof.
  intros db Hk. unfold insert_conversation_row. destruct (negb _); [done|]. destruct (_ !! id); [done|].
  destruct (sequence_taken _ _); [done|]. by destruct (conversations db !! id).
Qed.
Lemma update_conversation_row_outside id f : keeps (outside k) (update_conversation_row id f).
Proof.
  intros db Hk. unfold update_conversation_row. destruct (_ !! id); [|done]. by destruct (negb _).
Qed.
Lemma update_live_conversation_outside id f : keeps (outside k) (update_live_conversation id f).
Proof.
  intros db Hk. unfold update_live_conversation. destruct (_ !! id) as [row|]; [|done].
  destruct (cv_deleted row); [done|]. by apply update_conversation_row_outside.
Qed.
Lemma insert_message_row_outside id m : keeps (outside k) (insert_message_row id m).
Proof.
  intros db Hk. unfold insert_message_row. destruct (negb _); [done|]. destruct (_ !! id); [done|].
  destruct (message_sequence_taken _ _ _); [done|]. by destruct (_ || _).
Qed.
Lemma insert_turn_row_outside id row : keeps (outside k) (insert_turn_row id row).
Proof.
  intros db Hk. unfold insert_turn_row. destruct (negb _); [done|]. destruct (_ !! id); [done|].
  destruct (match tn_user_message_id row with Some _ => _ | None => _ end); [done|]. by destruct (_ || _).
Qed.
Lemma insert_or_ignore_profile_outside id d u : keeps (outside k) (insert_or_ignore_profile id d u).
Proof. intros db Hk. unfold insert_or_ignore_profile. by destruct (_ !! id). Qed.
Lemma update_preview_outside rid b n : keeps (outside k) (update_preview rid b n).
Proof. intros db Hk. unfold update_preview. by destruct (existsb _ _). Qed.
Lemma delete_content_outside cid : keeps (outside k) (delete_content cid).
Proof. by intros db Hk. Qed.
Lemma delete_messages_outside cid : keeps (outside k) (delete_messages cid).
Proof. by intros db Hk. Qed.
Lemma patch_field_outside {A} id now (a : option A) f : keeps (outside k) (patch_field id now a f).
Proof.
  destruct a; [|by apply keeps_ret]. apply keeps_bind; [apply keeps_lift|intros n].
  apply update_live_conversation_outside.
Qed.
End Frame.
#[export] Hint Resolve create_conversation_outside insert_content_event_outside
  insert_conversation_row_outside update_conversation_row_outside update_live_conversation_outside
  insert_message_row_outside insert_turn_row_outside insert_or_ignore_profile_outside
  update_preview_outside delete_content_outside delete_messages_outside patch_field_outside : tx.

(** Go through a sequence of statements with the hints. *)
Ltac keeps_solve :=
  repeat match goal with
         | |- keeps _ (tbind _ _) => apply keeps_bind; [|intros ?]
         | |- keeps _ (match ?x with _ => _ end) => destruct x
         | |- keeps _ (if ?b then _ else _) => destruct b
         | |- keeps _ _ => solve [auto with tx]
         end.

Section Frames.
Context {EX : External} {CC : ContentCodec} {MF : MillisFormat} {DG : Digest} {VJ : V4Json}.
Variable k : core_tables.

Lemma keeps_transaction' {A} (P : RunDb -> Prop) (m : Tx RunDb StoreError A) :
  keeps P m -> keeps P (transaction m).
Proof. intros Hm. apply keeps_transaction. intros s a s' Hs Heq. specialize (Hm s Hs). by rewrite Heq in Hm. Qed.

Lemma insert_conversation_outside id title i now r : keeps (outside k) (insert_conversation id title i now r).
Proof. apply keeps_transaction'. keeps_solve. Qed.
Lemma v4_patch_conversation_outside id patch now : keeps (outside k) (v4_patch_conversation id patch now).
Proof. apply keeps_transaction'. keeps_solve. Qed.
Lemma v4_delete_conversation_outside id now : keeps (outside k) (v4_delete_conversation id now).
Proof. apply keeps_transaction'. keeps_solve. Qed.
Lemma update_assistant_preview_outside rid d msg now : keeps (outside k) (update_assistant_preview rid d msg now).
Proof. unfold update_assistant_preview. keeps_solve. Qed.
Hint Resolve update_assistant_preview_outside : tx.
Lemma v4_append_content_outside rid p msg now : keeps (outside k) (v4_append_content rid p msg now).
Proof. apply keeps_transaction'. keeps_solve. Qed.
Lemma v4_finalize_turn_outside rid s : keeps (outside k) (v4_finalize_turn rid s).
Proof. apply keeps_transaction'. keeps_solve. by apply keeps_modify. Qed.
End Frames.
