(* ===== verification/TurnContext.v ===== *)
(** * The history of a turn (src/src/runtime/store/v4_context.rs)

    What a model is told about a conversation: the most recent finished turns of
    the same route that fit a byte budget, read back from the stored content and
    checked against the message rows. *)
From stdpp Require Import base list gmap strings sorting.
From Stdlib Require Import ZArith Lia.
From S2P Require Import Prelude RustStr External Digest RunContract StoreBase AuditMetadata AssistantContent RunStore TurnContract TurnStore.
Import RunStateOps.

Open Scope Z_scope.
Open Scope rust_scope.

Record V4ContextPair := mkV4ContextPair { cx_user : string; cx_assistant : string }.
Record V4TurnContext := mkV4TurnContext { tc_pairs : list V4ContextPair; tc_truncated : bool }.

Definition admitted_marker : string := "[admitted]".

(** The mutable variables of the walk over the events of one turn. *)
Record Scan := mkScan {
  sc_first_text : bool;
  sc_legacy_marker : bool;
  sc_assistant : string;
  sc_actual_bytes : Z;
  sc_legacy_encoding : bool;
  sc_oversized : bool;
  sc_count : Z;
  sc_terminal : bool;
  sc_parsed_bytes : Z;
}.
Definition scan_start : Scan := mkScan true false EmptyString 0 false false 0 false 0.

(** [&text[..take]] with [take] lowered to a character boundary. *)
Definition take_within (budget : Z) (text : string) : string :=
  str_take (floor_char_boundary text (Z.to_nat (Z.min (slen text) budget))) text.

Section Context.
Context `{External} `{ContentCodec} `{Digest} `{V4Json}.

(** The binding of the current turn: the row the first query joins, with its
    [user_sequence]. *)
Definition current_sequence (run : RunId) (request : V4SubmitTurn) (db : RunDb) : option Z :=
  let conv := st_conversation_id request in
  match assistant_turns db !! run, runs db !! run with
  | Some t, Some r =>
      match tn_user_message_id t with
      | Some uid =>
          match assistant_messages db !! uid with
          | Some m =>
              if bool_decide (tn_conversation_id t = conv)
                 && bool_decide (c_conversation_id r = Some (conv : string))
                 && bool_decide (tn_route_id t = st_route_id request)
                 && bool_decide (c_request_digest r = submit_digest request)
                 && bool_decide (c_idempotency_key r = st_idempotency_key request)
                 && bool_decide (m_conversation_id m = conv) && bool_decide (m_run_id m = run)
                 && bool_decide (m_role m = "user") && (m_sequence m =? tn_user_sequence t)
                 && bool_decide (m_body m = st_input request) && (m_text_bytes m =? slen (m_body m))
              then Some (tn_user_sequence t) else None
          | None => None
          end
      | None => None
      end
  | _, _ => None
  end.

(** The turns the second query selects. *)
Definition is_previous (request : V4SubmitTurn) (before : Z) (db : RunDb) (p : string * TurnRow) : bool :=
  bool_decide (tn_conversation_id p.2 = st_conversation_id request)
  && bool_decide (tn_route_id p.2 = st_route_id request) && (tn_user_sequence p.2 <? before)
  && match runs db !! p.1 with
     | Some r => bool_decide (c_conversation_id r = Some (tn_conversation_id p.2))
                 && bool_decide (c_status r = "succeeded")
     | None => false
     end.

Definition later_first (a b : string * TurnRow) : Prop := tn_user_sequence b.2 <= tn_user_sequence a.2.
#[local] Instance later_first_dec : RelDecision later_first.
Proof. intros a b. unfold later_first. apply _. Defined.

(** [ORDER BY t.user_sequence DESC] *)
Definition previous_turns (request : V4SubmitTurn) (before : Z) (db : RunDb) : list (string * TurnRow) :=
  merge_sort later_first (filter (fun p => is_previous request before db p = true) (map_to_list (assistant_turns db))).

(** The LEFT JOIN with the assistant message: one row per message, or one with
    NULL. *)
Definition is_reply_of (rid : string) (t : TurnRow) (p : string * MessageRow) : bool :=
  bool_decide (m_run_id p.2 = rid) && bool_decide (m_role p.2 = "assistant")
  && match tn_assistant_message_id t with None => true | Some id => bool_decide (id = p.1) end.
Definition reply_ids (rid : string) (t : TurnRow) (db : RunDb) : list string :=
  map fst (filter (fun p => is_reply_of rid t p = true) (map_to_list (assistant_messages db))).
Definition identity_rows (db : RunDb) (p : string * TurnRow) : list (string * option string * option string) :=
  match reply_ids p.1 p.2 db with
  | [] => [(p.1, tn_user_message_id p.2, None)]
  | ids => map (fun aid => (p.1, tn_user_message_id p.2, Some aid)) ids
  end.

(** The identities with [LIMIT 33]; the user message is read as a text. *)
Definition identities (request : V4SubmitTurn) (before : Z) (db : RunDb)
    : result StoreError (list (string * string * option string)) :=
  map_result (fun row : string * option string * option string =>
                let '(rid, uid, aid) := row in
                let? uid := ok_or uid (Database (InvalidColumnType 1)) in Ok (rid, uid, aid))
    (take 33 (flat_map (identity_rows db) (previous_turns request before db))).

(** The join that binds the two messages of a turn: their lengths. *)
Definition pair_lengths (conv rid uid aid : string) (db : RunDb) : option (Z * Z) :=
  match assistant_messages db !! uid, assistant_messages db !! aid with
  | Some u, Some a =>
      if bool_decide (m_conversation_id u = conv) && bool_decide (m_conversation_id a = conv)
         && bool_decide (m_run_id u = rid) && bool_decide (m_run_id a = rid)
         && bool_decide (m_role u = "user") && bool_decide (m_role a = "assistant")
         && bool_decide (m_state a = "succeeded")
      then Some (slen (m_body u), m_text_bytes a) else None
  | _, _ => None
  end.

(** [SELECT body FROM assistant_messages WHERE id=?1] *)
Definition message_body (id : string) (db : RunDb) : option string :=
  m_body <$> assistant_messages db !! id.

(** A text event. *)
Definition scan_text (output_budget : Z) (row : ContentRow) (json text : string) (s : Scan)
    : result StoreError Scan :=
  let bytes := ct_byte_count row in
  let legacy := sc_legacy_encoding s || (bytes =? slen json) in
  fail? (negb (bytes =? slen text) && negb (bytes =? slen json))
        || negb (bool_decide (ct_kind row = "output_bounded"))
  with CorruptData "context text metadata invalid" in
  if sc_first_text s && (sc_count s =? 1) && bool_decide (text = admitted_marker) && (bytes =? slen json)
  then Ok (mkScan false true (sc_assistant s) (sc_actual_bytes s) legacy (sc_oversized s) (sc_count s)
             (sc_terminal s) (sc_parsed_bytes s))
  else
    let actual := usize_saturating_add (sc_actual_bytes s) (slen text) in
    fail? MAX_V4_CONTENT_BYTES <? actual with CorruptData "context text invalid" in
    Ok (mkScan false (sc_legacy_marker s)
          (sc_assistant s +:+ take_within (output_budget - slen (sc_assistant s)) text)
          actual legacy (sc_oversized s || (output_budget <? actual)) (sc_count s) (sc_terminal s)
          (sc_parsed_bytes s)).

(** One iteration of [while let Some(row) = rows.next()?]. *)
Definition scan_row (output_budget : Z) (cid : string) (db : RunDb) (p : Z * ContentRow) (s0 : Scan)
    : result StoreError Scan :=
  let count := sc_count s0 + 1 in
  let stored := assistant_content_payloads db !! (cid, p.1) in
  fail? (65536 <? count) || sc_terminal s0
        || match stored with Some j => MAX_V4_DELTA_BYTES * 6 + 1024 <? slen j | None => true end
  with CorruptData "context event bound invalid" in
  let parsed := usize_saturating_add (sc_parsed_bytes s0) (default 0 (slen <$> stored)) in
  fail? MAX_V4_CONTENT_BYTES * 6 + 1024 <? parsed with CorruptData "context aggregate bound invalid" in
  let? json := ok_or stored (Database (InvalidColumnType 3)) in
  let? payload := ok_or (content_of_json json) (CorruptData "context payload invalid") in
  let? _ := map_err (fun _ => CorruptData "context payload invalid") (V4ContentPayload_validate payload) in
  let s := mkScan (sc_first_text s0) (sc_legacy_marker s0) (sc_assistant s0) (sc_actual_bytes s0)
             (sc_legacy_encoding s0) (sc_oversized s0) count (sc_terminal s0) parsed in
  match payload with
  | TextDelta text => scan_text output_budget p.2 json text s
  | Terminal Succeeded =>
      Ok (mkScan (sc_first_text s) (sc_legacy_marker s) (sc_assistant s) (sc_actual_bytes s)
            (sc_legacy_encoding s) (sc_oversized s) (sc_count s) true (sc_parsed_bytes s))
  | Terminal _ => Err (CorruptData "context terminal invalid")
  | _ => Ok s
  end.

Fixpoint scan_rows (output_budget : Z) (cid : string) (db : RunDb) (rows : list (Z * ContentRow)) (s : Scan)
    : result StoreError Scan :=
  match rows with
  | [] => Ok s
  | p :: r => let? s' := scan_row output_budget cid db p s in scan_rows output_budget cid db r s'
  end.

(** The first event of an old admission counts as text unless the rest agrees
    with the stored reply. *)
Definition strip_marker (preview : string) (assistant_bytes : Z) (s : Scan) : bool :=
  sc_legacy_marker s && negb (is_empty preview) && starts_with_str preview (sc_assistant s)
  && (slen preview <=? sc_actual_bytes s)
  && ((sc_actual_bytes s =? assistant_bytes) || (assistant_bytes =? slen preview)).
Definition restore_marker (output_budget : Z) (s : Scan) : Scan :=
  let actual := usize_saturating_add (sc_actual_bytes s) (slen admitted_marker) in
  mkScan (sc_first_text s) (sc_legacy_marker s)
    (admitted_marker +:+ take_within (usize_saturating_sub output_budget (slen admitted_marker)) (sc_assistant s))
    actual (sc_legacy_encoding s) (sc_oversized s || (output_budget <? actual)) (sc_count s) (sc_terminal s)
    (sc_parsed_bytes s).

(** The reply of one turn, or [None] when it does not fit after all. *)
Definition read_reply (output_budget : Z) (cid rid preview : string) (assistant_bytes : Z) (db : RunDb)
    : result StoreError (option string) :=
  let? s := scan_rows output_budget cid db (take (Z.to_nat 65537) (content_after cid rid 0 db)) scan_start in
  let s := if sc_legacy_marker s && negb (strip_marker preview assistant_bytes s)
           then restore_marker output_budget s else s in
  fail? negb (sc_terminal s)
        || (negb (sc_actual_bytes s =? assistant_bytes)
            && negb (sc_legacy_encoding s && (assistant_bytes =? slen preview)
                     && (slen preview <=? sc_actual_bytes s)))
        || negb (starts_with_str preview (sc_assistant s))
  with CorruptData "context output incomplete" in
  Ok (if sc_oversized s then None else Some (sc_assistant s)).

(** [validate_empty_success]: a succeeded turn without a reply. *)
Fixpoint empty_rows (cid : string) (db : RunDb) (rows : list (Z * ContentRow)) (index : Z)
    (notice terminal : bool) : result StoreError bool :=
  match rows with
  | [] => Ok terminal
  | p :: r =>
      fail? terminal || (3 <=? index) with CorruptData "empty context events invalid" in
      let? json := ok_or (match assistant_content_payloads db !! (cid, p.1) with
                          | Some j => if slen j <=? 1024 then Some j else None
                          | None => None
                          end) (CorruptData "empty context payload missing") in
      let? payload := ok_or (content_of_json json) (CorruptData "empty context payload invalid") in
      let? _ := map_err (fun _ => CorruptData "empty context payload invalid") (V4ContentPayload_validate payload) in
      fail? negb (ct_byte_count p.2 =? slen json) with CorruptData "empty context byte count invalid" in
      let? flags :=
        (match payload with
         | Terminal Succeeded =>
             if bool_decide (ct_kind p.2 = "completed") then Ok (notice, true)
             else Err (CorruptData "empty context content invalid")
         | Notice Truncated =>
             if negb notice && bool_decide (ct_kind p.2 = "output_bounded") then Ok (true, terminal)
             else Err (CorruptData "empty context content invalid")
         | TextDelta text =>
             if (index =? 0) && bool_decide (text = admitted_marker)
                && bool_decide (ct_kind p.2 = "output_bounded") then Ok (notice, terminal)
             else Err (CorruptData "empty context content invalid")
         | _ => Err (CorruptData "empty context content invalid")
         end) in
      empty_rows cid db r (index + 1) flags.1 flags.2
  end.
Definition validate_empty_success (cid rid : string) (db : RunDb) : result StoreError unit :=
  let? terminal := empty_rows cid db (take 4 (content_after cid rid 0 db)) 0 false false in
  if terminal then Ok tt else Err (CorruptData "empty context terminal missing").

(** The loop over the identities, with its mutable [remaining] and [result]. *)
Fixpoint context_loop (conv : string) (db : RunDb) (ids : list (string * string * option string))
    (remaining : Z) (pairs : list V4ContextPair) (truncated : bool)
    : result StoreError (list V4ContextPair * bool) :=
  match ids with
  | [] => Ok (pairs, truncated)
  | (rid, uid, None) :: r =>
      let? _ := validate_empty_success conv rid db in
      context_loop conv db r remaining pairs truncated
  | (rid, uid, Some aid) :: r =>
      let? lengths := ok_or (pair_lengths conv rid uid aid db) (CorruptData "context pair invalid") in
      let '(user_bytes, assistant_bytes) := lengths in
      fail? (user_bytes <? 0) || (assistant_bytes <? 0) || (MAX_V4_CONTENT_BYTES <? assistant_bytes)
      with CorruptData "context lengths invalid" in
      if remaining <? user_bytes + assistant_bytes then context_loop conv db r remaining pairs true
      else
        let? user := ok_or (message_body uid db) (Database QueryReturnedNoRows) in
        let? preview :=
          ok_or (match message_body aid db with
                 | Some b => if slen b <=? 16384 then Some b else None
                 | None => None
                 end) (CorruptData "context preview invalid") in
        let? reply := read_reply (remaining - slen user) conv rid preview assistant_bytes db in
        match reply with
        | None => context_loop conv db r remaining pairs true
        | Some assistant =>
            context_loop conv db r (remaining - (slen user + slen assistant))
              (pairs ++ [mkV4ContextPair user assistant]) truncated
        end
  end.

Definition v4_turn_context (run : RunId) (request : V4SubmitTurn) (max_bytes : Z)
    : Tx RunDb StoreError V4TurnContext :=
  tlift (map_err (fun _ => InvalidInput "context request invalid") (V4SubmitTurn_validate request)) ;;
  tlift (if 24 * 1024 <? max_bytes then Err (InvalidInput "context bound invalid") else Ok tt) ;;
  tread (fun db =>
    let? before := ok_or (current_sequence run request db) AssistantConflict in
    let? ids := identities request before db in
    let? result := context_loop (st_conversation_id request) db (take 32 ids) max_bytes []
                     (Nat.ltb 32 (length ids)) in
    Ok (mkV4TurnContext (rev result.1) result.2)).
End Context.
