(* ===== verification/Preview.v ===== *)
(** * The preview of an assistant reply (src/src/runtime/store/v4_turn.rs)

    The store keeps the first 16 KiB of a reply next to its full length and
    extends both with every delta.  [preview_text] is the reference: the longest
    whole-character prefix of the full text within 16 KiB.  The incremental
    [extend_preview] computes exactly that. *)
From stdpp Require Import base list strings.
From Stdlib Require Import ZArith Lia.
From S2P Require Import Prelude RustStr External RunContract StoreBase AssistantContent RunStore TurnContract TurnStore.

Open Scope Z_scope.
Open Scope rust_scope.

Definition preview_cap : nat := Z.to_nat MAX_V4_DELTA_BYTES.
Definition preview_text (t : string) : string :=
  if slen t <=? 16384 then t else str_take (floor_char_boundary t preview_cap) t.

Lemma preview_cap_z : Z.of_nat preview_cap = 16384.
Proof. done. Qed.
#[local] Opaque preview_cap.

Lemma str_take_ge n s : slen s <= Z.of_nat n -> str_take n s = s.
Proof.
  revert n. induction s as [|c s IH]; intros [|n] Hn; try done.
  simpl. f_equal. apply IH. unfold slen in *. simpl in Hn. lia.
Qed.

Lemma str_take_app_le n s t : Z.of_nat n <= slen s -> str_take n (s +:+ t) = str_take n s.
Proof.
  revert n. induction s as [|c s IH]; intros [|n] Hn; unfold slen in *; simpl in Hn; try done.
  rewrite append_cons. simpl. f_equal. apply IH. lia.
Qed.

Lemma str_take_app_add n s t : str_take (String.length s + n) (s +:+ t) = s +:+ str_take n t.
Proof. induction s as [|c s IH]; [done|]. rewrite !append_cons. simpl. by f_equal. Qed.

Lemma length_app_string s t : String.length (s +:+ t) = (String.length s + String.length t)%nat.
Proof. induction s as [|c s IH]; [done|]. rewrite append_cons. simpl. by f_equal. Qed.

Lemma str_take_str_take n m s : (n <= m)%nat -> str_take n (str_take m s) = str_take n s.
Proof.
  revert m s. induction n as [|n IH]; intros [|m] [|c s] Hn; simpl; try done; [lia|]. f_equal. apply IH. lia.
Qed.

(** A valid string starts with a leading byte. *)
Lemma valid_utf8_first s b : valid_utf8 s -> bytes s !! 0%nat = Some b -> is_continuation b = false.
Proof.
  intros (cs & Hcs & Hb) Hl. rewrite Hb in Hl. destruct Hcs as [|c cs Hc _]; [done|]. simpl in Hl.
  destruct (encode_char_shape c Hc) as (b' & t & Henc & Hb' & _). rewrite Henc in Hl. by simplify_eq/=.
Qed.

(** Inside the first part of a concatenation the boundaries are its own. *)
Lemma is_char_boundary_app_l s t i :
  (i < String.length s)%nat -> is_char_boundary (s +:+ t) i = is_char_boundary s i.
Proof.
  intros Hi. unfold is_char_boundary. destruct i as [|i]; [done|].
  rewrite bytes_app, lookup_app_l by (rewrite length_bytes; lia).
  by destruct (lookup_lt_is_Some_2 (bytes s) (S i)) as [b ->]; [rewrite length_bytes|].
Qed.

Lemma is_char_boundary_app_r s t i :
  valid_utf8 t -> is_char_boundary (s +:+ t) (String.length s + i) = is_char_boundary t i.
Proof.
  intros Hv. destruct i as [|i].
  - rewrite Nat.add_0_r. simpl. unfold is_char_boundary. destruct (String.length s) as [|n] eqn:Hn; [done|].
    rewrite bytes_app, lookup_app_r, length_bytes, Hn, Nat.sub_diag by (rewrite length_bytes; lia).
    destruct (bytes t !! 0%nat) as [b|] eqn:Hb; [by rewrite (valid_utf8_first t b)|].
    apply lookup_ge_None in Hb. rewrite length_bytes in Hb. rewrite length_app_string, Hn.
    apply Nat.eqb_eq. lia.
  - unfold is_char_boundary. rewrite Nat.add_succ_r.
    rewrite bytes_app, lookup_app_r, length_bytes by (rewrite length_bytes; lia).
    replace (S (String.length s + i) - String.length s)%nat with (S i) by lia.
    destruct (bytes t !! S i); [done|]. rewrite length_app_string.
    destruct (Nat.eqb_spec (S i) (String.length t)), (Nat.eqb_spec (S (String.length s + i))
      (String.length s + String.length t)); (done || lia).
Qed.

Lemma floor_char_boundary_app_l s t i :
  (i < String.length s)%nat -> floor_char_boundary (s +:+ t) i = floor_char_boundary s i.
Proof.
  induction i as [|i IH]; intros Hi; [done|].
  rewrite !floor_char_boundary_S, is_char_boundary_app_l by done. rewrite IH by lia. done.
Qed.

Lemma floor_char_boundary_at s i : is_char_boundary s i = true -> floor_char_boundary s i = i.
Proof. destruct i; simpl; [done|]. by intros ->. Qed.

Lemma floor_char_boundary_app_r s t i :
  valid_utf8 t ->
  floor_char_boundary (s +:+ t) (String.length s + i) = (String.length s + floor_char_boundary t i)%nat.
Proof.
  intros Hv. induction i as [|i IH].
  - rewrite floor_char_boundary_at; [done|]. by rewrite is_char_boundary_app_r.
  - rewrite Nat.add_succ_r, !floor_char_boundary_S.
    rewrite <- Nat.add_succ_r, is_char_boundary_app_r by done.
    destruct (is_char_boundary t (S i)); [done|]. apply IH.
Qed.

Lemma floor_char_boundary_len s : floor_char_boundary s (String.length s) = String.length s.
Proof. apply floor_char_boundary_at, is_char_boundary_len. Qed.

Lemma preview_text_len t : slen (preview_text t) <= 16384.
Proof.
  unfold preview_text. destruct (Z.leb_spec (slen t) 16384); [done|]. rewrite slen_str_take.
  pose proof (floor_char_boundary_le t preview_cap). pose proof preview_cap_z. lia.
Qed.

Lemma preview_text_valid t : valid_utf8 t -> valid_utf8 (preview_text t).
Proof.
  intros Hv. unfold preview_text. destruct (slen t <=? 16384); [done|].
  apply valid_utf8_take; [done|]. apply floor_char_boundary_ok.
Qed.

(** The preview is complete exactly when the text fits. *)
Lemma preview_text_complete t : slen (preview_text t) = slen t <-> slen t <= 16384.
Proof.
  split; [intros Heq; rewrite <- Heq; apply preview_text_len|].
  intros Hle. unfold preview_text. by rewrite (proj2 (Z.leb_le _ _) Hle).
Qed.

Lemma preview_text_prefix t : exists n, preview_text t = str_take n t.
Proof.
  unfold preview_text. destruct (Z.leb_spec (slen t) 16384); [|by eexists].
  exists (String.length t). symmetry. apply str_take_ge. unfold slen. lia.
Qed.

(** Extending a preview gives the preview of the extended text. *)
Lemma extend_preview_some m t d :
  valid_utf8 d -> m_body m = preview_text t -> m_text_bytes m = slen t ->
  extend_preview (Some m) d = preview_text (t +:+ d).
Proof.
  intros Hd Hb Hn. unfold extend_preview. rewrite Hb, Hn.
  destruct (Z.eqb_spec (slen (preview_text t)) (slen t)) as [Heq|Hne].
  - apply preview_text_complete in Heq.
    assert (preview_text t = t) as -> by (unfold preview_text; by rewrite (proj2 (Z.leb_le _ _) Heq)).
    unfold usize_wrapping_sub. pose proof (slen_nonneg t). rewrite Z.mod_small by lia.
    change (16 * 1024) with 16384. unfold preview_text. rewrite slen_app.
    destruct (Z.leb_spec (slen t + slen d) 16384).
    + rewrite Z.min_l by lia. f_equal. unfold slen at 1. rewrite Nat2Z.id, floor_char_boundary_len.
      apply str_take_ge. unfold slen. lia.
    + rewrite Z.min_r by lia.
      assert (preview_cap = (String.length t + Z.to_nat (16384 - slen t))%nat) as Hc by (pose proof preview_cap_z; unfold slen in *; lia).
      rewrite Hc at 1. rewrite floor_char_boundary_app_r by done. by rewrite str_take_app_add.
  - assert (16384 < slen t) as Hlt.
    { destruct (Z.le_gt_cases (slen t) 16384) as [Hle|]; [|lia]. by apply preview_text_complete in Hle. }
    unfold preview_text. rewrite slen_app. pose proof (slen_nonneg d).
    rewrite (proj2 (Z.leb_gt (slen t) _)), (proj2 (Z.leb_gt (slen t + slen d) _)) by lia.
    rewrite floor_char_boundary_app_l by (pose proof preview_cap_z; unfold slen in *; lia).
    rewrite str_take_app_le; [done|]. pose proof (floor_char_boundary_le t preview_cap). pose proof preview_cap_z. lia.
Qed.

Lemma extend_preview_none d : slen d <= 16384 -> extend_preview None d = preview_text d.
Proof.
  intros Hd. unfold extend_preview, usize_wrapping_sub. change (slen EmptyString) with 0.
  rewrite Z.mod_small by lia. rewrite Z.min_l by lia. simpl.
  unfold slen at 1. rewrite Nat2Z.id, floor_char_boundary_len, str_take_ge by (unfold slen; lia).
  unfold preview_text. by rewrite (proj2 (Z.leb_le _ _) Hd).
Qed.

(** * Cutting a text into pieces of whole characters

    What a loop does that takes the longest prefix of at most [max] bytes ending
    between characters, again and again. *)

(** [&s[n..]] *)
Fixpoint str_drop (n : nat) (s : string) : string :=
  match n, s with
  | S n', String _ s' => str_drop n' s'
  | _, _ => s
  end.

Lemma bytes_str_drop n s : bytes (str_drop n s) = drop n (bytes s).
Proof. revert n. induction s as [|c s IH]; intros [|n]; simpl; try done. Qed.

Lemma str_take_drop n s : str_take n s +:+ str_drop n s = s.
Proof. revert n. induction s as [|c s IH]; intros [|n]; try done. simpl. rewrite append_cons. by rewrite IH. Qed.

Lemma length_str_drop n s : String.length (str_drop n s) = (String.length s - n)%nat.
Proof. revert n. induction s as [|c s IH]; intros [|n]; simpl; try done. Qed.

(** The rest after a boundary is valid. *)
Lemma valid_utf8_drop s n : valid_utf8 s -> is_char_boundary s n = true -> valid_utf8 (str_drop n s).
Proof.
  intros (cs & Hcs & Hb) Hn. destruct (boundary_cut s cs n Hcs Hb Hn) as [k Hk].
  exists (drop k cs). split; [by apply Forall_drop|]. rewrite bytes_str_drop.
  apply (app_inv_head (take n (bytes s))). rewrite take_drop, Hk, Hb.
  rewrite <- concat_app, <- map_app. by rewrite take_drop.
Qed.

Lemma encode_char_length c : (1 <= length (encode_char c) <= 4)%nat.
Proof.
  unfold encode_char. destruct (c <? 128); [simpl; lia|]. destruct (c <? 2048); [simpl; lia|].
  destruct (c <? 65536); simpl; lia.
Qed.

(** There is a boundary after the first character. *)
Lemma first_char_boundary s :
  valid_utf8 s -> s <> EmptyString ->
  exists n, (1 <= n <= 4)%nat /\ (n <= String.length s)%nat /\ is_char_boundary s n = true.
Proof.
  intros (cs & Hcs & Hb) Hne. destruct Hcs as [|c cs Hc Hcs]; [by destruct s|]. simpl in Hb.
  pose proof (encode_char_length c). exists (length (encode_char c)). split; [lia|].
  assert (String.length s = (length (encode_char c) + length (concat (map encode_char cs)))%nat) as Hlen
    by (rewrite <- length_bytes, Hb, length_app; done).
  split; [lia|]. unfold is_char_boundary. destruct (length (encode_char c)) as [|n] eqn:Hn; [lia|].
  rewrite Hb, lookup_app_r, Hn, Nat.sub_diag by lia. destruct Hcs as [|c2 cs Hc2 Hcs]; simpl.
  - simpl in Hlen. rewrite Hlen, Nat.add_0_r. simpl. apply Nat.eqb_refl.
  - destruct (encode_char_shape c2 Hc2) as (b & t & -> & Hlead & _). simpl. by rewrite Hlead.
Qed.

(** The piece a loop with room for a character takes is never empty. *)
Lemma floor_char_boundary_pos s i :
  valid_utf8 s -> s <> EmptyString -> (4 <= i)%nat \/ i = String.length s -> (1 <= floor_char_boundary s i)%nat.
Proof.
  intros Hv Hne Hi. destruct (first_char_boundary s Hv Hne) as (n & Hn & Hle & Hb).
  destruct (Nat.le_gt_cases n (floor_char_boundary s i)); [lia|].
  assert (is_char_boundary s n = false); [|congruence]. apply (floor_char_boundary_max s i). lia.
Qed.
