(* ===== verification/RunLedger.v ===== *)
(** * The run ledger: invariant, transitions and admission

    Theorems about the operations of [RunStore].  [ledger] is the invariant of
    the run tables: every row decodes, the events of a run are numbered without
    gap from one to the number before [next_event_sequence], idempotency keys
    are unique and references resolve.  [store_step] is one call of a store
    operation, successful or not. *)
From stdpp Require Import base list gmap strings sorting relations.
From Stdlib Require Import ZArith Lia.
From S2P Require Import Prelude RustStr External RunContract Digest StoreBase AssistantContent RunStore TurnContract TurnStore.
Import RunStateOps.

Open Scope Z_scope.
Open Scope rust_scope.

(** ** Specification data *)
Section Spec.
Context {EX : External} {CC : ContentCodec} {MF : MillisFormat} {DG : Digest} {VJ : V4Json}.

(** A row the Rust types of [RunRecord] can represent. *)
Record row_valid (id : string) (row : RunRow) (s : RunState) : Prop := {
  rv_id : uuid_canonical id = Some id;
  rv_conversation : forall c, c_conversation_id row = Some c -> uuid_canonical c = Some c;
  rv_key : IdempotencyKey_from_str (c_idempotency_key row) = Ok (c_idempotency_key row);
  rv_status : c_status row = state_as_str s;
  rv_next : 0 <= c_next_event_sequence row;
}.

Definition decoded (id : string) (row : RunRow) (s : RunState) : RunRecord :=
  mkRunRecord id (c_conversation_id row) (c_idempotency_key row) (c_request_digest row) s
    (c_next_event_sequence row) (c_created_at row) (c_updated_at row).

(** [row] after [UPDATE runs SET status, next_event_sequence, updated_at]. *)
Definition advance_row (row : RunRow) (next : RunState) (ts : string) : RunRow :=
  mkRunRow (c_conversation_id row) (c_idempotency_key row) (c_request_digest row)
    (state_as_str next) (c_next_event_sequence row + 1) (c_created_at row) ts.

(** The tables after one event of run [id] was appended and its row replaced. *)
Definition appended (k : core_tables) (id : string) (row row' : RunRow) (ev : EventRow) : core_tables :=
  mkCore (k_conversations k) (k_backends k) (<[id := row']> (k_runs k))
    (<[(id, c_next_event_sequence row) := ev]> (k_events k)) (k_audit k) (k_turns k).

Record ledger (k : core_tables) : Prop := {
  l_row : forall id row, k_runs k !! id = Some row ->
    (exists s, row_valid id row s) /\ 2 <= c_next_event_sequence row <= i64_max;
  l_event : forall id n ev, k_events k !! (id, n) = Some ev ->
    1 <= n /\ (exists row, k_runs k !! id = Some row /\ n < c_next_event_sequence row)
    /\ exists v, c_payload_json ev = json_to_string v;
  l_complete : forall id row n, k_runs k !! id = Some row ->
    1 <= n < c_next_event_sequence row -> is_Some (k_events k !! (id, n));
  l_key : forall id1 id2 row1 row2, k_runs k !! id1 = Some row1 -> k_runs k !! id2 = Some row2 ->
    c_idempotency_key row1 = c_idempotency_key row2 -> id1 = id2;
  l_conversation : forall id row c, k_runs k !! id = Some row ->
    c_conversation_id row = Some c -> is_Some (k_conversations k !! c);
}.

(** One call of a store operation with its arguments. *)
Inductive store_op :=
| OpConversation (id : ConversationId)
| OpBackend (id : ConversationId) (backend : BackendSelection) (foreign : option string)
| OpCreate (new_run : NewRun) (fresh : RunId)
| OpTransition (id : RunId) (expected next : RunState) (event : NewRunEvent)
| OpAppend (id : RunId) (event : NewRunEvent)
| OpAudit (event : NewAuditEvent)
| OpRecover
| OpV4Create (title : string) (fresh : ConversationId)
| OpV4Shell (id : ConversationId) (title : string)
| OpV4Patch (id : ConversationId) (patch : V4ConversationPatch)
| OpV4Delete (id : ConversationId)
| OpV4Admit (submit : V4SubmitTurn) (fresh : RunId) (msg : string)
| OpV4Append (id : RunId) (payload : V4ContentPayload) (msg : string)
| OpV4Finalize (id : RunId) (state : RunState).

Definition forget {A} (r : result StoreError A * RunDb) : result StoreError unit * RunDb :=
  (match r.1 with Ok _ => Ok tt | Err e => Err e end, r.2).

Definition exec (op : store_op) (t : Tick) (db : RunDb) : result StoreError unit * RunDb :=
  match op with
  | OpConversation id => create_conversation id t db
  | OpBackend id b f => forget (set_conversation_backend id b f t db)
  | OpCreate r fresh => forget (create_or_get_run r fresh t db)
  | OpTransition id e n ev => forget (transition_run id e n ev t db)
  | OpAppend id ev => forget (append_run_event id ev t db)
  | OpAudit ev => forget (record_audit ev t db)
  | OpRecover => forget (recover_interrupted_on t db)
  | OpV4Create title fresh => forget (v4_create_conversation title fresh (now_ms t) db)
  | OpV4Shell id title => forget (v4_note_legacy_shell id title (now_ms t) db)
  | OpV4Patch id patch => forget (v4_patch_conversation id patch (now_ms t) db)
  | OpV4Delete id => v4_delete_conversation id (now_ms t) db
  | OpV4Admit s fresh msg => forget (v4_admit_turn s fresh msg (now_ms t) db)
  | OpV4Append id p msg => forget (v4_append_content id p msg (now_ms t) db)
  | OpV4Finalize id st => v4_finalize_turn id st db
  end.

(** What the types of the arguments guarantee: a generated identifier is
    canonical, parsed identifiers and keys are what was parsed, and strings are
    UTF-8. *)
Definition typed (op : store_op) : Prop :=
  match op with
  | OpCreate r fresh =>
      uuid_canonical fresh = Some fresh
      /\ (forall c, nr_conversation_id r = Some c -> uuid_canonical c = Some c)
      /\ IdempotencyKey_from_str (nr_idempotency_key r) = Ok (nr_idempotency_key r)
  | OpV4Create title fresh => uuid_canonical fresh = Some fresh /\ valid_utf8 title
  | OpV4Shell id title => uuid_canonical id = Some id /\ valid_utf8 title
  | OpV4Patch id p =>
      uuid_canonical id = Some id /\ (forall t, vp_title p = Some t -> valid_utf8 t)
  | OpV4Delete id => uuid_canonical id = Some id
  | OpV4Admit s fresh msg =>
      uuid_canonical fresh = Some fresh
      /\ uuid_canonical (st_conversation_id s) = Some (st_conversation_id s)
      /\ IdempotencyKey_from_str (st_idempotency_key s) = Ok (st_idempotency_key s)
      /\ valid_utf8 (st_input s)
  | OpV4Append id p msg =>
      payload_typed p /\ (forall t, p = TextDelta t -> valid_utf8 t)
  | _ => True
  end.

Inductive store_step : RunDb -> RunDb -> Prop :=
| store_step_exec op t db r db' :
    typed op -> exec op t db = (r, db') -> store_step db db'.

(** One event of a run: the row moves along an edge of the lifecycle graph, or
    keeps its state; a terminal row never moves. *)
Inductive row_step (id : string) : RunRow -> RunRow -> Prop :=
| row_step_advance row s next ts :
    row_valid id row s -> is_terminal s = false ->
    next = s \/ transition_valid s next = true ->
    row_step id row (advance_row row next ts).

(** Runs only move by [row_step]; recorded events are never changed. *)
Record evolves (k k' : core_tables) : Prop := {
  e_run : forall id row, k_runs k !! id = Some row ->
    exists row', k_runs k' !! id = Some row' /\ rtc (row_step id) row row';
  e_event : k_events k ⊆ k_events k';
}.

(** The tables after a run was admitted. *)
Definition admitted_row (r : NewRun) (ts : string) : RunRow :=
  mkRunRow (nr_conversation_id r) (nr_idempotency_key r) (nr_request_digest r) "queued" 2 ts ts.
Definition admitted_tables (r : NewRun) (fresh : string) (ts : string) (db : RunDb) : RunDb :=
  set_run_events (<[(fresh, 1) := mkEventRow "run_queued" "{}" ts]> (run_events db))
    (set_runs (<[fresh := admitted_row r ts]> (runs db)) db).

(** ** Decoding rows *)
Lemma conversation_column_ok (column r : option string) :
  match column with
  | None => Ok None
  | Some value => let? c := to_sql_error (parse_conversation_id value) in Ok (Some c)
  end = Ok r <-> r = column /\ forall c, column = Some c -> uuid_canonical c = Some c.
Proof.
  destruct column as [c|]; [|split; [by intros [= <-]|by intros [-> _]]].
  destruct (to_sql_error (parse_conversation_id c)) as [c'|e] eqn:Hp; simpl.
  - apply to_sql_error_ok, parse_conversation_id_ok in Hp as [-> Hp].
    split; [intros [= <-]; split; [done|by intros ? [= <-]]|by intros [-> _]].
  - split; [discriminate|]. intros [-> Hc]. specialize (Hc c eq_refl).
    assert (parse_conversation_id c = Ok c) as Hok by by apply parse_conversation_id_ok.
    by rewrite Hok in Hp.
Qed.

Lemma row_to_run_iff id row run :
  row_to_run id row = Ok run <-> exists s, row_valid id row s /\ run = decoded id row s.
Proof.
  unfold row_to_run. split.
  - destruct (to_sql_error (parse_run_id id)) as [id'|] eqn:Hid; [|discriminate].
    apply to_sql_error_ok, parse_run_id_ok in Hid as [-> Hid].
    destruct (match c_conversation_id row with None => _ | _ => _ end) as [c|] eqn:Hc; [|discriminate].
    apply conversation_column_ok in Hc as [-> Hc].
    destruct (IdempotencyKey_from_str _) as [key|] eqn:Hk; [|discriminate]. simpl.
    pose proof (IdempotencyKey_from_str_ok _ _ Hk) as ->.
    destruct (parse_run_state _) as [s|] eqn:Hs; [|discriminate]. simpl.
    destruct (Z.ltb_spec (c_next_event_sequence row) 0); [discriminate|].
    intros [= <-]. exists s. split; [|done]. constructor; try done. by apply parse_run_state_ok.
  - intros (s & [Hid Hc Hk Hs Hn] & ->).
    assert (parse_run_id id = Ok id) as -> by by apply parse_run_id_ok. simpl.
    rewrite (proj2 (conversation_column_ok _ _) (conj eq_refl Hc)).
    rewrite Hk, Hs, parse_state_as_str. simpl.
    by destruct (Z.ltb_spec (c_next_event_sequence row) 0); [lia|].
Qed.

Lemma row_valid_unique id row s1 s2 : row_valid id row s1 -> row_valid id row s2 -> s1 = s2.
Proof. intros H1 H2. apply state_as_str_inj. by rewrite <- (rv_status _ _ _ H1), (rv_status _ _ _ H2). Qed.

Lemma row_valid_advance id row s next ts :
  row_valid id row s -> row_valid id (advance_row row next ts) next.
Proof. intros []. constructor; simpl; auto; lia. Qed.

Lemma run_by_id_decoded id row s db :
  runs db !! id = Some row -> row_valid id row s -> run_by_id id db = Ok (Some (decoded id row s)).
Proof.
  intros Hr Hv. unfold run_by_id. rewrite Hr.
  assert (row_to_run id row = Ok (decoded id row s)) as -> by (apply row_to_run_iff; eauto). done.
Qed.

Lemma require_run_ok id db run :
  require_run id db = Ok run <->
  exists row s, runs db !! id = Some row /\ row_valid id row s /\ run = decoded id row s.
Proof.
  unfold require_run, run_by_id. split.
  - destruct (runs db !! id) as [row|] eqn:Hr; [|discriminate].
    destruct (row_to_run id row) as [run'|] eqn:Hd; [|discriminate]. intros [= ->].
    apply row_to_run_iff in Hd as (s & Hv & ->). eauto.
  - intros (row & s & Hr & Hv & ->). rewrite Hr.
    assert (row_to_run id row = Ok (decoded id row s)) as -> by (apply row_to_run_iff; eauto). done.
Qed.

(** ** One appended event *)
Definition event_row (event : NewRunEvent) (ts : string) : EventRow :=
  mkEventRow (ne_kind event) (json_to_string (ne_payload event)) ts.
Definition stored_event (id : string) (row : RunRow) (event : NewRunEvent) (ts : string) : RunEvent :=
  mkRunEvent id (c_next_event_sequence row) (ne_kind event) (ne_payload event) ts.
Definition append_tables (id : string) (row row' : RunRow) (event : NewRunEvent) (ts : string)
    (db : RunDb) : RunDb :=
  set_run_events (<[(id, c_next_event_sequence row) := event_row event ts]> (run_events db))
    (set_runs (<[id := row']> (runs db)) db).

(** The place for the next event is free and its number stays in range. *)
Definition can_append (id : string) (row : RunRow) (db : RunDb) : Prop :=
  1 <= c_next_event_sequence row < i64_max
  /\ run_events db !! (id, c_next_event_sequence row) = None.

Lemma update_and_append_eq id row s next event ts ms db :
  runs db !! id = Some row -> row_valid id row s -> can_append id row db ->
  update_and_append (decoded id row s) next event ts ms db
  = match sync_message_state id next ms (append_tables id row (advance_row row next ts) event ts db) with
    | (Ok _, db2) => (Ok (stored_event id row event ts), db2)
    | (Err e, db2) => (Err e, db2)
    end.
Proof.
  intros Hr Hv [Hn He]. unfold update_and_append, tbind, tlift. simpl.
  unfold sql_sequence.
  destruct (Z.leb_spec (c_next_event_sequence row) i64_max); [|lia].
  destruct (Z.leb_spec (c_next_event_sequence row + 1) i64_max); [|lia].
  unfold update_run_guarded. rewrite Hr, (rv_status _ _ _ Hv), bool_decide_eq_true_2 by done.
  rewrite Z.eqb_refl. simpl.
  destruct (Z.ltb_spec (c_next_event_sequence row + 1) 1); [lia|]. simpl.
  unfold append_event, tbind, tlift, insert_event_row. simpl. unfold sql_sequence.
  destruct (Z.leb_spec (c_next_event_sequence row) i64_max); [|lia].
  destruct (Z.ltb_spec (c_next_event_sequence row) 1); [lia|]. simpl.
  rewrite He, lookup_insert_eq. simpl.
  unfold append_tables, advance_row, event_row. simpl.
  by destruct (sync_message_state id next ms _) as [[[]|] ?].
Qed.

Lemma update_and_append_ok id row s next event ts ms db e db' :
  runs db !! id = Some row -> row_valid id row s ->
  update_and_append (decoded id row s) next event ts ms db = (Ok e, db') ->
  can_append id row db
  /\ core db' = appended (core db) id row (advance_row row next ts) (event_row event ts)
  /\ e = stored_event id row event ts.
Proof.
  intros Hr Hv Hop.
  assert (can_append id row db) as Hc.
  { unfold update_and_append, tbind, tlift in Hop. simpl in Hop. unfold sql_sequence in Hop.
    destruct (Z.leb_spec (c_next_event_sequence row) i64_max); [|discriminate].
    destruct (Z.leb_spec (c_next_event_sequence row + 1) i64_max); [|discriminate].
    unfold update_run_guarded in Hop.
    rewrite Hr, (rv_status _ _ _ Hv), bool_decide_eq_true_2, Z.eqb_refl in Hop by done. simpl in Hop.
    destruct (Z.ltb_spec (c_next_event_sequence row + 1) 1); [discriminate|]. simpl in Hop.
    unfold append_event, tbind, tlift, insert_event_row in Hop. simpl in Hop. unfold sql_sequence in Hop.
    destruct (Z.leb_spec (c_next_event_sequence row) i64_max); [|discriminate].
    destruct (Z.ltb_spec (c_next_event_sequence row) 1); [discriminate|]. simpl in Hop.
    unfold can_append. destruct (run_events db !! _) eqn:He; [discriminate|]. split; [lia|done]. }
  split; [done|]. rewrite update_and_append_eq in Hop by done.
  pose proof (sync_message_state_core id next ms _ (append_tables id row (advance_row row next ts) event ts db) eq_refl) as Hk.
  destruct (sync_message_state _ _ _ _) as [[[]|] db2]; [|discriminate].
  injection Hop as <- <-. split; [exact Hk|reflexivity].
Qed.

(** [append_run_event] without the guards. *)
Lemma append_then_update_ok id row s event ts db e db' :
  runs db !! id = Some row -> row_valid id row s ->
  (stored <- append_event (decoded id row s) event ts ;
   next_sequence <- tlift (sql_sequence (run_next_event_sequence (decoded id row s) + 1)) ;
   update_run_sequence id next_sequence ts ;; tret stored) db = (Ok e, db') <->
  can_append id row db
  /\ db' = append_tables id row (advance_row row s ts) event ts db
  /\ e = stored_event id row event ts.
Proof.
  intros Hr Hv. unfold append_event, tbind, tlift, insert_event_row, update_run_sequence, can_append.
  simpl. unfold sql_sequence.
  destruct (Z.leb_spec (c_next_event_sequence row) i64_max); [|split; [discriminate|lia]].
  destruct (Z.ltb_spec (c_next_event_sequence row) 1); [split; [discriminate|lia]|]. simpl.
  rewrite Hr. destruct (run_events db !! _); [split; [discriminate|by intros ((_ & ?) & _)]|].
  destruct (Z.leb_spec (c_next_event_sequence row + 1) i64_max); [|split; [discriminate|lia]].
  simpl. rewrite Hr. destruct (Z.ltb_spec (c_next_event_sequence row + 1) 1); [lia|].
  unfold append_tables, advance_row, stored_event, event_row. simpl.
  rewrite <- (rv_status _ _ _ Hv). unfold tret. split.
  - intros [= <- <-]. split; [split; [lia|done]|done].
  - by intros (_ & -> & ->).
Qed.

(** ** The invariant under one append *)
Lemma ledger_can_append id row db :
  ledger (core db) -> runs db !! id = Some row -> c_next_event_sequence row < i64_max ->
  can_append id row db.
Proof.
  intros Hl Hr Hn. destruct (l_row _ Hl id row Hr) as [_ Hb]. split; [lia|].
  apply eq_None_not_Some. intros [ev He].
  destruct (l_event _ Hl _ _ _ He) as (_ & (row' & Hr' & Hlt) & _). simpl in Hr'.
  rewrite Hr in Hr'. simplify_eq. lia.
Qed.

Lemma ledger_appended k id row s next ts ev :
  ledger k -> k_runs k !! id = Some row -> row_valid id row s ->
  c_next_event_sequence row < i64_max ->
  (exists v, c_payload_json ev = json_to_string v) ->
  ledger (appended k id row (advance_row row next ts) ev).
Proof.
  intros Hl Hr Hv Hn Hj. destruct (l_row _ Hl _ _ Hr) as [_ Hb].
  constructor; simpl.
  - intros id' row' [[<- <-]|[Hne Hr']]%lookup_insert_Some; [|by apply (l_row _ Hl)].
    split; [eauto using row_valid_advance|]. simpl. lia.
  - intros id' n ev' [[[= <- <-] <-]|[Hne He]]%lookup_insert_Some.
    + split; [lia|]. split; [|done]. rewrite lookup_insert_eq. eexists. split; [done|]. simpl. lia.
    + destruct (l_event _ Hl _ _ _ He) as (? & (row' & Hr' & ?) & ?). split; [done|]. split; [|done].
      destruct (decide (id = id')) as [<-|Hid].
      * rewrite lookup_insert_eq. eexists. split; [done|]. rewrite Hr in Hr'. simplify_eq. simpl. lia.
      * rewrite lookup_insert_ne by done. eauto.
  - intros id' row' n [[<- <-]|[Hne Hr']]%lookup_insert_Some; simpl; intros Hb'.
    + destruct (decide (n = c_next_event_sequence row)) as [->|].
      * rewrite lookup_insert_eq. by eexists.
      * rewrite lookup_insert_ne by congruence. apply (l_complete _ Hl id row); [done|lia].
    + rewrite lookup_insert_ne by congruence. by apply (l_complete _ Hl id' row').
  - intros id1 id2 row1 row2 [[<- <-]|[? Hr1]]%lookup_insert_Some
      [[<- <-]|[? Hr2]]%lookup_insert_Some Hk; simpl in *; try done; eapply (l_key _ Hl); eauto.
  - intros id' row' c [[<- <-]|[? Hr']]%lookup_insert_Some Hc; simpl in *; eapply (l_conversation _ Hl); eauto.
Qed.

(** ** Operations that end in [Ok] *)
Lemma transition_run_ok (id : string) e n ev t db x db' :
  transition_run id e n ev t db = (Ok x, db') ->
  validate_event ev = Ok tt /\ transition_valid e n = true
  /\ exists row, runs db !! id = Some row /\ row_valid id row e /\ can_append id row db
       /\ core db' = appended (core db) id row (advance_row row n (now t)) (event_row ev (now t))
       /\ x = stored_event id row ev (now t).
Proof.
  unfold transition_run. intros Hop.
  apply tbind_ok in Hop as ([] & s1 & Hval & Hop). unfold tlift in Hval. injection Hval as Hval <-.
  apply transaction_ok, tbind_ok in Hop as (run & s2 & Hrun & Hop).
  unfold tread in Hrun. injection Hrun as Hrun <-.
  apply require_run_ok in Hrun as (row & s & Hr & Hv & ->). simpl in Hop.
  case_bool_decide as Heq; [subst s|discriminate]. simpl in Hop.
  destruct (is_terminal e) eqn:Ht; [discriminate|].
  destruct (validate_transition e n) as [[]|] eqn:Hvt; [|discriminate]. simpl in Hop.
  apply validate_transition_ok in Hvt.
  apply (update_and_append_ok id row e) in Hop as (Hc & Hcore & Hx); [|done..].
  split; [done|]. split; [done|]. eauto 10.
Qed.

Lemma append_run_event_ok (id : string) ev t db x db' :
  append_run_event id ev t db = (Ok x, db') ->
  exists row s, runs db !! id = Some row /\ row_valid id row s /\ is_terminal s = false
    /\ validate_event ev = Ok tt /\ can_append id row db
    /\ db' = append_tables id row (advance_row row s (now t)) ev (now t) db
    /\ x = stored_event id row ev (now t).
Proof.
  unfold append_run_event. intros Hop.
  apply tbind_ok in Hop as ([] & s1 & Hval & Hop). unfold tlift in Hval. injection Hval as Hval <-.
  apply transaction_ok, tbind_ok in Hop as (run & s2 & Hrun & Hop).
  unfold tread in Hrun. injection Hrun as Hrun <-.
  apply require_run_ok in Hrun as (row & s & Hr & Hv & ->). simpl in Hop.
  destruct (is_terminal s) eqn:Ht; [discriminate|].
  apply (append_then_update_ok id row s) in Hop as (Hc & Hdb & Hx); [|done..].
  exists row, s. done.
Qed.

Lemma find_key_None key db :
  find_key key db = None <-> forall id row, runs db !! id = Some row -> c_idempotency_key row <> key.
Proof.
  unfold find_key. destruct (filter _ _) as [|[id row] l] eqn:Hf; simpl.
  - split; [|done]. intros _ id row Hr Hk.
    assert ((id, row) ∈ filter (fun p : string * RunRow => c_idempotency_key p.2 = key)
                          (map_to_list (runs db))) as Hin
      by by apply list_elem_of_filter; split; [|apply elem_of_map_to_list].
    rewrite Hf in Hin. by apply elem_of_nil in Hin.
  - split; [discriminate|]. intros Hno. exfalso.
    assert ((id, row) ∈ filter (fun p : string * RunRow => c_idempotency_key p.2 = key)
                          (map_to_list (runs db))) as Hin by (rewrite Hf; left).
    apply list_elem_of_filter in Hin as [Hk Hin%elem_of_map_to_list]. by eapply Hno.
Qed.

Lemma find_key_Some key db id row :
  find_key key db = Some (id, row) -> runs db !! id = Some row /\ c_idempotency_key row = key.
Proof.
  unfold find_key. intros Hh%head_Some_elem_of.
  by apply list_elem_of_filter in Hh as [Hk Hin%elem_of_map_to_list].
Qed.

Lemma ledger_find_key key db id row :
  ledger (core db) -> runs db !! id = Some row -> c_idempotency_key row = key ->
  find_key key db = Some (id, row).
Proof.
  intros Hl Hr Hk. destruct (find_key key db) as [[id' row']|] eqn:Hf.
  - apply find_key_Some in Hf as [Hr' Hk'].
    assert (id = id') as <- by (eapply (l_key _ Hl); eauto; congruence). congruence.
  - by destruct (proj1 (find_key_None key db) Hf id row Hr).
Qed.

Lemma create_or_get_run_ok r (fresh : string) t db run db' :
  create_or_get_run r fresh t db = (Ok run, db') ->
  validate_new_run r = Ok tt
  /\ ((db' = db /\ exists id row s, find_key (nr_idempotency_key r) db = Some (id, row)
          /\ row_valid id row s /\ run = decoded id row s
          /\ c_request_digest row = nr_request_digest r)
      \/ (find_key (nr_idempotency_key r) db = None /\ runs db !! fresh = None
          /\ (forall c, nr_conversation_id r = Some c -> is_Some (conversations db !! c))
          /\ run_events db !! (fresh, 1) = None
          /\ db' = admitted_tables r fresh (now t) db
          /\ row_valid fresh (admitted_row r (now t)) Queued
          /\ run = decoded fresh (admitted_row r (now t)) Queued)).
Proof.
  unfold create_or_get_run. intros Hop.
  apply tbind_ok in Hop as ([] & s1 & Hval & Hop). unfold tlift in Hval. injection Hval as Hval <-.
  split; [done|]. apply transaction_ok, tbind_ok in Hop as (found & s2 & Hf & Hop).
  unfold tread in Hf. injection Hf as Hf <-. unfold run_by_idempotency_key in Hf.
  destruct (find_key _ db) as [[id row]|] eqn:Hk.
  - left. destruct (row_to_run id row) as [run'|] eqn:Hd; [|discriminate]. injection Hf as <-.
    apply row_to_run_iff in Hd as (s & Hv & ->). simpl in Hop.
    case_bool_decide; [|discriminate]. unfold tret in Hop. simplify_eq. eauto 10.
  - right. injection Hf as <-. unfold tbind, insert_run_row, insert_event_row in Hop. simpl in Hop.
    destruct (runs db !! fresh) eqn:Hr; [discriminate|]. rewrite Hk in Hop.
    destruct (match nr_conversation_id r with Some c => _ | None => _ end) eqn:Hc; [discriminate|].
    simpl in Hop. destruct (run_events db !! (fresh, 1)) eqn:He; [discriminate|].
    rewrite lookup_insert_eq in Hop. unfold tread, tlift, run_by_id in Hop. simpl in Hop.
    rewrite lookup_insert_eq in Hop.
    destruct (row_to_run fresh _) as [run'|] eqn:Hd; [|discriminate]. simpl in Hop.
    apply row_to_run_iff in Hd as (s & Hv & ->). injection Hop as <- <-.
    pose proof (rv_status _ _ _ Hv) as Hst. simpl in Hst.
    assert (s = Queued) as -> by by apply state_as_str_inj.
    repeat split; try done; try apply Hv.
    intros c Hcc. rewrite Hcc in Hc. apply bool_decide_eq_false in Hc.
    by apply not_eq_None_Some.
Qed.

(** ** Evolution *)
#[local] Instance evolves_preorder : PreOrder evolves.
Proof.
  split.
  - intros k. split; [|done]. intros id row Hr. exists row. split; [done|constructor].
  - intros k1 k2 k3 [H12 E12] [H23 E23]. split; [|by etrans].
    intros id row Hr. destruct (H12 id row Hr) as (row2 & Hr2 & Hs2).
    destruct (H23 id row2 Hr2) as (row3 & Hr3 & Hs3). exists row3. split; [done|by etrans].
Qed.

Lemma evolves_appended k id row s next ts ev :
  k_runs k !! id = Some row -> row_valid id row s -> is_terminal s = false ->
  next = s \/ transition_valid s next = true ->
  k_events k !! (id, c_next_event_sequence row) = None ->
  evolves k (appended k id row (advance_row row next ts) ev).
Proof.
  intros Hr Hv Ht Hn He. split; simpl.
  - intros id' row' Hr'. destruct (decide (id = id')) as [<-|Hne].
    + rewrite lookup_insert_eq. eexists. split; [done|]. rewrite Hr in Hr'. simplify_eq.
      apply rtc_once. by econstructor.
    + rewrite lookup_insert_ne by done. exists row'. split; [done|constructor].
  - by apply insert_subseteq.
Qed.

Lemma row_step_terminal id row s row' :
  row_valid id row s -> is_terminal s = true -> rtc (row_step id) row row' -> row' = row.
Proof.
  intros Hv Ht Hs. inversion Hs as [|? row1 ? H1]; [done|]. subst.
  inversion H1 as [? s' next ts Hv']. subst. by rewrite (row_valid_unique _ _ _ _ Hv' Hv), Ht in *.
Qed.

(** What never changes in a row. *)
Lemma row_step_fixed id row row' :
  rtc (row_step id) row row' ->
  c_idempotency_key row' = c_idempotency_key row /\ c_request_digest row' = c_request_digest row
  /\ c_conversation_id row' = c_conversation_id row /\ c_created_at row' = c_created_at row
  /\ c_next_event_sequence row <= c_next_event_sequence row'.
Proof.
  induction 1 as [|row1 row2 row3 [row s next ts] _ IH]; [auto with lia|].
  simpl in *. destruct IH as (-> & -> & -> & -> & ?). repeat split. lia.
Qed.

Lemma ledger_admitted r fresh ts db `{!ExternalLaws} :
  ledger (core db) -> runs db !! fresh = None ->
  find_key (nr_idempotency_key r) db = None ->
  (forall c, nr_conversation_id r = Some c -> is_Some (conversations db !! c)) ->
  row_valid fresh (admitted_row r ts) Queued ->
  ledger (core (admitted_tables r fresh ts db)).
Proof.
  intros Hl Hf Hk Hc Hv. rewrite find_key_None in Hk. constructor; simpl.
  - intros id row [[<- <-]|[? Hr]]%lookup_insert_Some; [|by apply (l_row _ Hl)].
    split; [eauto|]. simpl. unfold i64_max. lia.
  - intros id n ev [[[= <- <-] <-]|[? He]]%lookup_insert_Some.
    + split; [lia|]. split.
      * rewrite lookup_insert_eq. eexists. split; [done|]. simpl. lia.
      * exists (VObject []). symmetry. apply json_empty_object.
    + destruct (l_event _ Hl _ _ _ He) as (? & (row & Hr & ?) & ?). simpl in Hr.
      split; [done|]. split; [|done]. rewrite lookup_insert_ne by congruence. eauto.
  - intros id row n [[<- <-]|[? Hr]]%lookup_insert_Some; simpl; intros Hb.
    + replace n with 1 by lia. rewrite lookup_insert_eq. by eexists.
    + rewrite lookup_insert_ne by congruence. by eapply (l_complete _ Hl).
  - intros id1 id2 row1 row2 [[<- <-]|[? Hr1]]%lookup_insert_Some
      [[<- <-]|[? Hr2]]%lookup_insert_Some Heq; simpl in *; try done.
    + by destruct (Hk id2 row2 Hr2).
    + by destruct (Hk id1 row1 Hr1).
    + by eapply (l_key _ Hl).
  - intros id row c [[<- <-]|[? Hr]]%lookup_insert_Some Hcc; simpl in *; [by apply Hc|].
    by eapply (l_conversation _ Hl).
Qed.

Lemma evolves_admitted r fresh ts db :
  runs db !! fresh = None -> run_events db !! (fresh, 1) = None ->
  evolves (core db) (core (admitted_tables r fresh ts db)).
Proof.
  intros Hf He. split; simpl; [|by apply insert_subseteq].
  intros id row Hr. rewrite lookup_insert_ne by congruence. exists row. split; [done|constructor].
Qed.

Lemma row_step_path id row row' s :
  rtc (row_step id) row row' -> row_valid id row s ->
  exists s', row_valid id row' s' /\ rtc (fun a b => transition_valid a b = true) s s'.
Proof.
  intros Hs. revert s. induction Hs as [|row1 row2 row3 Hst _ IH]; intros s Hv.
  { exists s. split; [done|constructor]. }
  destruct Hst as [row s0 next ts Hv0 Ht Hn]. rewrite (row_valid_unique _ _ _ _ Hv Hv0) in *.
  destruct (IH next) as (s' & Hv' & Hp); [by eapply row_valid_advance|]. exists s'. split; [done|].
  destruct Hn as [->|Hn]; [done|]. by eapply rtc_l.
Qed.

Lemma created_run_row r (fresh : string) t db run db' :
  create_or_get_run r fresh t db = (Ok run, db') ->
  exists row, runs db' !! run_id run = Some row /\ c_idempotency_key row = nr_idempotency_key r
    /\ c_request_digest row = nr_request_digest r
    /\ c_created_at row = run_created_at run.
Proof.
  intros Hop. apply create_or_get_run_ok in Hop
    as [_ [(-> & id & row & s & Hf & Hv & -> & Hd)|(_ & _ & _ & _ & -> & Hv & ->)]].
  - apply find_key_Some in Hf as [Hr Hk]. exists row. done.
  - eexists. simpl. rewrite lookup_insert_eq. done.
Qed.

Lemma create_existing r fresh t db id row :
  ledger (core db) -> runs db !! id = Some row ->
  c_idempotency_key row = nr_idempotency_key r -> validate_new_run r = Ok tt ->
  create_or_get_run r fresh t db
  = match row_to_run id row with
    | Ok run => if bool_decide (c_request_digest row = nr_request_digest r)
                then (Ok run, db) else (Err IdempotencyConflict, db)
    | Err e => (Err e, db)
    end.
Proof.
  intros Hl Hr Hk Hval. unfold create_or_get_run, tbind at 1, tlift at 1. rewrite Hval.
  unfold transaction, tbind at 1, tread, run_by_idempotency_key.
  rewrite (ledger_find_key _ _ _ _ Hl Hr Hk).
  destruct (row_to_run id row) as [run|e] eqn:Hd; [|done].
  apply row_to_run_iff in Hd as (s & _ & ->). simpl. by case_bool_decide.
Qed.

(** ** Recovery *)
Definition interruptible_run (db : RunDb) (id : string) : Prop :=
  exists row s, runs db !! id = Some row /\ row_valid id row s /\ is_terminal s = false.

(** Every listed run was interrupted by one recovery event. *)
Definition interrupted_by (t : Tick) (db db' : RunDb) (id : string) : Prop :=
  exists row, runs db !! id = Some row
    /\ runs db' !! id = Some (advance_row row Interrupted (now t))
    /\ run_events db' !! (id, c_next_event_sequence row) = Some (event_row recovery_event (now t)).

Lemma transition_to_interrupted s : is_terminal s = false -> transition_valid s Interrupted = true.
Proof. by destruct s. Qed.

Lemma recover_each_ok `{!ExternalLaws} t ids db db' :
  NoDup ids -> Forall (interruptible_run db) ids -> ledger (core db) ->
  recover_each t ids db = (Ok tt, db') ->
  ledger (core db') /\ evolves (core db) (core db')
  /\ (forall id, id ∉ ids -> runs db' !! id = runs db !! id
                 /\ forall n, run_events db' !! (id, n) = run_events db !! (id, n))
  /\ Forall (interrupted_by t db db') ids.
Proof.
  revert db. induction ids as [|id ids IH]; intros db Hnd Hall Hl Hop.
  { simpl in Hop. unfold tret in Hop. simplify_eq. split; [done|]. split; [reflexivity|]. split; [done|constructor]. }
  apply NoDup_cons in Hnd as [Hnin Hnd]. apply Forall_cons in Hall as [(row & s & Hr & Hv & Ht) Hall].
  cbn [recover_each] in Hop. unfold tbind at 1, tlift at 1 in Hop.
  rewrite (proj2 (parse_run_id_ok id id) (conj eq_refl (rv_id _ _ _ Hv))) in Hop.
  unfold tbind at 1, tread at 1 in Hop. rewrite (run_by_id_decoded id row s) in Hop by done.
  unfold tbind at 1, tlift at 1 in Hop. simpl in Hop.
  apply tbind_ok in Hop as (e & db1 & Hupd & Hop).
  apply (update_and_append_ok id row s) in Hupd as (Hc & Hcore & _); [|done..].
  assert (ledger (core db1)) as Hl1.
  { rewrite Hcore. apply (ledger_appended _ _ _ s); try done; [apply Hc|]. by eexists. }
  assert (runs db1 = <[id := advance_row row Interrupted (now t)]> (runs db)) as Hr1
    by exact (f_equal k_runs Hcore).
  assert (run_events db1 = <[(id, c_next_event_sequence row) := event_row recovery_event (now t)]>
            (run_events db)) as He1 by exact (f_equal k_events Hcore).
  apply IH in Hop as (Hl' & Hev & Hsame & Hdone); [|done| |done].
  2:{ eapply Forall_impl; [apply Forall_and; split; [exact Hall|apply Forall_forall; intros x Hx; exact Hx]|].
      intros id' [(row' & s' & Hr' & Hv' & Ht') Hin]. exists row', s'. rewrite Hr1.
      rewrite lookup_insert_ne by (by intros ->). done. }
  split; [done|]. split; [|split].
  - etrans; [|exact Hev]. rewrite Hcore.
    apply (evolves_appended _ _ _ s); try done; [by right; apply transition_to_interrupted|apply Hc].
  - intros id' [Hne Hn']%not_elem_of_cons. destruct (Hsame id' Hn') as [-> Hs].
    rewrite Hr1, lookup_insert_ne by done. split; [done|]. intros n.
    by rewrite Hs, He1, lookup_insert_ne by congruence.
  - constructor.
    + destruct (Hsame id Hnin) as [Hs1 Hs2]. exists row. split; [done|].
      by rewrite Hs1, Hs2, Hr1, He1, !lookup_insert_eq.
    + eapply Forall_impl; [apply Forall_and; split; [exact Hdone|apply Forall_forall; intros x Hx; exact Hx]|].
      intros id' [(row' & Hr' & Hd1 & Hd2) Hin]. exists row'. split; [|done].
      rewrite <- Hr', Hr1, lookup_insert_ne; [done|by intros ->].
Qed.

Lemma elem_of_interrupted_ids id db :
  id ∈ interrupted_ids db <->
  exists row, runs db !! id = Some row /\ is_interruptible (c_status row) = true.
Proof.
  unfold interrupted_ids. rewrite list_elem_of_fmap. split.
  - intros ([id' row] & -> & Hin). rewrite merge_sort_Permutation in Hin.
    apply list_elem_of_filter in Hin as [Hi Hin%elem_of_map_to_list]. eauto.
  - intros (row & Hr & Hi). exists (id, row). split; [done|]. rewrite merge_sort_Permutation.
    apply list_elem_of_filter. split; [done|by apply elem_of_map_to_list].
Qed.

Lemma interrupted_ids_NoDup db : NoDup (interrupted_ids db).
Proof.
  unfold interrupted_ids. rewrite merge_sort_Permutation.
  eapply sublist_NoDup; [apply (NoDup_fst_map_to_list (runs db))|].
  apply fmap_sublist, sublist_filter.
Qed.

Lemma interruptible_status s :
  is_interruptible (state_as_str s) = true <-> s = Starting \/ s = Running \/ s = CancelRequested.
Proof.
  destruct s; vm_compute; split; auto; try discriminate; intros [?|[?|?]]; discriminate.
Qed.

Lemma interrupted_ids_interruptible db :
  ledger (core db) -> Forall (interruptible_run db) (interrupted_ids db).
Proof.
  intros Hl. apply Forall_forall. intros id (row & Hr & Hi)%elem_of_interrupted_ids.
  destruct (l_row _ Hl id row Hr) as [[s Hv] _]. exists row, s. repeat split; try apply Hv; [done|].
  rewrite (rv_status _ _ _ Hv) in Hi. apply interruptible_status in Hi as [->|[->| ->]]; done.
Qed.

Lemma recover_interrupted_ok `{!ExternalLaws} t db n db' :
  ledger (core db) -> recover_interrupted_on t db = (Ok n, db') ->
  n = Z.of_nat (length (interrupted_ids db))
  /\ ledger (core db') /\ evolves (core db) (core db')
  /\ (forall id, id ∉ interrupted_ids db -> runs db' !! id = runs db !! id
                 /\ forall n, run_events db' !! (id, n) = run_events db !! (id, n))
  /\ Forall (interrupted_by t db db') (interrupted_ids db).
Proof.
  intros Hl Hop. unfold recover_interrupted_on in Hop.
  apply transaction_ok, tbind_ok in Hop as (ids & db0 & Hi & Hop).
  unfold tread in Hi. injection Hi as <- <-. apply tbind_ok in Hop as ([] & db1 & Hr & Hop). unfold tret in Hop. injection Hop as <- <-.
  split; [done|]. eapply recover_each_ok; eauto using interrupted_ids_NoDup, interrupted_ids_interruptible.
Qed.

(** A run recovery can append to: its next number is in range and it belongs to
    no assistant turn. *)
Definition recoverable (db : RunDb) (id : string) : Prop :=
  interruptible_run db id
  /\ (forall row, runs db !! id = Some row -> c_next_event_sequence row < i64_max)
  /\ assistant_turns db !! id = None.

(** A run that was starting, running or being cancelled when the process stopped. *)
Definition active_run (db : RunDb) (id : string) (s : RunState) (row : RunRow) : Prop :=
  runs db !! id = Some row /\ row_valid id row s
  /\ (s = Starting \/ s = Running \/ s = CancelRequested).

Lemma elem_of_interrupted_active db id :
  ledger (core db) -> id ∈ interrupted_ids db <-> exists s row, active_run db id s row.
Proof.
  intros Hl. rewrite elem_of_interrupted_ids. split.
  - intros (row & Hr & Hi). destruct (l_row _ Hl id row Hr) as [[s Hv] _]. exists s, row.
    split; [done|]. split; [done|]. apply interruptible_status. by rewrite <- (rv_status _ _ _ Hv).
  - intros (s & row & Hr & Hv & Hs). exists row. split; [done|].
    rewrite (rv_status _ _ _ Hv). by apply interruptible_status.
Qed.

Lemma ready_to_recover db :
  ledger (core db) ->
  (forall id s row, active_run db id s row ->
     c_next_event_sequence row < i64_max /\ assistant_turns db !! id = None) ->
  Forall (recoverable db) (interrupted_ids db).
Proof.
  intros Hl Hready. apply Forall_forall. intros id Hin.
  pose proof (proj1 (Forall_forall _ _) (interrupted_ids_interruptible db Hl) id Hin) as Hi.
  apply elem_of_interrupted_active in Hin as (s & row & Ha); [|done]. destruct (Hready id s row Ha) as [Hn Ht].
  split; [done|]. split; [|done]. intros row' Hr'. destruct Ha as [Hr _]. by simplify_eq.
Qed.

Lemma recover_each_total `{!ExternalLaws} t ids db :
  NoDup ids -> Forall (recoverable db) ids -> ledger (core db) ->
  exists db', recover_each t ids db = (Ok tt, db').
Proof.
  revert db. induction ids as [|id ids IH]; intros db Hnd Hall Hl; [by eexists|].
  apply NoDup_cons in Hnd as [Hnin Hnd].
  apply Forall_cons in Hall as [((row & s & Hr & Hv & Ht) & Hn & Htu) Hall].
  cbn [recover_each]. unfold tbind at 1, tlift at 1.
  rewrite (proj2 (parse_run_id_ok id id) (conj eq_refl (rv_id _ _ _ Hv))).
  unfold tbind at 1, tread at 1. rewrite (run_by_id_decoded id row s) by done.
  unfold tbind at 1, tlift at 1. simpl.
  unfold tbind at 1. rewrite (update_and_append_eq id row s) by (try done; apply ledger_can_append; auto).
  rewrite sync_message_state_none by done. apply IH; [done| |].
  - apply Forall_forall. intros id' Hin.
    destruct (proj1 (Forall_forall _ _) Hall id' Hin) as ((row' & s' & Hr' & Hv' & Ht') & Hn' & Htu').
    assert (runs (append_tables id row (advance_row row Interrupted (now t)) recovery_event (now t) db) !! id'
            = runs db !! id') as Heq by (simpl; by rewrite lookup_insert_ne by (by intros ->)).
    split; [exists row', s'; by rewrite Heq|]. split; [by rewrite Heq|done].
  - change (core (append_tables _ _ _ _ _ db))
      with (appended (core db) id row (advance_row row Interrupted (now t)) (event_row recovery_event (now t))).
    apply (ledger_appended _ _ _ s); try done; [by apply Hn|by eexists].
Qed.

Lemma recovered_nothing_left t db db' :
  Forall (interrupted_by t db db') (interrupted_ids db) ->
  (forall id, id ∉ interrupted_ids db -> runs db' !! id = runs db !! id
     /\ forall n, run_events db' !! (id, n) = run_events db !! (id, n)) ->
  interrupted_ids db' = [].
Proof.
  intros Hdone Hsame. apply elem_of_nil_inv. intros id (row & Hr & Hi)%elem_of_interrupted_ids.
  destruct (decide (id ∈ interrupted_ids db)) as [Hin|Hnin].
  - destruct (proj1 (Forall_forall _ _) Hdone id Hin) as (row0 & _ & Hr' & _).
    rewrite Hr in Hr'. by simplify_eq.
  - destruct (Hsame id Hnin) as [Heq _]. apply Hnin, elem_of_interrupted_ids. exists row.
    by rewrite <- Heq.
Qed.

(** ** Steps *)
Lemma guarded_transaction_err {A B} (r : result StoreError A) (m : Tx RunDb StoreError B) db e db' :
  (tlift r ;; transaction m) db = (Err e, db') -> db' = db.
Proof.
  unfold tbind, tlift. destruct r; [|congruence]. by intros [-> _]%transaction_err.
Qed.

Lemma forget_ok {A} (r : result StoreError A * RunDb) db' :
  forget r = (Ok tt, db') <-> exists a, r = (Ok a, db').
Proof. destruct r as [[a|e] db]; unfold forget; simpl; split; [|intros [? ?]| |intros [? ?]]; naive_solver. Qed.
Lemma forget_err {A} (r : result StoreError A * RunDb) e db' :
  forget r = (Err e, db') <-> r = (Err e, db').
Proof. destruct r as [[a|e'] db]; unfold forget; simpl; naive_solver. Qed.

Lemma transaction_unchanged {A} (m : Tx RunDb StoreError A) db e db' :
  transaction m db = (Err e, db') -> db' = db.
Proof. by intros [-> _]%transaction_err. Qed.

(** An operation that fails changes nothing. *)
Lemma exec_err op t db e db' : exec op t db = (Err e, db') -> db' = db.
Proof.
  destruct op; simpl; rewrite ?forget_err.
  - unfold create_conversation. destruct (conversations db !! _); discriminate.
  - unfold set_conversation_backend. destruct (match foreign with Some _ => _ | None => _ end); [congruence|].
    destruct (conversations db !! _); congruence.
  - apply guarded_transaction_err.
  - apply guarded_transaction_err.
  - apply guarded_transaction_err.
  - unfold record_audit, tbind, tlift.
    destruct (validate_audit_label _ _); [|congruence].
    destruct (validate_audit_label _ _); [|congruence].
    destruct (match na_run_id event with Some _ => _ | None => _ end); congruence.
  - apply transaction_unchanged.
  - apply transaction_unchanged.
  - apply transaction_unchanged.
  - apply transaction_unchanged.
  - apply transaction_unchanged.
  - apply guarded_transaction_err.
  - apply transaction_unchanged.
  - apply transaction_unchanged.
Qed.

(** A change outside the run and event tables. *)
Lemma ledger_conversations k k' :
  ledger k -> k_conversations k ⊆ k_conversations k' ->
  k_runs k' = k_runs k -> k_events k' = k_events k -> ledger k' /\ evolves k k'.
Proof.
  intros [] Hsub Hr He. split; constructor; rewrite ?Hr, ?He; try done.
  - intros id row c Hrow Hc. destruct (l_conversation0 id row c Hrow Hc) as [x Hx].
    exists x. by eapply lookup_weaken.
  - intros id row Hrow. exists row. split; [done|constructor].
Qed.

Lemma outside_ledger k db :
  ledger k -> outside k db -> ledger (core db) /\ evolves k (core db).
Proof. intros Hl (Hc & Hr & He). by apply ledger_conversations. Qed.

Lemma keeps_outside {A} db (m : Tx RunDb StoreError A) r db' :
  ledger (core db) -> keeps (outside (core db)) m -> m db = (r, db') ->
  ledger (core db') /\ evolves (core db) (core db').
Proof.
  intros Hl Hk Hm. apply outside_ledger; [done|]. specialize (Hk db (outside_refl db)). by rewrite Hm in Hk.
Qed.

(** The run a turn submission admits. *)
Definition turn_run (s : V4SubmitTurn) : NewRun :=
  mkNewRun (Some (st_conversation_id s)) (st_idempotency_key s) (submit_digest s).

Lemma insert_run_row_ok id row db x db' :
  insert_run_row id row db = (Ok x, db') ->
  runs db !! id = None /\ find_key (c_idempotency_key row) db = None
  /\ (forall c, c_conversation_id row = Some c -> is_Some (conversations db !! c))
  /\ db' = set_runs (<[id := row]> (runs db)) db.
Proof.
  unfold insert_run_row. destruct (runs db !! id) eqn:Hr; [discriminate|].
  destruct (find_key _ db) eqn:Hk; [discriminate|].
  destruct (c_conversation_id row) as [c|]; [case_bool_decide as Hc; [discriminate|]|];
    intros [= _ <-]; (split; [done|split; [done|split; [|done]]]).
  - intros c' [= <-]. by apply not_eq_None_Some.
  - done.
Qed.

Lemma insert_event_row_ok id n ev db x db' :
  insert_event_row id n ev db = (Ok x, db') ->
  1 <= n /\ run_events db !! (id, n) = None /\ is_Some (runs db !! id)
  /\ db' = set_run_events (<[(id, n) := ev]> (run_events db)) db.
Proof.
  unfold insert_event_row. destruct (Z.ltb_spec n 1); [discriminate|].
  destruct (run_events db !! _) eqn:He; [discriminate|]. destruct (runs db !! id) eqn:Hr; [|discriminate].
  intros [= _ <-]. by eauto.
Qed.

(** A new turn is the admission of its run, followed by writes to the assistant
    tables. *)
Lemma insert_turn_admits s run msg now db sub db' :
  insert_turn s run msg now db = (Ok sub, db') ->
  exists ts, runs db !! run = None /\ find_key (st_idempotency_key s) db = None
    /\ is_Some (conversations db !! st_conversation_id s) /\ run_events db !! (run, 1) = None
    /\ outside (core (admitted_tables (turn_run s) run ts db)) db'.
Proof.
  unfold insert_turn. intros Hop. apply tbind_ok in Hop as (ts & db0 & Hs & Hop).
  unfold tlift in Hs. injection Hs as _ <-.
  apply tbind_ok in Hop as (x & db1 & Hr & Hop). apply insert_run_row_ok in Hr as (Hr & Hk & Hc & ->).
  apply tbind_ok in Hop as (y & db2 & He & Hop). apply insert_event_row_ok in He as (_ & He & _ & ->).
  exists ts. split; [done|]. split; [done|]. split; [by apply Hc|]. split; [done|].
  match type of Hop with ?m ?d = _ =>
    assert (keeps (outside (core d)) m) as Hk2 by keeps_solve;
    specialize (Hk2 d (outside_refl d)); rewrite Hop in Hk2; exact Hk2
  end.
Qed.

Lemma v4_admit_turn_ok s (run : string) msg now db sub db' :
  v4_admit_turn s run msg now db = (Ok sub, db') ->
  V4SubmitTurn_validate s = Ok tt
  /\ ((db' = db /\ exists id row existing, find_key (st_idempotency_key s) db = Some (id, row)
          /\ row_to_run id row = Ok existing /\ duplicate_submission existing s db = Ok sub)
      \/ (find_key (st_idempotency_key s) db = None
          /\ (exists c, conversation_row (st_conversation_id s) db = Ok (Some c))
          /\ active_runs (st_conversation_id s) db <= 0
          /\ last_content_sequence (st_conversation_id s) db <= MAX_SEQUENCE - 2
          /\ insert_turn s run msg now db = (Ok sub, db'))).
Proof.
  unfold v4_admit_turn. intros Hop. apply tbind_ok in Hop as ([] & db0 & Hv & Hop).
  unfold tlift in Hv. injection Hv as Hv <-. split; [by destruct (V4SubmitTurn_validate s) as [[]|]|].
  apply transaction_ok, tbind_ok in Hop as (found & db0 & Hf & Hop).
  unfold tread in Hf. injection Hf as Hf <-. unfold run_by_idempotency_key in Hf.
  destruct (find_key _ db) as [[id row]|] eqn:Hk.
  - left. destruct (row_to_run id row) as [run'|] eqn:Hd; [|discriminate]. injection Hf as <-.
    unfold tread in Hop. injection Hop as Hop <-. split; [done|]. by exists id, row, run'.
  - right. injection Hf as <-. split; [done|]. apply tbind_ok in Hop as (c & db0 & Hc & Hop).
    unfold tread in Hc. injection Hc as Hc <-. destruct c as [c|]; [|discriminate].
    split; [by exists c|]. apply tbind_ok in Hop as (x & db0 & Ha & Hop).
    unfold tread in Ha. destruct (Z.ltb_spec 0 (active_runs (st_conversation_id s) db)); [discriminate|].
    injection Ha as _ <-. split; [done|]. apply tbind_ok in Hop as (y & db0 & Hl & Hop). unfold tread in Hl.
    destruct (Z.ltb_spec (MAX_SEQUENCE - 2) (last_content_sequence (st_conversation_id s) db)); [discriminate|].
    injection Hl as _ <-. done.
Qed.

Lemma v4_admit_turn_ledger `{!ExternalLaws} s fresh msg now db sub db' :
  typed (OpV4Admit s fresh msg) -> ledger (core db) -> v4_admit_turn s fresh msg now db = (Ok sub, db') ->
  ledger (core db') /\ evolves (core db) (core db').
Proof.
  intros (Hu & Hc & Hk & _) Hl Hop. apply v4_admit_turn_ok in Hop as [_ [[-> _]|(_ & _ & _ & _ & Hop)]]; [by split|].
  apply insert_turn_admits in Hop as (ts & Hr & Hf & Hconv & He & Hout).
  assert (row_valid fresh (admitted_row (turn_run s) ts) Queued) as Hv.
  { constructor; simpl; try done. by intros c [= <-]. }
  assert (ledger (core (admitted_tables (turn_run s) fresh ts db))) as Hl1.
  { apply ledger_admitted; try done. by intros c [= <-]. }
  destruct (outside_ledger _ _ Hl1 Hout) as [Hl' Hev]. split; [done|]. etrans; [|exact Hev]. by apply evolves_admitted.
Qed.

Lemma exec_ok `{!ExternalLaws} op t db db' :
  typed op -> ledger (core db) -> exec op t db = (Ok tt, db') ->
  ledger (core db') /\ evolves (core db) (core db').
Proof.
  intros Hty Hl.
  destruct op as [id|id b f|r fresh|id e n ev|id ev|ev| |ti fr|id ti|id pa|id|s fr msg|id p msg|id st];
    simpl; rewrite ?forget_ok.
  - unfold create_conversation. destruct (conversations db !! _) eqn:Hc; intros [= <-]; [done|].
    apply ledger_conversations; try done. by apply insert_subseteq.
  - unfold set_conversation_backend. intros [a Hop].
    destruct (match f with Some _ => _ | None => _ end); [discriminate|].
    destruct (conversations db !! _); [|discriminate]. injection Hop as _ <-.
    by apply ledger_conversations.
  - intros [run Hop]. apply create_or_get_run_ok in Hop as [_ [(-> & _)|(Hk & Hf & Hc & He & -> & Hv & _)]].
    + by split.
    + split; [by apply ledger_admitted|by apply evolves_admitted].
  - intros [x Hop]. apply transition_run_ok in Hop as (_ & Ht & row & Hr & Hv & Hc & -> & _).
    split; [apply (ledger_appended _ _ _ e); try done; [apply Hc|by eexists]|].
    apply (evolves_appended _ _ _ e); try done; [by destruct e|by right|apply Hc].
  - intros [x Hop]. apply append_run_event_ok in Hop as (row & s & Hr & Hv & Ht & _ & Hc & -> & _).
    change (core (append_tables _ _ _ _ _ db))
      with (appended (core db) id row (advance_row row s (now t)) (event_row ev (now t))).
    split; [apply (ledger_appended _ _ _ s); try done; [apply Hc|by eexists]|].
    apply (evolves_appended _ _ _ s); try done; [by left|apply Hc].
  - unfold record_audit, tbind, tlift. intros [a Hop].
    destruct (validate_audit_label _ _); [|discriminate].
    destruct (validate_audit_label _ _); [|discriminate].
    destruct (match na_run_id ev with Some _ => _ | None => _ end); [discriminate|].
    injection Hop as _ <-. by apply ledger_conversations.
  - intros [n Hop]. apply recover_interrupted_ok in Hop as (_ & ? & ? & _); done.
  - intros [c Hop]. by eapply keeps_outside; [|apply insert_conversation_outside|].
  - intros [c Hop]. by eapply keeps_outside; [|apply insert_conversation_outside|].
  - intros [c Hop]. by eapply keeps_outside; [|apply v4_patch_conversation_outside|].
  - intros Hop. by eapply keeps_outside; [|apply v4_delete_conversation_outside|].
  - intros [c Hop]. by eapply v4_admit_turn_ledger.
  - intros [c Hop]. by eapply keeps_outside; [|apply v4_append_content_outside|].
  - intros Hop. by eapply keeps_outside; [|apply v4_finalize_turn_outside|].
Qed.

Lemma steps_ledger `{!ExternalLaws} db db' :
  ledger (core db) -> rtc store_step db db' ->
  ledger (core db') /\ evolves (core db) (core db').
Proof.
  intros Hl. induction 1 as [db|db1 db2 db3 [op t db r db' Hty Hop] _ IH]; [by split|].
  assert (ledger (core db') /\ evolves (core db) (core db')) as [Hl' Hev].
  { destruct r as [[]|e]; [by eapply exec_ok|]. apply exec_err in Hop as ->. by split. }
  destruct (IH Hl') as [? ?]. split; [done|by etrans].
Qed.

Lemma ledger_empty : ledger (core empty_run_db).
Proof.
  constructor; simpl; intros *; rewrite ?lookup_empty; try discriminate.
Qed.

(** ** Abstraction: a run is a state and a history *)

(** Run [id] is in state [s] and its history is the list [h] of events. *)
Definition represents (db : RunDb) (id : string) (s : RunState) (h : list EventRow) : Prop :=
  exists row, runs db !! id = Some row /\ row_valid id row s
    /\ c_next_event_sequence row = Z.of_nat (length h) + 1
    /\ forall n ev, run_events db !! (id, n) = Some ev <-> 1 <= n /\ h !! Z.to_nat (n - 1) = Some ev.

(** The state of a run and the number of its events, as the store reads them. *)
Definition found_of (id : string) (db : RunDb) : option (RunState * Z) :=
  match run_by_id id db with
  | Ok (Some run) => Some (run_status run, run_next_event_sequence run - 1)
  | _ => None
  end.

(** Why a transition is refused, in the order of the checks. *)
Definition transition_refusal (event : NewRunEvent) (found : option (RunState * Z))
    (id : string) (expected next : RunState) : option StoreError :=
  match validate_event event with
  | Err e => Some e
  | Ok _ =>
      match found with
      | None => Some (RunNotFound id)
      | Some (s, events) =>
          if negb (bool_decide (s = expected)) then Some (UnexpectedStatus expected s)
          else if is_terminal s then Some (TerminalRun id)
          else if negb (transition_valid s next) then Some (InvalidTransition s next)
          else if i64_max <=? events + 1
          then Some (CorruptData "event sequence exceeds SQLite integer range")
          else None
      end
  end.

Lemma ledger_prefix db id row (m : nat) :
  ledger (core db) -> runs db !! id = Some row -> Z.of_nat m < c_next_event_sequence row ->
  exists h, length h = m /\ forall i, (i < m)%nat -> run_events db !! (id, Z.of_nat i + 1) = h !! i.
Proof.
  intros Hl Hr. induction m as [|m IH]; intros Hm; [exists []; split; [done|lia]|].
  destruct IH as (h & Hlen & Hh); [lia|].
  destruct (l_complete _ Hl id row (Z.of_nat m + 1) Hr) as [ev Hev]; [lia|].
  exists (h ++ [ev]). rewrite length_app, Hlen. split; [simpl; lia|]. intros i Hi.
  destruct (decide (i = m)) as [->|].
  - rewrite lookup_app_r, Hlen, Nat.sub_diag by lia. done.
  - rewrite lookup_app_l by lia. apply Hh. lia.
Qed.

Lemma ledger_represents db id row :
  ledger (core db) -> runs db !! id = Some row -> exists s h, represents db id s h.
Proof.
  intros Hl Hr. destruct (l_row _ Hl id row Hr) as [[s Hv] Hb].
  destruct (ledger_prefix db id row (Z.to_nat (c_next_event_sequence row - 1)) Hl Hr) as (h & Hlen & Hh); [lia|].
  exists s, h, row. split; [done|]. split; [done|]. split; [lia|]. intros n ev. split.
  - intros He. destruct (l_event _ Hl _ _ _ He) as (? & (row' & Hr' & ?) & _). simpl in Hr'.
    rewrite Hr in Hr'. simplify_eq. split; [done|].
    rewrite <- Hh by lia. rewrite <- He. do 2 f_equal. lia.
  - intros [Hn Hi]. pose proof (lookup_lt_Some _ _ _ Hi). rewrite <- Hi, <- Hh by lia. do 2 f_equal. lia.
Qed.

Lemma represents_appended db db' id row s next ts ev h :
  represents db id s h -> runs db !! id = Some row ->
  core db' = appended (core db) id row (advance_row row next ts) ev ->
  represents db' id next (h ++ [ev]).
Proof.
  intros (row' & Hr' & Hv & Hn & Hh) Hr Hcore. rewrite Hr in Hr'. simplify_eq.
  exists (advance_row row' next ts).
  pose proof (f_equal k_runs Hcore) as Hruns. pose proof (f_equal k_events Hcore) as Hev. simpl in *.
  rewrite Hruns, Hev, lookup_insert_eq. split; [done|]. split; [by eapply row_valid_advance|].
  rewrite length_app. simpl. split; [lia|]. intros n ev'.
  destruct (decide (n = c_next_event_sequence row')) as [->|Hne].
  - rewrite lookup_insert_eq, Hn. replace (Z.to_nat (Z.of_nat (length h) + 1 - 1)) with (length h) by lia.
    rewrite lookup_app_r, Nat.sub_diag by lia. simpl. split; [intros [= <-]; split; [lia|done]|by intros [_ [= <-]]].
  - rewrite lookup_insert_ne by congruence. rewrite Hh. split; intros [? Hi]; (split; [done|]).
    + by apply lookup_app_l_Some.
    + apply lookup_app_Some in Hi as [?|[? Hi]]; [done|].
      assert (Z.to_nat (n - 1) - length h = 0)%nat by (apply lookup_lt_Some in Hi; simpl in Hi; lia). lia.
Qed.

Lemma represents_other db db' id id' row row' ev s h :
  id' <> id -> core db' = appended (core db) id row row' ev ->
  represents db id' s h <-> represents db' id' s h.
Proof.
  intros Hne Hcore. unfold represents.
  assert (runs db' !! id' = runs db !! id') as ->.
  { rewrite (f_equal k_runs Hcore : runs db' = _). simpl. by rewrite lookup_insert_ne by done. }
  assert (forall n, run_events db' !! (id', n) = run_events db !! (id', n)) as He.
  { intros n. rewrite (f_equal k_events Hcore : run_events db' = _). simpl.
    by rewrite lookup_insert_ne by congruence. }
  by setoid_rewrite He.
Qed.

Lemma found_of_decoded id row s db :
  runs db !! id = Some row -> row_valid id row s ->
  found_of id db = Some (s, c_next_event_sequence row - 1).
Proof. intros Hr Hv. unfold found_of. by rewrite (run_by_id_decoded id row s). Qed.

(** A refused transition reports the refusal and changes nothing. *)
Lemma transition_run_refused (id : string) e n ev t db err :
  ledger (core db) -> transition_refusal ev (found_of id db) id e n = Some err ->
  transition_run id e n ev t db = (Err err, db).
Proof.
  intros Hl. unfold transition_run, tbind at 1, tlift at 1, transition_refusal.
  destruct (validate_event ev) as [[]|]; [|by intros [= ->]].
  unfold transaction, tbind at 1, tread at 1.
  destruct (runs db !! id) as [row|] eqn:Hr.
  - destruct (l_row _ Hl id row Hr) as [[s Hv] Hb]. rewrite (found_of_decoded id row s) by done.
    rewrite (proj2 (require_run_ok id db (decoded id row s))) by eauto. simpl.
    case_bool_decide; simpl; [|by intros [= ->]].
    destruct (is_terminal s); simpl; [by intros [= ->]|].
    unfold validate_transition. destruct (transition_valid s n); simpl; [|by intros [= ->]].
    destruct (Z.leb_spec i64_max (c_next_event_sequence row - 1 + 1)); [|discriminate].
    unfold update_and_append, tbind, tlift. simpl. unfold sql_sequence.
    destruct (Z.leb_spec (c_next_event_sequence row) i64_max); [|by intros [= ->]].
    destruct (Z.leb_spec (c_next_event_sequence row + 1) i64_max); [lia|]. by intros [= ->].
  - unfold found_of, require_run, run_by_id. rewrite Hr. simpl. by intros [= ->].
Qed.

Lemma transition_run_admitted (id : string) e n ev t db :
  ledger (core db) -> transition_refusal ev (found_of id db) id e n = None ->
  exists row, runs db !! id = Some row /\ row_valid id row e
    /\ transition_run id e n ev t db
       = transaction (update_and_append (decoded id row e) n ev (now t) (now_ms t)) db
    /\ can_append id row db.
Proof.
  intros Hl. unfold transition_run, tbind at 1, tlift at 1, transition_refusal.
  destruct (validate_event ev) as [[]|]; [|discriminate].
  destruct (runs db !! id) as [row|] eqn:Hr.
  - destruct (l_row _ Hl id row Hr) as [[s Hv] Hb]. rewrite (found_of_decoded id row s) by done.
    unfold transaction at 1, tbind at 1, tread at 1.
    rewrite (proj2 (require_run_ok id db (decoded id row s))) by eauto. simpl.
    case_bool_decide; simpl; [subst s|discriminate]. destruct (is_terminal e); simpl; [discriminate|].
    unfold validate_transition. destruct (transition_valid e n); simpl; [|discriminate].
    destruct (Z.leb_spec i64_max (c_next_event_sequence row - 1 + 1)); [discriminate|]. intros _.
    exists row. split; [done|]. split; [done|]. split; [done|]. apply ledger_can_append; [done..|lia].
  - unfold found_of, run_by_id. by rewrite Hr.
Qed.

(** A stored event decodes exactly when the parser reads its payload. *)
Lemma ledger_event_decodes `{!ExternalLaws} db id n row :
  ledger (core db) -> run_events db !! (id, n) = Some row ->
  exists v, c_payload_json row = json_to_string v
    /\ ((exists e, row_to_event id n row = Ok e) <-> value_depth v <= 127).
Proof.
  intros Hl He. destruct (l_event _ Hl _ _ _ He) as (Hn & (r & Hr & _) & v & Hv).
  destruct (l_row _ Hl _ _ Hr) as [[s Hrow] _].
  exists v. split; [done|]. rewrite <- json_recursion_limit. unfold row_to_event.
  rewrite (proj2 (parse_run_id_ok id id) (conj eq_refl (rv_id _ _ _ Hrow))). simpl.
  destruct (Z.ltb_spec n 0); [lia|]. rewrite Hv.
  destruct (json_from_str (json_to_string v)) as [w|]; simpl; split; [by eexists|by eexists|by intros [e [=]]|by intros [w [=]]].
Qed.

(** ** Properties *)

(** C1: every sequence of store calls, successful or not, keeps the ledger: run
    rows decode, event payloads are the text of a JSON value, the events of a
    run are numbered 1, 2, .. without gap up to the number before
    [next_event_sequence], keys are unique and references resolve; so every
    stored run is a state with a history.  A stored event decodes exactly when
    its payload nests at most 127 containers, the limit of the parser the reads
    use: the store accepts deeper payloads and cannot read them again.  The
    empty database is a ledger, and a failed call leaves the database exactly as
    it was. *)
Theorem store_calls_preserve_ledger `{!ExternalLaws} (db db' : RunDb)
    (Hl : ledger (core db)) (Hs : rtc store_step db db') :
  ledger (core db')
  /\ (forall id row, runs db' !! id = Some row -> exists s h, represents db' id s h)
  /\ (forall id n row, run_events db' !! (id, n) = Some row ->
        exists v, c_payload_json row = json_to_string v
          /\ ((exists e, row_to_event id n row = Ok e) <-> value_depth v <= 127))
  /\ ledger (core empty_run_db)
  /\ (forall op t e db'', exec op t db = (Err e, db'') -> db'' = db).
Proof.
  destruct (steps_ledger db db' Hl Hs) as [Hl' _].
  split; [done|]. split; [by intros id row; apply ledger_represents|].
  split; [by intros id n row; apply ledger_event_decodes|].
  split; [apply ledger_empty|]. intros op t e db''. apply exec_err.
Qed.

(** C16: history is append-only and terminal runs are final: under any sequence of
    store calls a stored run keeps its identity, key, digest and creation time,
    its state only moves along the lifecycle graph, recorded events stay
    readable unchanged, and once the state is terminal neither the row nor the
    history of the run changes any more. *)
Theorem history_is_append_only_and_terminal_is_final `{!ExternalLaws} (db db' : RunDb) (id : string)
    (row : RunRow) (s : RunState)
    (Hl : ledger (core db)) (Hs : rtc store_step db db')
    (Hr : runs db !! id = Some row) (Hv : row_valid id row s) :
  (exists row' s', runs db' !! id = Some row' /\ row_valid id row' s'
     /\ rtc (fun a b => transition_valid a b = true) s s'
     /\ c_idempotency_key row' = c_idempotency_key row
     /\ c_request_digest row' = c_request_digest row /\ c_created_at row' = c_created_at row)
  /\ (forall n ev, run_events db !! (id, n) = Some ev -> run_events db' !! (id, n) = Some ev)
  /\ (is_terminal s = true -> runs db' !! id = Some row
      /\ forall n, run_events db' !! (id, n) = run_events db !! (id, n)).
Proof.
  destruct (steps_ledger db db' Hl Hs) as [Hl' [He1 He2]].
  destruct (He1 id row Hr) as (row' & Hr' & Hrs). split; [|split].
  - destruct (row_step_fixed _ _ _ Hrs) as (? & ? & _ & ? & _).
    destruct (row_step_path _ _ _ _ Hrs Hv) as (s' & Hv' & Hp). exists row', s'. done.
  - intros n ev Hev. by eapply lookup_weaken.
  - intros Ht. pose proof (row_step_terminal _ _ _ _ Hv Ht Hrs) as ->. split; [done|].
    intros n. apply option_eq. intros ev. split; [|intros; by eapply lookup_weaken].
    intros Hev. destruct (l_event _ Hl' _ _ _ Hev) as (? & (row2 & Hr2 & ?) & _). simpl in Hr2.
    pose proof (eq_trans (eq_sym Hr') Hr2) as [= ->].
    destruct (l_complete _ Hl id row2 n Hr) as [ev0 Hev0]; [lia|].
    assert (run_events db' !! (id, n) = Some ev0) as Hev1 by by eapply lookup_weaken.
    rewrite <- Hev, Hev1. exact Hev0.
Qed.

(** Admission is idempotent for the lifetime of the store: after a run was
    admitted (or found) under a key, whatever store calls follow, a request
    with the same key and digest returns that same run and changes nothing, and
    one with another digest is refused as a conflict. *)
Theorem admission_is_idempotent `{!ExternalLaws} (r : NewRun) (fresh : RunId) (t : Tick)
    (db db1 db2 : RunDb) (run : RunRecord)
    (Hl : ledger (core db)) (Hty : typed (OpCreate r fresh))
    (Hop : create_or_get_run r fresh t db = (Ok run, db1)) (Hs : rtc store_step db1 db2) :
  forall r2 fresh2 t2,
    nr_idempotency_key r2 = nr_idempotency_key r -> validate_new_run r2 = Ok tt ->
    (nr_request_digest r2 = nr_request_digest r ->
       exists run2, create_or_get_run r2 fresh2 t2 db2 = (Ok run2, db2)
         /\ run_id run2 = run_id run /\ run_created_at run2 = run_created_at run)
    /\ (nr_request_digest r2 <> nr_request_digest r ->
       create_or_get_run r2 fresh2 t2 db2 = (Err IdempotencyConflict, db2)).
Proof.
  assert (ledger (core db1)) as Hl1.
  { apply (exec_ok (OpCreate r fresh) t db); [done..|]. simpl. by rewrite Hop. }
  destruct (created_run_row _ _ _ _ _ _ Hop) as (row & Hr & Hk & Hd & Hc).
  destruct (steps_ledger db1 db2 Hl1 Hs) as [Hl2 [He _]].
  destruct (He _ _ Hr) as (row2 & Hr2 & (Hk2 & Hd2 & _ & Hc2 & _)%row_step_fixed).
  intros r2 fresh2 t2 Hkey Hval.
  rewrite (create_existing r2 fresh2 t2 db2 _ row2 Hl2 Hr2) by congruence.
  destruct (l_row _ Hl2 _ _ Hr2) as [[s Hv] _].
  rewrite (proj2 (row_to_run_iff _ _ (decoded _ row2 s)) (ex_intro _ s (conj Hv eq_refl))). split.
  - intros Hdig. rewrite bool_decide_eq_true_2 by congruence. eexists. split; [done|]. simpl. by rewrite Hc2.
  - intros Hdig. by rewrite bool_decide_eq_false_2 by congruence.
Qed.

(** Recovery after a restart interrupts exactly the runs that were starting,
    running or being cancelled, each by one [run_recovered_interrupted] event;
    queued and finished runs keep row and history; nothing is left to recover,
    so a second recovery returns zero and changes nothing. *)
Theorem recovery_interrupts_exactly_active_runs `{!ExternalLaws} (t : Tick) (db : RunDb)
    (Hl : ledger (core db))
    (Hready : forall id s row, active_run db id s row ->
                c_next_event_sequence row < i64_max /\ assistant_turns db !! id = None) :
  exists ids db',
    recover_interrupted_on t db = (Ok (Z.of_nat (length ids)), db')
    /\ NoDup ids
    /\ (forall id, id ∈ ids <-> exists s row, active_run db id s row)
    /\ (forall id, id ∈ ids -> interrupted_by t db db' id)
    /\ (forall id, id ∉ ids -> runs db' !! id = runs db !! id
          /\ forall n, run_events db' !! (id, n) = run_events db !! (id, n))
    /\ forall t2, recover_interrupted_on t2 db' = (Ok 0, db').
Proof.
  destruct (recover_each_total t (interrupted_ids db) db) as [db' Hrec];
    [apply interrupted_ids_NoDup|by apply ready_to_recover|done|].
  assert (recover_interrupted_on t db = (Ok (Z.of_nat (length (interrupted_ids db))), db')) as Hop.
  { unfold recover_interrupted_on, transaction, tbind at 1, tread. unfold tbind. by rewrite Hrec. }
  destruct (recover_interrupted_ok t db _ db' Hl Hop) as (_ & Hl' & _ & Hsame & Hdone).
  exists (interrupted_ids db), db'. split; [done|]. split; [apply interrupted_ids_NoDup|].
  split; [intros id; by apply elem_of_interrupted_active|].
  split; [intros id Hin; by eapply Forall_forall in Hdone|]. split; [done|].
  assert (interrupted_ids db' = []) as Hnil by by eapply recovered_nothing_left.
  intros t2. unfold recover_interrupted_on, transaction, tbind, tread. by rewrite Hnil.
Qed.
End Spec.

(** ** Instances of the properties on a concrete store *)
Module LedgerExample.
Import Fixture ContentFixture DigestFixture JsonFixture.

Definition id1 : string := "00000000-0000-4000-8000-000000000001".
Definition id2 : string := "00000000-0000-4000-8000-000000000002".
Definition digest1 : string := "aaaaaaaaaaaaaaaaaaaaaaaaaaaaaaaaaaaaaaaaaaaaaaaaaaaaaaaaaaaaaaaa".
Definition digest2 : string := "bbbbbbbbbbbbbbbbbbbbbbbbbbbbbbbbbbbbbbbbbbbbbbbbbbbbbbbbbbbbbbbb".
Definition tick (n : string) : Tick := mkTick n 7.
Definition new1 : NewRun := mkNewRun None "request-1" digest1.
Definition new2 : NewRun := mkNewRun None "request-2" digest2.
Definition note (kind : string) : NewRunEvent := mkNewRunEvent kind (VObject []).

(** Two runs are admitted and the first one starts. *)
Definition script : list (store_op * Tick) :=
  [(OpCreate new1 id1, tick "1"); (OpCreate new2 id2, tick "2");
   (OpTransition id1 Queued Starting (note "run_starting"), tick "3");
   (OpTransition id1 Starting Running (note "run_started"), tick "4")].
Definition play (l : list (store_op * Tick)) (db : RunDb) : RunDb :=
  fold_left (fun db p => (exec p.1 p.2 db).2) l db.
Definition db4 : RunDb := play script empty_run_db.
Definition done1 : list (store_op * Tick) :=
  [(OpTransition id1 Running Succeeded (note "run_succeeded"), tick "5")].
Definition db5 : RunDb := play done1 db4.

Lemma play_steps l db :
  Forall (fun p => typed p.1) l -> rtc store_step db (play l db).
Proof.
  revert db. induction l as [|[op t] l IH]; intros db Hall; [constructor|].
  apply Forall_cons in Hall as [Hty Hall]. eapply rtc_l; [|by apply IH].
  simpl. destruct (exec op t db) as [r db'] eqn:He. by econstructor.
Defined.

Lemma script_typed : Forall (fun p => typed p.1) script.
Proof. repeat constructor; try discriminate. Defined.
Lemma done1_typed : Forall (fun p => typed p.1) done1.
Proof. repeat constructor. Defined.

Lemma ledger_db4 : ledger (core db4).
Proof. eapply steps_ledger; [exact ledger_empty|]. apply play_steps, script_typed. Qed.
Lemma ledger_db5 : ledger (core db5).
Proof. eapply steps_ledger; [exact ledger_db4|]. apply play_steps, done1_typed. Qed.

(** The store right after the first admission; the rest of the script leads to [db5]. *)
Definition db1 : RunDb := (create_or_get_run new1 id1 (tick "1") empty_run_db).2.
Lemma db1_to_db5 : play (tail script ++ done1) db1 = db5.
Proof. vm_compute. reflexivity. Qed.
Lemma tail_typed : Forall (fun p => typed p.1) (tail script ++ done1).
Proof. repeat constructor; try discriminate. Qed.

Definition row4 : RunRow := mkRunRow None "request-1" digest1 "running" 4 "1" "4".
Definition row5 : RunRow := mkRunRow None "request-1" digest1 "succeeded" 5 "1" "5".

Lemma store_calls_preserve_ledger_witness :
  ledger (core db4) /\ runs db4 !! id1 = Some row4
  /\ exists s h, represents db4 id1 s h.
Proof.
  destruct (store_calls_preserve_ledger empty_run_db db4 ledger_empty
              (play_steps script empty_run_db script_typed)) as (Hl & Hr & _ & _).
  split; [exact Hl|]. split; [vm_compute; reflexivity|]. apply (Hr id1 row4). vm_compute. reflexivity.
Defined.

Lemma history_is_append_only_and_terminal_is_final_witness :
  runs (play script db5) !! id1 = Some row5.
Proof.
  refine (proj1 (proj2 (proj2 (history_is_append_only_and_terminal_is_final db5 (play script db5) id1
            row5 Succeeded ledger_db5 (play_steps script db5 script_typed) _ _)) _)).
  - vm_compute. reflexivity.
  - constructor; try reflexivity; [discriminate|simpl; lia].
  - reflexivity.
Defined.

(** A payload of 128 nested arrays is accepted and stored; reading the history of
    the run then fails. *)
Definition deep : Value := Nat.iter 128 (fun v => VArray [v]) VNull.
Example deep_event_is_stored_but_not_read :
  (match append_run_event id1 (mkNewRunEvent "note" deep) (tick "9") db4 with
   | (Ok e, db) => Some (ev_sequence e, (run_events_query id1 db).1)
   | (Err _, _) => None
   end) = Some (4, Err (Database (FromSqlConversionFailure 3))).
Proof. vm_compute. reflexivity. Qed.

Lemma admission_is_idempotent_witness :
  create_or_get_run (mkNewRun None "request-1" digest2) id2 (tick "9") db5
  = (Err IdempotencyConflict, db5).
Proof.
  refine (proj2 (admission_is_idempotent new1 id1 (tick "1") empty_run_db
    db1 db5 (decoded id1 (admitted_row new1 "1") Queued) ledger_empty _ _ _
    (mkNewRun None "request-1" digest2) id2 (tick "9") eq_refl eq_refl) _).
  - split; [reflexivity|]. split; [discriminate|reflexivity].
  - vm_compute. reflexivity.
  - rewrite <- db1_to_db5. apply play_steps, tail_typed.
  - discriminate.
Defined.

Lemma recovery_interrupts_exactly_active_runs_witness :
  exists db', recover_interrupted_on (tick "8") db4 = (Ok 1, db')
    /\ interrupted_by (tick "8") db4 db' id1.
Proof.
  destruct (recovery_interrupts_exactly_active_runs (tick "8") db4 ledger_db4)
    as (ids & db' & Hop & _ & Hids & Hall & _).
  - intros id s row [Hr _]. split; [|reflexivity].
    apply elem_of_map_to_list in Hr. vm_compute in Hr.
    repeat (apply elem_of_cons in Hr as [[= -> ->]|Hr]; [reflexivity|]). by apply elem_of_nil in Hr.
  - exists db'. split.
    + rewrite Hop. f_equal. transitivity (recover_interrupted_on (tick "8") db4).1; [by rewrite Hop|].
      vm_compute. reflexivity.
    + apply Hall, Hids. exists Running, row4. split; [vm_compute; reflexivity|].
      split; [|by auto]. split; [reflexivity|by intros ? [=]|vm_compute; reflexivity|reflexivity|].
      unfold row4. simpl. lia.
Defined.
End LedgerExample.
