(* ===== verification/TurnLedger.v ===== *)
(** * The turn ledger: what the assistant tables promise

    The invariant of the assistant tables and its preservation by every store
    call, legacy or v4.  [bound] ties turns, runs and conversations together,
    [sound_content] describes the content events, [sound_messages] the messages,
    and [lifecycle] relates the state of a run to its content. *)
From stdpp Require Import base list gmap strings sorting relations.
From Stdlib Require Import ZArith Lia.
From S2P Require Import Prelude RustStr External Digest Tables RunContract StoreBase AssistantContent RunStore TurnContract TurnStore Preview RunLedger.
Import RunStateOps.

Open Scope Z_scope.
Open Scope rust_scope.

Section Turns.
Context {EX : External} {CC : ContentCodec} {MF : MillisFormat} {DG : Digest} {VJ : V4Json}.
Implicit Types (db : RunDb) (rid cid : string).

(** ** Views of the tables *)
Definition conv_of db rid : option string := tn_conversation_id <$> assistant_turns db !! rid.
Definition live db cid : Prop :=
  exists row, assistant_conversations db !! cid = Some row /\ cv_deleted row = false.
Definition known db cid : Prop := is_Some (assistant_conversations db !! cid).
Definition status_of db rid : option string := c_status <$> runs db !! rid.
Definition active db rid : Prop := exists s, status_of db rid = Some s /\ is_active_status s = true.
Definition ended db rid : Prop := exists s, status_of db rid = Some s /\ is_active_status s = false.
Definition marked db rid : Prop := terminal_marked rid db = true.

(** The texts of a run's content, in order. *)
Definition delta_of db cid (n : Z) : string :=
  match assistant_content_payloads db !! (cid, n) with
  | Some j => match content_of_json j with Some (TextDelta t) => t | _ => EmptyString end
  | None => EmptyString
  end.
Definition reply db cid rid : string :=
  foldr (fun p acc => delta_of db cid p.1 +:+ acc) EmptyString (content_after cid rid 0 db).

(** ** The invariant *)

(** The checks of the table, and the bound a submission was validated with. *)
Definition turn_ok (tn : TurnRow) : bool := turn_check tn && (tn_user_sequence tn <=? MAX_SAFE_INTEGER).

Record bound db : Prop := {
  b_turn : forall rid tn, assistant_turns db !! rid = Some tn ->
    turn_ok tn = true /\ uuid_canonical (tn_conversation_id tn) = Some (tn_conversation_id tn)
    /\ known db (tn_conversation_id tn)
    /\ exists row, runs db !! rid = Some row /\ c_conversation_id row = Some (tn_conversation_id tn);
}.

(** A content row and its payload belong together. *)
Definition content_row_ok db cid (n : Z) (row : ContentRow) : Prop :=
  conv_of db (ct_run_id row) = Some cid /\ ct_request_id row = ct_run_id row
  /\ 1 <= n <= MAX_SEQUENCE /\ 0 <= ct_timestamp_ms row <= MAX_SAFE_INTEGER
  /\ exists p, assistant_content_payloads db !! (cid, n) = Some (content_json p)
       /\ V4ContentPayload_validate p = Ok tt /\ payload_typed p
       /\ ct_kind row = kind_of p
       /\ ct_byte_count row = match p with TextDelta t => slen t | _ => slen (content_json p) end
       /\ (forall t, p = TextDelta t -> valid_utf8 t)
       /\ (n = MAX_SEQUENCE -> is_terminal_payload p = true).

Record sound_content db : Prop := {
  s_row : forall cid n row, assistant_content_events db !! (cid, n) = Some row -> content_row_ok db cid n row;
  s_gapless : forall cid n m, is_Some (assistant_content_events db !! (cid, n)) -> 1 <= m <= n ->
    is_Some (assistant_content_events db !! (cid, m));
  s_payload : forall cid n, is_Some (assistant_content_payloads db !! (cid, n)) ->
    is_Some (assistant_content_events db !! (cid, n));
}.

(** The text a message shows: the submitted input, or the preview of the reply. *)
Definition message_ok db (m : MessageRow) : Prop :=
  conv_of db (m_run_id m) = Some (m_conversation_id m)
  /\ message_check m = true /\ m_created_at_ms m <= MAX_SAFE_INTEGER /\ valid_utf8 (m_body m)
  /\ contains_nul (m_body m) = false
  /\ if bool_decide (m_role m = "assistant")
     then m_body m = preview_text (reply db (m_conversation_id m) (m_run_id m))
          /\ m_text_bytes m = slen (reply db (m_conversation_id m) (m_run_id m))
     else m_text_bytes m = slen (m_body m).

Record sound_messages db : Prop := {
  m_row : forall id m, assistant_messages db !! id = Some m -> message_ok db m;
  m_sequences : forall i j a b, assistant_messages db !! i = Some a -> assistant_messages db !! j = Some b ->
    m_conversation_id a = m_conversation_id b -> m_sequence a = m_sequence b -> i = j;
  m_replies : forall i j a b, assistant_messages db !! i = Some a -> assistant_messages db !! j = Some b ->
    m_run_id a = m_run_id b -> m_role a = "assistant" -> m_role b = "assistant" -> i = j;
  m_missing : forall rid cid, conv_of db rid = Some cid ->
    (forall id m, assistant_messages db !! id = Some m -> is_preview_of rid m = false) ->
    reply db cid rid = EmptyString;
}.

Record lifecycle db : Prop := {
  y_one : forall r1 r2 c, conv_of db r1 = Some c -> conv_of db r2 = Some c ->
    active db r1 -> active db r2 -> r1 = r2;
  y_live : forall r c, conv_of db r = Some c -> active db r -> live db c;
  y_room : forall r c, conv_of db r = Some c -> active db r ->
    marked db r \/ last_content_sequence c db < MAX_SEQUENCE;
  y_end : forall r c, conv_of db r = Some c -> ended db r -> live db c -> marked db r;
}.

(** What holds of a run [w] nobody but its transitions marked: the marker is the
    last of its content, it has none before it ended, and it names the state it
    ended in. *)
Record markers_final (w : string) db : Prop := {
  f_active : active db w -> ~ marked db w;
  f_last : forall cid n m a b, assistant_content_events db !! (cid, n) = Some a ->
    assistant_content_events db !! (cid, m) = Some b -> ct_run_id a = w -> ct_run_id b = w ->
    is_terminal_kind (ct_kind a) = true -> m <= n;
  f_state : forall cid n row, assistant_content_events db !! (cid, n) = Some row -> ct_run_id row = w ->
    is_terminal_kind (ct_kind row) = true ->
    exists s, assistant_content_payloads db !! (cid, n) = Some (content_json (Terminal s))
      /\ status_of db w = Some (state_as_str s);
}.

(** The messages of an ended turn carry the state of its run. *)
Definition message_states db : Prop :=
  forall id m, assistant_messages db !! id = Some m -> ended db (m_run_id m) ->
    status_of db (m_run_id m) = Some (m_state m).

Record turns db : Prop := {
  t_bound : bound db; t_content : sound_content db; t_messages : sound_messages db; t_lifecycle : lifecycle db;
  t_states : message_states db;
}.

(** ** Reading the tables *)
Lemma last_content_spec cid db :
  0 <= last_content_sequence cid db
  /\ (forall n row, assistant_content_events db !! (cid, n) = Some row -> n <= last_content_sequence cid db)
  /\ (last_content_sequence cid db = 0
      \/ is_Some (assistant_content_events db !! (cid, last_content_sequence cid db))).
Proof.
  destruct (fold_max_spec (fun (k : string * Z) (_ : ContentRow) => bool_decide (k.1 = cid)) (fun k _ => k.2)
              (assistant_content_events db)) as (H0 & Hle & Hex).
  change (last_content_sequence cid db)
    with (fold_max (fun (k : string * Z) (_ : ContentRow) => bool_decide (k.1 = cid)) (fun k _ => k.2)
            (assistant_content_events db)).
  split; [done|]. split.
  - intros n row Hn. apply (Hle (cid, n) row Hn). by apply bool_decide_eq_true_2.
  - destruct Hex as [?|([c n] & row & Hn & Hc & Heq)]; [by left|right].
    apply bool_decide_eq_true in Hc. rewrite <- Heq. simpl in Hc |- *. subst c. by exists row.
Qed.

Lemma content_present db cid n :
  sound_content db -> is_Some (assistant_content_events db !! (cid, n)) <-> 1 <= n <= last_content_sequence cid db.
Proof.
  intros Hs. destruct (last_content_spec cid db) as (H0 & Hle & Hex). split.
  - intros [row Hn]. destruct (s_row _ Hs _ _ _ Hn) as (_ & _ & ? & _). specialize (Hle n row Hn). lia.
  - intros Hn. destruct Hex as [?|Hl]; [lia|]. by eapply s_gapless.
Qed.

Lemma marked_iff db rid :
  marked db rid <-> exists cid n row, assistant_content_events db !! (cid, n) = Some row
    /\ ct_run_id row = rid /\ is_terminal_kind (ct_kind row) = true.
Proof.
  unfold marked. change (terminal_marked rid db)
    with (fold_exists (fun (_ : string * Z) row => bool_decide (ct_run_id row = rid) && is_terminal_kind (ct_kind row))
            (assistant_content_events db)).
  rewrite fold_exists_true. split.
  - intros ([cid n] & row & Hn & [Hr%bool_decide_eq_true Hk]%andb_true_iff). eauto 10.
  - intros (cid & n & row & Hn & Hr & Hk). exists (cid, n), row. split; [done|].
    by rewrite bool_decide_eq_true_2.
Qed.

Lemma content_of_Some cid rid p q :
  content_of cid rid p = Some q <-> p = ((cid, q.1), q.2) /\ ct_run_id q.2 = rid.
Proof.
  destruct p as [[c n] row], q as [m row']. unfold content_of. simpl.
  destruct (bool_decide (c = cid)) eqn:Hc, (bool_decide (ct_run_id row = rid)) eqn:Hr; simpl; bools;
    (split; [intros [= <- <-]; subst; done|intros [[= -> -> ->] ?]; done]).
Qed.

Lemma elem_of_content db cid rid after n row :
  (n, row) ∈ content_after cid rid after db
  <-> assistant_content_events db !! (cid, n) = Some row /\ ct_run_id row = rid /\ after < n.
Proof.
  unfold content_after. rewrite merge_sort_Permutation, list_elem_of_filter, list_elem_of_omap. simpl. split.
  - intros (Hlt & p & Hin & [-> Hr]%content_of_Some). by apply elem_of_map_to_list in Hin.
  - intros (Hn & Hr & Hlt). split; [done|]. exists ((cid, n), row).
    split; [by apply elem_of_map_to_list|by apply content_of_Some].
Qed.

Lemma content_ordered db cid rid after : ordered_by fst (content_after cid rid after db).
Proof. apply merge_sort_ordered. done. Qed.

Lemma content_NoDup db cid rid after : NoDup (content_after cid rid after db).
Proof.
  unfold content_after. rewrite merge_sort_Permutation. apply NoDup_filter, NoDup_omap; [|apply NoDup_map_to_list].
  intros p q z [-> _]%content_of_Some [-> _]%content_of_Some. done.
Qed.

Lemma active_not_ended db r : active db r -> ~ ended db r.
Proof. intros (s & Hs & Ha) (s' & Hs' & He). congruence. Qed.

(** Two readings of the same rows agree. *)
Lemma content_after_eq db db' cid rid after l :
  ordered_by fst l -> NoDup l -> (forall p, p ∈ l <-> p ∈ content_after cid rid after db') ->
  content_after cid rid after db' = l.
Proof.
  intros Ho Hnd Hin. apply (ordered_unique fst); [apply content_ordered|done| |].
  - intros [n1 r1] [n2 r2] (H1 & _)%elem_of_content (H2 & _)%elem_of_content. simpl. intros ->. congruence.
  - apply NoDup_Permutation; [apply content_NoDup|done|]. intros p. by rewrite Hin.
Qed.

(** ** Adding content *)
Definition add_content (cid : string) (n : Z) (row : ContentRow) (pjson : string) db : RunDb :=
  set_content_payloads (<[(cid, n) := pjson]> (assistant_content_payloads db))
    (set_content_events (<[(cid, n) := row]> (assistant_content_events db)) db).

Definition new_row (rid : string) (p : V4ContentPayload) (now : Z) : ContentRow :=
  mkContentRow rid rid (kind_of p) (match p with TextDelta t => slen t | _ => slen (content_json p) end) now.

(** Why a payload is refused, in the order of the checks. *)
Definition content_refusal (p : V4ContentPayload) (last now : Z) : option StoreError :=
  match V4ContentPayload_validate p with
  | Err _ => Some (InvalidInput "content payload invalid")
  | Ok _ =>
      if MAX_SEQUENCE <? last + 1 then Some AssistantConflict
      else if negb (is_terminal_payload p) && (last + 1 =? MAX_SEQUENCE) then Some AssistantConflict
      else if i64_max <? now then Some (InvalidInput "ts range")
      else if now <? 0 then Some (Database ConstraintCheck)
      else if MAX_SAFE_INTEGER <? now then Some (CorruptData "content event invalid")
      else None
  end.

Context {CL : ContentLaws}.

Lemma valid_text_len t max : text t max = Ok tt -> slen t <= max.
Proof. unfold text, ensure. destruct (_ && _) eqn:Hb; [|discriminate]. bools. lia. Qed.

Lemma payload_size p :
  V4ContentPayload_validate p = Ok tt -> payload_typed p ->
  slen (content_json p) <= 131072
  /\ match p with TextDelta t => slen t <= 16384 | _ => slen (content_json p) <= 32768 end.
Proof.
  intros Hv Hty. pose proof (content_size p Hv Hty) as Hs. destruct p as [t|id s|c|i o|s]; simpl in Hv.
  - unfold ensure in Hv. destruct (_ && _) eqn:Hb; [|discriminate]. bools. unfold MAX_V4_DELTA_BYTES in *. lia.
  - unfold label in Hv. destruct (text id 256) as [[]|] eqn:Ht; [|discriminate].
    apply valid_text_len in Ht. lia.
  - lia.
  - lia.
  - lia.
Qed.

Lemma insert_payload_row_fresh cid n p db :
  V4ContentPayload_validate p = Ok tt -> payload_typed p ->
  assistant_content_payloads db !! (cid, n) = None ->
  insert_payload_row cid n (content_json p) db
  = (Ok tt, set_content_payloads (<[(cid, n) := content_json p]> (assistant_content_payloads db)) db).
Proof.
  intros Hv Hty Hn. unfold insert_payload_row. destruct (payload_size p Hv Hty) as [Hsz _].
  pose proof (chars_le (content_json p)). pose proof (content_nonempty p).
  rewrite bool_decide_eq_true_2 by done.
  destruct (Z.leb_spec 2 (Z.of_nat (length (chars (content_json p))))); [|lia].
  destruct (Z.leb_spec (Z.of_nat (length (chars (content_json p)))) 131072); [|lia]. done.
Qed.

(** [insert_content_event] is refused for the first failing check, and otherwise
    adds exactly one numbered row with its payload. *)
Lemma insert_content_event_eq cid rid p now db :
  sound_content db -> payload_typed p -> known db cid -> is_Some (runs db !! rid) ->
  1 <= slen rid <= 128 ->
  let n := last_content_sequence cid db + 1 in
  match content_refusal p (last_content_sequence cid db) now with
  | Some err => (insert_content_event cid rid p now db).1 = Err err
  | None => insert_content_event cid rid p now db
            = (Ok (mkV4ContentEvent cid rid n now p), add_content cid n (new_row rid p now) (content_json p) db)
  end.
Proof.
  intros Hs Hty Hcid Hrid Hlen n. unfold insert_content_event, content_refusal, tbind, tlift, tread.
  destruct (V4ContentPayload_validate p) as [[]|] eqn:Hv; [|done]. cbn [map_err].
  destruct (last_content_spec cid db) as (H0 & Hmax & _). set (last := last_content_sequence cid db) in *.
  destruct (payload_size p Hv Hty) as [Hsz Hb].
  unfold u64_checked_add. destruct (Z.leb_spec (last + 1) u64_max).
  2:{ destruct (Z.ltb_spec MAX_SEQUENCE (last + 1)); [done|]. unfold MAX_SEQUENCE, u64_max in *. lia. }
  destruct (Z.leb_spec (last + 1) MAX_SEQUENCE), (Z.ltb_spec MAX_SEQUENCE (last + 1)); try lia; [|done].
  change (match p with Terminal _ => true | _ => false end) with (is_terminal_payload p).
  destruct (negb (is_terminal_payload p) && (last + 1 =? MAX_SEQUENCE)); [done|].
  unfold sql_sequence. destruct (Z.leb_spec (last + 1) i64_max); [|unfold MAX_SEQUENCE, i64_max in *; lia].
  unfold ms. destruct (Z.leb_spec now i64_max), (Z.ltb_spec i64_max now); try lia; [|done].
  unfold insert_content_row. destruct (Z.ltb_spec now 0).
  { match goal with |- context [negb ?b] => assert (b = false) as -> end; [|done].
    cbn [ct_timestamp_ms]. rewrite (proj2 (Z.leb_gt 0 now)) by done. apply andb_false_r. }
  match goal with |- context [negb ?b] => assert (b = true) as -> end.
  { cbn [ct_request_id ct_byte_count ct_timestamp_ms]. unfold MAX_SEQUENCE in *.
    assert (0 <= match p with TextDelta t => slen t | _ => slen (content_json p) end <= 32768).
    { clear -Hb. destruct p as [t|id s|c|i o|s];
        (split; [apply slen_nonneg|]); lia. }
    repeat (apply andb_true_iff; split); lia. }
  cbn [negb].
  assert (assistant_content_events db !! (cid, last + 1) = None) as ->.
  { apply eq_None_not_Some. intros [row Hrow]. specialize (Hmax _ _ Hrow). lia. }
  cbn [ct_run_id]. rewrite !bool_decide_eq_true_2 by done. cbn [negb orb].
  assert (assistant_content_payloads db !! (cid, last + 1) = None) as Hnone.
  { apply eq_None_not_Some. intros Hp. apply (s_payload _ Hs), content_present in Hp; [|done]. subst last. lia. }
  rewrite insert_payload_row_fresh by done.
  unfold V4ContentEvent_validate, AssistantContent.timestamp, ensure. cbn [ce_timestamp_ms ce_sequence ce_payload].
  destruct (Z.leb_spec now MAX_SAFE_INTEGER), (Z.ltb_spec MAX_SAFE_INTEGER now); try lia; [|done].
  destruct (Z.ltb_spec 0 (last + 1)), (Z.leb_spec (last + 1) MAX_V4_CONTENT_EVENTS);
    try (unfold MAX_V4_CONTENT_EVENTS, MAX_SEQUENCE in *; lia). cbn [andb].
  rewrite Hv. done.
Qed.

(** The text a payload adds to the reply. *)
Definition payload_text (p : V4ContentPayload) : string :=
  match p with TextDelta t => t | _ => EmptyString end.

Lemma kind_of_terminal p :
  V4ContentPayload_validate p = Ok tt -> is_terminal_kind (kind_of p) = is_terminal_payload p.
Proof. destruct p as [t|id [| | |]|c|i o|[| | | | | | |]]; done. Qed.

Section Added.
Variables (db : RunDb) (cid rid : string) (p : V4ContentPayload) (now : Z).
Hypothesis Hv : V4ContentPayload_validate p = Ok tt.
Hypothesis Hty : payload_typed p.
Let n := last_content_sequence cid db + 1.
Let db' := add_content cid n (new_row rid p now) (content_json p) db.

Lemma added_lookup c m row :
  assistant_content_events db' !! (c, m) = Some row
  <-> (c = cid /\ m = n /\ row = new_row rid p now) \/ assistant_content_events db !! (c, m) = Some row.
Proof.
  destruct (last_content_spec cid db) as (_ & Hle & _). simpl. rewrite lookup_insert_Some. split.
  - intros [[[= <- <-] <-]|[_ ?]]; auto.
  - intros [(-> & -> & ->)|Hr]; [by left|right]. split; [|done].
    intros [= <- <-]. specialize (Hle _ _ Hr). unfold n in Hle. lia.
Qed.

Lemma added_absent m : n <= m -> assistant_content_events db !! (cid, m) = None.
Proof.
  intros Hm. destruct (last_content_spec cid db) as (_ & Hle & _). apply eq_None_not_Some.
  intros [row Hr]. specialize (Hle _ _ Hr). unfold n in Hm. lia.
Qed.

Lemma added_payload c m row :
  assistant_content_events db !! (c, m) = Some row ->
  assistant_content_payloads db' !! (c, m) = assistant_content_payloads db !! (c, m).
Proof.
  intros Hr. simpl. rewrite lookup_insert_ne; [done|]. intros [= <- <-].
  by rewrite added_absent in Hr.
Qed.

Lemma added_sound :
  sound_content db -> conv_of db rid = Some cid -> (forall t, p = TextDelta t -> valid_utf8 t) ->
  n <= MAX_SEQUENCE -> (n = MAX_SEQUENCE -> is_terminal_payload p = true) -> 0 <= now <= MAX_SAFE_INTEGER ->
  sound_content db'.
Proof.
  intros Hs Hconv Hutf Hmax Hreserved Hnow.
  destruct (last_content_spec cid db) as (H0 & Hle & _). constructor.
  - intros c m row [(-> & -> & ->)|Hr]%added_lookup.
    + unfold content_row_ok. split; [exact Hconv|]. split; [done|]. split; [unfold n in *; lia|]. split; [done|].
      exists p. simpl. rewrite lookup_insert_eq. auto 10.
    + destruct (s_row _ Hs _ _ _ Hr) as (H1 & H2 & H3 & H4 & q & Hq & Hrest).
      split; [exact H1|]. split; [done|]. split; [done|]. split; [done|]. exists q.
      by rewrite (added_payload c m row Hr).
  - intros c m m' [row [(-> & -> & ->)|Hr]%added_lookup] Hm.
    + destruct (decide (m' = n)) as [->|]; [eexists; apply added_lookup; by left|].
      destruct (proj2 (content_present db cid m' Hs)) as [row Hr]; [unfold n in *; lia|].
      exists row. apply added_lookup. by right.
    + destruct (s_gapless _ Hs c m m') as [row' Hr']; [by eexists|done|]. exists row'. apply added_lookup. by right.
  - intros c m [pj Hp]. change (<[(cid, n) := content_json p]> (assistant_content_payloads db) !! (c, m) = Some pj) in Hp.
    apply lookup_insert_Some in Hp as [[[= <- <-] _]|[Hne Hp]].
    + eexists. apply added_lookup. by left.
    + destruct (s_payload _ Hs c m) as [row Hr]; [by eexists|]. exists row. apply added_lookup. by right.
Qed.

Lemma added_last c :
  last_content_sequence c db' = if bool_decide (c = cid) then n else last_content_sequence c db.
Proof.
  assert (forall c m, is_Some (assistant_content_events db' !! (c, m))
            <-> (c = cid /\ m = n) \/ is_Some (assistant_content_events db !! (c, m))) as Hdom.
  { intros c' m. split.
    - intros [row [(? & ? & _)|Hr]%added_lookup]; [by left|right; by eexists].
    - intros [[-> ->]|[row Hr]]; eexists; apply added_lookup; [by left|by right]. }
  destruct (last_content_spec c db') as (H0' & Hle' & Hex').
  destruct (last_content_spec c db) as (H0 & Hle & Hex).
  assert (forall m, is_Some (assistant_content_events db' !! (c, m)) -> m <= last_content_sequence c db') as Hle2
    by (intros m [row Hr]; by eapply Hle').
  assert (forall m, is_Some (assistant_content_events db !! (c, m)) -> m <= last_content_sequence c db) as Hle1
    by (intros m [row Hr]; by eapply Hle).
  clear Hle Hle'. case_bool_decide as Hc; [subst c|].
  - assert (n <= last_content_sequence cid db') by (apply Hle2, Hdom; by left).
    destruct Hex' as [?|[[_ ?]|Hp]%Hdom]; [unfold n in *; lia|lia|].
    apply Hle1 in Hp. unfold n in *. lia.
  - destruct Hex' as [Hz|[[? _]|Hp]%Hdom]; [|done|].
    + destruct Hex as [?|Hp]; [lia|]. assert (last_content_sequence c db <= last_content_sequence c db')
        by (apply Hle2, Hdom; by right). lia.
    + apply Hle1 in Hp. destruct Hex as [?|Hq]; [lia|].
      assert (last_content_sequence c db <= last_content_sequence c db') by (apply Hle2, Hdom; by right). lia.
Qed.

Lemma added_marked r : marked db' r <-> (r = rid /\ is_terminal_payload p = true) \/ marked db r.
Proof.
  rewrite !marked_iff. setoid_rewrite added_lookup. split.
  - intros (c & m & row & [(-> & -> & ->)|Hr] & Hrid & Hk).
    + left. simpl in *. by rewrite kind_of_terminal in Hk.
    + right. eauto 10.
  - intros [[-> Ht]|(c & m & row & Hr & Hrid & Hk)].
    + exists cid, n, (new_row rid p now). split; [by left|]. split; [done|]. simpl. by rewrite kind_of_terminal.
    + exists c, m, row. auto.
Qed.

Lemma added_content_after c r a :
  content_after c r a db'
  = content_after c r a db ++ (if bool_decide (c = cid /\ r = rid /\ a < n) then [(n, new_row rid p now)] else []).
Proof.
  apply (content_after_eq db).
  - case_bool_decide as Hc; [|rewrite app_nil_r; apply content_ordered].
    apply ordered_snoc; [apply content_ordered|]. destruct Hc as (-> & -> & _).
    intros [m row] (Hr & _)%elem_of_content. simpl. destruct (last_content_spec cid db) as (_ & Hle & _).
    specialize (Hle _ _ Hr). unfold n. lia.
  - case_bool_decide as Hc; [|rewrite app_nil_r; apply content_NoDup].
    apply NoDup_app. split; [apply content_NoDup|]. split; [|apply NoDup_singleton].
    intros [m row] (Hr & _)%elem_of_content [= -> _]%list_elem_of_singleton. destruct Hc as (-> & _).
    by rewrite added_absent in Hr.
  - intros [m row]. rewrite elem_of_app, !elem_of_content, added_lookup. case_bool_decide as Hc.
    + destruct Hc as (-> & -> & Ha). rewrite list_elem_of_singleton. split.
      * intros [(? & ? & ?)|[= -> ->]]; [tauto|]. split; [by left|done].
      * intros ([(_ & -> & ->)|?] & ? & ?); [by right|tauto].
    + rewrite elem_of_nil. split; [intros [(? & ? & ?)|[]]; tauto|].
      intros ([(-> & -> & ->)|?] & Hr & Ha); [|tauto]. simpl in Hr. destruct Hc. done.
Qed.

Lemma added_reply c r :
  reply db' c r = reply db c r +:+ (if bool_decide (c = cid /\ r = rid) then payload_text p else EmptyString).
Proof.
  unfold reply. rewrite added_content_after, foldr_app.
  set (tail := foldr _ EmptyString (if bool_decide (c = cid /\ r = rid /\ 0 < n) then _ else [])).
  assert (tail = if bool_decide (c = cid /\ r = rid) then payload_text p else EmptyString) as ->.
  { unfold tail. destruct (last_content_spec cid db) as (H0 & _).
    destruct (decide (c = cid /\ r = rid)) as [[-> ->]|Hne].
    - rewrite !bool_decide_eq_true_2 by (unfold n; auto with lia). simpl. rewrite append_empty_r.
      unfold delta_of. simpl. rewrite lookup_insert_eq, content_roundtrip by done. reflexivity.
    - rewrite !bool_decide_eq_false_2 by tauto. done. }
  assert (forall q, q ∈ content_after c r 0 db -> delta_of db' c q.1 = delta_of db c q.1) as Hsame.
  { intros [m row] (Hr & _)%elem_of_content. unfold delta_of. cbn [fst]. by rewrite (added_payload c m row Hr). }
  induction (content_after c r 0 db) as [|q l IH]; [done|]. simpl.
  rewrite IH by (intros q' Hq'; apply Hsame; by right). by rewrite append_assoc, Hsame by left.
Qed.
End Added.

(** ** Frames *)
Lemma bound_frame db db' :
  bound db ->
  (forall rid tn', assistant_turns db' !! rid = Some tn' -> exists tn, assistant_turns db !! rid = Some tn
     /\ tn_conversation_id tn' = tn_conversation_id tn /\ turn_ok tn' = turn_ok tn) ->
  (forall c, known db c -> known db' c) ->
  (forall rid row, runs db !! rid = Some row -> exists row', runs db' !! rid = Some row'
     /\ c_conversation_id row' = c_conversation_id row) ->
  bound db'.
Proof.
  intros Hb Ht Hk Hr. constructor. intros rid tn' (tn & Htn & -> & ->)%Ht.
  destruct (b_turn _ Hb rid tn Htn) as (? & ? & ? & row & Hrow & Hc).
  destruct (Hr rid row Hrow) as (row' & Hrow' & Hc'). rewrite Hc in Hc'. eauto 10.
Qed.

Lemma content_frame db db' :
  sound_content db -> (forall rid c, conv_of db rid = Some c -> conv_of db' rid = Some c) ->
  assistant_content_events db' = assistant_content_events db ->
  assistant_content_payloads db' = assistant_content_payloads db -> sound_content db'.
Proof.
  intros [H1 H2 H3] Hc He Hp. constructor; rewrite ?He, ?Hp; try done.
  intros cid n row Hr. destruct (H1 cid n row Hr) as (? & Hrest). split; [by apply Hc|]. by rewrite Hp.
Qed.

Lemma reply_frame db db' c r :
  assistant_content_events db' = assistant_content_events db ->
  assistant_content_payloads db' = assistant_content_payloads db -> reply db' c r = reply db c r.
Proof. intros He Hp. unfold reply, content_after, delta_of. by rewrite He, Hp. Qed.

(** [m'] shows the same text as [m]. *)
Definition same_text (m m' : MessageRow) : Prop :=
  m_conversation_id m' = m_conversation_id m /\ m_run_id m' = m_run_id m /\ m_role m' = m_role m
  /\ m_sequence m' = m_sequence m /\ m_body m' = m_body m /\ m_text_bytes m' = m_text_bytes m
  /\ m_created_at_ms m' = m_created_at_ms m /\ (message_check m = true -> message_check m' = true).

Lemma message_ok_same db db' m m' :
  message_ok db m -> same_text m m' ->
  (forall rid c, conv_of db rid = Some c -> conv_of db' rid = Some c) ->
  (m_role m = "assistant" -> reply db' (m_conversation_id m) (m_run_id m) = reply db (m_conversation_id m) (m_run_id m)) ->
  message_ok db' m'.
Proof.
  intros (H1 & H2 & H3 & H4 & H5 & H6) (E1 & E2 & E3 & E4 & E5 & E6 & E7 & E8) Hc Hr. unfold message_ok.
  rewrite E1, E2, E3, E5, E6, E7. split; [by apply Hc|]. split; [by apply E8|]. do 3 (split; [done|]).
  case_bool_decide; [by rewrite Hr|done].
Qed.

Lemma messages_frame db db' (g : MessageRow -> MessageRow) :
  sound_messages db -> assistant_messages db' = g <$> assistant_messages db ->
  (forall m, same_text m (g m)) ->
  (forall rid, conv_of db' rid = conv_of db rid) ->
  (forall c r, conv_of db r = Some c -> reply db' c r = reply db c r) -> sound_messages db'.
Proof.
  intros [H1 H2 H3 H4] Hm Hg Hc Hr.
  assert (forall id m', assistant_messages db' !! id = Some m' ->
            exists m, assistant_messages db !! id = Some m /\ m' = g m) as Hinv.
  { intros id m'. rewrite Hm, lookup_fmap_Some. intros (m & <- & ?). eauto. }
  constructor.
  - intros id m' (m & Hid & ->)%Hinv. eapply message_ok_same; [by eapply H1|done| |].
    + intros r c. by rewrite Hc.
    + intros _. apply Hr. by destruct (H1 id m Hid).
  - intros i j a' b' (a & Ha & ->)%Hinv (b & Hb & ->)%Hinv.
    destruct (Hg a) as (-> & _ & _ & -> & _), (Hg b) as (-> & _ & _ & -> & _). by eapply H2.
  - intros i j a' b' (a & Ha & ->)%Hinv (b & Hb & ->)%Hinv.
    destruct (Hg a) as (_ & -> & -> & _), (Hg b) as (_ & -> & -> & _). by eapply H3.
  - intros rid cid Hcid Hnone. rewrite Hc in Hcid. rewrite Hr by done. eapply H4; [done|].
    intros id m Hid. specialize (Hnone id (g m)). destruct (Hg m) as (_ & E2 & E3 & _).
    unfold is_preview_of in *. rewrite <- E2, <- E3. apply Hnone. by rewrite Hm, lookup_fmap, Hid.
Qed.

Lemma lifecycle_frame db db' :
  lifecycle db -> (forall rid, conv_of db' rid = conv_of db rid) ->
  (forall r, is_Some (conv_of db r) -> active db' r -> active db r) ->
  (forall r, is_Some (conv_of db r) -> ended db' r -> ended db r \/ marked db' r) ->
  (forall r c, conv_of db r = Some c -> live db' c <-> live db c) ->
  (forall r, marked db r -> marked db' r) ->
  (forall r c, conv_of db r = Some c -> active db' r -> marked db' r \/
     last_content_sequence c db' = last_content_sequence c db \/ last_content_sequence c db' < MAX_SEQUENCE) ->
  lifecycle db'.
Proof.
  intros [H1 H2 H3 H4] Hc Ha He Hl Hm Hn. constructor; intros *; rewrite ?Hc.
  - intros. eapply H1; eauto.
  - intros Hcr Hac. rewrite Hl by done. eapply H2; eauto.
  - intros Hcr Hac. destruct (Hn r c Hcr Hac) as [?|[Hsame|?]]; [by left| |by right].
    destruct (H3 r c Hcr) as [?|?]; eauto. right. by rewrite Hsame.
  - intros Hcr Hen. rewrite Hl by done. destruct (He r) as [?|?]; eauto.
Qed.

Lemma states_frame db db' (g : MessageRow -> MessageRow) :
  message_states db -> assistant_messages db' = g <$> assistant_messages db ->
  (forall m, m_run_id (g m) = m_run_id m) ->
  (forall id m, assistant_messages db !! id = Some m -> ended db' (m_run_id m) ->
     (ended db (m_run_id m) /\ status_of db' (m_run_id m) = status_of db (m_run_id m) /\ m_state (g m) = m_state m)
     \/ status_of db' (m_run_id m) = Some (m_state (g m))) ->
  message_states db'.
Proof.
  intros Hs Hm Hg Hc id m'. rewrite Hm, lookup_fmap_Some. intros (m & <- & Hid). rewrite Hg. intros He.
  destruct (Hc id m Hid He) as [(He0 & -> & ->)|?]; [by eapply Hs|done].
Qed.

(** The messages are the same and ended runs keep their state. *)
Lemma states_same db db' :
  message_states db -> assistant_messages db' = assistant_messages db ->
  (forall r, ended db' r -> ended db r /\ status_of db' r = status_of db r) -> message_states db'.
Proof.
  intros Hs Hm Hc id m. rewrite Hm. intros Hid [He ->]%Hc. by eapply Hs.
Qed.

Lemma markers_frame w db db' :
  markers_final w db -> (active db' w -> active db w \/ ~ marked db w) ->
  assistant_content_events db' = assistant_content_events db ->
  assistant_content_payloads db' = assistant_content_payloads db ->
  (marked db w -> status_of db' w = status_of db w) -> markers_final w db'.
Proof.
  intros [H1 H2 H3] Ha He Hp Hst. constructor.
  - rewrite marked_iff, He, <- marked_iff. intros [?|?]%Ha; auto.
  - rewrite He. apply H2.
  - rewrite He, Hp. intros cid n row Hr Hw Hk. rewrite Hst; [by eapply H3|]. apply marked_iff. eauto 10.
Qed.

(** A marked run belongs to a turn. *)
Lemma marked_conv db r : sound_content db -> marked db r -> exists c, conv_of db r = Some c.
Proof.
  intros Hs (c & n & row & Hr & <- & _)%marked_iff. exists c. by destruct (s_row _ Hs _ _ _ Hr).
Qed.

Lemma marked_or_not db r : marked db r \/ ~ marked db r.
Proof. unfold marked. destruct (terminal_marked r db); auto. Qed.

(** A call that changes no assistant table and no status of a turn's run. *)
Definition assistant_tables db :=
  (assistant_conversations db, assistant_turns db, assistant_messages db,
   assistant_content_events db, assistant_content_payloads db).

Lemma same_text_refl m : same_text m m.
Proof. done. Qed.

(** The parts of the invariant that do not mention the status of a run. *)
Definition parts db : Prop := bound db /\ sound_content db /\ sound_messages db.

Lemma legacy_parts db db' :
  parts db -> assistant_tables db' = assistant_tables db ->
  (forall rid row, runs db !! rid = Some row -> exists row', runs db' !! rid = Some row'
     /\ c_conversation_id row' = c_conversation_id row) -> parts db'.
Proof.
  intros (Hb & Hco & Hme) Heq Hr. injection Heq as E1 E2 E3 E4 E5.
  assert (forall rid, conv_of db' rid = conv_of db rid) as Hc by (intros; unfold conv_of; by rewrite E2).
  split; [|split].
  - eapply bound_frame; [done| | |done].
    + rewrite E2. eauto.
    + unfold known. by rewrite E1.
  - eapply content_frame; [done| |done..]. intros; by rewrite Hc.
  - eapply (messages_frame db db' id); [done| |done|done|].
    + by rewrite map_fmap_id, E3.
    + intros. by apply reply_frame.
Qed.

Lemma legacy_frame db db' :
  turns db -> assistant_tables db' = assistant_tables db ->
  (forall rid row, runs db !! rid = Some row -> exists row', runs db' !! rid = Some row'
     /\ c_conversation_id row' = c_conversation_id row
     /\ (is_Some (conv_of db rid) -> is_active_status (c_status row') = is_active_status (c_status row)
         /\ (is_active_status (c_status row) = false -> c_status row' = c_status row))) ->
  turns db' /\ (forall w, markers_final w db -> markers_final w db').
Proof.
  intros Ht Heq Hr. injection Heq as E1 E2 E3 E4 E5.
  assert (forall rid, conv_of db' rid = conv_of db rid) as Hc by (intros; unfold conv_of; by rewrite E2).
  assert (forall r, is_Some (conv_of db r) -> exists row row', runs db !! r = Some row /\ runs db' !! r = Some row'
            /\ is_active_status (c_status row') = is_active_status (c_status row)
            /\ (is_active_status (c_status row) = false -> c_status row' = c_status row)) as Hst.
  { intros r Hs. destruct Hs as [c Hcr]. pose proof Hcr as Hcr2. unfold conv_of in Hcr.
    apply fmap_Some in Hcr as (tn & Htn & ->).
    destruct (b_turn _ (t_bound _ Ht) r tn Htn) as (_ & _ & _ & row & Hrow & _).
    destruct (Hr r row Hrow) as (row' & Hrow' & _ & Hact). exists row, row'. split; [done|]. split; [done|].
    apply Hact. by eexists. }
  assert (forall r, is_Some (conv_of db r) -> active db' r -> active db r) as Ha.
  { intros r Hs (s & Hs' & Hact). destruct (Hst r Hs) as (row & row' & H1 & H2 & H3 & _).
    unfold status_of in Hs'. rewrite H2 in Hs'. injection Hs' as <-. exists (c_status row). unfold status_of. rewrite H1.
    split; [done|]. congruence. }
  split; [|intros w Hm; apply (markers_frame w db); try done].
  2:{ intros Hact. destruct (marked_or_not db w) as [Hmr|]; [left|by right].
      destruct (marked_conv db w) as (c & Hc'); [apply Ht|done|]. apply Ha; [by eexists|done]. }
  2:{ intros Hmr. destruct (marked_conv db w) as (c & Hc'); [apply Ht|done|].
      destruct (Hst w) as (row & row' & H1 & H2 & _ & H3); [by eexists|].
      unfold status_of. rewrite H1, H2. simpl. f_equal. apply H3. apply not_true_iff_false. intros Hact.
      apply (f_active _ _ Hm); [|done]. exists (c_status row). unfold status_of. by rewrite H1. }
  destruct (legacy_parts db db') as (Hb' & Hco' & Hme'); [by destruct Ht|by unfold assistant_tables; congruence| |].
  { intros rid row Hrow. destruct (Hr rid row Hrow) as (row' & ? & ? & _). eauto. }
  assert (forall r, is_Some (conv_of db r) -> ended db' r -> ended db r /\ status_of db' r = status_of db r) as Hen.
  { intros r Hs (s & Hs' & Hact). destruct (Hst r Hs) as (row & row' & H1 & H2 & H3 & H4).
    unfold status_of in Hs'. rewrite H2 in Hs'. injection Hs' as <-. unfold ended, status_of.
    rewrite H1, H2. simpl. rewrite H4 by congruence. split; [|done]. exists (c_status row). split; [done|congruence]. }
  destruct Ht as [Hb Hco Hme Hl Hms]. constructor; [done..| |].
  - eapply lifecycle_frame; [done..| | | |].
    + intros r Hs He. left. by apply Hen.
    + intros r c _. unfold live. by rewrite E1.
    + intros r. by rewrite !marked_iff, E4.
    + intros r c _ _. right. left. unfold last_content_sequence. by rewrite E4.
  - apply (states_frame db _ id); [done|by rewrite map_fmap_id, E3|done|].
    intros i m Hi He. left. destruct (m_row _ Hme i m Hi) as (Hc' & _).
    destruct (Hen (m_run_id m)) as [? ?]; [by eexists|done|]. done.
Qed.
End Turns.
