(* ===== verification/TurnMoves.v ===== *)
(** * The turn ledger: transitions and admission

    A transition of a run with its effect on the transcript, and the admission
    of a turn, keep the invariant of [TurnLedger]. *)
From stdpp Require Import base list gmap strings sorting relations.
From Stdlib Require Import ZArith Lia.
From S2P Require Import Prelude RustStr External Digest Tables RunContract StoreBase AssistantContent RunStore TurnContract TurnStore Preview RunLedger TurnLedger.
Import RunStateOps.

Open Scope Z_scope.
Open Scope rust_scope.

Section Moves.
Context {EX : External} {CC : ContentCodec} {MF : MillisFormat} {DG : Digest} {VJ : V4Json}.
Context {CL : ContentLaws}.
Implicit Types (db : RunDb) (rid cid : string).

(** ** Transitions *)
Lemma conv_of_turn db rid c : conv_of db rid = Some c <->
  exists tn, assistant_turns db !! rid = Some tn /\ tn_conversation_id tn = c.
Proof. unfold conv_of. rewrite fmap_Some. split; intros (tn & ? & ?); eauto. Qed.

Lemma conv_of_bound db rid c :
  bound db -> conv_of db rid = Some c ->
  uuid_canonical c = Some c /\ known db c
  /\ exists row, runs db !! rid = Some row /\ c_conversation_id row = Some c.
Proof. intros Hb (tn & Htn & <-)%conv_of_turn. by destruct (b_turn _ Hb rid tn Htn) as (_ & ? & ? & ?). Qed.

Lemma update_states_parts rid st db :
  parts db -> is_ok (parse_run_state st) = true -> parts (update_message_states rid st db).
Proof.
  intros (Hb & Hco & Hme) Hst. split; [|split].
  - by apply (bound_frame db); eauto.
  - by apply (content_frame db).
  - eapply (messages_frame db); [done|done| |done|done].
    intros m. cbv beta. destruct (bool_decide _); [|apply same_text_refl]. repeat (split; [done|]).
    unfold message_check. simpl. intros Hm. bools. repeat (apply andb_true_iff; split); try done; by apply Z.leb_le.
Qed.

Lemma is_ok_state s : is_ok (parse_run_state (state_as_str s)) = true.
Proof. by rewrite parse_state_as_str. Qed.

(** The terminal marker a transition writes, and why it can be refused. *)
Lemma sync_terminal_eq db (id cid : string) next ms `{!ExternalLaws} :
  parts db -> conv_of db id = Some cid -> uuid_canonical id = Some id -> is_terminal next = true ->
  marked db id \/ last_content_sequence cid db < MAX_SEQUENCE ->
  let db1 := update_message_states id (state_as_str next) db in
  let n := last_content_sequence cid db + 1 in
  if terminal_marked id db then sync_message_state id next ms db = (Ok tt, db1)
  else match content_refusal (Terminal next) (last_content_sequence cid db) ms with
       | None => sync_message_state id next ms db
                 = (Ok tt, add_content cid n (new_row id (Terminal next) ms) (content_json (Terminal next)) db1)
       | Some err => exists db2, sync_message_state id next ms db = (Err err, db2)
       end.
Proof.
  intros (Hb & Hco & Hme) Hc Hu Ht Hroom db1 n. unfold sync_message_state.
  pose proof Hc as (tn & Htn & Hcid)%conv_of_turn.
  assert (assistant_turns db !! (id : RunId) = Some tn) as Htn' by exact Htn.
  rewrite Htn', Ht. cbn [negb].
  change (terminal_marked id (update_message_states id (state_as_str next) db)) with (terminal_marked id db).
  destruct (terminal_marked id db) eqn:Hm; [done|].
  destruct Hroom as [?|Hroom]; [unfold marked in *; congruence|].
  destruct (conv_of_bound db id cid Hb Hc) as (Hcu & Hk & row & Hrow & _).
  assert (turn_conversation_id id (update_message_states id (state_as_str next) db) = Ok cid) as ->.
  { unfold turn_conversation_id, turn_conversation.
    change (assistant_turns (update_message_states id (state_as_str next) db)) with (assistant_turns db).
    rewrite Htn. simpl. rewrite Hcid.
    by rewrite (proj2 (id_from_str_ok cid cid) (conj eq_refl Hcu)). }
  pose proof (insert_content_event_eq cid id (Terminal next) ms db1) as Hins. simpl in Hins.
  assert (slen id = 36) as Hlen by by eapply uuid_length.
  specialize (Hins ltac:(by apply (content_frame db)) I Hk ltac:(by eexists) ltac:(lia)).
  change (last_content_sequence cid db1) with (last_content_sequence cid db) in Hins.
  fold db1. destruct (content_refusal (Terminal next) (last_content_sequence cid db) ms) as [err|] eqn:Href.
  - destruct (insert_content_event _ _ _ _ _) as [[ev|e] db2]; simpl in Hins; [discriminate|]. injection Hins as ->.
    exists db2. unfold content_refusal in Href. simpl in Href. rewrite Ht in Href. simpl in Href.
    destruct (Z.ltb_spec MAX_SEQUENCE (last_content_sequence cid db + 1)); [lia|].
    destruct (_ <? _); [by injection Href as <-|]. destruct (_ <? _); [by injection Href as <-|].
    destruct (_ <? _); [by injection Href as <-|]. discriminate.
  - by rewrite Hins.
Qed.

Lemma content_refusal_none p last now :
  content_refusal p last now = None -> V4ContentPayload_validate p = Ok tt
  /\ last + 1 <= MAX_SEQUENCE /\ (last + 1 = MAX_SEQUENCE -> is_terminal_payload p = true)
  /\ 0 <= now <= MAX_SAFE_INTEGER.
Proof.
  unfold content_refusal. destruct (V4ContentPayload_validate p) as [[]|]; [|discriminate].
  destruct (Z.ltb_spec MAX_SEQUENCE (last + 1)); [discriminate|].
  destruct (negb (is_terminal_payload p) && (last + 1 =? MAX_SEQUENCE)) eqn:Hr; [discriminate|].
  destruct (i64_max <? now); [discriminate|]. destruct (Z.ltb_spec now 0); [discriminate|].
  destruct (Z.ltb_spec MAX_SAFE_INTEGER now); [discriminate|]. intros _. split; [done|]. split; [lia|].
  split; [|lia]. intros Heq. apply Z.eqb_eq in Heq. rewrite Heq, andb_true_r in Hr. by apply negb_false_iff.
Qed.

Lemma active_status s : is_active_status (state_as_str s) = negb (is_terminal s).
Proof. by destruct s. Qed.

Lemma turns_parts db : turns db -> parts db.
Proof. by intros []. Qed.

Lemma update_states_turns rid st db :
  turns db -> active db rid -> is_ok (parse_run_state st) = true ->
  turns (update_message_states rid st db)
  /\ (forall w, markers_final w db -> markers_final w (update_message_states rid st db)).
Proof.
  intros Ht Ha Hst. destruct (update_states_parts rid st db (turns_parts _ Ht) Hst) as (? & ? & ?). split.
  - constructor; [done..| |]; [apply (lifecycle_frame db); auto; by destruct Ht|].
    eapply states_frame; [by destruct Ht|done| |]; intros m; cbv beta; [by case_bool_decide|].
    intros m' _ He. left. case_bool_decide as Heq; [|done]. by destruct (active_not_ended db rid Ha); rewrite <- Heq.
  - intros w Hm. by eapply markers_frame; [exact Hm|left|..].
Qed.

(** Messages after content was added: only the reply of that run grows. *)
Lemma added_messages db cid rid p now :
  sound_content db -> sound_messages db -> V4ContentPayload_validate p = Ok tt -> payload_typed p ->
  payload_text p = EmptyString ->
  sound_messages (add_content cid (last_content_sequence cid db + 1) (new_row rid p now) (content_json p) db).
Proof.
  intros Hs Hm Hv Hty Hp. eapply (messages_frame db _ id); [done|by rewrite map_fmap_id|done|done|].
  intros c r _. rewrite added_reply by done. rewrite Hp. destruct (bool_decide _); apply append_empty_r.
Qed.

Lemma added_parts db cid rid p now :
  parts db -> conv_of db rid = Some cid -> V4ContentPayload_validate p = Ok tt -> payload_typed p ->
  (forall t, p = TextDelta t -> valid_utf8 t) ->
  last_content_sequence cid db + 1 <= MAX_SEQUENCE ->
  (last_content_sequence cid db + 1 = MAX_SEQUENCE -> is_terminal_payload p = true) ->
  0 <= now <= MAX_SAFE_INTEGER -> payload_text p = EmptyString ->
  parts (add_content cid (last_content_sequence cid db + 1) (new_row rid p now) (content_json p) db).
Proof.
  intros (Hb & Hco & Hme) Hc Hv Hty Hu Hmax Hres Hnow Hp. split; [|split].
  - by apply (bound_frame db); eauto.
  - by apply added_sound.
  - by apply added_messages.
Qed.

(** Adding content keeps the marker of a run last, unless the run has one already. *)
Lemma added_markers w db cid rid p now :
  sound_content db -> V4ContentPayload_validate p = Ok tt ->
  (rid = w -> ~ marked db w) ->
  (forall c n m a b, assistant_content_events db !! (c, n) = Some a ->
    assistant_content_events db !! (c, m) = Some b -> ct_run_id a = w -> ct_run_id b = w ->
    is_terminal_kind (ct_kind a) = true -> m <= n) ->
  forall c n m a b (D := add_content cid (last_content_sequence cid db + 1) (new_row rid p now) (content_json p) db),
    assistant_content_events D !! (c, n) = Some a ->
    assistant_content_events D !! (c, m) = Some b -> ct_run_id a = w -> ct_run_id b = w ->
    is_terminal_kind (ct_kind a) = true -> m <= n.
Proof.
  intros Hs Hv Hum Hlast c n m a b D Ha Hb Hr Hr' Hk.
  destruct (last_content_spec cid db) as (_ & Hle & _).
  unfold D in Ha, Hb. rewrite added_lookup in Ha, Hb.
  destruct Ha as [(-> & -> & ->)|Ha], Hb as [(E1 & -> & ->)|Hb]; try subst c.
  - lia.
  - specialize (Hle _ _ Hb). lia.
  - exfalso. simpl in Hr'. apply Hum; [done|]. apply marked_iff. eauto 10.
  - by eapply Hlast.
Qed.

(** The tables after the run row moved to [next]. *)
Lemma moved_tables (db : RunDb) (id : string) row s next ts ev :
  runs db !! id = Some row -> row_valid id row s ->
  let db1 := append_tables id row (advance_row row next ts) ev ts db in
  (forall rid r, runs db !! rid = Some r -> exists r', runs db1 !! rid = Some r'
     /\ c_conversation_id r' = c_conversation_id r)
  /\ (forall r, status_of db1 r = if bool_decide (r = id) then Some (state_as_str next) else status_of db r)
  /\ status_of db id = Some (state_as_str s).
Proof.
  intros Hr Hv db1. split; [|split].
  - intros rid r Hrid. simpl. destruct (decide (id = rid)) as [<-|Hne].
    + rewrite lookup_insert_eq. eexists. split; [done|]. simpl. congruence.
    + rewrite lookup_insert_ne by done. eauto.
  - intros r. unfold status_of. simpl. case_bool_decide as Heq.
    + subst. by rewrite lookup_insert_eq.
    + by rewrite lookup_insert_ne by congruence.
  - unfold status_of. rewrite Hr. simpl. f_equal. apply Hv.
Qed.

Section Moved.
Context `{!ExternalLaws}.
Variables (db : RunDb) (id : string) (row : RunRow) (s next : RunState) (ts : string) (ev : NewRunEvent) (ms : Z).
Hypothesis Ht : turns db.
Hypothesis Hr : runs db !! id = Some row.
Hypothesis Hv : row_valid id row s.
Hypothesis Hs : is_terminal s = false.
Let db1 := append_tables id row (advance_row row next ts) ev ts db.

Lemma moved_status r :
  status_of db1 r = if bool_decide (r = id) then Some (state_as_str next) else status_of db r.
Proof. by apply (moved_tables db id row s next ts ev). Qed.

Lemma moved_parts : parts db1.
Proof.
  apply (legacy_parts db); [by apply turns_parts|done|].
  by apply (moved_tables db id row s next ts ev).
Qed.

Lemma moving_active : active db id.
Proof.
  exists (state_as_str s). unfold status_of. rewrite Hr. simpl. rewrite (rv_status _ _ _ Hv).
  by rewrite active_status, Hs.
Qed.

(** The move leaves the turns alone when the run is none, or stays active. *)
Lemma moved_turns :
  conv_of db id = None \/ is_terminal next = false -> turns db1 /\ (forall w, markers_final w db -> markers_final w db1).
Proof.
  intros Hcase. apply legacy_frame; [done|done|]. intros rid r Hrid.
  destruct (moved_tables db id row s next ts ev Hr Hv) as (Hconv & _ & Hst0).
  destruct (Hconv rid r Hrid) as (r' & Hr' & Hcc). exists r'. split; [done|]. split; [done|]. intros [c Hc].
  change (runs db1 !! rid = Some r') in Hr'.
  pose proof (moved_status rid) as Hst. unfold status_of in Hst, Hst0.
  rewrite Hr', Hrid in Hst. simpl in Hst. case_bool_decide as Heq; [|by injection Hst as ->]. subst rid.
  destruct Hcase as [Hn|Hn]; [congruence|]. rewrite Hrid in Hst0. simpl in Hst0.
  injection Hst as ->. injection Hst0 as ->. by rewrite !active_status, Hs, Hn.
Qed.

Section Ended.
Hypothesis Hn : is_terminal next = true.
Variable D : RunDb.
Hypothesis HD : runs D = runs db1.

(** The other runs did not move. *)
Lemma ended_active r : active D r -> active db r /\ r <> id.
Proof.
  intros (x & Hx & Hax). unfold status_of in Hx. rewrite HD in Hx. change (status_of db1 r = Some x) in Hx.
  rewrite moved_status in Hx. case_bool_decide; [|split; [by exists x|done]].
  injection Hx as <-. by rewrite active_status, Hn in Hax.
Qed.

Lemma ended_others r : ended D r -> ended db r \/ r = id.
Proof.
  intros (x & Hx & Hax). unfold status_of in Hx. rewrite HD in Hx. change (status_of db1 r = Some x) in Hx.
  rewrite moved_status in Hx. case_bool_decide; [by right|left; by exists x].
Qed.

Lemma ended_states :
  assistant_messages D = assistant_messages (update_message_states id (state_as_str next) db1) -> message_states D.
Proof.
  intros Hm. eapply states_frame; [by destruct Ht|exact Hm| |]; intros m; cbv beta; [by case_bool_decide|].
  intros m' _ He. case_bool_decide as Heq.
  - right. unfold status_of. rewrite HD, Heq. change (status_of db1 id = Some (state_as_str next)).
    rewrite moved_status. by rewrite bool_decide_eq_true_2.
  - left. apply ended_others in He as [He|?]; [|done]. split; [done|]. split; [|done].
    unfold status_of. rewrite HD. change (status_of db1 (m_run_id m') = status_of db (m_run_id m')).
    rewrite moved_status. by rewrite bool_decide_eq_false_2.
Qed.
End Ended.

(** The end of a turn that already has its marker. *)
Lemma ended_marked :
  is_terminal next = true -> marked db id -> let D := update_message_states id (state_as_str next) db1 in
  turns D /\ (forall w, markers_final w db -> markers_final w D).
Proof.
  intros Hn Hm D. destruct (update_states_parts id (state_as_str next) db1 moved_parts (is_ok_state next)) as (? & ? & ?).
  split.
  - constructor; [done..| |by apply ended_states]. eapply lifecycle_frame; [by destruct Ht|done| | |done|done|].
    + intros r _ Hra. by apply (ended_active Hn D).
    + intros r _ Hre. apply (ended_others D) in Hre as [?| ->]; [by left|by right|done].
    + intros; by right; left.
  - intros w Hmf. destruct (decide (w = id)) as [->|Hne]; [by destruct (f_active _ _ Hmf moving_active)|].
    apply (markers_frame w db); [done| |done|done|].
    + intros Hw. left. by apply (ended_active Hn D).
    + intros _. change (status_of db1 w = status_of db w). rewrite moved_status. by rewrite bool_decide_eq_false_2.
Qed.

(** The end of a turn with its marker written. *)
Lemma ended_marker (cid : string) :
  is_terminal next = true -> conv_of db id = Some cid ->
  content_refusal (Terminal next) (last_content_sequence cid db) ms = None ->
  let D := add_content cid (last_content_sequence cid db + 1) (new_row id (Terminal next) ms)
             (content_json (Terminal next)) (update_message_states id (state_as_str next) db1) in
  turns D /\ (forall w, markers_final w db -> markers_final w D).
Proof.
  intros Hn Hc Href. apply content_refusal_none in Href as (Hval & Hmax & Hres & Hnow).
  set (db2 := update_message_states id (state_as_str next) db1).
  assert (parts db2) as Hp2 by (apply update_states_parts; [apply moved_parts|apply is_ok_state]).
  change (last_content_sequence cid db) with (last_content_sequence cid db2) in *.
  destruct (added_parts db2 cid id (Terminal next) ms Hp2 Hc Hval I ltac:(done) Hmax Hres Hnow eq_refl) as (? & ? & ?).
  intros D. assert (forall r, marked D r <-> r = id \/ marked db r) as HmD.
  { intros r. unfold D. rewrite added_marked by done. change (marked db2 r) with (marked db r).
    split; [intros [[-> _]|?]; auto|intros [->|?]; auto]. }
  split.
  - constructor; [done..| |by apply ended_states]. eapply lifecycle_frame; [by destruct Ht|done| | |done| |].
    + intros r _ Hra. by apply (ended_active Hn D).
    + intros r _ Hre. apply (ended_others D) in Hre as [?| ->]; [by left|right; apply HmD; by left|done].
    + intros r Hmr. apply HmD. by right.
    + intros r c Hcr Hra. right. left. unfold D. rewrite added_last by done.
      rewrite bool_decide_eq_false_2; [done|]. intros ->. apply (ended_active Hn D) in Hra as [Hra Hne]; [|done].
      by apply Hne, (y_one _ (t_lifecycle _ Ht) r id cid), moving_active.
  - intros w Hm. constructor.
    + intros Hra. rewrite HmD. apply (ended_active Hn D) in Hra as [Hra Hne]; [|done].
      intros [?|Hmr]; [done|]. by apply (f_active _ _ Hm).
    + intros c n m a b. apply added_markers; [apply Hp2|done| |by apply (f_last _ _ Hm)].
      intros <-. change (marked db2 id) with (marked db id). apply (f_active _ _ Hm), moving_active.
    + intros c n x [(-> & -> & ->)|Hx]%added_lookup Hw Hk.
      * exists next. split; [apply (lookup_insert_eq (assistant_content_payloads db2))|].
        change (status_of db1 w = Some (state_as_str next)). rewrite moved_status.
        by rewrite bool_decide_eq_true_2.
      * destruct (f_state _ _ Hm c n x Hx Hw Hk) as (st & Hp & Hst). exists st. unfold D.
        rewrite (added_payload db2 cid id (Terminal next) ms c n x) by done. split; [done|].
        change (status_of db1 w = Some (state_as_str st)). rewrite moved_status.
        rewrite bool_decide_eq_false_2; [done|]. intros Heq. apply (f_active _ _ Hm); [rewrite Heq; apply moving_active|].
        apply marked_iff. eauto 10.
Qed.
End Moved.

Lemma update_and_append_turns `{!ExternalLaws} (db : RunDb) (id : string) row s next ev ts ms e db' :
  turns db -> runs db !! id = Some row -> row_valid id row s -> is_terminal s = false ->
  update_and_append (decoded id row s) next ev ts ms db = (Ok e, db') ->
  turns db' /\ (forall w, markers_final w db -> markers_final w db').
Proof.
  intros Ht Hr Hv Hs Hop.
  destruct (update_and_append_ok id row s next ev ts ms db e db' Hr Hv Hop) as (Hcan & _ & _).
  rewrite update_and_append_eq in Hop by done.
  pose proof (moved_turns db id row s next ts ev Ht Hr Hv Hs) as Hmt.
  pose proof (moved_parts db id row s next ts ev Ht Hr Hv) as Hp1.
  set (db1 := append_tables id row (advance_row row next ts) ev ts db) in *.
  destruct (sync_message_state id next ms db1) as [[[]|err] db2] eqn:Hsync; [|discriminate].
  injection Hop as _ <-. destruct (conv_of db id) as [cid|] eqn:Hc.
  2:{ assert (assistant_turns db1 !! (id : RunId) = None) as Hn
        by (unfold conv_of in Hc; by apply fmap_None in Hc).
      rewrite sync_message_state_none in Hsync by done. injection Hsync as <-. apply Hmt. by left. }
  destruct (is_terminal next) eqn:Hterm.
  2:{ destruct (Hmt (or_intror eq_refl)) as [Ht1 Hm1].
      assert (active db1 id) as Hact.
      { exists (state_as_str next). split; [|by rewrite active_status, Hterm].
        unfold db1. rewrite (moved_status db id row s) by done. by rewrite bool_decide_eq_true_2. }
      destruct (update_states_turns id (state_as_str next) db1 Ht1 Hact (is_ok_state next)) as [Ht2 Hm2].
      unfold sync_message_state in Hsync. pose proof Hc as (tn & Htn & _)%conv_of_turn.
      assert (assistant_turns db1 !! (id : RunId) = Some tn) as Hn by exact Htn.
      rewrite Hn, Hterm in Hsync. cbn [negb] in Hsync. injection Hsync as <-. auto. }
  pose proof (y_room _ (t_lifecycle _ Ht) id cid Hc (moving_active db id row s Hr Hv Hs)) as Hroom.
  pose proof (sync_terminal_eq db1 id cid next ms Hp1 Hc (rv_id _ _ _ Hv) Hterm Hroom) as Heq. simpl in Heq.
  change (terminal_marked id db1) with (terminal_marked id db) in Heq.
  change (last_content_sequence cid db1) with (last_content_sequence cid db) in Heq.
  destruct (terminal_marked id db) eqn:Hmk.
  - rewrite Hsync in Heq. injection Heq as ->. by eapply ended_marked.
  - destruct (content_refusal (Terminal next) (last_content_sequence cid db) ms) as [err|] eqn:Href.
    { destruct Heq as (db3 & Heq). by rewrite Hsync in Heq. }
    rewrite Hsync in Heq. injection Heq as ->. by eapply ended_marker.
Qed.

(** Why a clock cannot be written into an end marker. *)
Definition clock_refusal (ms : Z) : option StoreError :=
  if i64_max <? ms then Some (InvalidInput "ts range")
  else if MAX_SAFE_INTEGER <? ms then Some (CorruptData "content event invalid") else None.

Lemma content_refusal_clock last ms st :
  is_terminal st = true -> last < MAX_SEQUENCE -> 0 <= ms ->
  content_refusal (Terminal st) last ms = clock_refusal ms.
Proof.
  intros Ht Hl Hms. unfold content_refusal, clock_refusal. simpl. unfold ensure. rewrite Ht.
  destruct (Z.ltb_spec MAX_SEQUENCE (last + 1)); [lia|]. simpl.
  destruct (i64_max <? ms); [done|]. by destruct (Z.ltb_spec ms 0); [lia|].
Qed.

Lemma clock_in_range ms : ms <= MAX_SAFE_INTEGER -> clock_refusal ms = None.
Proof.
  intros Hms. unfold clock_refusal. destruct (Z.ltb_spec i64_max ms); [unfold MAX_SAFE_INTEGER, i64_max in *; lia|].
  by destruct (Z.ltb_spec MAX_SAFE_INTEGER ms); [lia|].
Qed.

(** Why the transcript of a turn refuses a transition of its run: an end marker is
    to be written and the clock has no place in it. *)
Definition marker_refusal (db : RunDb) (id : string) (next : RunState) (ms : Z) : option StoreError :=
  if is_terminal next && bool_decide (is_Some (assistant_turns db !! id)) && negb (terminal_marked id db)
  then clock_refusal ms else None.

Lemma marker_refusal_clock db id next ms : clock_refusal ms = None -> marker_refusal db id next ms = None.
Proof. unfold marker_refusal. intros ->. by destruct (_ && _). Qed.

Lemma update_and_append_cases `{!ExternalLaws} (db : RunDb) (id : string) row s next ev ts ms :
  turns db -> runs db !! id = Some row -> row_valid id row s -> is_terminal s = false ->
  can_append id row db -> 0 <= ms ->
  match marker_refusal db id next ms with
  | Some err => exists db', update_and_append (decoded id row s) next ev ts ms db = (Err err, db')
  | None => exists db', update_and_append (decoded id row s) next ev ts ms db = (Ok (stored_event id row ev ts), db')
      /\ (is_Some (conv_of db id) -> is_terminal next = true -> marked db' id)
  end.
Proof.
  intros Ht Hr Hv Hs Hcan Hms. rewrite update_and_append_eq by done. unfold marker_refusal.
  pose proof (moved_parts db id row s next ts ev Ht Hr Hv) as Hp1.
  set (db1 := append_tables id row (advance_row row next ts) ev ts db) in *.
  destruct (conv_of db id) as [cid|] eqn:Hc.
  2:{ assert (assistant_turns db1 !! (id : RunId) = None) as Hn by (unfold conv_of in Hc; by apply fmap_None in Hc).
      rewrite (bool_decide_eq_false_2 (is_Some (assistant_turns db !! id))), andb_false_r
        by (intros [y Hy]; assert (assistant_turns db1 !! (id : RunId) = Some y) by exact Hy; congruence).
      rewrite sync_message_state_none by done. eexists. split; [done|]. by intros [? ?]. }
  pose proof Hc as (tn & Htn & _)%conv_of_turn.
  rewrite (bool_decide_eq_true_2 (is_Some (assistant_turns db !! id))) by by eexists.
  destruct (is_terminal next) eqn:Hterm; cbn [andb].
  2:{ unfold sync_message_state.
      assert (assistant_turns db1 !! (id : RunId) = Some tn) as Hn by exact Htn.
      rewrite Hn, Hterm. cbn [negb]. by eexists. }
  pose proof (y_room _ (t_lifecycle _ Ht) id cid Hc (moving_active db id row s Hr Hv Hs)) as Hroom.
  pose proof (sync_terminal_eq db1 id cid next ms Hp1 Hc (rv_id _ _ _ Hv) Hterm Hroom) as Heq. simpl in Heq.
  change (terminal_marked id db1) with (terminal_marked id db) in Heq.
  change (last_content_sequence cid db1) with (last_content_sequence cid db) in Heq.
  destruct (terminal_marked id db) eqn:Hmk; cbn [negb]; [rewrite Heq; by eexists|].
  destruct Hroom as [?|Hroom]; [unfold marked in *; congruence|].
  rewrite content_refusal_clock in Heq by done. destruct (clock_refusal ms) as [err|].
  { destruct Heq as (db3 & ->). by eexists. }
  rewrite Heq. eexists. split; [done|]. intros _ _.
  change (last_content_sequence cid db)
    with (last_content_sequence cid (update_message_states id (state_as_str next) db1)).
  apply added_marked; [|by left]. simpl. unfold ensure. by rewrite Hterm.
Qed.

(** With a clock in range no transition of a turn is refused by its transcript. *)
Lemma update_and_append_total `{!ExternalLaws} (db : RunDb) (id : string) row s next ev ts ms :
  turns db -> runs db !! id = Some row -> row_valid id row s -> is_terminal s = false ->
  can_append id row db -> 0 <= ms <= MAX_SAFE_INTEGER ->
  exists db', update_and_append (decoded id row s) next ev ts ms db = (Ok (stored_event id row ev ts), db')
    /\ (is_Some (conv_of db id) -> is_terminal next = true -> marked db' id).
Proof.
  intros Ht Hr Hv Hs Hcan Hms.
  pose proof (update_and_append_cases db id row s next ev ts ms Ht Hr Hv Hs Hcan ltac:(lia)) as Hcases.
  rewrite marker_refusal_clock in Hcases; [done|]. apply clock_in_range. lia.
Qed.

(** ** Statements that succeeded *)
Lemma insert_message_row_ok id m db x db' :
  insert_message_row id m db = (Ok x, db') ->
  message_check m = true /\ assistant_messages db !! id = None
  /\ (forall i a, assistant_messages db !! i = Some a -> m_conversation_id a = m_conversation_id m ->
        m_sequence a <> m_sequence m)
  /\ db' = set_messages (<[id := m]> (assistant_messages db)) db.
Proof.
  unfold insert_message_row. destruct (message_check m); [|discriminate].
  destruct (negb _); [discriminate|]. destruct (assistant_messages db !! id) eqn:Hi; [discriminate|].
  destruct (message_sequence_taken _ _ db) eqn:Hs; [discriminate|].
  destruct (_ || _); [discriminate|]. intros [= _ <-]. split; [done|]. split; [done|]. split; [|done].
  intros i a Ha Hc Hq. pose proof (proj1 (fold_exists_false
    (fun (_ : string) r => bool_decide (m_conversation_id r = m_conversation_id m) && (m_sequence r =? m_sequence m)) _) Hs i a Ha) as Hf.
  simpl in Hf. by rewrite bool_decide_eq_true_2, Hq, Z.eqb_refl in Hf.
Qed.

Lemma insert_turn_row_ok rid row db x db' :
  insert_turn_row rid row db = (Ok x, db') ->
  turn_check row = true /\ assistant_turns db !! rid = None /\ known db (tn_conversation_id row)
  /\ db' = set_turns (<[rid := row]> (assistant_turns db)) db.
Proof.
  unfold insert_turn_row. destruct (turn_check row); [|discriminate]. cbn [negb].
  destruct (assistant_turns db !! rid) eqn:Hi; [discriminate|].
  destruct (match tn_user_message_id row with Some _ => _ | None => _ end); [discriminate|].
  destruct (assistant_conversations db !! tn_conversation_id row) eqn:Hc.
  - destruct (_ || _); [discriminate|]. intros [= _ <-]. unfold known. rewrite Hc. by eauto.
  - rewrite (bool_decide_eq_true_2 (None = None)), orb_true_r by done. discriminate.
Qed.

Lemma update_conversation_row_ok id f db x db' :
  update_conversation_row id f db = (Ok x, db') ->
  (assistant_conversations db !! id = None /\ db' = db)
  \/ exists row, assistant_conversations db !! id = Some row /\ conversation_check (f row) = true
       /\ db' = set_assistant_conversations (<[id := f row]> (assistant_conversations db)) db.
Proof.
  unfold update_conversation_row. destruct (assistant_conversations db !! id) as [row|] eqn:Hr.
  - destruct (conversation_check (f row)) eqn:Hc; [|discriminate]. intros [= _ <-]. right. eauto.
  - intros [= _ <-]. by left.
Qed.

Lemma conversation_row_live id db c : conversation_row id db = Ok (Some c) -> live db id.
Proof.
  unfold conversation_row. destruct (assistant_conversations db !! id) as [row|] eqn:Hr; [|discriminate].
  destruct (cv_deleted row) eqn:Hd; [discriminate|]. intros _. exists row.
  split; [exact Hr|done].
Qed.

Lemma active_runs_none cid db :
  active_runs cid db <= 0 <-> forall rid row, runs db !! rid = Some row ->
    c_conversation_id row = Some cid -> is_active_status (c_status row) = false.
Proof.
  unfold active_runs. rewrite count_zero. split.
  - intros Hn rid row Hr Hc. apply not_true_iff_false. intros Ha. by apply (Hn rid row Hr).
  - intros Hn rid row Hr [Hc Ha]. simpl in *. by rewrite (Hn rid row Hr Hc) in Ha.
Qed.

(** Without an active run a conversation has no active turn. *)
Lemma no_active_turn cid db r :
  bound db -> active_runs cid db <= 0 -> conv_of db r = Some cid -> ~ active db r.
Proof.
  intros Hb Hn Hc (st & Hst & Ha). destruct (conv_of_bound db r cid Hb Hc) as (_ & _ & row & Hr & Hcc).
  rewrite active_runs_none in Hn. unfold status_of in Hst. rewrite Hr in Hst. injection Hst as <-.
  by rewrite (Hn r row Hr Hcc) in Ha.
Qed.

Lemma ms_ok v m : ms v = Ok m <-> m = v /\ v <= i64_max.
Proof. unfold ms. destruct (Z.leb_spec v i64_max); split; [by intros [= <-]|by intros [-> _]|discriminate|lia]. Qed.

Lemma stamp_range `{!MillisFormatLaws} v ts : stamp v = Ok ts -> v <= MAX_SAFE_INTEGER.
Proof.
  unfold stamp. destruct (ms v) as [m|] eqn:Hm; [|discriminate]. apply ms_ok in Hm as [-> _].
  destruct (rfc3339_millis v) as [x|] eqn:Hr; [|discriminate]. intros _. apply rfc3339_millis_range in Hr.
  unfold MAX_SAFE_INTEGER. lia.
Qed.

(** The tables after a turn was admitted. *)
Record turn_admitted (s : V4SubmitTurn) (run msg : string) (now : Z) db db' : Prop := {
  ta_new : runs db !! run = None;
  ta_runs : exists ts, runs db' = <[run := admitted_row (turn_run s) ts]> (runs db);
  ta_message : exists m, m_conversation_id m = st_conversation_id s /\ m_run_id m = run /\ m_role m = "user"
    /\ m_body m = st_input s /\ m_text_bytes m = slen (st_input s) /\ m_created_at_ms m = now
    /\ m_sequence m = next_message_sequence (st_conversation_id s) db
    /\ message_check m = true /\ assistant_messages db !! msg = None
    /\ (forall i a, assistant_messages db !! i = Some a -> m_conversation_id a = m_conversation_id m ->
          m_sequence a <> m_sequence m)
    /\ assistant_messages db' = <[msg := m]> (assistant_messages db);
  ta_turn : exists tn, tn_conversation_id tn = st_conversation_id s /\ turn_ok tn = true
    /\ tn_user_sequence tn = next_message_sequence (st_conversation_id s) db /\ tn_route_id tn = st_route_id s
    /\ tn_user_message_id tn = Some msg
    /\ assistant_turns db !! run = None /\ assistant_turns db' = <[run := tn]> (assistant_turns db);
  ta_conversation : exists row, assistant_conversations db !! (st_conversation_id s : string) = Some row
    /\ conversation_check (set_updated now row) = true
    /\ assistant_conversations db' = <[(st_conversation_id s : string) := set_updated now row]> (assistant_conversations db);
  ta_content : assistant_content_events db' = assistant_content_events db;
  ta_payloads : assistant_content_payloads db' = assistant_content_payloads db;
  ta_time : now <= MAX_SAFE_INTEGER;
  ta_reply : forall tn, assistant_turns db' !! run = Some tn -> tn_assistant_message_id tn = None;
}.

Lemma insert_turn_ok `{!MillisFormatLaws} s (run msg : string) now db sub db' :
  insert_turn s run msg now db = (Ok sub, db') ->
  turn_admitted s run msg now db db'
  /\ sub = mkV4TurnSubmission (st_conversation_id s) run (st_idempotency_key s)
             (next_message_sequence (st_conversation_id s) db) Queued false.
Proof.
  unfold insert_turn. intros Hop. apply tbind_ok in Hop as (ts & db0 & Hs & Hop).
  unfold tlift in Hs. injection Hs as Hs <-. apply stamp_range in Hs.
  apply tbind_ok in Hop as (x & db1 & Hr & Hop). apply insert_run_row_ok in Hr as (Hr & _ & _ & ->).
  apply tbind_ok in Hop as (y & db2 & He & Hop). apply insert_event_row_ok in He as (_ & _ & _ & ->).
  apply tbind_ok in Hop as (seq & db3 & Hq & Hop). unfold tread in Hq. injection Hq as <- <-.
  apply tbind_ok in Hop as (sq & db3 & Hq & Hop). unfold tlift in Hq. injection Hq as Hq <-.
  apply sql_sequence_ok in Hq as [-> _].
  apply tbind_ok in Hop as (n & db3 & Hn & Hop). unfold tlift in Hn. injection Hn as Hn <-. apply ms_ok in Hn as [-> _].
  apply tbind_ok in Hop as (z & db3 & Hm & Hop). apply insert_message_row_ok in Hm as (Hmc & Hmn & Hmu & ->).
  apply tbind_ok in Hop as (w & db3 & Hp & Hop).
  assert (exists t, db3 = set_profiles t (set_messages (<[msg := mkMessageRow (st_conversation_id s) run "user"
             (next_message_sequence (st_conversation_id s) db) (st_input s) (slen (st_input s)) true "queued" now]>
             (assistant_messages db)) (set_run_events (<[(run, 1) := mkEventRow "run_queued" "{}" ts]> (run_events db))
             (set_runs (<[run := admitted_row (turn_run s) ts]> (runs db)) db)))) as (t & ->).
  { unfold insert_or_ignore_profile in Hp. case_match; simplify_eq; [by exists (assistant_profiles db)|by eexists]. }
  apply tbind_ok in Hop as (v & db3 & Ht & Hop). apply insert_turn_row_ok in Ht as (Htc & Htn & Hk & ->).
  apply tbind_ok in Hop as (u & db3 & Hc & Hop).
  apply update_conversation_row_ok in Hc as [[Hc _]|(row & Hrow & Hcc & ->)].
  { unfold known in Hk. simpl in Hk, Hc. destruct Hk as [? Hk]. congruence. }
  apply tbind_ok in Hop as (q & db3 & Hval & Hop). unfold tlift in Hval. injection Hval as Hval <-.
  unfold tret in Hop. injection Hop as <- <-. split; [|done]. constructor; [done| | | | |done|done|done|].
  - by exists ts.
  - exists (mkMessageRow (st_conversation_id s) run "user" (next_message_sequence (st_conversation_id s) db)
              (st_input s) (slen (st_input s)) true "queued" now).
    do 7 (split; [reflexivity|]). eauto.
  - exists (mkTurnRow (st_conversation_id s) (Some msg) None (next_message_sequence (st_conversation_id s) db)
              (st_route_id s) "desk.default" now).
    split; [reflexivity|]. split; [|split; [reflexivity|split; [reflexivity|split; [reflexivity|split; [exact Htn|reflexivity]]]]].
    apply andb_true_iff. split; [exact Htc|]. unfold V4TurnSubmission_validate, ensure in Hval.
    cbn [ts_user_message_sequence] in Hval.
    destruct (_ && (_ <=? MAX_SAFE_INTEGER)) eqn:Hb; [|discriminate Hval].
    apply andb_true_iff in Hb as [_ Hb]. exact Hb.
  - exists row. split; [exact Hrow|]. split; [exact Hcc|done].
  - intros tn. simpl. rewrite lookup_insert_eq. by intros [= <-].
Qed.

(** ** Admission *)
Section AdmittedTurn.
Variables (s : V4SubmitTurn) (run msg : string) (now : Z) (db db' : RunDb).
Hypothesis Ha : turn_admitted s run msg now db db'.
Hypothesis Ht : turns db.
Hypothesis Hty : uuid_canonical (st_conversation_id s) = Some (st_conversation_id s).
Hypothesis Hval : V4SubmitTurn_validate s = Ok tt.
Hypothesis Hutf : valid_utf8 (st_input s).
Hypothesis Hidle : active_runs (st_conversation_id s) db <= 0.
Hypothesis Hroom : last_content_sequence (st_conversation_id s) db <= MAX_SEQUENCE - 2.
Hypothesis Hlive : live db (st_conversation_id s).
Let conv := st_conversation_id s.

Lemma admitted_conv_of r : conv_of db' r = if bool_decide (r = run) then Some conv else conv_of db r.
Proof.
  destruct (ta_turn _ _ _ _ _ _ Ha) as (tn & Hc & _ & _ & _ & _ & _ & E). unfold conv_of. rewrite E.
  case_bool_decide as Heq.
  - subst r. rewrite lookup_insert_eq. simpl. by rewrite Hc.
  - by rewrite lookup_insert_ne by congruence.
Qed.

Lemma admitted_fresh : conv_of db run = None.
Proof. destruct (ta_turn _ _ _ _ _ _ Ha) as (tn & _ & _ & _ & _ & _ & Hn & _). unfold conv_of. by rewrite Hn. Qed.

Lemma admitted_conv_old r c : conv_of db r = Some c -> conv_of db' r = Some c.
Proof.
  intros Hc. rewrite admitted_conv_of. case_bool_decide; [|done]. subst r. by rewrite admitted_fresh in Hc.
Qed.

Lemma admitted_live c : live db' c <-> live db c.
Proof.
  destruct (ta_conversation _ _ _ _ _ _ Ha) as (row & Hrow & _ & E). unfold live. rewrite E.
  destruct (decide (c = st_conversation_id s)) as [->|Hne].
  - rewrite lookup_insert_eq, Hrow. split.
    + intros (x & [= <-] & Hd). by exists row.
    + intros (x & [= <-] & Hd). by exists (set_updated now row).
  - by rewrite lookup_insert_ne by congruence.
Qed.

Lemma admitted_status r :
  status_of db' r = if bool_decide (r = run) then Some "queued" else status_of db r.
Proof.
  destruct (ta_runs _ _ _ _ _ _ Ha) as (ts & E). unfold status_of. rewrite E. case_bool_decide as Heq.
  - subst r. by rewrite lookup_insert_eq.
  - by rewrite lookup_insert_ne by congruence.
Qed.

Lemma admitted_reply c r : reply db' c r = reply db c r.
Proof. apply reply_frame; apply Ha. Qed.

(** The new run has no content yet. *)
Lemma admitted_no_content c n row :
  assistant_content_events db !! (c, n) = Some row -> ct_run_id row <> run.
Proof.
  intros Hr Heq. destruct (s_row _ (t_content _ Ht) _ _ _ Hr) as (Hc & _). rewrite Heq in Hc.
  by rewrite admitted_fresh in Hc.
Qed.

Lemma admitted_marked r : marked db' r <-> marked db r.
Proof. by rewrite !marked_iff, (ta_content _ _ _ _ _ _ Ha). Qed.
Lemma admitted_unmarked : ~ marked db run.
Proof. intros (c & n & row & Hr & Heq & _)%marked_iff. by eapply admitted_no_content. Qed.

Lemma admitted_bound : bound db'.
Proof.
  destruct (ta_runs _ _ _ _ _ _ Ha) as (ts & Er).
  destruct (ta_turn _ _ _ _ _ _ Ha) as (tn & Hc & Hck & _ & _ & _ & _ & Et).
  destruct (ta_conversation _ _ _ _ _ _ Ha) as (crow & Hcrow & _ & Ec).
  assert (forall c, known db c -> known db' c) as Hknown.
  { intros c. unfold known. rewrite Ec. intros [x Hx]. destruct (decide (c = st_conversation_id s)) as [->|].
    - by rewrite lookup_insert_eq.
    - rewrite lookup_insert_ne by congruence. by eexists. }
  constructor. rewrite Et, Er. intros rid tn' [[<- <-]|[Hne Htn]]%lookup_insert_Some.
  - split; [done|]. rewrite Hc. split; [done|]. split; [apply Hknown; by eexists|].
    rewrite lookup_insert_eq. eexists. split; [done|]. done.
  - destruct (b_turn _ (t_bound _ Ht) rid tn' Htn) as (? & ? & ? & Hrow). split; [done|]. split; [done|].
    split; [by apply Hknown|]. by rewrite lookup_insert_ne.
Qed.

Lemma admitted_content : sound_content db'.
Proof. apply (content_frame db); [by apply Ht|apply admitted_conv_old|apply Ha|apply Ha]. Qed.

Lemma submitted_text : contains_nul (st_input s) = false.
Proof.
  unfold V4SubmitTurn_validate in Hval. destruct (route _); [|discriminate]. unfold text, ensure in Hval.
  destruct (_ && _) eqn:Hb; [|discriminate]. by bools.
Qed.

Lemma admitted_messages : sound_messages db'.
Proof.
  destruct (t_messages _ Ht) as [H1 H2 H3 H4].
  destruct (ta_message _ _ _ _ _ _ Ha) as (m & E1 & E2 & E3 & E4 & E5 & E6 & E7 & Hck & Hnone & Huniq & Em).
  constructor.
  - intros id m'. rewrite Em. intros [[<- <-]|[Hne Hid]]%lookup_insert_Some.
    + unfold message_ok. rewrite E1, E2, E3, E4, E5, E6. split; [rewrite admitted_conv_of; by rewrite bool_decide_eq_true_2|].
      split; [done|]. split; [apply Ha|]. split; [done|]. split; [apply submitted_text|].
      by rewrite bool_decide_eq_false_2.
    + eapply message_ok_same; [by eapply H1|apply same_text_refl|apply admitted_conv_old|].
      intros _. apply admitted_reply.
  - intros i j a b. rewrite Em.
    intros [[<- <-]|[Hni Hi]]%lookup_insert_Some [[<- <-]|[Hnj Hj]]%lookup_insert_Some Hc Hq; [done| | |by eapply H2].
    + by destruct (Huniq j b Hj).
    + by destruct (Huniq i a Hi).
  - intros i j a b. rewrite Em.
    intros [[<- <-]|[Hni Hi]]%lookup_insert_Some [[<- <-]|[Hnj Hj]]%lookup_insert_Some Hr Ha1 Hb1;
      [done|congruence|congruence|by eapply H3].
  - intros rid cid. rewrite admitted_conv_of, admitted_reply. case_bool_decide as Heq.
    + subst rid. intros [= <-] _. unfold reply. destruct (content_after conv run 0 db) as [|[n row] l] eqn:Hl; [done|].
      exfalso. assert ((n, row) ∈ content_after conv run 0 db) as (Hr & Hrun & _)%elem_of_content by (rewrite Hl; left).
      by eapply admitted_no_content.
    + intros Hc Hno. eapply H4; [done|]. intros id m' Hid. apply (Hno id). rewrite Em.
      rewrite lookup_insert_ne; [done|]. intros ->. congruence.
Qed.

Lemma admitted_active r : r <> run -> active db' r <-> active db r.
Proof. intros Hne. unfold active. by rewrite admitted_status, bool_decide_eq_false_2. Qed.

Lemma admitted_lifecycle : lifecycle db'.
Proof.
  destruct (t_lifecycle _ Ht) as [H1 H2 H3 H4].
  assert (forall r, conv_of db' r = Some conv -> active db' r -> r = run) as Honly.
  { intros r Hc Hac. destruct (decide (r = run)) as [|Hne]; [done|exfalso].
    rewrite admitted_conv_of, bool_decide_eq_false_2 in Hc by done. rewrite admitted_active in Hac by done.
    by eapply (no_active_turn conv db r); [apply Ht| | |]. }
  assert (forall r c, conv_of db' r = Some c -> r <> run -> conv_of db r = Some c) as Hold.
  { intros r c Hc Hne. by rewrite admitted_conv_of, bool_decide_eq_false_2 in Hc. }
  assert (conv_of db' run = Some conv) as Hnew by (by rewrite admitted_conv_of, bool_decide_eq_true_2).
  constructor.
  - intros r1 r2 c Hc1 Hc2 Ha1 Ha2. destruct (decide (r1 = run)) as [->|Hn1], (decide (r2 = run)) as [->|Hn2].
    + done.
    + symmetry. apply Honly; [congruence|done].
    + apply Honly; [congruence|done].
    + rewrite admitted_active in Ha1, Ha2 by done. eapply H1; eauto.
  - intros r c Hc Hac. rewrite admitted_live. destruct (decide (r = run)) as [->|Hne]; [by simplify_eq|].
    rewrite admitted_active in Hac by done. eauto.
  - intros r c Hc Hac. rewrite admitted_marked. unfold last_content_sequence. rewrite (ta_content _ _ _ _ _ _ Ha).
    fold (last_content_sequence c db). destruct (decide (r = run)) as [->|Hne].
    + right. assert (c = conv) as -> by congruence. unfold conv. lia.
    + rewrite admitted_active in Hac by done. eauto.
  - intros r c Hc (st & Hst & Hen) Hl. rewrite admitted_marked. rewrite admitted_live in Hl.
    rewrite admitted_status in Hst. case_bool_decide as Heq; [by injection Hst as <-|].
    eapply H4; [by apply Hold|by exists st|done].
Qed.

Lemma admitted_states : message_states db'.
Proof.
  destruct (ta_message _ _ _ _ _ _ Ha) as (m & _ & E2 & _ & _ & _ & _ & _ & _ & _ & _ & Em).
  intros id m'. rewrite Em. intros [[<- <-]|[_ Hid]]%lookup_insert_Some (st & Hst & Hen).
  - rewrite admitted_status, bool_decide_eq_true_2 in Hst by done. by injection Hst as <-.
  - rewrite admitted_status in *. case_bool_decide; [by injection Hst as <-|].
    eapply (t_states _ Ht); [exact Hid|]. by exists st.
Qed.

Lemma admitted_turns : turns db' /\ (forall w, markers_final w db -> markers_final w db').
Proof.
  split; [constructor; auto using admitted_bound, admitted_content, admitted_messages, admitted_lifecycle, admitted_states|].
  intros w [F1 F2 F3]. constructor.
  - intros Hac. rewrite admitted_marked. destruct (decide (w = run)) as [->|Hne]; [apply admitted_unmarked|].
    rewrite admitted_active in Hac by done. eauto.
  - rewrite (ta_content _ _ _ _ _ _ Ha). apply F2.
  - rewrite (ta_content _ _ _ _ _ _ Ha), (ta_payloads _ _ _ _ _ _ Ha). intros c n x Hx Hw Hk.
    rewrite admitted_status, bool_decide_eq_false_2 by (rewrite <- Hw; by eapply admitted_no_content). by eapply F3.
Qed.
End AdmittedTurn.
End Moves.
