(* ===== verification/TurnSteps.v ===== *)
(** * The turn ledger: every store call

    The changes to conversations, the removal of a transcript and the appends
    keep the invariant of [TurnLedger], and so does every call of [store_step]. *)
From stdpp Require Import base list gmap strings sorting relations.
From Stdlib Require Import ZArith Lia.
From S2P Require Import Prelude RustStr External Digest Tables RunContract StoreBase AssistantContent RunStore TurnContract TurnStore Preview RunLedger TurnLedger TurnMoves.
Import RunStateOps.

Open Scope Z_scope.
Open Scope rust_scope.

Section Steps.
Context {EX : External} {CC : ContentCodec} {MF : MillisFormat} {DG : Digest} {VJ : V4Json}.
Context {CL : ContentLaws}.
Implicit Types (db : RunDb) (rid cid : string).

(** ** Conversations *)

(** The tables after a change to the conversations alone. *)
Lemma conversations_turns db t :
  turns db -> (forall c, known db c -> is_Some (t !! c)) ->
  (forall c, known db c -> live (set_assistant_conversations t db) c <-> live db c) ->
  turns (set_assistant_conversations t db)
  /\ (forall w, markers_final w db -> markers_final w (set_assistant_conversations t db)).
Proof.
  intros Ht Hk Hl. split; [|intros w Hm; by eapply markers_frame; [exact Hm|left|..]].
  destruct Ht as [Hb Hco Hme Hli Hms]. constructor; [| | | |by apply (states_same db)].
  - apply (bound_frame db); eauto.
  - by apply (content_frame db).
  - eapply (messages_frame db _ id); [done|by rewrite map_fmap_id|done|done|done].
  - apply (lifecycle_frame db); auto. intros r c Hc. apply Hl. by destruct (conv_of_bound db r c Hb Hc) as (_ & ? & _).
Qed.

Lemma inserted_conversation_turns db (id : string) row :
  turns db -> assistant_conversations db !! id = None ->
  turns (set_assistant_conversations (<[id := row]> (assistant_conversations db)) db)
  /\ (forall w, markers_final w db -> markers_final w (set_assistant_conversations (<[id := row]> (assistant_conversations db)) db)).
Proof.
  intros Ht Hn. apply conversations_turns; [done| |].
  - intros c [x Hx]. rewrite lookup_insert_ne by congruence. by eexists.
  - intros c [x Hx]. unfold live. simpl. by rewrite lookup_insert_ne by congruence.
Qed.

Lemma updated_conversation_turns db (id : string) row row' :
  turns db -> assistant_conversations db !! id = Some row -> cv_deleted row' = cv_deleted row ->
  turns (set_assistant_conversations (<[id := row']> (assistant_conversations db)) db)
  /\ (forall w, markers_final w db -> markers_final w (set_assistant_conversations (<[id := row']> (assistant_conversations db)) db)).
Proof.
  intros Ht Hr Hd. apply conversations_turns; [done| |].
  - intros c [x Hx]. destruct (decide (id = c)) as [<-|]; [rewrite lookup_insert_eq; by eexists|].
    rewrite lookup_insert_ne by done. by eexists.
  - intros c _. unfold live. simpl. destruct (decide (id = c)) as [<-|]; [|by rewrite lookup_insert_ne].
    rewrite lookup_insert_eq, Hr. split; intros (x & [= <-] & Hx); eexists; (split; [done|congruence]).
Qed.

(** [turns] and the order of the markers, together. *)
Definition grows db db' : Prop := turns db -> turns db' /\ (forall w, markers_final w db -> markers_final w db').

Lemma grows_refl db : grows db db.
Proof. by split. Qed.
Lemma grows_trans db1 db2 db3 : grows db1 db2 -> grows db2 db3 -> grows db1 db3.
Proof. intros H1 H2 Ht. destruct (H1 Ht) as [Ht2 Hm1], (H2 Ht2) as [Ht3 Hm2]. split; auto. Qed.

Lemma create_conversation_grows id t db x db' : create_conversation id t db = (x, db') -> grows db db'.
Proof.
  unfold create_conversation. case_match; intros [= _ <-]; [apply grows_refl|].
  intros Ht. apply legacy_frame; [done|done|]. intros rid row Hr. by exists row.
Qed.

Lemma insert_conversation_row_ok id row db x db' :
  insert_conversation_row id row db = (Ok x, db') ->
  assistant_conversations db !! id = None
  /\ db' = set_assistant_conversations (<[id := row]> (assistant_conversations db)) db.
Proof.
  unfold insert_conversation_row. destruct (negb _); [discriminate|].
  destruct (assistant_conversations db !! id); [discriminate|].
  destruct (sequence_taken _ _); [discriminate|]. destruct (conversations db !! id); [|discriminate].
  by intros [= _ <-].
Qed.

Lemma insert_conversation_grows id title i now r db c db' :
  insert_conversation id title i now r db = (Ok c, db') -> grows db db'.
Proof.
  unfold insert_conversation. intros Hop. rewrite transaction_ok in Hop.
  apply tbind_ok in Hop as (ts & db0 & Hs & Hop). unfold tlift in Hs. injection Hs as _ <-.
  apply tbind_ok in Hop as (u & db1 & Hc & Hop).
  assert (grows db db1) as H1.
  { destruct r; [|by eapply create_conversation_grows]. unfold tread in Hc. injection Hc as _ <-. apply grows_refl. }
  apply tbind_ok in Hop as (v & db2 & Ho & Hop). unfold tread in Ho. injection Ho as _ <-.
  apply tbind_ok in Hop as (l & db2 & Ho & Hop). unfold tread in Ho. injection Ho as _ <-.
  apply tbind_ok in Hop as (q & db2 & Ho & Hop). unfold tlift in Ho. injection Ho as _ <-.
  apply tbind_ok in Hop as (n & db2 & Ho & Hop). unfold tlift in Ho. injection Ho as _ <-.
  apply tbind_ok in Hop as (w & db2 & Ho & Hop). unfold tread in Hop. injection Hop as _ <-.
  apply insert_conversation_row_ok in Ho as (Hn & ->).
  eapply grows_trans; [exact H1|]. intros Ht. by apply inserted_conversation_turns.
Qed.

Lemma patch_field_grows {A} (id : string) now (a : option A) f db x db' :
  (forall v n row, cv_deleted (f v n row) = cv_deleted row) ->
  patch_field id now a f db = (Ok x, db') -> grows db db'.
Proof.
  intros Hf. unfold patch_field. destruct a as [v|]; [|by intros [= _ <-]].
  intros Hop. apply tbind_ok in Hop as (n & db0 & Ho & Hop). unfold tlift in Ho. injection Ho as _ <-.
  unfold update_live_conversation in Hop. destruct (assistant_conversations db !! id) as [row|] eqn:Hr.
  - destruct (cv_deleted row); [injection Hop as _ <-; apply grows_refl|].
    apply update_conversation_row_ok in Hop as [[_ ->]|(row' & Hr' & _ & ->)]; [apply grows_refl|].
    intros Ht. by eapply updated_conversation_turns.
  - injection Hop as _ <-. apply grows_refl.
Qed.

Lemma v4_patch_grows id patch now db c db' :
  v4_patch_conversation id patch now db = (Ok c, db') -> grows db db'.
Proof.
  unfold v4_patch_conversation. intros Hop. rewrite transaction_ok in Hop.
  apply tbind_ok in Hop as (x & db0 & Ho & Hop). unfold tread in Ho. injection Ho as _ <-.
  apply tbind_ok in Hop as (y & db1 & H1 & Hop). apply tbind_ok in Hop as (z & db2 & H2 & Hop).
  apply tbind_ok in Hop as (w & db3 & H3 & Hop). unfold tread in Hop. injection Hop as _ <-.
  apply patch_field_grows in H1, H2, H3; [|done..].
  eapply grows_trans; [exact H1|]. by eapply grows_trans.
Qed.

Lemma v4_finalize_grows rid st db x db' : v4_finalize_turn rid st db = (Ok x, db') -> grows db db'.
Proof.
  unfold v4_finalize_turn. intros Hop. rewrite transaction_ok in Hop.
  apply tbind_ok in Hop as (f & db0 & Ho & Hop). unfold tread in Ho. injection Ho as Hf <-.
  apply tbind_ok in Hop as (r & db0 & Ho & Hop). unfold tlift in Ho. injection Ho as Hr <-.
  destruct (_ || _) eqn:Hst; [discriminate|]. injection Hop as _ <-. intros Ht. bools.
  split; [|intros w Hm; by eapply markers_frame; [exact Hm|left|..]]. pose proof Ht as [Hb Hco Hme Hl Hms]. constructor.
  - by apply (bound_frame db); eauto.
  - by apply (content_frame db).
  - eapply (messages_frame db); [done|done| |done|done].
    intros m. cbv beta. destruct (_ && _); [|apply same_text_refl]. repeat (split; [done|]).
    unfold message_check. simpl. rewrite is_ok_state. intros Hm. bools.
    repeat (apply andb_true_iff; split); try done; by apply Z.leb_le.
  - apply (lifecycle_frame db); auto.
  - eapply states_frame; [done|done| |]; intros m; cbv beta; [by destruct (_ && _)|]. intros m' _ He.
    destruct (bool_decide (m_run_id m' = rid)) eqn:Hm, (bool_decide (m_role m' = "assistant")); simpl; auto.
    right. bools. rewrite Hm. unfold status_of.
    assert (require_run rid db = Ok r) as (row & s & Hrow & Hv & ->)%require_run_ok.
    { unfold require_run. rewrite Hf. destruct f as [y|]; [by injection Hr as <-|discriminate]. }
    simpl in *. rewrite Hrow. simpl. rewrite (rv_status _ _ _ Hv). congruence.
Qed.
(** ** Deletion *)

(** The tables after [id] was deleted. *)
Definition forgotten (id : string) (row : ConversationRow) (now : Z) db : RunDb :=
  let db2 := (delete_messages id (delete_content id db).2).2 in
  set_assistant_conversations (<[id := set_deleted now row]> (assistant_conversations db)) db2.

Lemma v4_delete_ok (id : string) now db db' :
  v4_delete_conversation id now db = (Ok tt, db') ->
  exists row, assistant_conversations db !! id = Some row /\ cv_deleted row = false
    /\ active_runs id db <= 0 /\ now <= i64_max /\ conversation_check (set_deleted now row) = true
    /\ db' = forgotten id row now db.
Proof.
  unfold v4_delete_conversation. intros Hop. rewrite transaction_ok in Hop.
  apply tbind_ok in Hop as (x & db0 & Ho & Hop). unfold tread in Ho. injection Ho as Hl <-.
  assert (live db id) as (row & Hr & Hd).
  { unfold touch_conversation in Hl. destruct (conversation_row id db) as [[c|]|] eqn:Hc; try discriminate.
    by eapply conversation_row_live. }
  apply tbind_ok in Hop as (y & db0 & Ho & Hop). unfold tread in Ho.
  destruct (Z.ltb_spec 0 (active_runs id db)); [discriminate|]. injection Ho as _ <-.
  apply tbind_ok in Hop as (z & db1 & Ho & Hop). injection Ho as _ <-.
  apply tbind_ok in Hop as (w & db1 & Ho & Hop). injection Ho as _ <-.
  apply tbind_ok in Hop as (n & db1 & Ho & Hop). unfold tlift in Ho. injection Ho as Hn <-.
  apply ms_ok in Hn as [-> Hn]. apply update_conversation_row_ok in Hop as [[Hnone _]|(row' & Hr' & Hck & ->)].
  - simpl in Hnone. congruence.
  - simpl in Hr'. assert (row' = row) as -> by congruence. eauto 10.
Qed.

Section Deleted.
Variables (id : string) (row : ConversationRow) (now : Z) (db : RunDb).
Hypothesis Hrow : assistant_conversations db !! id = Some row.
Hypothesis Hidle : active_runs id db <= 0.
Hypothesis Ht : turns db.
Let db' := forgotten id row now db.

Lemma deleted_conv_of r : conv_of db' r = conv_of db r.
Proof. unfold conv_of. simpl. rewrite lookup_fmap. by destruct (assistant_turns db !! r). Qed.

Lemma deleted_lookup c n r :
  assistant_content_events db' !! (c, n) = Some r <-> c <> id /\ assistant_content_events db !! (c, n) = Some r.
Proof. simpl. rewrite map_lookup_filter_Some. simpl. tauto. Qed.

Lemma deleted_payload c n : c <> id ->
  assistant_content_payloads db' !! (c, n) = assistant_content_payloads db !! (c, n).
Proof.
  intros Hc. simpl. apply option_eq. intros x. rewrite map_lookup_filter_Some. simpl. tauto.
Qed.

Lemma deleted_message i m :
  assistant_messages db' !! i = Some m <-> assistant_messages db !! i = Some m /\ m_conversation_id m <> id.
Proof. simpl. by rewrite map_lookup_filter_Some. Qed.

Lemma deleted_live c : live db' c <-> live db c /\ c <> id.
Proof.
  unfold live. simpl. destruct (decide (c = id)) as [->|Hne].
  - rewrite lookup_insert_eq. split; [intros (x & [= <-] & Hx); discriminate Hx|tauto].
  - rewrite lookup_insert_ne by done. tauto.
Qed.

Lemma deleted_content_after c r a :
  content_after c r a db' = if bool_decide (c = id) then [] else content_after c r a db.
Proof.
  apply (content_after_eq db).
  - destruct (bool_decide _); [constructor|apply content_ordered].
  - destruct (bool_decide _); [constructor|apply content_NoDup].
  - intros [n x]. rewrite elem_of_content, deleted_lookup. case_bool_decide.
    + rewrite elem_of_nil. tauto.
    + rewrite elem_of_content. tauto.
Qed.

Lemma deleted_reply c r : reply db' c r = if bool_decide (c = id) then EmptyString else reply db c r.
Proof.
  unfold reply. rewrite deleted_content_after. case_bool_decide as Hc; [done|].
  apply foldr_ext; [|done|done]. intros [n x] acc. unfold delta_of. cbn [fst]. by rewrite deleted_payload.
Qed.

(** An active turn is of another conversation. *)
Lemma deleted_active r c : conv_of db r = Some c -> active db r -> c <> id.
Proof. intros Hc Ha ->. exact (no_active_turn id db r (t_bound _ Ht) Hidle Hc Ha). Qed.

Lemma deleted_marked r c : conv_of db r = Some c -> marked db' r <-> marked db r /\ c <> id.
Proof.
  intros Hc. rewrite !marked_iff. setoid_rewrite deleted_lookup. split.
  - intros (c' & n & x & [Hne Hx] & Hr & Hk). split; [eauto 10|].
    destruct (s_row _ (t_content _ Ht) _ _ _ Hx) as (Hcc & _). rewrite Hr in Hcc. congruence.
  - intros [(c' & n & x & Hx & Hr & Hk) Hne]. exists c', n, x. split; [|done]. split; [|done].
    destruct (s_row _ (t_content _ Ht) _ _ _ Hx) as (Hcc & _). rewrite Hr in Hcc. congruence.
Qed.

Lemma deleted_last c : c <> id -> last_content_sequence c db' = last_content_sequence c db.
Proof.
  intros Hne. destruct (last_content_spec c db') as (H0 & Hle & Hex), (last_content_spec c db) as (H0' & Hle' & Hex').
  assert (last_content_sequence c db' <= last_content_sequence c db).
  { destruct Hex as [?|[x [_ Hx]%deleted_lookup]]; [lia|]. by eapply Hle'. }
  assert (last_content_sequence c db <= last_content_sequence c db').
  { destruct Hex' as [?|[x Hx]]; [lia|]. eapply Hle. by apply deleted_lookup. }
  lia.
Qed.

Lemma deleted_parts : parts db'.
Proof.
  destruct Ht as [Hb [H1 H2 H3] [M1 M2 M3 M4] _ _]. split; [|split].
  - apply (bound_frame db); [done| | |eauto].
    + intros r tn. simpl. rewrite lookup_fmap. intros (tn0 & Htn & ->)%fmap_Some. eauto.
    + intros c [x Hx]. unfold known. simpl. destruct (decide (id = c)) as [<-|];
        [rewrite lookup_insert_eq|rewrite lookup_insert_ne by done]; by eexists.
  - constructor.
    + intros c n x [Hne Hx]%deleted_lookup. destruct (H1 c n x Hx) as (? & ? & ? & ? & p & Hp & Hrest).
      split; [by rewrite deleted_conv_of|]. do 3 (split; [done|]). exists p. by rewrite deleted_payload.
    + intros c n m [x [Hne Hx]%deleted_lookup] Hm. destruct (H2 c n m) as [y Hy]; [by eexists|done|].
      exists y. by apply deleted_lookup.
    + intros c n [pj Hp]. simpl in Hp. apply map_lookup_filter_Some in Hp as [Hp Hne].
      destruct (H3 c n) as [x Hx]; [by eexists|]. exists x. by apply deleted_lookup.
  - constructor.
    + intros i m [Hi Hne]%deleted_message. eapply message_ok_same; [by eapply M1|apply same_text_refl| |].
      * intros r c. by rewrite deleted_conv_of.
      * intros _. rewrite deleted_reply. by rewrite bool_decide_eq_false_2.
    + intros i j a b [Hi _]%deleted_message [Hj _]%deleted_message. by eapply M2.
    + intros i j a b [Hi _]%deleted_message [Hj _]%deleted_message. by eapply M3.
    + intros r c. rewrite deleted_conv_of, deleted_reply. intros Hc Hno. case_bool_decide as Hid; [done|].
      eapply M4; [done|]. intros i m Hi. destruct (decide (m_conversation_id m = id)) as [Hm|Hm].
      * unfold is_preview_of. destruct (bool_decide (m_run_id m = r)) eqn:Hr; [|done]. exfalso.
        apply bool_decide_eq_true in Hr. destruct (M1 i m Hi) as (Hcm & _). congruence.
      * apply (Hno i). by apply deleted_message.
Qed.

Lemma deleted_turns : turns db' /\ (forall w, markers_final w db -> markers_final w db').
Proof.
  destruct (t_lifecycle _ Ht) as [L1 L2 L3 L4]. destruct deleted_parts as (? & ? & ?). split.
  - constructor; [done..| |intros i m [Hi _]%deleted_message; by apply (t_states _ Ht i)].
    constructor; intros *; rewrite ?deleted_conv_of.
    + by apply L1.
    + intros Hc Ha. rewrite deleted_live. split; [by eapply L2|by eapply deleted_active].
    + intros Hc Ha. pose proof (deleted_active r c Hc Ha) as Hne.
      rewrite (deleted_marked r c), deleted_last by done. destruct (L3 r c Hc Ha); auto.
    + intros Hc He [Hl Hne]%deleted_live. rewrite (deleted_marked r c) by done. eauto.
  - intros w [F1 F2 F3]. constructor.
    + intros Ha (c & n & x & [_ Hx]%deleted_lookup & Hr & Hk)%marked_iff. apply F1; [done|]. apply marked_iff. eauto 10.
    + intros c n m a b [_ Ha]%deleted_lookup [_ Hb]%deleted_lookup. by eapply F2.
    + intros c n x [Hne Hx]%deleted_lookup Hw Hk. rewrite deleted_payload by done. by eapply F3.
Qed.
End Deleted.

Lemma v4_delete_grows (id : string) now db db' : v4_delete_conversation id now db = (Ok tt, db') -> grows db db'.
Proof. intros (row & Hr & _ & Hi & _ & _ & ->)%v4_delete_ok Ht. by apply deleted_turns. Qed.

(** ** Appended content *)

(** Text without NUL. *)
Definition clean (t : string) : Prop := valid_utf8 t /\ contains_nul t = false.

Lemma contains_nul_iff t : valid_utf8 t -> contains_nul t = false <-> 0 ∉ bytes t.
Proof.
  intros Hv. unfold contains_nul. rewrite existsb_false_Forall, Forall_forall, <- (nul_char_byte t Hv). split.
  - intros Hall Hin. specialize (Hall 0 Hin). discriminate.
  - intros Hnin c Hc. apply Z.eqb_neq. by intros ->.
Qed.

Lemma clean_empty : clean EmptyString.
Proof. split; [|done]. exists []. by split. Qed.

Lemma clean_app t u : clean t -> clean u -> clean (t +:+ u).
Proof.
  intros [Ht Hnt] [Hu Hnu]. assert (valid_utf8 (t +:+ u)) as Hv by by apply valid_utf8_app.
  split; [done|]. rewrite contains_nul_iff in * by done. rewrite bytes_app, elem_of_app. tauto.
Qed.

Lemma clean_preview t : clean t -> clean (preview_text t).
Proof.
  intros [Hv Hn]. split; [by apply preview_text_valid|].
  rewrite contains_nul_iff in * by (try apply preview_text_valid; done).
  destruct (preview_text_prefix t) as [n ->]. rewrite bytes_str_take. intros Hin. apply Hn. by apply subseteq_take in Hin.
Qed.

Lemma reply_clean db cid rid : sound_content db -> clean (reply db cid rid).
Proof.
  intros Hs. unfold reply. assert (forall q, q ∈ content_after cid rid 0 db -> clean (delta_of db cid q.1)) as Hd.
  { intros [n row] (Hr & _)%elem_of_content. unfold delta_of. cbn [fst].
    destruct (s_row _ Hs _ _ _ Hr) as (_ & _ & _ & _ & p & -> & Hv & Hty & _ & _ & Hu & _).
    rewrite content_roundtrip by done. destruct p as [t| | | |]; try apply clean_empty.
    split; [by apply Hu|]. simpl in Hv. unfold ensure in Hv. destruct (_ && _) eqn:Hb; [|discriminate]. by bools. }
  induction (content_after cid rid 0 db) as [|q l IH]; [apply clean_empty|]. simpl.
  apply clean_app; [apply Hd; by left|]. apply IH. intros q' Hq'. apply Hd. by right.
Qed.

(** The reply is in the preview of its run and nowhere else. *)
Definition previews (db : RunDb) (rid : string) (t : string) : Prop :=
  (forall id m, assistant_messages db !! id = Some m -> is_preview_of rid m = true ->
     m_body m = preview_text t /\ m_text_bytes m = slen t)
  /\ ((forall id m, assistant_messages db !! id = Some m -> is_preview_of rid m = false) -> t = EmptyString).

Lemma is_preview_iff rid m : is_preview_of rid m = true <-> m_run_id m = rid /\ m_role m = "assistant".
Proof. unfold is_preview_of. by rewrite andb_true_iff, !bool_decide_eq_true. Qed.

Lemma messages_previews db rid cid :
  sound_messages db -> conv_of db rid = Some cid -> previews db rid (reply db cid rid).
Proof.
  intros Hm Hc. split; [|by apply (m_missing _ Hm)].
  intros id m Hid [Hr Ha]%is_preview_iff. destruct (m_row _ Hm id m Hid) as (Hcm & _ & _ & _ & _ & Hp).
  rewrite bool_decide_eq_true_2 in Hp by done. rewrite Hr in Hcm, Hp.
  assert (m_conversation_id m = cid) as <- by congruence. done.
Qed.

Lemma assistant_message_cases rid db :
  match assistant_message rid db with
  | Some m => exists id, assistant_messages db !! id = Some m /\ is_preview_of rid m = true
  | None => forall id m, assistant_messages db !! id = Some m -> is_preview_of rid m = false
  end.
Proof.
  unfold assistant_message. destruct (filter _ _) as [|m l] eqn:Hf; simpl.
  - intros id m Hid. destruct (is_preview_of rid m) eqn:Hp; [|done]. exfalso.
    assert (m ∈ filter (fun m => is_preview_of rid m = true) (map snd (map_to_list (assistant_messages db)))) as Hin;
      [|by rewrite Hf in Hin; apply elem_of_nil in Hin].
    apply list_elem_of_filter. split; [done|]. apply list_elem_of_fmap. exists (id, m).
    split; [done|]. by apply elem_of_map_to_list.
  - assert (m ∈ filter (fun m => is_preview_of rid m = true) (map snd (map_to_list (assistant_messages db)))) as Hin
      by (rewrite Hf; left).
    apply list_elem_of_filter in Hin as [Hp Hin]. apply list_elem_of_fmap in Hin as ([id m'] & -> & Hin).
    apply elem_of_map_to_list in Hin. eauto.
Qed.

(** Every preview of [rid] gets [body]. *)
Definition rewritten (rid body : string) (total : Z) (db : RunDb) : RunDb :=
  set_messages ((fun m => if is_preview_of rid m then write_preview body total m else m) <$> assistant_messages db) db.

Lemma update_preview_ok rid body total db x db' :
  update_preview rid body total db = (Ok x, db') ->
  (forall id m, assistant_messages db !! id = Some m -> is_preview_of rid m = true ->
     message_check (write_preview body total m) = true)
  /\ db' = rewritten rid body total db.
Proof.
  unfold update_preview. destruct (existsb _ _) eqn:He; [discriminate|]. intros [= _ <-]. split; [|done].
  intros id m Hid Hp. rewrite existsb_false_Forall, Forall_forall in He. specialize (He m). rewrite Hp in He. simpl in He.
  apply negb_false_iff, He, list_elem_of_fmap. exists (id, m). split; [done|]. by apply elem_of_map_to_list.
Qed.

Section Previewed.
Variables (db D : RunDb) (rid cid d msg : string) (now : Z).
Hypothesis Hm : sound_messages db.
Hypothesis HD : assistant_messages D = assistant_messages db.
Hypothesis HT : assistant_turns D = assistant_turns db.
Hypothesis Hc : conv_of db rid = Some cid.
Hypothesis Hr : forall c r, conv_of db r = Some c ->
  reply D c r = reply db c r +:+ (if bool_decide (r = rid) then d else EmptyString).
Hypothesis Hd : clean d.
Hypothesis Hlen : slen d <= 16384.
Hypothesis Hclean : clean (reply db cid rid).
Hypothesis Hnow : now <= MAX_SAFE_INTEGER.
Let t := reply db cid rid.

Lemma previewed_conv r : conv_of D r = conv_of db r.
Proof. unfold conv_of. by rewrite HT. Qed.

Lemma previewed_reply : reply D cid rid = t +:+ d.
Proof. rewrite (Hr cid rid Hc). by rewrite bool_decide_eq_true_2. Qed.

(** A message that is not the preview shows what it showed before. *)
Lemma other_message_ok db' id m :
  assistant_messages db !! id = Some m -> is_preview_of rid m = false ->
  assistant_turns db' = assistant_turns db -> (forall c r, reply db' c r = reply D c r) -> message_ok db' m.
Proof.
  intros Hid Hp Ht' Hrep. pose proof (m_row _ Hm id m Hid) as Hok.
  eapply message_ok_same; [exact Hok|apply same_text_refl| |].
  - intros r c. unfold conv_of. by rewrite Ht'.
  - intros Ha. rewrite Hrep, Hr by apply Hok. rewrite bool_decide_eq_false_2; [apply append_empty_r|].
    intros Heq. assert (is_preview_of rid m = true) by by apply is_preview_iff. congruence.
Qed.

(** A preview with the new text. *)
Lemma new_preview_ok db' m :
  is_preview_of rid m = true -> m_conversation_id m = cid -> m_created_at_ms m <= MAX_SAFE_INTEGER ->
  message_check m = true -> m_body m = preview_text (t +:+ d) -> m_text_bytes m = slen (t +:+ d) ->
  assistant_turns db' = assistant_turns db -> (forall c r, reply db' c r = reply D c r) -> message_ok db' m.
Proof.
  intros [Hrid Ha]%is_preview_iff Hcm Ht Hck Hb Hn Ht' Hrep.
  destruct (clean_preview (t +:+ d)) as [Hv Hz]; [by apply clean_app|].
  unfold message_ok. rewrite Hrid, Hcm, Hb, Hn, Ha, Hrep, previewed_reply, bool_decide_eq_true_2 by done.
  unfold conv_of. rewrite Ht'. by split.
Qed.

Lemma rewritten_messages :
  (forall id m, assistant_messages D !! id = Some m -> is_preview_of rid m = true ->
     message_check (write_preview (preview_text (t +:+ d)) (slen (t +:+ d)) m) = true) ->
  (exists id m, assistant_messages D !! id = Some m /\ is_preview_of rid m = true) ->
  sound_messages (rewritten rid (preview_text (t +:+ d)) (slen (t +:+ d)) D).
Proof.
  intros Hck (pid & pm & Hpid & Hpm). destruct Hm as [M1 M2 M3 M4].
  set (g := fun m => if is_preview_of rid m then write_preview (preview_text (t +:+ d)) (slen (t +:+ d)) m else m).
  assert (forall m, m_conversation_id (g m) = m_conversation_id m /\ m_run_id (g m) = m_run_id m
            /\ m_role (g m) = m_role m /\ m_sequence (g m) = m_sequence m) as Hg
    by (intros m; unfold g; by destruct (is_preview_of rid m)).
  assert (forall id m', assistant_messages (rewritten rid (preview_text (t +:+ d)) (slen (t +:+ d)) D) !! id = Some m' ->
            exists m, assistant_messages db !! id = Some m /\ m' = g m) as Hinv.
  { intros id m'. simpl. rewrite lookup_fmap_Some. intros (m & <- & Hid). rewrite HD in Hid. eauto. }
  constructor.
  - intros id m' (m & Hid & ->)%Hinv. unfold g. destruct (is_preview_of rid m) eqn:Hp.
    + destruct (M1 id m Hid) as (Hcm & _ & Hts & _). apply is_preview_iff in Hp as Hp'. destruct Hp' as [Hrid _].
      apply new_preview_ok; try done; [simpl; congruence|]. apply (Hck id); [by rewrite HD|done].
    + by apply (other_message_ok _ id).
  - intros i j a' b' (a & Ha & ->)%Hinv (b & Hb & ->)%Hinv.
    destruct (Hg a) as (-> & _ & _ & ->), (Hg b) as (-> & _ & _ & ->). by eapply M2.
  - intros i j a' b' (a & Ha & ->)%Hinv (b & Hb & ->)%Hinv.
    destruct (Hg a) as (_ & -> & -> & _), (Hg b) as (_ & -> & -> & _). by eapply M3.
  - intros r c. change (conv_of (rewritten rid (preview_text (t +:+ d)) (slen (t +:+ d)) D) r) with (conv_of D r).
    rewrite previewed_conv. intros Hcr Hno.
    assert (r <> rid) as Hne.
    { intros ->. specialize (Hno pid (g pm)). destruct (Hg pm) as (_ & E1 & E2 & _).
      unfold is_preview_of in Hno. rewrite E1, E2 in Hno. fold (is_preview_of rid pm) in Hno. rewrite Hpm in Hno.
      discriminate Hno. simpl. by rewrite lookup_fmap, Hpid. }
    change (reply D c r = EmptyString). rewrite Hr, bool_decide_eq_false_2, append_empty_r by done.
    apply (M4 r c Hcr). intros id m Hid. specialize (Hno id (g m)). destruct (Hg m) as (_ & E1 & E2 & _).
    unfold is_preview_of in *. rewrite <- E1, <- E2. apply Hno. simpl. by rewrite lookup_fmap, HD, Hid.
Qed.

Lemma inserted_messages m :
  (forall id m, assistant_messages D !! id = Some m -> is_preview_of rid m = false) ->
  assistant_messages D !! msg = None ->
  (forall i a, assistant_messages D !! i = Some a -> m_conversation_id a = m_conversation_id m ->
     m_sequence a <> m_sequence m) ->
  is_preview_of rid m = true -> m_conversation_id m = cid -> m_created_at_ms m <= MAX_SAFE_INTEGER ->
  message_check m = true -> m_body m = preview_text (t +:+ d) -> m_text_bytes m = slen (t +:+ d) ->
  sound_messages (set_messages (<[msg := m]> (assistant_messages D)) D).
Proof.
  rewrite HD. intros Hno Hfresh Huniq Hp Hcm Hts Hck Hb Hn. destruct Hm as [M1 M2 M3 M4].
  pose proof Hp as [Hrid Ha]%is_preview_iff. constructor; cbn [assistant_messages set_messages].
  - intros id m' [[<- <-]|[_ Hid]]%lookup_insert_Some; [by apply new_preview_ok|].
    apply (other_message_ok _ id); try done. by apply (Hno id).
  - intros i j a b [[<- <-]|[Hni Hi]]%lookup_insert_Some [[<- <-]|[Hnj Hj]]%lookup_insert_Some Hcc Hq;
      [done| | |by eapply M2].
    + by destruct (Huniq j b Hj).
    + by destruct (Huniq i a Hi).
  - assert (forall j b, assistant_messages db !! j = Some b -> m_run_id b = rid -> m_role b = "assistant" -> False)
      as Hnone.
    { intros j b Hj Hjr Hja. specialize (Hno j b Hj). assert (is_preview_of rid b = true) by by apply is_preview_iff.
      congruence. }
    intros i j a b [[<- <-]|[Hni Hi]]%lookup_insert_Some [[<- <-]|[Hnj Hj]]%lookup_insert_Some Hrr Haa Hba;
      [done| | |by eapply M3].
    + exfalso. eapply Hnone; [exact Hj|congruence|done].
    + exfalso. eapply Hnone; [exact Hi|congruence|done].
  - intros r c. change (conv_of (set_messages (<[msg := m]> (assistant_messages db)) D) r) with (conv_of D r).
    rewrite previewed_conv. intros Hcr Hn'.
    assert (r <> rid) as Hne.
    { intros ->. specialize (Hn' msg m). rewrite Hp in Hn'. discriminate Hn'. apply lookup_insert_eq. }
    change (reply D c r = EmptyString). rewrite Hr, bool_decide_eq_false_2, append_empty_r by done.
    apply (M4 r c Hcr). intros id m' Hid. apply (Hn' id). rewrite lookup_insert_ne; [done|]. intros ->. congruence.
Qed.

(** The run is active, so the state of its messages is not constrained. *)
Lemma rewritten_states body total : active D rid -> message_states D -> message_states (rewritten rid body total D).
Proof.
  intros Ha Hst. eapply states_frame; [done|done| |]; intros m; cbv beta; [by destruct (is_preview_of _ _)|].
  intros m' _ He. left. destruct (is_preview_of rid m') eqn:Hp; [|done]. apply is_preview_iff in Hp as [Hp _].
  by destruct (active_not_ended D rid Ha); rewrite <- Hp.
Qed.

Lemma inserted_states m : m_run_id m = rid -> active D rid -> message_states D ->
  message_states (set_messages (<[msg := m]> (assistant_messages D)) D).
Proof.
  intros Hrun Ha Hst i m'. cbn [assistant_messages set_messages]. intros [[<- <-]|[_ Hi]]%lookup_insert_Some He; [|by apply (Hst i)].
  by destruct (active_not_ended D rid Ha); rewrite <- Hrun.
Qed.

Lemma previewed_messages db' :
  update_assistant_preview rid d msg now D = (Ok tt, db') ->
  sound_messages db' /\ (active D rid -> message_states D -> message_states db') /\ exists T, db' = set_messages T D.
Proof.
  unfold update_assistant_preview. intros Hop. apply tbind_ok in Hop as (ex & D0 & Ho & Hop).
  unfold tread in Ho. injection Ho as <- <-. apply tbind_ok in Hop as (total & D0 & Ho & Hop).
  unfold tlift in Ho. injection Ho as Htot <-.
  pose proof (assistant_message_cases rid D) as Hex. destruct (messages_previews db rid cid Hm Hc) as [Hsome Hnone].
  rewrite HD in Hex. destruct (assistant_message rid D) as [m|].
  - destruct Hex as (id & Hid & Hp). destruct (Hsome id m Hid Hp) as [Hb Hn].
    rewrite (extend_preview_some m t d) in Hop by (done || apply Hd). rewrite Hn in Htot.
    destruct (_ && _); [|discriminate]. injection Htot as <-.
    replace (slen (reply db cid rid) + slen d) with (slen (t +:+ d)) in Hop by apply slen_app.
    apply update_preview_ok in Hop as [Hck ->]. split; [|split; [apply rewritten_states|by eexists]]. apply rewritten_messages; [done|].
    rewrite HD. eauto.
  - assert (t = EmptyString) as Ht by (by apply Hnone). rewrite extend_preview_none in Hop by done.
    destruct (_ && _); [|discriminate]. injection Htot as <-.
    apply tbind_ok in Hop as (c' & D0 & Ho & Hop). unfold tread in Ho. injection Ho as Hcc <-.
    apply tbind_ok in Hop as (c2 & D0 & Ho & Hop). unfold tlift in Ho. injection Ho as _ <-.
    apply tbind_ok in Hop as (q & D0 & Ho & Hop). unfold tread in Ho. injection Ho as <- <-.
    apply tbind_ok in Hop as (q & D0 & Ho & Hop). unfold tlift in Ho. injection Ho as _ <-.
    apply tbind_ok in Hop as (n & D0 & Ho & Hop). unfold tlift in Ho. injection Ho as Hn <-. apply ms_ok in Hn as [-> _].
    apply insert_message_row_ok in Hop as (Hck & Hfresh & Huniq & ->).
    split; [|split; [|by eexists]].
    2:{ intros Ha Hst. by apply inserted_states. }
    assert (c' = cid) as ->.
    { unfold turn_conversation, ok_or in Hcc. rewrite HT in Hcc. unfold conv_of in Hc.
      rewrite Hc in Hcc. by injection Hcc as <-. }
    apply inserted_messages; try done; [by rewrite HD| |by rewrite Ht..].
    apply is_preview_iff. done.
Qed.
End Previewed.

Section Appended.
Context `{!ExternalLaws}.

Lemma v4_append_ok (rid : string) p msg now db e db' :
  bound db -> sound_content db -> payload_typed p ->
  v4_append_content rid p msg now db = (Ok e, db') ->
  exists row s cid, runs db !! rid = Some row /\ row_valid rid row s /\ is_terminal s = false
    /\ conv_of db rid = Some cid /\ content_refusal p (last_content_sequence cid db) now = None
    /\ let n := last_content_sequence cid db + 1 in
       let D := add_content cid n (new_row rid p now) (content_json p) db in
       e = mkV4ContentEvent cid rid n now p
       /\ match p with
          | TextDelta t => update_assistant_preview rid t msg now D = (Ok tt, db')
          | _ => db' = D
          end.
Proof.
  intros Hb Hs Hty Hop. unfold v4_append_content in Hop. rewrite transaction_ok in Hop.
  apply tbind_ok in Hop as (f & db0 & Ho & Hop). unfold tread in Ho. injection Ho as Hf <-.
  apply tbind_ok in Hop as (run & db0 & Ho & Hop). unfold tlift in Ho. injection Ho as Hrun <-.
  assert (require_run rid db = Ok run) as (row & s & Hr & Hv & ->)%require_run_ok.
  { unfold require_run. rewrite Hf. destruct f as [x|]; [by injection Hrun as <-|discriminate]. }
  cbn [run_status decoded] in Hop. destruct (is_terminal s) eqn:Ht; [discriminate|].
  apply tbind_ok in Hop as (conv & db0 & Ho & Hop). unfold tread in Ho. injection Ho as Hconv <-.
  assert (conv_of db rid = Some conv) as Hc.
  { unfold turn_conversation, ok_or in Hconv. unfold conv_of.
    destruct (tn_conversation_id <$> assistant_turns db !! rid); congruence. }
  destruct (conv_of_bound db rid conv Hb Hc) as (Hcu & Hk & _).
  apply tbind_ok in Hop as (cid & db0 & Ho & Hop). unfold tlift in Ho. injection Ho as Hcid <-.
  rewrite (proj2 (id_from_str_ok conv conv) (conj eq_refl Hcu)) in Hcid. injection Hcid as <-.
  apply tbind_ok in Hop as (ev & D & Hins & Hop).
  assert (slen rid = 36) as Hlen by (eapply uuid_length, Hv).
  pose proof (insert_content_event_eq conv rid p now db Hs Hty Hk ltac:(by eexists) ltac:(lia)) as Heq.
  cbv zeta in Heq. destruct (content_refusal p (last_content_sequence conv db) now) as [err|] eqn:Href.
  { rewrite Hins in Heq. discriminate. }
  rewrite Heq in Hins. injection Hins as <- <-. cbn [ce_payload] in Hop.
  apply tbind_ok in Hop as (u & db1 & Ho & Hop). unfold tret in Hop. injection Hop as <- <-.
  exists row, s, conv. do 5 (split; [done|]). split; [done|].
  apply content_refusal_none in Href as (Hval & _). destruct u.
  destruct p as [t| | | |]; [|by injection Ho as <-..].
  destruct t; [|done]. discriminate Hval.
Qed.

Section Append.
Variables (rid cid msg : string) (p : V4ContentPayload) (now : Z) (db : RunDb) (row : RunRow) (s : RunState).
Hypothesis Ht : turns db.
Hypothesis Hty : payload_typed p.
Hypothesis Hu : forall t, p = TextDelta t -> valid_utf8 t.
Hypothesis Hrow : runs db !! rid = Some row.
Hypothesis Hv : row_valid rid row s.
Hypothesis Hs : is_terminal s = false.
Hypothesis Hc : conv_of db rid = Some cid.
Hypothesis Href : content_refusal p (last_content_sequence cid db) now = None.
Let n := last_content_sequence cid db + 1.
Let D := add_content cid n (new_row rid p now) (content_json p) db.

Lemma appending_active : active db rid.
Proof. by eapply moving_active. Qed.

Lemma appended_reply c r : conv_of db r = Some c ->
  reply D c r = reply db c r +:+ (if bool_decide (r = rid) then payload_text p else EmptyString).
Proof.
  intros Hcr. apply content_refusal_none in Href as (Hval & _). unfold D, n. rewrite added_reply by done. f_equal.
  destruct (decide (r = rid)) as [->|Hne].
  - rewrite !bool_decide_eq_true_2; [done|done|]. split; congruence.
  - by rewrite !bool_decide_eq_false_2 by tauto.
Qed.

(** The transcript with the new event, whatever happened to the messages. *)
Lemma appended_turns T : sound_messages (set_messages T D) -> message_states (set_messages T D) ->
  turns (set_messages T D)
  /\ (forall w, ~ (rid = w /\ is_terminal_payload p = true) -> markers_final w db -> markers_final w (set_messages T D)).
Proof.
  intros Hmsg Hms. apply content_refusal_none in Href as Href'. destruct Href' as (Hval & Hmax & Hres & Hnow).
  destruct Ht as [Hb Hco _ Hl _]. split.
  - constructor; [|apply (content_frame D); [by apply added_sound|done..]|done| |done].
    + by apply (bound_frame db); eauto.
    + apply (lifecycle_frame db); [done|done|done|by left|done| |].
      * intros r Hm. change (marked D r). apply added_marked; [done..|]. by right.
      * intros r c Hcr Ha. destruct (decide (c = cid)) as [->|Hne].
        -- assert (r = rid) as -> by (eapply (y_one _ Hl); eauto using appending_active).
           destruct (is_terminal_payload p) eqn:Hp; [left; change (marked D rid); apply added_marked; [done..|by left]|].
           right. right. change (last_content_sequence cid D < MAX_SEQUENCE). unfold D, n. rewrite added_last by done.
           rewrite bool_decide_eq_true_2 by done.
           destruct (decide (last_content_sequence cid db + 1 = MAX_SEQUENCE)); [|lia].
           by specialize (Hres ltac:(done)).
        -- right. left. change (last_content_sequence c D = last_content_sequence c db). unfold D, n.
           rewrite added_last by done. by rewrite bool_decide_eq_false_2.
  - intros w Hnt [F1 F2 F3]. constructor.
    + intros Ha Hm. change (marked D w) in Hm. unfold D, n in Hm. rewrite added_marked in Hm by done.
      destruct Hm as [[-> ?]|Hm]; [by apply Hnt|]. by apply F1.
    + apply added_markers; [done|done| |done]. intros <-. apply F1, appending_active.
    + intros c m x [(-> & -> & ->)|Hx]%added_lookup Hw Hk.
      * simpl in Hk. rewrite kind_of_terminal in Hk by done. by destruct Hnt.
      * change (assistant_content_payloads (set_messages T D)) with (assistant_content_payloads D).
        unfold D, n. rewrite (added_payload db cid rid p now c m x Hx). by eapply F3.
Qed.

Lemma append_turns db' :
  match p with TextDelta t => update_assistant_preview rid t msg now D = (Ok tt, db') | _ => db' = D end ->
  turns db' /\ (forall w, ~ (rid = w /\ is_terminal_payload p = true) -> markers_final w db -> markers_final w db').
Proof.
  intros Hop. apply content_refusal_none in Href as Href'. destruct Href' as (Hval & Hmax & Hres & Hnow).
  assert ((exists t, p = TextDelta t) \/ payload_text p = EmptyString /\ db' = D) as [[t Hp]|[Hp ->]]
    by (destruct p; eauto).
  - rewrite Hp in Hop, Hval. simpl in Hval. unfold ensure in Hval.
    destruct (_ && _) eqn:Hb; [|discriminate]. bools.
    assert (sound_messages db' /\ (active D rid -> message_states D -> message_states db')
            /\ exists T, db' = set_messages T D) as [Hm (Hms & T & ->)].
    { apply (previewed_messages db D rid cid t msg now); try done.
      - apply Ht.
      - intros c r Hcr. rewrite appended_reply by done. by rewrite Hp.
      - split; [by apply Hu|done].
      - apply reply_clean, Ht.
      - lia. }
    apply appended_turns; [done|]. apply Hms; [apply appending_active|apply Ht].
  - replace D with (set_messages (assistant_messages D) D) by done.
    apply appended_turns; [|apply Ht]. apply (added_messages db cid rid p now); [apply Ht|apply Ht|done..].
Qed.
End Append.

Lemma v4_append_turns (rid : string) p msg now db e db' :
  turns db -> payload_typed p -> (forall t, p = TextDelta t -> valid_utf8 t) ->
  v4_append_content rid p msg now db = (Ok e, db') ->
  turns db' /\ (forall w, ~ (rid = w /\ is_terminal_payload p = true) -> markers_final w db -> markers_final w db').
Proof.
  intros Ht Hty Hu Hop. apply v4_append_ok in Hop as (row & s & cid & Hr & Hv & Hs & Hc & Href & _ & Hop);
    [|apply Ht|apply Ht|done]. by eapply append_turns.
Qed.
End Appended.

(** ** Runs *)
Lemma admitted_run_grows r (fresh : string) t db :
  runs db !! fresh = None -> grows db (admitted_tables r fresh t db).
Proof.
  intros Hn Ht. apply legacy_frame; [done|done|]. intros rid row Hr. exists row. simpl.
  rewrite lookup_insert_ne by congruence. done.
Qed.

Lemma create_run_grows r (fresh : string) t db run db' :
  create_or_get_run r fresh t db = (Ok run, db') -> grows db db'.
Proof.
  intros [_ [(-> & _)|(_ & Hf & _ & _ & -> & _)]]%create_or_get_run_ok; [apply grows_refl|].
  by apply admitted_run_grows.
Qed.

Lemma append_event_grows (id : string) ev t db x db' :
  append_run_event id ev t db = (Ok x, db') -> grows db db'.
Proof.
  intros (row & s & Hr & Hv & _ & _ & _ & -> & _)%append_run_event_ok Ht.
  destruct (moved_tables db id row s s (now t) ev Hr Hv) as (Hconv & Hst & Hst0).
  apply legacy_frame; [done|done|]. intros rid r Hrid. destruct (Hconv rid r Hrid) as (r' & Hr' & Hcc).
  exists r'. split; [done|]. split; [done|]. intros _. cut (c_status r' = c_status r); [by intros ->|].
  specialize (Hst rid). unfold status_of in Hst, Hst0. rewrite Hr', Hrid in Hst. simpl in Hst.
  case_bool_decide; [|by injection Hst]. subst rid. rewrite Hrid in Hst0. simpl in Hst0. congruence.
Qed.

Lemma transition_updates (id : string) e n ev t db x db' :
  transition_run id e n ev t db = (Ok x, db') ->
  exists row, runs db !! id = Some row /\ row_valid id row e /\ is_terminal e = false
    /\ transition_valid e n = true
    /\ update_and_append (decoded id row e) n ev (now t) (now_ms t) db = (Ok x, db').
Proof.
  unfold transition_run. intros Hop.
  apply tbind_ok in Hop as (v & s1 & Hval & Hop). unfold tlift in Hval. injection Hval as _ <-.
  rewrite transaction_ok in Hop. apply tbind_ok in Hop as (run & s2 & Hrun & Hop).
  unfold tread in Hrun. injection Hrun as Hrun <-. apply require_run_ok in Hrun as (row & s & Hr & Hv & ->).
  simpl in Hop. case_bool_decide as Heq; [subst s|discriminate]. simpl in Hop.
  destruct (is_terminal e) eqn:Ht; [discriminate|]. destruct (validate_transition e n) as [[]|] eqn:Hvt; [|discriminate].
  apply validate_transition_ok in Hvt. eauto 10.
Qed.

Lemma recover_each_step `{!ExternalLaws} t (id : string) ids db u db' :
  recover_each t (id :: ids) db = (Ok u, db') -> interruptible_run db id ->
  exists row s e db1, runs db !! id = Some row /\ row_valid id row s /\ is_terminal s = false
    /\ update_and_append (decoded id row s) Interrupted recovery_event (now t) (now_ms t) db = (Ok e, db1)
    /\ recover_each t ids db1 = (Ok u, db').
Proof.
  intros Hop (row & s & Hr & Hv & Hs). cbn [recover_each] in Hop. unfold tbind at 1, tlift at 1 in Hop.
  rewrite (proj2 (parse_run_id_ok id id) (conj eq_refl (rv_id _ _ _ Hv))) in Hop.
  unfold tbind at 1, tread at 1 in Hop. rewrite (run_by_id_decoded id row s) in Hop by done.
  unfold tbind at 1, tlift at 1 in Hop. simpl in Hop.
  apply tbind_ok in Hop as (e & db1 & Hupd & Hop). eauto 10.
Qed.

Lemma recover_each_grows `{!ExternalLaws} t ids db db' :
  NoDup ids -> Forall (interruptible_run db) ids -> recover_each t ids db = (Ok tt, db') -> grows db db'.
Proof.
  revert db. induction ids as [|id ids IH]; intros db Hnd Hall Hop.
  { simpl in Hop. injection Hop as <-. apply grows_refl. }
  apply NoDup_cons in Hnd as [Hnin Hnd]. apply Forall_cons in Hall as [Hi Hall].
  apply recover_each_step in Hop as (row & s & e & db1 & Hr & Hv & Hs & Hupd & Hop); [|done].
  apply (grows_trans _ db1); [intros Ht; by eapply update_and_append_turns|]. apply IH; [done| |done].
  apply (update_and_append_ok id row s) in Hupd as (_ & Hcore & _); [|done..].
  apply Forall_forall. intros id' Hin. rewrite Forall_forall in Hall.
  destruct (Hall id' Hin) as (row' & s' & Hr' & Hrest). exists row', s'. split; [|done].
  rewrite (f_equal k_runs Hcore : runs db1 = _). simpl. rewrite lookup_insert_ne; [done|]. by intros ->.
Qed.

Lemma recover_grows `{!ExternalLaws} t db n db' :
  ledger (core db) -> recover_interrupted_on t db = (Ok n, db') -> grows db db'.
Proof.
  intros Hl Hop. unfold recover_interrupted_on in Hop. rewrite transaction_ok in Hop.
  apply tbind_ok in Hop as (ids & db0 & Ho & Hop). unfold tread in Ho. injection Ho as <- <-.
  apply tbind_ok in Hop as ([] & db1 & Ho & Hop). injection Hop as _ <-.
  eapply recover_each_grows; [apply interrupted_ids_NoDup|by apply interrupted_ids_interruptible|done].
Qed.

(** Recovery succeeds when the clock and the numbers are in range. *)
Definition numbered (db : RunDb) (id : string) : Prop :=
  interruptible_run db id /\ forall row, runs db !! id = Some row -> c_next_event_sequence row < i64_max.

Lemma recover_each_turns `{!ExternalLaws} t ids db :
  NoDup ids -> Forall (numbered db) ids -> ledger (core db) -> turns db -> 0 <= now_ms t <= MAX_SAFE_INTEGER ->
  exists db', recover_each t ids db = (Ok tt, db').
Proof.
  revert db. induction ids as [|id ids IH]; intros db Hnd Hall Hl Ht Hms; [by eexists|].
  apply NoDup_cons in Hnd as [Hnin Hnd]. apply Forall_cons in Hall as [((row & s & Hr & Hv & Hs) & Hn) Hall].
  destruct (update_and_append_total db id row s Interrupted recovery_event (now t) (now_ms t)) as (db1 & Hupd & _);
    try done; [apply ledger_can_append; auto|].
  cbn [recover_each]. unfold tbind at 1, tlift at 1.
  rewrite (proj2 (parse_run_id_ok id id) (conj eq_refl (rv_id _ _ _ Hv))).
  unfold tbind at 1, tread at 1. rewrite (run_by_id_decoded id row s) by done.
  unfold tbind at 1, tlift at 1. simpl. unfold tbind at 1. rewrite Hupd.
  pose proof (update_and_append_turns db id row s _ _ _ _ _ _ Ht Hr Hv Hs Hupd) as [Ht1 _].
  apply (update_and_append_ok id row s) in Hupd as (Hc & Hcore & _); [|done..].
  apply IH; [done| | |done|done].
  - apply Forall_forall. intros id' Hin.
    destruct (proj1 (Forall_forall _ _) Hall id' Hin) as ((row' & s' & Hr' & Hv' & Ht') & Hn').
    assert (runs db1 !! id' = runs db !! id') as Heq.
    { rewrite (f_equal k_runs Hcore : runs db1 = _). simpl. rewrite lookup_insert_ne; [done|]. by intros ->. }
    split; [exists row', s'|]; by rewrite Heq.
  - rewrite Hcore. apply (ledger_appended _ _ _ s); try done; [by apply Hc|by eexists].
Qed.

Lemma v4_admit_grows `{!MillisFormatLaws} s (run : string) msg now db sub db' :
  typed (OpV4Admit s run msg) -> v4_admit_turn s run msg now db = (Ok sub, db') -> grows db db'.
Proof.
  intros (_ & Hc & _ & Hu) Hop Ht.
  apply v4_admit_turn_ok in Hop as [Hval [[-> _]|(_ & (c & Hl) & Hidle & Hroom & Hins)]]; [by split|].
  apply insert_turn_ok in Hins as [Ha _]. eapply admitted_turns; eauto using conversation_row_live.
Qed.

(** ** Every call *)

(** The call writes an end marker of its own into the transcript of run [w];
    [v4_append_content] lets any caller do so while the run is active. *)
Definition self_marking (w : string) (op : store_op) : Prop :=
  match op with OpV4Append rid p _ => rid = w /\ is_terminal_payload p = true | _ => False end.

Lemma exec_turns `{!ExternalLaws, !MillisFormatLaws} op t db db' :
  typed op -> ledger (core db) -> turns db -> exec op t db = (Ok tt, db') ->
  turns db' /\ (forall w, ~ self_marking w op -> markers_final w db -> markers_final w db').
Proof.
  intros Hty Hl Ht.
  assert (grows db db' -> turns db' /\ (forall w, ~ self_marking w op -> markers_final w db -> markers_final w db')) as Hg
    by (intros Hgr; destruct (Hgr Ht); auto).
  destruct op as [id|id b f|r fresh|id e n ev|id ev|ev| |ti fr|id ti|id pa|id|s fr msg|id p msg|id st];
    simpl exec; rewrite ?forget_ok.
  - intros Hop. by eapply Hg, create_conversation_grows.
  - unfold set_conversation_backend. intros [a Hop]. apply Hg. intros Ht'.
    destruct (match f with Some _ => _ | None => _ end); [discriminate|].
    destruct (conversations db !! _); [|discriminate]. injection Hop as _ <-. apply legacy_frame; [done|done|]. intros rid row Hr. by exists row.
  - intros [run Hop]. by eapply Hg, create_run_grows.
  - intros [x Hop]. apply transition_updates in Hop as (row & Hr & Hv & Hs & _ & Hop).
    apply Hg. intros _. by eapply update_and_append_turns.
  - intros [x Hop]. by eapply Hg, append_event_grows.
  - unfold record_audit, tbind, tlift. intros [a Hop]. apply Hg. intros _.
    destruct (validate_audit_label _ _); [|discriminate].
    destruct (validate_audit_label _ _); [|discriminate].
    destruct (match na_run_id ev with Some _ => _ | None => _ end); [discriminate|].
    injection Hop as _ <-. apply legacy_frame; [done|done|]. intros rid row Hr. by exists row.
  - intros [n Hop]. by eapply Hg, recover_grows.
  - intros [c Hop]. by eapply Hg, insert_conversation_grows.
  - intros [c Hop]. by eapply Hg, insert_conversation_grows.
  - intros [c Hop]. by eapply Hg, v4_patch_grows.
  - intros Hop. by eapply Hg, v4_delete_grows.
  - intros [c Hop]. by eapply Hg, v4_admit_grows.
  - intros [c Hop]. destruct Hty. by eapply v4_append_turns.
  - intros Hop. by eapply Hg, v4_finalize_grows.
Qed.

(** A store call, of any kind and on any run, other than a self-written end marker
    of run [w]. *)
Inductive step_beside (w : string) : RunDb -> RunDb -> Prop :=
| step_beside_exec op t db r db' :
    typed op -> ~ self_marking w op -> exec op t db = (r, db') -> step_beside w db db'.

Lemma beside_steps w db db' : rtc (step_beside w) db db' -> rtc store_step db db'.
Proof.
  apply rtc_subrel. intros x y [op t d r d' Hty _ He]. by econstructor.
Qed.

Lemma steps_turns `{!ExternalLaws, !MillisFormatLaws} db db' :
  rtc store_step db db' -> ledger (core db) -> turns db -> ledger (core db') /\ turns db'.
Proof.
  induction 1 as [db|db1 db2 db3 [op t db r db' Hty Hop] _ IH]; intros Hl Ht; [by split|].
  destruct r as [[]|e]; [|apply exec_err in Hop as ->; auto].
  apply IH; [by eapply exec_ok|by eapply exec_turns].
Qed.

Lemma beside_turns `{!ExternalLaws, !MillisFormatLaws} w db db' :
  rtc (step_beside w) db db' -> ledger (core db) -> turns db -> markers_final w db ->
  ledger (core db') /\ turns db' /\ markers_final w db'.
Proof.
  induction 1 as [db|db1 db2 db3 [op t db r db' Hty Ho Hop] _ IH]; intros Hl Ht Hm; [done|].
  destruct r as [[]|e]; [|apply exec_err in Hop as ->; auto].
  destruct (exec_turns op t db db') as [Ht' Hm']; [done..|]. apply IH; [by eapply exec_ok|done|by apply Hm'].
Qed.

Lemma turns_empty : turns empty_run_db /\ forall w, markers_final w empty_run_db.
Proof.
  assert (forall r, conv_of empty_run_db r = None) as Hc by done.
  split; [constructor|]; [..|intros ? ?; discriminate|]; constructor; intros *; rewrite ?Hc; try discriminate.
  - by intros [? ?].
  - by intros [? ?].
Qed.

End Steps.
