(* ===== verification/TurnHistory.v ===== *)
(** * The turn ledger: what is never forgotten

    A turn row keeps its conversation, its message number and its route through
    every store call, so a submission can be answered again later. *)
From stdpp Require Import base list gmap strings sorting relations.
From Stdlib Require Import ZArith Lia.
From S2P Require Import Prelude RustStr External Digest Tables RunContract StoreBase AuditMetadata AssistantContent RunStore TurnContract TurnStore Preview RunLedger TurnLedger TurnMoves TurnSteps.
Import RunStateOps.

Open Scope Z_scope.
Open Scope rust_scope.

Section History.
Context {EX : External} {CC : ContentCodec} {MF : MillisFormat} {DG : Digest} {VJ : V4Json}.
Implicit Types (db : RunDb) (rid cid id : string).

(** Only the references to messages may change. *)
Definition same_turn (a b : TurnRow) : Prop :=
  tn_conversation_id b = tn_conversation_id a /\ tn_user_sequence b = tn_user_sequence a
  /\ tn_route_id b = tn_route_id a /\ tn_permission_profile_id b = tn_permission_profile_id a
  /\ tn_created_at_ms b = tn_created_at_ms a.

Definition turns_kept (k : gmap string TurnRow) db : Prop :=
  forall rid tn, k !! rid = Some tn -> exists tn', assistant_turns db !! rid = Some tn' /\ same_turn tn tn'.

Lemma turns_kept_refl db : turns_kept (assistant_turns db) db.
Proof. intros rid tn Htn. by exists tn. Qed.

Lemma turns_kept_trans k db db' : turns_kept k db -> turns_kept (assistant_turns db) db' -> turns_kept k db'.
Proof.
  intros H1 H2 rid tn (tn1 & Htn1 & E1)%H1. apply H2 in Htn1 as (tn2 & Htn2 & E2). exists tn2. split; [done|].
  unfold same_turn in *. intuition congruence.
Qed.

(** ** Calls that touch neither conversations nor turns *)
Section Quiet.
Variable P : RunDb -> Prop.
Hypothesis HP : forall db db', assistant_conversations db' = assistant_conversations db ->
  assistant_turns db' = assistant_turns db -> conversations db ⊆ conversations db' -> P db -> P db'.

Lemma keeps_quiet {A} (m : Tx RunDb StoreError A) :
  (forall db, assistant_conversations (m db).2 = assistant_conversations db
              /\ assistant_turns (m db).2 = assistant_turns db /\ conversations db ⊆ conversations (m db).2) ->
  keeps P m.
Proof. intros Hm db. destruct (Hm db) as (? & ? & ?). by apply HP. Qed.

Ltac quiet f := apply keeps_quiet; intros db; unfold f; repeat case_match; try done; by simplify_eq/=.

Lemma insert_run_row_quiet id row : keeps P (insert_run_row id row).
Proof. quiet @insert_run_row. Qed.
Lemma insert_event_row_quiet id n row : keeps P (insert_event_row id n row).
Proof. quiet @insert_event_row. Qed.
Lemma update_run_guarded_quiet id e n m ts q : keeps P (update_run_guarded id e n m ts q).
Proof. quiet @update_run_guarded. Qed.
Lemma update_run_sequence_quiet id n ts : keeps P (update_run_sequence id n ts).
Proof. quiet @update_run_sequence. Qed.
Lemma create_conversation_quiet id t : keeps P (create_conversation id t).
Proof.
  apply keeps_quiet. intros db. unfold create_conversation. case_match; [done|]. simpl.
  split; [done|]. split; [done|]. by apply insert_subseteq.
Qed.
Lemma insert_content_row_quiet cid n row : keeps P (insert_content_row cid n row).
Proof. quiet @insert_content_row. Qed.
Lemma insert_payload_row_quiet cid n j : keeps P (insert_payload_row cid n j).
Proof. quiet @insert_payload_row. Qed.
Lemma insert_message_row_quiet id m : keeps P (insert_message_row id m).
Proof. quiet @insert_message_row. Qed.
Lemma insert_or_ignore_profile_quiet id d u : keeps P (insert_or_ignore_profile id d u).
Proof. quiet @insert_or_ignore_profile. Qed.
Lemma update_preview_quiet rid b n : keeps P (update_preview rid b n).
Proof. quiet @update_preview. Qed.
Lemma delete_content_quiet cid : keeps P (delete_content cid).
Proof. quiet @delete_content. Qed.
#[local] Hint Resolve insert_run_row_quiet insert_event_row_quiet update_run_guarded_quiet update_run_sequence_quiet
  create_conversation_quiet insert_content_row_quiet insert_payload_row_quiet insert_message_row_quiet
  insert_or_ignore_profile_quiet update_preview_quiet delete_content_quiet : tx.

Lemma insert_content_event_quiet cid rid p now : keeps P (insert_content_event cid rid p now).
Proof. unfold insert_content_event. keeps_solve. Qed.

Lemma sync_message_state_quiet rid next now : keeps P (sync_message_state rid next now).
Proof.
  intros db Hk. unfold sync_message_state. case_match; [|exact Hk].
  assert (P (update_message_states rid (state_as_str next) db)) as Hk1
    by (by apply (HP db)).
  destruct (negb _); [exact Hk1|]. destruct (terminal_marked _ _); [exact Hk1|].
  destruct (turn_conversation_id _ _) as [cid|]; [|exact Hk1].
  pose proof (insert_content_event_quiet cid rid (Terminal next) now _ Hk1) as Hc.
  destruct (insert_content_event _ _ _ _ _) as [[ev|e] db2]; [exact Hc|]. by destruct e.
Qed.
#[local] Hint Resolve insert_content_event_quiet sync_message_state_quiet : tx.

Lemma update_and_append_quiet run next ev ts ms : keeps P (update_and_append run next ev ts ms).
Proof. unfold update_and_append, append_event. keeps_solve. Qed.
#[local] Hint Resolve update_and_append_quiet : tx.

Lemma recover_each_quiet t ids : keeps P (recover_each t ids).
Proof. induction ids as [|id ids IH]; cbn [recover_each]; [apply keeps_ret|]. keeps_solve. Qed.
Lemma update_assistant_preview_quiet rid d msg now : keeps P (update_assistant_preview rid d msg now).
Proof. unfold update_assistant_preview. keeps_solve. Qed.
#[local] Hint Resolve recover_each_quiet update_assistant_preview_quiet : tx.

Lemma keeps_forget {A} (m : Tx RunDb StoreError A) : keeps P m -> keeps P (fun db => forget (m db)).
Proof. intros Hm db Hk. exact (Hm db Hk). Qed.

Definition is_quiet (op : store_op) : bool :=
  match op with OpV4Create _ _ | OpV4Shell _ _ | OpV4Patch _ _ | OpV4Delete _ | OpV4Admit _ _ _ => false | _ => true end.

Lemma insert_run_or_quiet id row c :
  keeps P (fun db => match insert_run_row id row db with
                     | (Err (Database ConstraintForeignKey), db') => (Err (ConversationNotFound c), db')
                     | r => r
                     end).
Proof.
  intros db Hk. pose proof (insert_run_row_quiet id row db Hk) as Hr.
  destruct (insert_run_row _ _ _) as [[[]|e] db1]; [exact Hr|]. destruct e; try exact Hr. by destruct error.
Qed.
#[local] Hint Resolve insert_run_or_quiet : tx.

Lemma exec_quiet op t : is_quiet op = true -> keeps P (exec op t).
Proof.
  destruct op; simpl; try discriminate; intros _; try apply keeps_forget.
  - apply create_conversation_quiet.
  - apply keeps_quiet. intros db. unfold set_conversation_backend. by repeat case_match.
  - apply keeps_bind; [apply keeps_lift|intros _]. apply keeps_transaction'. keeps_solve.
  - apply keeps_bind; [apply keeps_lift|intros _]. apply keeps_transaction'. keeps_solve.
  - apply keeps_bind; [apply keeps_lift|intros _]. apply keeps_transaction'. unfold append_event. keeps_solve.
  - apply keeps_bind; [apply keeps_lift|intros _]. apply keeps_bind; [apply keeps_lift|intros _].
    apply keeps_quiet. intros db. by repeat case_match.
  - apply keeps_transaction'. keeps_solve.
  - apply keeps_transaction'. keeps_solve.
  - apply keeps_transaction'. keeps_solve. apply keeps_modify. intros db. by apply HP.
Qed.
End Quiet.

(** ** Turns are never forgotten *)
Section Kept.
Variable k : gmap string TurnRow.

Lemma turns_kept_same db db' : assistant_turns db' = assistant_turns db -> turns_kept k db -> turns_kept k db'.
Proof. intros Ht Hk rid tn Htn. rewrite Ht. by apply Hk. Qed.

Lemma insert_turn_row_kept id row : keeps (turns_kept k) (insert_turn_row id row).
Proof.
  intros db Hk. unfold insert_turn_row. destruct (negb _); [done|].
  destruct (assistant_turns db !! id) eqn:Hid; [done|].
  destruct (match tn_user_message_id row with Some _ => _ | None => _ end); [done|]. destruct (_ || _); [done|].
  intros rid tn (tn' & Htn' & E)%Hk. exists tn'. split; [|done]. simpl. rewrite lookup_insert_ne; [done|].
  intros ->. congruence.
Qed.
Lemma delete_messages_kept cid : keeps (turns_kept k) (delete_messages cid).
Proof.
  intros db Hk rid tn (tn' & Htn' & E)%Hk. simpl. rewrite lookup_fmap, Htn'. eexists. split; [done|]. exact E.
Qed.
Lemma insert_conversation_row_kept id row : keeps (turns_kept k) (insert_conversation_row id row).
Proof.
  intros db Hk. eapply turns_kept_same, Hk. unfold insert_conversation_row. by repeat case_match.
Qed.
Lemma update_conversation_row_kept id f : keeps (turns_kept k) (update_conversation_row id f).
Proof. intros db Hk. eapply turns_kept_same, Hk. unfold update_conversation_row. by repeat case_match. Qed.
Lemma update_live_conversation_kept id f : keeps (turns_kept k) (update_live_conversation id f).
Proof.
  intros db Hk. unfold update_live_conversation. repeat case_match; try done. by apply update_conversation_row_kept.
Qed.
#[local] Hint Resolve insert_turn_row_kept delete_messages_kept insert_conversation_row_kept
  update_conversation_row_kept update_live_conversation_kept : tx.

Lemma exec_kept op t : keeps (turns_kept k) (exec op t).
Proof.
  assert (forall db db', assistant_conversations db' = assistant_conversations db ->
            assistant_turns db' = assistant_turns db -> conversations db ⊆ conversations db' ->
            turns_kept k db -> turns_kept k db') as HP
    by (intros; by eapply turns_kept_same).
  pose proof (insert_run_row_quiet _ HP). pose proof (insert_event_row_quiet _ HP).
  pose proof (insert_message_row_quiet _ HP). pose proof (insert_or_ignore_profile_quiet _ HP).
  pose proof (delete_content_quiet _ HP). pose proof (create_conversation_quiet _ HP).
  destruct (is_quiet op) eqn:Hq; [by apply exec_quiet|].
  destruct op; try discriminate; simpl; try apply keeps_forget.
  - apply keeps_transaction'. keeps_solve.
  - apply keeps_transaction'. keeps_solve.
  - apply keeps_transaction'. unfold patch_field. keeps_solve.
  - apply keeps_transaction'. keeps_solve.
  - apply keeps_bind; [apply keeps_lift|intros _]. apply keeps_transaction'. unfold insert_turn. keeps_solve.
Qed.
End Kept.

Lemma steps_kept db db' : rtc store_step db db' -> turns_kept (assistant_turns db) db'.
Proof.
  induction 1 as [db|db1 db2 db3 [op t db r db' _ Hop] _ IH]; [apply turns_kept_refl|].
  apply (turns_kept_trans _ db'); [|exact IH].
  pose proof (exec_kept (assistant_turns db) op t db (turns_kept_refl db)) as Hk. by rewrite Hop in Hk.
Qed.

(** ** Every assistant conversation extends a conversation *)
Definition based db : Prop := forall c, known db c -> is_Some (conversations db !! c).

Lemma based_quiet db db' :
  assistant_conversations db' = assistant_conversations db -> assistant_turns db' = assistant_turns db ->
  conversations db ⊆ conversations db' -> based db -> based db'.
Proof.
  intros Ha _ Hc Hb c. unfold known. rewrite Ha. intros [x Hx]%Hb. exists x. by eapply lookup_weaken.
Qed.

Lemma insert_conversation_row_based id row : keeps based (insert_conversation_row id row).
Proof.
  intros db Hb. unfold insert_conversation_row. destruct (negb _); [done|]. destruct (_ !! id); [done|].
  destruct (sequence_taken _ _); [done|]. destruct (conversations db !! id) eqn:Hc; [|done].
  intros c. unfold known. simpl. destruct (decide (c = id)) as [->|Hne]; [by rewrite Hc; eexists|].
  rewrite lookup_insert_ne by done. apply Hb.
Qed.
Lemma update_conversation_row_based id f : keeps based (update_conversation_row id f).
Proof.
  intros db Hb. unfold update_conversation_row. destruct (_ !! id) as [row|] eqn:Hr; [|done].
  destruct (negb _); [done|]. intros c. unfold known. simpl. intros Hc. apply Hb. unfold known.
  destruct (decide (c = id)) as [->|Hne]; [by rewrite Hr; eexists|]. by rewrite lookup_insert_ne in Hc.
Qed.
Lemma update_live_conversation_based id f : keeps based (update_live_conversation id f).
Proof.
  intros db Hk. unfold update_live_conversation. repeat case_match; try done. by apply update_conversation_row_based.
Qed.
Lemma insert_turn_row_based id row : keeps based (insert_turn_row id row).
Proof.
  intros db Hb. unfold insert_turn_row. destruct (negb _); [done|]. destruct (_ !! id); [done|].
  destruct (match tn_user_message_id row with Some _ => _ | None => _ end); [done|]. by destruct (_ || _).
Qed.
Lemma delete_messages_based cid : keeps based (delete_messages cid).
Proof. by intros db Hb. Qed.

Section Based.
#[local] Hint Resolve insert_conversation_row_based update_conversation_row_based update_live_conversation_based
  insert_turn_row_based delete_messages_based : tx.

Lemma exec_based op t : keeps based (exec op t).
Proof.
  pose proof (insert_run_row_quiet _ based_quiet). pose proof (insert_event_row_quiet _ based_quiet).
  pose proof (insert_message_row_quiet _ based_quiet). pose proof (insert_or_ignore_profile_quiet _ based_quiet).
  pose proof (delete_content_quiet _ based_quiet). pose proof (create_conversation_quiet _ based_quiet).
  destruct (is_quiet op) eqn:Hq; [by apply exec_quiet; [apply based_quiet|]|].
  destruct op; try discriminate; simpl; try apply keeps_forget.
  - apply keeps_transaction'. keeps_solve.
  - apply keeps_transaction'. keeps_solve.
  - apply keeps_transaction'. unfold patch_field. keeps_solve.
  - apply keeps_transaction'. keeps_solve.
  - apply keeps_bind; [apply keeps_lift|intros _]. apply keeps_transaction'. unfold insert_turn. keeps_solve.
Qed.
End Based.

Lemma steps_based db db' : rtc store_step db db' -> based db -> based db'.
Proof.
  induction 1 as [db|db1 db2 db3 [op t db r db' _ Hop] _ IH]; intros Hb; [done|]. apply IH.
  pose proof (exec_based op t db Hb) as Hk. by rewrite Hop in Hk.
Qed.

(** ** Conversations that can be read *)

(** What [conversation_row] checks of a stored row. *)
Definition conversation_row_ok (row : ConversationRow) : Prop :=
  conversation_check row = true /\ label (cv_title row) = Ok tt
  /\ cv_sequence row <= MAX_SAFE_INTEGER /\ cv_updated_at_ms row <= MAX_SAFE_INTEGER.

Definition sound_conversations db : Prop :=
  forall id row, assistant_conversations db !! id = Some row -> cv_deleted row = false -> conversation_row_ok row.

Lemma conversation_read db (id : string) row c :
  assistant_conversations db !! id = Some row -> conversation_check row = true ->
  conversation_row id db = Ok (Some c) -> conversation_row_ok row.
Proof.
  unfold conversation_row. intros Hr Hck Hop.
  assert (assistant_conversations db !! (id : ConversationId) = Some row) as Hr' by exact Hr.
  rewrite Hr' in Hop. destruct (cv_deleted row); [discriminate|]. split; [done|].
  unfold conversation_check in Hck. bools.
  destruct (V4Conversation_validate _) as [[]|] eqn:Hv; [|discriminate].
  unfold V4Conversation_validate, project_conversation in Hv. cbn in Hv. unfold u64_or_zero in Hv.
  destruct (label (cv_title row)) as [[]|] eqn:Hlab; [|discriminate].
  unfold timestamp, ensure in Hv.
  repeat match type of Hv with context [?x <? 0] => destruct (Z.ltb_spec x 0); [lia|] end.
  repeat match type of Hv with context [if ?b then _ else _] => destruct b eqn:?; simpl in Hv; [|discriminate] end.
  bools. split; [done|]. lia.
Qed.

Lemma required_read db (id : string) row c :
  assistant_conversations db !! id = Some row -> conversation_check row = true ->
  required_conversation id db = Ok c -> conversation_row_ok row.
Proof.
  unfold required_conversation. intros Hr Hck. destruct (conversation_row id db) as [[c'|]|] eqn:Hc; [|discriminate..].
  intros _. by eapply conversation_read.
Qed.

(** A sound row is read. *)
Lemma conversation_row_read db (id : string) row :
  assistant_conversations db !! id = Some row -> cv_deleted row = false -> conversation_row_ok row ->
  message_count id db <= MAX_SAFE_INTEGER ->
  let c := project_conversation id row (message_count id db) in
  conversation_row id db = Ok (Some c) /\ V4Conversation_validate c = Ok tt.
Proof.
  intros Hr Hd (Hck & Hl & Hs & Hu) Hn c.
  assert (V4Conversation_validate c = Ok tt) as Hv.
  { unfold conversation_check in Hck. bools. unfold V4Conversation_validate, c, project_conversation. cbn.
    assert (0 <= message_count id db) by (unfold message_count; lia). unfold u64_or_zero.
    repeat match goal with |- context [?x <? 0] => destruct (Z.ltb_spec x 0); [lia|] end.
    rewrite Hl. unfold timestamp, ensure. rewrite !(proj2 (Z.leb_le _ _)) by lia.
    by rewrite (proj2 (Z.ltb_lt _ _)) by lia. }
  split; [|done]. unfold conversation_row.
  assert (assistant_conversations db !! (id : ConversationId) = Some row) as Hr' by exact Hr.
  rewrite Hr', Hd. unfold c in Hv. by rewrite Hv.
Qed.

Lemma conversation_row_none db (id : string) : ~ live db id -> conversation_row id db = Ok None.
Proof.
  intros Hn. unfold conversation_row. case_match eqn:Hr; [|done].
  destruct (cv_deleted c) eqn:Hd; [done|]. destruct Hn. by exists c.
Qed.

(** ** Every call keeps the conversations readable *)
Lemma updated_conversations db (id : string) row :
  sound_conversations db -> (cv_deleted row = false -> conversation_row_ok row) ->
  sound_conversations (set_assistant_conversations (<[id := row]> (assistant_conversations db)) db).
Proof. intros Hs Hr i r. simpl. intros [[<- <-]|[_ Hi]]%lookup_insert_Some; [done|by apply (Hs i)]. Qed.

(** A patch of one field leaves the other rows and checks its own. *)
Lemma patch_field_ok {A} (id : string) now (a : option A) f db x db' :
  patch_field id now a f db = (Ok x, db') ->
  (forall i, i <> id -> assistant_conversations db' !! i = assistant_conversations db !! i)
  /\ (assistant_conversations db' !! id = assistant_conversations db !! id
      \/ exists row, assistant_conversations db' !! id = Some row /\ conversation_check row = true).
Proof.
  unfold patch_field. destruct a as [v|]; [|by intros [= _ <-]; auto].
  intros Hop. apply tbind_ok in Hop as (n & db0 & Ho & Hop). unfold tlift in Ho. injection Ho as _ <-.
  unfold update_live_conversation in Hop. destruct (assistant_conversations db !! id) as [row|] eqn:Hr.
  - destruct (cv_deleted row); [by injection Hop as _ <-; rewrite Hr; auto|].
    apply update_conversation_row_ok in Hop as [[_ ->]|(row' & Hr' & Hck & ->)]; [by rewrite Hr; auto|].
    simpl. split; [intros i Hi; by rewrite lookup_insert_ne|]. right. rewrite lookup_insert_eq. eauto.
  - injection Hop as _ <-. rewrite Hr. auto.
Qed.

Lemma v4_patch_conversations (id : string) patch now db c db' :
  sound_conversations db -> v4_patch_conversation id patch now db = (Ok c, db') -> sound_conversations db'.
Proof.
  unfold v4_patch_conversation. intros Hs Hop. rewrite transaction_ok in Hop.
  apply tbind_ok in Hop as (x & db0 & Ho & Hop). unfold tread in Ho. injection Ho as _ <-.
  apply tbind_ok in Hop as (y & db1 & H1 & Hop). apply tbind_ok in Hop as (z & db2 & H2 & Hop).
  apply tbind_ok in Hop as (w & db3 & H3 & Hop). unfold tread in Hop. injection Hop as Hread <-.
  apply patch_field_ok in H1 as [O1 E1], H2 as [O2 E2], H3 as [O3 E3].
  intros i row Hi Hd. destruct (decide (i = id)) as [->|Hne].
  - assert (conversation_check row = true) as Hck; [|by eapply required_read].
    destruct E3 as [E3|(r & Er & Hr)]; [|congruence]. rewrite E3 in Hi.
    destruct E2 as [E2|(r & Er & Hr)]; [|congruence]. rewrite E2 in Hi.
    destruct E1 as [E1|(r & Er & Hr)]; [|congruence]. rewrite E1 in Hi. by destruct (Hs id row Hi Hd).
  - rewrite O3, O2, O1 in Hi by done. by apply (Hs i).
Qed.

Lemma insert_conversation_ok (id : string) title i now r db c db' :
  insert_conversation id title i now r db = (Ok c, db') ->
  exists row, assistant_conversations db !! id = None /\ conversation_row_ok row
    /\ cv_title row = title /\ cv_deleted row = false
    /\ assistant_conversations db' = <[id := row]> (assistant_conversations db).
Proof.
  unfold insert_conversation. intros Hop. rewrite transaction_ok in Hop.
  apply tbind_ok in Hop as (ts & db0 & Hs & Hop). unfold tlift in Hs. injection Hs as _ <-.
  apply tbind_ok in Hop as (u & db1 & Hc & Hop).
  assert (assistant_conversations db1 = assistant_conversations db) as Heq.
  { destruct r; [unfold tread in Hc; by injection Hc as _ <-|].
    unfold create_conversation in Hc. by case_match; injection Hc as _ <-. }
  apply tbind_ok in Hop as (v & db2 & Ho & Hop). unfold tread in Ho. injection Ho as _ <-.
  apply tbind_ok in Hop as (l & db2 & Ho & Hop). unfold tread in Ho. injection Ho as _ <-.
  apply tbind_ok in Hop as (q & db2 & Ho & Hop). unfold tlift in Ho. injection Ho as _ <-.
  apply tbind_ok in Hop as (n & db2 & Ho & Hop). unfold tlift in Ho. injection Ho as _ <-.
  apply tbind_ok in Hop as (w & db2 & Ho & Hop). unfold tread in Hop. injection Hop as Hread <-.
  assert (conversation_check (mkConversationRow q title false false i false n n) = true) as Hck.
  { unfold insert_conversation_row in Ho. by destruct (conversation_check _). }
  apply insert_conversation_row_ok in Ho as (Hn & ->). eexists. rewrite <- Heq. split; [exact Hn|].
  split; [|split; [|split; [|reflexivity]]]; [|done..].
  eapply (required_read _ id); [|exact Hck|exact Hread]. simpl. apply lookup_insert_eq.
Qed.

Lemma exec_conversations `{!MillisFormatLaws} op t db db' :
  typed op -> sound_conversations db -> exec op t db = (Ok tt, db') -> sound_conversations db'.
Proof.
  intros Hty Hs Hop. destruct (is_quiet op) eqn:Hq.
  { pose proof (exec_quiet sound_conversations) as Hk. specialize (Hk ltac:(intros d d' E _ _ Hd i; rewrite E; apply Hd)).
    specialize (Hk op t Hq db Hs). by rewrite Hop in Hk. }
  destruct op as [| | | | | | |ti fr|id ti|id pa|id|s fr msg| |]; try discriminate; simpl in Hop;
    rewrite ?forget_ok in Hop.
  - destruct Hop as [c (row & _ & Hr & _ & _ & E)%insert_conversation_ok]. intros i r. rewrite E.
    intros [[<- <-]|[_ Hi]]%lookup_insert_Some; [done|by apply (Hs i)].
  - destruct Hop as [c (row & _ & Hr & _ & _ & E)%insert_conversation_ok]. intros i r. rewrite E.
    intros [[<- <-]|[_ Hi]]%lookup_insert_Some; [done|by apply (Hs i)].
  - destruct Hop as [c Hop]. by eapply v4_patch_conversations.
  - apply v4_delete_ok in Hop as (row & Hr & _ & _ & _ & _ & ->). intros i r. simpl.
    intros [[<- <-]|[_ Hi]]%lookup_insert_Some; [discriminate|by apply (Hs i)].
  - destruct Hop as [sub Hop].
    apply v4_admit_turn_ok in Hop as [_ [[-> _]|(_ & _ & _ & _ & Hins)]]; [done|].
    apply insert_turn_ok in Hins as [Ha _]. destruct (ta_conversation _ _ _ _ _ _ Ha) as (row & Hr & Hck & E).
    intros i r. rewrite E. intros [[<- <-]|[_ Hi]]%lookup_insert_Some; [|by apply (Hs i)]. intros Hd.
    destruct (Hs _ row Hr Hd) as (_ & Hl & Hseq & _). split; [done|]. split; [done|]. split; [done|]. apply Ha.
Qed.

Lemma steps_conversations `{!MillisFormatLaws} db db' :
  rtc store_step db db' -> sound_conversations db -> sound_conversations db'.
Proof.
  induction 1 as [db|db1 db2 db3 [op t db r db' Hty Hop] _ IH]; intros Hs; [done|]. apply IH.
  destruct r as [[]|e]; [by eapply exec_conversations|apply exec_err in Hop as ->; auto].
Qed.
End History.
