(* ===== verification/TurnAdmission.v ===== *)
(** * Admission of turns

    [turn_refusal] says which check refuses a submission, in the order of the
    code; [v4_admit_turn] fails with exactly that error and changes nothing, or
    answers the turn already admitted under the key, or admits one new turn. *)
From stdpp Require Import base list gmap strings sorting relations.
From Stdlib Require Import ZArith Lia.
From S2P Require Import Prelude RustStr External Digest Tables RunContract StoreBase AssistantContent RunStore TurnContract TurnStore Preview RunLedger TurnLedger TurnMoves TurnSteps TurnHistory.
Import RunStateOps.

Open Scope Z_scope.
Open Scope rust_scope.

Section Admission.
Context {EX : External} {CC : ContentCodec} {MF : MillisFormat} {DG : Digest} {VJ : V4Json}.
Context {EL : ExternalLaws} {ML : MillisFormatLaws} {CL : ContentLaws}.
Implicit Types (db : RunDb) (rid cid : string).

(** ** Everything the store promises about runs and turns *)
Record assistant db : Prop := {
  a_ledger : ledger (core db);
  a_turns : turns db;
  a_conversations : sound_conversations db;
  a_based : based db;
}.

Lemma assistant_empty : assistant empty_run_db.
Proof.
  constructor; [apply ledger_empty|apply turns_empty|done|]. intros c [x Hx]. discriminate.
Qed.

Lemma steps_assistant db db' : rtc store_step db db' -> assistant db -> assistant db'.
Proof.
  intros Hs [Hl Ht Hc Hb]. destruct (steps_turns db db' Hs Hl Ht) as [Hl' Ht'].
  split; [done|done|by eapply steps_conversations|by eapply steps_based].
Qed.

(** ** A submission under a known key *)
Definition same_request (row : RunRow) (s : V4SubmitTurn) : bool :=
  bool_decide (c_request_digest row = submit_digest s)
  && bool_decide (c_conversation_id row = Some (st_conversation_id s)).

Lemma admit_existing db s (run : RunId) msg now (id : string) row :
  assistant db -> V4SubmitTurn_validate s = Ok tt -> runs db !! id = Some row ->
  c_idempotency_key row = st_idempotency_key s ->
  v4_admit_turn s run msg now db
  = if same_request row s
    then match assistant_turns db !! id with
         | Some tn => (Ok (mkV4TurnSubmission (st_conversation_id s) id (st_idempotency_key s)
                             (tn_user_sequence tn) (state_from_str (c_status row)) true), db)
         | None => (Err (Database QueryReturnedNoRows), db)
         end
    else (Err IdempotencyConflict, db).
Proof.
  intros [Hl Ht _ _] Hval Hr Hk. unfold v4_admit_turn, tbind at 1, tlift at 1. rewrite Hval. cbn [map_err].
  unfold transaction, tbind at 1, tread at 1, run_by_idempotency_key.
  rewrite (ledger_find_key _ _ _ _ Hl Hr Hk). destruct (l_row _ Hl id row Hr) as [[st Hv] _].
  rewrite (proj2 (row_to_run_iff id row (decoded id row st)) (ex_intro _ st (conj Hv eq_refl))).
  unfold tread, duplicate_submission, same_request. cbn [run_request_digest run_conversation_id run_id run_status decoded].
  destruct (bool_decide _); cbn [negb orb andb]; [|done]. destruct (bool_decide _); cbn [negb]; [|done].
  unfold user_sequence. change (assistant_turns db !! (id : RunId)) with (assistant_turns db !! id).
  destruct (assistant_turns db !! id) as [tn|] eqn:Htn; [|done]. simpl.
  destruct (b_turn _ (t_bound _ Ht) id tn Htn) as (Hok & _). unfold turn_ok, turn_check in Hok. bools.
  unfold V4TurnSubmission_validate, ensure, u64_or_zero. simpl.
  destruct (Z.ltb_spec (tn_user_sequence tn) 0); [lia|].
  rewrite (proj2 (Z.ltb_lt _ _)), (proj2 (Z.leb_le _ _)) by lia. simpl.
  unfold state_from_str. by rewrite (rv_status _ _ _ Hv), parse_state_as_str.
Qed.

(** The rows behind an accepted submission. *)
Lemma admitted_rows s (run : string) msg now db sub db' :
  assistant db -> v4_admit_turn s run msg now db = (Ok sub, db') ->
  V4SubmitTurn_validate s = Ok tt
  /\ ts_conversation_id sub = st_conversation_id s /\ ts_idempotency_key sub = st_idempotency_key s
  /\ exists row tn, runs db' !! (ts_run_id sub : string) = Some row
    /\ c_idempotency_key row = st_idempotency_key s /\ same_request row s = true
    /\ assistant_turns db' !! (ts_run_id sub : string) = Some tn
    /\ tn_user_sequence tn = ts_user_message_sequence sub.
Proof.
  intros Ha Hop. pose proof Hop as [Hval [(-> & id & row & ex & Hf & _ & _)|(_ & _ & _ & _ & Hins)]]%v4_admit_turn_ok.
  - split; [done|]. apply find_key_Some in Hf as [Hr Hk].
    rewrite (admit_existing db s run msg now id row Ha Hval Hr Hk) in Hop.
    destruct (same_request row s) eqn:Hsame; [|discriminate].
    destruct (assistant_turns db !! id) as [tn|] eqn:Htn; [|discriminate]. injection Hop as <-. eauto 10.
  - apply insert_turn_ok in Hins as [Hadm ->]. split; [done|]. split; [done|]. split; [done|].
    destruct (ta_runs _ _ _ _ _ _ Hadm) as (ts & Er).
    destruct (ta_turn _ _ _ _ _ _ Hadm) as (tn & _ & _ & Hseq & _ & _ & _ & Et).
    exists (admitted_row (turn_run s) ts), tn. cbn [ts_run_id ts_user_message_sequence].
    rewrite Er, Et, !lookup_insert_eq. split; [done|]. split; [done|]. split; [|done].
    unfold same_request. simpl. by rewrite !bool_decide_eq_true_2.
Qed.

(** ** A submission under a new key *)

(** The first check that refuses it. *)
Definition turn_refusal (s : V4SubmitTurn) (now : Z) db : option StoreError :=
  let conv := st_conversation_id s in
  match assistant_conversations db !! (conv : string) with
  | None => Some AssistantNotFound
  | Some row =>
      if cv_deleted row then Some AssistantNotFound
      else if 0 <? active_runs conv db then Some AssistantConflict
      else if MAX_SEQUENCE - 2 <? last_content_sequence conv db then Some AssistantConflict
      else if negb (is_ok (stamp now)) then Some (InvalidInput "ts range")
      else if now <? cv_created_at_ms row then Some (Database ConstraintCheck)
      else None
  end.

(** The identifiers are new: [RunId::new] and [Uuid::new_v4] never repeat. *)
Definition unused (run msg : string) db : Prop :=
  runs db !! run = None /\ assistant_messages db !! msg = None /\ message_referenced msg db = false
  /\ 1 <= char_count msg <= 128.

Lemma last_message_spec cid db :
  0 <= last_message_sequence cid db
  /\ forall id m, assistant_messages db !! id = Some m -> m_conversation_id m = cid ->
       m_sequence m <= last_message_sequence cid db.
Proof.
  destruct (fold_max_spec (fun (_ : string) m => bool_decide (m_conversation_id m = cid)) (fun _ m => m_sequence m)
              (assistant_messages db)) as (H0 & Hle & _).
  split; [done|]. intros id m Hid Hc. apply (Hle id m Hid). by apply bool_decide_eq_true_2.
Qed.

Lemma next_sequence_free cid db : message_sequence_taken cid (next_message_sequence cid db) db = false.
Proof.
  unfold message_sequence_taken.
  change (fold_exists (fun (_ : string) m => bool_decide (m_conversation_id m = cid)
            && (m_sequence m =? next_message_sequence cid db)) (assistant_messages db) = false).
  apply fold_exists_false. intros id m Hid. destruct (bool_decide (m_conversation_id m = cid)) eqn:Hc; [|done]. bools.
  destruct (last_message_spec cid db) as [_ Hle]. specialize (Hle id m Hid Hc).
  apply Z.eqb_neq. unfold next_message_sequence. lia.
Qed.

Lemma stamp_ok now ts : stamp now = Ok ts -> ms now = Ok now /\ now <= MAX_SAFE_INTEGER.
Proof.
  intros Hs. pose proof (stamp_range _ _ Hs). split; [|done]. apply ms_ok. split; [done|].
  unfold MAX_SAFE_INTEGER, i64_max in *. lia.
Qed.

Lemma route_chars r : route r = Ok tt -> 1 <= char_count r <= 128.
Proof.
  unfold route, ensure. destruct (_ && _) eqn:Hb; [|discriminate]. intros _. bools.
  assert (chars r = bytes r) as Hc.
  { unfold chars. apply decode_ascii. eapply Forall_impl; [by apply forallb_Forall|]. intros b Hb.
    unfold is_route_byte, is_ascii_alphanumeric, is_ascii_digit, is_ascii_lower, is_ascii_upper in Hb. lia. }
  unfold char_count. rewrite Hc, length_bytes. fold (slen r). split; [|done].
  destruct r; [discriminate|]. unfold slen. simpl. lia.
Qed.

(** ** The statements of an admission succeed *)
Lemma insert_run_row_new id row db :
  runs db !! id = None -> find_key (c_idempotency_key row) db = None ->
  (forall c, c_conversation_id row = Some c -> is_Some (conversations db !! c)) ->
  insert_run_row id row db = (Ok tt, set_runs (<[id := row]> (runs db)) db).
Proof.
  intros Hr Hk Hc. unfold insert_run_row. rewrite Hr, Hk. destruct (c_conversation_id row) as [c|]; [|done].
  rewrite bool_decide_eq_false_2; [done|]. destruct (Hc c eq_refl) as [x ->]. done.
Qed.

Lemma insert_message_row_new id m db :
  message_check m = true -> 1 <= char_count id <= 128 -> assistant_messages db !! id = None ->
  message_sequence_taken (m_conversation_id m) (m_sequence m) db = false ->
  is_Some (assistant_conversations db !! m_conversation_id m) -> is_Some (runs db !! m_run_id m) ->
  insert_message_row id m db = (Ok tt, set_messages (<[id := m]> (assistant_messages db)) db).
Proof.
  intros Hm [H1 H2] Hid Hs [c Hc] [r Hr]. unfold insert_message_row.
  by rewrite Hm, (proj2 (Z.leb_le _ _) H1), (proj2 (Z.leb_le _ _) H2), Hid, Hs, Hc, Hr.
Qed.

Lemma insert_profile_ok id d u db : exists t, insert_or_ignore_profile id d u db = (Ok tt, set_profiles t db)
  /\ is_Some (t !! id).
Proof.
  unfold insert_or_ignore_profile. destruct (assistant_profiles db !! id) as [r|] eqn:Hr.
  - exists (assistant_profiles db). split; [by destruct db|by eexists].
  - eexists. split; [done|]. rewrite lookup_insert_eq. by eexists.
Qed.

Lemma insert_turn_row_new id row db :
  turn_check row = true -> assistant_turns db !! id = None ->
  (forall m, tn_user_message_id row = Some m -> message_referenced m db = false /\ is_Some (assistant_messages db !! m)) ->
  is_Some (runs db !! id) -> is_Some (assistant_conversations db !! tn_conversation_id row) ->
  is_Some (assistant_profiles db !! tn_permission_profile_id row) ->
  insert_turn_row id row db = (Ok tt, set_turns (<[id := row]> (assistant_turns db)) db).
Proof.
  intros Ht Hid Hm [r Hr] [c Hc] [p Hp]. unfold insert_turn_row. rewrite Ht, Hid, Hr, Hc, Hp.
  destruct (tn_user_message_id row) as [m|]; [|done]. destruct (Hm m eq_refl) as [-> [x ->]]. done.
Qed.

Lemma insert_event_row_new id n ev db :
  1 <= n -> run_events db !! (id, n) = None -> is_Some (runs db !! id) ->
  insert_event_row id n ev db = (Ok tt, set_run_events (<[(id, n) := ev]> (run_events db)) db).
Proof.
  intros Hn He [r Hr]. unfold insert_event_row. destruct (Z.ltb_spec n 1); [lia|]. by rewrite He, Hr.
Qed.

Lemma update_conversation_row_at id f row db :
  assistant_conversations db !! id = Some row ->
  update_conversation_row id f db
  = if conversation_check (f row)
    then (Ok tt, set_assistant_conversations (<[id := f row]> (assistant_conversations db)) db)
    else (Err (Database ConstraintCheck), db).
Proof. intros Hr. unfold update_conversation_row. rewrite Hr. by destruct (conversation_check (f row)). Qed.

Section Total.
Variables (s : V4SubmitTurn) (run msg : string) (now : Z) (db : RunDb).
Hypothesis Ha : assistant db.
Hypothesis Hty : typed (OpV4Admit s run msg).
Hypothesis Hval : V4SubmitTurn_validate s = Ok tt.
Hypothesis Hkey : find_key (st_idempotency_key s) db = None.
Hypothesis Hnew : unused run msg db.
Hypothesis Hseq : next_message_sequence (st_conversation_id s) db <= MAX_SAFE_INTEGER.
Hypothesis Hnow : 0 <= now.

Lemma new_run_events n : run_events db !! (run, n) = None.
Proof.
  apply eq_None_not_Some. intros [ev He]. destruct (l_event _ (a_ledger _ Ha) run n ev He) as (_ & (row & Hr & _) & _).
  destruct Hnew as (Hn & _). unfold core in Hr. simpl in Hr. congruence.
Qed.

Lemma new_run_turn : assistant_turns db !! run = None.
Proof.
  apply eq_None_not_Some. intros [tn Htn].
  destruct (b_turn _ (t_bound _ (a_turns _ Ha)) run tn Htn) as (_ & _ & _ & row & Hr & _).
  destruct Hnew as (Hn & _). congruence.
Qed.

Lemma submit_sizes : slen (st_input s) <= 32768 /\ 1 <= char_count (st_route_id s) <= 128.
Proof.
  unfold V4SubmitTurn_validate in Hval. destruct (route (st_route_id s)) as [[]|] eqn:Hr; [|discriminate].
  split; [by apply valid_text_len in Hval|by apply route_chars].
Qed.

(** Up to the conversation, every statement succeeds. *)
Lemma insert_turn_reaches_conversation row :
  assistant_conversations db !! (st_conversation_id s : string) = Some row -> is_ok (stamp now) = true ->
  exists D, assistant_conversations D = assistant_conversations db
    /\ insert_turn s run msg now db
       = (update_conversation_row (st_conversation_id s) (set_updated now) ;;
          tret (mkV4TurnSubmission (st_conversation_id s) run (st_idempotency_key s)
                  (next_message_sequence (st_conversation_id s) db) Queued false)) D.
Proof.
  intros Hrow Hst. destruct Hnew as (Hr & Hm & Href & Hlen). destruct submit_sizes as [Hin Hroute].
  destruct (stamp now) as [ts|] eqn:Hs; [|discriminate]. apply stamp_ok in Hs as Hms. destruct Hms as [Hms Hmax].
  pose proof (a_based _ Ha (st_conversation_id s) (ltac:(by eexists))) as Hbase.
  set (seq := next_message_sequence (st_conversation_id s) db) in *.
  assert (1 <= seq) by (unfold seq, next_message_sequence; pose proof (last_message_spec (st_conversation_id s) db); lia).
  assert (message_check (mkMessageRow (st_conversation_id s) run "user" seq (st_input s) (slen (st_input s)) true
            "queued" now) = true) as Hmc.
  { unfold message_check. cbn. pose proof (slen_nonneg (st_input s)).
    repeat (apply andb_true_iff; split); try done; by apply Z.leb_le; lia. }
  assert (turn_check (mkTurnRow (st_conversation_id s) (Some msg) None seq (st_route_id s) "desk.default" now) = true) as Htc.
  { unfold turn_check. cbn. destruct Hroute. repeat (apply andb_true_iff; split); by apply Z.leb_le. }
  unfold insert_turn, tbind at 1, tlift at 1. rewrite Hs. unfold tbind at 1.
  rewrite insert_run_row_new; [|done|done|by intros c [= <-]]. unfold tbind at 1.
  rewrite insert_event_row_new; [|done|apply new_run_events|cbn; rewrite lookup_insert_eq; by eexists].
  unfold tbind at 1, tread at 1. cbv beta.
  match goal with |- context [next_message_sequence ?c ?d] => change (next_message_sequence c d) with seq end.
  unfold tbind at 1, tlift at 1, sql_sequence. rewrite (proj2 (Z.leb_le _ _)) by (unfold MAX_SAFE_INTEGER, i64_max in *; lia).
  unfold tbind at 1, tlift at 1. rewrite Hms. unfold tbind at 1.
  rewrite insert_message_row_new; [|done|done|done|apply (next_sequence_free (st_conversation_id s) db)|by eexists
    |cbn; rewrite lookup_insert_eq; by eexists].
  unfold tbind at 1.
  match goal with |- context [insert_or_ignore_profile ?i ?d ?u ?db] =>
    destruct (insert_profile_ok i d u db) as (t & -> & Hp) end.
  unfold tbind at 1.
  rewrite insert_turn_row_new; [|exact Htc|exact new_run_turn| |cbn; rewrite lookup_insert_eq; by eexists|by eexists|exact Hp].
  2:{ intros m [= <-]. split; [exact Href|]. cbn. rewrite lookup_insert_eq. by eexists. }
  eexists. split; [|unfold V4TurnSubmission_validate, ensure; cbn [ts_user_message_sequence];
    rewrite (proj2 (Z.ltb_lt _ _)), (proj2 (Z.leb_le _ _)) by lia; reflexivity]. done.
Qed.

(** The new time of the conversation must not precede its creation. *)
Lemma updated_check row :
  assistant_conversations db !! (st_conversation_id s : string) = Some row -> cv_deleted row = false ->
  conversation_check (set_updated now row) = negb (now <? cv_created_at_ms row).
Proof.
  intros Hrow Hlive. destruct (a_conversations _ Ha _ row Hrow Hlive) as (Hck & _). unfold conversation_check in *. cbn.
  bools. rewrite !(proj2 (Z.leb_le _ _)) by lia. cbn [andb].
  destruct (Z.leb_spec (cv_created_at_ms row) now), (Z.ltb_spec now (cv_created_at_ms row)); (done || lia).
Qed.

Lemma insert_turn_result row :
  assistant_conversations db !! (st_conversation_id s : string) = Some row -> cv_deleted row = false ->
  is_ok (stamp now) = true ->
  (insert_turn s run msg now db).1
  = if now <? cv_created_at_ms row then Err (Database ConstraintCheck)
    else Ok (mkV4TurnSubmission (st_conversation_id s) run (st_idempotency_key s)
               (next_message_sequence (st_conversation_id s) db) Queued false).
Proof.
  intros Hrow Hlive Hst. destruct (insert_turn_reaches_conversation row Hrow Hst) as (D & HD & ->).
  unfold tbind, tret. rewrite (update_conversation_row_at _ _ row) by (rewrite HD; exact Hrow).
  rewrite (updated_check row Hrow Hlive). by destruct (now <? cv_created_at_ms row).
Qed.

Lemma admit_new :
  message_count (st_conversation_id s) db <= MAX_SAFE_INTEGER ->
  v4_admit_turn s run msg now db
  = match turn_refusal s now db with
    | Some e => (Err e, db)
    | None => (Ok (mkV4TurnSubmission (st_conversation_id s) run (st_idempotency_key s)
                     (next_message_sequence (st_conversation_id s) db) Queued false),
               (insert_turn s run msg now db).2)
    end.
Proof.
  intros Hcount. unfold v4_admit_turn, tbind at 1, tlift at 1. rewrite Hval. cbn [map_err].
  unfold transaction, tbind at 1, tread at 1, run_by_idempotency_key. rewrite Hkey.
  unfold tbind at 1, tread at 1, turn_refusal.
  destruct (assistant_conversations db !! (st_conversation_id s : string)) as [row|] eqn:Hrow.
  2:{ rewrite conversation_row_none; [done|]. intros (r & Hr & _). congruence. }
  destruct (cv_deleted row) eqn:Hd.
  { rewrite conversation_row_none; [done|]. intros (r & Hr & Hd'). congruence. }
  destruct (conversation_row_read db _ row Hrow Hd (a_conversations _ Ha _ row Hrow Hd) Hcount) as [-> _].
  unfold tbind at 1, tread at 1. destruct (0 <? active_runs _ db); [done|].
  unfold tbind at 1, tread at 1. destruct (MAX_SEQUENCE - 2 <? _); [done|].
  destruct (is_ok (stamp now)) eqn:Hst.
  - pose proof (insert_turn_result row Hrow Hd Hst) as Hres. cbn [negb].
    destruct (insert_turn s run msg now db) as [r D]. simpl in Hres. subst r.
    by destruct (now <? cv_created_at_ms row).
  - cbn [negb]. unfold insert_turn, tbind at 1, tlift at 1. destruct (stamp now) as [|e] eqn:Hs; [discriminate|].
    unfold stamp, ms in Hs. destruct (now <=? i64_max); [|by injection Hs as <-].
    destruct (rfc3339_millis now); [discriminate|by injection Hs as <-].
Qed.
End Total.
End Admission.
