(* ===== verification/TurnReferences.v ===== *)
(** * The turn ledger: the message a turn refers to

    In a live conversation every turn refers to the user message it was admitted
    with, whatever calls are made; the reference to an assistant message is never
    set.  This is what reading the history of a conversation relies on. *)
From stdpp Require Import base list gmap strings sorting relations.
From Stdlib Require Import ZArith Lia.
From S2P Require Import Prelude RustStr External Digest Tables RunContract StoreBase AuditMetadata AssistantContent RunStore TurnContract TurnStore Preview RunLedger TurnLedger TurnMoves TurnSteps TurnHistory TurnAdmission.
Import RunStateOps.

Open Scope Z_scope.
Open Scope rust_scope.

Section References.
Context {EX : External} {CC : ContentCodec} {MF : MillisFormat} {DG : Digest} {VJ : V4Json}.
Implicit Types (db : RunDb) (rid cid id : string).

Definition user_message_of db rid (tn : TurnRow) : Prop :=
  exists uid m, tn_user_message_id tn = Some uid /\ assistant_messages db !! uid = Some m
    /\ m_role m = "user" /\ m_run_id m = rid /\ m_conversation_id m = tn_conversation_id tn.

Record referenced db : Prop := {
  r_known : forall rid tn, assistant_turns db !! rid = Some tn -> known db (tn_conversation_id tn);
  r_reply : forall rid tn, assistant_turns db !! rid = Some tn -> tn_assistant_message_id tn = None;
  r_user : forall rid tn, assistant_turns db !! rid = Some tn -> live db (tn_conversation_id tn) ->
    user_message_of db rid tn;
  r_text : forall id m, assistant_messages db !! id = Some m -> m_role m = "user" -> m_body m <> EmptyString;
}.

(** A message may change everything but its place, and a user message keeps its
    text. *)
Definition same_place (a b : MessageRow) : Prop :=
  m_role b = m_role a /\ m_run_id b = m_run_id a /\ m_conversation_id b = m_conversation_id a
  /\ (m_role a = "user" -> m_body b = m_body a).

(** What a change may do to conversations and messages while turns stay. *)
Record gentle db db' : Prop := {
  g_turns : assistant_turns db' = assistant_turns db;
  g_known : forall c, known db c -> known db' c;
  g_live : forall c, known db c -> live db' c -> live db c;
  g_messages : forall id m, assistant_messages db !! id = Some m ->
    exists m', assistant_messages db' !! id = Some m' /\ same_place m m';
  g_new : forall id m, assistant_messages db' !! id = Some m ->
    is_Some (assistant_messages db !! id) \/ m_role m <> "user";
}.

Lemma gentle_referenced db db' : gentle db db' -> referenced db -> referenced db'.
Proof.
  intros [Ht Hk Hl Hm Hnew] [R1 R2 R3 R4]. constructor; [intros rid tn; rewrite Ht; intros Htn..|].
  - by eapply Hk, R1.
  - by eapply R2.
  - intros Hlive. destruct (R3 rid tn Htn) as (uid & m & Hu & Hum & H1 & H2 & H3); [by eapply Hl, Hlive; eapply R1|].
    destruct (Hm _ _ Hum) as (m' & Hm' & E1 & E2 & E3 & _). exists uid, m'.
    split; [done|]. split; [done|]. by rewrite E1, E2, E3.
  - intros id m Hi Hu. destruct (Hnew id m Hi) as [[a Ha]|]; [|done].
    destruct (Hm id a Ha) as (m' & Hm' & E1 & _ & _ & Hb). simplify_eq. rewrite E1 in Hu. rewrite Hb by done. by eapply R4.
Qed.

Lemma gentle_same db db' :
  assistant_conversations db' = assistant_conversations db -> assistant_turns db' = assistant_turns db ->
  assistant_messages db' = assistant_messages db -> gentle db db'.
Proof.
  intros Hc Ht Hm. constructor; [done|..]; unfold known, live; rewrite ?Hc; try done.
  - intros id m Hi. exists m. by rewrite Hm.
  - intros id m. rewrite Hm. by left.
Qed.

Lemma gentle_messages db T :
  (forall id m, assistant_messages db !! id = Some m -> exists m', T !! id = Some m' /\ same_place m m') ->
  (forall id m, T !! id = Some m -> is_Some (assistant_messages db !! id) \/ m_role m <> "user") ->
  gentle db (set_messages T db).
Proof. intros HT Hn. by constructor. Qed.

Lemma gentle_fmap db (f : MessageRow -> MessageRow) :
  (forall m, same_place m (f m)) -> gentle db (set_messages (f <$> assistant_messages db) db).
Proof.
  intros Hf. apply gentle_messages.
  - intros id m Hm. exists (f m). split; [|apply Hf]. by rewrite lookup_fmap, Hm.
  - intros id m. rewrite lookup_fmap. intros (a & Ha & _)%fmap_Some. left. by exists a.
Qed.

Lemma gentle_conversation db id row :
  (forall old, assistant_conversations db !! id = Some old -> cv_deleted row = false -> cv_deleted old = false) ->
  gentle db (set_assistant_conversations (<[id := row]> (assistant_conversations db)) db).
Proof.
  intros Hrow. constructor; [done| | |by intros i m Hm; exists m|by left].
  - intros c [x Hx]. unfold known. simpl. destruct (decide (c = id)) as [->|Hne].
    + rewrite lookup_insert_eq. by eexists.
    + rewrite lookup_insert_ne by done. by eexists.
  - intros c [x Hx] (r & Hr & Hd). simpl in Hr. apply lookup_insert_Some in Hr as [[<- <-]|[_ Hr]].
    + exists x. split; [done|]. by apply Hrow.
    + by exists r.
Qed.

(** ** Statements *)
Lemma keeps_gentle {A} (m : Tx RunDb StoreError A) :
  (forall db, gentle db (m db).2) -> keeps referenced m.
Proof. intros Hm db. by apply gentle_referenced. Qed.

Ltac untouched f := apply keeps_gentle; intros db; unfold f; repeat case_match; by apply gentle_same; simplify_eq/=.

Lemma insert_run_row_refs id row : keeps referenced (insert_run_row id row).
Proof. untouched @insert_run_row. Qed.
Lemma insert_event_row_refs id n row : keeps referenced (insert_event_row id n row).
Proof. untouched @insert_event_row. Qed.
Lemma update_run_guarded_refs id e n m ts q : keeps referenced (update_run_guarded id e n m ts q).
Proof. untouched @update_run_guarded. Qed.
Lemma update_run_sequence_refs id n ts : keeps referenced (update_run_sequence id n ts).
Proof. untouched @update_run_sequence. Qed.
Lemma create_conversation_refs id t : keeps referenced (create_conversation id t).
Proof. untouched @create_conversation. Qed.
Lemma insert_content_row_refs cid n row : keeps referenced (insert_content_row cid n row).
Proof. untouched @insert_content_row. Qed.
Lemma insert_payload_row_refs cid n j : keeps referenced (insert_payload_row cid n j).
Proof. untouched @insert_payload_row. Qed.

Lemma insert_message_row_refs id m : m_role m <> "user" -> keeps referenced (insert_message_row id m).
Proof.
  intros Hm. apply keeps_gentle. intros db. unfold insert_message_row. repeat case_match; try by apply gentle_same.
  apply gentle_messages.
  - intros i a Ha. exists a. split; [|done]. rewrite lookup_insert_ne; [done|congruence].
  - intros i a [[<- <-]|[_ Ha]]%lookup_insert_Some; [by right|left; by exists a].
Qed.
Lemma update_preview_refs rid b n : keeps referenced (update_preview rid b n).
Proof.
  apply keeps_gentle. intros db. unfold update_preview. repeat case_match; try by apply gentle_same.
  apply gentle_fmap. intros m. unfold write_preview. destruct (is_preview_of rid m) eqn:Hp; [|done].
  apply is_preview_iff in Hp as [_ Hr]. do 3 (split; [done|]). simpl. congruence.
Qed.
Lemma update_message_states_refs rid st db : gentle db (update_message_states rid st db).
Proof. apply gentle_fmap. intros m. by destruct (bool_decide _). Qed.

Lemma insert_conversation_row_refs id row : keeps referenced (insert_conversation_row id row).
Proof.
  apply keeps_gentle. intros db. unfold insert_conversation_row. repeat case_match; try by apply gentle_same.
  apply gentle_conversation. congruence.
Qed.
Lemma update_conversation_row_refs id f :
  (forall r, cv_deleted (f r) = false -> cv_deleted r = false) -> keeps referenced (update_conversation_row id f).
Proof.
  intros Hf. apply keeps_gentle. intros db. unfold update_conversation_row. repeat case_match; try by apply gentle_same.
  apply gentle_conversation. intros old Ho. simplify_eq. apply Hf.
Qed.
Lemma update_live_conversation_refs id f :
  (forall r, cv_deleted (f r) = false -> cv_deleted r = false) -> keeps referenced (update_live_conversation id f).
Proof.
  intros Hf db Hr. unfold update_live_conversation. repeat case_match; try done. by apply update_conversation_row_refs.
Qed.
#[local] Hint Resolve insert_run_row_refs insert_event_row_refs update_run_guarded_refs update_run_sequence_refs
  create_conversation_refs insert_content_row_refs insert_payload_row_refs
  update_preview_refs insert_conversation_row_refs : tx.

(** ** Calls *)
Lemma insert_content_event_refs cid rid p now : keeps referenced (insert_content_event cid rid p now).
Proof. unfold insert_content_event. keeps_solve. Qed.

Lemma sync_message_state_refs rid next now : keeps referenced (sync_message_state rid next now).
Proof.
  intros db Hr. unfold sync_message_state. case_match; [|exact Hr].
  pose proof (gentle_referenced _ _ (update_message_states_refs rid (state_as_str next) db) Hr) as Hr1.
  destruct (negb _); [exact Hr1|]. destruct (terminal_marked _ _); [exact Hr1|].
  destruct (turn_conversation_id _ _) as [cid|]; [|exact Hr1].
  pose proof (insert_content_event_refs cid rid (Terminal next) now _ Hr1) as Hc.
  destruct (insert_content_event _ _ _ _ _) as [[ev|e] db2]; [exact Hc|]. by destruct e.
Qed.
#[local] Hint Resolve insert_content_event_refs sync_message_state_refs : tx.

Lemma update_and_append_refs run next ev ts ms : keeps referenced (update_and_append run next ev ts ms).
Proof. unfold update_and_append, append_event. keeps_solve. Qed.
#[local] Hint Resolve update_and_append_refs : tx.

Lemma recover_each_refs t ids : keeps referenced (recover_each t ids).
Proof. induction ids as [|id ids IH]; cbn [recover_each]; [apply keeps_ret|]. keeps_solve. Qed.
Lemma update_assistant_preview_refs rid d msg now : keeps referenced (update_assistant_preview rid d msg now).
Proof. unfold update_assistant_preview. keeps_solve. by apply insert_message_row_refs. Qed.
#[local] Hint Resolve recover_each_refs update_assistant_preview_refs : tx.

Lemma insert_run_or_refs id row c :
  keeps referenced (fun db => match insert_run_row id row db with
                     | (Err (Database ConstraintForeignKey), db') => (Err (ConversationNotFound c), db')
                     | r => r
                     end).
Proof.
  intros db Hk. pose proof (insert_run_row_refs id row db Hk) as Hr.
  destruct (insert_run_row _ _ _) as [[[]|e] db1]; [exact Hr|]. destruct e; try exact Hr. by destruct error.
Qed.
#[local] Hint Resolve insert_run_or_refs : tx.

Lemma patch_field_refs {A} id now (a : option A) f :
  (forall v n r, cv_deleted (f v n r) = false -> cv_deleted r = false) -> keeps referenced (patch_field id now a f).
Proof.
  intros Hf. unfold patch_field. destruct a; [|apply keeps_ret]. apply keeps_bind; [apply keeps_lift|intros n].
  apply update_live_conversation_refs. intros r. apply Hf.
Qed.

(** Admission and deletion have their own lemmas. *)
Definition is_gentle (op : store_op) : bool :=
  match op with OpV4Delete _ | OpV4Admit _ _ _ => false | _ => true end.

Lemma exec_gentle op t : is_gentle op = true -> keeps referenced (exec op t).
Proof.
  destruct op; simpl; try discriminate; intros _; try apply keeps_forget.
  - apply create_conversation_refs.
  - apply keeps_gentle. intros db. unfold set_conversation_backend. repeat case_match; by apply gentle_same.
  - apply keeps_bind; [apply keeps_lift|intros _]. apply keeps_transaction'. keeps_solve.
  - apply keeps_bind; [apply keeps_lift|intros _]. apply keeps_transaction'. keeps_solve.
  - apply keeps_bind; [apply keeps_lift|intros _]. apply keeps_transaction'. unfold append_event. keeps_solve.
  - apply keeps_bind; [apply keeps_lift|intros _]. apply keeps_bind; [apply keeps_lift|intros _].
    apply keeps_gentle. intros db. repeat case_match; by apply gentle_same.
  - apply keeps_transaction'. keeps_solve.
  - apply keeps_transaction'. keeps_solve.
  - apply keeps_transaction'. keeps_solve.
  - apply keeps_transaction'. apply keeps_bind; [auto with tx|intros _]. repeat (apply keeps_bind; [by apply patch_field_refs|intros _]).
    keeps_solve.
  - apply keeps_transaction'. keeps_solve.
  - apply keeps_transaction'. keeps_solve. apply keeps_modify. intros db. apply gentle_referenced, gentle_fmap.
    intros m. by destruct (_ && _).
Qed.

Lemma admitted_refs s (run msg : string) now db db' :
  V4SubmitTurn_validate s = Ok tt -> turn_admitted s run msg now db db' -> referenced db -> referenced db'.
Proof.
  intros Hval [_ _ (m & Hmc & Hmr & Hrole & Hbody & _ & _ & _ & _ & Hfresh & _ & Hms)
          (tn & Htc & _ & _ & _ & Htu & _ & Hts) (crow & Hcr & _ & Hcs) _ _ _ Hnone] [R1 R2 R3 R4].
  assert (forall c, known db c -> known db' c) as Hk.
  { intros c [x Hx]. unfold known. rewrite Hcs. destruct (decide (c = st_conversation_id s)) as [->|Hne].
    - rewrite lookup_insert_eq. by eexists.
    - rewrite lookup_insert_ne by done. by eexists. }
  assert (forall c, live db' c -> live db c) as Hl.
  { intros c (r & Hr & Hd). rewrite Hcs in Hr. apply lookup_insert_Some in Hr as [[<- <-]|[_ Hr]]; [|by exists r].
    by exists crow. }
  constructor; [intros rid t Ht; pose proof Ht as Ht'; rewrite Hts in Ht;
    apply lookup_insert_Some in Ht as [[<- <-]|[Hne Ht]]..|].
  - apply Hk. rewrite Htc. by exists crow.
  - by eapply Hk, R1.
  - by apply Hnone.
  - by eapply R2.
  - intros _. exists msg, m. rewrite Hms, lookup_insert_eq, Htc. done.
  - intros Hlive. destruct (R3 rid t Ht (Hl _ Hlive)) as (uid & u & Hu & Hum & H3). exists uid, u.
    split; [done|]. split; [|done]. rewrite Hms, lookup_insert_ne; [done|congruence].
  - intros id u Hu. rewrite Hms in Hu. apply lookup_insert_Some in Hu as [[<- <-]|[_ Hu]]; [|by eapply R4].
    intros _. rewrite Hbody. intros Hempty. unfold V4SubmitTurn_validate in Hval.
    destruct (route _); [|discriminate]. rewrite Hempty in Hval. vm_compute in Hval. discriminate.
Qed.

Lemma deleted_refs id row now db : referenced db -> referenced (forgotten id row now db).
Proof.
  intros [R1 R2 R3 R4]. constructor; [intros rid t Ht; simpl in Ht; rewrite lookup_fmap in Ht;
    apply fmap_Some in Ht as (t0 & Ht & ->); simpl..|].
  - destruct (R1 rid t0 Ht) as [x Hx]. unfold known. simpl.
    destruct (decide (tn_conversation_id t0 = id)) as [->|Hne]; [rewrite lookup_insert_eq; by eexists|].
    rewrite lookup_insert_ne by done. by eexists.
  - by rewrite (R2 rid t0 Ht).
  - intros [Hlive Hne]%deleted_live. destruct (R3 rid t0 Ht Hlive) as (uid & u & Hu & Hum & Hr & Hrun & Hc).
    exists uid, u. simpl. rewrite Hu. unfold clear_reference. simpl assistant_messages.
    rewrite Hum.
    rewrite bool_decide_eq_false_2 by congruence. split; [done|]. split; [|done].
    apply map_lookup_filter_Some. split; [done|]. simpl. congruence.
  - intros i m [Hi _]%deleted_message. by apply (R4 i).
Qed.

Context {EL : ExternalLaws} {ML : MillisFormatLaws} {CL : ContentLaws}.

Lemma exec_referenced op t db r db' : referenced db -> exec op t db = (r, db') -> referenced db'.
Proof.
  intros Hr Hop. destruct (is_gentle op) eqn:Hg.
  { pose proof (exec_gentle op t Hg db Hr) as Hk. by rewrite Hop in Hk. }
  destruct r as [[]|e]; [|apply exec_err in Hop; by subst].
  destruct op; try discriminate; simpl in Hop.
  - apply v4_delete_ok in Hop as (row & _ & _ & _ & _ & _ & ->). by apply deleted_refs.
  - rewrite forget_ok in Hop. destruct Hop as [sub Hop].
    apply v4_admit_turn_ok in Hop as [Hval [[-> _]|(_ & _ & _ & _ & Hins)]]; [done|].
    apply insert_turn_ok in Hins as [Hadm _]. by eapply admitted_refs.
Qed.

Lemma steps_referenced db db' : rtc store_step db db' -> referenced db -> referenced db'.
Proof.
  induction 1 as [db|db1 db2 db3 [op t db r db' _ Hop] _ IH]; [done|]. intros Hr. apply IH. by eapply exec_referenced.
Qed.

Lemma referenced_empty : referenced empty_run_db.
Proof. constructor; intros i x Hx; discriminate. Qed.
End References.
