(* ===== verification/TurnRead.v ===== *)
(** * Reading a transcript

    [v4_content] page by page: every page is valid and bounded, the cursor makes
    progress, and following it to the end yields the whole content of a run. *)
From stdpp Require Import base list gmap strings sorting relations.
From Stdlib Require Import ZArith Lia.
From S2P Require Import Prelude RustStr External Digest Tables RunContract StoreBase AssistantContent RunStore TurnContract TurnStore Preview RunLedger TurnLedger TurnMoves TurnSteps TurnHistory TurnAdmission.
Import RunStateOps.

Open Scope Z_scope.
Open Scope rust_scope.

Lemma map_result_map {A B E} (f : A -> result E B) (g : A -> B) l :
  (forall x, x ∈ l -> f x = Ok (g x)) -> map_result f l = Ok (map g l).
Proof.
  intros Hf. apply map_result_ok. induction l as [|x l IH]; simpl; constructor; [apply Hf; left|].
  apply IH. intros y Hy. apply Hf. by right.
Qed.

Section Read.
Context {EX : External} {CC : ContentCodec} {MF : MillisFormat} {DG : Digest} {VJ : V4Json}.
Context {EL : ExternalLaws} {CL : ContentLaws} {JL : V4JsonLaws}.
Implicit Types (db : RunDb) (rid cid : string).

(** ** The events of a run *)
Definition payload_at db cid (n : Z) : V4ContentPayload :=
  default (Notice Truncated) (assistant_content_payloads db !! (cid, n) ≫= content_of_json).

Definition event_of db cid rid (p : Z * ContentRow) : V4ContentEvent :=
  mkV4ContentEvent cid rid p.1 (ct_timestamp_ms p.2) (payload_at db cid p.1).

(** Everything recorded for [rid] past the cursor, in order. *)
Definition transcript db cid rid (after : Z) : list V4ContentEvent :=
  map (event_of db cid rid) (content_after cid rid after db).

Lemma stored_payload db cid n row :
  sound_content db -> assistant_content_events db !! (cid, n) = Some row ->
  let p := payload_at db cid n in
  assistant_content_payloads db !! (cid, n) = Some (content_json p) /\ content_of_json (content_json p) = Some p
  /\ V4ContentPayload_validate p = Ok tt /\ payload_typed p /\ ct_kind row = kind_of p.
Proof.
  intros Hs Hr. destruct (s_row _ Hs _ _ _ Hr) as (_ & _ & _ & _ & p & Hp & Hv & Hty & Hk & _).
  assert (payload_at db cid n = p) as ->.
  { unfold payload_at. rewrite Hp. simpl. by rewrite content_roundtrip. }
  split; [done|]. split; [by apply content_roundtrip|]. done.
Qed.

Lemma event_of_valid db cid rid p a :
  sound_content db -> p ∈ content_after cid rid a db ->
  decode_content cid rid db p = Ok (event_of db cid rid p)
  /\ V4ContentEvent_validate (event_of db cid rid p) = Ok tt
  /\ a < p.1 <= MAX_SEQUENCE /\ 1 <= p.1 /\ 0 <= ct_timestamp_ms p.2 <= MAX_SAFE_INTEGER
  /\ ct_run_id p.2 = rid /\ assistant_content_events db !! (cid, p.1) = Some p.2.
Proof.
  destruct p as [n row]. intros Hs (Hr & Hrun & Ha)%elem_of_content. cbn [fst snd].
  destruct (stored_payload db cid n row Hs Hr) as (Hp & Hrt & Hv & _ & _).
  destruct (s_row _ Hs _ _ _ Hr) as (_ & _ & Hn & Ht & _). split; [|split; [|by auto with lia]].
  - unfold decode_content, event_of. cbn [fst snd].
    change (assistant_content_payloads db !! (cid : ConversationId, n)) with (assistant_content_payloads db !! (cid, n)).
    rewrite Hp. simpl. rewrite Hrt. simpl. unfold u64_or_zero.
    destruct (Z.ltb_spec n 0); [lia|]. by destruct (Z.ltb_spec (ct_timestamp_ms row) 0); [lia|].
  - unfold V4ContentEvent_validate, event_of, AssistantContent.timestamp, ensure. cbn [ce_timestamp_ms ce_sequence ce_payload fst snd].
    unfold MAX_V4_CONTENT_EVENTS, MAX_SEQUENCE in *.
    rewrite (proj2 (Z.leb_le (ct_timestamp_ms row) _)), (proj2 (Z.ltb_lt 0 n)), (proj2 (Z.leb_le n _)) by lia. done.
Qed.

(** The texts of the transcript are the reply. *)
Lemma transcript_texts db cid rid :
  sound_content db ->
  foldr (fun e acc => payload_text (ce_payload e) +:+ acc) EmptyString (transcript db cid rid 0) = reply db cid rid.
Proof.
  intros Hs. unfold transcript, reply.
  assert (forall p, p ∈ content_after cid rid 0 db -> payload_text (payload_at db cid p.1) = delta_of db cid p.1) as Heq.
  { intros [n row] (Hr & _)%elem_of_content. unfold delta_of. cbn [fst].
    destruct (stored_payload db cid n row Hs Hr) as (-> & -> & _). done. }
  induction (content_after cid rid 0 db) as [|p l IH]; [done|]. cbn [map foldr].
  rewrite IH by (intros q Hq; apply Heq; by right). by rewrite <- Heq by left.
Qed.

(** Past a row of the run the transcript is the rest of it. *)
Lemma content_after_suffix db cid rid a l p r :
  content_after cid rid a db = l ++ p :: r -> content_after cid rid p.1 db = r.
Proof.
  intros Hl. pose proof (content_ordered db cid rid a) as Ho. pose proof (content_NoDup db cid rid a) as Hnd.
  assert (forall x y, x ∈ content_after cid rid a db -> y ∈ content_after cid rid a db -> x.1 = y.1 -> x = y) as Hinj.
  { intros [n1 r1] [n2 r2] (H1 & _)%elem_of_content (H2 & _)%elem_of_content. simpl. intros ->. congruence. }
  assert (p ∈ content_after cid rid a db) as Hp by (rewrite Hl; apply elem_of_app; right; left).
  destruct (ordered_split fst _ p Ho Hinj Hnd Hp) as (l1 & Heq).
  assert (r = filter (fun y : Z * ContentRow => p.1 < y.1) (content_after cid rid a db)) as Hr.
  { rewrite Hl in Heq at 1. rewrite Hl in Hnd. clear -Heq Hnd. revert l1 Heq.
    induction l as [|x l IH]; intros [|y l1] Heq; simplify_eq/=; [done| | |].
    - exfalso. apply NoDup_cons in Hnd as [Hn _]. apply Hn, elem_of_app. right. left.
    - exfalso. apply NoDup_cons in Hnd as [Hn _]. apply Hn, elem_of_app. right. left.
    - apply NoDup_cons in Hnd as [_ Hnd]. by eapply IH. }
  apply (content_after_eq db).
  - rewrite Hr. by apply ordered_filter.
  - rewrite Hr. by apply NoDup_filter.
  - intros [n row]. rewrite Hr, list_elem_of_filter, !elem_of_content. destruct p as [m prow].
    apply elem_of_content in Hp as (_ & _ & Ha). simpl in *. split; [tauto|]. intros (? & ? & ?). split; [lia|].
    split; [done|]. split; [done|lia].
Qed.

(** ** One page *)
Lemma content_page_eq db cid rid a limit :
  bound db -> sound_content db -> conv_of db rid = Some cid -> 0 <= a <= MAX_SEQUENCE ->
  a = 0 \/ (exists row, assistant_content_events db !! (cid, a) = Some row /\ ct_run_id row = rid) ->
  content_page cid rid a limit db = Ok (take (Z.to_nat limit) (transcript db cid rid a)).
Proof.
  intros Hb Hs Hc Ha Hcur. unfold content_page, turn_conversation. unfold conv_of in Hc.
  change (assistant_turns db !! (rid : RunId)) with (assistant_turns db !! rid). rewrite Hc. cbn [ok_or].
  rewrite bool_decide_eq_true_2 by done. cbn [negb]. unfold sql_sequence.
  rewrite (proj2 (Z.leb_le a i64_max)) by (unfold MAX_SEQUENCE, i64_max in *; lia).
  assert ((if a =? 0 then Ok tt
           else match assistant_content_events db !! (cid, a) with
                | Some row => if bool_decide (ct_run_id row = rid) then Ok tt else Err (InvalidInput "content cursor invalid")
                | None => Err (InvalidInput "content cursor invalid")
                end) = Ok tt :> result StoreError unit) as Hcheck.
  { destruct (Z.eqb_spec a 0); [done|]. destruct Hcur as [?|(row & -> & ?)]; [done|]. by rewrite bool_decide_eq_true_2. }
  cbv beta iota. match goal with |- (let? _ := ?x in _) = _ => change x with
    (if a =? 0 then Ok tt
     else match assistant_content_events db !! (cid, a) with
          | Some row => if bool_decide (ct_run_id row = rid) then Ok tt else Err (InvalidInput "content cursor invalid")
          | None => Err (InvalidInput "content cursor invalid")
          end : result StoreError unit) end.
  rewrite Hcheck. cbv beta iota. unfold transcript. change (map (event_of db cid rid)) with (fmap (M:=list) (event_of db cid rid)). rewrite <- fmap_take.
  set (l := take (Z.to_nat limit) (content_after cid rid a db)).
  assert (forall p, p ∈ l -> p ∈ content_after cid rid a db) as Hl by (intros p; apply subseteq_take).
  rewrite (map_result_map _ (event_of db cid rid)) by (intros p Hp; by apply (event_of_valid db cid rid p a Hs), Hl).
  rewrite (map_result_map check_content id), map_id; [done|]. intros e (p & -> & Hp%Hl)%list_elem_of_fmap.
  unfold check_content. by destruct (event_of_valid db cid rid p a Hs Hp) as (_ & -> & _).
Qed.

(** The loop of [v4_content] keeps a prefix that fits, and at least one event. *)
Lemma fit_content_prefix (q : V4ContentQuery) (events : list V4ContentEvent) m :
  (forall es, (length es <= 1)%nat -> Forall (fun e => e ∈ events) es ->
     content_page_len (content_candidate q es) <= MAX_V4_PAGE_BYTES) ->
  (m <= length events)%nat ->
  exists k, fit_content m q (take m events) = take k events /\ (k <= m)%nat /\ (1 <= m -> 1 <= k)%nat
    /\ content_page_len (content_candidate q (take k events)) <= MAX_V4_PAGE_BYTES.
Proof.
  intros Hsmall. induction m as [|m IH]; intros Hm.
  - exists 0%nat. split; [done|]. split; [done|]. split; [lia|]. by apply Hsmall; [simpl; lia|constructor].
  - cbn [fit_content]. destruct (Z.leb_spec (content_page_len (content_candidate q (take (S m) events))) MAX_V4_PAGE_BYTES)
      as [Hfit|Hbig]; [by exists (S m); auto with lia|].
    assert (m <> 0%nat) as Hm0.
    { intros ->. specialize (Hsmall (take 1 events)). rewrite length_take in Hsmall.
      specialize (Hsmall ltac:(lia)). assert (Forall (fun e => e ∈ events) (take 1 events)) as Hall
        by (apply Forall_forall; intros e; apply subseteq_take). specialize (Hsmall Hall). lia. }
    rewrite removelast_firstn by lia. destruct IH as (k & ? & ? & ? & ?); [lia|]. exists k. auto with lia.
Qed.

(** Events in the order the page validator wants: increasing, and nothing after
    a terminal one. *)
Definition in_order (a b : V4ContentEvent) : Prop :=
  ce_sequence a < ce_sequence b /\ is_terminal_payload (ce_payload a) = false.

Definition ends (es : list V4ContentEvent) : bool :=
  match list.last es with Some e => is_terminal_payload (ce_payload e) | None => false end.

Lemma content_events_valid_ok cid rid es : forall last bytes,
  Forall (fun e => V4ContentEvent_validate e = Ok tt /\ ce_conversation_id e = cid /\ ce_run_id e = rid /\ last < ce_sequence e) es ->
  StronglySorted in_order es ->
  exists b, content_events_valid cid rid es last false bytes
      = Ok (from_option ce_sequence last (list.last es), ends es, b)
    /\ b <= bytes + 16384 * Z.of_nat (length es).
Proof.
  induction es as [|e es IH]; intros last bytes Hall Hsort.
  - exists bytes. split; [done|]. simpl. lia.
  - apply Forall_cons in Hall as [(Hv & Hc & Hr & Hlt) Hall]. apply StronglySorted_cons in Hsort as [Hfirst Hsort].
    cbn [content_events_valid]. unfold V4ContentEvent_validate_after, ensure at 1. cbn [negb]. rewrite Hv.
    rewrite !bool_decide_eq_true_2, (proj2 (Z.ltb_lt _ _)) by done. cbn [andb ensure].
    set (bytes' := match ce_payload e with TextDelta text => bytes + slen text | _ => bytes end).
    assert (bytes' <= bytes + 16384) as Hb.
    { unfold bytes'. unfold V4ContentEvent_validate in Hv. destruct (AssistantContent.timestamp _); [|discriminate].
      destruct (ensure _); [|discriminate]. destruct (ce_payload e) as [t| | | |]; try lia.
      simpl in Hv. unfold ensure in Hv. destruct (_ && _) eqn:Hk; [|discriminate]. bools. unfold MAX_V4_DELTA_BYTES in *. lia. }
    destruct es as [|e2 es].
    + exists bytes'. cbn. split; [reflexivity|]. lia.
    + assert (is_terminal_payload (ce_payload e) = false) as ->.
      { apply Forall_cons in Hfirst as [[_ ?] _]. done. }
      destruct (IH (ce_sequence e) bytes') as (b & -> & Hle); [|done|].
      { eapply Forall_impl; [apply Forall_and; split; [exact Hall|exact Hfirst]|].
        intros x [(? & ? & ? & _) [? _]]. done. }
      exists b. split; [|simpl in *; lia]. unfold ends. change (list.last (e :: e2 :: es)) with (list.last (e2 :: es)).
      by destruct (list.last (e2 :: es)) eqn:Hl; [|apply last_None in Hl].
Qed.

(** Markers are in order, so the transcript is. *)
Lemma transcript_sorted db cid rid a :
  sound_content db -> markers_final rid db -> StronglySorted in_order (transcript db cid rid a).
Proof.
  intros Hs [_ F2 _]. unfold transcript.
  assert (forall l, ordered_by fst l -> NoDup l -> (forall p, p ∈ l -> p ∈ content_after cid rid a db) ->
            StronglySorted in_order (map (event_of db cid rid) l)) as Hgen.
  { induction l as [|p l IH]; intros Ho Hnd Hin; [constructor|].
    apply StronglySorted_cons in Ho as [Hfirst Ho]. apply NoDup_cons in Hnd as [Hnin Hnd]. cbn [map].
    apply StronglySorted_cons. split; [|apply IH; [done|done|]; intros q Hq; apply Hin; by right].
    apply Forall_forall. intros e (q & -> & Hq)%list_elem_of_fmap.
    assert (p ∈ content_after cid rid a db) as Hp by (apply Hin; left).
    assert (q ∈ content_after cid rid a db) as Hq' by (apply Hin; by right).
    destruct p as [n row], q as [m row']. apply elem_of_content in Hp as (Hr & Hrun & _), Hq' as (Hr' & Hrun' & _).
    rewrite Forall_forall in Hfirst. specialize (Hfirst _ Hq). simpl in Hfirst.
    assert (n <> m) by (intros ->; apply Hnin; congruence). unfold in_order, event_of. cbn.
    split; [lia|]. apply not_true_iff_false. intros Ht.
    destruct (stored_payload db cid n row Hs Hr) as (_ & _ & Hv & _ & Hk).
    rewrite <- (kind_of_terminal _ Hv), <- Hk in Ht.
    assert (m <= n) by (eapply (F2 cid n m row row'); done). lia. }
  apply Hgen; [apply content_ordered|apply content_NoDup|done].
Qed.

Section Page.
Variables (db : RunDb) (cid rid : string).
Hypothesis Hb : bound db.
Hypothesis Hs : sound_content db.
Hypothesis Hm : markers_final rid db.
Hypothesis Hc : conv_of db rid = Some cid.
Hypothesis Hrid : slen rid = 36.
Hypothesis Hread : exists c, conversation_row cid db = Ok (Some c).

Lemma cid_length : slen cid = 36.
Proof. destruct (conv_of_bound db rid cid Hb Hc) as (Hu & _). by eapply uuid_length. Qed.

(** A page with at most one event is small. *)
Lemma small_page (q : V4ContentQuery) es :
  tq_conversation_id q = cid -> tq_run_id q = rid -> 0 <= tq_after q <= MAX_SEQUENCE -> (length es <= 1)%nat ->
  Forall (fun e => exists p, p ∈ content_after cid rid (tq_after q) db /\ e = event_of db cid rid p) es ->
  content_page_len (content_candidate q es) <= MAX_V4_PAGE_BYTES.
Proof.
  intros Hqc Hqr Ha Hlen Hall. pose proof cid_length as Hcid.
  assert (Forall (fun e => is_u64 (ce_sequence e) /\ is_u64 (ce_timestamp_ms e) /\ ce_conversation_id e = cid
            /\ ce_run_id e = rid /\ slen (content_json (ce_payload e)) <= 131072) es) as Hes.
  { eapply Forall_impl; [exact Hall|]. intros e (p & Hp & ->).
    destruct (event_of_valid db cid rid p _ Hs Hp) as (_ & _ & ? & ? & ? & _ & Hr).
    destruct (stored_payload db cid p.1 p.2 Hs Hr) as (_ & _ & Hv & Hty & _).
    destruct (payload_size _ Hv Hty) as [Hsz _]. unfold is_u64, MAX_SEQUENCE, MAX_SAFE_INTEGER, u64_max in *. cbn.
    repeat split; try done; lia. }
  assert (content_page_typed (content_candidate q es)) as Hty.
  { unfold content_page_typed. cbn. split; [unfold is_u64, MAX_SEQUENCE, u64_max in *; lia|]. split.
    - unfold content_cursor. intros n. destruct (list.last es) as [e|] eqn:Hl; [|discriminate].
      destruct (is_terminal_payload _); [discriminate|]. intros [= <-].
      apply last_Some_elem_of in Hl. rewrite Forall_forall in Hes. by destruct (Hes e Hl).
    - eapply Forall_impl; [exact Hes|]. by intros e (? & ? & _). }
  pose proof (content_page_size _ Hty) as Hsize. cbn [tp_conversation_id tp_run_id tp_events content_candidate] in Hsize.
  rewrite Hqc, Hqr, Hcid, Hrid in Hsize. unfold MAX_V4_PAGE_BYTES.
  destruct es as [|e [|e2 es]]; [simpl in Hsize; lia| |simpl in Hlen; lia].
  apply Forall_inv in Hes as (_ & _ & Hec & Her & Hej). cbn [map foldr] in Hsize.
  rewrite Hec, Her, Hcid, Hrid in Hsize. lia.
Qed.

(** Every page is a non-empty prefix of what is left, and valid. *)
Lemma v4_content_page (q : V4ContentQuery) :
  tq_conversation_id q = cid -> tq_run_id q = rid -> 1 <= tq_limit q <= MAX_V4_PAGE -> 0 <= tq_after q <= MAX_SEQUENCE ->
  tq_after q = 0 \/ (exists row, assistant_content_events db !! (cid, tq_after q) = Some row /\ ct_run_id row = rid) ->
  exists k, let page := content_candidate q (take k (transcript db cid rid (tq_after q))) in
    v4_content q db = (Ok page, db) /\ V4ContentPage_validate page = Ok tt
    /\ (k <= Z.to_nat (tq_limit q))%nat /\ (transcript db cid rid (tq_after q) <> [] -> 1 <= k)%nat.
Proof.
  intros Hqc Hqr Hlim Ha Hcur. set (all := transcript db cid rid (tq_after q)).
  assert (V4ContentQuery_validate q = Ok tt) as Hq.
  { unfold V4ContentQuery_validate, limit, ensure. rewrite !(proj2 (Z.leb_le _ _)); [done|..];
      unfold MAX_V4_CONTENT_EVENTS, MAX_SEQUENCE in *; lia. }
  set (es := take (Z.to_nat (tq_limit q)) all).
  assert (Forall (fun e => exists p, p ∈ content_after cid rid (tq_after q) db /\ e = event_of db cid rid p) es) as Hes.
  { apply Forall_forall. intros e He. apply subseteq_take in He. unfold all, transcript in He.
    apply list_elem_of_fmap in He as (p & -> & Hp). eauto. }
  destruct (fit_content_prefix q es (length es)) as (k & Hfit & Hk & Hk1 & Hsize); [|done|].
  { intros l Hl Hin. apply small_page; try done. rewrite Forall_forall in Hes. eapply Forall_impl; [exact Hin|]. auto. }
  rewrite firstn_all in Hfit.
  assert (take k es = take (k `min` Z.to_nat (tq_limit q)) all) as Htake by (unfold es; apply take_take).
  exists (k `min` Z.to_nat (tq_limit q))%nat. rewrite <- Htake. intros page.
  assert (V4ContentPage_validate page = Ok tt) as Hval.
  { destruct (content_events_valid_ok cid rid (take k es) (tq_after q) 0) as (b & Hev & Hbytes).
    - apply Forall_forall. intros e He. apply subseteq_take in He. rewrite Forall_forall in Hes.
      destruct (Hes e He) as (p & Hp & ->). destruct (event_of_valid db cid rid p _ Hs Hp) as (_ & Hv & Hlt & _).
      split; [done|]. split; [done|]. split; [done|]. cbn. lia.
    - pose proof (transcript_sorted db cid rid (tq_after q) Hs Hm) as Hsort. fold all in Hsort.
      rewrite <- (take_drop (k `min` Z.to_nat (tq_limit q)) all) in Hsort. rewrite Htake.
      by apply StronglySorted_app_1_l in Hsort.
    - unfold V4ContentPage_validate, page_bytes, ensure. unfold page at 1. rewrite (proj2 (Z.leb_le _ _) Hsize).
      cbn [tp_after tp_events tp_conversation_id tp_run_id tp_next_after page content_candidate].
      assert (Z.of_nat (length (take k es)) <= MAX_V4_PAGE).
      { unfold es. rewrite !length_take. lia. }
      rewrite (proj2 (Z.leb_le (tq_after q) _)), (proj2 (Z.leb_le (Z.of_nat _) _)) by
        (unfold MAX_V4_CONTENT_EVENTS, MAX_SEQUENCE in *; lia).
      cbn [andb]. rewrite Hqc, Hqr, Hev. unfold MAX_V4_PAGE in *.
      rewrite (proj2 (Z.leb_le b _)) by (unfold MAX_V4_CONTENT_BYTES; lia). cbn [andb]. unfold content_cursor, ends.
      destruct (list.last (take k es)) as [e|] eqn:Hl; [|done]. destruct (is_terminal_payload (ce_payload e)); [done|].
      cbn [negb andb from_option]. rewrite Z.eqb_refl, bool_decide_eq_false_2; [done|]. intros Hnil. by rewrite Hnil in Hl. }
  split; [|split; [done|split; [lia|]]].
  - unfold v4_content, tbind, tlift, tread. rewrite Hq. cbn [map_err]. destruct Hread as [c Hc'].
    rewrite Hqc, Hc', Hqr. rewrite (content_page_eq db cid rid (tq_after q) (tq_limit q)) by done.
    fold all es. cbv beta iota. rewrite Hfit. fold page. by rewrite Hval.
  - intros Hne. assert (length es <> 0%nat).
    { unfold es. rewrite length_take. destruct all; [done|]. simpl. lia. }
    specialize (Hk1 ltac:(lia)). lia.
Qed.
End Page.

(** ** The whole transcript *)

(** A client that follows the cursor: [fuel] pages at most. *)
Fixpoint read_all (fuel : nat) (q : V4ContentQuery) db : result StoreError (list V4ContentEvent) :=
  match fuel with
  | O => Err (InvalidInput "more pages")
  | S n =>
      let? page := (v4_content q db).1 in
      match tp_next_after page with
      | None => Ok (tp_events page)
      | Some next =>
          let? rest := read_all n (mkV4ContentQuery (tq_conversation_id q) (tq_run_id q) next (tq_limit q)) db in
          Ok (tp_events page ++ rest)
      end
  end.

(** Past the last event of a prefix the transcript is the rest. *)
Lemma transcript_suffix db cid rid a l e r :
  transcript db cid rid a = l ++ e :: r -> transcript db cid rid (ce_sequence e) = r
  /\ exists row, assistant_content_events db !! (cid, ce_sequence e) = Some row /\ ct_run_id row = rid.
Proof.
  unfold transcript. intros Heq. apply map_eq_app in Heq as (l1 & l2 & Hl & <- & Heq).
  apply map_eq_cons in Heq as (p & r2 & -> & <- & <-). cbn [ce_sequence event_of].
  rewrite (content_after_suffix db cid rid a l1 p r2 Hl). split; [done|].
  assert (p ∈ content_after cid rid a db) as Hp by (rewrite Hl; apply elem_of_app; right; left).
  destruct p as [n row]. apply elem_of_content in Hp as (Hr & Hrun & _). eauto.
Qed.

Lemma read_all_complete (db : RunDb) (cid rid : string) (fuel : nat) :
  bound db -> sound_content db -> markers_final rid db -> conv_of db rid = Some cid -> slen rid = 36 ->
  (exists c, conversation_row cid db = Ok (Some c)) ->
  forall q, tq_conversation_id q = cid -> tq_run_id q = rid -> 1 <= tq_limit q <= MAX_V4_PAGE ->
    0 <= tq_after q <= MAX_SEQUENCE ->
    tq_after q = 0 \/ (exists row, assistant_content_events db !! (cid, tq_after q) = Some row /\ ct_run_id row = rid) ->
    (length (transcript db cid rid (tq_after q)) < fuel)%nat ->
    read_all fuel q db = Ok (transcript db cid rid (tq_after q)).
Proof.
  intros Hb Hs Hm Hc Hrid Hread. induction fuel as [|fuel IH]; intros q Hqc Hqr Hlim Ha Hcur Hlen; [lia|].
  destruct (v4_content_page db cid rid Hb Hs Hm Hc Hrid Hread q Hqc Hqr Hlim Ha Hcur) as (k & Heq & _ & _ & Hk1).
  cbn [read_all]. rewrite Heq. cbn [fst tp_next_after tp_events content_candidate].
  set (T := transcript db cid rid (tq_after q)) in *. pose proof (take_drop k T) as Hsplit.
  unfold content_cursor. destruct (list.last (take k T)) as [e|] eqn:Hl.
  2:{ apply last_None in Hl. destruct T as [|x T]; [by rewrite Hl|]. specialize (Hk1 ltac:(done)).
      destruct k; [lia|discriminate]. }
  apply last_Some in Hl as (l & Hl). rewrite Hl, <- app_assoc in Hsplit. simpl in Hsplit.
  destruct (is_terminal_payload (ce_payload e)) eqn:Hterm.
  - f_equal. rewrite Hl. destruct (drop k T) as [|x r]; [by rewrite Hsplit|]. exfalso.
    pose proof (transcript_sorted db cid rid (tq_after q) Hs Hm) as Hsort. fold T in Hsort. rewrite <- Hsplit in Hsort.
    apply StronglySorted_app_1_r, StronglySorted_cons in Hsort as [Hf _].
    apply Forall_cons in Hf as [[_ Hf] _]. congruence.
  - destruct (transcript_suffix db cid rid (tq_after q) l e (drop k T) (eq_sym Hsplit)) as [Hrest Hcur'].
    assert (0 <= ce_sequence e <= MAX_SEQUENCE) as Hseq.
    { destruct Hcur' as (row & Hr & _). destruct (s_row _ Hs _ _ _ Hr) as (_ & _ & ? & _). lia. }
    rewrite IH; cbn [tq_conversation_id tq_run_id tq_after tq_limit]; try done; [|by right|].
    + rewrite Hrest, Hl, <- app_assoc. f_equal. exact Hsplit.
    + rewrite Hrest. assert (length T = length (l ++ e :: drop k T)) as HT by by rewrite Hsplit.
      rewrite length_app in HT. simpl in HT. lia.
Qed.

(** ** Messages *)

(** What a client sees of a stored message. *)
Definition message_view db (m : MessageRow) : V4Message :=
  mkV4Message (m_conversation_id m) (m_run_id m) (m_sequence m) (parse_role (m_role m)) (state_from_str (m_state m))
    (m_body m) (m_text_bytes m) (slen (m_body m) =? m_text_bytes m) (context_truncated m db) (m_created_at_ms m).

Lemma elem_of_messages db cid after m :
  m ∈ messages_after cid after db <->
  m_conversation_id m = cid /\ after < m_sequence m /\ exists id, assistant_messages db !! id = Some m.
Proof.
  unfold messages_after. rewrite merge_sort_Permutation, list_elem_of_filter, list_elem_of_fmap. split.
  - intros ([Hc Ha] & [id m'] & -> & Hin%elem_of_map_to_list). eauto.
  - intros (Hc & Ha & id & Hid). split; [done|]. exists (id, m). split; [done|]. by apply elem_of_map_to_list.
Qed.

Lemma messages_ordered db cid after : ordered_by m_sequence (messages_after cid after db).
Proof. apply merge_sort_ordered. done. Qed.

(** The messages of a conversation have different numbers. *)
Lemma messages_strict db cid after :
  sound_messages db -> StronglySorted (fun a b => m_sequence a < m_sequence b) (messages_after cid after db).
Proof.
  intros Hm. apply ordered_strict; [apply messages_ordered| |].
  - unfold messages_after. rewrite merge_sort_Permutation. apply NoDup_filter.
    apply NoDup_fmap_2_strong; [|apply NoDup_map_to_list]. intros [i a] [j b] Ha Hb. simpl. intros ->.
    apply elem_of_map_to_list in Ha, Hb. by rewrite (m_sequences _ Hm i j b b).
  - intros a b (Ha & _ & i & Hi)%elem_of_messages (Hb & _ & j & Hj)%elem_of_messages Heq.
    assert (i = j) as -> by (eapply (m_sequences _ Hm); eauto; congruence). congruence.
Qed.

(** The shape of a sound message. *)
Lemma message_shape db m :
  message_ok db m ->
  1 <= m_sequence m /\ 0 <= m_created_at_ms m <= MAX_SAFE_INTEGER /\ m_text_bytes m <= MAX_V4_CONTENT_BYTES
  /\ slen (m_body m) <= m_text_bytes m /\ slen (m_body m) <= text_cap (parse_role (m_role m))
  /\ contains_nul (m_body m) = false /\ (parse_role (m_role m) = User -> m_text_bytes m = slen (m_body m)).
Proof.
  intros (_ & Hck & Hts & _ & Hnul & Hp). unfold message_check in Hck. bools. unfold MAX_V4_CONTENT_BYTES, parse_role.
  destruct (bool_decide (m_role m = "assistant")); simpl.
  - destruct Hp as [Hb Hn]. destruct (preview_text_prefix (reply db (m_conversation_id m) (m_run_id m))) as [k Hk].
    pose proof (preview_text_len (reply db (m_conversation_id m) (m_run_id m))) as Hl.
    assert (slen (m_body m) <= m_text_bytes m) by (rewrite Hb, Hn, Hk, slen_str_take; lia).
    rewrite <- Hb in Hl. unfold MAX_V4_DELTA_BYTES. repeat split; try done; lia.
  - unfold MAX_V4_INPUT_BYTES. repeat split; try done; lia.
Qed.

Lemma project_message_view db m :
  message_ok db m -> uuid_canonical (m_run_id m) = Some (m_run_id m) -> m_sequence m <= MAX_SAFE_INTEGER ->
  project_message (m_conversation_id m) (m_run_id m) (parse_role (m_role m)) (u64_or_zero (m_sequence m)) (m_body m)
    (u64_or_zero (m_text_bytes m)) (state_from_str (m_state m)) (context_truncated m db) (u64_or_zero (m_created_at_ms m))
  = Ok (message_view db m) /\ V4Message_validate (message_view db m) = Ok tt.
Proof.
  intros Hok Hrun Hseq. destruct (message_shape db m Hok) as (H1 & H2 & H3 & H4 & H5 & H6 & H7).
  pose proof (slen_nonneg (m_body m)).
  assert (V4Message_validate (message_view db m) = Ok tt) as Hv.
  { unfold V4Message_validate, message_view, AssistantContent.timestamp, ensure.
    cbn [vm_created_at_ms vm_sequence vm_text_bytes vm_text vm_text_complete vm_role vm_context_truncated].
    rewrite (proj2 (Z.leb_le (m_created_at_ms m) _)), (proj2 (Z.ltb_lt 0 _)), (proj2 (Z.leb_le (m_sequence m) _)),
      (proj2 (Z.leb_le (m_text_bytes m) _)), (proj2 (Z.leb_le (slen _) (m_text_bytes m))),
      (proj2 (Z.leb_le (slen _) (text_cap _))), H6, Bool.eqb_reflx by lia.
    destruct (bool_decide (parse_role (m_role m) = User)) eqn:Hu; [|done]. bools. rewrite (H7 Hu), Z.eqb_refl.
    unfold context_truncated. unfold parse_role in Hu. by destruct (bool_decide (m_role m = "assistant")). }
  split; [|done]. unfold project_message, u64_or_zero.
  destruct (Z.ltb_spec (text_cap (parse_role (m_role m))) (slen (m_body m))); [lia|].
  destruct (Z.ltb_spec (m_sequence m) 0); [lia|]. destruct (Z.ltb_spec (m_text_bytes m) 0); [lia|].
  destruct (Z.ltb_spec (m_created_at_ms m) 0); [lia|].
  rewrite (proj2 (id_from_str_ok (m_run_id m) (m_run_id m)) (conj eq_refl Hrun)). cbn [map_err].
  unfold message_view in *. destruct (parse_role (m_role m)) eqn:Hrole.
  - rewrite (H7 eq_refl), Z.eqb_refl in Hv |- *. by rewrite Hv.
  - rewrite Z.max_l by lia. by rewrite Hv.
Qed.

Lemma message_page_eq db cid after limit :
  ledger (core db) -> bound db -> sound_messages db ->
  (forall id m, assistant_messages db !! id = Some m -> m_sequence m <= MAX_SAFE_INTEGER) ->
  default 0 after <= i64_max ->
  message_page cid after limit db
  = Ok (map (message_view db) (take (Z.to_nat limit) (messages_after cid (default 0 after) db)))
  /\ Forall (fun v => V4Message_validate v = Ok tt)
       (map (message_view db) (take (Z.to_nat limit) (messages_after cid (default 0 after) db))).
Proof.
  intros Hl Hb Hm Hseq Ha.
  assert (forall m, m ∈ take (Z.to_nat limit) (messages_after cid (default 0 after) db) ->
    project_message cid (m_run_id m) (parse_role (m_role m)) (u64_or_zero (m_sequence m)) (m_body m)
      (u64_or_zero (m_text_bytes m)) (state_from_str (m_state m)) (context_truncated m db) (u64_or_zero (m_created_at_ms m))
    = Ok (message_view db m) /\ V4Message_validate (message_view db m) = Ok tt) as Hrow.
  { intros m Hin%subseteq_take. apply elem_of_messages in Hin as (<- & _ & id & Hid).
    pose proof (m_row _ Hm id m Hid) as Hok. apply project_message_view; [done| |by eapply Hseq].
    destruct Hok as (Hc & _). destruct (conv_of_bound db _ _ Hb Hc) as (_ & _ & row & Hr & _).
    destruct (l_row _ Hl _ row Hr) as [[st Hv] _]. apply Hv. }
  split.
  - unfold message_page, sql_sequence. rewrite (proj2 (Z.leb_le _ _) Ha). cbv beta iota.
    apply map_result_map. intros m Hin. by apply Hrow.
  - apply Forall_forall. intros v (m & -> & Hin)%list_elem_of_fmap. by apply Hrow.
Qed.
End Read.
