(* ===== verification/ContextProps.v ===== *)
(** * The history a model is given

    On every store built by its calls the context of a turn is what a greedy
    selection over the finished turns finds: user texts and whole replies, the
    newest first, as far as the budget goes.  The checks of the reader never fire
    on turns whose content the executor wrote. *)
From stdpp Require Import base list gmap strings sorting relations.
From Stdlib Require Import ZArith Lia.
From S2P Require Import Prelude RustStr External Digest Tables RunContract StoreBase AuditMetadata AssistantContent RunStore TurnContract TurnStore TurnContext Preview RunLedger TurnLedger TurnMoves TurnSteps TurnHistory TurnAdmission TurnReferences TurnRead.
Import RunStateOps.

Open Scope Z_scope.
Open Scope rust_scope.

Definition concat_text (ts : list string) : string := foldr (fun t acc => t +:+ acc) EmptyString ts.

Lemma concat_text_len ts : slen (concat_text ts) = foldr (fun t acc => slen t + acc) 0 ts.
Proof. induction ts as [|t ts IH]; [done|]. simpl. by rewrite slen_app, IH. Qed.

Lemma starts_with_take n s : starts_with_str (str_take n s) s = true.
Proof.
  revert s. induction n as [|n IH]; intros [|c s]; try done. simpl. by rewrite bool_decide_eq_true_2, IH.
Qed.

Lemma take_within_all b s : slen s <= b -> take_within b s = s.
Proof.
  intros Hle. unfold take_within. rewrite Z.min_l by done. unfold slen. rewrite Nat2Z.id.
  apply str_take_ge. destruct (String.length s) as [|n] eqn:Hn; [unfold slen; lia|].
  rewrite floor_char_boundary_S, <- Hn, is_char_boundary_len. unfold slen. lia.
Qed.

(** A list of distinct integers between 1 and [n] has at most [n] elements. *)
Lemma distinct_in_range (l : list Z) n : NoDup l -> 0 <= n -> (forall x, x ∈ l -> 1 <= x <= n) -> Z.of_nat (length l) <= n.
Proof.
  intros Hnd Hn Hr. assert (l ⊆+ seqZ 1 n) as Hs.
  { apply NoDup_submseteq; [done|]. intros x Hx%Hr. apply elem_of_seqZ. lia. }
  apply submseteq_length in Hs. rewrite length_seqZ in Hs. lia.
Qed.

Section Context.
Context {EX : External} {CC : ContentCodec} {MF : MillisFormat} {DG : Digest} {VJ : V4Json}.
Context {EL : ExternalLaws} {ML : MillisFormatLaws} {CL : ContentLaws}.
Implicit Types (db : RunDb) (rid cid id : string).

(** ** The reference *)

(** What the executor leaves of a finished turn: perhaps the notice that its own
    context was cut, the texts, and the end. *)
Definition executor_written db cid rid : Prop :=
  exists (noted : bool) texts,
    map (fun p => payload_at db cid p.1) (content_after cid rid 0 db)
    = (if noted then [Notice Truncated] else []) ++ map TextDelta texts ++ [Terminal Succeeded].

Definition user_text db (t : TurnRow) : string :=
  default EmptyString (tn_user_message_id t ≫= fun id => message_body id db).

(** The whole reply of a turn that has an assistant message. *)
Definition answer db cid rid : option string :=
  match assistant_message rid db with Some _ => Some (reply db cid rid) | None => None end.

Fixpoint greedy (budget : Z) (turns : list (string * option string)) : list V4ContextPair * bool :=
  match turns with
  | [] => ([], false)
  | (_, None) :: r => greedy budget r
  | (user, Some assistant) :: r =>
      if budget <? slen user + slen assistant then ((greedy budget r).1, true)
      else let g := greedy (budget - (slen user + slen assistant)) r in
           (mkV4ContextPair user assistant :: g.1, g.2)
  end.

Definition turn_texts db cid (p : string * TurnRow) : string * option string :=
  (user_text db p.2, answer db cid p.1).

(** ** Reading one reply *)
Section Scan.
Variables (db : RunDb) (cid : string) (budget : Z).
Hypothesis Hs : sound_content db.
Hypothesis Hbudget : budget <= 24576.

(** The state of the walk before the end: [n] events, the text [a], at most [b]
    bytes of JSON. *)
Record clean_scan (a : string) (n b : Z) (s : Scan) : Prop := {
  cl_assistant : sc_assistant s = a; cl_actual : sc_actual_bytes s = slen a; cl_marker : sc_legacy_marker s = false;
  cl_encoding : sc_legacy_encoding s = false; cl_over : sc_oversized s = false; cl_terminal : sc_terminal s = false;
  cl_count : sc_count s = n; cl_parsed : 0 <= sc_parsed_bytes s <= b;
}.

Definition parsed_cap : Z := MAX_V4_CONTENT_BYTES * 6 + 1024.

(** The checks of an event pass, and its payload decides. *)
Lemma scan_row_eq n row a k b s :
  assistant_content_events db !! (cid, n) = Some row -> clean_scan a k b s -> k < 65536 ->
  let p := payload_at db cid n in
  b + slen (content_json p) <= parsed_cap ->
  exists s1, clean_scan a (k + 1) (b + slen (content_json p)) s1
    /\ scan_row budget cid db (n, row) s
       = match p with
         | TextDelta text => scan_text budget row (content_json p) text s1
         | Terminal Succeeded =>
             Ok (mkScan (sc_first_text s1) (sc_legacy_marker s1) (sc_assistant s1) (sc_actual_bytes s1)
                   (sc_legacy_encoding s1) (sc_oversized s1) (sc_count s1) true (sc_parsed_bytes s1))
         | Terminal _ => Err (CorruptData "context terminal invalid")
         | _ => Ok s1
         end.
Proof.
  intros Hr [Ha Hact Hm He Ho Ht Hc Hp] Hk p Hb. destruct (stored_payload db cid n row Hs Hr) as (Hst & Hrt & Hv & Hty & _).
  fold p in Hst, Hrt, Hv, Hty. pose proof (slen_nonneg (content_json p)).
  assert (slen (content_json p) <= MAX_V4_DELTA_BYTES * 6 + 1024) as Hsize.
  { pose proof (content_size p Hv Hty). pose proof (payload_size p Hv Hty) as [_ Hb2].
    unfold MAX_V4_DELTA_BYTES. clearbody p. destruct p as [t|i st|c|i o|st]; cbn [content_json] in *; [lia| |lia..].
    simpl in Hv. unfold label in Hv. destruct (text i 256) as [[]|] eqn:Hi; [|discriminate].
    apply valid_text_len in Hi. lia. }
  exists (mkScan (sc_first_text s) (sc_legacy_marker s) (sc_assistant s) (sc_actual_bytes s) (sc_legacy_encoding s)
            (sc_oversized s) (k + 1) false (sc_parsed_bytes s + slen (content_json p))).
  split; [constructor; simpl; (done || lia)|].
  unfold scan_row. simpl fst. simpl snd. rewrite Hst, Hc, Ht. cbn [option_fmap option_map fmap default].
  destruct (Z.ltb_spec 65536 (k + 1)); [lia|]. destruct (Z.ltb_spec (MAX_V4_DELTA_BYTES * 6 + 1024) (slen (content_json p))); [lia|].
  cbn [orb]. unfold id.
  unfold usize_saturating_add, parsed_cap in *. rewrite Z.min_r by (unfold MAX_V4_CONTENT_BYTES, u64_max in *; lia).
  destruct (Z.ltb_spec (MAX_V4_CONTENT_BYTES * 6 + 1024) (sc_parsed_bytes s + slen (content_json p))); [lia|].
  cbn [ok_or]. rewrite Hrt. cbn [ok_or]. rewrite Hv. cbn [map_err].
  by destruct p as [t|i st|c|i o|[]].
Qed.

Lemma scan_notice n row a k b s :
  assistant_content_events db !! (cid, n) = Some row -> payload_at db cid n = Notice Truncated ->
  clean_scan a k b s -> k < 65536 -> b + 1024 <= parsed_cap ->
  exists s', scan_row budget cid db (n, row) s = Ok s' /\ clean_scan a (k + 1) (b + 1024) s'.
Proof.
  intros Hr Hp Hc Hk Hb. pose proof (content_size (Notice Truncated) eq_refl I) as Hsz. simpl in Hsz.
  destruct (scan_row_eq n row a k b s Hr Hc Hk) as (s1 & Hc1 & Heq); [rewrite Hp; lia|]. rewrite Hp in *.
  exists s1. split; [done|]. destruct Hc1. constructor; (done || lia).
Qed.

Lemma scan_text_row n row a k b s t :
  assistant_content_events db !! (cid, n) = Some row -> payload_at db cid n = TextDelta t ->
  clean_scan a k b s -> k < 65536 -> b + (6 * slen t + 64) <= parsed_cap -> slen a + slen t <= budget ->
  exists s', scan_row budget cid db (n, row) s = Ok s' /\ clean_scan (a +:+ t) (k + 1) (b + (6 * slen t + 64)) s'.
Proof.
  intros Hr Hp Hc Hk Hb Hfit. pose proof (content_text t) as Hsz.
  destruct (scan_row_eq n row a k b s Hr Hc Hk) as (s1 & [Ha Hact Hm He Ho Ht Hcn Hps] & Heq); [rewrite Hp; lia|].
  rewrite Hp in *. rewrite Heq.
  destruct (s_row _ Hs _ _ _ Hr) as (_ & _ & _ & _ & p & Hpp & Hv & Hty & Hkind & Hbc & _).
  assert (p = TextDelta t) as ->.
  { pose proof Hp as Hp'. unfold payload_at in Hp'. rewrite Hpp in Hp'. simpl in Hp'. by rewrite content_roundtrip in Hp'. }
  pose proof (slen_nonneg a). pose proof (slen_nonneg t). unfold scan_text. rewrite Hbc, Hkind. cbn [kind_of].
  rewrite Z.eqb_refl, bool_decide_eq_true_2 by done. cbn [negb orb andb].
  destruct (Z.eqb_spec (slen t) (slen (content_json (TextDelta t)))); [lia|]. rewrite !andb_false_r.
  rewrite Hact. unfold usize_saturating_add. rewrite Z.min_r by (unfold u64_max; lia).
  destruct (Z.ltb_spec MAX_V4_CONTENT_BYTES (slen a + slen t)); [unfold MAX_V4_CONTENT_BYTES in *; lia|].
  eexists. split; [reflexivity|]. rewrite Ha, Hm, He, Ho, Ht, Hcn.
  constructor; simpl; rewrite ?slen_app; try done; [|by destruct (Z.ltb_spec budget (slen a + slen t)); [lia|]|lia].
  by rewrite take_within_all by lia.
Qed.

Lemma scan_texts rows : forall ts a k b s,
  Forall (fun p => assistant_content_events db !! (cid, p.1) = Some p.2) rows ->
  map (fun p => payload_at db cid p.1) rows = map TextDelta ts -> clean_scan a k b s ->
  k + Z.of_nat (length rows) <= 65536 ->
  b + 6 * slen (concat_text ts) + 64 * Z.of_nat (length rows) <= parsed_cap -> slen a + slen (concat_text ts) <= budget ->
  exists s', scan_rows budget cid db rows s = Ok s'
    /\ clean_scan (a +:+ concat_text ts) (k + Z.of_nat (length rows))
         (b + 6 * slen (concat_text ts) + 64 * Z.of_nat (length rows)) s'.
Proof.
  induction rows as [|[n row] rows IH]; intros [|t ts] a k b s Hall Hmap Hc Hk Hb Hfit; try discriminate.
  - exists s. split; [done|]. destruct Hc. change (slen (concat_text [])) with 0. change (concat_text []) with EmptyString.
    rewrite append_empty_r. constructor; simpl length; (done || lia).
  - apply Forall_cons in Hall as [Hr Hall]. simpl in Hmap, Hb, Hfit, Hk. injection Hmap as Hp Hmap.
    rewrite slen_app in Hb, Hfit. pose proof (slen_nonneg (concat_text ts)). pose proof (slen_nonneg t).
    destruct (scan_text_row n row a k b s t Hr Hp Hc) as (s1 & Hs1 & Hc1); [lia..|].
    cbn [scan_rows]. rewrite Hs1.
    destruct (IH ts (a +:+ t) (k + 1) (b + (6 * slen t + 64)) s1) as (s2 & Hs2 & Hc2);
      [done|done|done|lia|lia|rewrite slen_app; lia|].
    exists s2. split; [done|]. simpl concat_text. rewrite slen_app. simpl length.
    rewrite <- append_assoc.
    destruct Hc2. constructor; try done; lia.
Qed.
Lemma scan_rows_app l1 l2 s :
  scan_rows budget cid db (l1 ++ l2) s
  = let? s' := scan_rows budget cid db l1 s in scan_rows budget cid db l2 s'.
Proof.
  revert s. induction l1 as [|p l1 IH]; intros s; [done|]. cbn [app scan_rows].
  destruct (scan_row _ _ _ _ _); [apply IH|done].
Qed.
End Scan.

Section Reply.
Variables (db : RunDb) (cid rid : string).
Hypothesis Hs : sound_content db.

Lemma content_rows a : Forall (fun p => assistant_content_events db !! (cid, p.1) = Some p.2) (content_after cid rid a db).
Proof. apply Forall_forall. intros [n row] (Hr & _)%elem_of_content. done. Qed.

Lemma content_length : Z.of_nat (length (content_after cid rid 0 db)) <= 65536.
Proof.
  rewrite <- (length_map fst). apply distinct_in_range; [|done|].
  - apply NoDup_fmap_fst; [|apply content_NoDup].
    intros n r1 r2 (H1 & _)%elem_of_content (H2 & _)%elem_of_content. congruence.
  - intros n (p & -> & Hp)%list_elem_of_fmap. destruct (event_of_valid db cid rid p 0 Hs Hp) as (_ & _ & Hn & H1 & _).
    unfold MAX_SEQUENCE in Hn. lia.
Qed.

(** The rows of a turn the executor wrote. *)
Lemma written_rows :
  executor_written db cid rid ->
  exists nl tl e ts, content_after cid rid 0 db = nl ++ tl ++ [e]
    /\ (nl = [] \/ exists p, nl = [p] /\ payload_at db cid p.1 = Notice Truncated)
    /\ map (fun p => payload_at db cid p.1) tl = map TextDelta ts
    /\ payload_at db cid e.1 = Terminal Succeeded /\ reply db cid rid = concat_text ts.
Proof.
  intros (noted & ts & Hmap). pose proof (transcript_texts db cid rid Hs) as Hreply. unfold transcript in Hreply.
  assert (foldr (fun q acc => payload_text q +:+ acc) EmptyString
            (map (fun p => payload_at db cid p.1) (content_after cid rid 0 db)) = reply db cid rid) as Hr.
  { rewrite <- Hreply. clear. induction (content_after cid rid 0 db) as [|p l IH]; [done|]. simpl. by rewrite IH. }
  rewrite Hmap in Hr.
  apply map_eq_app in Hmap as (nl & rest & Hl & Hn & Hrest). apply map_eq_app in Hrest as (tl & el & -> & Ht & He).
  destruct el as [|e [|]]; try discriminate. injection He as He. exists nl, tl, e, ts.
  split; [done|]. split; [|split; [done|split; [done|]]].
  - destruct noted; destruct nl as [|p [|]]; try discriminate; [right|by left]. injection Hn as Hn. eauto.
  - rewrite <- Hr. unfold concat_text. destruct noted; simpl; clear;
      (induction ts as [|t ts IH]; [done|]; simpl; by rewrite <- IH).
Qed.

Lemma read_reply_ok budget :
  executor_written db cid rid -> slen (reply db cid rid) <= budget <= 24576 ->
  read_reply budget cid rid (preview_text (reply db cid rid)) (slen (reply db cid rid)) db
  = Ok (Some (reply db cid rid)).
Proof.
  intros Hw Hb. destruct (written_rows Hw) as (nl & tl & e & ts & Hl & Hn & Htl & He & Hr).
  pose proof (content_rows 0) as Hall. pose proof content_length as Hlen. rewrite Hl in Hall, Hlen.
  apply Forall_app in Hall as [Halln [Hallt Halle]%Forall_app]. rewrite !length_app in Hlen. simpl length in Hlen.
  pose proof (slen_nonneg (reply db cid rid)).
  assert (clean_scan EmptyString 0 0 scan_start) as Hc0 by by constructor.
  assert (exists s1 k, scan_rows budget cid db nl scan_start = Ok s1 /\ clean_scan EmptyString k 1024 s1
            /\ k = Z.of_nat (length nl)) as (s1 & k & Hs1 & Hc1 & Hk).
  { destruct Hn as [->|([n row] & -> & Hp)].
    - exists scan_start, 0. split; [done|]. by split; [constructor|].
    - apply Forall_cons in Halln as [Hrow _]. simpl in Hrow, Hp.
      destruct (scan_notice db cid budget Hs n row EmptyString 0 0 scan_start Hrow Hp Hc0) as (s1 & Heq & Hc);
        [lia|by vm_compute|]. exists s1, 1. simpl. by rewrite Heq. }
  destruct (scan_texts db cid budget Hs ltac:(lia) tl ts EmptyString k 1024 s1) as (s2 & Hs2 & Hc2);
    [done|done|done|lia|rewrite <- Hr; unfold parsed_cap, MAX_V4_CONTENT_BYTES; lia| |].
  { change (slen EmptyString) with 0. rewrite <- Hr. lia. }
  destruct e as [n row]. apply Forall_cons in Halle as [Hrow _]. simpl in He, Hrow.
  pose proof (content_size (Terminal Succeeded) eq_refl I) as Hsz. simpl in Hsz.
  destruct (scan_row_eq db cid budget Hs n row _ _ _ s2 Hrow Hc2) as (s3 & [Ha Hact Hm Hen Ho Ht Hcn Hps] & Heq);
    [lia|rewrite He, <- Hr; unfold parsed_cap, MAX_V4_CONTENT_BYTES; lia|]. rewrite He in Heq.
  unfold read_reply. rewrite Hl, take_ge by (rewrite !length_app; simpl length; lia).
  rewrite scan_rows_app, Hs1, scan_rows_app, Hs2. cbn [scan_rows]. rewrite Heq. cbn [sc_legacy_marker]. rewrite Hm.
  cbn [andb sc_terminal negb orb sc_actual_bytes sc_legacy_encoding sc_assistant sc_oversized].
  rewrite Hact, Ha, Ho. change (EmptyString +:+ concat_text ts) with (concat_text ts). rewrite <- Hr, Z.eqb_refl. cbn [negb orb andb].
  destruct (preview_text_prefix (reply db cid rid)) as [q ->]. by rewrite starts_with_take.
Qed.

Lemma stored_empty n row q :
  assistant_content_events db !! (cid, n) = Some row -> payload_at db cid n = q ->
  (match q with TextDelta _ | Tool _ _ => False | _ => True end) ->
  assistant_content_payloads db !! (cid, n) = Some (content_json q) /\ content_of_json (content_json q) = Some q
  /\ V4ContentPayload_validate q = Ok tt /\ ct_byte_count row = slen (content_json q)
  /\ ct_kind row = kind_of q /\ slen (content_json q) <= 1024.
Proof.
  intros Hr Hq Hshape. destruct (s_row _ Hs _ _ _ Hr) as (_ & _ & _ & _ & p & Hp & Hv & Hty & Hk & Hb & _).
  assert (q = p) as ->.
  { rewrite <- Hq. unfold payload_at. rewrite Hp. simpl. by rewrite content_roundtrip. }
  pose proof (content_size p Hv Hty). split; [done|]. split; [by apply content_roundtrip|].
  by destruct p.
Qed.

(** A turn without a reply: nothing but the notice and the end. *)
Lemma validate_empty_ok :
  executor_written db cid rid -> reply db cid rid = EmptyString -> validate_empty_success cid rid db = Ok tt.
Proof.
  intros Hw Hempty. destruct (written_rows Hw) as (nl & tl & e & ts & Hl & Hn & Htl & He & Hr).
  pose proof (content_rows 0) as Hall. rewrite Hl in Hall. apply Forall_app in Hall as [Halln [Hallt Halle]%Forall_app].
  assert (tl = []) as ->.
  { destruct tl as [|[n row] tl]; [done|]. destruct ts as [|t ts]; [discriminate|]. injection Htl as Hp _.
    apply Forall_cons in Hallt as [Hrow _]. destruct (stored_payload db cid n row Hs Hrow) as (_ & _ & Hv & _).
    rewrite Hp in Hv. rewrite Hr in Hempty. destruct t; [discriminate|discriminate]. }
  rewrite app_nil_l in Hl. destruct e as [en erow]. apply Forall_cons in Halle as [Herow _]. simpl in He, Herow.
  destruct (stored_empty en erow _ Herow He I) as (Hp & Hrt & Hv & Hb & Hk & Hz).
  unfold validate_empty_success. destruct Hn as [->|([nn nrow] & -> & Hnp)].
  - rewrite Hl. cbn [app take empty_rows orb Z.leb Z.compare fst snd]. rewrite Hp. cbn [ok_or].
    rewrite (proj2 (Z.leb_le _ _) Hz). cbn [ok_or]. rewrite Hrt. cbn [ok_or]. rewrite Hv. cbn [map_err].
    rewrite Hb, Hk, Z.eqb_refl. done.
  - apply Forall_cons in Halln as [Hnrow _]. simpl in Hnp, Hnrow.
    destruct (stored_empty nn nrow _ Hnrow Hnp I) as (Hp1 & Hrt1 & Hv1 & Hb1 & Hk1 & Hz1).
    rewrite Hl. cbn [app take empty_rows orb Z.leb Z.compare fst snd]. rewrite Hp1. cbn [ok_or].
    rewrite (proj2 (Z.leb_le _ _) Hz1). cbn [ok_or]. rewrite Hrt1. cbn [ok_or]. rewrite Hv1. cbn [map_err].
    rewrite Hb1, Hk1, Z.eqb_refl. cbn [negb andb kind_of]. rewrite bool_decide_eq_true_2 by done. cbn [negb andb fst snd].
    cbn [Z.add orb Z.leb Z.compare Pos.compare Pos.compare_cont]. rewrite Hp. cbn [ok_or].
    rewrite (proj2 (Z.leb_le _ _) Hz). cbn [ok_or]. rewrite Hrt. cbn [ok_or]. rewrite Hv. cbn [map_err].
    rewrite Hb, Hk, Z.eqb_refl. done.
Qed.
End Reply.

(** ** The turns of a conversation *)
Lemma singleton_of {A} (l : list A) x : NoDup l -> x ∈ l -> (forall y, y ∈ l -> y = x) -> l = [x].
Proof.
  intros Hnd Hx Hall. destruct l as [|a l]; [by apply elem_of_nil in Hx|].
  assert (a = x) as -> by (apply Hall; by left). destruct l as [|b l]; [done|].
  assert (b = x) as -> by (apply Hall; right; by left). apply NoDup_cons in Hnd as [Hn _]. destruct Hn. by left.
Qed.

(** The join finds the assistant message of a turn, if there is one. *)
Lemma reply_ids_cases db rid t :
  sound_messages db -> tn_assistant_message_id t = None ->
  match assistant_message rid db with
  | Some m => exists id, reply_ids rid t db = [id] /\ assistant_messages db !! id = Some m
                /\ m_run_id m = rid /\ m_role m = "assistant"
  | None => reply_ids rid t db = []
  end.
Proof.
  intros Hm Ht. unfold reply_ids.
  assert (forall p, p ∈ filter (fun p => is_reply_of rid t p = true) (map_to_list (assistant_messages db))
            <-> assistant_messages db !! p.1 = Some p.2 /\ is_preview_of rid p.2 = true) as Hin.
  { intros [id m]. rewrite list_elem_of_filter, elem_of_map_to_list. unfold is_reply_of, is_preview_of. cbn [fst snd].
    rewrite Ht, andb_true_r. tauto. }
  pose proof (assistant_message_cases rid db) as Hcase. destruct (assistant_message rid db) as [m|].
  - destruct Hcase as (id & Hid & Hp). exists id. pose proof (proj1 (is_preview_iff rid m) Hp) as [Hrun Hrole].
    rewrite (singleton_of _ (id, m)); [done| | |].
    + apply NoDup_filter, NoDup_map_to_list.
    + by apply Hin.
    + intros [i a] [Hi [Har Hrr]%is_preview_iff]%Hin. simpl in *.
      assert (i = id) as -> by (apply (m_replies _ Hm i id a m); (done || congruence)). congruence.
  - destruct (filter _ _) as [|[id m] l]; [done|].
    destruct (proj1 (Hin (id, m)) ltac:(by left)) as [Hid Hp]. simpl in Hid, Hp. by rewrite (Hcase id m Hid) in Hp.
Qed.

Section History.
Variables (db : RunDb) (conv : string).
Hypothesis Ht : turns db.
Hypothesis Href : referenced db.
Hypothesis Hlive : live db conv.

Definition finished (p : string * TurnRow) : Prop :=
  assistant_turns db !! p.1 = Some p.2 /\ tn_conversation_id p.2 = conv /\ status_of db p.1 = Some "succeeded".

(** The identity the query finds for a turn. *)
Definition ident (p : string * TurnRow) : string * string * option string :=
  (p.1, default EmptyString (tn_user_message_id p.2), head (reply_ids p.1 p.2 db)).

Lemma finished_user p : finished p ->
  exists uid u, tn_user_message_id p.2 = Some uid /\ assistant_messages db !! uid = Some u
    /\ m_role u = "user" /\ m_run_id u = p.1 /\ m_conversation_id u = conv.
Proof.
  intros (Hp & Hc & _). destruct (r_user _ Href _ _ Hp) as (uid & u & Hu & Hum & Hr & Hrun & Hcu); [by rewrite Hc|].
  exists uid, u. rewrite Hc in Hcu. done.
Qed.

Lemma finished_conv p : finished p -> conv_of db p.1 = Some conv.
Proof. intros (Hp & Hc & _). apply conv_of_turn. eauto. Qed.

Lemma finished_row p : finished p ->
  identity_rows db p = [(p.1, tn_user_message_id p.2, (ident p).2)]
  /\ tn_user_message_id p.2 = Some (ident p).1.2.
Proof.
  intros Hf. destruct (finished_user p Hf) as (uid & u & Hu & _). destruct Hf as (Hp & _).
  pose proof (reply_ids_cases db p.1 p.2 (t_messages _ Ht) (r_reply _ Href _ _ Hp)) as Hcase.
  unfold identity_rows, ident. cbn [fst snd]. rewrite Hu. split; [|done].
  destruct (assistant_message p.1 db); [by destruct Hcase as (id & -> & _)|by rewrite Hcase].
Qed.

Lemma identity_list l : Forall finished l -> forall n,
  map_result (fun row : string * option string * option string =>
                let '(rid, uid, aid) := row in
                let? uid := ok_or uid (Database (InvalidColumnType 1)) in Ok (rid, uid, aid))
    (take n (flat_map (identity_rows db) l)) = Ok (map ident (take n l)).
Proof.
  induction 1 as [|p l Hf _ IH]; intros n; [by destruct n|].
  destruct (finished_row p Hf) as [Hrow Hu]. cbn [flat_map]. rewrite Hrow. cbn [app]. destruct n as [|n]; [done|].
  cbn [take map_result map]. rewrite Hu. cbn [ok_or]. rewrite IH. by destruct p.
Qed.

(** One turn of the loop. *)
Lemma context_turn p rest remaining pairs tr :
  finished p -> executor_written db conv p.1 -> remaining <= 24576 ->
  context_loop conv db (ident p :: rest) remaining pairs tr
  = match turn_texts db conv p with
    | (_, None) => context_loop conv db rest remaining pairs tr
    | (user, Some assistant) =>
        if remaining <? slen user + slen assistant then context_loop conv db rest remaining pairs true
        else context_loop conv db rest (remaining - (slen user + slen assistant))
               (pairs ++ [mkV4ContextPair user assistant]) tr
    end.
Proof.
  intros Hf Hw Hrem. destruct (finished_user p Hf) as (uid & u & Hu & Hum & Hur & Hurun & Huc).
  pose proof (finished_conv p Hf) as Hconv. destruct Hf as (Hp & Hc & Hst).
  pose proof (reply_ids_cases db p.1 p.2 (t_messages _ Ht) (r_reply _ Href _ _ Hp)) as Hcase.
  assert (user_text db p.2 = m_body u) as Hut.
  { unfold user_text. rewrite Hu. simpl. unfold message_body. by rewrite Hum. }
  unfold turn_texts, answer, ident. rewrite Hut, Hu. cbn [default from_option context_loop]. unfold id.
  destruct (assistant_message p.1 db) as [m|] eqn:Ham.
  - destruct Hcase as (aid & -> & Ha & Harun & Harole). cbn [head].
    destruct (m_row _ (t_messages _ Ht) aid m Ha) as (Hcm & Hck & _ & _ & _ & Hbody).
    rewrite bool_decide_eq_true_2 in Hbody by done. rewrite Harun in Hcm, Hbody.
    assert (m_conversation_id m = conv) as Hmc by congruence. rewrite Hmc in Hbody. destruct Hbody as [Hb Hn].
    assert (m_state m = "succeeded") as Hstate.
    { assert (status_of db (m_run_id m) = Some (m_state m)) as Hms; [|rewrite Harun in Hms; congruence].
      apply (t_states _ Ht aid m Ha). exists "succeeded". by rewrite Harun. }
    unfold pair_lengths. rewrite Hum, Ha.
    repeat (rewrite bool_decide_eq_true_2 by (done || congruence)). cbn [andb ok_or].
    unfold message_check in Hck. bools. rewrite Hn in *. pose proof (slen_nonneg (m_body u)).
    destruct (Z.ltb_spec (slen (m_body u)) 0); [lia|]. destruct (Z.ltb_spec (slen (reply db conv p.1)) 0); [lia|].
    destruct (Z.ltb_spec MAX_V4_CONTENT_BYTES (slen (reply db conv p.1))); [unfold MAX_V4_CONTENT_BYTES in *; lia|].
    cbn [orb]. destruct (Z.ltb_spec remaining (slen (m_body u) + slen (reply db conv p.1))); [done|].
    unfold message_body. rewrite Hum, Ha. cbn [fmap option_fmap option_map ok_or]. rewrite Hb.
    rewrite (proj2 (Z.leb_le _ _) (preview_text_len _)). cbn [ok_or].
    rewrite read_reply_ok by (done || apply Ht || lia). done.
  - rewrite Hcase. cbn [head]. rewrite validate_empty_ok; [done|apply Ht|done|].
    eapply m_missing; [apply Ht|exact Hconv|]. intros id m Hid.
    pose proof (assistant_message_cases p.1 db) as Hnone. rewrite Ham in Hnone. by apply (Hnone id).
Qed.

Lemma greedy_loop l : forall remaining pairs tr,
  Forall (fun p => finished p /\ executor_written db conv p.1) l -> remaining <= 24576 ->
  let g := greedy remaining (map (turn_texts db conv) l) in
  context_loop conv db (map ident l) remaining pairs tr = Ok (pairs ++ g.1, tr || g.2).
Proof.
  induction l as [|p l IH]; intros remaining pairs tr Hall Hrem; cbn [map greedy].
  - simpl. by rewrite app_nil_r, orb_false_r.
  - apply Forall_cons in Hall as [[Hf Hw] Hall]. rewrite context_turn by done.
    destruct (turn_texts db conv p) as [user [assistant|]]; [|by apply IH].
    pose proof (slen_nonneg user). pose proof (slen_nonneg assistant).
    destruct (Z.ltb_spec remaining (slen user + slen assistant)).
    + rewrite IH by done. simpl. by rewrite orb_true_r.
    + rewrite IH by (done || lia). simpl. by rewrite <- app_assoc.
Qed.
End History.

Lemma elem_of_previous db request before p :
  p ∈ previous_turns request before db <->
  assistant_turns db !! p.1 = Some p.2 /\ tn_conversation_id p.2 = st_conversation_id request
  /\ tn_route_id p.2 = st_route_id request /\ tn_user_sequence p.2 < before
  /\ (exists r, runs db !! p.1 = Some r /\ c_conversation_id r = Some (tn_conversation_id p.2) /\ c_status r = "succeeded").
Proof.
  destruct p as [rid t]. unfold previous_turns. rewrite merge_sort_Permutation, list_elem_of_filter, elem_of_map_to_list.
  unfold is_previous. cbn [fst snd]. rewrite !andb_true_iff, !bool_decide_eq_true, Z.ltb_lt. split.
  - intros [(((Hc & Hr) & Hb) & Hx) Ht]. destruct (runs db !! rid) as [r|]; [|discriminate].
    apply andb_true_iff in Hx as [H1%bool_decide_eq_true H2%bool_decide_eq_true]. eauto 10.
  - intros (Ht & Hc & Hr & Hb & r & -> & Hrc & Hs). rewrite !bool_decide_eq_true_2 by done. done.
Qed.

(** ** Bounds, whatever the tables hold *)
Definition pairs_size (ps : list V4ContextPair) : Z :=
  foldr (fun p acc => slen (cx_user p) + slen (cx_assistant p) + acc) 0 ps.

Lemma pairs_size_app a b : pairs_size (a ++ b) = pairs_size a + pairs_size b.
Proof. induction a as [|p a IH]; [done|]. simpl. lia. Qed.

Lemma pairs_size_rev ps : pairs_size (rev ps) = pairs_size ps.
Proof. induction ps as [|p ps IH]; [done|]. simpl. rewrite pairs_size_app, IH. simpl. lia. Qed.

Lemma take_within_len b s : 0 <= b -> slen (take_within b s) <= b.
Proof.
  intros Hb. unfold take_within. rewrite slen_str_take. pose proof (floor_char_boundary_le s (Z.to_nat (Z.min (slen s) b))).
  pose proof (slen_nonneg s). lia.
Qed.

Lemma scan_row_within budget cid db p s s' :
  0 <= budget -> slen (sc_assistant s) <= budget /\ 0 <= sc_actual_bytes s ->
  scan_row budget cid db p s = Ok s' -> slen (sc_assistant s') <= budget /\ 0 <= sc_actual_bytes s'.
Proof.
  intros Hb [Ha Hact]. unfold scan_row. destruct (_ || _); [discriminate|]. destruct (_ <? _); [discriminate|].
  destruct (ok_or _ _) as [json|]; [|discriminate]. destruct (ok_or _ _) as [pl|]; [|discriminate].
  destruct (map_err _ _); [|discriminate]. destruct pl as [t|i st|c|i o|[]]; try discriminate; try by intros [= <-].
  unfold scan_text. destruct (_ || _); [discriminate|]. cbn [sc_first_text sc_count sc_assistant sc_actual_bytes].
  destruct (_ && _); [by intros [= <-]|]. destruct (_ <? _); [discriminate|]. intros [= <-]. cbn [sc_assistant sc_actual_bytes].
  rewrite slen_app. pose proof (take_within_len (budget - slen (sc_assistant s)) t ltac:(lia)). pose proof (slen_nonneg t).
  unfold usize_saturating_add, u64_max. lia.
Qed.

Lemma read_reply_within budget cid rid preview n db a :
  0 <= budget -> read_reply budget cid rid preview n db = Ok (Some a) -> slen a <= budget.
Proof.
  intros Hb. unfold read_reply. destruct (scan_rows _ _ _ _ _) as [s|] eqn:Hscan; [|discriminate].
  assert (slen (sc_assistant s) <= budget /\ 0 <= sc_actual_bytes s) as [Ha Hact].
  { revert Hscan. assert (slen (sc_assistant scan_start) <= budget /\ 0 <= sc_actual_bytes scan_start) as H0 by done.
    revert H0. generalize scan_start as s0. induction (take _ _) as [|p l IH]; intros s0 H0; cbn [scan_rows].
    - by intros [= <-].
    - destruct (scan_row budget cid db p s0) as [s1|] eqn:Hrow; [|discriminate]. apply IH.
      by eapply scan_row_within. }
  destruct (_ && _) eqn:Hmark; (destruct (_ || _); [discriminate|]);
    (destruct (sc_oversized _) eqn:Hover; [discriminate|]); intros [= <-]; [|done].
  unfold restore_marker in *. cbn [sc_assistant sc_oversized] in *. apply orb_false_iff in Hover as [_ Hover].
  rewrite slen_app. unfold usize_saturating_sub, usize_saturating_add in *. bools.
  change (slen admitted_marker) with 10 in *. unfold u64_max in *.
  pose proof (take_within_len (Z.max 0 (budget - 10)) (sc_assistant s) ltac:(lia)). lia.
Qed.

(** The user text of a pair is a stored user message. *)
Definition from_user db (p : V4ContextPair) : Prop :=
  exists id m, assistant_messages db !! id = Some m /\ m_role m = "user" /\ cx_user p = m_body m.

Lemma context_loop_within conv db ids : forall remaining pairs tr ps tr',
  0 <= remaining -> context_loop conv db ids remaining pairs tr = Ok (ps, tr') ->
  exists new, ps = pairs ++ new /\ pairs_size new <= remaining /\ (length new <= length ids)%nat
    /\ Forall (from_user db) new.
Proof.
  induction ids as [|[[rid uid] [aid|]] ids IH]; intros remaining pairs tr ps tr' Hrem; cbn [context_loop].
  - intros [= <- <-]. exists []. rewrite app_nil_r. do 3 (split; [done|]). constructor.
  - assert (forall tr0, context_loop conv db ids remaining pairs tr0 = Ok (ps, tr') -> exists new, ps = pairs ++ new
              /\ pairs_size new <= remaining /\ (length new <= length ((rid, uid, Some aid) :: ids))%nat
              /\ Forall (from_user db) new) as Hskip.
    { intros tr0 H0. destruct (IH _ _ _ _ _ Hrem H0) as (new & ? & ? & ? & ?). exists new. simpl. auto. }
    unfold pair_lengths. destruct (assistant_messages db !! uid) as [u|] eqn:Hu; [|discriminate].
    destruct (assistant_messages db !! aid) as [m|]; [|discriminate]. destruct (_ && _) eqn:Hbind; [|discriminate].
    cbn [ok_or]. destruct (_ || _) eqn:Hneg; [discriminate|]. bools.
    destruct (Z.ltb_spec remaining (slen (m_body u) + m_text_bytes m)); [apply Hskip|].
    unfold message_body at 1. rewrite Hu. cbn [fmap option_fmap option_map ok_or].
    destruct (ok_or _ _) as [preview|]; [|discriminate].
    destruct (read_reply _ _ _ _ _ _) as [[a|]|] eqn:Hread; [|apply Hskip|discriminate].
    apply read_reply_within in Hread; [|lia]. intros Hloop.
    apply IH in Hloop as (new & -> & Hsize & Hlen & Hnew); [|lia]. exists (mkV4ContextPair (m_body u) a :: new).
    rewrite <- app_assoc. split; [done|]. split; [simpl; lia|]. split; [simpl; lia|]. constructor; [|done].
    by exists uid, u.
  - destruct (validate_empty_success _ _ _); [|discriminate]. intros Hloop.
    destruct (IH _ _ _ _ _ Hrem Hloop) as (new & ? & ? & ? & ?). exists new. simpl. auto.
Qed.

Lemma turn_context_within run request max db ctx db' :
  0 <= max -> v4_turn_context run request max db = (Ok ctx, db') ->
  pairs_size (tc_pairs ctx) <= max /\ (length (tc_pairs ctx) <= 32)%nat /\ Forall (from_user db) (tc_pairs ctx).
Proof.
  intros Hmax. unfold v4_turn_context, tbind, tlift, tread. destruct (map_err _ _); [|discriminate].
  destruct (_ <? _); [discriminate|]. intros [= Hop _]. destruct (ok_or _ _) as [before|]; [|discriminate].
  destruct (identities _ _ _) as [ids|]; [|discriminate].
  destruct (context_loop _ _ _ _ _ _) as [[ps tr]|] eqn:Hloop; [|discriminate]. injection Hop as <-.
  apply context_loop_within in Hloop as (new & -> & Hsize & Hlen & Hnew); [|done]. cbn [tc_pairs fst app].
  rewrite pairs_size_rev, length_rev. rewrite length_take in Hlen. split; [done|]. split; [lia|]. by apply Forall_rev.
Qed.

(** ** The property *)

(** C9: in a store built by its calls, the context of an active turn that is bound
    to the request, asked for with a budget of at most 24 KiB, is what a greedy
    selection finds: of the succeeded turns of the same conversation and route
    that came before it, only the newest 32 are considered, newest first; each turn
    with a reply is taken, with its user text and its whole reply, when both still
    fit the budget, and otherwise marks the context as truncated, as more than 32
    turns do; the pairs come oldest first.  This supposes that the content of those
    32 turns is what the executor writes (perhaps the notice of a cut context, the
    texts, the end of a success); on such turns no check of the reader fails. *)
Theorem turn_context_is_recent_history (run : string) (request : V4SubmitTurn) (before max : Z) db
    (Hs : rtc store_step empty_run_db db) (Hv : V4SubmitTurn_validate request = Ok tt)
    (Hcur : current_sequence run request db = Some before) (Hact : active db run) (Hmax : max <= 24 * 1024)
    (Hw : forall p, p ∈ take 32 (previous_turns request before db) ->
      executor_written db (st_conversation_id request) p.1) :
  let all := previous_turns request before db in
  let g := greedy max (map (turn_texts db (st_conversation_id request)) (take 32 all)) in
  v4_turn_context run request max db = (Ok (mkV4TurnContext (rev g.1) (Nat.ltb 32 (length all) || g.2)), db)
  /\ StronglySorted later_first all
  /\ (forall rid t, (rid, t) ∈ all <-> assistant_turns db !! rid = Some t
        /\ tn_conversation_id t = st_conversation_id request /\ tn_route_id t = st_route_id request
        /\ tn_user_sequence t < before /\ status_of db rid = Some "succeeded").
Proof.
  intros all g. pose proof (steps_assistant _ _ Hs assistant_empty) as Ha.
  pose proof (steps_referenced _ _ Hs referenced_empty) as Href. pose proof (a_turns _ Ha) as Ht.
  set (conv := st_conversation_id request) in *.
  assert (conv_of db run = Some conv) as Hconv.
  { unfold current_sequence in Hcur. unfold conv_of.
    change (assistant_turns db !! (run : RunId)) with (assistant_turns db !! run) in Hcur.
    destruct (assistant_turns db !! run) as [t|]; [|discriminate]. destruct (runs db !! _); [|discriminate].
    destruct (tn_user_message_id t); [|discriminate]. destruct (assistant_messages db !! _); [|discriminate].
    destruct (_ && _) eqn:Hb; [|discriminate]. bools. simpl. by f_equal. }
  assert (live db conv) as Hlive by (eapply y_live; [apply Ht|done..]).
  assert (forall p, p ∈ all -> finished db conv p) as Hfin.
  { intros p (Hp & Hc & _ & _ & r & Hr & _ & Hst)%elem_of_previous. split; [done|]. split; [done|].
    unfold status_of. by rewrite Hr, <- Hst. }
  split; [|split].
  - unfold v4_turn_context, tbind, tlift, tread. rewrite Hv. cbn [map_err].
    destruct (Z.ltb_spec (24 * 1024) max); [lia|]. rewrite Hcur. cbn [ok_or]. unfold identities. fold all.
    rewrite (identity_list db conv Ht Href Hlive all) by (by apply Forall_forall).
    rewrite <- firstn_map, take_take, length_take, length_map. fold conv. change (32 `min` 33)%nat with 32%nat.
    rewrite firstn_map, (greedy_loop db conv Ht Href Hlive).
    + assert (Nat.ltb 32 (Nat.min 33 (length all)) = Nat.ltb 32 (length all)) as ->; [|done].
      destruct (Nat.ltb_spec 32 (Nat.min 33 (length all))), (Nat.ltb_spec 32 (length all)); (done || lia).
    + apply Forall_forall. intros p Hp. split; [|by apply Hw]. apply Hfin. by eapply subseteq_take.
    + lia.
  - assert (Total later_first) by (intros a b; unfold later_first; lia).
    assert (Transitive later_first) by (intros a b c; unfold later_first; lia). apply StronglySorted_merge_sort; apply _.
  - intros rid t. unfold all. rewrite elem_of_previous. cbn [fst snd]. unfold status_of. split.
    + intros (H1 & H2 & H3 & H4 & r & Hr & _ & Hst). rewrite Hr. simpl. by rewrite Hst.
    + intros (H1 & H2 & H3 & H4 & Hst). apply fmap_Some in Hst as (r & Hr & Hst). do 4 (split; [done|]).
      exists r. split; [done|]. split; [|done].
      destruct (b_turn _ (t_bound _ Ht) rid t H1) as (_ & _ & _ & r' & Hr' & Hc'). congruence.
Qed.
End Context.
