(* ===== verification/TurnProps.v ===== *)
(** * What the assistant turn store guarantees

    The properties of conversations, turns and replies, each with an example on
    a store built by its own calls. *)
From stdpp Require Import base list gmap strings sorting relations.
From Stdlib Require Import ZArith Lia.
From S2P Require Import Prelude RustStr External Digest Tables RunContract StoreBase AssistantContent RunStore TurnContract TurnStore Preview RunLedger TurnLedger TurnMoves TurnSteps TurnHistory TurnAdmission TurnRead.
Import RunStateOps.

Open Scope Z_scope.
Open Scope rust_scope.

Section Properties.
Context {EX : External} {CC : ContentCodec} {MF : MillisFormat} {DG : Digest} {VJ : V4Json}.
Context {EL : ExternalLaws} {ML : MillisFormatLaws} {CL : ContentLaws}.
Implicit Types (db : RunDb) (rid cid : string).

(** ** Admission *)

(** What a submission comes to. *)
Inductive admission (s : V4SubmitTurn) (run msg : string) (now : Z) db
    : result StoreError V4TurnSubmission * RunDb -> Prop :=
| admission_invalid e :
    V4SubmitTurn_validate s = Err e ->
    admission s run msg now db (Err (InvalidInput "turn submit invalid"), db)
| admission_replayed id row tn :
    V4SubmitTurn_validate s = Ok tt ->
    runs db !! id = Some row -> c_idempotency_key row = st_idempotency_key s -> same_request row s = true ->
    assistant_turns db !! id = Some tn ->
    admission s run msg now db
      (Ok (mkV4TurnSubmission (st_conversation_id s) id (st_idempotency_key s) (tn_user_sequence tn)
             (state_from_str (c_status row)) true), db)
| admission_unbound id row :
    V4SubmitTurn_validate s = Ok tt ->
    runs db !! id = Some row -> c_idempotency_key row = st_idempotency_key s -> same_request row s = true ->
    assistant_turns db !! id = None ->
    admission s run msg now db (Err (Database QueryReturnedNoRows), db)
| admission_conflict id row :
    V4SubmitTurn_validate s = Ok tt ->
    runs db !! id = Some row -> c_idempotency_key row = st_idempotency_key s -> same_request row s = false ->
    admission s run msg now db (Err IdempotencyConflict, db)
| admission_refused e :
    V4SubmitTurn_validate s = Ok tt ->
    (forall id row, runs db !! id = Some row -> c_idempotency_key row <> st_idempotency_key s) ->
    turn_refusal s now db = Some e ->
    admission s run msg now db (Err e, db)
| admission_admitted db' :
    V4SubmitTurn_validate s = Ok tt ->
    (forall id row, runs db !! id = Some row -> c_idempotency_key row <> st_idempotency_key s) ->
    turn_refusal s now db = None -> turn_admitted s run msg now db db' -> assistant db' ->
    admission s run msg now db
      (Ok (mkV4TurnSubmission (st_conversation_id s) run (st_idempotency_key s)
             (next_message_sequence (st_conversation_id s) db) Queued false), db').

(** C2: [v4_admit_turn] refines the admission protocol: a malformed submission is
    refused; a known key answers the turn it admitted when request and
    conversation agree, and is a conflict otherwise; a new key is refused by the
    first failing check (conversation missing or deleted, an active turn, no room
    for content, a clock that cannot be written, a clock before the conversation
    was created) and otherwise admits exactly one queued turn with its message.
    Every refusal leaves the store as it was. *)
Theorem turn_admission_refines_protocol (s : V4SubmitTurn) (run msg : string) (now : Z) (db : RunDb)
    (Ha : assistant db) (Hty : typed (OpV4Admit s run msg)) (Hnew : unused run msg db) (Hnow : 0 <= now)
    (Hseq : next_message_sequence (st_conversation_id s) db <= MAX_SAFE_INTEGER)
    (Hcount : message_count (st_conversation_id s) db <= MAX_SAFE_INTEGER) :
  admission s run msg now db (v4_admit_turn s run msg now db).
Proof.
  destruct (V4SubmitTurn_validate s) as [[]|e] eqn:Hval.
  2:{ unfold v4_admit_turn, tbind at 1, tlift at 1. rewrite Hval. by eapply admission_invalid. }
  destruct (find_key (st_idempotency_key s) db) as [[id row]|] eqn:Hkey.
  - apply find_key_Some in Hkey as [Hr Hk]. rewrite (admit_existing db s run msg now id row Ha Hval Hr Hk).
    destruct (same_request row s) eqn:Hsame; [|by eapply admission_conflict].
    destruct (assistant_turns db !! id) as [tn|] eqn:Htn;
      [by eapply admission_replayed|by eapply admission_unbound].
  - pose proof (admit_new s run msg now db Ha Hval Hkey Hnew Hseq Hnow Hcount) as Heq.
    pose proof (proj1 (find_key_None _ _) Hkey) as Hfresh.
    destruct (turn_refusal s now db) as [e|] eqn:Href; [rewrite Heq; by eapply admission_refused|].
    assert (assistant (insert_turn s run msg now db).2) as Ha'.
    { apply (steps_assistant db); [|done]. apply rtc_once.
      apply (store_step_exec (OpV4Admit s run msg) (mkTick EmptyString now) db (Ok tt)); [done|].
      simpl. by rewrite Heq. }
    rewrite Heq. apply admission_admitted; [done..| |done].
    apply v4_admit_turn_ok in Heq as [_ [[_ (? & ? & ? & Hf & _)]|(_ & _ & _ & _ & Hins)]]; [congruence|].
    by apply insert_turn_ok in Hins as [? _].
Qed.

(** An accepted submission stays answered: whatever store calls follow, the
    same request gets the same run and message number back, marked as a duplicate,
    and changes nothing; under the same key another request, or another
    conversation, is a conflict. *)
Theorem resubmission_returns_the_first_turn (s : V4SubmitTurn) (run msg : string) (now : Z) (db db1 db2 : RunDb)
    (sub : V4TurnSubmission) (Ha : assistant db) (Hty : typed (OpV4Admit s run msg))
    (Hop : v4_admit_turn s run msg now db = (Ok sub, db1)) (Hs : rtc store_step db1 db2) :
  forall s2 run2 msg2 now2, V4SubmitTurn_validate s2 = Ok tt -> st_idempotency_key s2 = st_idempotency_key s ->
    exists state, v4_admit_turn s2 run2 msg2 now2 db2
      = (if bool_decide (submit_digest s2 = submit_digest s)
            && bool_decide (st_conversation_id s2 = st_conversation_id s)
         then Ok (mkV4TurnSubmission (st_conversation_id s) (ts_run_id sub) (st_idempotency_key s)
                    (ts_user_message_sequence sub) state true)
         else Err IdempotencyConflict, db2).
Proof.
  assert (assistant db1) as Ha1.
  { apply (steps_assistant db); [|done]. apply rtc_once.
    apply (store_step_exec (OpV4Admit s run msg) (mkTick EmptyString now) db (Ok tt)); [done|]. simpl. by rewrite Hop. }
  pose proof (steps_assistant db1 db2 Hs Ha1) as Ha2.
  apply admitted_rows in Hop as (Hval & _ & _ & row & tn & Hr & Hk & Hsame & Htn & Hseq); [|done].
  destruct (steps_ledger db1 db2 (a_ledger _ Ha1) Hs) as [_ [He _]].
  destruct (He _ _ Hr) as (row2 & Hr2 & (Hk2 & Hd2 & Hc2 & _)%row_step_fixed).
  destruct (steps_kept db1 db2 Hs _ _ Htn) as (tn2 & Htn2 & _ & Hseq2 & _).
  intros s2 run2 msg2 now2 Hval2 Hkey2. exists (state_from_str (c_status row2)).
  rewrite (admit_existing db2 s2 run2 msg2 now2 _ row2 Ha2 Hval2 Hr2) by congruence. rewrite Htn2, Hseq2, Hseq.
  unfold same_request in *. apply andb_true_iff in Hsame as [Hd Hc]. bools. rewrite Hd2, Hc2, Hd, Hc.
  rewrite (bool_decide_ext (submit_digest s = submit_digest s2) (submit_digest s2 = submit_digest s)) by (split; congruence).
  rewrite (bool_decide_ext (Some (st_conversation_id s) = Some (st_conversation_id s2))
             (st_conversation_id s2 = st_conversation_id s)) by (split; congruence).
  destruct (bool_decide _); [|done]. destruct (bool_decide (_ = st_conversation_id s)) eqn:Hcs; [|done]. bools.
  simpl. by rewrite Hcs, Hkey2.
Qed.

(** ** Invariants *)

(** C4: whatever calls are made, in whatever order, legacy or v4, the store keeps
    its promises: turns are bound to known conversations and to runs of those
    conversations; the content of a conversation is numbered without gaps, each
    event with its valid payload; messages carry the submitted text or the preview
    of the reply; every live conversation has a record its validator accepts. *)
Theorem store_calls_preserve_turns (db db' : RunDb)
    (Ha : assistant db) (Hs : rtc store_step db db') : assistant db'.
Proof. by eapply steps_assistant. Qed.

(** C5: in any store built by its calls, the assistant message of a turn shows the
    longest prefix of the whole reply that fits 16 KiB and ends between
    characters, with the exact length of the reply; a turn without such a message
    has no reply; and no run has two. *)
Theorem preview_shows_longest_prefix (db : RunDb) (Hs : rtc store_step empty_run_db db) :
  (forall id m, assistant_messages db !! id = Some m -> m_role m = "assistant" ->
     m_body m = preview_text (reply db (m_conversation_id m) (m_run_id m))
     /\ m_text_bytes m = slen (reply db (m_conversation_id m) (m_run_id m))
     /\ forall id' m', assistant_messages db !! id' = Some m' -> m_role m' = "assistant" ->
          m_run_id m' = m_run_id m -> id' = id)
  /\ (forall rid cid, conv_of db rid = Some cid -> reply db cid rid <> EmptyString ->
        exists id m, assistant_messages db !! id = Some m /\ m_role m = "assistant" /\ m_run_id m = rid).
Proof.
  pose proof (t_messages _ (a_turns _ (steps_assistant _ _ Hs assistant_empty))) as [M1 M2 M3 M4]. split.
  - intros id m Hm Hr. destruct (M1 id m Hm) as (_ & _ & _ & _ & _ & Hp). rewrite bool_decide_eq_true_2 in Hp by done.
    destruct Hp as [Hb Hn]. split; [done|]. split; [done|]. intros id' m' Hm' Hr' Heq. by eapply M3.
  - intros rid cid Hc Hne. destruct (assistant_message rid db) as [m|] eqn:Ham.
    + pose proof (assistant_message_cases rid db) as Hcase. rewrite Ham in Hcase.
      destruct Hcase as (id & Hid & [? ?]%is_preview_iff). eauto.
    + pose proof (assistant_message_cases rid db) as Hcase. rewrite Ham in Hcase. destruct Hne. by eapply M4.
Qed.

(** A conversation never has two turns in progress, and one with a turn in
    progress has not been deleted. *)
Theorem one_turn_at_a_time (db : RunDb) (r1 r2 cid : string) (Hs : rtc store_step empty_run_db db)
    (Hc1 : conv_of db r1 = Some cid) (Hc2 : conv_of db r2 = Some cid)
    (Ha1 : active db r1) (Ha2 : active db r2) : r1 = r2 /\ live db cid.
Proof.
  pose proof (t_lifecycle _ (a_turns _ (steps_assistant _ _ Hs assistant_empty))) as [L1 L2 _ _].
  split; [by eapply L1|by eapply L2].
Qed.

(** C14: the transcript says how a turn ended.  Whatever store calls are made, a
    turn of a live conversation that ended has an end marker.  When no caller wrote
    a marker of its own into this run (an append of a terminal payload, which
    [v4_append_content] accepts from any caller while the run is active and the
    program never makes), whatever else was done to this run and to any other:
    while the run is active nothing marks its end, and once it ended, unless the
    conversation was deleted, exactly one event of the run is terminal, it is the
    last one, and it names the state of the run. *)
Theorem transcript_ends_with_the_final_state (db : RunDb) (rid cid : string)
    (Hs : rtc store_step empty_run_db db) (Hc : conv_of db rid = Some cid) :
  (ended db rid -> live db cid ->
     exists n row, assistant_content_events db !! (cid, n) = Some row /\ ct_run_id row = rid
       /\ is_terminal_kind (ct_kind row) = true)
  /\ (rtc (step_beside rid) empty_run_db db ->
       (active db rid -> forall n row, assistant_content_events db !! (cid, n) = Some row -> ct_run_id row = rid ->
          is_terminal_kind (ct_kind row) = false)
       /\ (ended db rid -> live db cid ->
           exists n row st, assistant_content_events db !! (cid, n) = Some row /\ ct_run_id row = rid
             /\ assistant_content_payloads db !! (cid, n) = Some (content_json (Terminal st))
             /\ status_of db rid = Some (state_as_str st)
             /\ forall m row', assistant_content_events db !! (cid, m) = Some row' -> ct_run_id row' = rid ->
                  m <= n /\ (is_terminal_kind (ct_kind row') = true -> m = n))).
Proof.
  pose proof (a_turns _ (steps_assistant _ _ Hs assistant_empty)) as Ht.
  assert (forall n row, assistant_content_events db !! (cid, n) = Some row -> ct_run_id row = rid ->
            is_terminal_kind (ct_kind row) = true -> marked db rid) as Hmk by (intros; apply marked_iff; eauto 10).
  assert (ended db rid -> live db cid -> exists n row, assistant_content_events db !! (cid, n) = Some row
            /\ ct_run_id row = rid /\ is_terminal_kind (ct_kind row) = true) as Hend.
  { intros He Hl. destruct (proj1 (marked_iff db rid) (y_end _ (t_lifecycle _ Ht) rid cid Hc He Hl))
      as (c & n & row & Hr & Hrun & Hk).
    destruct (s_row _ (t_content _ Ht) _ _ _ Hr) as (Hcr & _). assert (c = cid) as -> by congruence. eauto. }
  split; [exact Hend|]. intros Hb.
  destruct (beside_turns _ _ _ Hb ledger_empty (proj1 turns_empty) (proj2 turns_empty rid)) as (_ & _ & [F1 F2 F3]).
  split.
  - intros Ha n row Hr Hrun. apply not_true_iff_false. intros Hk. apply (F1 Ha). eauto.
  - intros He Hl. destruct (Hend He Hl) as (n & row & Hr & Hrun & Hk).
    destruct (F3 _ _ _ Hr Hrun Hk) as (st & Hp & Hst). exists n, row, st.
    do 4 (split; [done|]). intros m row' Hr' Hrun'. split; [by eapply F2|].
    intros Hk'. assert (m <= n) by by eapply F2. assert (n <= m) by by eapply F2. lia.
Qed.

(** ** Deletion *)

(** The first check that refuses a deletion. *)
Definition delete_refusal (cid : string) (now : Z) db : option StoreError :=
  match assistant_conversations db !! cid with
  | None => Some AssistantNotFound
  | Some row =>
      if cv_deleted row then Some AssistantNotFound
      else if 0 <? active_runs cid db then Some AssistantConflict
      else if i64_max <? now then Some (InvalidInput "ts range")
      else if now <? cv_created_at_ms row then Some (Database ConstraintCheck)
      else None
  end.

(** What is left: the transcript of [cid] and nothing else is gone. *)
Record transcript_removed (cid : string) db db' : Prop := {
  tr_gone : conversation_row cid db' = Ok None;
  tr_content : forall c n, assistant_content_events db' !! (c, n)
    = if bool_decide (c = cid) then None else assistant_content_events db !! (c, n);
  tr_payloads : forall c n, assistant_content_payloads db' !! (c, n)
    = if bool_decide (c = cid) then None else assistant_content_payloads db !! (c, n);
  tr_messages : forall id m, assistant_messages db' !! id = Some m <->
    assistant_messages db !! id = Some m /\ m_conversation_id m <> cid;
  tr_others : forall c, c <> cid -> assistant_conversations db' !! c = assistant_conversations db !! c;
  tr_turns : turns_kept (assistant_turns db) db';
  tr_runs : runs db' = runs db /\ run_events db' = run_events db /\ conversations db' = conversations db
    /\ audit_events db' = audit_events db;
}.

(** Deleting a conversation succeeds exactly when it exists, has no turn in
    progress and the clock can be written and does not precede its creation; it
    then removes the messages and the content of that conversation only, while
    runs, their events and keys, the turns and every other conversation stay; a
    refused deletion changes nothing. *)
Theorem deletion_removes_exactly_one_transcript (cid : string) (now : Z) (db : RunDb)
    (Ha : assistant db) (Hcount : message_count cid db <= MAX_SAFE_INTEGER) (Hnow : 0 <= now) :
  match delete_refusal cid now db with
  | Some e => v4_delete_conversation cid now db = (Err e, db)
  | None => exists db', v4_delete_conversation cid now db = (Ok tt, db') /\ transcript_removed cid db db'
  end.
Proof.
  unfold delete_refusal. destruct (assistant_conversations db !! cid) as [row|] eqn:Hrow.
  2:{ unfold v4_delete_conversation, transaction, tbind, tread, touch_conversation. rewrite conversation_row_none; [done|].
      intros (r & Hr & _). congruence. }
  destruct (cv_deleted row) eqn:Hd.
  { unfold v4_delete_conversation, transaction, tbind, tread, touch_conversation. rewrite conversation_row_none; [done|].
    intros (r & Hr & Hd'). congruence. }
  pose proof (conversation_row_read db cid row Hrow Hd (a_conversations _ Ha _ row Hrow Hd) Hcount) as [Hread _].
  unfold v4_delete_conversation, transaction, tbind, tread, touch_conversation. rewrite Hread. simpl.
  destruct (0 <? active_runs cid db); [done|]. unfold tlift, ms.
  destruct (Z.leb_spec now i64_max), (Z.ltb_spec i64_max now); try lia; [|done]. cbn [delete_content delete_messages tmodify].
  rewrite (update_conversation_row_at _ _ row) by exact Hrow.
  assert (conversation_check (set_deleted now row) = negb (now <? cv_created_at_ms row)) as ->.
  { destruct (a_conversations _ Ha _ row Hrow Hd) as (Hck & _). unfold conversation_check in *. cbn.
    bools. rewrite !(proj2 (Z.leb_le _ _)) by lia. cbn [andb].
    destruct (Z.leb_spec (cv_created_at_ms row) now), (Z.ltb_spec now (cv_created_at_ms row)); (done || lia). }
  destruct (now <? cv_created_at_ms row); [done|]. cbn [negb]. eexists. split; [reflexivity|].
  change (transcript_removed cid db (forgotten cid row now db)). constructor.
  - apply conversation_row_none. rewrite deleted_live. tauto.
  - intros c n. apply option_eq. intros x. rewrite deleted_lookup. case_bool_decide; [|tauto]. split; [tauto|discriminate].
  - intros c n. case_bool_decide as Hc; [|by apply deleted_payload]. subst c.
    simpl. apply map_lookup_filter_None. right. intros y _. simpl. tauto.
  - apply deleted_message.
  - intros c Hc. simpl. by rewrite lookup_insert_ne.
  - pose proof (delete_messages_kept (assistant_turns db) cid (delete_content cid db).2) as Hk. apply Hk.
    by apply (turns_kept_same _ db), turns_kept_refl.
  - done.
Qed.

(** ** Transitions and recovery *)

(** What no check refuses is a move of an active run. *)
Lemma unrefused_active ev (id : string) e n db row :
  runs db !! id = Some row -> row_valid id row e -> transition_refusal ev (found_of id db) id e n = None ->
  is_terminal e = false.
Proof.
  intros Hr Hv Href. unfold transition_refusal in Href. rewrite (found_of_decoded id row e) in Href by done.
  destruct (validate_event ev); [|discriminate]. rewrite bool_decide_eq_true_2 in Href by done. simpl in Href.
  by destruct (is_terminal e).
Qed.

(** A transition that nothing about the run refuses happens. *)
Lemma transition_moves (id : string) (e n : RunState) (ev : NewRunEvent) (t : Tick) (db : RunDb) :
  assistant db -> 0 <= now_ms t <= MAX_SAFE_INTEGER -> transition_refusal ev (found_of id db) id e n = None ->
  exists row x db', transition_run id e n ev t db = (Ok x, db')
    /\ runs db !! id = Some row /\ row_valid id row e
    /\ runs db' = <[id := advance_row row n (now t)]> (runs db)
    /\ assistant_turns db' = assistant_turns db /\ assistant db'
    /\ (is_Some (conv_of db id) -> is_terminal n = true -> marked db' id).
Proof.
  intros Ha Hclock Href. destruct Ha as [Hl Ht Hc' Hb].
  destruct (transition_run_admitted id e n ev t db Hl Href) as (row & Hr & Hv & Heq & Hc).
  pose proof (unrefused_active ev id e n db row Hr Hv Href) as He.
  destruct (update_and_append_total db id row e n ev (now t) (now_ms t) Ht Hr Hv He Hc Hclock) as (db' & Hupd & Hmk).
  assert (transition_run id e n ev t db = (Ok (stored_event id row ev (now t)), db')) as Hop
    by (rewrite Heq; unfold transaction; by rewrite Hupd).
  exists row, (stored_event id row ev (now t)), db'. split; [done|]. split; [done|]. split; [done|].
  apply (update_and_append_ok id row e) in Hupd as (_ & Hcore & _); [|done..].
  split; [exact (f_equal k_runs Hcore)|]. split; [exact (f_equal k_turns Hcore)|]. split; [|intros; by apply Hmk].
  apply (steps_assistant db); [|done]. apply rtc_once.
  by apply (store_step_exec (OpTransition id e n ev) t db (Ok tt)); [|simpl; rewrite Hop].
Qed.

(** C7: [transition_run] refines the abstract transition of a (state, history)
    pair.  It is refused exactly for the first failing check, with that error and
    no change: the checks of the run ([transition_refusal]: event, existence,
    expected state, finality, lifecycle edge, room in the numbering), and, when the
    transition ends an assistant turn that has no end marker yet, a clock beyond
    2^53-1, which the marker cannot carry.  Otherwise the run moves to [n], its
    history gains exactly the given event, numbered one past the last, no other run
    changes, and a turn that ended is marked. *)
Theorem transition_run_refines (id : string) (e n : RunState) (ev : NewRunEvent) (t : Tick) (db : RunDb)
    (Ha : assistant db) (Hclock : 0 <= now_ms t) :
  match transition_refusal ev (found_of id db) id e n, marker_refusal db id n (now_ms t) with
  | Some err, _ | None, Some err => transition_run id e n ev t db = (Err err, db)
  | None, None =>
      exists x db', transition_run id e n ev t db = (Ok x, db')
        /\ (forall h, represents db id e h ->
              ev_sequence x = Z.of_nat (length h) + 1
              /\ represents db' id n (h ++ [event_row ev (now t)]))
        /\ (forall id' s h, id' <> id -> represents db id' s h <-> represents db' id' s h)
        /\ (is_Some (conv_of db id) -> is_terminal n = true -> marked db' id)
  end.
Proof.
  destruct Ha as [Hl Ht _ _].
  destruct (transition_refusal ev _ id e n) as [err|] eqn:Href; [by apply transition_run_refused|].
  destruct (transition_run_admitted id e n ev t db Hl Href) as (row & Hr & Hv & -> & Hc).
  pose proof (unrefused_active ev id e n db row Hr Hv Href) as He.
  pose proof (update_and_append_cases db id row e n ev (now t) (now_ms t) Ht Hr Hv He Hc Hclock) as Hcases.
  unfold transaction. destruct (marker_refusal db id n (now_ms t)) as [err|].
  - destruct Hcases as (db' & ->). done.
  - destruct Hcases as (db' & Hop & Hmk). rewrite Hop. exists (stored_event id row ev (now t)), db'. split; [done|].
    apply (update_and_append_ok id row e) in Hop as (_ & Hcore & _); [|done..]. split; [|split; [|exact Hmk]].
    + intros h Hh. split; [|by eapply represents_appended].
      destruct Hh as (row' & Hr' & _ & Hn & _). simpl. congruence.
    + intros id' s h Hne. by eapply represents_other.
Qed.

(** In a store with assistant turns a transition is refused only by the run
    itself: no check of the transcript can stop it while the clock is a valid
    timestamp.  Otherwise the run moves, the messages of its turn show the new
    state, and a terminal state leaves its marker in the transcript. *)
Theorem transitions_reach_the_transcript (id : string) (e n : RunState) (ev : NewRunEvent) (t : Tick) (db : RunDb)
    (Ha : assistant db) (Hclock : 0 <= now_ms t <= MAX_SAFE_INTEGER) :
  match transition_refusal ev (found_of id db) id e n with
  | Some err => transition_run id e n ev t db = (Err err, db)
  | None => exists x db', transition_run id e n ev t db = (Ok x, db')
      /\ status_of db' id = Some (state_as_str n)
      /\ (is_Some (conv_of db id) -> is_terminal n = true -> marked db' id
            /\ forall i m, assistant_messages db' !! i = Some m -> m_run_id m = id -> m_state m = state_as_str n)
  end.
Proof.
  destruct (transition_refusal ev _ id e n) as [err|] eqn:Href; [by apply transition_run_refused, Href; apply a_ledger|].
  destruct (transition_moves id e n ev t db Ha Hclock Href) as (row & x & db' & Hop & _ & _ & Hruns & _ & Ha' & Hmk).
  exists x, db'. split; [done|].
  assert (status_of db' id = Some (state_as_str n)) as Hst by (unfold status_of; by rewrite Hruns, lookup_insert_eq).
  split; [done|]. intros Hturn Hn. split; [by apply Hmk|]. intros i m Hi Hrun.
  pose proof (t_states _ (a_turns _ Ha') i m Hi) as Hms. rewrite Hrun, Hst in Hms.
  assert (ended db' id) as Hend by (exists (state_as_str n); split; [done|by rewrite active_status, Hn]).
  specialize (Hms Hend). congruence.
Qed.

(** The end of a recovered turn is marked: its conversation is live, before and after. *)
Lemma recovered_turn_marked t ids db db' (id : string) s row :
  turns db -> assistant db' -> recover_each t ids db = (Ok tt, db') -> active_run db id s row ->
  interrupted_by t db db' id -> is_Some (conv_of db id) -> marked db' id.
Proof.
  intros Ht Ha' Hrec (Hr & Hv & Hs) (row0 & _ & Hr' & _) [cid Hc].
  pose proof (recover_each_quiet (fun d => turns_kept (assistant_turns db) d /\ assistant_conversations d = assistant_conversations db)) as Hq.
  specialize (Hq ltac:(intros d d' E1 E2 _ [H1 H2]; split; [by apply (turns_kept_same _ d)|congruence]) t ids db
                (conj (turns_kept_refl db) eq_refl)). rewrite Hrec in Hq. destruct Hq as [Hkept Hconvs]. simpl in Hconvs.
  assert (active db id) as Hact.
  { exists (state_as_str s). unfold status_of. rewrite Hr. simpl. rewrite (rv_status _ _ _ Hv). split; [done|].
    by destruct Hs as [->|[->| ->]]. }
  destruct (y_live _ (t_lifecycle _ Ht) id cid Hc Hact) as (crow & Hcrow & Hd).
  apply conv_of_turn in Hc as (tn & Htn & <-). destruct (Hkept id tn Htn) as (tn' & Htn' & Hcc & _).
  eapply (y_end _ (t_lifecycle _ (a_turns _ Ha')) id (tn_conversation_id tn)).
  - apply conv_of_turn. eauto.
  - exists (state_as_str Interrupted). unfold status_of. by rewrite Hr'.
  - exists crow. by rewrite Hconvs.
Qed.

(** C15: recovery after a restart interrupts exactly the runs that were starting,
    running or being cancelled, those of assistant turns included: each by one
    event, each turn with the end of its transcript marked; queued and finished
    runs keep row and history, and a second recovery finds nothing. *)
Theorem recovery_ends_every_active_turn (t : Tick) (db : RunDb)
    (Ha : assistant db) (Hclock : 0 <= now_ms t <= MAX_SAFE_INTEGER)
    (Hnum : forall id s row, active_run db id s row -> c_next_event_sequence row < i64_max) :
  exists ids db',
    recover_interrupted_on t db = (Ok (Z.of_nat (length ids)), db') /\ assistant db'
    /\ NoDup ids /\ (forall id, id ∈ ids <-> exists s row, active_run db id s row)
    /\ (forall id, id ∈ ids -> interrupted_by t db db' id /\ (is_Some (conv_of db id) -> marked db' id))
    /\ (forall id, id ∉ ids -> runs db' !! id = runs db !! id
          /\ forall n, run_events db' !! (id, n) = run_events db !! (id, n))
    /\ forall t2, recover_interrupted_on t2 db' = (Ok 0, db').
Proof.
  pose proof Ha as [Hl Ht _ _].
  destruct (recover_each_turns t (interrupted_ids db) db) as [db' Hrec]; [apply interrupted_ids_NoDup| |done..|].
  { apply Forall_forall. intros id Hin.
    pose proof (proj1 (Forall_forall _ _) (interrupted_ids_interruptible db Hl) id Hin) as Hi. split; [done|].
    apply elem_of_interrupted_active in Hin as (s & row & Hact); [|done]. intros row' Hr'.
    specialize (Hnum id s row Hact). destruct Hact as [Hr _]. by simplify_eq. }
  assert (recover_interrupted_on t db = (Ok (Z.of_nat (length (interrupted_ids db))), db')) as Hop.
  { unfold recover_interrupted_on, transaction, tbind at 1, tread. unfold tbind. by rewrite Hrec. }
  destruct (recover_interrupted_ok t db _ db' Hl Hop) as (_ & Hl' & _ & Hsame & Hdone).
  assert (assistant db') as Ha'.
  { apply (steps_assistant db); [|done]. apply rtc_once. apply (store_step_exec OpRecover t db (Ok tt)); [done|].
    simpl. by rewrite Hop. }
  exists (interrupted_ids db), db'. split; [done|]. split; [done|]. split; [apply interrupted_ids_NoDup|].
  split; [intros id; by apply elem_of_interrupted_active|]. split; [|split; [exact Hsame|]].
  - intros id Hin. pose proof (proj1 (Forall_forall _ _) Hdone id Hin) as Hby. split; [done|].
    apply elem_of_interrupted_active in Hin as (s & row & Hact); [|done].
    by eapply recovered_turn_marked.
  - intros t2. unfold recover_interrupted_on, transaction, tbind at 1, tread.
    by rewrite (recovered_nothing_left t db db' Hdone Hsame).
Qed.

(** ** Reading *)

(** Reading never reports corruption: in any store built by its calls a
    conversation is either found, with a record its validator accepts, or was
    never created or was deleted; and a page of messages is the next messages of
    the conversation in increasing order, each shown exactly as stored and
    accepted by its validator. *)
Theorem reads_yield_valid_records (db : RunDb) (Ha : assistant db)
    (Hcount : forall cid, message_count cid db <= MAX_SAFE_INTEGER)
    (Hseq : forall id m, assistant_messages db !! id = Some m -> m_sequence m <= MAX_SAFE_INTEGER) :
  (forall cid, (live db cid -> exists c, v4_conversation cid db = (Ok c, db) /\ V4Conversation_validate c = Ok tt
                  /\ vc_conversation_id c = cid /\ vc_message_count c = message_count cid db)
     /\ (~ live db cid -> v4_conversation cid db = (Err AssistantNotFound, db)))
  /\ (forall cid after limit, default 0 after <= i64_max ->
        exists l, message_page cid after limit db = Ok (map (message_view db) l)
          /\ Forall (fun v => V4Message_validate v = Ok tt) (map (message_view db) l)
          /\ StronglySorted (fun a b => m_sequence a < m_sequence b) l
          /\ (forall m, m ∈ l -> m_conversation_id m = cid /\ default 0 after < m_sequence m
                /\ exists id, assistant_messages db !! id = Some m)
          /\ (forall id m, assistant_messages db !! id = Some m -> m_conversation_id m = cid ->
                default 0 after < m_sequence m -> m ∈ l \/
                (Z.of_nat (length l) = Z.max 0 limit /\ forall x, x ∈ l -> m_sequence x < m_sequence m))).
Proof.
  split.
  - intros cid. unfold v4_conversation, tread, required_conversation. split.
    + intros (row & Hr & Hd).
      destruct (conversation_row_read db cid row Hr Hd (a_conversations _ Ha cid row Hr Hd) (Hcount cid)) as [-> Hv].
      eexists. split; [done|]. split; [done|]. split; [done|]. cbn. unfold u64_or_zero.
      destruct (Z.ltb_spec (message_count cid db) 0); [unfold message_count in *; lia|done].
    + intros Hn. by rewrite conversation_row_none.
  - intros cid after limit Hafter.
    destruct (message_page_eq db cid after limit (a_ledger _ Ha) (t_bound _ (a_turns _ Ha))
                (t_messages _ (a_turns _ Ha)) Hseq Hafter) as [Heq Hall].
    set (all := messages_after cid (default 0 after) db) in *.
    pose proof (messages_strict db cid (default 0 after) (t_messages _ (a_turns _ Ha))) as Hsort. fold all in Hsort.
    exists (take (Z.to_nat limit) all). split; [done|]. split; [done|].
    rewrite <- (take_drop (Z.to_nat limit) all) in Hsort. split; [by eapply StronglySorted_app_1_l|]. split.
    + intros m Hin%subseteq_take. apply elem_of_messages in Hin as (? & ? & ?). done.
    + intros id m Hid Hc Hlt. assert (m ∈ all) as Hin by (apply elem_of_messages; eauto).
      rewrite <- (take_drop (Z.to_nat limit) all) in Hin. apply elem_of_app in Hin as [Hin|Hin]; [by left|right].
      split.
      * rewrite length_take. assert (Z.to_nat limit < length all)%nat; [|lia].
        apply not_le. intros Hle. rewrite drop_ge in Hin by done. by apply elem_of_nil in Hin.
      * intros x Hx. by eapply StronglySorted_app_1_elem_of in Hsort.
Qed.

(** C8: a client that follows the cursor of [v4_content] from the start, in a live
    conversation and with any page size, reads every event of the turn exactly once
    and in order; each page is within the encoded bound and accepted by its
    validator, the texts together are the reply, and the walk ends after at most one
    page per event.  The turn may be active or ended; no caller wrote an end marker
    of its own into this run, since the walk stops at the first one. *)
Theorem transcript_is_read_completely `{!V4JsonLaws} (db : RunDb) (rid cid : string) (limit : Z)
    (Hs : rtc (step_beside rid) empty_run_db db) (Hc : conv_of db rid = Some cid) (Hlive : live db cid)
    (Hcount : message_count cid db <= MAX_SAFE_INTEGER) (Hlim : 1 <= limit <= MAX_V4_PAGE) :
  let all := transcript db cid rid 0 in
  read_all (S (length all)) (mkV4ContentQuery cid rid 0 limit) db = Ok all
  /\ StronglySorted in_order all
  /\ Forall (fun e => V4ContentEvent_validate e = Ok tt) all
  /\ (forall n row, assistant_content_events db !! (cid, n) = Some row -> ct_run_id row = rid ->
        mkV4ContentEvent cid rid n (ct_timestamp_ms row) (payload_at db cid n) ∈ all)
  /\ foldr (fun e acc => payload_text (ce_payload e) +:+ acc) EmptyString all = reply db cid rid.
Proof.
  destruct (beside_turns _ _ _ Hs ledger_empty (proj1 turns_empty) (proj2 turns_empty rid)) as (Hl & Ht & Hm).
  pose proof (steps_assistant _ _ (beside_steps _ _ _ Hs) assistant_empty) as Ha.
  pose proof Ht as [Hb Hco _ _ _]. intros all.
  destruct (conv_of_bound db rid cid Hb Hc) as (_ & _ & row & Hr & _). destruct (l_row _ Hl rid row Hr) as [[st Hv] _].
  assert (slen rid = 36) as Hlen by (eapply uuid_length, Hv).
  assert (exists c, conversation_row cid db = Ok (Some c)) as Hread.
  { destruct Hlive as (crow & Hcr & Hd). eexists.
    by apply (conversation_row_read db cid crow Hcr Hd (a_conversations _ Ha cid crow Hcr Hd) Hcount). }
  split; [|split; [by apply transcript_sorted|split; [|split]]].
  - apply (read_all_complete db cid rid _ Hb Hco Hm Hc Hlen Hread); try done; [by left|].
    apply Nat.lt_succ_diag_r.
  - apply Forall_forall. intros e (p & -> & Hp)%list_elem_of_fmap. by destruct (event_of_valid db cid rid p 0 Hco Hp) as (_ & ? & _).
  - intros n crow Hcr Hrun. apply list_elem_of_fmap. exists (n, crow). split; [done|]. apply elem_of_content.
    split; [done|]. split; [done|]. destruct (s_row _ Hco _ _ _ Hcr) as (_ & _ & ? & _). lia.
  - by apply transcript_texts.
Qed.
End Properties.
