(* ===== verification/TurnExample.v ===== *)
(** * A conversation with a finished turn, a turn in progress and a neighbour

    The store the examples of [TurnProps] are evaluated on, built by its calls. *)
From stdpp Require Import base list gmap strings sorting relations.
From Stdlib Require Import ZArith Lia.
From S2P Require Import Prelude RustStr External Digest Tables RunContract StoreBase AssistantContent RunStore TurnContract TurnStore TurnContext Preview RunLedger TurnLedger TurnMoves TurnSteps TurnHistory TurnAdmission TurnReferences TurnRead ContextProps TurnProps.
Import RunStateOps.

Open Scope Z_scope.
Open Scope rust_scope.

Import LedgerExample.
Import Fixture ContentFixture DigestFixture JsonFixture.

Definition conv1 : string := "00000000-0000-4000-8000-0000000000c1".
Definition conv2 : string := "00000000-0000-4000-8000-0000000000c2".
Definition at_ms (n : Z) : Tick := mkTick "t" n.
Definition submit1 : V4SubmitTurn := mkV4SubmitTurn conv1 "request-1" "abi.m" "Hello?".
Definition submit2 : V4SubmitTurn := mkV4SubmitTurn conv1 "request-2" "abi.m" "And then?".

(** Two conversations; a turn of the first is admitted and starts. *)
Definition opening : list (store_op * Tick) :=
  [(OpV4Create "Notes" conv1, at_ms 10); (OpV4Create "Other" conv2, at_ms 11);
   (OpV4Admit submit1 id1 "m1", at_ms 12);
   (OpTransition id1 Queued Starting (note "run_starting"), at_ms 13);
   (OpTransition id1 Starting Running (note "run_started"), at_ms 14)].
(** Its reply arrives in two pieces, it succeeds, and a second turn starts. *)
Definition reply_ops : list (store_op * Tick) :=
  [(OpV4Append id1 (TextDelta "Hi ") "a1", at_ms 15); (OpV4Append id1 (TextDelta "there.") "a2", at_ms 16);
   (OpTransition id1 Running Succeeded (note "run_succeeded"), at_ms 17);
   (OpV4Admit submit2 id2 "m2", at_ms 18);
   (OpTransition id2 Queued Starting (note "run_starting"), at_ms 19)].

Definition dbo : RunDb := play opening empty_run_db.
Definition dbr : RunDb := play reply_ops dbo.

Lemma play_beside w l db :
  Forall (fun p => typed p.1 /\ ~ self_marking w p.1) l -> rtc (step_beside w) db (play l db).
Proof.
  revert db. induction l as [|[op t] l IH]; intros db Hall; [constructor|].
  apply Forall_cons in Hall as [[Hty Ho] Hall]. eapply rtc_l; [|by apply IH].
  simpl. destruct (exec op t db) as [r db'] eqn:He. by econstructor.
Defined.

Lemma ascii_valid s : forallb (fun b => b <? 128) (bytes s) = true -> valid_utf8 s.
Proof.
  intros H. apply valid_utf8_ascii. eapply Forall_impl; [by apply forallb_Forall|]. intros b Hb. by apply Z.ltb_lt.
Qed.

Lemma opening_beside w : Forall (fun p => typed p.1 /\ ~ self_marking w p.1) opening.
Proof. repeat constructor; try discriminate; try (by apply ascii_valid); by intros []. Qed.
Lemma reply_beside w : Forall (fun p => typed p.1 /\ ~ self_marking w p.1) reply_ops.
Proof. repeat constructor; try discriminate; try (intros ? [= <-]); try (by apply ascii_valid); by intros []. Qed.
Lemma opening_typed : Forall (fun p => typed p.1) opening.
Proof. eapply Forall_impl; [exact (opening_beside id1)|]. by intros p [? _]. Qed.
Lemma reply_typed : Forall (fun p => typed p.1) reply_ops.
Proof. eapply Forall_impl; [exact (reply_beside id1)|]. by intros p [? _]. Qed.

Lemma dbr_beside w : rtc (step_beside w) empty_run_db dbr.
Proof.
  etrans; [apply play_beside, opening_beside|]. apply play_beside, reply_beside.
Qed.
Lemma dbr_steps : rtc store_step empty_run_db dbr.
Proof. apply (beside_steps id1), dbr_beside. Qed.
Lemma dbr_assistant : assistant dbr.
Proof. eapply steps_assistant; [apply dbr_steps|apply assistant_empty]. Qed.

Lemma store_calls_preserve_turns_witness :
  assistant dbr /\ conv_of dbr id2 = Some conv1 /\ last_content_sequence conv1 dbr = 3.
Proof.
  split; [|split; vm_compute; reflexivity].
  exact (store_calls_preserve_turns empty_run_db dbr assistant_empty dbr_steps).
Defined.

Lemma preview_shows_longest_prefix_witness :
  (exists id m, assistant_messages dbr !! id = Some m /\ m_role m = "assistant" /\ m_run_id m = id1)
  /\ reply dbr conv1 id1 = "Hi there.".
Proof.
  assert (reply dbr conv1 id1 = "Hi there.") as Hr by (vm_compute; reflexivity). split; [|exact Hr].
  apply (proj2 (preview_shows_longest_prefix dbr dbr_steps) id1 conv1); [vm_compute; reflexivity|].
  rewrite Hr. discriminate.
Defined.

Lemma one_turn_at_a_time_witness : live dbr conv1.
Proof.
  assert (active dbr id2) as Ha by (exists "starting"; split; vm_compute; reflexivity).
  refine (proj2 (one_turn_at_a_time dbr id2 id2 conv1 dbr_steps _ _ Ha Ha)); vm_compute; reflexivity.
Defined.

Lemma transcript_ends_with_the_final_state_witness :
  exists n row st, assistant_content_events dbr !! (conv1, n) = Some row /\ ct_run_id row = id1
    /\ assistant_content_payloads dbr !! (conv1, n) = Some (content_json (Terminal st))
    /\ status_of dbr id1 = Some (state_as_str st).
Proof.
  destruct (proj2 (proj2 (transcript_ends_with_the_final_state dbr id1 conv1 dbr_steps ltac:(vm_compute; reflexivity))
                     (dbr_beside id1)))
    as (n & row & st & ? & ? & ? & ? & _).
  - exists "succeeded". split; vm_compute; reflexivity.
  - eexists. split; vm_compute; reflexivity.
  - exists n, row, st. auto.
Defined.

Definition id3 : string := "00000000-0000-4000-8000-000000000003".
Definition submit3 : V4SubmitTurn := mkV4SubmitTurn conv1 "request-3" "abi.m" "More".

Lemma submit3_typed : typed (OpV4Admit submit3 id3 "m3").
Proof. repeat split. by apply ascii_valid. Qed.

Lemma submit3_unused : unused id3 "m3" dbr.
Proof.
  split; [vm_compute; reflexivity|]. split; [vm_compute; reflexivity|]. split; [vm_compute; reflexivity|].
  change (char_count "m3") with 2. lia.
Qed.

Lemma turn_admission_refines_protocol_witness :
  v4_admit_turn submit3 id3 "m3" 30 dbr = (Err AssistantConflict, dbr).
Proof.
  assert (next_message_sequence (st_conversation_id submit3) dbr = 4) as Hn by (vm_compute; reflexivity).
  assert (message_count (st_conversation_id submit3) dbr = 3) as Hm by (vm_compute; reflexivity).
  assert (find_key "request-3" dbr = None) as Hk by (vm_compute; reflexivity).
  assert (turn_refusal submit3 30 dbr = Some AssistantConflict) as Hr by (vm_compute; reflexivity).
  assert (admission submit3 id3 "m3" 30 dbr (v4_admit_turn submit3 id3 "m3" 30 dbr)) as Ha.
  { apply turn_admission_refines_protocol; [exact dbr_assistant|exact submit3_typed|exact submit3_unused|lia| |].
    - rewrite Hn. unfold MAX_SAFE_INTEGER. lia.
    - rewrite Hm. unfold MAX_SAFE_INTEGER. lia. }
  pose proof (proj1 (find_key_None _ _) Hk) as Hfresh. revert Ha.
  generalize (v4_admit_turn submit3 id3 "m3" 30 dbr). intros outcome Ha.
  destruct Ha as [e He|id row tn _ Hid Hkey|id row _ Hid Hkey|id row _ Hid Hkey|e _ _ He|db' _ _ He];
    [discriminate He|by destruct (Hfresh id row Hid)|by destruct (Hfresh id row Hid)|by destruct (Hfresh id row Hid)| |];
    congruence.
Defined.

(** The store right after the first submission. *)
Definition db_before : RunDb := play (take 2 opening) empty_run_db.
Definition db_after : RunDb := (v4_admit_turn submit1 id1 "m1" 12 db_before).2.

Lemma db_before_assistant : assistant db_before.
Proof.
  eapply steps_assistant; [apply play_steps|apply assistant_empty].
  eapply Forall_take, opening_typed.
Qed.

Lemma after_to_dbr : play (drop 3 opening ++ reply_ops) db_after = dbr.
Proof. vm_compute. reflexivity. Qed.

Lemma resubmission_returns_the_first_turn_witness :
  exists state, v4_admit_turn submit1 id3 "m3" 40 dbr
    = (Ok (mkV4TurnSubmission conv1 id1 "request-1" 1 state true), dbr).
Proof.
  assert (rtc store_step db_after dbr) as Hs.
  { rewrite <- after_to_dbr. apply play_steps, Forall_app.
    split; [apply Forall_drop, opening_typed|apply reply_typed]. }
  destruct (resubmission_returns_the_first_turn submit1 id1 "m1" 12 db_before db_after dbr
    (mkV4TurnSubmission conv1 id1 "request-1" 1 Queued false) db_before_assistant) with
    (s2 := submit1) (run2 := id3) (msg2 := "m3") (now2 := 40) as [state Heq].
  - repeat split. by apply ascii_valid.
  - apply injective_projections; vm_compute; reflexivity.
  - exact Hs.
  - vm_compute. reflexivity.
  - reflexivity.
  - exists state. rewrite Heq. rewrite !bool_decide_eq_true_2 by reflexivity. reflexivity.
Defined.

Lemma deletion_removes_exactly_one_transcript_witness :
  v4_delete_conversation conv1 50 dbr = (Err AssistantConflict, dbr)
  /\ exists db', v4_delete_conversation conv2 50 dbr = (Ok tt, db') /\ transcript_removed conv2 dbr db'.
Proof.
  assert (message_count conv1 dbr = 3) as H1 by (vm_compute; reflexivity).
  assert (message_count conv2 dbr = 0) as H2 by (vm_compute; reflexivity).
  assert (delete_refusal conv1 50 dbr = Some AssistantConflict) as R1 by (vm_compute; reflexivity).
  assert (delete_refusal conv2 50 dbr = None) as R2 by (vm_compute; reflexivity).
  pose proof (deletion_removes_exactly_one_transcript conv1 50 dbr dbr_assistant
    ltac:(rewrite H1; unfold MAX_SAFE_INTEGER; lia) ltac:(lia)) as D1.
  pose proof (deletion_removes_exactly_one_transcript conv2 50 dbr dbr_assistant
    ltac:(rewrite H2; unfold MAX_SAFE_INTEGER; lia) ltac:(lia)) as D2.
  rewrite R1 in D1. rewrite R2 in D2. by split.
Defined.

Lemma transitions_reach_the_transcript_witness :
  exists x db', transition_run id2 Starting Running (note "run_started") (at_ms 20) dbr = (Ok x, db')
    /\ status_of db' id2 = Some "running".
Proof.
  pose proof (transitions_reach_the_transcript id2 Starting Running (note "run_started") (at_ms 20) dbr dbr_assistant
    ltac:(simpl; unfold MAX_SAFE_INTEGER; lia)) as H.
  assert (transition_refusal (note "run_started") (found_of id2 dbr) id2 Starting Running = None) as Hr by (vm_compute; reflexivity).
  rewrite Hr in H. destruct H as (x & db' & Hop & Hst & _). exists x, db'. by split.
Defined.

(** The second turn starts to run with its event and its number; a clock beyond the
    integers JSON can carry lets it go on but not end. *)
Lemma transition_run_refines_witness :
  (exists x db' h, transition_run id2 Starting Running (note "run_started") (at_ms 20) dbr = (Ok x, db')
     /\ represents dbr id2 Starting h /\ ev_sequence x = Z.of_nat (length h) + 1
     /\ represents db' id2 Running (h ++ [event_row (note "run_started") "t"]))
  /\ transition_run id2 Starting Failed (note "run_failed") (at_ms 9007199254740992) dbr
     = (Err (CorruptData "content event invalid"), dbr).
Proof.
  pose proof (transition_run_refines id2 Starting Running (note "run_started") (at_ms 20) dbr dbr_assistant
    ltac:(simpl; lia)) as H1.
  pose proof (transition_run_refines id2 Starting Failed (note "run_failed") (at_ms 9007199254740992) dbr dbr_assistant
    ltac:(simpl; lia)) as H2.
  assert (transition_refusal (note "run_started") (found_of id2 dbr) id2 Starting Running = None) as R1 by (vm_compute; reflexivity).
  assert (marker_refusal dbr id2 Running (now_ms (at_ms 20)) = None) as M1 by (vm_compute; reflexivity).
  assert (transition_refusal (note "run_failed") (found_of id2 dbr) id2 Starting Failed = None) as R2 by (vm_compute; reflexivity).
  assert (marker_refusal dbr id2 Failed (now_ms (at_ms 9007199254740992)) = Some (CorruptData "content event invalid")) as M2
    by (vm_compute; reflexivity).
  rewrite R1, M1 in H1. rewrite R2, M2 in H2. split; [|exact H2].
  destruct H1 as (x & db' & Hop & Hh & _).
  assert (exists row, runs dbr !! id2 = Some row /\ c_status row = "starting") as (row & Hrow & Hst)
    by (eexists; split; vm_compute; reflexivity).
  destruct (ledger_represents dbr id2 row (a_ledger _ dbr_assistant) Hrow) as (s & h & Hrep).
  assert (s = Starting) as ->.
  { destruct Hrep as (row' & Hr' & Hv & _). assert (row' = row) as -> by congruence.
    pose proof (rv_status _ _ _ Hv) as E. rewrite Hst in E. by destruct s. }
  destruct (Hh h Hrep) as [Hq Hr]. exists x, db', h.
  split; [exact Hop|]. split; [exact Hrep|]. split; [exact Hq|exact Hr].
Defined.

(** A caller's own end marker: the store takes it, the turn goes on, and after its
    run failed the transcript still says that it succeeded. *)
Example self_written_marker :
  let db := play [(OpTransition id2 Starting Running (note "run_started"), at_ms 20);
                  (OpV4Append id2 (Terminal Succeeded) "a3", at_ms 21);
                  (OpV4Append id2 (TextDelta "more") "a4", at_ms 22);
                  (OpTransition id2 Running Failed (note "run_failed"), at_ms 23)] dbr in
  status_of db id2 = Some "failed"
  /\ map (fun p => (p.1, ct_kind p.2)) (content_after conv1 id2 0 db) = [(4, "completed"); (5, "output_bounded")]
  /\ assistant_content_payloads db !! (conv1, 4) = Some (content_json (Terminal Succeeded)).
Proof. vm_compute. repeat split; reflexivity. Qed.

Lemma recovery_ends_every_active_turn_witness :
  exists db', recover_interrupted_on (at_ms 60) dbr = (Ok 1, db') /\ marked db' id2.
Proof.
  destruct (recovery_ends_every_active_turn (at_ms 60) dbr dbr_assistant ltac:(simpl; unfold MAX_SAFE_INTEGER; lia))
    as (ids & db' & Hop & _ & _ & Hids & Hmk & _).
  - intros id s row [Hr _]. apply elem_of_map_to_list in Hr. vm_compute in Hr.
    repeat (apply elem_of_cons in Hr as [[= -> ->]|Hr]; [reflexivity|]). by apply elem_of_nil in Hr.
  - exists db'. split.
    + rewrite Hop. f_equal. transitivity (recover_interrupted_on (at_ms 60) dbr).1; [by rewrite Hop|].
      vm_compute. reflexivity.
    + apply Hmk; [|eexists; vm_compute; reflexivity]. apply Hids. apply elem_of_interrupted_active; [apply dbr_assistant|].
      assert (interrupted_ids dbr = [id2]) as -> by (vm_compute; reflexivity). left.
Defined.

(** There are three messages in all. *)
Lemma few_messages cid : message_count cid dbr <= 3.
Proof.
  unfold message_count.
  assert (size (filter (fun p : string * MessageRow => m_conversation_id p.2 = cid) (assistant_messages dbr))
          <= size (assistant_messages dbr))%nat as Hle by apply map_size_filter.
  assert (size (assistant_messages dbr) = 3%nat) as Hs by (vm_compute; reflexivity). lia.
Qed.

Lemma reads_yield_valid_records_witness :
  (exists c, v4_conversation conv1 dbr = (Ok c, dbr) /\ V4Conversation_validate c = Ok tt)
  /\ exists l, message_page conv1 None 50 dbr = Ok (map (message_view dbr) l).
Proof.
  destruct (reads_yield_valid_records dbr dbr_assistant) as [H1 H2].
  - intros cid. pose proof (few_messages cid). unfold MAX_SAFE_INTEGER. lia.
  - intros id m Hm. apply elem_of_map_to_list in Hm. vm_compute in Hm.
    repeat (apply elem_of_cons in Hm as [[= -> ->]|Hm]; [discriminate|]). by apply elem_of_nil in Hm.
  - split.
    + destruct (proj1 (H1 conv1)) as (c & Hc & Hv & _); [eexists; split; vm_compute; reflexivity|eauto].
    + destruct (H2 conv1 None 50) as (l & Hl & _); [simpl; unfold i64_max; lia|eauto].
Defined.

Lemma transcript_is_read_completely_witness :
  exists l, read_all 4 (mkV4ContentQuery conv1 id1 0 1) dbr = Ok l /\ length l = 3%nat.
Proof.
  assert (length (transcript dbr conv1 id1 0) = 3%nat) as Hlen by (vm_compute; reflexivity).
  pose proof (few_messages conv1) as Hf.
  destruct (transcript_is_read_completely dbr id1 conv1 1 (dbr_beside id1)) as [Hread _].
  - vm_compute. reflexivity.
  - eexists. split; vm_compute; reflexivity.
  - unfold MAX_SAFE_INTEGER. lia.
  - unfold MAX_V4_PAGE. lia.
  - rewrite Hlen in Hread. eauto.
Defined.

(** The second turn is told about the first one. *)
Lemma turn_context_is_recent_history_witness :
  v4_turn_context id2 submit2 24576 dbr
  = (Ok (mkV4TurnContext [mkV4ContextPair "Hello?" "Hi there."] false), dbr).
Proof.
  destruct (turn_context_is_recent_history id2 submit2 3 24576 dbr dbr_steps) as [H _].
  - vm_compute; reflexivity.
  - vm_compute; reflexivity.
  - exists "starting". split; vm_compute; reflexivity.
  - reflexivity || discriminate.
  - intros p Hp. exists false, ["Hi "; "there."].
    assert (p.1 = id1) as ->.
    { assert (map fst (take 32 (previous_turns submit2 3 dbr)) = [id1]) as Hl by (vm_compute; reflexivity).
      assert (p.1 ∈ map fst (take 32 (previous_turns submit2 3 dbr))) as Hin by (apply list_elem_of_fmap; eauto).
      rewrite Hl in Hin. by apply list_elem_of_singleton in Hin. }
    vm_compute; reflexivity.
  - etransitivity; [exact H|]. vm_compute. reflexivity.
Defined.
