(* ===== verification/RunPages.v ===== *)
(** * Event pages over a fixed watermark

    Theorems about the queries of [RunStore]: the gap check that guards every
    snapshot, the content of a page, and a client that walks the pages while
    the run goes on. *)
From stdpp Require Import base list gmap strings sorting.
From Stdlib Require Import ZArith Lia.
From S2P Require Import Prelude RustStr Tables External RunContract StoreBase AssistantContent RunStore RunLedger.
Import RunStateOps.

Open Scope Z_scope.
Open Scope rust_scope.

(** ** Lists *)
Lemma minimum_spec l m : minimum l = Some m <-> m ∈ l /\ forall x, x ∈ l -> m <= x.
Proof.
  destruct l as [|a l]; simpl.
  { split; [discriminate|]. by intros [?%elem_of_nil _]. }
  assert (foldr Z.min a l ∈ a :: l /\ forall x, x ∈ a :: l -> foldr Z.min a l <= x) as [Hin Hle].
  { induction l as [|b l [IH1 IH2]]; simpl.
    - split; [left|]. intros x [->|?%elem_of_nil]%elem_of_cons; [lia|done].
    - split.
      + destruct (Z.min_spec b (foldr Z.min a l)) as [[_ ->]|[_ ->]]; [right; left|].
        apply elem_of_cons in IH1 as [->|?]; [left|by right; right].
      + intros x Hx. assert (x = b \/ x ∈ a :: l) as [->|Hx'] by (rewrite !elem_of_cons in Hx; rewrite elem_of_cons; tauto); [lia|].
        specialize (IH2 x Hx'). lia. }
  split; [by intros [= <-]|]. intros [Hm Hmin]. f_equal.
  specialize (Hmin _ Hin). specialize (Hle _ Hm). lia.
Qed.

Lemma maximum_spec l m : maximum l = Some m <-> m ∈ l /\ forall x, x ∈ l -> x <= m.
Proof.
  destruct l as [|a l]; simpl.
  { split; [discriminate|]. by intros [?%elem_of_nil _]. }
  assert (foldr Z.max a l ∈ a :: l /\ forall x, x ∈ a :: l -> x <= foldr Z.max a l) as [Hin Hle].
  { induction l as [|b l [IH1 IH2]]; simpl.
    - split; [left|]. intros x [->|?%elem_of_nil]%elem_of_cons; [lia|done].
    - split.
      + destruct (Z.max_spec b (foldr Z.max a l)) as [[_ ->]|[_ ->]]; [|right; left].
        apply elem_of_cons in IH1 as [->|?]; [left|by right; right].
      + intros x Hx. assert (x = b \/ x ∈ a :: l) as [->|Hx'] by (rewrite !elem_of_cons in Hx; rewrite elem_of_cons; tauto); [lia|].
        specialize (IH2 x Hx'). lia. }
  split; [by intros [= <-]|]. intros [Hm Hmax]. f_equal.
  specialize (Hmax _ Hin). specialize (Hle _ Hm). lia.
Qed.

(** As many distinct numbers as there are from one to [w], none outside:
    nothing is missing. *)
Lemma gap_free (l : list Z) w :
  NoDup l -> Z.of_nat (length l) = w -> (forall x, x ∈ l -> 1 <= x <= w) ->
  forall x, x ∈ l <-> 1 <= x <= w.
Proof.
  intros Hnd Hlen Hb x. split; [apply Hb|]. intros Hx.
  assert (l ≡ₚ seqZ 1 w) as ->; [|by apply elem_of_seqZ; lia].
  apply submseteq_length_Permutation; [|rewrite length_seqZ; lia].
  apply NoDup_submseteq; [done|]. intros y Hy. apply elem_of_seqZ. specialize (Hb y Hy). lia.
Qed.

Lemma filter_none {A} (P : A -> Prop) `{!forall x, Decision (P x)} l :
  Forall (fun x => ~ P x) l -> filter P l = [].
Proof. induction 1 as [|x l Hx _ IH]; [done|]. by rewrite filter_cons_False. Qed.
Lemma filter_every {A} (P : A -> Prop) `{!forall x, Decision (P x)} l :
  Forall P l -> filter P l = l.
Proof. induction 1 as [|x l Hx _ IH]; [done|]. by rewrite filter_cons_True, IH. Qed.

Section Pages.
Context `{External} `{ContentCodec}.

(** ** The ordered events of a run *)
Lemma elem_of_events id n ev db : (n, ev) ∈ events_of id db <-> run_events db !! (id, n) = Some ev.
Proof.
  unfold events_of. rewrite merge_sort_Permutation, list_elem_of_omap. split.
  - intros ([[id' n'] ev'] & Hin%elem_of_map_to_list & Hf). unfold event_of_run in Hf. simpl in Hf.
    case_bool_decide; [|discriminate]. by simplify_eq.
  - intros Hev. exists ((id, n), ev). split; [by apply elem_of_map_to_list|].
    unfold event_of_run. simpl. by rewrite bool_decide_eq_true_2.
Qed.

Lemma events_of_NoDup id db : NoDup (events_of id db).
Proof.
  unfold events_of. rewrite merge_sort_Permutation. apply NoDup_omap; [|apply NoDup_map_to_list].
  intros [[id1 n1] e1] [[id2 n2] e2] z. unfold event_of_run. simpl.
  case_bool_decide; [|discriminate]. intros [= <-].
  case_bool_decide; [|discriminate]. intros [= <- <-]. congruence.
Qed.

Lemma sequences_NoDup id db : NoDup (map fst (events_of id db)).
Proof.
  apply NoDup_fmap_2_strong; [|apply events_of_NoDup].
  intros [n1 e1] [n2 e2] H1%elem_of_events H2%elem_of_events Heq. simpl in Heq. subst. congruence.
Qed.

Lemma elem_of_sequences id n db :
  n ∈ map fst (events_of id db) <-> is_Some (run_events db !! (id, n)).
Proof.
  rewrite list_elem_of_fmap. split.
  - intros ([n' ev] & -> & Hin%elem_of_events). by eexists.
  - intros [ev Hev]. exists (n, ev). split; [done|by apply elem_of_events].
Qed.

Definition numbered (h : list EventRow) : list (Z * EventRow) :=
  imap (fun i ev => (Z.of_nat i + 1, ev)) h.

Lemma numbered_lookup h i p :
  numbered h !! i = Some p <-> exists ev, h !! i = Some ev /\ p = (Z.of_nat i + 1, ev).
Proof.
  unfold numbered. rewrite list_lookup_imap. destruct (h !! i) as [ev|]; simpl; split.
  - intros [= <-]. eauto.
  - by intros (? & [= <-] & ->).
  - discriminate.
  - by intros (? & ? & _).
Qed.

Lemma elem_of_numbered h n ev :
  (n, ev) ∈ numbered h <-> 1 <= n /\ h !! Z.to_nat (n - 1) = Some ev.
Proof.
  rewrite list_elem_of_lookup. setoid_rewrite numbered_lookup. split.
  - intros (i & ev' & Hi & [= -> ->]). split; [lia|]. by replace (Z.to_nat (Z.of_nat i + 1 - 1)) with i by lia.
  - intros [Hn Hi]. exists (Z.to_nat (n - 1)), ev. split; [done|]. f_equal. lia.
Qed.

Lemma numbered_ordered h : StronglySorted sequence_le (numbered h).
Proof.
  unfold numbered. assert (forall m, StronglySorted sequence_le
    (imap (fun i ev => (Z.of_nat (m + i) + 1, ev)) h)) as Hm; [|exact (Hm 0%nat)].
  induction h as [|ev h IH]; intros m; simpl; constructor.
  - erewrite imap_ext; [exact (IH (S m))|]. intros i x _. simpl. f_equal. lia.
  - apply Forall_lookup. intros i p. rewrite list_lookup_imap. destruct (h !! i); [|done].
    intros [= <-]. unfold sequence_le. simpl. lia.
Qed.

#[local] Instance sequence_le_total : Total sequence_le.
Proof. intros a b. unfold sequence_le. lia. Qed.
#[local] Instance sequence_le_trans : Transitive sequence_le.
Proof. intros a b c. unfold sequence_le. lia. Qed.

Lemma events_of_represents db id s h : represents db id s h -> events_of id db = numbered h.
Proof.
  intros (row & _ & _ & _ & Hh).
  assert (forall p, p ∈ events_of id db <-> p ∈ numbered h) as Hmem.
  { intros [n ev]. rewrite elem_of_events, elem_of_numbered. apply Hh. }
  apply (StronglySorted_unique_strong sequence_le).
  - intros [n1 e1] [n2 e2] H1 H2%Hmem L1 L2. unfold sequence_le in *. simpl in *.
    assert (n1 = n2) as -> by lia. apply elem_of_events in H1, H2. congruence.
  - apply StronglySorted_merge_sort; apply _.
  - apply numbered_ordered.
  - apply NoDup_Permutation; [apply events_of_NoDup| |done].
    apply NoDup_alt. intros i j p Hi Hj.
    apply numbered_lookup in Hi as (ev & _ & ->), Hj as (ev' & _ & Heq). injection Heq as ? _. lia.
Qed.

Lemma length_numbered h : length (numbered h) = length h.
Proof. apply length_imap. Qed.

Lemma filter_numbered h (a w : nat) :
  (a <= w <= length h)%nat ->
  filter (fun p : Z * EventRow => Z.of_nat a < p.1 /\ p.1 <= Z.of_nat w) (numbered h)
  = drop a (take w (numbered h)).
Proof.
  intros Haw.
  rewrite <- (take_drop w (numbered h)) at 1. rewrite filter_app.
  rewrite <- (take_drop a (take w (numbered h))) at 1. rewrite filter_app.
  assert (forall i p, numbered h !! i = Some p -> p.1 = Z.of_nat i + 1) as Hp.
  { intros i p (ev & _ & ->)%numbered_lookup. done. }
  rewrite (filter_none _ (take a _)), (filter_every _ (drop a _)), (filter_none _ (drop w _)).
  - by rewrite app_nil_r.
  - apply Forall_lookup. intros i p Hi. rewrite lookup_drop in Hi. rewrite (Hp _ _ Hi). lia.
  - apply Forall_lookup. intros i p Hi. rewrite lookup_drop, lookup_take_Some in Hi.
    destruct Hi as [Hi ?]. rewrite (Hp _ _ Hi). lia.
  - apply Forall_lookup. intros i p Hi. rewrite !lookup_take_Some in Hi.
    destruct Hi as [[Hi ?] ?]. rewrite (Hp _ _ Hi). lia.
Qed.

(** ** The gap check *)
Lemma validate_event_snapshot_iff id w db :
  validate_event_snapshot id w db = Ok tt <->
  1 <= w <= i64_max /\ forall n, is_Some (run_events db !! (id, n)) <-> 1 <= n <= w.
Proof.
  unfold validate_event_snapshot. setoid_rewrite <- elem_of_sequences.
  pose proof (sequences_NoDup id db) as Hnd. set (l := map fst (events_of id db)) in *.
  unfold sql_sequence. destruct (Z.leb_spec w i64_max); [|split; [discriminate|lia]].
  destruct (Z.eqb_spec (Z.of_nat (length l)) w) as [Hlen|Hlen]; simpl.
  - destruct (bool_decide (minimum l = Some 1)) eqn:Hmin; simpl; bools.
    + destruct (bool_decide (maximum l = Some w)) eqn:Hmax; simpl; bools.
      * split; [intros _|done]. apply minimum_spec in Hmin as [Hone Hmin]. apply maximum_spec in Hmax as [Hw Hmax].
        split; [split; [by apply Hmin|done]|]. apply gap_free; [done..|]. auto.
      * split; [discriminate|]. intros [Hb Hall]. destruct Hmax. apply maximum_spec.
        split; [apply Hall; lia|]. intros x Hx%Hall. lia.
    + split; [discriminate|]. intros [Hb Hall]. destruct Hmin. apply minimum_spec.
      split; [apply Hall; lia|]. intros x Hx%Hall. lia.
  - split; [discriminate|]. intros [Hb Hall]. destruct Hlen.
    assert (l ≡ₚ seqZ 1 w) as ->; [|rewrite length_seqZ; lia].
    apply NoDup_Permutation; [done|apply NoDup_seqZ|]. intros x. rewrite Hall, elem_of_seqZ. lia.
Qed.

(** ** Readable runs *)

(** The record an event becomes at the application boundary; the latest event
    is checked against the state of the run. *)
Definition projects (id : string) (s : RunState) (total : nat) (p : Z * EventRow)
    (rec : RunEventRecord) : Prop :=
  exists e, row_to_event id p.1 p.2 = Ok e
    /\ project_run_event e (if p.1 =? Z.of_nat total then Some s else None) = Ok rec.

(** Run [id] can be shown to a client as the records [recs]. *)
Definition readable (db : RunDb) (id : string) (recs : list RunEventRecord) : Prop :=
  ledger (core db)
  /\ exists s h, represents db id s h /\ Forall2 (projects id s (length h)) (numbered h) recs.

(** A client that follows [next_after_sequence] until [has_more] is false; page
    [k] is read from the database [dbs k], which other calls may have changed. *)
Fixpoint walk (fuel : nat) (dbs : nat -> RunDb) (k : nat) (id : RunId) (after w limit : Z)
    : result StoreError (list RunEventRecord) :=
  match fuel with
  | O => Err (CorruptData "out of fuel")
  | S fuel' =>
      match fst (run_events_page id after (Some w) limit (dbs k)) with
      | Err e => Err e
      | Ok page =>
          if pg_has_more page
          then let? rest := walk fuel' dbs (S k) id (pg_next_after_sequence page) w limit in
               Ok (pg_events page ++ rest)
          else Ok (pg_events page)
      end
  end.

Lemma project_run_event_ok e st rec :
  project_run_event e st = Ok rec ->
  er_run_id rec = ev_run_id e /\ er_sequence rec = ev_sequence e
  /\ RunEventRecord_validate rec = Ok tt.
Proof.
  unfold project_run_event. destruct (project_kind e st) as [k|]; [|discriminate].
  destruct (match st with Some _ => _ | None => _ end); [discriminate|].
  destruct (RunEventRecord_validate _) as [[]|] eqn:Hv; [|discriminate].
  intros [= <-]. done.
Qed.

Lemma row_to_event_ok id n row e :
  row_to_event id n row = Ok e -> ev_run_id e = id /\ ev_sequence e = n.
Proof.
  unfold row_to_event. destruct (parse_run_id id) as [id'|] eqn:Hid; [|discriminate]. simpl.
  apply parse_run_id_ok in Hid as [-> _].
  destruct (n <? 0); [discriminate|]. destruct (json_from_str _); [|discriminate]. by intros [= <-].
Qed.

Lemma readable_lookup id s h recs i rec :
  Forall2 (projects id s (length h)) (numbered h) recs -> recs !! i = Some rec ->
  er_run_id rec = id /\ er_sequence rec = Z.of_nat i + 1 /\ RunEventRecord_validate rec = Ok tt.
Proof.
  intros Hall Hi. destruct (Forall2_lookup_r _ _ _ _ _ Hall Hi) as (p & Hp & e & He & Hrec).
  apply numbered_lookup in Hp as (ev & _ & ->). apply row_to_event_ok in He as [Hid Hn].
  apply project_run_event_ok in Hrec as (-> & -> & ?). by rewrite Hn.
Qed.

Lemma readable_snapshot db id recs :
  readable db id recs ->
  exists s h row, represents db id s h /\ Forall2 (projects id s (length h)) (numbered h) recs
    /\ runs db !! id = Some row /\ row_valid id row s /\ length h = length recs
    /\ watermark_of (decoded id row s) = Ok (Z.of_nat (length recs))
    /\ validate_event_snapshot id (Z.of_nat (length recs)) db = Ok tt
    /\ Z.of_nat (length recs) < i64_max.
Proof.
  intros (Hl & s & h & Hrep & Hall). pose proof Hrep as (row & Hr & Hv & Hn & Hh).
  assert (length h = length recs) as Hlen by (rewrite <- length_numbered; by eapply Forall2_length).
  destruct (l_row _ Hl id row Hr) as [_ Hb].
  exists s, h, row. split; [done|]. split; [done|]. split; [done|]. split; [done|]. split; [done|].
  assert (Z.of_nat (length recs) = c_next_event_sequence row - 1) as Hw by lia. split; [|split; [|lia]].
  - unfold watermark_of, u64_checked_sub. simpl.
    destruct (Z.leb_spec 1 (c_next_event_sequence row)); [|lia].
    destruct (Z.ltb_spec 0 (c_next_event_sequence row - 1)); [by rewrite Hw|lia].
  - apply validate_event_snapshot_iff. split; [lia|]. intros n. split.
    + intros [ev [? Hi]%Hh]. apply lookup_lt_Some in Hi. lia.
    + intros Hn'. apply (l_complete _ Hl id row n Hr). lia.
Qed.

Definition page_events (recs : list RunEventRecord) (after w limit : nat) : list RunEventRecord :=
  take limit (drop after (take w recs)).

Lemma length_page_events recs after w limit :
  (w <= length recs)%nat -> length (page_events recs after w limit) = Nat.min limit (w - after).
Proof. intros Hw. unfold page_events. rewrite length_take, length_drop, length_take. lia. Qed.

(** The page a readable run answers with. *)
Definition page_of (id : string) (recs : list RunEventRecord) (after w limit : nat) : RunEventPage :=
  let events := page_events recs after w limit in
  mkRunEventPage id events (Z.of_nat after) (Z.of_nat (after + length events)) (Z.of_nat w)
    (Z.of_nat (after + length events) <? Z.of_nat w).

Lemma page_of_valid db id recs (after w limit : nat) :
  readable db id recs -> (1 <= limit <= 16)%nat -> (after <= w <= length recs)%nat ->
  valid_page (page_of id recs after w limit).
Proof.
  intros Hrd Hlim Hw. destruct (readable_snapshot _ _ _ Hrd)
    as (s & h & row & _ & Hall & _ & _ & _ & _ & _ & Hmax).
  pose proof (length_page_events recs after w limit ltac:(lia)) as Hlen.
  unfold valid_page, page_of. simpl. rewrite Hlen. unfold MAX_RUN_EVENT_PAGE, u64_max, i64_max in *.
  split; [lia|]. split; [lia|]. split; [|split; [lia|split; [lia|split; [done|]]]].
  - split; [right; rewrite Hlen; unfold u64_max; lia|]. intros i rec Hi.
    unfold page_events in Hi. rewrite lookup_take_Some, lookup_drop, lookup_take_Some in Hi.
    destruct Hi as [[Hi _] _]. destruct (readable_lookup _ _ _ _ _ _ Hall Hi) as (? & Hs & ?).
    repeat split; [done..|]. rewrite Hs. lia.
  - intros Hnil. rewrite Hnil in Hlen. simpl in Hlen. apply Z.ltb_ge. lia.
Qed.

Lemma Forall2_page {A} (R : A -> RunEventRecord -> Prop) l recs (after w limit : nat) :
  Forall2 R l recs ->
  Forall2 R (take limit (drop after (take w l))) (page_events recs after w limit).
Proof. intros Hall. by apply Forall2_take, Forall2_drop, Forall2_take. Qed.

(** The two passes over the selected rows: decode, then project. *)
Lemma decode_then_project id s (total : nat) l recs :
  Forall2 (projects id s total) l recs ->
  exists raws, map_result (fun p => row_to_event id p.1 p.2) l = Ok raws
    /\ map_result (fun event => project_run_event event
         (if ev_sequence event =? Z.of_nat total then Some s else None)) raws = Ok recs.
Proof.
  induction 1 as [|p rec l recs (e & He & Hrec) _ (raws & Hraws & Hrecs)]; [by exists []|].
  exists (e :: raws). simpl. rewrite He, Hraws. split; [done|].
  apply row_to_event_ok in He as [_ Hn]. by rewrite Hn, Hrec, Hrecs.
Qed.

Lemma page_last recs id s h (after w limit : nat) :
  Forall2 (projects id s (length h)) (numbered h) recs -> (after <= w <= length recs)%nat ->
  match last (page_events recs after w limit) with
  | Some r => er_sequence r | None => Z.of_nat after
  end = Z.of_nat (after + length (page_events recs after w limit)).
Proof.
  intros Hall Hw. destruct (last _) as [r|] eqn:Hl.
  - rewrite last_lookup in Hl. pose proof (lookup_lt_Some _ _ _ Hl) as Hlt.
    remember (pred _) as n eqn:Hn in Hl, Hlt.
    unfold page_events in Hl. rewrite lookup_take_Some, lookup_drop, lookup_take_Some in Hl.
    destruct Hl as [[Hi _] _]. destruct (readable_lookup _ _ _ _ _ _ Hall Hi) as (_ & -> & _). lia.
  - apply last_None in Hl as ->. simpl. lia.
Qed.

Lemma run_events_page_readable db (id : string) recs (after w limit : nat) :
  readable db id recs -> (1 <= limit <= 16)%nat -> (after <= w <= length recs)%nat -> (0 < w)%nat ->
  run_events_page id (Z.of_nat after) (Some (Z.of_nat w)) (Z.of_nat limit) db
  = (Ok (page_of id recs after w limit), db).
Proof.
  intros Hrd Hlim Hw Hpos. destruct (readable_snapshot _ _ _ Hrd)
    as (s & h & row & Hrep & Hall & Hr & Hv & Hlen & Hwm & Hsnap & Hmax).
  unfold run_events_page, tread. f_equal. unfold MAX_RUN_EVENT_PAGE.
  rewrite (proj2 (Z.leb_le 1 (Z.of_nat limit))), (proj2 (Z.leb_le (Z.of_nat limit) 16)) by lia. simpl.
  rewrite andb_false_r, (proj2 (require_run_ok id db (decoded id row s))) by eauto.
  rewrite Hwm, Hsnap. simpl.
  rewrite (proj2 (Z.eqb_neq (Z.of_nat w) 0)) by lia.
  rewrite (proj2 (Z.ltb_ge (Z.of_nat (length recs)) (Z.of_nat w))) by lia. simpl.
  rewrite (proj2 (Z.ltb_ge (Z.of_nat w) (Z.of_nat after))) by lia.
  unfold sql_sequence. rewrite (proj2 (Z.leb_le (Z.of_nat after) i64_max)) by lia.
  rewrite (proj2 (Z.leb_le (Z.of_nat w) i64_max)) by lia.
  rewrite (events_of_represents db id s h Hrep), filter_numbered, Nat2Z.id by lia.
  destruct (decode_then_project id s (length h) _ _ (Forall2_page _ _ _ after w limit Hall))
    as (raws & -> & Hrecs).
  rewrite Hlen in Hrecs. rewrite Hrecs, (page_last recs id s h) by done.
  fold (page_of id recs after w limit).
  by rewrite (proj2 (RunEventPage_validate_ok _) (page_of_valid db id recs after w limit Hrd Hlim Hw)).
Qed.

Lemma page_events_prefix recs recs' (after w limit : nat) :
  take w recs = take w recs' -> page_events recs after w limit = page_events recs' after w limit.
Proof. intros Heq. unfold page_events. by rewrite Heq. Qed.

Lemma walk_complete fuel dbs k (id : string) base (after w limit : nat) :
  (1 <= limit <= 16)%nat -> (0 < w)%nat -> (after <= w)%nat -> (w - after <= fuel)%nat -> (0 < fuel)%nat ->
  (forall k, exists recs, readable (dbs k) id recs /\ (w <= length recs)%nat /\ take w recs = base) ->
  walk fuel dbs k id (Z.of_nat after) (Z.of_nat w) (Z.of_nat limit) = Ok (drop after base).
Proof.
  intros Hlim Hw. revert k after. induction fuel as [|fuel IH]; intros k after Ha Hf Hf0 Hdbs; [lia|].
  destruct (Hdbs k) as (recs & Hrd & Hlen & Hbase). cbn [walk].
  rewrite (run_events_page_readable _ id recs) by (done || lia). cbn [fst].
  pose proof (length_page_events recs after w limit ltac:(lia)) as Hpl.
  unfold page_of. cbn [pg_has_more pg_next_after_sequence pg_events]. rewrite Hpl.
  assert (page_events recs after w limit = take limit (drop after base)) as ->
    by (unfold page_events; by rewrite Hbase).
  assert (length base = w) as Hbl by (rewrite <- Hbase, length_take; lia).
  destruct (Z.ltb_spec (Z.of_nat (after + Nat.min limit (w - after))) (Z.of_nat w)).
  - rewrite (Nat.min_l limit) in * by lia. rewrite IH by (done || lia).
    by rewrite <- drop_drop, take_drop.
  - f_equal. apply take_ge. rewrite length_drop. lia.
Qed.

(** ** Properties *)

(** The gap check that guards every snapshot and page (a count, a minimum and a
    maximum) accepts a run exactly when its stored event numbers are all of
    1, 2, .. up to the watermark and nothing else. *)
Theorem gap_check_is_exact (id : string) (w : Z) (db : RunDb) :
  validate_event_snapshot id w db = Ok tt <->
  1 <= w <= i64_max /\ forall n, is_Some (run_events db !! (id, n)) <-> 1 <= n <= w.
Proof. exact (validate_event_snapshot_iff id w db). Qed.

(** Paging is complete and snapshot-consistent: a client that fixed the
    watermark [w] and follows the cursors with any page size from 1 to 16 gets,
    after at most [w] pages, exactly the first [w] records in order, each once,
    even when the run gains events between the pages; every single page also
    passes the contract of [RunEventPage::validate]. *)
Theorem paging_is_complete (dbs : nat -> RunDb) (id : string) (base : list RunEventRecord)
    (w limit : nat) (Hlim : (1 <= limit <= 16)%nat) (Hw : (0 < w)%nat)
    (Hdbs : forall k, exists recs,
        readable (dbs k) id recs /\ (w <= length recs)%nat /\ take w recs = base) :
  walk w dbs 0 id 0 (Z.of_nat w) (Z.of_nat limit) = Ok base
  /\ forall k (after : nat), (after <= w)%nat ->
       exists page, run_events_page id (Z.of_nat after) (Some (Z.of_nat w)) (Z.of_nat limit) (dbs k)
                    = (Ok page, dbs k)
         /\ pg_events page = take limit (drop after base) /\ valid_page page.
Proof.
  split; [by rewrite (walk_complete w dbs 0 id base 0) by (done || lia)|].
  intros k after Ha. destruct (Hdbs k) as (recs & Hrd & Hlen & Hbase).
  exists (page_of id recs after w limit).
  split; [by apply run_events_page_readable|]. split; [simpl; unfold page_events; by rewrite Hbase|].
  by eapply page_of_valid.
Qed.
End Pages.

(** ** An instance: the run of [LedgerExample], read while it finishes *)
Module PagesExample.
Import Fixture ContentFixture LedgerExample.

Definition rec (n : Z) (at_ : string) (ev : RunLifecycleEvent) : RunEventRecord :=
  mkRunEventRecord id1 n at_ ev.
Definition recs3 : list RunEventRecord := [rec 1 "1" EvQueued; rec 2 "3" EvStarting; rec 3 "4" EvRunning].
Definition recs4 : list RunEventRecord := recs3 ++ [rec 4 "5" EvSucceeded].

Definition history4 : list EventRow :=
  [mkEventRow "run_queued" "{}" "1"; mkEventRow "run_starting" "{}" "3"; mkEventRow "run_started" "{}" "4"].
Definition history5 : list EventRow := history4 ++ [mkEventRow "run_succeeded" "{}" "5"].

(** A history is the one the store holds when the ordered query returns it. *)
Lemma represents_of_query db s h row :
  runs db !! id1 = Some row -> row_valid id1 row s ->
  c_next_event_sequence row = Z.of_nat (length h) + 1 ->
  events_of id1 db = numbered h -> represents db id1 s h.
Proof.
  intros Hr Hv Hn He. exists row. split; [done|]. split; [done|]. split; [done|].
  intros n ev. by rewrite <- elem_of_events, He, elem_of_numbered.
Qed.

Ltac project_records :=
  repeat first [apply Forall2_nil_2 | apply Forall2_cons_2];
  eexists; split; vm_compute; reflexivity.

Lemma readable_db4 : readable db4 id1 recs3.
Proof.
  split; [exact ledger_db4|]. exists Running, history4. split.
  - apply (represents_of_query _ _ _ row4); try (vm_compute; reflexivity).
    constructor; try reflexivity; [discriminate|simpl; lia].
  - project_records.
Qed.

Lemma readable_db5 : readable db5 id1 recs4.
Proof.
  split; [exact ledger_db5|]. exists Succeeded, history5. split.
  - apply (represents_of_query _ _ _ row5); try (vm_compute; reflexivity).
    constructor; try reflexivity; [discriminate|simpl; lia].
  - project_records.
Qed.

Lemma paging_is_complete_witness :
  walk 3 (fun k => match k with O => db4 | _ => db5 end) 0 id1 0 3 2 = Ok recs3.
Proof.
  refine (proj1 (paging_is_complete _ id1 recs3 3 2 _ _ _)); [lia|lia|].
  intros [|k].
  - exists recs3. split; [exact readable_db4|]. split; [simpl; lia|reflexivity].
  - exists recs4. split; [exact readable_db5|]. split; [simpl; lia|reflexivity].
Defined.
End PagesExample.
