(* ===== verification/ToolApproval.v ===== *)
(** * Tool approvals (src/src/runtime/store/tool_approval.rs)

    Durable approvals of single tool calls: created pending with a bounded
    lifetime, decided, cancelled or expired, and consumed by an execution
    ([ToolExecution]).  The tables carry the constraints of migrations 5 and 6. *)
From stdpp Require Import base list gmap strings sorting.
From Stdlib Require Import ZArith Lia.
From S2P Require Import Prelude RustStr RunContract StoreBase.

Open Scope Z_scope.
Open Scope rust_scope.

Definition MAX_TOOL_APPROVAL_TTL_MS : Z := 15 * 60 * 1000.

Inductive ToolApprovalState := APending | AApproved | ADenied | ACancelled | AExpired | AConsumed.
#[export] Instance ToolApprovalState_eq_dec : EqDecision ToolApprovalState.
Proof. solve_decision. Defined.

Module ToolApprovalStateOps.
Definition as_str (s : ToolApprovalState) : string :=
  match s with
  | APending => "pending"
  | AApproved => "approved"
  | ADenied => "denied"
  | ACancelled => "cancelled"
  | AExpired => "expired"
  | AConsumed => "consumed"
  end.

Definition parse (value : string) : result StoreError ToolApprovalState :=
  if bool_decide (value = "pending") then Ok APending
  else if bool_decide (value = "approved") then Ok AApproved
  else if bool_decide (value = "denied") then Ok ADenied
  else if bool_decide (value = "cancelled") then Ok ACancelled
  else if bool_decide (value = "expired") then Ok AExpired
  else if bool_decide (value = "consumed") then Ok AConsumed
  else Err (CorruptData "tool approval state is invalid").
End ToolApprovalStateOps.
Import ToolApprovalStateOps.

Record ToolApprovalRecord := mkToolApprovalRecord {
  ta_call_id : string;
  ta_tool_id : string;
  ta_call_digest : string;
  ta_state : ToolApprovalState;
  ta_decision_id : option string;
  ta_cancellation_id : option string;
  ta_created_at_ms : Z;
  ta_expires_at_ms : Z;
  ta_updated_at_ms : Z;
}.

Record NewToolApproval := mkNewToolApproval {
  nt_call_id : string;
  nt_tool_id : string;
  nt_call_digest : string;
  nt_created_at_ms : Z;
  nt_expires_at_ms : Z;
}.

Inductive ToolApprovalDecision := Approve | Deny.

Record ToolApprovalEvent := mkToolApprovalEvent {
  te_sequence : Z;
  te_call_id : string;
  te_state : ToolApprovalState;
  te_decision_id : option string;
  te_cancellation_id : option string;
  te_occurred_at_ms : Z;
}.

(** ** Tables *)
Record ApprovalRow := mkApprovalRow {
  ap_tool_id : string;
  ap_call_digest : string;
  ap_state : string;
  ap_decision_id : option string;
  ap_cancellation_id : option string;
  ap_created_at_ms : Z;
  ap_expires_at_ms : Z;
  ap_updated_at_ms : Z;
}.
Record ApprovalEventRow := mkApprovalEventRow {
  ape_sequence : Z;
  ape_call_id : string;
  ape_state : string;
  ape_decision_id : option string;
  ape_cancellation_id : option string;
  ape_occurred_at_ms : Z;
}.
Record ExecutionRow := mkExecutionRow {
  ex_execution_id : string;
  ex_state : string;
  ex_result_digest : option string;
  ex_started_at_ms : Z;
  ex_finished_at_ms : option Z;
}.
Record ExecutionEventRow := mkExecutionEventRow {
  exe_sequence : Z;
  exe_call_id : string;
  exe_execution_id : string;
  exe_state : string;
  exe_result_digest : option string;
  exe_occurred_at_ms : Z;
}.

(** The governed tables are written by another component; these operations read
    the identifiers they reserve: (execution, call) of each intent, and the
    calls with a preview. *)
Record ToolDb := mkToolDb {
  tool_approvals : gmap string ApprovalRow;
  approval_events : list ApprovalEventRow;
  tool_executions : gmap string ExecutionRow;
  execution_events : list ExecutionEventRow;
  governed_tool_intents : list (string * string);
  governed_approval_previews : gset string;
}.
Definition empty_tool_db : ToolDb := mkToolDb ∅ [] ∅ [] [] ∅.

Definition set_approvals t db :=
  mkToolDb t (approval_events db) (tool_executions db) (execution_events db)
    (governed_tool_intents db) (governed_approval_previews db).
Definition set_approval_events t db :=
  mkToolDb (tool_approvals db) t (tool_executions db) (execution_events db)
    (governed_tool_intents db) (governed_approval_previews db).
Definition set_executions t db :=
  mkToolDb (tool_approvals db) (approval_events db) t (execution_events db)
    (governed_tool_intents db) (governed_approval_previews db).
Definition set_execution_events t db :=
  mkToolDb (tool_approvals db) (approval_events db) (tool_executions db) t
    (governed_tool_intents db) (governed_approval_previews db).

Definition is_some {A} (o : option A) : bool := match o with Some _ => true | None => false end.

(** The CHECK clauses of [tool_approvals]. *)
Definition digest_check (d : string) : bool := (slen d =? 64) && forallb is_lower_hex (bytes d).

Definition approval_shape (row : ApprovalRow) : bool :=
  let s := ap_state row in
  let decided := is_some (ap_decision_id row) in
  let cancelled := is_some (ap_cancellation_id row) in
  (bool_decide (s = "pending") && negb decided && negb cancelled)
  || ((bool_decide (s = "approved") || bool_decide (s = "denied") || bool_decide (s = "consumed"))
      && decided && negb cancelled)
  || (bool_decide (s = "cancelled") && cancelled)
  || (bool_decide (s = "expired") && negb cancelled).

Definition approval_check (row : ApprovalRow) : bool :=
  digest_check (ap_call_digest row) && is_ok (parse (ap_state row))
  && (0 <=? ap_created_at_ms row) && (ap_created_at_ms row <? ap_expires_at_ms row)
  && (ap_created_at_ms row <=? ap_updated_at_ms row) && approval_shape row.

(** A UNIQUE column: another row already holds the (non-null) value. *)
Definition taken {K V} `{Countable K} (column : V -> option string) (key : K) (value : option string)
    (t : gmap K V) : bool :=
  match value with
  | None => false
  | Some v => existsb (fun p => negb (bool_decide (p.1 = key)) && bool_decide (column p.2 = Some v))
                (map_to_list t)
  end.

Definition approval_unique_violation (call_id : string) (row : ApprovalRow)
    (t : gmap string ApprovalRow) : bool :=
  taken ap_decision_id call_id (ap_decision_id row) t
  || taken ap_cancellation_id call_id (ap_cancellation_id row) t.

(** Store a row under its call, enforcing the constraints. *)
Definition put_approval (call_id : string) (row : ApprovalRow) : Tx ToolDb StoreError unit := fun db =>
  if negb (approval_check row) then (Err (Database ConstraintCheck), db)
  else if approval_unique_violation call_id row (tool_approvals db)
  then (Err (Database ConstraintUnique), db)
  else (Ok tt, set_approvals (<[call_id := row]> (tool_approvals db)) db).

(** [UPDATE tool_approvals SET .. WHERE call_id=.. AND state IN (..)]: the
    number of changed rows. *)
Definition update_approval (call_id : string) (states : list string)
    (f : ApprovalRow -> ApprovalRow) : Tx ToolDb StoreError Z := fun db =>
  match tool_approvals db !! call_id with
  | Some row =>
      if existsb (fun s => bool_decide (ap_state row = s)) states
      then (put_approval call_id (f row) ;; tret 1) db
      else (Ok 0, db)
  | None => (Ok 0, db)
  end.

(** [INSERT OR IGNORE]: a row that violates a constraint is skipped. *)
Definition insert_or_ignore_approval (call_id : string) (row : ApprovalRow)
    : Tx ToolDb StoreError Z := fun db =>
  match tool_approvals db !! call_id with
  | Some _ => (Ok 0, db)
  | None =>
      match put_approval call_id row db with
      | (Ok _, db') => (Ok 1, db')
      | (Err _, _) => (Ok 0, db)
      end
  end.

(** ** Column helpers *)
Definition validate_id (value : string) (message : string) : result StoreError unit :=
  if is_empty value || (128 <? slen value) || negb (forallb is_identifier_byte (bytes value))
  then Err (InvalidInput message)
  else Ok tt.

Definition validate_digest (value : string) : result StoreError unit :=
  if negb (slen value =? 64) || negb (forallb is_lower_hex (bytes value))
  then Err (InvalidInput "tool approval digest is invalid")
  else Ok tt.

Definition sql_u64 (value : Z) : result StoreError Z :=
  if value <=? i64_max then Ok value
  else Err (InvalidInput "tool approval timestamp exceeds SQLite").

Definition from_sql_u64 (value : Z) : result StoreError Z :=
  if 0 <=? value then Ok value else Err (Database (FromSqlConversionFailure 0)).

Definition row_to_record (call_id : string) (row : ApprovalRow) : result StoreError ToolApprovalRecord :=
  let? state := to_sql_error (parse (ap_state row)) in
  let? created := from_sql_u64 (ap_created_at_ms row) in
  let? expires := from_sql_u64 (ap_expires_at_ms row) in
  let? updated := from_sql_u64 (ap_updated_at_ms row) in
  Ok (mkToolApprovalRecord call_id (ap_tool_id row) (ap_call_digest row) state
        (ap_decision_id row) (ap_cancellation_id row) created expires updated).

Definition approval_row_to_event (row : ApprovalEventRow) : result StoreError ToolApprovalEvent :=
  let? sequence := from_sql_u64 (ape_sequence row) in
  let? state := to_sql_error (parse (ape_state row)) in
  let? occurred := from_sql_u64 (ape_occurred_at_ms row) in
  Ok (mkToolApprovalEvent sequence (ape_call_id row) state (ape_decision_id row)
        (ape_cancellation_id row) occurred).

Definition read_record (call_id : string) (db : ToolDb) : result StoreError (option ToolApprovalRecord) :=
  match tool_approvals db !! call_id with
  | None => Ok None
  | Some row => let? r := row_to_record call_id row in Ok (Some r)
  end.

Definition require_record (call_id : string) (db : ToolDb) : result StoreError ToolApprovalRecord :=
  let? found := read_record call_id db in
  ok_or found (ToolApprovalNotFound call_id).

(** [AUTOINCREMENT]: one past the largest number; rows are never deleted. *)
Definition next_number (l : list Z) : Z := foldr Z.max 0 l + 1.

Definition insert_event (call_id : string) (state : ToolApprovalState) (decision_id : option string)
    (cancellation_id : option string) (occurred_at_ms : Z) : Tx ToolDb StoreError unit := fun db =>
  if occurred_at_ms <? 0 then (Err (Database ConstraintCheck), db)
  else match tool_approvals db !! call_id with
       | None => (Err (Database ConstraintForeignKey), db)
       | Some _ =>
           (Ok tt, set_approval_events
              (approval_events db ++
                 [mkApprovalEventRow (next_number (map ape_sequence (approval_events db))) call_id
                    (as_str state) decision_id cancellation_id occurred_at_ms]) db)
       end.

Definition resolution_exists (id : string) (db : ToolDb) : bool :=
  existsb (fun p : string * ApprovalRow =>
             bool_decide (ap_decision_id p.2 = Some id) || bool_decide (ap_cancellation_id p.2 = Some id))
    (map_to_list (tool_approvals db))
  || existsb (fun p : string * ExecutionRow => bool_decide (ex_execution_id p.2 = id))
       (map_to_list (tool_executions db))
  || existsb (fun p : string * string => bool_decide (p.1 = id)) (governed_tool_intents db).

Definition require_digest (record : ToolApprovalRecord) (digest : string) : result StoreError unit :=
  if bool_decide (ta_call_digest record = digest) then Ok tt else Err ToolApprovalDigestMismatch.

Definition is_open (s : ToolApprovalState) : bool :=
  match s with APending | AApproved => true | _ => false end.

Definition expire_if_needed (current : ToolApprovalRecord) (now : Z)
    : Tx ToolDb StoreError (option ToolApprovalRecord) :=
  if negb (is_open (ta_state current)) then tret None
  else
    expires <- tlift (sql_u64 (ta_expires_at_ms current)) ;
    if now <? expires then tret None
    else
      update_approval (ta_call_id current) ["pending"; "approved"]
        (fun row => mkApprovalRow (ap_tool_id row) (ap_call_digest row) "expired" (ap_decision_id row)
                      (ap_cancellation_id row) (ap_created_at_ms row) (ap_expires_at_ms row) now) ;;
      insert_event (ta_call_id current) AExpired (ta_decision_id current) None now ;;
      record <- tread (require_record (ta_call_id current)) ;
      tret (Some record).

(** ** Operations *)
Definition create_on (request : NewToolApproval) : Tx ToolDb StoreError ToolApprovalRecord :=
  tlift (validate_id (nt_call_id request) "tool approval call id is invalid") ;;
  tlift (validate_id (nt_tool_id request) "tool approval tool id is invalid") ;;
  tlift (validate_digest (nt_call_digest request)) ;;
  ttl <- tlift (ok_or (u64_checked_sub (nt_expires_at_ms request) (nt_created_at_ms request))
                  (InvalidInput "tool approval expiry is invalid")) ;
  if (ttl =? 0) || (MAX_TOOL_APPROVAL_TTL_MS <? ttl)
  then traise (InvalidInput "tool approval expiry exceeds the server bound")
  else
    created_at <- tlift (sql_u64 (nt_created_at_ms request)) ;
    expires_at <- tlift (sql_u64 (nt_expires_at_ms request)) ;
    reserved <- tread (fun db => Ok (existsb (fun p => bool_decide (p.2 = nt_call_id request))
                                       (governed_tool_intents db))) ;
    if (reserved : bool) then traise ToolApprovalConflict
    else
      inserted <- insert_or_ignore_approval (nt_call_id request)
                    (mkApprovalRow (nt_tool_id request) (nt_call_digest request) "pending" None None
                       created_at expires_at created_at) ;
      if inserted =? 0 then traise ToolApprovalConflict
      else
        insert_event (nt_call_id request) APending None None created_at ;;
        record <- tread (read_record (nt_call_id request)) ;
        tlift (ok_or record (CorruptData "created tool approval is missing")).

Definition create_tool_approval (request : NewToolApproval) : Tx ToolDb StoreError ToolApprovalRecord :=
  transaction (create_on request).

Definition decision_state (decision : ToolApprovalDecision) : ToolApprovalState :=
  match decision with Approve => AApproved | Deny => ADenied end.

Definition decide_tool_approval (call_id call_digest decision_id : string)
    (decision : ToolApprovalDecision) (now_ms : Z) : Tx ToolDb StoreError ToolApprovalRecord :=
  tlift (validate_id call_id "tool approval call id is invalid") ;;
  tlift (validate_digest call_digest) ;;
  tlift (validate_id decision_id "tool approval decision id is invalid") ;;
  now <- tlift (sql_u64 now_ms) ;
  transaction
    (current <- tread (require_record call_id) ;
     tlift (require_digest current call_digest) ;;
     expired <- expire_if_needed current now ;
     match expired with
     | Some record => tret record
     | None =>
         used <- tread (fun db => Ok (resolution_exists decision_id db)) ;
         if negb (bool_decide (ta_state current = APending)) || used
         then traise ToolApprovalConflict
         else
           let state := decision_state decision in
           update_approval call_id ["pending"]
             (fun row => mkApprovalRow (ap_tool_id row) (ap_call_digest row) (as_str state)
                           (Some decision_id) (ap_cancellation_id row) (ap_created_at_ms row)
                           (ap_expires_at_ms row) now) ;;
           insert_event call_id state (Some decision_id) None now ;;
           tread (require_record call_id)
     end).

Definition cancel_tool_approval (call_id cancellation_id : string) (now_ms : Z)
    : Tx ToolDb StoreError ToolApprovalRecord :=
  tlift (validate_id call_id "tool approval call id is invalid") ;;
  tlift (validate_id cancellation_id "tool cancellation id is invalid") ;;
  now <- tlift (sql_u64 now_ms) ;
  transaction
    (current <- tread (require_record call_id) ;
     expired <- expire_if_needed current now ;
     match expired with
     | Some record => tret record
     | None =>
         used <- tread (fun db => Ok (resolution_exists cancellation_id db)) ;
         if negb (is_open (ta_state current)) || used
         then traise ToolApprovalConflict
         else
           update_approval call_id ["pending"; "approved"]
             (fun row => mkApprovalRow (ap_tool_id row) (ap_call_digest row) "cancelled"
                           (ap_decision_id row) (Some cancellation_id) (ap_created_at_ms row)
                           (ap_expires_at_ms row) now) ;;
           insert_event call_id ACancelled (ta_decision_id current) (Some cancellation_id) now ;;
           tread (require_record call_id)
     end).

Definition tool_approval (call_id : string) (now_ms : Z)
    : Tx ToolDb StoreError (option ToolApprovalRecord) :=
  tlift (validate_id call_id "tool approval call id is invalid") ;;
  now <- tlift (sql_u64 now_ms) ;
  transaction
    (found <- tread (read_record call_id) ;
     match found with
     | None => tret None
     | Some current =>
         expired <- expire_if_needed current now ;
         tret (Some (default current expired))
     end).

(** Rows are kept in the order of their numbers. *)
Definition tool_approval_events (call_id : string) : Tx ToolDb StoreError (list ToolApprovalEvent) :=
  tlift (validate_id call_id "tool approval call id is invalid") ;;
  tread (fun db => map_result approval_row_to_event
                     (filter (fun row => ape_call_id row = call_id) (approval_events db))).
