(* ===== verification/ToolExecution.v ===== *)
(** * Tool executions (src/src/runtime/store/tool_execution.rs)

    The admission ledger of approved effects: preparing an execution consumes
    the approval, a finished effect is recorded once, and reopening the store
    interrupts what was left unfinished. *)
From stdpp Require Import base list gmap strings sorting.
From Stdlib Require Import ZArith Lia.
From S2P Require Import Prelude RustStr RunContract StoreBase ToolApproval.
Import ToolApprovalStateOps.

Open Scope Z_scope.
Open Scope rust_scope.

Inductive ToolExecutionState := XPrepared | XInterrupted | XSucceeded | XFailed.
#[export] Instance ToolExecutionState_eq_dec : EqDecision ToolExecutionState.
Proof. solve_decision. Defined.

Module ToolExecutionStateOps.
Definition xas_str (s : ToolExecutionState) : string :=
  match s with
  | XPrepared => "prepared"
  | XInterrupted => "interrupted"
  | XSucceeded => "succeeded"
  | XFailed => "failed"
  end.

Definition xparse (value : string) : result StoreError ToolExecutionState :=
  if bool_decide (value = "prepared") then Ok XPrepared
  else if bool_decide (value = "interrupted") then Ok XInterrupted
  else if bool_decide (value = "succeeded") then Ok XSucceeded
  else if bool_decide (value = "failed") then Ok XFailed
  else Err (CorruptData "tool execution state is invalid").
End ToolExecutionStateOps.
Import ToolExecutionStateOps.

Inductive ToolExecutionOutcome := OutSucceeded | OutFailed.
Definition outcome_state (o : ToolExecutionOutcome) : ToolExecutionState :=
  match o with OutSucceeded => XSucceeded | OutFailed => XFailed end.

Record ToolExecutionRecord := mkToolExecutionRecord {
  tx_call_id : string;
  tx_execution_id : string;
  tx_state : ToolExecutionState;
  tx_result_digest : option string;
  tx_started_at_ms : Z;
  tx_finished_at_ms : option Z;
}.

Record ToolExecutionEvent := mkToolExecutionEvent {
  xe_sequence : Z;
  xe_call_id : string;
  xe_execution_id : string;
  xe_state : ToolExecutionState;
  xe_result_digest : option string;
  xe_occurred_at_ms : Z;
}.

Inductive ToolExecutionPreparation :=
| Prepared (record : ToolExecutionRecord)
| Expired (record : ToolApprovalRecord).

(** The CHECK clauses of [tool_executions]. *)
Definition execution_check (row : ExecutionRow) : bool :=
  is_ok (xparse (ex_state row))
  && (match ex_result_digest row with Some d => digest_check d | None => true end)
  && (0 <=? ex_started_at_ms row)
  && (match ex_finished_at_ms row with Some f => ex_started_at_ms row <=? f | None => true end)
  && ((bool_decide (ex_state row = "prepared") && negb (is_some (ex_result_digest row))
       && negb (is_some (ex_finished_at_ms row)))
      || (bool_decide (ex_state row = "interrupted") && negb (is_some (ex_result_digest row))
          && is_some (ex_finished_at_ms row))
      || ((bool_decide (ex_state row = "succeeded") || bool_decide (ex_state row = "failed"))
          && is_some (ex_result_digest row) && is_some (ex_finished_at_ms row))).

Definition put_execution (call_id : string) (row : ExecutionRow) : Tx ToolDb StoreError unit := fun db =>
  if negb (execution_check row) then (Err (Database ConstraintCheck), db)
  else if taken (fun r => Some (ex_execution_id r)) call_id (Some (ex_execution_id row)) (tool_executions db)
  then (Err (Database ConstraintUnique), db)
  else match tool_approvals db !! call_id with
       | None => (Err (Database ConstraintForeignKey), db)
       | Some _ => (Ok tt, set_executions (<[call_id := row]> (tool_executions db)) db)
       end.

Definition insert_execution (call_id : string) (row : ExecutionRow) : Tx ToolDb StoreError unit := fun db =>
  match tool_executions db !! call_id with
  | Some _ => (Err (Database ConstraintPrimaryKey), db)
  | None => put_execution call_id row db
  end.

(** [UPDATE tool_executions SET .. WHERE call_id=.. AND execution_id=.. AND
    state='prepared'] *)
Definition update_prepared (call_id execution_id : string) (f : ExecutionRow -> ExecutionRow)
    : Tx ToolDb StoreError Z := fun db =>
  match tool_executions db !! call_id with
  | Some row =>
      if bool_decide (ex_execution_id row = execution_id) && bool_decide (ex_state row = "prepared")
      then (put_execution call_id (f row) ;; tret 1) db
      else (Ok 0, db)
  | None => (Ok 0, db)
  end.

Definition execution_row_to_record (call_id : string) (row : ExecutionRow)
    : result StoreError ToolExecutionRecord :=
  let? state := to_sql_error (xparse (ex_state row)) in
  let? started := from_sql_u64 (ex_started_at_ms row) in
  let? finished := match ex_finished_at_ms row with
                   | None => Ok None
                   | Some f => let? f' := from_sql_u64 f in Ok (Some f')
                   end in
  Ok (mkToolExecutionRecord call_id (ex_execution_id row) state (ex_result_digest row) started finished).

Definition execution_row_to_event (row : ExecutionEventRow) : result StoreError ToolExecutionEvent :=
  let? sequence := from_sql_u64 (exe_sequence row) in
  let? state := to_sql_error (xparse (exe_state row)) in
  let? occurred := from_sql_u64 (exe_occurred_at_ms row) in
  Ok (mkToolExecutionEvent sequence (exe_call_id row) (exe_execution_id row) state
        (exe_result_digest row) occurred).

Definition read_execution (call_id : string) (db : ToolDb)
    : result StoreError (option ToolExecutionRecord) :=
  match tool_executions db !! call_id with
  | None => Ok None
  | Some row => let? r := execution_row_to_record call_id row in Ok (Some r)
  end.

Definition require_execution (call_id : string) (db : ToolDb) : result StoreError ToolExecutionRecord :=
  let? found := read_execution call_id db in
  ok_or found (ToolExecutionNotFound call_id).

Definition insert_execution_event (call_id execution_id : string) (state : ToolExecutionState)
    (result_digest : option string) (occurred_at_ms : Z) : Tx ToolDb StoreError unit := fun db =>
  if (occurred_at_ms <? 0)
     || negb (match result_digest with Some d => digest_check d | None => true end)
  then (Err (Database ConstraintCheck), db)
  else match tool_executions db !! call_id with
       | None => (Err (Database ConstraintForeignKey), db)
       | Some _ =>
           (Ok tt, set_execution_events
              (execution_events db ++
                 [mkExecutionEventRow (next_number (map exe_sequence (execution_events db))) call_id
                    execution_id (xas_str state) result_digest occurred_at_ms]) db)
       end.

(** ** Operations *)
Definition prepare_tool_execution (call_id call_digest execution_id : string) (now_ms : Z)
    : Tx ToolDb StoreError ToolExecutionPreparation :=
  tlift (validate_id call_id "tool execution call id is invalid") ;;
  tlift (validate_digest call_digest) ;;
  tlift (validate_id execution_id "tool execution id is invalid") ;;
  now <- tlift (sql_u64 now_ms) ;
  transaction
    (governed <- tread (fun db =>
       Ok (existsb (fun p => bool_decide (p.2 = call_id) || bool_decide (p.1 = execution_id))
             (governed_tool_intents db)
           || bool_decide (call_id ∈ governed_approval_previews db))) ;
     if (governed : bool) then traise ToolExecutionConflict
     else
       current <- tread (require_record call_id) ;
       tlift (require_digest current call_digest) ;;
       expired <- expire_if_needed current now ;
       match expired with
       | Some record => tret (Expired record)
       | None =>
           used <- tread (fun db => Ok (resolution_exists execution_id db)) ;
           existing <- tread (read_execution call_id) ;
           if negb (bool_decide (ta_state current = AApproved)) || used || is_some existing
           then traise ToolExecutionConflict
           else
             changed <- update_approval call_id ["approved"]
               (fun row => mkApprovalRow (ap_tool_id row) (ap_call_digest row) "consumed"
                             (ap_decision_id row) (ap_cancellation_id row) (ap_created_at_ms row)
                             (ap_expires_at_ms row) now) ;
             if negb (changed =? 1) then traise ToolExecutionConflict
             else
               insert_event call_id AConsumed (ta_decision_id current) None now ;;
               insert_execution call_id (mkExecutionRow execution_id "prepared" None now None) ;;
               insert_execution_event call_id execution_id XPrepared None now ;;
               record <- tread (require_execution call_id) ;
               tret (Prepared record)
       end).

Definition complete_tool_execution (call_id execution_id : string) (outcome : ToolExecutionOutcome)
    (result_digest : string) (now_ms : Z) : Tx ToolDb StoreError ToolExecutionRecord :=
  tlift (validate_id call_id "tool execution call id is invalid") ;;
  tlift (validate_id execution_id "tool execution id is invalid") ;;
  tlift (validate_digest result_digest) ;;
  now <- tlift (sql_u64 now_ms) ;
  transaction
    (governed <- tread (fun db => Ok (existsb (fun p => bool_decide (p.2 = call_id))
                                        (governed_tool_intents db))) ;
     if (governed : bool) then traise ToolExecutionConflict
     else
       current <- tread (require_execution call_id) ;
       if negb (bool_decide (tx_execution_id current = execution_id))
          || negb (bool_decide (tx_state current = XPrepared))
          || (now_ms <? tx_started_at_ms current)
       then traise ToolExecutionConflict
       else
         let state := outcome_state outcome in
         changed <- update_prepared call_id execution_id
           (fun row => mkExecutionRow (ex_execution_id row) (xas_str state) (Some result_digest)
                         (ex_started_at_ms row) (Some now)) ;
         if negb (changed =? 1) then traise ToolExecutionConflict
         else
           insert_execution_event call_id execution_id state (Some result_digest) now ;;
           tread (require_execution call_id)).

Definition tool_execution (call_id : string) : Tx ToolDb StoreError (option ToolExecutionRecord) :=
  tlift (validate_id call_id "tool execution call id is invalid") ;;
  tread (read_execution call_id).

Definition tool_execution_events (call_id : string) : Tx ToolDb StoreError (list ToolExecutionEvent) :=
  tlift (validate_id call_id "tool execution call id is invalid") ;;
  tread (fun db => map_result execution_row_to_event
                     (filter (fun row => exe_call_id row = call_id) (execution_events db))).

(** ** Recovery *)
Definition started_le (a b : string * ExecutionRow) : Prop :=
  ex_started_at_ms a.2 < ex_started_at_ms b.2
  \/ ex_started_at_ms a.2 = ex_started_at_ms b.2 /\ String.le a.1 b.1.
#[local] Instance started_le_dec : RelDecision started_le.
Proof. intros a b. unfold started_le. apply _. Defined.

Definition prepared_rows (db : ToolDb) : list (string * ExecutionRow) :=
  merge_sort started_le
    (filter (fun p : string * ExecutionRow => ex_state p.2 = "prepared")
       (map_to_list (tool_executions db))).

(** The [SELECT]: the call and execution identifiers, by start time. *)
Definition prepared_calls (db : ToolDb) : list (string * string) :=
  map (fun p => (p.1, ex_execution_id p.2)) (prepared_rows db).

Fixpoint interrupt_each (now : Z) (calls : list (string * string)) : Tx ToolDb StoreError unit :=
  match calls with
  | [] => tret tt
  | (call_id, execution_id) :: rest =>
      changed <- update_prepared call_id execution_id
        (fun row => mkExecutionRow (ex_execution_id row) "interrupted" (ex_result_digest row)
                      (ex_started_at_ms row) (Some now)) ;
      if negb (changed =? 1) then traise ToolExecutionConflict
      else
        insert_execution_event call_id execution_id XInterrupted None now ;;
        interrupt_each now rest
  end.

Definition recover_prepared_on (now_ms : Z) : Tx ToolDb StoreError Z :=
  now <- tlift (sql_u64 now_ms) ;
  transaction
    (prepared <- tread (fun db => Ok (prepared_calls db)) ;
     interrupt_each now prepared ;;
     tret (Z.of_nat (length prepared))).
