(* ===== verification/ToolLedger.v ===== *)
(** * Approvals and executions together: effects, invariant, single use

    A successful call of [ToolApproval] or [ToolExecution] is a sequence of
    atomic [tool_effect]s: create, decide, cancel, expire, prepare, finish.
    The invariant [tools_ok] and the safety theorems are proved on effects by
    rule induction and carry over to the operations. *)
From stdpp Require Import base list gmap strings sorting relations.
From Stdlib Require Import ZArith Lia.
From S2P Require Import Prelude RustStr RunContract StoreBase ToolApproval ToolExecution.
Import ToolApprovalStateOps ToolExecutionStateOps.

Open Scope Z_scope.
Open Scope rust_scope.

(** ** Specification data *)

(** The edges of the approval state machine. *)
Definition approval_edge (s t : ToolApprovalState) : bool :=
  match s, t with
  | APending, (AApproved | ADenied | ACancelled | AExpired) => true
  | AApproved, (ACancelled | AExpired | AConsumed) => true
  | _, _ => false
  end.

(** A row after a transition: only state, identifiers and time change. *)
Definition with_state (row : ApprovalRow) (st : string) (dec can : option string) (now : Z) : ApprovalRow :=
  mkApprovalRow (ap_tool_id row) (ap_call_digest row) st dec can
    (ap_created_at_ms row) (ap_expires_at_ms row) now.

(** The tables after call [c] got [row] and one event. *)
Definition moved (c : string) (row : ApprovalRow) (st : ToolApprovalState) (dec can : option string)
    (now : Z) (db : ToolDb) : ToolDb :=
  set_approval_events
    (approval_events db ++ [mkApprovalEventRow (next_number (map ape_sequence (approval_events db)))
                              c (as_str st) dec can now])
    (set_approvals (<[c := row]> (tool_approvals db)) db).

Definition executed (c : string) (x : ExecutionRow) (e : string) (st : ToolExecutionState)
    (res : option string) (now : Z) (db : ToolDb) : ToolDb :=
  set_execution_events
    (execution_events db ++ [mkExecutionEventRow (next_number (map exe_sequence (execution_events db)))
                               c e (xas_str st) res now])
    (set_executions (<[c := x]> (tool_executions db)) db).

Inductive tool_effect (db : ToolDb) : ToolDb -> Prop :=
| eff_create c row :
    tool_approvals db !! c = None -> approval_check row = true ->
    ap_state row = "pending" -> ap_decision_id row = None -> ap_cancellation_id row = None ->
    ap_expires_at_ms row - ap_created_at_ms row <= MAX_TOOL_APPROVAL_TTL_MS ->
    tool_effect db (moved c row APending None None (ap_created_at_ms row) db)
| eff_decide c row decision d now :
    tool_approvals db !! c = Some row -> ap_state row = "pending" -> now < ap_expires_at_ms row ->
    resolution_exists d db = false ->
    approval_check (with_state row (as_str (decision_state decision)) (Some d) (ap_cancellation_id row) now)
    = true ->
    tool_effect db
      (moved c (with_state row (as_str (decision_state decision)) (Some d) (ap_cancellation_id row) now)
         (decision_state decision) (Some d) None now db)
| eff_cancel c row s k now :
    tool_approvals db !! c = Some row -> ap_state row = as_str s -> is_open s = true ->
    now < ap_expires_at_ms row -> resolution_exists k db = false ->
    approval_check (with_state row "cancelled" (ap_decision_id row) (Some k) now) = true ->
    tool_effect db
      (moved c (with_state row "cancelled" (ap_decision_id row) (Some k) now)
         ACancelled (ap_decision_id row) (Some k) now db)
| eff_expire c row s now :
    tool_approvals db !! c = Some row -> ap_state row = as_str s -> is_open s = true ->
    ap_expires_at_ms row <= now ->
    approval_check (with_state row "expired" (ap_decision_id row) (ap_cancellation_id row) now) = true ->
    tool_effect db
      (moved c (with_state row "expired" (ap_decision_id row) (ap_cancellation_id row) now)
         AExpired (ap_decision_id row) None now db)
| eff_prepare c row e now :
    tool_approvals db !! c = Some row -> ap_state row = "approved" -> now < ap_expires_at_ms row ->
    resolution_exists e db = false -> tool_executions db !! c = None ->
    approval_check (with_state row "consumed" (ap_decision_id row) (ap_cancellation_id row) now) = true ->
    tool_effect db
      (executed c (mkExecutionRow e "prepared" None now None) e XPrepared None now
         (moved c (with_state row "consumed" (ap_decision_id row) (ap_cancellation_id row) now)
            AConsumed (ap_decision_id row) None now db))
| eff_finish c x st res now :
    tool_executions db !! c = Some x -> ex_state x = "prepared" -> st <> XPrepared ->
    ex_started_at_ms x <= now ->
    execution_check (mkExecutionRow (ex_execution_id x) (xas_str st) res (ex_started_at_ms x) (Some now))
    = true ->
    tool_effect db
      (executed c (mkExecutionRow (ex_execution_id x) (xas_str st) res (ex_started_at_ms x) (Some now))
         (ex_execution_id x) st res now db).

(** Where a resolution identifier is recorded. *)
Inductive id_use := ByDecision (c : string) | ByCancellation (c : string) | ByExecution (c : string).
Definition holds (db : ToolDb) (id : string) (u : id_use) : Prop :=
  match u with
  | ByDecision c => exists row, tool_approvals db !! c = Some row /\ ap_decision_id row = Some id
  | ByCancellation c => exists row, tool_approvals db !! c = Some row /\ ap_cancellation_id row = Some id
  | ByExecution c => exists x, tool_executions db !! c = Some x /\ ex_execution_id x = id
  end.

(** The recorded states of a call, oldest first. *)
Definition approval_log (c : string) (db : ToolDb) : list string :=
  map ape_state (filter (fun ev => ape_call_id ev = c) (approval_events db)).
Definition execution_log (c : string) (db : ToolDb) : list string :=
  map exe_state (filter (fun ev => exe_call_id ev = c) (execution_events db)).

Inductive approval_path : list string -> ToolApprovalState -> Prop :=
| approval_path_start : approval_path [as_str APending] APending
| approval_path_step l s t :
    approval_path l s -> approval_edge s t = true -> approval_path (l ++ [as_str t]) t.

(** What an execution log can be. *)
Definition execution_path (l : list string) (s : ToolExecutionState) : Prop :=
  if bool_decide (s = XPrepared) then l = ["prepared"] else l = ["prepared"; xas_str s].

Record tools_ok (db : ToolDb) : Prop := {
  t_check : forall c row, tool_approvals db !! c = Some row ->
    approval_check row = true /\ ap_expires_at_ms row - ap_created_at_ms row <= MAX_TOOL_APPROVAL_TTL_MS;
  t_log : forall c, match tool_approvals db !! c with
    | Some row => exists s, ap_state row = as_str s /\ approval_path (approval_log c db) s
    | None => approval_log c db = []
    end;
  t_execution : forall c x, tool_executions db !! c = Some x ->
    execution_check x = true
    /\ exists row, tool_approvals db !! c = Some row /\ ap_state row = "consumed";
  t_consumed : forall c row, tool_approvals db !! c = Some row -> ap_state row = "consumed" ->
    is_Some (tool_executions db !! c);
  t_xlog : forall c, match tool_executions db !! c with
    | Some x => exists s, ex_state x = xas_str s /\ execution_path (execution_log c db) s
    | None => execution_log c db = []
    end;
  t_unique : forall id u1 u2, holds db id u1 -> holds db id u2 -> u1 = u2;
}.

(** ** Codecs *)
Lemma parse_as_str s : parse (as_str s) = Ok s.
Proof. by destruct s. Qed.
Lemma as_str_inj s t : as_str s = as_str t -> s = t.
Proof. by destruct s, t. Qed.
Lemma parse_ok v s : parse v = Ok s -> v = as_str s.
Proof. unfold parse. repeat (case_bool_decide; [intros; by simplify_eq|]). discriminate. Qed.
Lemma xparse_as_str s : xparse (xas_str s) = Ok s.
Proof. by destruct s. Qed.
Lemma xas_str_inj s t : xas_str s = xas_str t -> s = t.
Proof. by destruct s, t. Qed.
Lemma xparse_ok v s : xparse v = Ok s -> v = xas_str s.
Proof. unfold xparse. repeat (case_bool_decide; [intros; by simplify_eq|]). discriminate. Qed.

Lemma from_sql_u64_ok n m : from_sql_u64 n = Ok m <-> m = n /\ 0 <= n.
Proof.
  unfold from_sql_u64. destruct (Z.leb_spec 0 n); split; intros; deex; simplify_eq; auto; lia.
Qed.
Lemma sql_u64_ok n m : sql_u64 n = Ok m <-> m = n /\ n <= i64_max.
Proof.
  unfold sql_u64. destruct (Z.leb_spec n i64_max); split; intros; deex; simplify_eq; auto; lia.
Qed.

(** The record a row reads as. *)
Definition approval_of (c : string) (row : ApprovalRow) (s : ToolApprovalState) : ToolApprovalRecord :=
  mkToolApprovalRecord c (ap_tool_id row) (ap_call_digest row) s (ap_decision_id row)
    (ap_cancellation_id row) (ap_created_at_ms row) (ap_expires_at_ms row) (ap_updated_at_ms row).

Lemma row_to_record_ok c row r :
  row_to_record c row = Ok r -> exists s, ap_state row = as_str s /\ r = approval_of c row s.
Proof.
  unfold row_to_record. destruct (to_sql_error _) as [s|] eqn:Hs; [|discriminate].
  apply to_sql_error_ok, parse_ok in Hs.
  destruct (from_sql_u64 (ap_created_at_ms row)) as [?|] eqn:H1; [|discriminate].
  destruct (from_sql_u64 (ap_expires_at_ms row)) as [?|] eqn:H2; [|discriminate].
  destruct (from_sql_u64 (ap_updated_at_ms row)) as [?|] eqn:H3; [|discriminate].
  apply from_sql_u64_ok in H1 as [-> _], H2 as [-> _], H3 as [-> _].
  intros [= <-]. eauto.
Qed.

Lemma require_record_ok c db r :
  require_record c db = Ok r ->
  exists row s, tool_approvals db !! c = Some row /\ ap_state row = as_str s /\ r = approval_of c row s.
Proof.
  unfold require_record, read_record. destruct (tool_approvals db !! c) as [row|]; [|discriminate].
  destruct (row_to_record c row) as [r'|] eqn:Hr; [|discriminate]. intros [= ->].
  apply row_to_record_ok in Hr as (s & ? & ->). eauto.
Qed.

Lemma approval_check_times row :
  approval_check row = true ->
  0 <= ap_created_at_ms row /\ ap_created_at_ms row < ap_expires_at_ms row
  /\ ap_created_at_ms row <= ap_updated_at_ms row /\ exists s, ap_state row = as_str s.
Proof.
  unfold approval_check. intros Hc. bools. destruct (parse (ap_state row)) as [s|] eqn:Hs; [|done].
  apply parse_ok in Hs. eauto with lia.
Qed.

Lemma row_to_record_total c row s :
  approval_check row = true -> ap_state row = as_str s -> row_to_record c row = Ok (approval_of c row s).
Proof.
  intros (H1 & H2 & H3 & _)%approval_check_times Hs. unfold row_to_record.
  rewrite Hs, parse_as_str. simpl.
  rewrite (proj2 (from_sql_u64_ok _ _) (conj eq_refl H1)).
  rewrite (proj2 (from_sql_u64_ok (ap_expires_at_ms row) _)) by (split; [done|lia]).
  by rewrite (proj2 (from_sql_u64_ok (ap_updated_at_ms row) _)) by (split; [done|lia]).
Qed.

(** ** Statements that end in [Ok] *)
Lemma put_approval_ok c row db u db' :
  put_approval c row db = (Ok u, db') <->
  approval_check row = true /\ approval_unique_violation c row (tool_approvals db) = false
  /\ db' = set_approvals (<[c := row]> (tool_approvals db)) db.
Proof.
  unfold put_approval. destruct u, (approval_check row), (approval_unique_violation _ _ _); simpl;
    split; intros; deex; by simplify_eq.
Qed.

Lemma update_approval_ok c states f db n db' row :
  tool_approvals db !! c = Some row -> existsb (fun s => bool_decide (ap_state row = s)) states = true ->
  update_approval c states f db = (Ok n, db') ->
  n = 1 /\ approval_check (f row) = true
  /\ db' = set_approvals (<[c := f row]> (tool_approvals db)) db.
Proof.
  intros Hr Hs. unfold update_approval. rewrite Hr, Hs. intros Hop.
  apply tbind_ok in Hop as (u & db1 & Hput & Hret). unfold tret in Hret. simplify_eq.
  apply put_approval_ok in Hput as (? & _ & ->). done.
Qed.

Lemma insert_event_ok c st dec can t db u db' :
  insert_event c st dec can t db = (Ok u, db') ->
  0 <= t /\ db' = set_approval_events
    (approval_events db ++ [mkApprovalEventRow (next_number (map ape_sequence (approval_events db)))
                              c (as_str st) dec can t]) db.
Proof.
  unfold insert_event. destruct (Z.ltb_spec t 0); [discriminate|].
  destruct (tool_approvals db !! c); [|discriminate]. intros [= _ <-]. done.
Qed.

(** An update of [c] followed by its event is [moved]. *)
Lemma update_then_event c states f st dec can t db n db1 u db2 row :
  tool_approvals db !! c = Some row -> existsb (fun s => bool_decide (ap_state row = s)) states = true ->
  update_approval c states f db = (Ok n, db1) ->
  insert_event c st dec can t db1 = (Ok u, db2) ->
  n = 1 /\ approval_check (f row) = true /\ db2 = moved c (f row) st dec can t db.
Proof.
  intros Hr Hs Hup Hev. apply (update_approval_ok _ _ _ _ _ _ _ Hr Hs) in Hup as (-> & Hc & ->).
  apply insert_event_ok in Hev as [_ ->]. done.
Qed.

Lemma open_states s row :
  ap_state row = as_str s -> is_open s = true ->
  existsb (fun x => bool_decide (ap_state row = x)) ["pending"; "approved"] = true.
Proof. intros -> Ho. by destruct s. Qed.

Lemma expire_ok c row s now db o db' :
  tool_approvals db !! c = Some row -> ap_state row = as_str s ->
  expire_if_needed (approval_of c row s) now db = (Ok o, db') ->
  (o = None /\ db' = db /\ (is_open s = true -> now < ap_expires_at_ms row))
  \/ (o = Some (approval_of c (with_state row "expired" (ap_decision_id row) (ap_cancellation_id row) now) AExpired)
      /\ is_open s = true /\ ap_expires_at_ms row <= now
      /\ approval_check (with_state row "expired" (ap_decision_id row) (ap_cancellation_id row) now) = true
      /\ db' = moved c (with_state row "expired" (ap_decision_id row) (ap_cancellation_id row) now)
                 AExpired (ap_decision_id row) None now db).
Proof.
  intros Hr Hs. unfold expire_if_needed. simpl. destruct (is_open s) eqn:Ho; simpl.
  2:{ unfold tret. intros [= <- <-]. left. done. }
  intros Hop. apply tbind_ok in Hop as (ex & db1 & He & Hop). unfold tlift in He.
  injection He as He <-. apply sql_u64_ok in He as [-> _].
  destruct (Z.ltb_spec now (ap_expires_at_ms row)).
  { unfold tret in Hop. injection Hop as <- <-. left. done. }
  apply tbind_ok in Hop as (n & db1 & Hup & Hop).
  apply tbind_ok in Hop as (u & db2 & Hev & Hop).
  destruct (update_then_event _ _ _ _ _ _ _ _ _ _ _ _ row Hr ltac:(by eapply open_states) Hup Hev)
    as (_ & Hc & ->).
  apply tbind_ok in Hop as (rec & db3 & Hrec & Hop). unfold tread in Hrec. injection Hrec as Hrec <-.
  unfold tret in Hop. injection Hop as <- <-. right.
  apply require_record_ok in Hrec as (row' & s' & Hr' & Hs' & ->). simpl in Hr'.
  rewrite lookup_insert_eq in Hr'. injection Hr' as <-.
  assert (s' = AExpired) as -> by by apply as_str_inj. done.
Qed.

(** Validations before the transaction. *)
Lemma lift_ok {S E A B} (r : result E A) (k : A -> Tx S E B) s b s' :
  tbind (tlift r) k s = (Ok b, s') -> exists a, r = Ok a /\ k a s = (Ok b, s').
Proof. intros (a & s1 & Ha & Hk)%tbind_ok. unfold tlift in Ha. simplify_eq. eauto. Qed.
Lemma read_ok {S E A B} (f : S -> result E A) (k : A -> Tx S E B) s b s' :
  tbind (tread f) k s = (Ok b, s') -> exists a, f s = Ok a /\ k a s = (Ok b, s').
Proof. intros (a & s1 & Ha & Hk)%tbind_ok. unfold tread in Ha. simplify_eq. eauto. Qed.

Lemma require_digest_ok r d u : require_digest r d = Ok u -> ta_call_digest r = d.
Proof. unfold require_digest. by case_bool_decide. Qed.

(** ** Operations that end in [Ok] *)
Lemma create_on_ok r db rec db' :
  create_on r db = (Ok rec, db') ->
  let row := mkApprovalRow (nt_tool_id r) (nt_call_digest r) "pending" None None
               (nt_created_at_ms r) (nt_expires_at_ms r) (nt_created_at_ms r) in
  tool_approvals db !! nt_call_id r = None /\ approval_check row = true
  /\ nt_expires_at_ms r - nt_created_at_ms r <= MAX_TOOL_APPROVAL_TTL_MS
  /\ rec = approval_of (nt_call_id r) row APending
  /\ db' = moved (nt_call_id r) row APending None None (nt_created_at_ms r) db.
Proof.
  unfold create_on. intros Hop.
  apply lift_ok in Hop as ([] & _ & Hop). apply lift_ok in Hop as ([] & _ & Hop).
  apply lift_ok in Hop as ([] & _ & Hop). apply lift_ok in Hop as (ttl & Httl & Hop).
  unfold u64_checked_sub in Httl.
  destruct (Z.leb_spec (nt_created_at_ms r) (nt_expires_at_ms r)); [|discriminate]. injection Httl as <-.
  destruct (_ || _) eqn:Hb; [discriminate|]. bools.
  apply lift_ok in Hop as (? & Hc & Hop). apply sql_u64_ok in Hc as [-> _].
  apply lift_ok in Hop as (? & He & Hop). apply sql_u64_ok in He as [-> _].
  apply read_ok in Hop as (gov & _ & Hop). destruct gov; [discriminate|].
  apply tbind_ok in Hop as (n & db1 & Hins & Hop).
  destruct (Z.eqb_spec n 0) as [|Hn]; [discriminate|].
  unfold insert_or_ignore_approval in Hins.
  destruct (tool_approvals db !! nt_call_id r) eqn:Hr; [injection Hins as <- _; lia|].
  destruct (put_approval _ _ db) as [[u|e] db2] eqn:Hput; [|injection Hins as <- _; lia].
  injection Hins as _ <-. apply put_approval_ok in Hput as (Hchk & _ & ->).
  apply tbind_ok in Hop as (u' & db3 & Hev & Hop). apply insert_event_ok in Hev as [_ ->].
  apply read_ok in Hop as (found & Hread & Hop). unfold tlift in Hop. injection Hop as Hf <-.
  unfold read_record in Hread. simpl in Hread. rewrite lookup_insert_eq in Hread.
  rewrite (row_to_record_total _ _ APending) in Hread by done. injection Hread as <-.
  injection Hf as <-. simpl. done.
Qed.

Lemma decide_ok c dg d decision now db rec db' :
  decide_tool_approval c dg d decision now db = (Ok rec, db') ->
  exists row s, tool_approvals db !! c = Some row /\ ap_state row = as_str s /\ ap_call_digest row = dg
  /\ ((is_open s = true /\ ap_expires_at_ms row <= now /\ ta_state rec = AExpired
       /\ approval_check (with_state row "expired" (ap_decision_id row) (ap_cancellation_id row) now) = true
       /\ db' = moved c (with_state row "expired" (ap_decision_id row) (ap_cancellation_id row) now)
                  AExpired (ap_decision_id row) None now db)
      \/ (s = APending /\ now < ap_expires_at_ms row /\ resolution_exists d db = false
          /\ ta_state rec = decision_state decision
          /\ approval_check (with_state row (as_str (decision_state decision)) (Some d)
                               (ap_cancellation_id row) now) = true
          /\ db' = moved c (with_state row (as_str (decision_state decision)) (Some d)
                              (ap_cancellation_id row) now)
                     (decision_state decision) (Some d) None now db)).
Proof.
  unfold decide_tool_approval. intros Hop.
  apply lift_ok in Hop as ([] & _ & Hop). apply lift_ok in Hop as ([] & _ & Hop).
  apply lift_ok in Hop as ([] & _ & Hop). apply lift_ok in Hop as (now' & Hnow & Hop).
  apply sql_u64_ok in Hnow as [-> _]. apply transaction_ok, read_ok in Hop as (cur & Hcur & Hop).
  apply require_record_ok in Hcur as (row & s & Hr & Hs & ->).
  apply lift_ok in Hop as ([] & Hdg & Hop). apply require_digest_ok in Hdg. exists row, s. split; [done|]. split; [done|]. split; [done|].
  apply tbind_ok in Hop as (o & db1 & Hexp & Hop).
  apply (expire_ok c row s) in Hexp as [(-> & -> & Hlt)|(-> & Ho & Hle & Hchk & ->)]; [|left|done..].
  2:{ unfold tret in Hop. injection Hop as <- <-. done. }
  right. apply read_ok in Hop as (used & Hused & Hop). injection Hused as <-. simpl in Hop.
  case_bool_decide as Hst; [subst s|discriminate]. simpl in Hop.
  destruct (resolution_exists d db) eqn:Hres; [discriminate|].
  apply tbind_ok in Hop as (n & db1 & Hup & Hop). apply tbind_ok in Hop as (u & db2 & Hev & Hop).
  destruct (fun Hin => update_then_event _ _ _ _ _ _ _ _ _ _ _ _ row Hr Hin Hup Hev)
    as (_ & Hc & ->); [by rewrite Hs|].
  unfold tread in Hop. injection Hop as Hrec <-.
  apply require_record_ok in Hrec as (row' & s' & Hr' & Hs' & ->). simpl in Hr'.
  rewrite lookup_insert_eq in Hr'. injection Hr' as <-.
  assert (s' = decision_state decision) as -> by by apply as_str_inj.
  split; [done|]. split; [by apply Hlt|]. done.
Qed.

Lemma cancel_ok c k now db rec db' :
  cancel_tool_approval c k now db = (Ok rec, db') ->
  exists row s, tool_approvals db !! c = Some row /\ ap_state row = as_str s /\ is_open s = true
  /\ ((ap_expires_at_ms row <= now /\ ta_state rec = AExpired
       /\ approval_check (with_state row "expired" (ap_decision_id row) (ap_cancellation_id row) now) = true
       /\ db' = moved c (with_state row "expired" (ap_decision_id row) (ap_cancellation_id row) now)
                  AExpired (ap_decision_id row) None now db)
      \/ (now < ap_expires_at_ms row /\ resolution_exists k db = false /\ ta_state rec = ACancelled
          /\ approval_check (with_state row "cancelled" (ap_decision_id row) (Some k) now) = true
          /\ db' = moved c (with_state row "cancelled" (ap_decision_id row) (Some k) now)
                     ACancelled (ap_decision_id row) (Some k) now db)).
Proof.
  unfold cancel_tool_approval. intros Hop.
  apply lift_ok in Hop as ([] & _ & Hop). apply lift_ok in Hop as ([] & _ & Hop).
  apply lift_ok in Hop as (now' & Hnow & Hop). apply sql_u64_ok in Hnow as [-> _].
  apply transaction_ok, read_ok in Hop as (cur & Hcur & Hop).
  apply require_record_ok in Hcur as (row & s & Hr & Hs & ->). exists row, s.
  split; [done|]. split; [done|].
  apply tbind_ok in Hop as (o & db1 & Hexp & Hop).
  apply (expire_ok c row s) in Hexp as [(-> & -> & Hlt)|(-> & Ho & Hle & Hchk & ->)]; [| |done..].
  2:{ unfold tret in Hop. injection Hop as <- <-. split; [done|]. by left. }
  apply read_ok in Hop as (used & Hused & Hop). injection Hused as <-. cbn [ta_state approval_of] in Hop.
  destruct (is_open s) eqn:Ho; [|discriminate]. split; [done|]. right.
  destruct (resolution_exists k db) eqn:Hres; [discriminate|]. cbn [negb orb] in Hop.
  apply tbind_ok in Hop as (n & db1 & Hup & Hop). apply tbind_ok in Hop as (u & db2 & Hev & Hop).
  destruct (fun Hin => update_then_event _ _ _ _ _ _ _ _ _ _ _ _ row Hr Hin Hup Hev)
    as (_ & Hc & ->); [by eapply open_states|].
  unfold tread in Hop. injection Hop as Hrec <-.
  apply require_record_ok in Hrec as (row' & s' & Hr' & Hs' & ->). simpl in Hr'.
  rewrite lookup_insert_eq in Hr'. injection Hr' as <-.
  assert (s' = ACancelled) as -> by by apply as_str_inj.
  split; [by apply Hlt|]. done.
Qed.

Lemma tool_approval_ok c now db o db' :
  tool_approval c now db = (Ok o, db') ->
  db' = db \/ exists row s, tool_approvals db !! c = Some row /\ ap_state row = as_str s /\ is_open s = true
    /\ ap_expires_at_ms row <= now
    /\ approval_check (with_state row "expired" (ap_decision_id row) (ap_cancellation_id row) now) = true
    /\ db' = moved c (with_state row "expired" (ap_decision_id row) (ap_cancellation_id row) now)
               AExpired (ap_decision_id row) None now db.
Proof.
  unfold tool_approval. intros Hop.
  apply lift_ok in Hop as ([] & _ & Hop). apply lift_ok in Hop as (now' & Hnow & Hop).
  apply sql_u64_ok in Hnow as [-> _]. apply transaction_ok, read_ok in Hop as (found & Hf & Hop).
  destruct found as [cur|]; [|unfold tret in Hop; injection Hop as _ <-; by left].
  assert (require_record c db = Ok cur) as Hcur by (unfold require_record; by rewrite Hf).
  apply require_record_ok in Hcur as (row & s & Hr & Hs & ->).
  apply tbind_ok in Hop as (e & db1 & Hexp & Hop). unfold tret in Hop. injection Hop as _ <-.
  apply (expire_ok c row s) in Hexp as [(-> & -> & _)|(-> & Ho & Hle & Hchk & ->)]; [by left| |done..].
  right. by exists row, s.
Qed.

(** ** Execution statements *)
Definition execution_of (c : string) (x : ExecutionRow) (s : ToolExecutionState) : ToolExecutionRecord :=
  mkToolExecutionRecord c (ex_execution_id x) s (ex_result_digest x) (ex_started_at_ms x)
    (ex_finished_at_ms x).

Lemma require_execution_ok c db r :
  require_execution c db = Ok r ->
  exists x s, tool_executions db !! c = Some x /\ ex_state x = xas_str s /\ r = execution_of c x s.
Proof.
  unfold require_execution, read_execution, execution_row_to_record.
  destruct (tool_executions db !! c) as [x|]; [|discriminate].
  destruct (to_sql_error _) as [s|] eqn:Hs; [|discriminate]. apply to_sql_error_ok, xparse_ok in Hs.
  destruct (from_sql_u64 _) as [t|] eqn:Ht; [|discriminate]. apply from_sql_u64_ok in Ht as [-> _].
  unfold execution_of. destruct (ex_finished_at_ms x) as [f|] eqn:Hf.
  - destruct (from_sql_u64 f) as [f'|] eqn:Hf'; [|discriminate]. apply from_sql_u64_ok in Hf' as [-> _].
    intros [= <-]. exists x, s. by rewrite Hf.
  - intros [= <-]. exists x, s. by rewrite Hf.
Qed.

Lemma put_execution_ok c x db u db' :
  put_execution c x db = (Ok u, db') ->
  execution_check x = true /\ db' = set_executions (<[c := x]> (tool_executions db)) db.
Proof.
  unfold put_execution. destruct (execution_check x); [|discriminate]. cbn [negb].
  match goal with |- context [taken ?f ?k ?v ?t] => destruct (taken f k v t); [discriminate|] end. destruct (tool_approvals db !! c); [|discriminate].
  intros [= _ <-]. done.
Qed.

Lemma insert_execution_event_ok c e st res t db u db' :
  insert_execution_event c e st res t db = (Ok u, db') ->
  db' = set_execution_events
    (execution_events db ++ [mkExecutionEventRow (next_number (map exe_sequence (execution_events db)))
                               c e (xas_str st) res t]) db.
Proof.
  unfold insert_execution_event. destruct (_ || _); [discriminate|].
  destruct (tool_executions db !! c); [|discriminate]. by intros [= _ <-].
Qed.

Lemma update_prepared_ok c e f db n db' :
  update_prepared c e f db = (Ok n, db') -> n = 1 ->
  exists x, tool_executions db !! c = Some x /\ ex_execution_id x = e /\ ex_state x = "prepared"
    /\ execution_check (f x) = true
    /\ db' = set_executions (<[c := f x]> (tool_executions db)) db.
Proof.
  unfold update_prepared. destruct (tool_executions db !! c) as [x|]; [|by intros [= <- _]].
  destruct (bool_decide _ && bool_decide _) eqn:Hb; [|by intros [= <- _]]. bools.
  intros (u & db1 & Hput & Hret)%tbind_ok _. unfold tret in Hret. injection Hret as _ <-.
  apply put_execution_ok in Hput as [Hc ->]. eauto 10.
Qed.

Lemma prepare_ok c dg e now db p db' :
  prepare_tool_execution c dg e now db = (Ok p, db') ->
  exists row s, tool_approvals db !! c = Some row /\ ap_state row = as_str s /\ ap_call_digest row = dg
  /\ ((exists rec, p = Expired rec /\ is_open s = true /\ ap_expires_at_ms row <= now
       /\ approval_check (with_state row "expired" (ap_decision_id row) (ap_cancellation_id row) now) = true
       /\ db' = moved c (with_state row "expired" (ap_decision_id row) (ap_cancellation_id row) now)
                  AExpired (ap_decision_id row) None now db)
      \/ (s = AApproved /\ now < ap_expires_at_ms row /\ resolution_exists e db = false
          /\ tool_executions db !! c = None
          /\ approval_check (with_state row "consumed" (ap_decision_id row) (ap_cancellation_id row) now) = true
          /\ p = Prepared (execution_of c (mkExecutionRow e "prepared" None now None) XPrepared)
          /\ db' = executed c (mkExecutionRow e "prepared" None now None) e XPrepared None now
                     (moved c (with_state row "consumed" (ap_decision_id row) (ap_cancellation_id row) now)
                        AConsumed (ap_decision_id row) None now db))).
Proof.
  unfold prepare_tool_execution. intros Hop.
  apply lift_ok in Hop as ([] & _ & Hop). apply lift_ok in Hop as ([] & _ & Hop).
  apply lift_ok in Hop as ([] & _ & Hop). apply lift_ok in Hop as (now' & Hnow & Hop).
  apply sql_u64_ok in Hnow as [-> _]. apply transaction_ok, read_ok in Hop as (gov & _ & Hop).
  destruct gov; [discriminate|]. apply read_ok in Hop as (cur & Hcur & Hop).
  apply require_record_ok in Hcur as (row & s & Hr & Hs & ->).
  apply lift_ok in Hop as ([] & Hdg & Hop). apply require_digest_ok in Hdg.
  exists row, s. split; [done|]. split; [done|]. split; [done|].
  apply tbind_ok in Hop as (o & db1 & Hexp & Hop).
  apply (expire_ok c row s) in Hexp as [(-> & -> & Hlt)|(-> & Ho & Hle & Hchk & ->)]; [right| |done..].
  2:{ left. unfold tret in Hop. injection Hop as <- <-. eauto 10. }
  apply read_ok in Hop as (used & Hused & Hop). injection Hused as <-.
  apply read_ok in Hop as (existing & Hex & Hop). cbn [ta_state approval_of ta_decision_id] in Hop.
  destruct (negb _ || resolution_exists e db || is_some existing) eqn:Hb; [discriminate|]. bools. subst s.
  unfold read_execution in Hex. destruct (tool_executions db !! c) as [x|] eqn:Hx.
  { destruct (execution_row_to_record c x); [|discriminate]. injection Hex as <-. done. }
  apply tbind_ok in Hop as (n & db1 & Hup & Hop).
  destruct (Z.eqb_spec n 1) as [->|]; [|discriminate]. cbn [negb] in Hop.
  apply tbind_ok in Hop as (u & db2 & Hev & Hop).
  destruct (fun Hin => update_then_event _ _ _ _ _ _ _ _ _ _ _ _ row Hr Hin Hup Hev)
    as (_ & Hc & ->); [by rewrite Hs|].
  apply tbind_ok in Hop as (u2 & db3 & Hins & Hop). unfold insert_execution in Hins.
  change (tool_executions (moved _ _ _ _ _ _ db)) with (tool_executions db) in Hins. rewrite Hx in Hins.
  apply put_execution_ok in Hins as [_ ->].
  apply tbind_ok in Hop as (u3 & db4 & Hxe & Hop). apply insert_execution_event_ok in Hxe as ->.
  apply read_ok in Hop as (rec & Hrec & Hop). unfold tret in Hop. injection Hop as <- <-.
  apply require_execution_ok in Hrec as (x & s & Hx' & Hs' & ->). simpl in Hx'.
  rewrite lookup_insert_eq in Hx'. injection Hx' as <-.
  assert (s = XPrepared) as -> by by apply xas_str_inj.
  split; [done|]. split; [by apply Hlt|]. done.
Qed.

Lemma complete_ok c e o res now db r db' :
  complete_tool_execution c e o res now db = (Ok r, db') ->
  exists x, tool_executions db !! c = Some x /\ ex_execution_id x = e /\ ex_state x = "prepared"
    /\ ex_started_at_ms x <= now
    /\ execution_check (mkExecutionRow e (xas_str (outcome_state o)) (Some res) (ex_started_at_ms x) (Some now))
       = true
    /\ r = execution_of c (mkExecutionRow e (xas_str (outcome_state o)) (Some res) (ex_started_at_ms x) (Some now))
             (outcome_state o)
    /\ db' = executed c (mkExecutionRow e (xas_str (outcome_state o)) (Some res) (ex_started_at_ms x) (Some now))
               e (outcome_state o) (Some res) now db.
Proof.
  unfold complete_tool_execution. intros Hop.
  apply lift_ok in Hop as ([] & _ & Hop). apply lift_ok in Hop as ([] & _ & Hop).
  apply lift_ok in Hop as ([] & _ & Hop). apply lift_ok in Hop as (now' & Hnow & Hop).
  apply sql_u64_ok in Hnow as [-> _]. apply transaction_ok, read_ok in Hop as (gov & _ & Hop).
  destruct gov; [discriminate|]. apply read_ok in Hop as (cur & Hcur & Hop).
  apply require_execution_ok in Hcur as (x0 & s & Hx0 & Hs & ->).
  cbn [tx_execution_id tx_state tx_started_at_ms execution_of] in Hop.
  destruct (_ || _ || _) eqn:Hb; [discriminate|]. bools.
  apply tbind_ok in Hop as (n & db1 & Hup & Hop).
  destruct (Z.eqb_spec n 1) as [Hn|]; [|discriminate]. cbn [negb] in Hop.
  apply update_prepared_ok in Hup as (x & Hx & He & Hst & Hc & ->); [|done].
  assert (x0 = x) as -> by congruence. rewrite He in Hc.
  apply tbind_ok in Hop as (u & db2 & Hev & Hop). apply insert_execution_event_ok in Hev as ->.
  unfold tread in Hop. injection Hop as Hrec <-.
  apply require_execution_ok in Hrec as (x' & s' & Hx' & Hs' & ->). simpl in Hx'.
  rewrite lookup_insert_eq, He in Hx'. injection Hx' as <-.
  assert (s' = outcome_state o) as -> by by apply xas_str_inj.
  exists x. unfold executed. simpl. rewrite He. done.
Qed.

(** Started no later than [now]. *)
Definition started_before (now : Z) (x : ExecutionRow) : Prop := ex_started_at_ms x <= now.

Lemma execution_check_finished x now :
  execution_check (mkExecutionRow (ex_execution_id x) "interrupted" (ex_result_digest x)
                     (ex_started_at_ms x) (Some now)) = true -> ex_started_at_ms x <= now.
Proof. unfold execution_check. simpl. intros Hc. bools. done. Qed.

Lemma interrupt_each_ok now calls db db' :
  interrupt_each now calls db = (Ok tt, db') -> rtc tool_effect db db'.
Proof.
  revert db. induction calls as [|[c e] calls IH]; intros db Hop; simpl in Hop.
  { unfold tret in Hop. injection Hop as <-. constructor. }
  apply tbind_ok in Hop as (n & db1 & Hup & Hop).
  destruct (Z.eqb_spec n 1) as [Hn|]; [|discriminate]. cbn [negb] in Hop.
  apply update_prepared_ok in Hup as (x & Hx & He & Hst & Hc & ->); [|done].
  apply tbind_ok in Hop as (u & db2 & Hev & Hop). apply insert_execution_event_ok in Hev as ->.
  eapply rtc_l; [|by apply IH]. pose proof (execution_check_finished _ _ Hc).
  assert (ex_result_digest x = None) as Hd.
  { destruct (ex_result_digest x); [|done]. unfold execution_check in Hc. simpl in Hc. bools.
    by rewrite ?andb_false_r in *. }
  rewrite Hd in *. subst e. by apply (eff_finish db c x XInterrupted None now).
Qed.

(** ** Calls *)
Inductive tool_op :=
| TCreate (r : NewToolApproval)
| TDecide (c dg d : string) (decision : ToolApprovalDecision) (now : Z)
| TCancel (c k : string) (now : Z)
| TRead (c : string) (now : Z)
| TPrepare (c dg e : string) (now : Z)
| TComplete (c e : string) (o : ToolExecutionOutcome) (res : string) (now : Z)
| TRecover (now : Z).

Definition tforget {A} (r : result StoreError A * ToolDb) : result StoreError unit * ToolDb :=
  (match r.1 with Ok _ => Ok tt | Err e => Err e end, r.2).

Definition texec (op : tool_op) (db : ToolDb) : result StoreError unit * ToolDb :=
  match op with
  | TCreate r => tforget (create_tool_approval r db)
  | TDecide c dg d decision now => tforget (decide_tool_approval c dg d decision now db)
  | TCancel c k now => tforget (cancel_tool_approval c k now db)
  | TRead c now => tforget (tool_approval c now db)
  | TPrepare c dg e now => tforget (prepare_tool_execution c dg e now db)
  | TComplete c e o res now => tforget (complete_tool_execution c e o res now db)
  | TRecover now => tforget (recover_prepared_on now db)
  end.

Inductive tool_step : ToolDb -> ToolDb -> Prop :=
| tool_step_exec op db r db' : texec op db = (r, db') -> tool_step db db'.

Lemma tforget_ok {A} (r : result StoreError A * ToolDb) u db' :
  tforget r = (Ok u, db') -> exists a, r = (Ok a, db').
Proof. destruct r as [[a|e] db]; unfold tforget; simpl; [intros [= _ <-]; eauto|discriminate]. Qed.
Lemma tforget_err {A} (r : result StoreError A * ToolDb) e db' :
  tforget r = (Err e, db') -> r = (Err e, db').
Proof. destruct r as [[a|e'] db]; unfold tforget; simpl; congruence. Qed.

Lemma texec_ok op db u db' : texec op db = (Ok u, db') -> rtc tool_effect db db'.
Proof.
  destruct op as [r|c dg d decision now|c k now|c now|c dg e now|c e o res now|now]; simpl;
    intros [a Hop]%tforget_ok.
  - apply transaction_ok, create_on_ok in Hop as (Hr & Hc & Httl & _ & ->).
    apply rtc_once. by apply eff_create.
  - apply decide_ok in Hop as (row & s & Hr & Hs & _ & [(Ho & Hle & _ & Hc & ->)|(-> & Hlt & Hres & _ & Hc & ->)]);
      apply rtc_once; [by eapply eff_expire|by apply eff_decide].
  - apply cancel_ok in Hop as (row & s & Hr & Hs & Ho & [(Hle & _ & Hc & ->)|(Hlt & Hres & _ & Hc & ->)]);
      apply rtc_once; [by eapply eff_expire|by eapply eff_cancel].
  - apply tool_approval_ok in Hop as [->|(row & s & Hr & Hs & Ho & Hle & Hc & ->)]; [constructor|].
    apply rtc_once. by eapply eff_expire.
  - apply prepare_ok in Hop as (row & s & Hr & Hs & _
      & [(rec & _ & Ho & Hle & Hc & ->)|(-> & Hlt & Hres & Hx & Hc & _ & ->)]);
      apply rtc_once; [by eapply eff_expire|by apply eff_prepare].
  - apply complete_ok in Hop as (x & Hx & <- & Hst & Hle & Hc & _ & ->). apply rtc_once.
    apply (eff_finish db c x (outcome_state o) (Some res) now); try done. by destruct o.
  - apply lift_ok in Hop as (now' & _ & Hop). apply transaction_ok, read_ok in Hop as (calls & _ & Hop).
    apply tbind_ok in Hop as ([] & db1 & Hi & Hop). unfold tret in Hop. injection Hop as _ <-.
    by eapply interrupt_each_ok.
Qed.

Lemma lift_err {S E A B} (r : result E A) (k : A -> Tx S E B) s e s' :
  tbind (tlift r) k s = (Err e, s') -> s' = s \/ exists a, r = Ok a /\ k a s = (Err e, s').
Proof.
  unfold tbind, tlift. destruct r; [eauto|]. intros [= _ <-]. by left.
Qed.

Lemma texec_err op db e db' : texec op db = (Err e, db') -> db' = db.
Proof.
  destruct op; simpl; intros Hop%tforget_err;
    repeat (apply lift_err in Hop as [->|(? & _ & Hop)]; [done|]);
    by apply transaction_err in Hop as [-> _].
Qed.

Lemma tool_step_effects db db' : tool_step db db' -> rtc tool_effect db db'.
Proof.
  intros [op db0 [u|e] db0' Hop]; [by eapply texec_ok|]. apply texec_err in Hop as ->. constructor.
Qed.

(** ** The invariant under one effect *)
Lemma moved_lookup c row st dec can now db c' row' :
  tool_approvals (moved c row st dec can now db) !! c' = Some row' <->
  (c = c' /\ row = row') \/ (c <> c' /\ tool_approvals db !! c' = Some row').
Proof. apply lookup_insert_Some. Qed.
Lemma approval_log_moved c c' row st dec can now db :
  approval_log c' (moved c row st dec can now db)
  = approval_log c' db ++ (if bool_decide (c = c') then [as_str st] else []).
Proof.
  unfold approval_log. simpl. rewrite filter_app, map_app. f_equal.
  rewrite filter_cons. simpl. case_decide; case_bool_decide; done.
Qed.

Lemma execution_log_executed c c' x e st res now db :
  execution_log c' (executed c x e st res now db)
  = execution_log c' db ++ (if bool_decide (c = c') then [xas_str st] else []).
Proof.
  unfold execution_log. simpl. rewrite filter_app, map_app. f_equal.
  rewrite filter_cons. simpl. case_decide; case_bool_decide; done.
Qed.

(** A call may move to [st]: a new call starts pending, an old one follows an edge. *)
Definition may_move (c : string) (st : ToolApprovalState) (db : ToolDb) : Prop :=
  match tool_approvals db !! c with
  | Some row => exists s, ap_state row = as_str s /\ approval_edge s st = true
  | None => st = APending
  end.

Lemma log_moved c row st dec can now db :
  tools_ok db -> ap_state row = as_str st -> may_move c st db ->
  forall c', match tool_approvals (moved c row st dec can now db) !! c' with
    | Some row' => exists s, ap_state row' = as_str s
                    /\ approval_path (approval_log c' (moved c row st dec can now db)) s
    | None => approval_log c' (moved c row st dec can now db) = []
    end.
Proof.
  intros Hok Hst Hmay c'. pose proof (t_log _ Hok c') as Hlog. rewrite approval_log_moved. simpl.
  destruct (decide (c = c')) as [<-|Hne].
  - rewrite lookup_insert_eq, bool_decide_eq_true_2 by done. exists st. split; [done|].
    unfold may_move in Hmay. destruct (tool_approvals db !! c) as [row0|].
    + destruct Hmay as (s0 & Hs0 & Hedge), Hlog as (s & Hs & Hp).
      assert (s = s0) as -> by (apply as_str_inj; congruence). by econstructor.
    + rewrite Hlog, Hmay. constructor.
  - rewrite lookup_insert_ne, bool_decide_eq_false_2, app_nil_r by done. done.
Qed.

(** At most one new use of an identifier that nobody held. *)
Lemma unique_step db db' (fresh : option (string * id_use)) :
  tools_ok db ->
  (forall id u, holds db' id u -> holds db id u \/ fresh = Some (id, u)) ->
  (forall id u, fresh = Some (id, u) -> forall u', ~ holds db id u') ->
  forall id u1 u2, holds db' id u1 -> holds db' id u2 -> u1 = u2.
Proof.
  intros Hok Hnew Hfresh id u1 u2 [H1|H1]%Hnew [H2|H2]%Hnew.
  - by eapply (t_unique _ Hok).
  - by destruct (Hfresh _ _ H2 u1).
  - by destruct (Hfresh _ _ H1 u2).
  - congruence.
Qed.

Lemma resolution_fresh id db u : resolution_exists id db = false -> ~ holds db id u.
Proof.
  unfold resolution_exists. intros Hb Hh. bools.
  destruct u as [c|c|c]; destruct Hh as (row & Hr & Hid); apply elem_of_map_to_list in Hr.
  - match goal with H : existsb _ (map_to_list (tool_approvals db)) = false |- _ =>
      apply existsb_false_Forall in H; eapply Forall_forall in H; [|exact Hr] end.
    simpl in *. bools. done.
  - match goal with H : existsb _ (map_to_list (tool_approvals db)) = false |- _ =>
      apply existsb_false_Forall in H; eapply Forall_forall in H; [|exact Hr] end.
    simpl in *. bools. done.
  - match goal with H : existsb _ (map_to_list (tool_executions db)) = false |- _ =>
      apply existsb_false_Forall in H; eapply Forall_forall in H; [|exact Hr] end.
    simpl in *. bools. done.
Qed.

Lemma check_moved c row st dec can now db :
  tools_ok db -> approval_check row = true ->
  ap_expires_at_ms row - ap_created_at_ms row <= MAX_TOOL_APPROVAL_TTL_MS ->
  forall c' row', tool_approvals (moved c row st dec can now db) !! c' = Some row' ->
    approval_check row' = true
    /\ ap_expires_at_ms row' - ap_created_at_ms row' <= MAX_TOOL_APPROVAL_TTL_MS.
Proof.
  intros Hok Hc Httl c' row' [[<- <-]|[_ Hr]]%moved_lookup; [done|]. by apply (t_check _ Hok c').
Qed.

(** Every move but the consumption. *)
Lemma ok_moved c row st dec can now db fresh :
  tools_ok db -> approval_check row = true ->
  ap_expires_at_ms row - ap_created_at_ms row <= MAX_TOOL_APPROVAL_TTL_MS ->
  ap_state row = as_str st -> st <> AConsumed -> may_move c st db ->
  (forall id u, holds (moved c row st dec can now db) id u -> holds db id u \/ fresh = Some (id, u)) ->
  (forall id u, fresh = Some (id, u) -> forall u', ~ holds db id u') ->
  tools_ok (moved c row st dec can now db).
Proof.
  intros Hok Hc Httl Hst Hne Hmay Hnew Hfresh. constructor.
  - by apply check_moved.
  - by apply log_moved.
  - intros c' x Hx. destruct (t_execution _ Hok c' x Hx) as (? & row0 & Hr0 & Hs0). split; [done|].
    exists row0. split; [|done]. simpl. rewrite lookup_insert_ne; [done|]. intros <-.
    unfold may_move in Hmay. rewrite Hr0 in Hmay. destruct Hmay as (s & Hs & Hedge).
    assert (s = AConsumed) as -> by (apply as_str_inj; simpl; congruence). done.
  - intros c' row' [[<- <-]|[_ Hr]]%moved_lookup Hs.
    + destruct Hne. apply as_str_inj. simpl. congruence.
    + by apply (t_consumed _ Hok c' row').
  - exact (t_xlog _ Hok).
  - by eapply unique_step.
Qed.

(** The uses after [c] got a row that adds at most [fresh]. *)
Lemma holds_moved c row row0 st dec can now db id u :
  tool_approvals db !! c = Some row0 ->
  holds (moved c row st dec can now db) id u ->
  holds db id u \/ (u = ByDecision c /\ ap_decision_id row = Some id /\ ap_decision_id row <> ap_decision_id row0)
  \/ (u = ByCancellation c /\ ap_cancellation_id row = Some id
      /\ ap_cancellation_id row <> ap_cancellation_id row0).
Proof.
  intros Hr. destruct u as [c'|c'|c']; unfold holds; [| |by left].
  - intros (row' & [[<- <-]|[_ Hr']]%moved_lookup & Hid); [|left; eauto].
    destruct (decide (ap_decision_id row = ap_decision_id row0)) as [Heq|]; [left|right; left; done].
    exists row0. by rewrite <- Heq.
  - intros (row' & [[<- <-]|[_ Hr']]%moved_lookup & Hid); [|left; eauto].
    destruct (decide (ap_cancellation_id row = ap_cancellation_id row0)) as [Heq|]; [left|right; right; done].
    exists row0. by rewrite <- Heq.
Qed.

Lemma may_move_edge c row s st db :
  tool_approvals db !! c = Some row -> ap_state row = as_str s -> approval_edge s st = true -> may_move c st db.
Proof. intros Hr Hs He. unfold may_move. rewrite Hr. eauto. Qed.

Lemma open_no_cancellation row s :
  approval_check row = true -> ap_state row = as_str s -> is_open s = true ->
  ap_cancellation_id row = None /\ (s = APending -> ap_decision_id row = None)
  /\ (s = AApproved -> is_Some (ap_decision_id row)).
Proof.
  unfold approval_check, approval_shape. intros Hc Hs Ho. bools. rewrite Hs in *.
  destruct (ap_cancellation_id row), (ap_decision_id row), s; simpl in *; try discriminate;
    (split; [done|split; [done|intros ?; first [done|by eexists]]]).
Qed.

Lemma execution_lookup c x e st res now db c' x' :
  tool_executions (executed c x e st res now db) !! c' = Some x' <->
  (c = c' /\ x = x') \/ (c <> c' /\ tool_executions db !! c' = Some x').
Proof. apply lookup_insert_Some. Qed.

Lemma xlog_executed c x e st res now db :
  tools_ok db -> ex_state x = xas_str st ->
  execution_path (execution_log c db ++ [xas_str st]) st ->
  forall c', match tool_executions (executed c x e st res now db) !! c' with
    | Some x' => exists s, ex_state x' = xas_str s
                  /\ execution_path (execution_log c' (executed c x e st res now db)) s
    | None => execution_log c' (executed c x e st res now db) = []
    end.
Proof.
  intros Hok Hst Hp c'. rewrite execution_log_executed. simpl.
  destruct (decide (c = c')) as [<-|Hne].
  - rewrite lookup_insert_eq, bool_decide_eq_true_2 by done. by exists st.
  - rewrite lookup_insert_ne, bool_decide_eq_false_2, app_nil_r by done. apply (t_xlog _ Hok).
Qed.

Lemma ok_prepare db c row e now :
  tools_ok db -> tool_approvals db !! c = Some row -> ap_state row = "approved" ->
  resolution_exists e db = false -> tool_executions db !! c = None -> 0 <= now ->
  approval_check (with_state row "consumed" (ap_decision_id row) (ap_cancellation_id row) now) = true ->
  tools_ok (executed c (mkExecutionRow e "prepared" None now None) e XPrepared None now
    (moved c (with_state row "consumed" (ap_decision_id row) (ap_cancellation_id row) now)
       AConsumed (ap_decision_id row) None now db)).
Proof.
  intros Hok Hr Hs Hres Hx Hnow Hc. set (row' := with_state _ _ _ _ _) in *.
  pose proof (check_moved c row' AConsumed (ap_decision_id row) None now db Hok Hc
                (proj2 (t_check _ Hok c row Hr))) as Hchk.
  pose proof (log_moved c row' AConsumed (ap_decision_id row) None now db Hok eq_refl
                (may_move_edge c row AApproved AConsumed db Hr Hs eq_refl)) as Hlog.
  constructor; try done.
  - intros c' x [[<- <-]|[Hne Hx']]%execution_lookup.
    + split; [by unfold execution_check; simpl; rewrite (proj2 (Z.leb_le 0 now))|].
      exists row'. split; [|done]. apply moved_lookup. by left.
    + destruct (t_execution _ Hok c' x Hx') as (? & row0 & Hr0 & ?). split; [done|].
      exists row0. split; [|done]. apply moved_lookup. by right.
  - intros c' row0 Hr0 Hs0.
    apply (moved_lookup c row' AConsumed (ap_decision_id row) None now db) in Hr0 as [[<- <-]|[Hne Hr0]].
    + exists (mkExecutionRow e "prepared" None now None). apply execution_lookup. by left.
    + destruct (t_consumed _ Hok c' row0 Hr0 Hs0) as [x Hx']. exists x. apply execution_lookup. by right.
  - pose proof (t_xlog _ Hok c) as Hxl. rewrite Hx in Hxl. intros c'.
    rewrite execution_log_executed. simpl. destruct (decide (c = c')) as [<-|Hne].
    + rewrite lookup_insert_eq, bool_decide_eq_true_2 by done. exists XPrepared. split; [done|].
      change (execution_log c (moved c row' AConsumed (ap_decision_id row) None now db))
        with (execution_log c db). by rewrite Hxl.
    + rewrite lookup_insert_ne, bool_decide_eq_false_2, app_nil_r by done. apply (t_xlog _ Hok).
  - apply (unique_step db _ (Some (e, ByExecution c)) Hok).
    + intros id [c'|c'|c'].
      * intros Hh. left. destruct (holds_moved c row' row AConsumed (ap_decision_id row) None now db id
          (ByDecision c') Hr Hh) as [?|[(_ & _ & Hd)|(? & _)]]; done.
      * intros Hh. left. destruct (holds_moved c row' row AConsumed (ap_decision_id row) None now db id
          (ByCancellation c') Hr Hh) as [?|[(? & _)|(_ & _ & Hd)]]; done.
      * intros (x & [[<- <-]|[_ Hx']]%execution_lookup & <-); [by right|left; by exists x].
    + intros id u [= <- <-] u'. by apply resolution_fresh.
Qed.

Lemma ok_finish db c x st res now :
  tools_ok db -> tool_executions db !! c = Some x -> ex_state x = "prepared" -> st <> XPrepared ->
  execution_check (mkExecutionRow (ex_execution_id x) (xas_str st) res (ex_started_at_ms x) (Some now)) = true ->
  tools_ok (executed c (mkExecutionRow (ex_execution_id x) (xas_str st) res (ex_started_at_ms x) (Some now))
              (ex_execution_id x) st res now db).
Proof.
  intros Hok Hx Hs Hne Hc. set (x' := mkExecutionRow _ _ _ _ _) in *.
  destruct (t_execution _ Hok c x Hx) as (_ & row & Hr & Hrs). constructor.
  - exact (t_check _ Hok).
  - exact (t_log _ Hok).
  - intros c' y [[<- <-]|[? Hy]]%execution_lookup; [split; [done|by exists row]|by apply (t_execution _ Hok)].
  - intros c' row0 Hr0 Hs0. destruct (t_consumed _ Hok c' row0 Hr0 Hs0) as [y Hy].
    destruct (decide (c = c')) as [<-|]; [exists x'|exists y]; apply execution_lookup; [by left|by right].
  - apply xlog_executed; [done..|]. pose proof (t_xlog _ Hok c) as Hl. rewrite Hx in Hl.
    destruct Hl as (s & Hss & Hp). assert (s = XPrepared) as -> by (apply xas_str_inj; simpl; congruence).
    unfold execution_path in *. rewrite bool_decide_eq_true_2 in Hp by done.
    by rewrite Hp, bool_decide_eq_false_2 by done.
  - apply (unique_step db _ None Hok); [|done]. intros id [c'|c'|c'] Hh; [by left..|].
    destruct Hh as (y & [[<- <-]|[_ Hy]]%execution_lookup & Hid); left; [exists x|exists y]; done.
Qed.

Lemma holds_created c row st dec can now db id u :
  ap_decision_id row = None -> ap_cancellation_id row = None ->
  holds (moved c row st dec can now db) id u -> holds db id u.
Proof.
  intros Hd Hk. destruct u as [c'|c'|c']; [| |done].
  - intros (row' & [[<- <-]|[_ Hr]]%moved_lookup & Hid); [congruence|by exists row'].
  - intros (row' & [[<- <-]|[_ Hr]]%moved_lookup & Hid); [congruence|by exists row'].
Qed.

Lemma effect_ok db db' : tools_ok db -> tool_effect db db' -> tools_ok db'.
Proof.
  intros Hok. destruct 1 as [c row Hn Hc Hs Hd Hk Httl|c row decision d now Hr Hs Hlt Hres Hc
    |c row s k now Hr Hs Ho Hlt Hres Hc|c row s now Hr Hs Ho Hle Hc
    |c row e now Hr Hs Hlt Hres Hx Hc|c x st res now Hx Hs Hne Hle Hc].
  - apply (ok_moved _ _ _ _ _ _ _ None); try done; [by unfold may_move; rewrite Hn|].
    intros id u Hh. left. by eapply holds_created in Hh.
  - destruct (t_check _ Hok c row Hr) as [Hchk Httl].
    apply (ok_moved _ _ _ _ _ _ _ (Some (d, ByDecision c))); try done.
    + by destruct decision.
    + eapply (may_move_edge c row APending); [done..|by destruct decision].
    + intros id u Hh. apply (holds_moved c _ row) in Hh as [?|[(-> & Hid & _)|(_ & _ & Hd)]]; [by left| |done..].
      right. simpl in Hid. by injection Hid as ->.
    + intros id u [= <- <-] u'. by apply resolution_fresh.
  - destruct (t_check _ Hok c row Hr) as [Hchk Httl].
    apply (ok_moved _ _ _ _ _ _ _ (Some (k, ByCancellation c))); try done.
    + eapply (may_move_edge c row s); [done..|by destruct s].
    + intros id u Hh. apply (holds_moved c _ row) in Hh as [?|[(_ & _ & Hd)|(-> & Hid & _)]]; [by left|done| |done].
      right. simpl in Hid. by injection Hid as ->.
    + intros id u [= <- <-] u'. by apply resolution_fresh.
  - destruct (t_check _ Hok c row Hr) as [Hchk Httl].
    apply (ok_moved _ _ _ _ _ _ _ None); try done.
    + eapply (may_move_edge c row s); [done..|by destruct s].
    + intros id u Hh. apply (holds_moved c _ row) in Hh as [?|[(_ & _ & Hd)|(_ & _ & Hd)]]; [by left|done..].
  - apply ok_prepare; try done. apply approval_check_times in Hc as (H1 & _ & H2 & _). simpl in *. lia.
  - by apply ok_finish.
Qed.

Lemma steps_ok db db' : tools_ok db -> rtc tool_step db db' -> tools_ok db' /\ rtc tool_effect db db'.
Proof.
  intros Hok. induction 1 as [|db1 db2 db3 H1 _ IH]; [split; [done|constructor]|].
  apply tool_step_effects in H1.
  assert (tools_ok db2) as Hok2 by (induction H1 as [|a b d ? _ IH']; eauto using effect_ok).
  destruct (IH Hok2). split; [done|by etrans].
Qed.

Lemma tools_ok_empty : tools_ok empty_tool_db.
Proof.
  constructor; simpl; intros *; try (rewrite lookup_empty; done).
  destruct u1 as [c|c|c]; intros (? & Hr & _); simpl in Hr; by rewrite lookup_empty in Hr.
Qed.

(** ** How rows evolve *)
Inductive approval_row_step : ApprovalRow -> ApprovalRow -> Prop :=
| approval_row_move row s t dec can now :
    ap_state row = as_str s -> approval_edge s t = true ->
    approval_row_step row (with_state row (as_str t) dec can now).

Inductive execution_row_step : ExecutionRow -> ExecutionRow -> Prop :=
| execution_row_finish x st res now :
    ex_state x = "prepared" -> st <> XPrepared ->
    execution_row_step x
      (mkExecutionRow (ex_execution_id x) (xas_str st) res (ex_started_at_ms x) (Some now)).

Lemma moved_evolves c row row0 st dec can now db c' r :
  tool_approvals db !! c = Some row0 -> approval_row_step row0 row ->
  tool_approvals db !! c' = Some r ->
  exists r', tool_approvals (moved c row st dec can now db) !! c' = Some r' /\ rtc approval_row_step r r'.
Proof.
  intros Hr Hst Hr'. destruct (decide (c = c')) as [<-|Hne].
  - exists row. split; [apply moved_lookup; by left|]. assert (r = row0) as -> by congruence. by apply rtc_once.
  - exists r. split; [apply moved_lookup; by right|constructor].
Qed.

Lemma effect_approval_evolves db db' c r :
  tool_effect db db' -> tool_approvals db !! c = Some r ->
  exists r', tool_approvals db' !! c = Some r' /\ rtc approval_row_step r r'.
Proof.
  destruct 1 as [c0 row Hn|c0 row decision d now Hr Hs|c0 row s k now Hr Hs Ho
    |c0 row s now Hr Hs Ho|c0 row e now Hr Hs|c0 x st res now Hx]; intros Hr'.
  - exists r. split; [apply moved_lookup; right; split; [congruence|done]|constructor].
  - eapply moved_evolves; [done| |done]. by apply (approval_row_move row APending); destruct decision.
  - eapply moved_evolves; [done| |done]. by apply (approval_row_move row s ACancelled); destruct s.
  - eapply moved_evolves; [done| |done]. by apply (approval_row_move row s AExpired); destruct s.
  - eapply (moved_evolves c0 (with_state row "consumed" (ap_decision_id row) (ap_cancellation_id row) now) row AConsumed);
      [done| |done]. by apply (approval_row_move row AApproved AConsumed).
  - exists r. split; [done|constructor].
Qed.

Lemma effect_execution_evolves db db' c x :
  tool_effect db db' -> tool_executions db !! c = Some x ->
  exists x', tool_executions db' !! c = Some x' /\ rtc execution_row_step x x'.
Proof.
  destruct 1 as [| | | |c0 row e now Hr Hs Hlt Hres Hn Hc|c0 x0 st res now Hx Hs Hne]; intros Hx';
    try (exists x; split; [done|constructor]).
  - exists x. split; [apply execution_lookup; right; split; [congruence|done]|constructor].
  - destruct (decide (c0 = c)) as [<-|Hnc].
    + eexists. split; [apply execution_lookup; by left|]. assert (x0 = x) as -> by congruence.
      apply rtc_once. by constructor.
    + exists x. split; [apply execution_lookup; by right|constructor].
Qed.

Lemma effects_evolve db db' :
  rtc tool_effect db db' ->
  (forall c r, tool_approvals db !! c = Some r ->
     exists r', tool_approvals db' !! c = Some r' /\ rtc approval_row_step r r')
  /\ (forall c x, tool_executions db !! c = Some x ->
     exists x', tool_executions db' !! c = Some x' /\ rtc execution_row_step x x').
Proof.
  induction 1 as [|db1 db2 db3 He _ [IH1 IH2]]; [split; eauto using rtc_refl|]. split.
  - intros c r (r1 & Hr1 & Hp1)%(effect_approval_evolves _ _ _ _ He).
    destruct (IH1 c r1 Hr1) as (r2 & ? & ?). exists r2. split; [done|by etrans].
  - intros c x (x1 & Hx1 & Hp1)%(effect_execution_evolves _ _ _ _ He).
    destruct (IH2 c x1 Hx1) as (x2 & ? & ?). exists x2. split; [done|by etrans].
Qed.

Lemma approval_row_closed row s row' :
  ap_state row = as_str s -> is_open s = false -> rtc approval_row_step row row' -> row' = row.
Proof.
  intros Hs Ho Hst. inversion Hst as [|? r1 ? H1]; [done|]. subst.
  inversion H1 as [? s' t ? ? ? Hs' He]. subst. rewrite Hs in Hs'. apply as_str_inj in Hs' as ->.
  by destruct s', t.
Qed.

Lemma approval_row_fixed row row' :
  rtc approval_row_step row row' ->
  ap_tool_id row' = ap_tool_id row /\ ap_call_digest row' = ap_call_digest row
  /\ ap_created_at_ms row' = ap_created_at_ms row /\ ap_expires_at_ms row' = ap_expires_at_ms row.
Proof. induction 1 as [|r1 r2 r3 [] _ IH]; [done|]. simpl in IH. done. Qed.

Lemma execution_row_finished x x' :
  ex_state x <> "prepared" -> rtc execution_row_step x x' -> x' = x.
Proof.
  intros Hs Hst. inversion Hst as [|? x1 ? H1]; [done|]. subst. by inversion H1.
Qed.

Lemma execution_row_fixed x x' :
  rtc execution_row_step x x' ->
  ex_execution_id x' = ex_execution_id x /\ ex_started_at_ms x' = ex_started_at_ms x.
Proof. induction 1 as [|x1 x2 x3 [] _ IH]; [done|]. simpl in IH. done. Qed.

(** The only way to [s]: what the log of an open or consumed call is. *)
Lemma approval_path_inv l s :
  approval_path l s ->
  match s with
  | APending => l = ["pending"]
  | AApproved => l = ["pending"; "approved"]
  | ADenied => l = ["pending"; "denied"]
  | AConsumed => l = ["pending"; "approved"; "consumed"]
  | ACancelled => l = ["pending"; "cancelled"] \/ l = ["pending"; "approved"; "cancelled"]
  | AExpired => l = ["pending"; "expired"] \/ l = ["pending"; "approved"; "expired"]
  end.
Proof.
  induction 1 as [|l s t Hp IH He]; [done|].
  destruct s, t; try discriminate He; subst l; auto.
Qed.

(** ** Calls that must succeed *)
Lemma taken_false {V} (column : V -> option string) (key : string) v (t : gmap string V) :
  (forall k r, t !! k = Some r -> column r = Some v -> k = key) -> taken column key (Some v) t = false.
Proof.
  intros Hall. unfold taken. apply existsb_false_Forall, Forall_forall. intros [k r] Hin.
  apply elem_of_map_to_list in Hin. simpl.
  destruct (bool_decide (k = key)) eqn:Hk; [done|]. bools. simpl. apply bool_decide_eq_false.
  intros Hc. by destruct Hk; eapply Hall.
Qed.

Lemma keeps_ids_unique c row st now db :
  tools_ok db -> tool_approvals db !! c = Some row ->
  approval_unique_violation c (with_state row st (ap_decision_id row) (ap_cancellation_id row) now)
    (tool_approvals db) = false.
Proof.
  intros Hok Hr. unfold approval_unique_violation. simpl. apply orb_false_iff. split.
  - destruct (ap_decision_id row) as [d|] eqn:Hd; [|done]. apply taken_false. intros k r Hk Hc.
    assert (ByDecision k = ByDecision c) as [= ?]; [|done].
    apply (t_unique _ Hok d); [by exists r|by exists row].
  - destruct (ap_cancellation_id row) as [d|] eqn:Hd; [|done]. apply taken_false. intros k r Hk Hc.
    assert (ByCancellation k = ByCancellation c) as [= ?]; [|done].
    apply (t_unique _ Hok d); [by exists r|by exists row].
Qed.

Definition expired_row (row : ApprovalRow) (now : Z) : ApprovalRow :=
  with_state row "expired" (ap_decision_id row) (ap_cancellation_id row) now.

Lemma expired_row_check row s now :
  approval_check row = true -> ap_state row = as_str s -> is_open s = true ->
  ap_expires_at_ms row <= now -> approval_check (expired_row row now) = true.
Proof.
  intros Hc Hs Ho Hle. destruct (open_no_cancellation _ _ Hc Hs Ho) as (Hcan & _ & _).
  pose proof (approval_check_times _ Hc) as (H1 & H2 & _ & _).
  unfold approval_check in Hc. bools. unfold approval_check, approval_shape, expired_row. simpl.
  rewrite Hcan. simpl. rewrite !andb_true_iff, Z.leb_le, Z.ltb_lt, Z.leb_le. repeat split; try done; lia.
Qed.

Lemma expire_total c row s now db :
  tools_ok db -> tool_approvals db !! c = Some row -> ap_state row = as_str s -> is_open s = true ->
  ap_expires_at_ms row <= now <= i64_max ->
  expire_if_needed (approval_of c row s) now db
  = (Ok (Some (approval_of c (expired_row row now) AExpired)),
     moved c (expired_row row now) AExpired (ap_decision_id row) None now db).
Proof.
  intros Hok Hr Hs Ho Hle. destruct (t_check _ Hok c row Hr) as [Hc _].
  pose proof (expired_row_check row s now Hc Hs Ho ltac:(lia)) as Hc'.
  pose proof (approval_check_times _ Hc) as (H1 & H2 & _ & _).
  unfold expire_if_needed. cbn [ta_state ta_expires_at_ms ta_call_id ta_decision_id approval_of].
  rewrite Ho. cbn [negb]. unfold tbind at 1, tlift at 1.
  rewrite (proj2 (sql_u64_ok (ap_expires_at_ms row) _)) by (split; [done|lia]).
  destruct (Z.ltb_spec now (ap_expires_at_ms row)); [lia|].
  unfold tbind at 1, update_approval. rewrite Hr, (open_states s row Hs Ho).
  match goal with |- context [put_approval c ?r] => change r with (expired_row row now) end.
  unfold tbind at 1. rewrite (proj2 (put_approval_ok c (expired_row row now) db tt
    (set_approvals (<[c := expired_row row now]> (tool_approvals db)) db))).
  2:{ split; [done|]. split; [by apply keeps_ids_unique|reflexivity]. }
  cbn [tret fst]. unfold tret, tbind at 1, insert_event. destruct (Z.ltb_spec now 0); [lia|].
  cbn [tool_approvals set_approvals]. rewrite lookup_insert_eq.
  unfold tbind, tread, require_record, read_record. cbn [tool_approvals set_approvals set_approval_events].
  rewrite lookup_insert_eq, (row_to_record_total _ _ AExpired) by done. reflexivity.
Qed.

Lemma require_record_total c row s db :
  tools_ok db -> tool_approvals db !! c = Some row -> ap_state row = as_str s ->
  require_record c db = Ok (approval_of c row s).
Proof.
  intros Hok Hr Hs. unfold require_record, read_record. rewrite Hr.
  destruct (t_check _ Hok c row Hr) as [Hc _]. by rewrite (row_to_record_total _ _ s).
Qed.

Lemma put_execution_total c x x' db :
  tools_ok db -> tool_executions db !! c = Some x -> ex_execution_id x' = ex_execution_id x ->
  put_execution c x' db
  = if execution_check x' then (Ok tt, set_executions (<[c := x']> (tool_executions db)) db)
    else (Err (Database ConstraintCheck), db).
Proof.
  intros Hok Hx Hid. destruct (t_execution _ Hok c x Hx) as (_ & row & Hr & _). unfold put_execution.
  destruct (execution_check x'); [|done]. cbn [negb]. rewrite taken_false; [by rewrite Hr|].
  intros k r Hk [= Heq]. assert (ByExecution k = ByExecution c) as [= ?]; [|done].
  apply (t_unique _ Hok (ex_execution_id x')); [by exists r|by exists x].
Qed.

Definition interrupted_row (x : ExecutionRow) (now : Z) : ExecutionRow :=
  mkExecutionRow (ex_execution_id x) "interrupted" None (ex_started_at_ms x) (Some now).

(** The clock of this recovery is not behind the start of the call. *)
Definition in_time (now : Z) (db : ToolDb) (call : string * string) : bool :=
  match tool_executions db !! call.1 with
  | Some x => ex_started_at_ms x <=? now
  | None => true
  end.

Lemma prepared_row_check x now :
  execution_check x = true -> ex_state x = "prepared" ->
  ex_result_digest x = None
  /\ execution_check (interrupted_row x now) = (ex_started_at_ms x <=? now).
Proof.
  unfold execution_check. intros Hc Hs. bools. rewrite Hs in *.
  destruct (ex_result_digest x); [by destruct (ex_finished_at_ms x)|]. split; [done|].
  simpl. rewrite (proj2 (Z.leb_le 0 (ex_started_at_ms x))) by done. simpl.
  by rewrite andb_true_r.
Qed.

Lemma interrupt_head now c e rest x db :
  tools_ok db -> 0 <= now -> tool_executions db !! c = Some x -> ex_execution_id x = e ->
  ex_state x = "prepared" ->
  interrupt_each now ((c, e) :: rest) db
  = if ex_started_at_ms x <=? now
    then interrupt_each now rest (executed c (interrupted_row x now) e XInterrupted None now db)
    else (Err (Database ConstraintCheck), db).
Proof.
  intros Hok Hnow Hx He Hs. cbn [interrupt_each]. unfold tbind at 1, update_prepared. rewrite Hx.
  rewrite !bool_decide_eq_true_2 by done. cbn [andb].
  destruct (prepared_row_check x now (proj1 (t_execution _ Hok c x Hx)) Hs) as [Hd Hc].
  rewrite Hd. fold (interrupted_row x now). unfold tbind at 1.
  rewrite (put_execution_total c x) by done. rewrite Hc.
  destruct (ex_started_at_ms x <=? now); [|done]. cbn [tret negb]. unfold tret. cbn.
  unfold tbind, insert_execution_event. destruct (Z.ltb_spec now 0); [lia|]. cbn.
  by rewrite lookup_insert_eq.
Qed.

Lemma interrupt_each_spec now calls db :
  tools_ok db -> 0 <= now -> NoDup (map fst calls) ->
  Forall (fun p => exists x, tool_executions db !! p.1 = Some x /\ ex_execution_id x = p.2
                     /\ ex_state x = "prepared") calls ->
  if forallb (in_time now db) calls
  then exists db', interrupt_each now calls db = (Ok tt, db')
         /\ (forall c, (c ∉ map fst calls) -> tool_executions db' !! c = tool_executions db !! c)
         /\ (forall c x, c ∈ map fst calls -> tool_executions db !! c = Some x ->
               tool_executions db' !! c = Some (interrupted_row x now))
         /\ tool_approvals db' = tool_approvals db
  else exists db', interrupt_each now calls db = (Err (Database ConstraintCheck), db').
Proof.
  intros Hok Hnow. revert db Hok. induction calls as [|[c e] calls IH]; intros db Hok Hnd Hall.
  { simpl. exists db. split; [done|]. split; [done|]. split; [|done]. by intros ? ? ?%elem_of_nil. }
  simpl in Hnd. apply NoDup_cons in Hnd as [Hnin Hnd].
  apply Forall_cons in Hall as [(x & Hx & He & Hs) Hall]. simpl in Hx, He.
  rewrite (interrupt_head now c e calls x) by done. cbn [forallb].
  unfold in_time at 1. cbn [fst]. rewrite Hx.
  destruct (Z.leb_spec (ex_started_at_ms x) now) as [Hle|Hgt]; cbn [andb]; [|by eexists].
  set (db1 := executed c (interrupted_row x now) e XInterrupted None now db).
  assert (tools_ok db1) as Hok1.
  { subst e. apply (ok_finish db c x XInterrupted None now); try done.
    destruct (prepared_row_check x now (proj1 (t_execution _ Hok c x Hx)) Hs) as [_ Hck].
    transitivity (ex_started_at_ms x <=? now); [exact Hck|by apply Z.leb_le]. }
  assert (forall k, k <> c -> tool_executions db1 !! k = tool_executions db !! k) as Hne.
  { intros k Hk. unfold db1. simpl. by rewrite lookup_insert_ne. }
  assert (forall p, p ∈ calls -> p.1 <> c) as Hcalls.
  { intros p Hp Hpc. apply Hnin. rewrite <- Hpc. apply list_elem_of_fmap. eauto. }
  assert (forallb (in_time now db1) calls = forallb (in_time now db) calls) as Heq.
  { clear -Hne Hcalls. induction calls as [|p calls IH]; [done|]. simpl. f_equal.
    - unfold in_time. by rewrite Hne by (apply Hcalls; left).
    - apply IH. intros q Hq. apply Hcalls. by right. }
  specialize (IH db1 Hok1 Hnd). rewrite Heq in IH.
  assert (Forall (fun p => exists x, tool_executions db1 !! p.1 = Some x /\ ex_execution_id x = p.2
                     /\ ex_state x = "prepared") calls) as Hall1.
  { apply Forall_forall. intros p Hp. rewrite Hne by by apply Hcalls. by eapply Forall_forall in Hall. }
  specialize (IH Hall1). destruct (forallb (in_time now db) calls); [|exact IH].
  destruct IH as (db' & Hop & Hout & Hin & Hap). exists db'. split; [done|]. split; [|split; [|done]].
  - intros k [Hkc Hk]%not_elem_of_cons. by rewrite Hout, Hne by done.
  - intros k y [->|Hk]%elem_of_cons Hy.
    + simpl in Hy |- *. assert (y = x) as -> by congruence. rewrite Hout by done. unfold db1. simpl.
      by rewrite lookup_insert_eq.
    + apply Hin; [done|]. rewrite Hne; [done|]. by intros ->.
Qed.

Lemma elem_of_prepared_calls c e db :
  (c, e) ∈ prepared_calls db <->
  exists x, tool_executions db !! c = Some x /\ ex_execution_id x = e /\ ex_state x = "prepared".
Proof.
  unfold prepared_calls, prepared_rows. rewrite list_elem_of_fmap. split.
  - intros ([c' x] & [= -> ->] & Hin). rewrite merge_sort_Permutation in Hin.
    apply list_elem_of_filter in Hin as [Hs Hin%elem_of_map_to_list]. eauto.
  - intros (x & Hx & <- & Hs). exists (c, x). split; [done|]. rewrite merge_sort_Permutation.
    apply list_elem_of_filter. split; [done|by apply elem_of_map_to_list].
Qed.

Lemma prepared_calls_NoDup db : NoDup (map fst (prepared_calls db)).
Proof.
  unfold prepared_calls, prepared_rows. rewrite map_map. simpl. rewrite merge_sort_Permutation.
  eapply sublist_NoDup; [apply (NoDup_fst_map_to_list (tool_executions db))|].
  apply fmap_sublist, sublist_filter.
Qed.

Lemma prepared_calls_prepared db :
  Forall (fun p => exists x, tool_executions db !! p.1 = Some x /\ ex_execution_id x = p.2
                     /\ ex_state x = "prepared") (prepared_calls db).
Proof. apply Forall_forall. intros [c e] Hin. by apply elem_of_prepared_calls. Qed.

(** ** Properties *)

(** The tool ledger invariant holds after any sequence of calls: rows meet the
    table constraints and the fifteen-minute bound, the event log of a call is a
    path of the state machine that ends in its state, an execution exists
    exactly for consumed approvals, execution logs read prepared then at most
    one outcome, and no resolution identifier is recorded twice.  A failed call
    changes nothing. *)
Theorem tool_calls_preserve_invariant (db db' : ToolDb)
    (Hok : tools_ok db) (Hs : rtc tool_step db db') :
  tools_ok db' /\ tools_ok empty_tool_db
  /\ (forall op e db'', texec op db = (Err e, db'') -> db'' = db).
Proof.
  destruct (steps_ok db db' Hok Hs). split; [done|]. split; [exact tools_ok_empty|].
  intros op e db''. apply texec_err.
Qed.

(** C11: every successful call refines the approval machine: it is a sequence of
    the atomic effects create, decide, cancel, expire, prepare and finish, each
    guarded by the state, the expiry and the freshness of the identifier it
    records. *)
Theorem tool_calls_refine_effects (op : tool_op) (db db' : ToolDb)
    (Hop : texec op db = (Ok tt, db')) : rtc tool_effect db db'.
Proof. by eapply texec_ok. Qed.

(** C3: an effect runs only on one live, exact, explicit approval: when a
    preparation returns [Prepared], the call was approved by a recorded
    decision, with this digest, and had not expired; and whatever happens
    later, neither the call nor the execution identifier is ever prepared
    again. *)
Theorem effect_needs_one_live_exact_approval (c dg e : string) (now : Z) (rec : ToolExecutionRecord)
    (db db1 db2 : ToolDb) (Hok : tools_ok db)
    (Hop : prepare_tool_execution c dg e now db = (Ok (Prepared rec), db1))
    (Hs : rtc tool_step db1 db2) :
  (exists row d, tool_approvals db !! c = Some row /\ ap_state row = "approved"
     /\ ap_decision_id row = Some d /\ ap_call_digest row = dg /\ now < ap_expires_at_ms row
     /\ approval_log c db = ["pending"; "approved"])
  /\ (forall dg' e' now' rec' db3,
        prepare_tool_execution c dg' e' now' db2 <> (Ok (Prepared rec'), db3))
  /\ (forall c' dg' now' rec' db3,
        prepare_tool_execution c' dg' e now' db2 <> (Ok (Prepared rec'), db3)).
Proof.
  assert (tools_ok db1) as Hok1.
  { eapply (steps_ok db); [done|]. apply rtc_once. apply (tool_step_exec (TPrepare c dg e now) _ (Ok tt)).
    simpl. by rewrite Hop. }
  destruct (steps_ok db1 db2 Hok1 Hs) as [Hok2 [Hap Hex]%effects_evolve].
  apply prepare_ok in Hop as (row & s & Hr & Hst & Hdg
    & [(rec0 & ? & _)|(-> & Hlt & Hres & Hx & Hc & Hrec & ->)]); [done|].
  destruct (Hex c (mkExecutionRow e "prepared" None now None)) as (x2 & Hx2 & [Hid _]%execution_row_fixed);
    [apply execution_lookup; by left|].
  split; [|split].
  - destruct (t_check _ Hok c row Hr) as [Hchk _].
    destruct (open_no_cancellation row AApproved Hchk Hst eq_refl) as (_ & _ & Hd).
    destruct (Hd eq_refl) as [d Hdd]. exists row, d. pose proof (t_log _ Hok c) as Hl. rewrite Hr in Hl.
    destruct Hl as (s & Hss & Hp). assert (s = AApproved) as -> by (apply as_str_inj; congruence).
    apply approval_path_inv in Hp. done.
  - intros dg' e' now' rec' db3 (row' & s' & _ & _ & _
      & [(? & ? & _)|(_ & _ & _ & Hn & _)])%prepare_ok; [done|congruence].
  - intros c' dg' now' rec' db3 (row' & s' & _ & _ & _
      & [(? & ? & _)|(_ & _ & Hf & _)])%prepare_ok; [done|].
    apply (resolution_fresh _ _ (ByExecution c)) in Hf. apply Hf. by exists x2.
Qed.

(** Approvals only move along the state machine and closed ones are final:
    whatever calls follow, a call keeps its tool, digest and lifetime, and once
    it is denied, cancelled, expired or consumed its row never changes; a
    finished execution never changes either and cannot be completed again. *)
Theorem closed_approvals_and_finished_executions_are_final (db db' : ToolDb) (c : string)
    (Hok : tools_ok db) (Hs : rtc tool_step db db') :
  (forall row, tool_approvals db !! c = Some row ->
     exists row', tool_approvals db' !! c = Some row' /\ rtc approval_row_step row row'
       /\ ap_tool_id row' = ap_tool_id row /\ ap_call_digest row' = ap_call_digest row
       /\ ap_expires_at_ms row' = ap_expires_at_ms row
       /\ (forall s, ap_state row = as_str s -> is_open s = false -> row' = row))
  /\ (forall x, tool_executions db !! c = Some x ->
     exists x', tool_executions db' !! c = Some x' /\ ex_execution_id x' = ex_execution_id x
       /\ (ex_state x <> "prepared" -> x' = x
           /\ forall e o res now r db'', complete_tool_execution c e o res now db' <> (Ok r, db''))).
Proof.
  destruct (steps_ok db db' Hok Hs) as [_ [Hap Hex]%effects_evolve]. split.
  - intros row Hr. destruct (Hap c row Hr) as (row' & Hr' & Hst). exists row'.
    destruct (approval_row_fixed _ _ Hst) as (? & ? & _ & ?).
    repeat split; try done. intros s Hss Ho. by eapply approval_row_closed.
  - intros x Hx. destruct (Hex c x Hx) as (x' & Hx' & Hst). exists x'. split; [done|].
    destruct (execution_row_fixed _ _ Hst) as [? _]. split; [done|]. intros Hne.
    pose proof (execution_row_finished _ _ Hne Hst) as ->. split; [done|].
    intros e o res now r db'' (y & Hy & _ & Hyp & _)%complete_ok. congruence.
Qed.

(** Expiry always wins: from the expiry time on, deciding, cancelling,
    preparing or reading an open approval (with well-formed arguments and the
    right digest) returns the expired record and durably stores the expired
    state; it never approves, denies, cancels or consumes it. *)
Theorem expiry_always_wins (db : ToolDb) (c dg id : string) (decision : ToolApprovalDecision)
    (now : Z) (row : ApprovalRow) (s : ToolApprovalState)
    (Hok : tools_ok db) (Hr : tool_approvals db !! c = Some row)
    (Hs : ap_state row = as_str s) (Ho : is_open s = true)
    (Hnow : ap_expires_at_ms row <= now <= i64_max)
    (Hc : forall m, validate_id c m = Ok tt) (Hid : forall m, validate_id id m = Ok tt)
    (Hdg : validate_digest dg = Ok tt) (Heq : ap_call_digest row = dg)
    (Hgov : governed_tool_intents db = [] /\ governed_approval_previews db = ∅) :
  let rec := approval_of c (expired_row row now) AExpired in
  let db' := moved c (expired_row row now) AExpired (ap_decision_id row) None now db in
  decide_tool_approval c dg id decision now db = (Ok rec, db')
  /\ cancel_tool_approval c id now db = (Ok rec, db')
  /\ prepare_tool_execution c dg id now db = (Ok (Expired rec), db')
  /\ tool_approval c now db = (Ok (Some rec), db')
  /\ tool_approvals db' !! c = Some (expired_row row now).
Proof.
  intros rec db'.
  pose proof (expire_total c row s now db Hok Hr Hs Ho Hnow) as Hexp.
  pose proof (require_record_total c row s db Hok Hr Hs) as Hreq.
  assert (sql_u64 now = Ok now) as Hsql by (apply sql_u64_ok; split; [done|lia]).
  assert (require_digest (approval_of c row s) dg = Ok tt) as Hd
    by (unfold require_digest; simpl; by rewrite bool_decide_eq_true_2).
  assert (read_record c db = Ok (Some (approval_of c row s))) as Hread.
  { unfold require_record in Hreq. destruct (read_record c db) as [[r|]|]; simpl in Hreq; congruence. }
  destruct Hgov as [Hg1 Hg2]. split; [|split; [|split; [|split]]].
  - unfold decide_tool_approval, transaction, tbind, tlift, tread.
    by rewrite !Hc, Hdg, !Hid, Hsql, Hreq, Hd, Hexp.
  - unfold cancel_tool_approval, transaction, tbind, tlift, tread.
    by rewrite !Hc, !Hid, Hsql, Hreq, Hexp.
  - unfold prepare_tool_execution, transaction, tbind, tlift, tread.
    rewrite !Hc, Hdg, !Hid, Hsql, Hg1, Hg2. cbn [existsb orb].
    rewrite bool_decide_eq_false_2 by set_solver. by rewrite Hreq, Hd, Hexp.
  - unfold tool_approval, transaction, tbind, tlift, tread. by rewrite !Hc, Hsql, Hread, Hexp.
  - apply moved_lookup. by left.
Qed.

(** Reopening the store interrupts exactly the unfinished executions when the
    clock is not behind the start of any of them: it returns their number,
    leaves none prepared, and touches no finished execution and no approval. *)
Theorem recovery_interrupts_prepared_executions (db : ToolDb) (now : Z)
    (Hok : tools_ok db) (Hnow : 0 <= now <= i64_max)
    (Htime : forall c x, tool_executions db !! c = Some x -> ex_state x = "prepared" ->
               ex_started_at_ms x <= now) :
  exists db', recover_prepared_on now db = (Ok (Z.of_nat (length (prepared_calls db))), db')
    /\ (forall c x, tool_executions db !! c = Some x ->
          tool_executions db' !! c
          = Some (if bool_decide (ex_state x = "prepared") then interrupted_row x now else x))
    /\ tool_approvals db' = tool_approvals db /\ prepared_calls db' = [].
Proof.
  pose proof (interrupt_each_spec now (prepared_calls db) db Hok ltac:(lia) (prepared_calls_NoDup db)
                (prepared_calls_prepared db)) as Hspec.
  rewrite (proj2 (forallb_Forall _ _)) in Hspec.
  2:{ apply Forall_forall. intros [c e] (x & Hx & _ & Hs)%elem_of_prepared_calls.
      unfold in_time. simpl. rewrite Hx. apply Z.leb_le. eauto. }
  destruct Hspec as (db' & Hop & Hout & Hin & Hap). exists db'.
  assert (forall c x, tool_executions db !! c = Some x ->
          tool_executions db' !! c
          = Some (if bool_decide (ex_state x = "prepared") then interrupted_row x now else x)) as Hall.
  { intros c x Hx. case_bool_decide as Hp.
    - apply Hin; [|done]. apply list_elem_of_fmap. exists (c, ex_execution_id x). split; [done|].
      apply elem_of_prepared_calls. eauto.
    - rewrite Hout; [done|]. intros ([c' e] & -> & Hc)%list_elem_of_fmap.
      apply elem_of_prepared_calls in Hc as (x' & Hx' & _ & Hp'). simpl in *. congruence. }
  split; [|split; [done|split; [done|]]].
  - unfold recover_prepared_on, transaction, tbind, tlift, tread.
    rewrite (proj2 (sql_u64_ok now now)) by (split; [done|lia]). by rewrite Hop.
  - apply elem_of_nil_inv. intros [c e] (x & Hx & _ & Hp)%elem_of_prepared_calls.
    destruct (tool_executions db !! c) as [x0|] eqn:Hx0.
    + rewrite (Hall c x0 Hx0) in Hx. injection Hx as <-. by case_bool_decide.
    + rewrite Hout in Hx; [congruence|].
      intros ([c' e'] & -> & Hc)%list_elem_of_fmap. apply elem_of_prepared_calls in Hc as (? & Hc & _).
      simpl in *. congruence.
Qed.

(** When the clock was set back behind the start of an unfinished execution,
    recovery cannot store the interruption: the row would finish before it
    started, the table constraint rejects it, and the whole recovery (hence
    opening the store) fails and changes nothing, until the clock catches up. *)
Theorem recovery_fails_on_clock_rollback (db : ToolDb) (now : Z) (c : string) (x : ExecutionRow)
    (Hok : tools_ok db) (Hnow : 0 <= now <= i64_max)
    (Hx : tool_executions db !! c = Some x) (Hs : ex_state x = "prepared")
    (Hlate : now < ex_started_at_ms x) :
  recover_prepared_on now db = (Err (Database ConstraintCheck), db).
Proof.
  pose proof (interrupt_each_spec now (prepared_calls db) db Hok ltac:(lia) (prepared_calls_NoDup db)
                (prepared_calls_prepared db)) as Hspec.
  destruct (forallb (in_time now db) (prepared_calls db)) eqn:Hall.
  - exfalso. apply forallb_Forall in Hall.
    assert ((c, ex_execution_id x) ∈ prepared_calls db) as Hin by (apply elem_of_prepared_calls; eauto).
    eapply Forall_forall in Hall; [|exact Hin]. unfold in_time in Hall. simpl in Hall.
    rewrite Hx in Hall. apply Z.leb_le in Hall. lia.
  - destruct Hspec as [db' Hop]. unfold recover_prepared_on, transaction, tbind, tlift, tread.
    rewrite (proj2 (sql_u64_ok now now)) by (split; [done|lia]). by rewrite Hop.
Qed.

(** ** Instances *)
Module ToolExample.
Definition digest : string := "aaaaaaaaaaaaaaaaaaaaaaaaaaaaaaaaaaaaaaaaaaaaaaaaaaaaaaaaaaaaaaaa".
Definition new_call : NewToolApproval := mkNewToolApproval "call-1" "tool-1" digest 1000 2000.
Definition script : list tool_op :=
  [TCreate new_call; TDecide "call-1" digest "decision-1" Approve 1500].
Definition tplay (l : list tool_op) (db : ToolDb) : ToolDb := fold_left (fun db op => (texec op db).2) l db.

Lemma tplay_steps l db : rtc tool_step db (tplay l db).
Proof.
  revert db. induction l as [|op l IH]; intros db; [constructor|].
  eapply rtc_l; [|apply IH]. simpl. destruct (texec op db) as [r db'] eqn:He. by econstructor.
Defined.

Definition approved_db : ToolDb := tplay script empty_tool_db.
Definition prepared_db : ToolDb := tplay [TPrepare "call-1" digest "execution-1" 1600] approved_db.
Definition approved_row : ApprovalRow :=
  mkApprovalRow "tool-1" digest "approved" (Some "decision-1") None 1000 2000 1500.
Definition prepared_row : ExecutionRow := mkExecutionRow "execution-1" "prepared" None 1600 None.

Lemma approved_ok : tools_ok approved_db.
Proof. apply (steps_ok empty_tool_db); [exact tools_ok_empty|apply tplay_steps]. Qed.
Lemma prepared_ok : tools_ok prepared_db.
Proof. apply (steps_ok approved_db); [exact approved_ok|apply tplay_steps]. Qed.

Lemma tool_calls_preserve_invariant_witness :
  tools_ok prepared_db /\ tool_executions prepared_db !! "call-1" = Some prepared_row.
Proof.
  split; [|vm_compute; reflexivity].
  exact (proj1 (tool_calls_preserve_invariant approved_db prepared_db approved_ok
                  (tplay_steps [TPrepare "call-1" digest "execution-1" 1600] approved_db))).
Defined.

Lemma tool_calls_refine_effects_witness : rtc tool_effect empty_tool_db (tplay [TCreate new_call] empty_tool_db).
Proof. apply (tool_calls_refine_effects (TCreate new_call)). vm_compute. reflexivity. Defined.

Lemma effect_needs_one_live_exact_approval_witness :
  ap_decision_id approved_row = Some "decision-1"
  /\ (forall dg' e' now' rec' db3,
        prepare_tool_execution "call-1" dg' e' now' prepared_db <> (Ok (Prepared rec'), db3)).
Proof.
  split; [reflexivity|].
  refine (proj1 (proj2 (effect_needs_one_live_exact_approval "call-1" digest "execution-1" 1600
    (mkToolExecutionRecord "call-1" "execution-1" XPrepared None 1600 None)
    approved_db prepared_db prepared_db approved_ok _ (rtc_refl _ _)))).
  vm_compute. reflexivity.
Defined.

Lemma closed_approvals_and_finished_executions_are_final_witness :
  exists x', tool_executions (tplay script prepared_db) !! "call-1" = Some x' /\ ex_execution_id x' = "execution-1".
Proof.
  destruct (proj2 (closed_approvals_and_finished_executions_are_final prepared_db (tplay script prepared_db)
    "call-1" prepared_ok (tplay_steps script prepared_db)) prepared_row) as (x' & Hx & Hid & _);
    [vm_compute; reflexivity|]. exists x'. split; [exact Hx|exact Hid].
Defined.

Lemma expiry_always_wins_witness :
  tool_approvals (moved "call-1" (expired_row approved_row 2000) AExpired (Some "decision-1") None 2000
                    approved_db) !! "call-1" = Some (expired_row approved_row 2000).
Proof.
  refine (proj2 (proj2 (proj2 (proj2 (expiry_always_wins approved_db "call-1" digest "execution-1" Approve 2000
    approved_row AApproved approved_ok _ eq_refl eq_refl _ (fun _ => eq_refl) (fun _ => eq_refl)
    eq_refl eq_refl _))))).
  - vm_compute. reflexivity.
  - unfold approved_row, i64_max. simpl. lia.
  - split; vm_compute; reflexivity.
Defined.

Lemma only_prepared_row c x : tool_executions prepared_db !! c = Some x -> c = "call-1" /\ x = prepared_row.
Proof.
  intros Hx%elem_of_map_to_list. vm_compute in Hx.
  apply elem_of_cons in Hx as [[= -> ->]|Hx]; [done|]. by apply elem_of_nil in Hx.
Qed.

Lemma recovery_interrupts_prepared_executions_witness :
  exists db', recover_prepared_on 1700 prepared_db = (Ok 1, db') /\ prepared_calls db' = [].
Proof.
  destruct (recovery_interrupts_prepared_executions prepared_db 1700 prepared_ok) as (db' & Hop & _ & _ & Hnil).
  - unfold i64_max. lia.
  - intros c x [_ ->]%only_prepared_row _. simpl. lia.
  - exists db'. split; [rewrite Hop; vm_compute; reflexivity|exact Hnil].
Defined.

Lemma recovery_fails_on_clock_rollback_witness :
  recover_prepared_on 1599 prepared_db = (Err (Database ConstraintCheck), prepared_db).
Proof.
  apply (recovery_fails_on_clock_rollback prepared_db 1599 "call-1" prepared_row prepared_ok).
  - unfold i64_max. lia.
  - vm_compute. reflexivity.
  - reflexivity.
  - simpl. lia.
Defined.
End ToolExample.
