(* ===== verification/ModelOperation.v ===== *)
(** * Model operations (src/src/runtime/store/model_operation.rs)

    Durable download, load and unload operations of local models: a bounded
    table, a strict state machine with monotone progress and time, and recovery
    of what a stopped process left unfinished. *)
From stdpp Require Import base list gmap strings relations.
From Stdlib Require Import ZArith Lia.
From S2P Require Import Prelude RustStr RunContract StoreBase.

Open Scope Z_scope.
Open Scope rust_scope.

Module Model.
Definition MAX_ID_BYTES : Z := 128.
Definition MAX_MODEL_OPERATIONS : Z := 4096.

Inductive ModelOperationKind := Download | Load | Unload.
Inductive ModelOperationState := MQueued | MRunning | MSucceeded | MFailed | MCancelled.
#[export] Instance ModelOperationState_eq_dec : EqDecision ModelOperationState.
Proof. solve_decision. Defined.

Definition kind_as_str (k : ModelOperationKind) : string :=
  match k with Download => "download" | Load => "load" | Unload => "unload" end.
Definition kind_parse (value : string) : result StoreError ModelOperationKind :=
  if bool_decide (value = "download") then Ok Download
  else if bool_decide (value = "load") then Ok Load
  else if bool_decide (value = "unload") then Ok Unload
  else Err (CorruptData "invalid model operation kind").

Definition mstate_as_str (s : ModelOperationState) : string :=
  match s with
  | MQueued => "queued"
  | MRunning => "running"
  | MSucceeded => "succeeded"
  | MFailed => "failed"
  | MCancelled => "cancelled"
  end.
Definition mstate_parse (value : string) : result StoreError ModelOperationState :=
  if bool_decide (value = "queued") then Ok MQueued
  else if bool_decide (value = "running") then Ok MRunning
  else if bool_decide (value = "succeeded") then Ok MSucceeded
  else if bool_decide (value = "failed") then Ok MFailed
  else if bool_decide (value = "cancelled") then Ok MCancelled
  else Err (CorruptData "invalid model operation state").
Definition terminal (s : ModelOperationState) : bool :=
  match s with MSucceeded | MFailed | MCancelled => true | _ => false end.

Record NewModelOperation := mkNewModelOperation {
  nm_operation_id : string;
  nm_model_id : string;
  nm_revision : string;
  nm_kind : ModelOperationKind;
  nm_created_at_ms : Z;
}.
Record ModelOperationRecord := mkModelOperationRecord {
  mo_operation_id : string;
  mo_model_id : string;
  mo_revision : string;
  mo_kind : ModelOperationKind;
  mo_state : ModelOperationState;
  mo_progress_basis_points : Z;
  mo_created_at_ms : Z;
  mo_updated_at_ms : Z;
}.

(** ** The table *)
Record ModelRow := mkModelRow {
  mr_model_id : string;
  mr_revision : string;
  mr_kind : string;
  mr_state : string;
  mr_progress : Z;
  mr_created : Z;
  mr_updated : Z;
}.
Abbreviation ModelDb := (gmap string ModelRow).

Definition model_check (row : ModelRow) : bool :=
  is_ok (kind_parse (mr_kind row)) && is_ok (mstate_parse (mr_state row))
  && (0 <=? mr_progress row) && (mr_progress row <=? 10000)
  && (0 <=? mr_created row) && (mr_created row <=? mr_updated row).

Definition insert_model (id : string) (row : ModelRow) : Tx ModelDb StoreError Z := fun db =>
  if negb (model_check row) then (Err (Database ConstraintCheck), db)
  else match db !! id with
       | Some _ => (Err (Database ConstraintPrimaryKey), db)
       | None => (Ok 1, <[id := row]> db)
       end.

(** [UPDATE model_operations SET state, progress, updated WHERE operation_id] *)
Definition update_model (id state : string) (progress updated : Z) : Tx ModelDb StoreError unit := fun db =>
  match db !! id with
  | None => (Ok tt, db)
  | Some row =>
      let row' := mkModelRow (mr_model_id row) (mr_revision row) (mr_kind row) state progress
                    (mr_created row) updated in
      if negb (model_check row') then (Err (Database ConstraintCheck), db)
      else (Ok tt, <[id := row']> db)
  end.

Definition is_unique (e : SqlError) : bool :=
  match e with ConstraintPrimaryKey | ConstraintUnique => true | _ => false end.

(** ** Helpers *)
Definition validate_id (value : string) : result StoreError unit :=
  if is_empty value || (MAX_ID_BYTES <? slen value) || negb (forallb is_identifier_byte (bytes value))
  then Err (InvalidInput "invalid model operation identifier")
  else Ok tt.

Definition permitted (from to : ModelOperationState) : bool :=
  match from, to with
  | MQueued, MRunning | MQueued, MCancelled | MQueued, MFailed
  | MRunning, MRunning | MRunning, MSucceeded | MRunning, MFailed | MRunning, MCancelled => true
  | _, _ => false
  end.

Definition sql_time (v : Z) : result StoreError Z :=
  if v <=? i64_max then Ok v else Err (InvalidInput "model operation time exceeds i64").

Definition decode_model (id : string) (row : ModelRow) : result StoreError ModelOperationRecord :=
  let? kind := kind_parse (mr_kind row) in
  let? state := mstate_parse (mr_state row) in
  fail? negb ((0 <=? mr_progress row) && (mr_progress row <=? u16_max))
  with CorruptData "invalid model progress" in
  fail? mr_created row <? 0 with CorruptData "invalid model creation time" in
  fail? mr_updated row <? 0 with CorruptData "invalid model update time" in
  Ok (mkModelOperationRecord id (mr_model_id row) (mr_revision row) kind state (mr_progress row)
        (mr_created row) (mr_updated row)).

Definition row_by_id (id : string) (db : ModelDb) : result StoreError (option ModelOperationRecord) :=
  match db !! id with
  | None => Ok None
  | Some row => let? r := decode_model id row in Ok (Some r)
  end.

(** ** Operations *)
Definition create_model_operation (operation : NewModelOperation)
    : Tx ModelDb StoreError ModelOperationRecord :=
  tlift (validate_id (nm_operation_id operation)) ;;
  tlift (validate_id (nm_model_id operation)) ;;
  tlift (validate_id (nm_revision operation)) ;;
  created <- tlift (sql_time (nm_created_at_ms operation)) ;
  count <- tread (fun db => Ok (Z.of_nat (size db))) ;
  if MAX_MODEL_OPERATIONS <=? count then traise ModelOperationCapacity
  else fun db =>
    match insert_model (nm_operation_id operation)
            (mkModelRow (nm_model_id operation) (nm_revision operation)
               (kind_as_str (nm_kind operation)) "queued" 0 created created) db with
    | (Ok 1, db') =>
        (found <- tread (row_by_id (nm_operation_id operation)) ;
         tlift (ok_or found (CorruptData "new model operation disappeared"))) db'
    | (Ok _, db') => (Err (CorruptData "model operation insert count"), db')
    | (Err (Database e), db') =>
        if is_unique e then (Err ModelOperationConflict, db') else (Err (Database e), db')
    | (Err e, db') => (Err e, db')
    end.

Definition model_operation (operation_id : string) : Tx ModelDb StoreError (option ModelOperationRecord) :=
  tlift (validate_id operation_id) ;; tread (row_by_id operation_id).

Definition transition_model_operation (operation_id : string) (state : ModelOperationState)
    (progress_basis_points updated_at_ms : Z) : Tx ModelDb StoreError ModelOperationRecord :=
  tlift (validate_id operation_id) ;;
  if 10000 <? progress_basis_points then traise (InvalidInput "model progress exceeds 10000")
  else
    updated <- tlift (sql_time updated_at_ms) ;
    transaction
      (found <- tread (row_by_id operation_id) ;
       current <- tlift (ok_or found (ModelOperationNotFound operation_id)) ;
       if terminal (mo_state current) || negb (permitted (mo_state current) state)
       then traise ModelOperationConflict
       else if (progress_basis_points <? mo_progress_basis_points current)
               || (updated_at_ms <? mo_updated_at_ms current)
               || (bool_decide (state = MSucceeded) && negb (progress_basis_points =? 10000))
       then traise ModelOperationConflict
       else
         update_model operation_id (mstate_as_str state) progress_basis_points updated ;;
         record <- tread (row_by_id operation_id) ;
         tlift (ok_or record (CorruptData "transitioned model operation disappeared"))).

(** ** Recovery *)
Definition incomplete (row : ModelRow) : bool :=
  bool_decide (mr_state row = "queued") || bool_decide (mr_state row = "running").

Definition fail_row (updated : Z) (row : ModelRow) : ModelRow :=
  if incomplete row
  then mkModelRow (mr_model_id row) (mr_revision row) (mr_kind row) "failed" (mr_progress row)
         (mr_created row) (Z.max (mr_updated row) updated)
  else row.

(** One [UPDATE] over the whole table: a single violation undoes it. *)
Definition recover_incomplete_on (updated_at_ms : Z) : Tx ModelDb StoreError Z :=
  updated <- tlift (sql_time updated_at_ms) ;
  fun db =>
    let db' := fail_row updated <$> db in
    if existsb (fun p => incomplete p.2 && negb (model_check (fail_row updated p.2))) (map_to_list db)
    then (Err (Database ConstraintCheck), db)
    else (Ok (Z.of_nat (length (filter (fun p : string * ModelRow => incomplete p.2 = true)
                                  (map_to_list db)))), db').

(** ** Specification *)
Record model_ok (db : ModelDb) : Prop := {
  mk_capacity : Z.of_nat (size db) <= MAX_MODEL_OPERATIONS;
  mk_row : forall id row, db !! id = Some row ->
    model_check row = true /\ (mr_state row = "succeeded" -> mr_progress row = 10000);
}.

(** What happens to a stored operation. *)
Record model_evolves (row row' : ModelRow) : Prop := {
  mv_fixed : mr_model_id row' = mr_model_id row /\ mr_revision row' = mr_revision row
             /\ mr_kind row' = mr_kind row /\ mr_created row' = mr_created row;
  mv_progress : mr_progress row <= mr_progress row';
  mv_updated : mr_updated row <= mr_updated row';
  mv_final : forall s, mr_state row = mstate_as_str s -> terminal s = true -> row' = row;
}.

Inductive model_op :=
| MCreate (o : NewModelOperation)
| MTransition (id : string) (s : ModelOperationState) (progress now : Z)
| MRecover (now : Z).
Definition mexec (op : model_op) (db : ModelDb) : ModelDb :=
  match op with
  | MCreate o => (create_model_operation o db).2
  | MTransition id s p now => (transition_model_operation id s p now db).2
  | MRecover now => (recover_incomplete_on now db).2
  end.

(** ** Lemmas *)
Lemma mstate_parse_as_str s : mstate_parse (mstate_as_str s) = Ok s.
Proof. by destruct s. Qed.
Lemma mstate_as_str_inj s t : mstate_as_str s = mstate_as_str t -> s = t.
Proof. by destruct s, t. Qed.
Lemma mstate_parse_ok v s : mstate_parse v = Ok s -> v = mstate_as_str s.
Proof. unfold mstate_parse. repeat (case_bool_decide; [intros; by simplify_eq|]). discriminate. Qed.

Lemma sql_time_ok n m : sql_time n = Ok m <-> m = n /\ n <= i64_max.
Proof. unfold sql_time. destruct (Z.leb_spec n i64_max); split; intros; deex; simplify_eq; auto; lia. Qed.

Definition model_of (id : string) (row : ModelRow) (k : ModelOperationKind) (s : ModelOperationState)
    : ModelOperationRecord :=
  mkModelOperationRecord id (mr_model_id row) (mr_revision row) k s (mr_progress row)
    (mr_created row) (mr_updated row).

Lemma decode_model_total id row :
  model_check row = true ->
  exists k s, kind_parse (mr_kind row) = Ok k /\ mr_state row = mstate_as_str s
    /\ decode_model id row = Ok (model_of id row k s).
Proof.
  unfold model_check. intros Hc. bools.
  destruct (kind_parse (mr_kind row)) as [k|] eqn:Hk; [|done].
  destruct (mstate_parse (mr_state row)) as [s|] eqn:Hs; [|done].
  exists k, s. split; [done|]. split; [by apply mstate_parse_ok|]. unfold decode_model. rewrite Hk, Hs.
  destruct (Z.leb_spec 0 (mr_progress row)); [|lia]. destruct (Z.leb_spec (mr_progress row) u16_max);
    [|unfold u16_max in *; lia]. simpl.
  destruct (Z.ltb_spec (mr_created row) 0); [lia|]. destruct (Z.ltb_spec (mr_updated row) 0); [lia|]. done.
Qed.

Lemma model_evolves_refl row : model_evolves row row.
Proof. by constructor. Qed.
Lemma model_evolves_trans r1 r2 r3 : model_evolves r1 r2 -> model_evolves r2 r3 -> model_evolves r1 r3.
Proof.
  intros [(H1 & H2 & H3 & H4) Hp Hu Hf] [(G1 & G2 & G3 & G4) Gp Gu Gf]. constructor; [|lia..|].
  - repeat split; congruence.
  - intros s Hs Ht. pose proof (Hf s Hs Ht) as ->. by apply (Gf s).
Qed.

(** The row after an accepted transition, or nothing when it is a conflict. *)
Definition advance (row : ModelRow) (st s : ModelOperationState) (progress now : Z) : option ModelRow :=
  if terminal st || negb (permitted st s) || (progress <? mr_progress row) || (now <? mr_updated row)
     || (bool_decide (s = MSucceeded) && negb (progress =? 10000))
  then None
  else Some (mkModelRow (mr_model_id row) (mr_revision row) (mr_kind row) (mstate_as_str s) progress
               (mr_created row) now).

Lemma advance_check row st s progress now row' :
  model_check row = true -> progress <= 10000 -> advance row st s progress now = Some row' ->
  model_check row' = true.
Proof.
  unfold advance. intros Hc Hp. destruct (_ || _) eqn:Hb; [discriminate|]. intros [= <-]. bools.
  unfold model_check in *. simpl. bools. rewrite mstate_parse_as_str. simpl.
  rewrite !andb_true_iff, !Z.leb_le. repeat split; try done; lia.
Qed.

Lemma transition_cases id s progress now db row k st :
  validate_id id = Ok tt -> progress <= 10000 -> now <= i64_max ->
  db !! id = Some row -> model_check row = true -> kind_parse (mr_kind row) = Ok k ->
  mr_state row = mstate_as_str st ->
  transition_model_operation id s progress now db
  = match advance row st s progress now with
    | Some row' => (Ok (model_of id row' k s), <[id := row']> db)
    | None => (Err ModelOperationConflict, db)
    end.
Proof.
  intros Hid Hp Hn Hr Hc Hk Hst. unfold transition_model_operation, transaction, tbind, tlift, tread.
  rewrite Hid. destruct (Z.ltb_spec 10000 progress); [lia|].
  rewrite (proj2 (sql_time_ok now now)) by done. unfold row_by_id at 1. rewrite Hr.
  destruct (decode_model_total id row Hc) as (k' & st' & Hk' & Hst' & ->).
  assert (k' = k) as -> by congruence. assert (st' = st) as -> by (apply mstate_as_str_inj; congruence).
  cbn [ok_or mo_state mo_progress_basis_points mo_updated_at_ms model_of].
  destruct (advance row st s progress now) as [row'|] eqn:Ha.
  - pose proof (advance_check _ _ _ _ _ _ Hc Hp Ha) as Hc'. unfold advance in Ha.
    destruct (_ || _) eqn:Hb; [discriminate|]. injection Ha as <-. apply orb_false_iff in Hb as [Hb Hb5].
    apply orb_false_iff in Hb as [Hb Hb4]. apply orb_false_iff in Hb as [Hb Hb3]. rewrite Hb, Hb3, Hb4, Hb5.
    cbn [orb]. unfold update_model. rewrite Hr, Hc'. cbn [negb]. unfold row_by_id.
    rewrite lookup_insert_eq. destruct (decode_model_total id _ Hc') as (k'' & s'' & Hk'' & Hs'' & ->).
    cbn [ok_or]. simpl in Hk'', Hs''. assert (k'' = k) as -> by congruence.
    by apply mstate_as_str_inj in Hs'' as ->.
  - unfold advance in Ha. destruct (_ || _) eqn:Hb; [|discriminate].
    apply orb_true_iff in Hb as [Hb|Hb5]; [|rewrite Hb5, !orb_true_r; by destruct (_ || negb _)].
    apply orb_true_iff in Hb as [Hb|Hb4]; [|rewrite Hb4, !orb_true_r; by destruct (_ || negb _)].
    apply orb_true_iff in Hb as [->|Hb3]; [done|]. rewrite Hb3. by destruct (_ || negb _).
Qed.

Lemma transition_ok id s progress now db r db' :
  model_ok db -> transition_model_operation id s progress now db = (Ok r, db') ->
  exists row k st row', db !! id = Some row /\ mr_state row = mstate_as_str st
    /\ progress <= 10000 /\ advance row st s progress now = Some row'
    /\ db' = <[id := row']> db /\ r = model_of id row' k s.
Proof.
  intros Hok Hop.
  destruct (validate_id id) as [[]|] eqn:Hid.
  2:{ unfold transition_model_operation, tbind, tlift in Hop. by rewrite Hid in Hop. }
  destruct (Z.ltb_spec 10000 progress).
  { unfold transition_model_operation, tbind, tlift in Hop. rewrite Hid in Hop.
    destruct (Z.ltb_spec 10000 progress); [discriminate|lia]. }
  destruct (Z.leb_spec now i64_max).
  2:{ unfold transition_model_operation, tbind, tlift in Hop. rewrite Hid in Hop.
      destruct (Z.ltb_spec 10000 progress); [discriminate|]. unfold sql_time in Hop.
      destruct (Z.leb_spec now i64_max); [lia|discriminate]. }
  destruct (db !! id) as [row|] eqn:Hr.
  2:{ unfold transition_model_operation, transaction, tbind, tlift, tread, row_by_id in Hop.
      rewrite Hid in Hop. destruct (10000 <? progress); [discriminate|].
      destruct (sql_time now); [|discriminate]. by rewrite Hr in Hop. }
  destruct (mk_row _ Hok id row Hr) as [Hc _]. destruct (decode_model_total id row Hc) as (k & st & Hk & Hst & _).
  rewrite (transition_cases id s progress now db row k st) in Hop by done.
  destruct (advance row st s progress now) as [row'|] eqn:Ha; [|discriminate].
  injection Hop as <- <-. by exists row, k, st, row'.
Qed.

Lemma advance_evolves row st s progress now row' :
  mr_state row = mstate_as_str st -> advance row st s progress now = Some row' -> model_evolves row row'.
Proof.
  intros Hst. unfold advance. destruct (_ || _) eqn:Hb; [discriminate|]. intros [= <-]. bools.
  constructor; simpl; [done|lia..|]. intros s' Hs' Ht. rewrite Hst in Hs'. apply mstate_as_str_inj in Hs' as <-.
  congruence.
Qed.

Lemma transition_err id s progress now db e db' :
  transition_model_operation id s progress now db = (Err e, db') -> db' = db.
Proof.
  unfold transition_model_operation, tbind, tlift. destruct (validate_id id); [|congruence].
  destruct (10000 <? progress); [unfold traise; congruence|]. destruct (sql_time now); [|congruence].
  by intros [-> _]%transaction_err.
Qed.

Lemma create_cases o db r db' :
  create_model_operation o db = (r, db') ->
  db' = db \/ (db !! nm_operation_id o = None /\ Z.of_nat (size db) < MAX_MODEL_OPERATIONS
    /\ exists row, db' = <[nm_operation_id o := row]> db /\ model_check row = true
                   /\ mr_state row = "queued" /\ exists rec, r = Ok rec).
Proof.
  unfold create_model_operation, tbind, tlift, tread.
  destruct (validate_id (nm_operation_id o)); [|intros [= _ <-]; by left].
  destruct (validate_id (nm_model_id o)); [|intros [= _ <-]; by left].
  destruct (validate_id (nm_revision o)); [|intros [= _ <-]; by left].
  destruct (sql_time (nm_created_at_ms o)) as [t|]; [|intros [= _ <-]; by left].
  destruct (Z.leb_spec MAX_MODEL_OPERATIONS (Z.of_nat (size db))); [intros [= _ <-]; by left|].
  unfold insert_model. destruct (model_check _) eqn:Hc; [|intros [= _ <-]; by left]. cbn [negb].
  destruct (db !! nm_operation_id o) eqn:Hr; [intros [= _ <-]; by left|].
  unfold row_by_id. rewrite lookup_insert_eq.
  destruct (decode_model_total (nm_operation_id o) _ Hc) as (k & s & _ & _ & ->). cbn [ok_or].
  intros [= <- <-]. right. split; [done|]. split; [done|]. eexists. eauto 10.
Qed.

Lemma fail_row_check t row : model_check row = true -> model_check (fail_row t row) = true.
Proof.
  intros Hc. unfold fail_row. destruct (incomplete row); [|done]. unfold model_check in *. simpl. bools.
  rewrite !andb_true_iff, !Z.leb_le. repeat split; try done; lia.
Qed.

Lemma fail_row_evolves t row : model_evolves row (fail_row t row).
Proof.
  unfold fail_row. destruct (incomplete row) eqn:Hi; [|apply model_evolves_refl].
  constructor; simpl; [done|lia..|]. intros s Hs Ht. unfold incomplete in Hi. rewrite Hs in Hi.
  by destruct s.
Qed.

Lemma recover_cases now db :
  model_ok db -> now <= i64_max ->
  recover_incomplete_on now db
  = (Ok (Z.of_nat (length (filter (fun p : string * ModelRow => incomplete p.2 = true) (map_to_list db)))),
     fail_row now <$> db).
Proof.
  intros Hok Hn. unfold recover_incomplete_on, tbind, tlift.
  rewrite (proj2 (sql_time_ok now now)) by done.
  rewrite (proj2 (existsb_false_Forall _ _)); [done|]. apply Forall_forall.
  intros [id row] Hin%elem_of_map_to_list. simpl.
  rewrite fail_row_check by (by apply (mk_row _ Hok id)). by destruct (incomplete row).
Qed.

Lemma mexec_ok op db :
  model_ok db ->
  model_ok (mexec op db)
  /\ forall id row, db !! id = Some row -> exists row', mexec op db !! id = Some row' /\ model_evolves row row'.
Proof.
  intros Hok. assert (forall id row, db !! id = Some row -> exists row', db !! id = Some row' /\ model_evolves row row')
    as Hsame by eauto using model_evolves_refl.
  destruct op as [o|id s progress now|now]; simpl.
  - destruct (create_model_operation o db) as [r db'] eqn:Hop.
    apply create_cases in Hop as [->|(Hn & Hcap & row & -> & Hc & Hq & _)]; [done|]. simpl. split.
    + constructor.
      * rewrite map_size_insert_None by done. unfold MAX_MODEL_OPERATIONS in *. lia.
      * intros id row' [[<- <-]|[_ Hr]]%lookup_insert_Some; [|by apply (mk_row _ Hok id)].
        split; [done|]. intros Hs. rewrite Hq in Hs. discriminate.
    + intros id row' Hr. exists row'. rewrite lookup_insert_ne by congruence.
      split; [done|apply model_evolves_refl].
  - destruct (transition_model_operation id s progress now db) as [[r|e] db'] eqn:Hop; simpl.
    2:{ apply transition_err in Hop as ->. done. }
    apply transition_ok in Hop as (row & k & st & row' & Hr & Hst & Hp & Ha & -> & _); [|done].
    destruct (mk_row _ Hok id row Hr) as [Hc _]. split.
    + constructor.
      * rewrite map_size_insert_Some by (by eexists). apply Hok.
      * intros id' r' [[<- <-]|[_ Hr']]%lookup_insert_Some; [|by apply (mk_row _ Hok id')].
        split; [by eapply advance_check|]. unfold advance in Ha. destruct (_ || _) eqn:Hb; [discriminate|].
        injection Ha as <-. simpl. intros Hs. bools.
        assert (s = MSucceeded) as -> by by apply mstate_as_str_inj. simpl in *. bools. done.
    + intros id' r' Hr'. destruct (decide (id = id')) as [<-|Hne].
      * exists row'. rewrite lookup_insert_eq. split; [done|]. assert (r' = row) as -> by congruence.
        by eapply advance_evolves.
      * exists r'. rewrite lookup_insert_ne by done. split; [done|apply model_evolves_refl].
  - destruct (Z.leb_spec now i64_max).
    2:{ unfold recover_incomplete_on, tbind, tlift, sql_time.
        destruct (Z.leb_spec now i64_max); [lia|]. done. }
    rewrite recover_cases by done. simpl. split.
    + constructor.
      * rewrite map_size_fmap. apply Hok.
      * intros id row' (row & <- & Hr)%lookup_fmap_Some. destruct (mk_row _ Hok id row Hr) as [Hc Hs].
        split; [by apply fail_row_check|]. unfold fail_row. destruct (incomplete row); [done|exact Hs].
    + intros id row Hr. exists (fail_row now row). rewrite lookup_fmap, Hr.
      split; [done|apply fail_row_evolves].
Qed.

(** ** Properties *)

(** Under any sequence of create, transition and recovery calls the table stays
    within 4096 well-formed operations, succeeded ones at full progress;
    identifiers are never reused or dropped, model, revision, kind and creation
    time are fixed, progress and update time never decrease, and a finished
    operation never changes. *)
Theorem model_operations_are_bounded_and_monotone (ops : list model_op) (db : ModelDb)
    (Hok : model_ok db) :
  model_ok (fold_left (fun d op => mexec op d) ops db)
  /\ forall id row, db !! id = Some row ->
       exists row', fold_left (fun d op => mexec op d) ops db !! id = Some row' /\ model_evolves row row'.
Proof.
  revert db Hok. induction ops as [|op ops IH]; intros db Hok; simpl.
  { split; [done|]. eauto using model_evolves_refl. }
  destruct (mexec_ok op db Hok) as [Hok' Hev]. destruct (IH _ Hok') as [Hok'' Hev'].
  split; [done|]. intros id row Hr. destruct (Hev id row Hr) as (r1 & Hr1 & He1).
  destruct (Hev' id r1 Hr1) as (r2 & Hr2 & He2). exists r2. split; [done|by eapply model_evolves_trans].
Qed.

(** A transition with well-formed arguments is decided exactly by the current
    row: unknown operations are reported, permitted monotone transitions store
    and return precisely the new state, progress and time, and everything else
    is a conflict that changes nothing. *)
Theorem model_transition_is_exact (id : string) (s : ModelOperationState) (progress now : Z) (db : ModelDb)
    (Hok : model_ok db) (Hid : validate_id id = Ok tt) (Hp : progress <= 10000) (Hn : now <= i64_max) :
  match db !! id with
  | None => transition_model_operation id s progress now db = (Err (ModelOperationNotFound id), db)
  | Some row =>
      exists k st, kind_parse (mr_kind row) = Ok k /\ mr_state row = mstate_as_str st
        /\ transition_model_operation id s progress now db
           = match advance row st s progress now with
             | Some row' => (Ok (model_of id row' k s), <[id := row']> db)
             | None => (Err ModelOperationConflict, db)
             end
  end.
Proof.
  destruct (db !! id) as [row|] eqn:Hr.
  - destruct (mk_row _ Hok id row Hr) as [Hc _]. destruct (decode_model_total id row Hc) as (k & st & Hk & Hst & _).
    exists k, st. split; [done|]. split; [done|]. by apply transition_cases.
  - unfold transition_model_operation, transaction, tbind, tlift, tread, row_by_id.
    rewrite Hid, (proj2 (sql_time_ok now now)) by done.
    destruct (Z.ltb_spec 10000 progress); [lia|]. by rewrite Hr.
Qed.

Lemma incomplete_iff row : incomplete row = true <-> mr_state row = "queued" \/ mr_state row = "running".
Proof. unfold incomplete. by rewrite orb_true_iff, !bool_decide_eq_true. Qed.

Lemma fail_row_complete now row : incomplete (fail_row now row) = false.
Proof. unfold fail_row. by destruct (incomplete row) eqn:Hi. Qed.

Lemma count_incomplete (db : ModelDb) :
  length (filter (fun p : string * ModelRow => incomplete p.2 = true) (map_to_list db))
  = size (filter (fun p : string * ModelRow => mr_state p.2 = "queued" \/ mr_state p.2 = "running") db).
Proof.
  rewrite <- length_map_to_list. apply Permutation_length, NoDup_Permutation.
  - apply list.NoDup_filter, NoDup_map_to_list.
  - apply NoDup_map_to_list.
  - intros [id row]. rewrite list_elem_of_filter, !elem_of_map_to_list, map_lookup_filter_Some, incomplete_iff.
    simpl. tauto.
Qed.

(** Recovery of model operations cannot fail on a readable clock, even one that
    was set back: it fails exactly the queued and running operations, leaves
    nothing incomplete, and changes no finished one. *)
Theorem model_recovery_never_fails (now : Z) (db : ModelDb) (Hok : model_ok db) (Hn : now <= i64_max) :
  let unfinished (p : string * ModelRow) := mr_state p.2 = "queued" \/ mr_state p.2 = "running" in
  exists db', recover_incomplete_on now db = (Ok (Z.of_nat (size (filter unfinished db))), db')
    /\ (forall id row, db !! id = Some row ->
          (unfinished (id, row) ->
             db' !! id = Some (mkModelRow (mr_model_id row) (mr_revision row) (mr_kind row) "failed"
                                 (mr_progress row) (mr_created row) (Z.max (mr_updated row) now)))
          /\ (~ unfinished (id, row) -> db' !! id = Some row))
    /\ (forall id, db !! id = None -> db' !! id = None)
    /\ recover_incomplete_on now db' = (Ok 0, db').
Proof.
  intros unfinished. exists (fail_row now <$> db). rewrite recover_cases by done. rewrite count_incomplete.
  split; [done|]. split; [|split].
  - intros id row Hr. rewrite lookup_fmap, Hr. simpl. unfold fail_row, unfinished.
    change (mr_state (id, row).2) with (mr_state row). rewrite <- incomplete_iff.
    by destruct (incomplete row).
  - intros id Hr. by rewrite lookup_fmap, Hr.
  - destruct (mexec_ok (MRecover now) db Hok) as [Hok' _]. simpl in Hok'. rewrite recover_cases in Hok' by done.
    rewrite recover_cases by done. f_equal.
    + do 2 f_equal. apply (f_equal Z.of_nat (y := 0%nat)), length_zero_iff_nil, elem_of_nil_inv.
      intros [id row] [Hi Hin%elem_of_map_to_list]%list_elem_of_filter.
      apply lookup_fmap_Some in Hin as (row0 & <- & _). simpl in Hi. by rewrite fail_row_complete in Hi.
    + apply map_eq. intros id. rewrite !lookup_fmap. destruct (db !! id) as [row|]; [|done]. simpl.
      f_equal. unfold fail_row at 1. by rewrite fail_row_complete.
Qed.

(** ** Instances *)
Module ModelExample.
Definition op1 : NewModelOperation := mkNewModelOperation "op-1" "model-1" "rev-1" Download 100.
Definition db1 : ModelDb := mexec (MCreate op1) ∅.
Lemma empty_ok : model_ok ∅.
Proof. constructor; [rewrite map_size_empty; unfold MAX_MODEL_OPERATIONS; lia|]. intros id row Hr. by rewrite lookup_empty in Hr. Qed.
Lemma db1_ok : model_ok db1.
Proof. apply (mexec_ok (MCreate op1) ∅ empty_ok). Qed.
Definition row1 : ModelRow := mkModelRow "model-1" "rev-1" "download" "queued" 0 100 100.

Lemma model_operations_are_bounded_and_monotone_witness :
  exists row', fold_left (fun d op => mexec op d) [MTransition "op-1" MRunning 10 200; MRecover 50] db1
                 !! "op-1" = Some row' /\ model_evolves row1 row'.
Proof.
  apply (proj2 (model_operations_are_bounded_and_monotone
                  [MTransition "op-1" MRunning 10 200; MRecover 50] db1 db1_ok)).
  vm_compute. reflexivity.
Defined.

Lemma model_transition_is_exact_witness :
  transition_model_operation "op-2" MRunning 10 200 db1 = (Err (ModelOperationNotFound "op-2"), db1).
Proof.
  refine (model_transition_is_exact "op-2" MRunning 10 200 db1 db1_ok eq_refl _ _); [lia|unfold i64_max; lia].
Defined.

Lemma model_recovery_never_fails_witness :
  exists db', recover_incomplete_on 50 db1 = (Ok 1, db')
    /\ (mr_state <$> db' !! "op-1") = Some "failed" /\ (mr_updated <$> db' !! "op-1") = Some (mr_updated row1).
Proof.
  destruct (model_recovery_never_fails 50 db1 db1_ok ltac:(unfold i64_max; lia)) as (db' & Hop & Hall & _).
  exists db'. split.
  - rewrite Hop. f_equal.
  - rewrite (proj1 (Hall "op-1" row1 ltac:(vm_compute; reflexivity)) ltac:(left; reflexivity)).
    split; vm_compute; reflexivity.
Defined.
End ModelExample.
End Model.
