(* ===== verification/Manager.v ===== *)
(** * Run manager (src/src/runtime/manager.rs, manager/helpers.rs, executor.rs)

    The bounded single-worker scheduler over the durable run store.  Client
    threads and the worker share [Mgr]; every access to it (a store call, a lock
    of a table, a load of a flag) is one atomic step, and before each atomic step
    the other threads may have changed the shared state: [interfere] says how.
    Clocks, fresh identifiers and the injected executor are oracles of the
    environment, indexed by the number of the step. *)
From stdpp Require Import base list gmap strings.
From Stdlib Require Import ZArith Lia Ascii.
From S2P Require Import Prelude RustStr ArgvBudget External RunContract Digest StoreBase AssistantContent RunStore TurnContract TurnStore.
Import RunStateOps.

Open Scope Z_scope.
Open Scope rust_scope.

Definition MIN_QUEUE_CAPACITY : Z := 1.
Definition MAX_QUEUE_CAPACITY : Z := 32.

Record RunManagerConfig := mkRunManagerConfig { queue_capacity : Z }.
Definition default_config : RunManagerConfig := mkRunManagerConfig 8.
(** [usize::clamp] *)
Definition effective_queue_capacity (c : RunManagerConfig) : Z :=
  Z.min MAX_QUEUE_CAPACITY (Z.max MIN_QUEUE_CAPACITY (queue_capacity c)).

Inductive SubmitDisposition := SEnqueued | SExisting | SQueueFull.
Record SubmitResult := mkSubmitResult { sr_run : RunRecord; sr_disposition : SubmitDisposition }.

Inductive ManagerError :=
| InvalidRequest (message : string)
| ShuttingDown
| Store (error : StoreError)
| WorkerPanicked.

(** ** The execution seam *)
Inductive ExecutionErrorKind :=
| General | Unsupported | Spawn | TimedOut | OutputLimit | ProviderExit | Teardown.

Record ExecutionError := mkExecutionError { xerr_kind : ExecutionErrorKind; xerr_message : string }.
Definition ExecutionError_with_kind (kind : ExecutionErrorKind) (message : string) : ExecutionError :=
  mkExecutionError kind (bounded_message message).
Definition ExecutionError_new (message : string) : ExecutionError :=
  ExecutionError_with_kind General message.

Inductive ExecutionAttempt :=
| Completed
| AttemptFailed (error : ExecutionError)
| Panicked (error : ExecutionError).

(** What an executor call does: it returns, or unwinds with a payload that may
    be a string. *)
Inductive ExecutorOutcome :=
| Returned (r : result ExecutionError unit)
| Unwound (payload : option string).

Definition panic_message (payload : option string) : string :=
  "executor panicked: " +:+ default "executor panicked with a non-string payload" payload.

Definition catching_panics (outcome : ExecutorOutcome) : ExecutionAttempt :=
  match outcome with
  | Returned (Ok _) => Completed
  | Returned (Err error) => AttemptFailed error
  | Unwound payload => Panicked (ExecutionError_new (panic_message payload))
  end.

Definition execution_failure_evidence (kind : ExecutionErrorKind) : string * string :=
  match kind with
  | General => ("executor_failed", "executor returned a failure")
  | Unsupported => ("executor_unsupported", "executor does not support this request")
  | Spawn => ("executor_spawn_failed", "executor process failed to start")
  | TimedOut => ("executor_timed_out", "executor exceeded its deadline")
  | OutputLimit => ("executor_output_limit", "executor output exceeded its limit")
  | ProviderExit => ("executor_provider_exit", "executor process exited unsuccessfully")
  | Teardown => ("executor_teardown_failed", "executor process teardown failed")
  end.

(** ** Lifecycle evidence *)
Definition event_at (clock_ms : Z) (kind : string) (detail : option (string * string)) : NewRunEvent :=
  let payload := map_insert "manager_clock_ms" (VNumber clock_ms) [] in
  let payload := match detail with
                 | Some (key, value) => map_insert key (VString value) payload
                 | None => payload
                 end in
  mkNewRunEvent kind (VObject payload).

Definition failure_event_at (clock_ms : Z) (code message : string) : NewRunEvent :=
  let payload := map_insert "manager_clock_ms" (VNumber clock_ms) [] in
  let payload := map_insert "code" (VString code) payload in
  let payload := map_insert "message" (VString message) payload in
  mkNewRunEvent "run_failed" (VObject payload).

Inductive CancellationReason := CRequested | CManagerShutdown.
Definition reason_as_str (r : CancellationReason) : string :=
  match r with CRequested => "requested" | CManagerShutdown => "manager_shutdown" end.

Definition cancellation_event_at (clock_ms : Z) (reason : CancellationReason) : NewRunEvent :=
  event_at clock_ms "run_cancelled" (Some ("reason", reason_as_str reason)).

(** [serde_json::to_vec] on requests. *)
Class RequestDigest := { encode_request : RunRequest -> option (list Z) }.

(** ** Shared state *)
Inductive WorkPayload := Legacy (request : RunRequest) | V4 (request : V4SubmitTurn).
Record WorkItem := mkWorkItem { wi_run_id : RunId; wi_payload : WorkPayload }.

Record Mgr := mkMgr {
  store : RunDb;
  admitted : gset string;
  active : gmap string nat;
  tokens : gmap nat bool;
  shutting_down : bool;
  worker_failed : bool;
  sender : bool;
  clones : nat;
  receiver : bool;
  queue : list WorkItem;
  capacity : nat;
  generation : Z;
}.

Definition set_store db m :=
  mkMgr db (admitted m) (active m) (tokens m) (shutting_down m) (worker_failed m) (sender m)
    (clones m) (receiver m) (queue m) (capacity m) (generation m).
Definition set_admitted a m :=
  mkMgr (store m) a (active m) (tokens m) (shutting_down m) (worker_failed m) (sender m)
    (clones m) (receiver m) (queue m) (capacity m) (generation m).
Definition set_active a m :=
  mkMgr (store m) (admitted m) a (tokens m) (shutting_down m) (worker_failed m) (sender m)
    (clones m) (receiver m) (queue m) (capacity m) (generation m).
Definition set_tokens t m :=
  mkMgr (store m) (admitted m) (active m) t (shutting_down m) (worker_failed m) (sender m)
    (clones m) (receiver m) (queue m) (capacity m) (generation m).
Definition set_flags s f m :=
  mkMgr (store m) (admitted m) (active m) (tokens m) s f (sender m)
    (clones m) (receiver m) (queue m) (capacity m) (generation m).
Definition set_sender s c m :=
  mkMgr (store m) (admitted m) (active m) (tokens m) (shutting_down m) (worker_failed m) s
    c (receiver m) (queue m) (capacity m) (generation m).
Definition set_queue r q m :=
  mkMgr (store m) (admitted m) (active m) (tokens m) (shutting_down m) (worker_failed m) (sender m)
    (clones m) r q (capacity m) (generation m).
Definition set_generation g m :=
  mkMgr (store m) (admitted m) (active m) (tokens m) (shutting_down m) (worker_failed m) (sender m)
    (clones m) (receiver m) (queue m) (capacity m) g.

(** [RunManager::start] *)
Definition start (db : RunDb) (config : RunManagerConfig) : Mgr :=
  mkMgr db ∅ ∅ ∅ false false true 0 true [] (Z.to_nat (effective_queue_capacity config)) 0.

Record Env := mkEnv {
  interfere : nat -> Mgr -> Mgr;
  tick : nat -> Tick;
  clock : nat -> Z;
  fresh_id : nat -> RunId;
  fresh_message : nat -> string;
  executor : nat -> RunId -> WorkPayload -> ExecutorOutcome;
  worker_joins : nat -> bool;
  deadline_passed : nat -> bool;
}.

Section Manager.
Context `{External} `{ContentCodec} `{MillisFormat} `{Digest} `{V4Json} `{RequestDigest}.
Variable env : Env.

Definition St : Type := (nat * Mgr)%type.
Abbreviation M A := (Tx St ManagerError A).

(** One atomic access to the shared state. *)
Definition atomic {A} (f : nat -> Mgr -> A * Mgr) : M A := fun st =>
  let m := interfere env st.1 st.2 in
  let '(a, m') := f st.1 m in
  (Ok a, (S st.1, m')).

(** A call into the store; its error is a value the caller inspects. *)
Definition store_call {A} (op : Tick -> Tx RunDb StoreError A) : M (result StoreError A) :=
  atomic (fun n m => let '(r, db') := op (tick env n) (store m) in (r, set_store db' m)).

(** [?] on a store result. *)
Definition lift_store {A} (r : result StoreError A) : M A := tlift (map_err Store r).

(** The outcome of [m] as a value. *)
Definition attempt {A} (m : M A) : M (result ManagerError A) := fun st =>
  match m st with (r, st') => (Ok r, st') end.

Definition now_millis : M Z := atomic (fun n m => (clock env n, m)).
Definition load_shutting_down : M bool := atomic (fun _ m => (shutting_down m, m)).
Definition is_cancelled (token : nat) : M bool :=
  atomic (fun _ m => (default false (tokens m !! token), m)).
Definition cancel_token (token : nat) : M unit :=
  atomic (fun _ m => (tt, set_tokens (<[token := true]> (tokens m)) m)).

Definition event (kind : string) (detail : option (string * string)) : M NewRunEvent :=
  ms <- now_millis ; tret (event_at ms kind detail).
Definition failure_event (code message : string) : M NewRunEvent :=
  ms <- now_millis ; tret (failure_event_at ms code message).
Definition cancellation_event (reason : CancellationReason) : M NewRunEvent :=
  ms <- now_millis ; tret (cancellation_event_at ms reason).

Definition cancellation_reason (state : RunState) : M CancellationReason :=
  stopping <- load_shutting_down ;
  tret (if stopping && negb (bool_decide (state = CancelRequested)) then CManagerShutdown else CRequested).

(** [generation.wrapping_add(1)] *)
Definition notify : M unit :=
  atomic (fun _ m => (tt, set_generation ((generation m + 1) mod (u64_max + 1)) m)).

(** [store.get_run(run_id)?.ok_or(RunNotFound)?] *)
Definition fetch_run (run_id : RunId) : M RunRecord :=
  found <- store_call (fun _ => get_run run_id) ;
  found <- lift_store found ;
  lift_store (ok_or found (RunNotFound run_id)).

Definition transition (run_id : RunId) (expected next : RunState) (ev : NewRunEvent)
    : M (result StoreError RunEvent) :=
  store_call (fun t => transition_run run_id expected next ev t).

Definition finish_admission (run_id : RunId) : M unit :=
  atomic (fun _ m => (tt, set_active (delete run_id (active m)) m)) ;;
  atomic (fun _ m => (tt, set_admitted (admitted m ∖ {[run_id]}) m)) ;;
  notify.

(** ** Settling a run *)

(** [for _ in 0..8]; [error] is what follows the loop. *)
Fixpoint retry {A} (fuel : nat) (error : StoreError) (body : M (option A)) : M A :=
  match fuel with
  | O => traise (Store error)
  | S fuel' =>
      r <- body ;
      match r with
      | Some a => tret a
      | None => retry fuel' error body
      end
  end.

(** The tail of each loop body: [Ok(_) => return Ok(..)], [UnexpectedStatus =>
    continue], any other error is returned. *)
Definition settled {A} (r : result StoreError RunEvent) (k : M A) : M (option A) :=
  match r with
  | Ok _ => a <- k ; tret (Some a)
  | Err (UnexpectedStatus _ _) => tret None
  | Err error => traise (Store error)
  end.

Definition settle_attempt (run_id : RunId) (token : nat) (outcome : ExecutionAttempt) : M unit :=
  retry 8 (CorruptData "terminal run transition did not converge")
    (record <- fetch_run run_id ;
     if is_terminal (run_status record) then tret (Some tt)
     else
       next_event <-
         match outcome with
         | AttemptFailed error =>
             let '(code, message) := execution_failure_evidence (xerr_kind error) in
             ev <- failure_event code message ; tret (Failed, ev)
         | Panicked _ =>
             ev <- failure_event "executor_panicked" "executor panicked" ; tret (Failed, ev)
         | Completed =>
             cancelled <- is_cancelled token ;
             let decided := cancelled || bool_decide (run_status record = CancelRequested) in
             stopping <- (if decided then tret false else load_shutting_down) ;
             if decided || stopping
             then reason <- cancellation_reason (run_status record) ;
                  ev <- cancellation_event reason ; tret (Cancelled, ev)
             else ev <- event "run_succeeded" None ; tret (Succeeded, ev)
         end ;
       r <- transition run_id (run_status record) next_event.1 next_event.2 ;
       settled r (tret tt)).

Definition finish_cancelled (run_id : RunId) : M unit :=
  retry 8 (CorruptData "cancellation transition did not converge")
    (record <- fetch_run run_id ;
     if is_terminal (run_status record) then tret (Some tt)
     else
       reason <- cancellation_reason (run_status record) ;
       ev <- cancellation_event reason ;
       r <- transition run_id (run_status record) Cancelled ev ;
       settled r (tret tt)).

Definition cancel_queued (run_id : RunId) (reason : CancellationReason) : M unit :=
  ev <- cancellation_event reason ;
  r <- transition run_id Queued Cancelled ev ;
  match r with
  | Ok _ | Err (TerminalRun _) => tret tt
  | Err (UnexpectedStatus _ _) => finish_cancelled run_id
  | Err error => traise (Store error)
  end ;;
  finish_admission run_id.

Definition settle_start_conflict (run_id : RunId) : M unit :=
  record <- fetch_run run_id ;
  if is_terminal (run_status record) then finish_admission run_id
  else if bool_decide (run_status record = CancelRequested)
  then finish_cancelled run_id ;; finish_admission run_id
  else traise (Store (UnexpectedStatus Queued (run_status record))).

Definition transition_with_failure (run_id : RunId) (expected : RunState) (code message : string)
    : M RunRecord :=
  ev <- failure_event code message ;
  r <- transition run_id expected Failed ev ;
  lift_store r ;;
  fetch_run run_id.

Definition reject_admission (run_id : RunId) (code message : string) : M RunRecord :=
  retry 8 (CorruptData "rejected admission did not converge")
    (record <- fetch_run run_id ;
     if is_terminal (run_status record)
     then finish_admission run_id ;; tret (Some record)
     else if negb (bool_decide (run_status record = Queued))
     then traise (Store (UnexpectedStatus Queued (run_status record)))
     else
       r <- attempt (transition_with_failure run_id Queued code message) ;
       match r with
       | Ok terminal => finish_admission run_id ;; tret (Some terminal)
       | Err (Store (UnexpectedStatus _ _)) => tret None
       | Err error => traise error
       end).

(** ** Client calls *)

(** [wait_for_terminal]: the record and the generation are read while the
    generation lock is held, and the wait ends when the generation has changed or
    the time is over.  [fuel] bounds the number of notifications. *)
Fixpoint wait_for_terminal (fuel : nat) (run_id : RunId) : M (option (option RunRecord)) :=
  match fuel with
  | O => tret None
  | S fuel' =>
      seen <- atomic (fun _ m => (((get_run run_id (store m)).1, generation m), m)) ;
      record <- lift_store seen.1 ;
      if match record with Some run => is_terminal (run_status run) | None => false end then tret (Some record)
      else
        passed <- atomic (fun n m => (deadline_passed env n, m)) ;
        if (passed : bool) then tret (Some record)
        else
          timed_out <- atomic (fun _ m => (generation m =? seen.2, m)) ;
          if (timed_out : bool)
          then found <- store_call (fun _ => get_run run_id) ;
               found <- lift_store found ;
               tret (Some found)
          else wait_for_terminal fuel' run_id
  end.

Definition cancel (run_id : RunId) : M RunRecord :=
  retry 8 (CorruptData "cancellation transition did not converge")
    (record <- fetch_run run_id ;
     if is_terminal (run_status record) then tret (Some record)
     else
       token <- atomic (fun _ m => (active m !! run_id, m)) ;
       match token with Some t => cancel_token t | None => tret tt end ;;
       match run_status record with
       | Queued =>
           ev <- cancellation_event CRequested ;
           r <- transition run_id Queued Cancelled ev ;
           settled r (notify ;; fetch_run run_id)
       | Starting | Running =>
           ev <- event "run_cancel_requested" None ;
           r <- transition run_id (run_status record) CancelRequested ev ;
           settled r (notify ;; fetch_run run_id)
       | _ => tret (Some record)
       end).

Definition canonical_request_digest (request : RunRequest) : result ManagerError string :=
  match encode_request request with
  | None => Err (InvalidRequest "request is not serializable")
  | Some encoded => Ok (hexadecimal (sha256 encoded))
  end.

Inductive TrySend := Sent | Full | Disconnected.
Definition try_send (item : WorkItem) : M TrySend :=
  atomic (fun _ m =>
    if negb (receiver m) then (Disconnected, m)
    else if Nat.leb (capacity m) (length (queue m)) then (Full, m)
    else (Sent, set_queue (receiver m) (queue m ++ [item]) m)).

Inductive EnqueueOutcome := OEnqueued | OQueueFull (failed : RunRecord).

Definition enqueue (item : WorkItem) : M EnqueueOutcome :=
  cloned <- atomic (fun _ m =>
    if sender m then (true, set_sender true (S (clones m)) m) else (false, m)) ;
  if negb cloned
  then reject_admission (wi_run_id item) "worker_unavailable" "run worker is unavailable" ;;
       traise ShuttingDown
  else
    r <- attempt
           (sent <- try_send item ;
            match sent with
            | Sent => tret OEnqueued
            | Full =>
                failed <- reject_admission (wi_run_id item) "queue_full" "bounded run queue is full" ;
                tret (OQueueFull failed)
            | Disconnected =>
                reject_admission (wi_run_id item) "worker_unavailable" "run worker is unavailable" ;;
                traise ShuttingDown
            end) ;
    atomic (fun _ m => (tt, set_sender (sender m) (pred (clones m)) m)) ;;
    tlift r.

Definition submit (request : RunRequest) : M SubmitResult :=
  stopping <- load_shutting_down ;
  if (stopping : bool) then traise ShuttingDown
  else
    tlift (map_err (fun e => InvalidRequest (ve_message e)) (RunRequest_validate request)) ;;
    request_digest <- tlift (canonical_request_digest request) ;
    match rq_conversation_id request with
    | Some conversation_id =>
        r <- store_call (fun t => create_conversation conversation_id t) ; lift_store r
    | None => tret tt
    end ;;
    run <- (fun st =>
              store_call (fun t => create_or_get_run
                                     (mkNewRun (rq_conversation_id request)
                                        (rq_idempotency_key request) request_digest)
                                     (fresh_id env st.1) t) st) ;
    run <- lift_store run ;
    if negb (bool_decide (run_status run = Queued)) then tret (mkSubmitResult run SExisting)
    else
      inserted <- atomic (fun _ m =>
        (negb (bool_decide (run_id run ∈ admitted m)), set_admitted ({[run_id run]} ∪ admitted m) m)) ;
      if negb inserted then tret (mkSubmitResult run SExisting)
      else
        outcome <- enqueue (mkWorkItem (run_id run) (Legacy request)) ;
        match outcome with
        | OEnqueued => tret (mkSubmitResult run SEnqueued)
        | OQueueFull failed => tret (mkSubmitResult failed SQueueFull)
        end.

(** The store call of [submit_v4]: identifiers are drawn inside the call. *)
Definition admit_v4 (request : V4SubmitTurn) (now_ms : Z) : M (result StoreError V4TurnSubmission) :=
  fun st => store_call (fun _ => v4_admit_turn request (fresh_id env st.1) (fresh_message env st.1) now_ms) st.

Definition submit_v4 (request : V4SubmitTurn) : M V4TurnSubmission :=
  stopping <- load_shutting_down ;
  if (stopping : bool) then traise ShuttingDown
  else
    tlift (map_err (fun e => InvalidRequest (ve_message e)) (V4SubmitTurn_validate request)) ;;
    now_ms <- now_millis ;
    accepted <- admit_v4 request now_ms ;
    accepted <- lift_store accepted ;
    if ts_duplicate accepted || negb (bool_decide (ts_state accepted = Queued)) then tret accepted
    else
      inserted <- atomic (fun _ m =>
        (negb (bool_decide (ts_run_id accepted ∈ admitted m)),
         set_admitted ({[ts_run_id accepted]} ∪ admitted m) m)) ;
      if negb inserted then tret accepted
      else
        outcome <- enqueue (mkWorkItem (ts_run_id accepted) (V4 request)) ;
        match outcome with
        | OEnqueued => tret accepted
        | OQueueFull _ =>
            receipt <- store_call (fun t => v4_fail_unadopted_turn (ts_run_id accepted) t) ;
            lift_store receipt
        end.

(** ** The worker *)

Definition finalize_v4_turn (run_id : RunId) (state : RunState) : M unit :=
  r <- store_call (fun _ => v4_finalize_turn run_id state) ;
  match r with
  | Ok _ | Err AssistantNotFound => tret tt
  | Err error => traise (Store error)
  end.

Definition is_v4 (item : WorkItem) : bool :=
  match wi_payload item with V4 _ => true | Legacy _ => false end.

Definition finish_as_cancelled (item : WorkItem) (token : nat) : M unit :=
  cancel_token token ;;
  finish_cancelled (wi_run_id item) ;;
  (if is_v4 item then finalize_v4_turn (wi_run_id item) Cancelled else tret tt) ;;
  finish_admission (wi_run_id item).

(** [CancellationToken::default()] and its entry in [active]. *)
Definition new_token (run_id : RunId) : M nat :=
  atomic (fun _ m =>
    let t := fresh (dom (tokens m)) in
    (t, set_active (<[run_id := t]> (active m)) (set_tokens (<[t := false]> (tokens m)) m))).

Definition run_executor (item : WorkItem) : M ExecutionAttempt :=
  atomic (fun n m => (catching_panics (executor env n (wi_run_id item) (wi_payload item)), m)).

Definition execute_item (item : WorkItem) : M unit :=
  ev <- event "run_starting" None ;
  started <- transition (wi_run_id item) Queued Starting ev ;
  match started with
  | Err (UnexpectedStatus _ _) | Err (TerminalRun _) => settle_start_conflict (wi_run_id item)
  | Err error => traise (Store error)
  | Ok _ =>
      token <- new_token (wi_run_id item) ;
      stopping <- load_shutting_down ;
      (if (stopping : bool) then cancel_token token else tret tt) ;;
      record <- fetch_run (wi_run_id item) ;
      cancelled <- (if bool_decide (run_status record = CancelRequested) then tret true
                    else is_cancelled token) ;
      if (cancelled : bool)
      then finish_as_cancelled item token
      else
        ev <- event "run_started" None ;
        running <- transition (wi_run_id item) Starting Running ev ;
        match running with
        | Err (UnexpectedStatus _ _) => finish_as_cancelled item token
        | Err error => traise (Store error)
        | Ok _ =>
            outcome <- run_executor item ;
            settle_attempt (wi_run_id item) token outcome ;;
            (if is_v4 item
             then found <- store_call (fun _ => get_run (wi_run_id item)) ;
                  found <- lift_store found ;
                  let terminal := match found with Some run => run_status run | None => Failed end in
                  if is_terminal terminal then finalize_v4_turn (wi_run_id item) terminal else tret tt
             else tret tt) ;;
            finish_admission (wi_run_id item)
        end
  end.

(** One admitted run at a stop: queued runs are cancelled, started ones interrupted. *)
Definition stop_state (s : RunState) : option RunState :=
  match s with
  | Queued => Some Cancelled
  | Starting | Running | CancelRequested => Some Interrupted
  | _ => None
  end.

Fixpoint interrupt_each_admitted (ids : list string) : M unit :=
  match ids with
  | [] => tret tt
  | id :: rest =>
      found <- store_call (fun _ => get_run id) ;
      found <- lift_store found ;
      match found with
      | None => interrupt_each_admitted rest
      | Some record =>
          match stop_state (run_status record) with
          | None => interrupt_each_admitted rest
          | Some next =>
              ev <- event "run_manager_stopped" None ;
              r <- transition id (run_status record) next ev ;
              lift_store r ;;
              interrupt_each_admitted rest
          end
      end
  end.

(** The iteration order of a [HashSet] is unspecified; [elements] is one. *)
Definition interrupt_admitted : M unit :=
  ids <- atomic (fun _ m => (elements (admitted m), m)) ;
  interrupt_each_admitted ids ;;
  atomic (fun _ m => (tt, set_admitted ∅ m)) ;;
  atomic (fun _ m => (tt, set_active ∅ m)) ;;
  notify.

Inductive Recv := Item (item : WorkItem) | RecvClosed | RecvBlocked.
Definition recv : M Recv :=
  atomic (fun _ m =>
    match queue m with
    | item :: rest => (Item item, set_queue (receiver m) rest m)
    | [] => if sender m || negb (Nat.eqb (clones m) 0) then (RecvBlocked, m) else (RecvClosed, m)
    end).

(** [while let Ok(item) = receiver.recv()]; a blocked receive waits for the
    other threads, [fuel] bounds the turns. *)
Fixpoint worker_loop (fuel : nat) : M bool :=
  match fuel with
  | O => tret false
  | S fuel' =>
      r <- recv ;
      match r with
      | RecvClosed => tret true
      | RecvBlocked => worker_loop fuel'
      | Item item =>
          stopping <- load_shutting_down ;
          (if (stopping : bool) then cancel_queued (wi_run_id item) CManagerShutdown
           else execute_item item) ;;
          worker_loop fuel'
      end
  end.

(** [worker_entry]: an error stops the manager and interrupts what is admitted;
    the receiver is dropped at the end. *)
Definition worker_entry (fuel : nat) : M bool :=
  r <- attempt (worker_loop fuel) ;
  match r with
  | Ok false => tret false
  | Ok true =>
      atomic (fun _ m => (tt, set_queue false [] m)) ;;
      tret true
  | Err _ =>
      atomic (fun _ m => (tt, set_flags true (worker_failed m) m)) ;;
      atomic (fun _ m => (tt, set_flags (shutting_down m) true m)) ;;
      attempt interrupt_admitted ;;
      atomic (fun _ m => (tt, set_queue false [] m)) ;;
      tret true
  end.

Definition shutdown : M unit :=
  was <- atomic (fun _ m => (shutting_down m, set_flags true (worker_failed m) m)) ;
  (if negb was
   then
     atomic (fun _ m =>
       (tt, set_tokens (foldr (fun t ts => <[t := true]> ts) (tokens m) (map_to_list (active m)).*2) m)) ;;
     atomic (fun _ m => (tt, set_sender false (clones m) m))
   else tret tt) ;;
  joined <- atomic (fun n m => (worker_joins env n, m)) ;
  if negb joined
  then attempt interrupt_admitted ;; traise WorkerPanicked
  else
    interrupt_admitted ;;
    failed <- atomic (fun _ m => (worker_failed m, m)) ;
    if (failed : bool) then traise WorkerPanicked else tret tt.

(** [Drop::drop] *)
Definition drop_manager : M unit := attempt shutdown ;; tret tt.
End Manager.
