(* ===== verification/ManagerBounds.v ===== *)
(** * The work queue stays bounded

    Every call of the manager, and the worker, keeps the queue within its
    capacity, whatever guarantee-keeping threads do in between. *)
From stdpp Require Import base list gmap strings relations.
From Stdlib Require Import ZArith Lia.
From S2P Require Import Prelude RustStr ArgvBudget External RunContract Digest StoreBase AssistantContent RunStore TurnContract TurnStore Manager.
Import RunStateOps.

Open Scope Z_scope.
Open Scope rust_scope.

Section Props.
Context {EX : External} {CC : ContentCodec} {MF : MillisFormat} {DG : Digest} {VJ : V4Json} {RD : RequestDigest}.

(** ** Bounds of the queue *)
Definition queue_bounded (st : St) : Prop :=
  (length (queue st.2) <= capacity st.2)%nat /\ (1 <= capacity st.2 <= 32)%nat.

Section Bounds.
Variable env : Env.
Hypothesis env_bounded : forall n m, queue_bounded (n, m) -> queue_bounded (n, interfere env n m).

Lemma keeps_atomic {A} (f : nat -> Mgr -> A * Mgr) :
  (forall n m, queue_bounded (n, m) -> queue_bounded (n, (f n m).2)) ->
  keeps queue_bounded (atomic env f).
Proof.
  intros Hf [n m] Hm. unfold atomic. simpl. specialize (Hf n _ (env_bounded n m Hm)).
  by destruct (f n (interfere env n m)).
Qed.

(** A step that leaves the queue alone. *)
Lemma keeps_aside {A} (f : nat -> Mgr -> A * Mgr) :
  (forall n m, queue (f n m).2 = queue m /\ capacity (f n m).2 = capacity m) ->
  keeps queue_bounded (atomic env f).
Proof.
  intros Hf. apply keeps_atomic. intros n m Hm. unfold queue_bounded in *. simpl in *.
  destruct (Hf n m) as [-> ->]. done.
Qed.

Lemma keeps_store_call {A} (op : Tick -> Tx RunDb StoreError A) : keeps queue_bounded (store_call env op).
Proof. apply keeps_aside. intros n m. by destruct (op (tick env n) (store m)). Qed.

Lemma keeps_attempt {A} (p : Tx St ManagerError A) :
  keeps queue_bounded p -> keeps queue_bounded (attempt p).
Proof. intros Hp st Hst. unfold attempt. specialize (Hp st Hst). by destruct (p st). Qed.

Lemma keeps_retry {A} fuel err (body : Tx St ManagerError (option A)) :
  keeps queue_bounded body -> keeps queue_bounded (retry fuel err body).
Proof.
  intros Hb. induction fuel as [|fuel IH]; [apply keeps_raise|]. apply keeps_bind; [done|].
  intros [a|]; [apply keeps_ret|done].
Qed.

(** Walk through the code: every step is a store call, a step aside, or one of
    the two steps on the queue. *)
Ltac bounded :=
  repeat first
    [ assumption
    | apply keeps_ret | apply keeps_raise | apply keeps_lift
    | apply keeps_store_call | apply keeps_attempt | apply keeps_retry
    | apply keeps_bind; [|intros ?]
    | apply keeps_aside; by intros ? ?
    | match goal with
      | |- keeps _ (match ?x with _ => _ end) => destruct x
      | |- keeps _ (let '(_, _) := ?x in _) => destruct x
      end ].

Lemma bounded_fetch id : keeps queue_bounded (fetch_run env id).
Proof. unfold fetch_run, lift_store. bounded. Qed.
Lemma bounded_transition id e n ev : keeps queue_bounded (transition env id e n ev).
Proof. apply keeps_store_call. Qed.
Lemma bounded_event kind d : keeps queue_bounded (event env kind d).
Proof. unfold event, now_millis. bounded. Qed.
Lemma bounded_failure_event c d : keeps queue_bounded (failure_event env c d).
Proof. unfold failure_event, now_millis. bounded. Qed.
Lemma bounded_cancellation_event r : keeps queue_bounded (cancellation_event env r).
Proof. unfold cancellation_event, now_millis. bounded. Qed.
Lemma bounded_cancellation_reason s : keeps queue_bounded (cancellation_reason env s).
Proof. unfold cancellation_reason, load_shutting_down. bounded. Qed.
Lemma bounded_settled {A} r (k : Tx St ManagerError A) :
  keeps queue_bounded k -> keeps queue_bounded (settled r k).
Proof. intros Hk. unfold settled. bounded. Qed.
Lemma bounded_finish id : keeps queue_bounded (finish_admission env id).
Proof. unfold finish_admission, notify. bounded. Qed.

Ltac bounded' :=
  repeat first
    [ progress bounded
    | apply bounded_fetch | apply bounded_transition | apply bounded_event | apply bounded_failure_event
    | apply bounded_cancellation_event | apply bounded_cancellation_reason | apply bounded_settled
    | apply bounded_finish ].

Lemma bounded_settle id t o : keeps queue_bounded (settle_attempt env id t o).
Proof. unfold settle_attempt, is_cancelled, load_shutting_down. bounded'. Qed.
Lemma bounded_finish_cancelled id : keeps queue_bounded (finish_cancelled env id).
Proof. unfold finish_cancelled. bounded'. Qed.
Lemma bounded_finalize id s : keeps queue_bounded (finalize_v4_turn env id s).
Proof. unfold finalize_v4_turn. bounded'. Qed.
Lemma bounded_finish_as_cancelled i t : keeps queue_bounded (finish_as_cancelled env i t).
Proof.
  unfold finish_as_cancelled, cancel_token.
  repeat first [progress bounded' | apply bounded_finish_cancelled | apply bounded_finalize].
Qed.
Lemma bounded_start_conflict id : keeps queue_bounded (settle_start_conflict env id).
Proof.
  unfold settle_start_conflict. repeat first [progress bounded' | apply bounded_finish_cancelled].
Qed.
Lemma bounded_cancel id : keeps queue_bounded (cancel env id).
Proof. unfold cancel, cancel_token, notify. bounded'. Qed.
Lemma bounded_cancel_queued id r : keeps queue_bounded (cancel_queued env id r).
Proof. unfold cancel_queued. repeat first [progress bounded' | apply bounded_finish_cancelled]. Qed.
Lemma bounded_reject id c d : keeps queue_bounded (reject_admission env id c d).
Proof. unfold reject_admission, transition_with_failure, lift_store. bounded'. Qed.
Lemma bounded_execute i : keeps queue_bounded (execute_item env i).
Proof.
  unfold execute_item, new_token, load_shutting_down, cancel_token, is_cancelled, run_executor, lift_store.
  repeat first [progress bounded' | apply bounded_start_conflict | apply bounded_finish_as_cancelled
               | apply bounded_settle | apply bounded_finalize].
Qed.
Lemma bounded_interrupt : keeps queue_bounded (interrupt_admitted env).
Proof.
  unfold interrupt_admitted, notify. bounded. rename a into ids.
  induction ids as [|id ids IH]; simpl; unfold lift_store; bounded'.
Qed.

#[local] Opaque execute_item cancel_queued interrupt_admitted.

Lemma bounded_try_send i : keeps queue_bounded (try_send env i).
Proof.
  apply keeps_atomic. intros n m [Hq Hc]. simpl in *. destruct (receiver m); simpl; [|done].
  destruct (Nat.leb_spec (capacity m) (length (queue m))); simpl; [done|].
  split; simpl; [rewrite length_app; simpl; lia|done].
Qed.
Lemma bounded_enqueue i : keeps queue_bounded (enqueue env i).
Proof.
  unfold enqueue. apply keeps_bind; [apply keeps_aside; intros n m; by destruct (sender m)|].
  intros cloned. repeat first [progress bounded' | apply bounded_reject | apply bounded_try_send].
Qed.
#[local] Opaque enqueue.
Lemma bounded_submit r : keeps queue_bounded (submit env r).
Proof.
  unfold submit, load_shutting_down, lift_store.
  repeat first [apply bounded_enqueue | progress bounded'
               | intros st Hst; apply (keeps_store_call (A := RunRecord)), Hst].
Qed.
Lemma bounded_admit r now : keeps queue_bounded (admit_v4 env r now).
Proof. intros st Hst. by apply (keeps_store_call (A := V4TurnSubmission)). Qed.
Lemma bounded_submit_v4 r : keeps queue_bounded (submit_v4 env r).
Proof.
  unfold submit_v4, load_shutting_down, now_millis, lift_store.
  repeat first [apply bounded_enqueue | apply bounded_admit | progress bounded'].
Qed.
Lemma bounded_recv : keeps queue_bounded (recv env).
Proof.
  apply keeps_atomic. intros n m [Hq Hc]. simpl in *. destruct (queue m) as [|i q] eqn:Hqq.
  - destruct (_ || _); simpl; split; simpl; rewrite ?Hqq; done.
  - split; simpl; [simpl in Hq; lia|done].
Qed.
Lemma bounded_drop_receiver : keeps queue_bounded (atomic env (fun _ m => (tt, set_queue false [] m))).
Proof. apply keeps_atomic. intros n m [Hq Hc]. split; simpl; [lia|done]. Qed.
Lemma bounded_worker fuel : keeps queue_bounded (worker_entry env fuel).
Proof.
  unfold worker_entry. apply keeps_bind.
  - apply keeps_attempt. induction fuel as [|fuel IH]; simpl; [apply keeps_ret|].
    unfold load_shutting_down.
    repeat first [apply bounded_recv | progress bounded' | apply bounded_execute | apply bounded_cancel_queued].
  - intros [[]|e]; repeat first [apply bounded_drop_receiver | progress bounded' | apply bounded_interrupt].
Qed.
Lemma bounded_shutdown : keeps queue_bounded (shutdown env).
Proof. unfold shutdown. repeat first [progress bounded' | apply bounded_interrupt]. Qed.
#[local] Transparent enqueue execute_item cancel_queued interrupt_admitted.
End Bounds.

(** The bounded queue stays bounded: if it holds at most its capacity, from 1
    to 32, then so it does after any submission, cancellation, worker run or
    shutdown, under any interference with the same guarantee; a started manager
    satisfies it for every configuration. *)
Theorem queue_stays_bounded (env : Env)
    (Hrely : forall n m, queue_bounded (n, m) -> queue_bounded (n, interfere env n m)) :
  (forall request, keeps queue_bounded (submit env request))
  /\ (forall request, keeps queue_bounded (submit_v4 env request))
  /\ (forall id, keeps queue_bounded (cancel env id))
  /\ (forall fuel, keeps queue_bounded (worker_entry env fuel))
  /\ keeps queue_bounded (shutdown env)
  /\ forall db config n, queue_bounded (n, start db config).
Proof.
  split; [by intros; apply bounded_submit|]. split; [by intros; apply bounded_submit_v4|]. split; [by intros; apply bounded_cancel|].
  split; [by intros; apply bounded_worker|]. split; [by apply bounded_shutdown|].
  intros db config n. unfold queue_bounded, effective_queue_capacity, MAX_QUEUE_CAPACITY, MIN_QUEUE_CAPACITY.
  simpl. unfold effective_queue_capacity, MAX_QUEUE_CAPACITY, MIN_QUEUE_CAPACITY. lia.
Qed.
End Props.
