(* ===== verification/ManagerProps.v ===== *)
(** * Run manager: retry loops, cancellation and settlement under interference

    Theorems about [Manager].  A small Hoare logic for atomic steps with
    interference: an assertion that other threads cannot break ([stable]) holds
    before each step.  Other threads may call any store operation ([rely]). *)
From stdpp Require Import base list gmap strings relations.
From Stdlib Require Import ZArith Lia.
From S2P Require Import Prelude RustStr ArgvBudget External RunContract Digest StoreBase AssistantContent RunStore TurnContract TurnStore RunLedger Manager ManagerBounds.
Import RunStateOps.

Open Scope Z_scope.
Open Scope rust_scope.

Definition edge (a b : RunState) : Prop := transition_valid a b = true.

Section Props.
Context {EX : External} {CC : ContentCodec} {MF : MillisFormat} {DG : Digest} {VJ : V4Json} {RD : RequestDigest} {EL : ExternalLaws}.

(** ** Assertions *)
Definition in_state (id : string) (s : RunState) (db : RunDb) : Prop :=
  exists row, runs db !! id = Some row /\ row_valid id row s.

Definition settled_run (id : string) (db : RunDb) : Prop :=
  exists s, in_state id s db /\ is_terminal s = true.

(** The store can take one more event of [id], which belongs to no assistant turn. *)
Definition roomy (id : string) (db : RunDb) : Prop :=
  assistant_turns db !! id = None
  /\ forall row, runs db !! id = Some row -> c_next_event_sequence row < i64_max.

(** Other threads: store calls, and writes to the assistant tables. *)
Definition rely (m m' : Mgr) : Prop :=
  rtc (fun a b => store_step a b \/ core a = core b) (store m) (store m').

(** The events the manager writes when its clock shows [ms]. *)
Definition manager_events (ms : Z) : list NewRunEvent :=
  [event_at ms "run_starting" None; event_at ms "run_started" None; event_at ms "run_succeeded" None;
   event_at ms "run_cancel_requested" None; event_at ms "run_manager_stopped" None;
   cancellation_event_at ms CRequested; cancellation_event_at ms CManagerShutdown;
   failure_event_at ms "executor_panicked" "executor panicked";
   failure_event_at ms "queue_full" "bounded run queue is full";
   failure_event_at ms "worker_unavailable" "run worker is unavailable"]
  ++ map (fun k => failure_event_at ms (execution_failure_evidence k).1 (execution_failure_evidence k).2)
       [General; Unsupported; Spawn; TimedOut; OutputLimit; ProviderExit; Teardown].

(** A store error that is neither a lost race nor a loop that gave up. *)
Definition refusal (e : StoreError) : bool :=
  match e with
  | UnexpectedStatus _ _ => false
  | CorruptData m =>
      negb (bool_decide (m = "terminal run transition did not converge"))
      && negb (bool_decide (m = "cancellation transition did not converge"))
      && negb (bool_decide (m = "rejected admission did not converge"))
  | _ => true
  end.

Section Env.
Variable env : Env.

(** Nothing but races can fail: other threads leave room for the run, and the
    manager's own events are within the size limits. *)
Definition calm (id : string) : Prop :=
  (forall n m, roomy id (store m) -> roomy id (store (interfere env n m)))
  /\ forall n ev, ev ∈ manager_events (clock env n) -> validate_event ev = Ok tt.

(** The runs whose calm is assumed. *)
Variable C : string -> Prop.

(** Run [id] is in a state reachable from [s0]. *)
Definition phase (id : string) (s0 : RunState) (m : Mgr) : Prop :=
  ledger (core (store m))
  /\ (exists s, in_state id s (store m) /\ rtc edge s0 s)
  /\ (C id -> roomy id (store m)).

(** ** Hoare rules *)
Definition hoare {A} (P : Mgr -> Prop) (p : Tx St ManagerError A)
    (Q : result ManagerError A -> Mgr -> Prop) : Prop :=
  forall n m, P m -> Q (p (n, m)).1 (p (n, m)).2.2.

Lemma hoare_ret {A} (P : Mgr -> Prop) (a : A) (Q : result ManagerError A -> Mgr -> Prop) :
  (forall m, P m -> Q (Ok a) m) -> hoare P (tret a) Q.
Proof. intros HQ n m HP. by apply HQ. Qed.
Lemma hoare_raise {A} (P : Mgr -> Prop) e (Q : result ManagerError A -> Mgr -> Prop) :
  (forall m, P m -> Q (Err e) m) -> hoare P (traise e) Q.
Proof. intros HQ n m HP. by apply HQ. Qed.
Lemma hoare_bind {A B} P (p : Tx St ManagerError A) R (k : A -> Tx St ManagerError B) Q :
  hoare P p R -> (forall a, hoare (R (Ok a)) (k a) Q) -> (forall e m, R (Err e) m -> Q (Err e) m) ->
  hoare P (tbind p k) Q.
Proof.
  intros Hp Hk He n m HP. specialize (Hp n m HP). unfold tbind.
  destruct (p (n, m)) as [[a|e] [n' m']]; simpl in *; [by apply Hk|by apply He].
Qed.
Lemma hoare_weaken {A} (P P' : Mgr -> Prop) (p : Tx St ManagerError A)
    (Q Q' : result ManagerError A -> Mgr -> Prop) :
  hoare P p Q -> (forall m, P' m -> P m) -> (forall r m, Q r m -> Q' r m) -> hoare P' p Q'.
Proof. intros Hp H1 H2 n m HP. apply H2, Hp, H1, HP. Qed.

Lemma hoare_run {A} (P : Mgr -> Prop) (p : Tx St ManagerError A) (Q : result ManagerError A -> Mgr -> Prop) :
  (forall n m r st, P m -> p (n, m) = (r, st) -> Q r st.2) -> hoare P p Q.
Proof. intros Hp n m HP. by eapply Hp, surjective_pairing. Qed.

Definition stable (P : Mgr -> Prop) : Prop := forall n m, P m -> P (interfere env n m).

Lemma hoare_atomic {A} (P : Mgr -> Prop) (f : nat -> Mgr -> A * Mgr) (Q : result ManagerError A -> Mgr -> Prop) :
  stable P -> (forall n m, P m -> Q (Ok (f n m).1) (f n m).2) -> hoare P (atomic env f) Q.
Proof.
  intros HP HQ n m Hm. unfold atomic. simpl. specialize (HQ n _ (HP n m Hm)).
  destruct (f n (interfere env n m)). done.
Qed.

(** An atomic step that leaves the store alone. *)
Lemma hoare_aside {A} (P : Mgr -> Prop) (f : nat -> Mgr -> A * Mgr) (Q : A -> Prop) :
  stable P -> (forall n m, P m -> P (f n m).2) -> (forall n m, P m -> Q (f n m).1) ->
  hoare P (atomic env f) (fun r m => match r with Ok a => P m /\ Q a | Err _ => False end).
Proof. intros HP Hf HQ. apply hoare_atomic; [done|]. intros n m Hm. split; [by apply Hf|by eapply HQ]. Qed.

(** ** Stability *)
Hypothesis env_rely : forall n m, rely m (interfere env n m).
Hypothesis C_calm : forall id, C id -> calm id.

Lemma rely_evolves m m' :
  rely m m' -> ledger (core (store m)) ->
  ledger (core (store m')) /\ evolves (core (store m)) (core (store m')).
Proof.
  unfold rely. generalize (store m) as a, (store m') as b. clear m m'.
  induction 1 as [a|a b c Hab _ IH]; intros Hl; [split; [done|]|].
  { constructor; [|done]. intros id row Hr. exists row. split; [done|constructor]. }
  assert (ledger (core b) /\ evolves (core a) (core b)) as [Hlb Hev].
  { destruct Hab as [Hst|Heq].
    - eapply steps_ledger; [done|]. by apply rtc_once.
    - rewrite <- Heq. split; [done|]. constructor; [|done].
      intros id row Hr. exists row. split; [done|constructor]. }
  destruct (IH Hlb) as [Hlc Hev2]. split; [done|].
  destruct Hev as [E1 E2], Hev2 as [F1 F2]. constructor; [|by etrans].
  intros id row Hr. destruct (E1 id row Hr) as (r1 & Hr1 & Hs1).
  destruct (F1 id r1 Hr1) as (r2 & Hr2 & Hs2). exists r2. split; [done|by etrans].
Qed.

Lemma evolves_state id s a b :
  evolves (core a) (core b) -> in_state id s a -> exists s', in_state id s' b /\ rtc edge s s'.
Proof.
  intros [Hev _] (row & Hr & Hv). destruct (Hev id row Hr) as (row' & Hr' & Hs).
  destruct (row_step_path _ _ _ _ Hs Hv) as (s' & Hv' & Hp). exists s'. split; [by exists row'|done].
Qed.

Lemma phase_stable id s0 : stable (phase id s0).
Proof.
  intros n m (Hl & (s & Hs & Hp) & Hroom). destruct (rely_evolves _ _ (env_rely n m) Hl) as [Hl' Hev].
  destruct (evolves_state _ _ _ _ Hev Hs) as (s' & Hs' & Hp'). split; [done|]. split.
  - exists s'. split; [done|by etrans].
  - intros Hc. apply (C_calm id Hc), Hroom, Hc.
Qed.

Lemma edge_steps a b : rtc edge a b -> b = a \/ (steps_left b < steps_left a)%nat.
Proof.
  induction 1 as [|a b c Hab _ IH]; [by left|]. right. apply transition_decreases in Hab.
  destruct IH as [->|]; lia.
Qed.

Lemma terminal_edge a b : rtc edge a b -> is_terminal a = true -> b = a.
Proof. intros [->|Hlt]%edge_steps Ht; [done|]. destruct a; simpl in *; try discriminate; lia. Qed.

Lemma in_state_unique id s t db : in_state id s db -> in_state id t db -> s = t.
Proof. intros (r1 & H1 & V1) (r2 & H2 & V2). assert (r1 = r2) as -> by congruence. by eapply row_valid_unique. Qed.

(** ** The store calls the manager makes *)
Lemma tlift_refusal {A} (r : result StoreError A) (db : RunDb) e db' :
  (forall x, r = Err x -> refusal x = true) -> tlift r db = (Err e, db') -> refusal e = true.
Proof. intros Hr. unfold tlift. intros [= Heq _]. by apply Hr. Qed.

Lemma insert_content_event_refusal cid rid p ms db e db' :
  insert_content_event cid rid p ms db = (Err e, db') -> refusal e = true.
Proof.
  unfold insert_content_event. intros Hop.
  repeat (apply tbind_err in Hop as [Hop|(? & ? & _ & Hop)];
    [try (revert Hop; apply tlift_refusal; intros ?)|]).
  - destruct (V4ContentPayload_validate p); [discriminate|]. by intros [= <-].
  - discriminate.
  - destruct (u64_checked_add _ _) as [q|]; [destruct (q <=? MAX_SEQUENCE); [discriminate|]|];
      by intros [= <-].
  - destruct (_ && _); [by intros [= <-]|discriminate].
  - unfold sql_sequence. destruct (_ <=? _); [discriminate|]. by intros [= <-].
  - unfold AssistantContent.ms. destruct (_ <=? _); [discriminate|]. by intros [= <-].
  - revert Hop. unfold insert_content_row. destruct (negb _); [by intros [= <- _]|].
    destruct (_ !! _); [by intros [= <- _]|]. destruct (_ || _); [by intros [= <- _]|discriminate].
  - revert Hop. unfold insert_payload_row. by destruct (_ && _).
  - destruct (V4ContentEvent_validate _); [discriminate|]. by intros [= <-].
  - discriminate.
Qed.

Lemma sync_refusal rid next ms db e db' :
  sync_message_state rid next ms db = (Err e, db') -> refusal e = true.
Proof.
  unfold sync_message_state. destruct (assistant_turns db !! rid); [|discriminate].
  destruct (negb _); [discriminate|]. destruct (terminal_marked _ _); [discriminate|].
  destruct (turn_conversation_id _ _) as [cid|e'] eqn:Ht.
  - destruct (insert_content_event _ _ _ _ _) as [[ev|e'] db2] eqn:Hi; [discriminate|].
    apply insert_content_event_refusal in Hi. destruct e'; intros [= <- _]; done.
  - intros [= <- _]. revert Ht. unfold turn_conversation_id, turn_conversation.
    destruct (assistant_turns _ !! _); simpl; [|by intros [= <-]].
    destruct (id_from_str _); [discriminate|]. by intros [= <-].
Qed.

Lemma validate_event_refusal ev e : validate_event ev = Err e -> refusal e = true.
Proof.
  unfold validate_event, validate_label. destruct (_ || _); [by intros [= <-]|].
  destruct (_ <? _); [by intros [= <-]|discriminate].
Qed.

Lemma transition_outcome id e n ev t db s r db' :
  ledger (core db) -> in_state id s db -> transition_run id e n ev t db = (r, db') ->
  match r with
  | Ok _ => s = e /\ edge e n /\ ledger (core db') /\ in_state id n db'
  | Err (UnexpectedStatus _ _) => db' = db /\ s <> e
  | Err err => db' = db /\ refusal err = true
      /\ (validate_event ev = Ok tt -> roomy id db -> is_terminal e = false -> edge e n -> False)
  end.
Proof.
  intros Hl (row & Hr & Hv) Hop.
  pose proof (found_of_decoded id row s db Hr Hv) as Hfound.
  destruct (transition_refusal ev (found_of id db) id e n) as [err|] eqn:Href.
  - rewrite (transition_run_refused id e n ev t db err Hl Href) in Hop. injection Hop as <- <-.
    rewrite Hfound in Href. unfold transition_refusal in Href.
    destruct (validate_event ev) as [[]|x] eqn:Hval.
    2:{ injection Href as ->. pose proof (validate_event_refusal _ _ Hval) as Hx.
        destruct err; try discriminate Hx; (split; [done|split; [done|discriminate]]). }
    destruct (bool_decide (s = e)) eqn:Hse; simpl in Href; bools; [subst s|by simplify_eq].
    destruct (is_terminal e) eqn:Ht; [simplify_eq; split; [done|split; [done|intros; done]]|].
    destruct (transition_valid e n) eqn:Htv; simpl in Href;
      [|simplify_eq; split; [done|split; [done|]]; unfold edge; congruence].
    destruct (Z.leb_spec i64_max (c_next_event_sequence row - 1 + 1)); [|discriminate].
    injection Href as <-. split; [done|]. split; [done|]. intros _ [_ Hroom] _ _. specialize (Hroom row Hr). lia.
  - destruct (transition_run_admitted id e n ev t db Hl Href) as (row' & Hr' & Hv' & Heq & Hc).
    assert (row' = row) as -> by congruence. pose proof (row_valid_unique _ _ _ _ Hv Hv') as ->.
    assert (edge e n) as Hedge.
    { rewrite Hfound in Href. unfold transition_refusal in Href. unfold edge.
      destruct (validate_event ev); [|discriminate]. destruct (negb (bool_decide _)); [discriminate|].
      destruct (is_terminal e); [discriminate|]. by destruct (transition_valid e n). }
    rewrite Heq in Hop. destruct r as [x|err].
    + apply transaction_ok, (update_and_append_ok id row e) in Hop as (_ & Hcore & _); [|done..].
      split; [done|]. split; [done|]. rewrite Hcore. split.
      * apply (ledger_appended _ _ _ e); try done; [apply Hc|]. by eexists.
      * exists (advance_row row n (now t)). split; [|by eapply row_valid_advance].
        rewrite (f_equal k_runs Hcore : runs db' = _). simpl. by rewrite lookup_insert_eq.
    + apply transaction_err in Hop as (-> & db1 & Hop). rewrite update_and_append_eq in Hop by done.
      destruct (sync_message_state id n _ _) as [[[]|x] db2] eqn:Hsync; [discriminate|].
      injection Hop as -> _. pose proof (sync_refusal _ _ _ _ _ _ Hsync) as Hx.
      assert (validate_event ev = Ok tt -> roomy id db -> is_terminal e = false -> edge e n -> False) as Hno.
      { intros _ [Htu _] _ _. by rewrite sync_message_state_none in Hsync. }
      destruct err; try discriminate Hx; done.
Qed.

(** ** Specifications of the steps *)
Definition okP {A} (P : A -> Mgr -> Prop) (r : result ManagerError A) (m : Mgr) : Prop :=
  match r with Ok a => P a m | Err _ => False end.

Lemma hoare_seq {A B} P (p : Tx St ManagerError A) (R : A -> Mgr -> Prop) (k : A -> Tx St ManagerError B) Q :
  hoare P p (okP R) -> (forall a, hoare (R a) (k a) Q) -> hoare P (tbind p k) Q.
Proof. intros Hp Hk. eapply hoare_bind; [exact Hp|exact Hk|done]. Qed.

Lemma phase_store id s0 m m' : store m' = store m -> phase id s0 m -> phase id s0 m'.
Proof. unfold phase. by intros ->. Qed.

(** A step aside keeps the phase. *)
Lemma aside_spec {A} id s0 (f : nat -> Mgr -> A * Mgr) :
  (forall n m, store (f n m).2 = store m) ->
  hoare (phase id s0) (atomic env f) (okP (fun a m => (exists n m', a = (f n m').1) /\ phase id s0 m)).
Proof.
  intros Hf. apply hoare_atomic; [apply phase_stable|]. intros n m Hm. simpl. split; [eauto|].
  apply (phase_store id s0 m); [apply Hf|done].
Qed.

Lemma aside_any {A} id s0 (f : nat -> Mgr -> A * Mgr) :
  (forall n m, store (f n m).2 = store m) ->
  hoare (phase id s0) (atomic env f) (okP (fun _ m => phase id s0 m)).
Proof.
  intros Hf. eapply hoare_weaken; [by apply (aside_spec id s0)|done|]. by intros [a|e] m; simpl; [intros [_ ?]|].
Qed.

Lemma event_spec id s0 kind d :
  hoare (phase id s0) (event env kind d)
    (okP (fun ev m => (exists k, ev = event_at (clock env k) kind d) /\ phase id s0 m)).
Proof.
  unfold event, now_millis. eapply hoare_seq; [by apply (aside_spec id s0)|].
  intros ms. apply hoare_ret. intros m [(n & m' & ->) Hm]. split; [by exists n|done].
Qed.
Lemma failure_event_spec id s0 code msg :
  hoare (phase id s0) (failure_event env code msg)
    (okP (fun ev m => (exists k, ev = failure_event_at (clock env k) code msg) /\ phase id s0 m)).
Proof.
  unfold failure_event, now_millis. eapply hoare_seq; [by apply (aside_spec id s0)|].
  intros ms. apply hoare_ret. intros m [(n & m' & ->) Hm]. split; [by exists n|done].
Qed.
Lemma cancellation_event_spec id s0 reason :
  hoare (phase id s0) (cancellation_event env reason)
    (okP (fun ev m => (exists k, ev = cancellation_event_at (clock env k) reason) /\ phase id s0 m)).
Proof.
  unfold cancellation_event, now_millis. eapply hoare_seq; [by apply (aside_spec id s0)|].
  intros ms. apply hoare_ret. intros m [(n & m' & ->) Hm]. split; [by exists n|done].
Qed.
Lemma cancellation_reason_spec id s0 st :
  hoare (phase id s0) (cancellation_reason env st) (okP (fun _ m => phase id s0 m)).
Proof.
  unfold cancellation_reason, load_shutting_down. eapply hoare_seq; [by apply (aside_any id s0)|].
  intros b. by apply hoare_ret.
Qed.

Definition fetched (id : string) (s0 : RunState) (rec : RunRecord) (m : Mgr) : Prop :=
  run_id rec = id /\ rtc edge s0 (run_status rec) /\ in_state id (run_status rec) (store m)
  /\ phase id (run_status rec) m.

Lemma fetch_spec id s0 : hoare (phase id s0) (fetch_run env id) (okP (fetched id s0)).
Proof.
  intros n m Hm. pose proof (phase_stable id s0 n m Hm) as (Hl & (s & (row & Hr & Hv) & Hp) & Hroom).
  unfold fetch_run, store_call, atomic, tbind, lift_store, tlift, get_run, tread. simpl.
  rewrite (run_by_id_decoded id row s) by done. simpl. split; [done|]. split; [done|].
  assert (in_state id s (store (set_store (store (interfere env n m)) (interfere env n m)))) as Hs
    by by exists row.
  split; [done|]. split; [done|]. split; [|done]. exists s. split; [done|constructor].
Qed.

Lemma transition_spec id e n ev :
  is_terminal e = false -> edge e n -> (exists k, ev ∈ manager_events (clock env k)) ->
  hoare (phase id e) (transition env id e n ev)
    (okP (fun r m =>
       match r with
       | Ok _ => ledger (core (store m)) /\ in_state id n (store m)
       | Err (UnexpectedStatus _ _) =>
           exists s, phase id s m /\ rtc edge e s /\ (steps_left s < steps_left e)%nat
       | Err err => refusal err = true /\ ~ C id /\ phase id e m
       end)).
Proof.
  intros Ht Hedge [k Hev] n0 m Hm. pose proof (phase_stable id e n0 m Hm) as (Hl & (s & Hs & Hp) & Hroom).
  unfold transition, store_call, atomic. simpl. set (m1 := interfere env n0 m) in *.
  destruct (transition_run id e n ev (tick env n0) (store m1)) as [r db'] eqn:Hop. simpl.
  pose proof (transition_outcome id e n ev _ _ s r db' Hl Hs Hop) as Hout.
  destruct r as [x|err]; [by destruct Hout as (_ & _ & ? & ?)|].
  assert (forall err', refusal err' = true -> db' = store m1 ->
    (validate_event ev = Ok tt -> roomy id (store m1) -> is_terminal e = false -> edge e n -> False) ->
    refusal err' = true /\ ~ C id /\ phase id e (set_store db' m1)) as Hother.
  { intros err' Hr' -> Hno. split; [done|]. split; [|split; [done|split; [by exists s|done]]]. intros Hc. apply Hno; [|by apply Hroom|done..].
    by eapply (proj2 (C_calm id Hc) k). }
  destruct err; try (destruct Hout as (? & ? & ?); by apply Hother).
  destruct Hout as [-> Hne]. exists s. split; [|split; [done|]].
  - split; [done|]. split; [exists s; split; [done|constructor]|done].
  - destruct (edge_steps _ _ Hp); [congruence|done].
Qed.

(** ** The bounded retry loops converge *)

(** A loop body either ends the loop or saw the run move on. *)
Definition loop_post {A} (id : string) (s0 : RunState) (Post : result ManagerError A -> Mgr -> Prop)
    (r : result ManagerError (option A)) (m : Mgr) : Prop :=
  match r with
  | Ok (Some a) => Post (Ok a) m
  | Ok None => exists s, phase id s m /\ rtc edge s0 s /\ (steps_left s < steps_left s0)%nat
  | Err e => Post (Err e) m
  end.

Lemma retry_spec {A} id (K : RunState -> Prop) err (body : Tx St ManagerError (option A))
    (Post : result ManagerError A -> Mgr -> Prop) :
  (forall a b, K a -> rtc edge a b -> K b) ->
  (forall s0, K s0 -> hoare (phase id s0) body (loop_post id s0 Post)) ->
  forall fuel s0, K s0 -> (steps_left s0 < fuel)%nat -> hoare (phase id s0) (retry fuel err body) Post.
Proof.
  intros Hclosed Hbody. induction fuel as [|fuel IH]; intros s0 HK Hf; [lia|]. cbn [retry].
  eapply hoare_bind; [by apply Hbody| |done]. intros [a|].
  - by apply hoare_ret.
  - intros n m (s & Hs & Hp & Hlt). apply (IH s); [by eapply Hclosed|lia|done].
Qed.

Lemma eight_steps s : (steps_left s < 8)%nat.
Proof. destruct s; simpl; lia. Qed.

(** What settling a run guarantees. *)
Definition settles (id : string) (r : result ManagerError unit) (m : Mgr) : Prop :=
  match r with
  | Ok _ => ledger (core (store m)) /\ settled_run id (store m)
  | Err (Store e) => refusal e = true /\ ~ C id
  | Err _ => False
  end.

(** A transition and the tail of a loop body. *)
Lemma transition_settled {A} id e n ev (k : Tx St ManagerError A) (Post : result ManagerError A -> Mgr -> Prop) :
  is_terminal e = false -> edge e n -> (exists i, ev ∈ manager_events (clock env i)) ->
  hoare (fun m => ledger (core (store m)) /\ in_state id n (store m)) k Post ->
  (forall x m, refusal x = true -> ~ C id -> Post (Err (Store x)) m) ->
  hoare (phase id e) (r <- transition env id e n ev ; settled r k) (loop_post id e Post).
Proof.
  intros Ht He Hev Hk Herr. eapply hoare_seq; [by apply transition_spec|]. intros [x|err]; simpl.
  - eapply hoare_bind; [exact Hk| |done]. intros a. by apply hoare_ret.
  - destruct err; try (apply hoare_raise; intros m (? & ? & _); by apply Herr).
    by apply hoare_ret.
Qed.

(** Fetch the run, then act on the state it was found in. *)
Lemma fetch_then {A} id s0 (k : RunRecord -> Tx St ManagerError (option A)) Post :
  (forall rec, run_id rec = id -> rtc edge s0 (run_status rec) ->
     hoare (fun m => in_state id (run_status rec) (store m) /\ phase id (run_status rec) m) (k rec)
       (loop_post id (run_status rec) Post)) ->
  hoare (phase id s0) (rec <- fetch_run env id ; k rec) (loop_post id s0 Post).
Proof.
  intros Hk. eapply hoare_seq; [apply fetch_spec|]. intros rec n m (Hid & Hp & Hs & Hph).
  specialize (Hk rec Hid Hp n m (conj Hs Hph)).
  destruct (k rec (n, m)) as [[[a|]|x] [n' m']]; simpl in *; [done| |done].
  destruct Hk as (s & Hs' & Hp' & Hlt). exists s. split; [done|]. split; [by etrans|].
  destruct (edge_steps _ _ Hp) as [Heq|]; [rewrite Heq in Hlt|]; lia.
Qed.

Lemma done_now id s m :
  ledger (core (store m)) -> in_state id s (store m) -> is_terminal s = true ->
  ledger (core (store m)) /\ settled_run id (store m).
Proof. intros Hl Hs Ht. split; [done|]. by exists s. Qed.

Lemma plain_event i kind :
  kind ∈ ["run_starting"; "run_started"; "run_succeeded"; "run_cancel_requested"; "run_manager_stopped"] ->
  event_at (clock env i) kind None ∈ manager_events (clock env i).
Proof.
  intros Hk. unfold manager_events.
  repeat (apply elem_of_cons in Hk as [->|Hk]; [repeat (try left; right)|]). by apply elem_of_nil in Hk.
Qed.
Lemma cancel_event i reason : cancellation_event_at (clock env i) reason ∈ manager_events (clock env i).
Proof. destruct reason; unfold manager_events; repeat (try left; right). Qed.
Lemma evidence_event i kind :
  failure_event_at (clock env i) (execution_failure_evidence kind).1 (execution_failure_evidence kind).2
  ∈ manager_events (clock env i).
Proof.
  unfold manager_events. apply elem_of_app. right. apply list_elem_of_fmap. exists kind. split; [done|].
  destruct kind; repeat (try left; right).
Qed.

Lemma edge_to_stop s n : is_terminal s = false -> n = Failed \/ n = Cancelled \/ n = Interrupted -> edge s n.
Proof. intros Hs [->|[->| ->]]; by destruct s. Qed.

(** A terminal transition ends the run. *)
Lemma settle_step id e n ev :
  is_terminal e = false -> edge e n -> is_terminal n = true ->
  (exists i, ev ∈ manager_events (clock env i)) ->
  hoare (phase id e) (r <- transition env id e n ev ; settled r (tret tt)) (loop_post id e (settles id)).
Proof.
  intros Ht He Hn Hev. apply transition_settled; try done. apply hoare_ret. intros m [Hl Hs]. by eapply done_now.
Qed.

Lemma finish_cancelled_spec id s0 : hoare (phase id s0) (finish_cancelled env id) (settles id).
Proof.
  apply (retry_spec id (fun _ => True)); [done| |done|apply eight_steps]. intros s1 _.
  apply fetch_then. intros rec Hid Hp. destruct (is_terminal (run_status rec)) eqn:Ht.
  { apply hoare_ret. intros m [Hs (Hl & _)]. by eapply done_now. }
  eapply hoare_weaken; [|by intros m [_ Hm]; exact Hm|done].
  eapply hoare_seq; [apply cancellation_reason_spec|]. intros reason.
  eapply hoare_seq; [apply cancellation_event_spec|]. intros ev n m [[i ->] Hm]. revert n m Hm.
  apply settle_step; [done|apply edge_to_stop; auto|done|eauto using cancel_event].
Qed.

(** What waiting reports was true when it was read, and a terminal state is final. *)
Lemma wait_spec fuel id s0 :
  hoare (phase id s0) (wait_for_terminal env fuel id)
    (fun r m => match r with
                | Ok (Some (Some rec)) => run_id rec = id /\ rtc edge s0 (run_status rec)
                    /\ (is_terminal (run_status rec) = true -> in_state id (run_status rec) (store m))
                | Ok (Some None) | Err _ => False
                | Ok None => True
                end).
Proof.
  revert s0. induction fuel as [|fuel IH]; intros s0; [by apply hoare_ret|]. cbn [wait_for_terminal].
  apply hoare_run. intros n m r st Hm.
  pose proof (phase_stable id s0 n m Hm) as (Hl & (s & Hs & Hp) & Hroom). pose proof Hs as (row & Hr & Hv).
  set (m1 := interfere env n m) in *.
  assert (phase id s m1) as Hm1 by (split; [done|]; split; [exists s; split; [done|constructor]|done]).
  unfold tbind at 1, atomic at 1, get_run at 1, tread at 1. cbn [fst snd]. fold m1.
  rewrite (run_by_id_decoded id row s) by done.
  unfold lift_store, tbind at 1, tlift at 1. cbn [map_err decoded run_status].
  destruct (is_terminal s) eqn:Ht; [by intros [= <- <-]|].
  unfold tbind at 1, atomic at 1. cbn [fst snd]. apply (phase_stable id s (S n)) in Hm1.
  destruct (deadline_passed env (S n)).
  { intros [= <- <-]. cbn. split_and!; [done|done|congruence]. }
  unfold tbind at 1, atomic at 1. cbn [fst snd]. apply (phase_stable id s (S (S n))) in Hm1.
  set (m2 := interfere env (S (S n)) _) in *. destruct (generation m2 =? generation m1).
  - apply (phase_stable id s (S (S (S n)))) in Hm1 as (_ & (s2 & (row2 & Hr2 & Hv2) & Hp2) & _).
    unfold tbind at 1, store_call, atomic at 1, get_run, tread. cbn [fst snd].
    rewrite (run_by_id_decoded id row2 s2) by done. intros [= <- <-]. cbn.
    split; [done|]. split; [by etrans|]. intros _. by exists row2.
  - specialize (IH s (S (S (S n))) m2 Hm1). intros Hop. rewrite Hop in IH. cbn [fst snd] in IH.
    destruct r as [[[rec|]|]|]; try done. destruct IH as (? & ? & ?). split; [done|]. split; [by etrans|done].
Qed.

(** The states a started run can be in. *)
Definition started (s : RunState) : Prop := rtc edge Running s.

Lemma started_edge s : started s -> is_terminal s = false -> edge s Succeeded.
Proof.
  intros Hs Ht. destruct (edge_steps _ _ Hs) as [->|Hlt]; [done|]. destruct s; try done; simpl in Hlt; lia.
Qed.

Lemma settle_attempt_spec id s0 token outcome :
  started s0 -> hoare (phase id s0) (settle_attempt env id token outcome) (settles id).
Proof.
  intros Hst. apply (retry_spec id started); [by intros a b Ha ?; unfold started; etrans| |done|apply eight_steps].
  intros s1 Hs1. apply fetch_then. intros rec Hid Hp. destruct (is_terminal (run_status rec)) eqn:Ht.
  { apply hoare_ret. intros m [Hs (Hl & _)]. by eapply done_now. }
  assert (started (run_status rec)) as Hrec by (unfold started; by etrans).
  eapply hoare_weaken; [|by intros m [_ Hm]; exact Hm|done].
  apply (hoare_seq _ _ (fun ne m => phase id (run_status rec) m /\ edge (run_status rec) ne.1
      /\ is_terminal ne.1 = true /\ exists i, ne.2 ∈ manager_events (clock env i))).
  2:{ intros [next ev] n m (Hm & He & Hn & Hev). revert n m Hm. by apply settle_step. }
  destruct outcome as [|error|error].
  - eapply hoare_seq; [by apply (aside_any id)|]. intros cancelled.
    eapply (hoare_seq _ _ (fun _ m => phase id (run_status rec) m)).
    { destruct (cancelled || _); [by apply hoare_ret|by apply (aside_any id)]. }
    intros stopping. destruct (cancelled || _ || stopping).
    + eapply hoare_seq; [apply cancellation_reason_spec|]. intros reason.
      eapply hoare_seq; [apply cancellation_event_spec|]. intros ev. apply hoare_ret.
      intros m [[i ->] Hm]. simpl. split; [done|]. split; [apply edge_to_stop; auto|].
      split; [done|]. eauto using cancel_event.
    + eapply hoare_seq; [apply event_spec|]. intros ev. apply hoare_ret.
      intros m [[i ->] Hm]. simpl. split; [done|]. split; [by apply started_edge|].
      split; [done|]. exists i. apply plain_event. set_solver.
  - destruct (execution_failure_evidence (xerr_kind error)) as [code msg] eqn:Hev.
    eapply hoare_seq; [apply failure_event_spec|]. intros ev. apply hoare_ret.
    intros m [[i ->] Hm]. simpl. split; [done|]. split; [apply edge_to_stop; auto|]. split; [done|].
    exists i. pose proof (evidence_event i (xerr_kind error)) as Hin. by rewrite Hev in Hin.
  - eapply hoare_seq; [apply failure_event_spec|]. intros ev. apply hoare_ret.
    intros m [[i ->] Hm]. simpl. split; [done|]. split; [apply edge_to_stop; auto|]. split; [done|].
    exists i. unfold manager_events. do 7 right. left.
Qed.

(** ** Cancellation *)
(** Once the request is stored, other threads may only finish the run. *)
Definition cancelled_so_far (id : string) (m : Mgr) : Prop :=
  ledger (core (store m))
  /\ exists s, in_state id s (store m) /\ (is_terminal s = true \/ s = CancelRequested).

Definition cancels (id : string) (r : result ManagerError RunRecord) (m : Mgr) : Prop :=
  match r with
  | Ok rec => run_id rec = id /\ cancelled_so_far id m
              /\ (is_terminal (run_status rec) = true \/ run_status rec = CancelRequested)
  | Err (Store e) => refusal e = true /\ ~ C id
  | Err _ => False
  end.

Lemma after_cancel s s' : rtc edge s s' -> is_terminal s = true \/ s = CancelRequested ->
  is_terminal s' = true \/ s' = CancelRequested.
Proof.
  intros Hp [Ht| ->]; [left; by rewrite (terminal_edge _ _ Hp Ht)|].
  destruct (edge_steps _ _ Hp) as [->|Hlt]; [by right|]. left. destruct s'; simpl in *; try done; lia.
Qed.

Lemma cancelled_stable id : stable (cancelled_so_far id).
Proof.
  intros n m (Hl & s & Hs & Hc). destruct (rely_evolves _ _ (env_rely n m) Hl) as [Hl' Hev].
  destruct (evolves_state _ _ _ _ Hev Hs) as (s' & Hs' & Hp). split; [done|]. exists s'.
  split; [done|]. by eapply after_cancel.
Qed.

Lemma notify_then_fetch id :
  hoare (cancelled_so_far id) (notify env ;; fetch_run env id) (cancels id).
Proof.
  apply (hoare_seq _ _ (fun _ m => cancelled_so_far id m)).
  { apply hoare_atomic; [apply cancelled_stable|]. done. }
  intros _ n m Hm. pose proof (cancelled_stable id n m Hm) as (Hl & s & (row & Hr & Hv) & Hc).
  unfold fetch_run, store_call, atomic, tbind, lift_store, tlift, get_run, tread. simpl.
  rewrite (run_by_id_decoded id row s) by done. simpl. split; [done|]. split; [|done].
  split; [done|]. exists s. split; [by exists row|done].
Qed.

Lemma cancel_step id e n ev :
  is_terminal e = false -> edge e n -> is_terminal n = true \/ n = CancelRequested ->
  (exists i, ev ∈ manager_events (clock env i)) ->
  hoare (phase id e) (r <- transition env id e n ev ; settled r (notify env ;; fetch_run env id))
    (loop_post id e (cancels id)).
Proof.
  intros Ht He Hn Hev. apply transition_settled; try done.
  eapply hoare_weaken; [apply notify_then_fetch| |done]. intros m [Hl Hs]. split; [done|]. eauto.
Qed.

Lemma cancel_spec id s0 : hoare (phase id s0) (cancel env id) (cancels id).
Proof.
  apply (retry_spec id (fun _ => True)); [done| |done|apply eight_steps]. intros s1 _.
  apply fetch_then. intros rec Hid Hp. destruct (is_terminal (run_status rec)) eqn:Ht.
  { apply hoare_ret. intros m [Hs (Hl & _)]. split; [done|]. split; [split; eauto|by left]. }
  apply (hoare_seq _ _ (fun _ m => phase id (run_status rec) m)).
  { eapply hoare_weaken; [by apply (aside_any id (run_status rec))|by intros m [_ ?]|done]. }
  intros token. apply (hoare_seq _ _ (fun _ m => phase id (run_status rec) m)).
  { destruct token; [by apply (aside_any id)|by apply hoare_ret]. }
  intros _. destruct (run_status rec) eqn:Hst; try discriminate Ht.
  - eapply hoare_seq; [apply cancellation_event_spec|]. intros ev n m [[i ->] Hm]. revert n m Hm.
    apply cancel_step; [done|done|by left|eauto using cancel_event].
  - eapply hoare_seq; [apply event_spec|]. intros ev n m [[i ->] Hm]. revert n m Hm.
    apply cancel_step; [done|done|by right|]. exists i. apply plain_event. set_solver.
  - eapply hoare_seq; [apply event_spec|]. intros ev n m [[i ->] Hm]. revert n m Hm.
    apply cancel_step; [done|done|by right|]. exists i. apply plain_event. set_solver.
  - apply hoare_ret. intros m (Hl & (s & Hs & Hp') & _). split; [done|]. split; [|by right].
    split; [done|]. exists s. split; [done|]. eapply after_cancel; [exact Hp'|by right].
Qed.

(** ** The worker *)
Definition done_run (id : string) (m : Mgr) : Prop := ledger (core (store m)) /\ settled_run id (store m).

Lemma done_stable id : stable (done_run id).
Proof.
  intros n m (Hl & s & Hs & Ht). destruct (rely_evolves _ _ (env_rely n m) Hl) as [Hl' Hev].
  destruct (evolves_state _ _ _ _ Hev Hs) as (s' & Hs' & Hp). split; [done|]. exists s'.
  split; [done|]. by rewrite (terminal_edge _ _ Hp Ht).
Qed.

(** An item ends with the run settled, or with an error. *)
Definition ends (id : string) (r : result ManagerError unit) (m : Mgr) : Prop :=
  match r with Ok _ => done_run id m | Err _ => True end.

Lemma finish_admission_spec id id' : hoare (done_run id) (finish_admission env id') (ends id).
Proof.
  unfold finish_admission, notify.
  do 2 (apply (hoare_seq _ _ (fun _ m => done_run id m));
        [apply hoare_atomic; [apply done_stable|done]|intros _]).
  apply hoare_atomic; [apply done_stable|done].
Qed.

Lemma settles_then id (p q : Tx St ManagerError unit) P :
  hoare P p (settles id) -> hoare (done_run id) q (ends id) -> hoare P (p ;; q) (ends id).
Proof. intros Hp Hq. eapply hoare_bind; [exact Hp| |done]. by intros []. Qed.

Lemma settle_start_conflict_spec id s0 :
  hoare (phase id s0) (settle_start_conflict env id) (ends id).
Proof.
  unfold settle_start_conflict. eapply hoare_seq; [apply fetch_spec|]. intros rec.
  destruct (is_terminal (run_status rec)) eqn:Ht.
  { eapply hoare_weaken; [apply (finish_admission_spec id)| |done].
    intros m (_ & _ & Hs & (Hl & _)). by eapply done_now. }
  case_bool_decide; [|by apply hoare_raise].
  eapply settles_then; [|apply finish_admission_spec].
  eapply hoare_weaken; [apply (finish_cancelled_spec id (run_status rec))| |done]. by intros m (_ & _ & _ & ?).
Qed.

Lemma v4_finalize_core id st db : core (v4_finalize_turn id st db).2 = core db.
Proof.
  unfold v4_finalize_turn, transaction, tbind, tread, tlift, traise, tmodify.
  destruct (run_by_id id db) as [[rec|]|]; simpl; [|done..]. by destruct (_ || _).
Qed.

Lemma done_core id m db : core db = core (store m) -> done_run id m -> done_run id (set_store db m).
Proof.
  intros Hc (Hl & s & (row & Hr & Hv) & Ht). split; [simpl; by rewrite Hc|]. exists s. split; [|done].
  exists row. split; [|done]. simpl. rewrite (f_equal k_runs Hc : runs db = _). done.
Qed.

Lemma finalize_spec id st : hoare (done_run id) (finalize_v4_turn env id st) (ends id).
Proof.
  unfold finalize_v4_turn, store_call. apply (hoare_seq _ _ (fun _ m => done_run id m)).
  { apply hoare_atomic; [apply done_stable|]. intros n m Hm.
    pose proof (v4_finalize_core id st (store m)) as Hc.
    destruct (v4_finalize_turn id st (store m)) as [r db']. simpl in *. by apply done_core. }
  intros [u|err]; [by apply hoare_ret|]. destruct err; solve [by apply hoare_raise|by apply hoare_ret].
Qed.

Lemma ends_then id (p q : Tx St ManagerError unit) P :
  hoare P p (ends id) -> hoare (done_run id) q (ends id) -> hoare P (p ;; q) (ends id).
Proof. intros Hp Hq. eapply hoare_bind; [exact Hp| |done]. by intros []. Qed.

Lemma finish_as_cancelled_spec item token s0 :
  hoare (phase (wi_run_id item) s0) (finish_as_cancelled env item token) (ends (wi_run_id item)).
Proof.
  unfold finish_as_cancelled. apply (hoare_seq _ _ (fun _ m => phase (wi_run_id item) s0 m)).
  { by apply (aside_any (wi_run_id item) s0). }
  intros _. eapply settles_then; [apply finish_cancelled_spec|].
  apply ends_then; [|apply finish_admission_spec].
  destruct (is_v4 item); [apply finalize_spec|by apply hoare_ret].
Qed.

Lemma in_phase id s m : ledger (core (store m)) -> in_state id s (store m) -> ~ C id -> phase id s m.
Proof. intros Hl Hs Hc. split; [done|]. split; [|done]. exists s. split; [done|constructor]. Qed.

Lemma queued_reaches s : rtc edge Queued s.
Proof.
  assert (edge Queued Starting /\ edge Starting Running /\ edge Running Succeeded) as (H1 & H2 & H3) by done.
  destruct s; [constructor|by apply rtc_once|by eapply rtc_l, rtc_once| |by eapply rtc_l, rtc_l, rtc_once|..];
    by apply rtc_once.
Qed.

Lemma phase_from id s0 m : phase id s0 m -> phase id Queued m.
Proof.
  intros (Hl & (s & Hs & _) & Hc). split; [done|]. split; [|done]. exists s. split; [done|apply queued_reaches].
Qed.

(** After the executor returned. *)
Lemma attempt_spec item token outcome :
  hoare (phase (wi_run_id item) Running)
    (settle_attempt env (wi_run_id item) token outcome ;;
     (if is_v4 item
      then found <- store_call env (fun _ => get_run (wi_run_id item)) ;
           found <- lift_store found ;
           let terminal := match found with Some run => run_status run | None => Failed end in
           if is_terminal terminal then finalize_v4_turn env (wi_run_id item) terminal else tret tt
      else tret tt) ;;
     finish_admission env (wi_run_id item)) (ends (wi_run_id item)).
Proof.
  eapply settles_then; [apply settle_attempt_spec; constructor|].
  apply ends_then; [|apply finish_admission_spec]. destruct (is_v4 item); [|by apply hoare_ret].
  apply (hoare_seq _ _ (fun _ m => done_run (wi_run_id item) m)).
  { apply hoare_atomic; [apply done_stable|]. intros n m Hm. simpl. by apply done_core. }
  intros found. apply (hoare_bind _ _ (fun r m => match r with Ok _ => done_run (wi_run_id item) m | Err _ => True end));
    [| |done].
  { intros n m Hm. unfold lift_store, tlift. simpl. by destruct (map_err Store found). }
  intros o. cbv zeta.
  match goal with |- hoare _ (if is_terminal ?t then _ else _) _ => destruct (is_terminal t) end;
    [apply finalize_spec|by apply hoare_ret].
Qed.

Lemma execute_item_spec item s0 :
  ~ C (wi_run_id item) -> hoare (phase (wi_run_id item) s0) (execute_item env item) (ends (wi_run_id item)).
Proof.
  intros HnC. set (id := wi_run_id item) in *. unfold execute_item. fold id.
  eapply (hoare_seq _ _ (fun ev m => (exists i, ev = event_at (clock env i) "run_starting" None) /\ phase id Queued m)).
  { eapply hoare_weaken; [apply (event_spec id Queued)|apply phase_from|done]. }
  intros ev n m [[i ->] Hm]. revert n m Hm.
  eapply hoare_seq; [apply transition_spec; [done|done|exists i; apply plain_event; set_solver]|].
  intros [x|err].
  2:{ destruct err; try (by apply hoare_raise); intros n m Hm.
      - destruct Hm as (s & Hm & _). by eapply settle_start_conflict_spec.
      - destruct Hm as (_ & _ & Hm). by eapply settle_start_conflict_spec. }
  eapply hoare_weaken; [|by intros m [Hl Hs]; exact (in_phase id Starting m Hl Hs HnC)|done].
  apply (hoare_seq _ _ (fun _ m => phase id Starting m)); [by apply (aside_any id)|]. intros token.
  apply (hoare_seq _ _ (fun _ m => phase id Starting m)); [by apply (aside_any id)|]. intros stopping.
  apply (hoare_seq _ _ (fun _ m => phase id Starting m)).
  { destruct stopping; [by apply (aside_any id)|by apply hoare_ret]. }
  intros _. apply (hoare_seq _ _ (fun _ m => phase id Starting m)).
  { eapply hoare_weaken; [apply (fetch_spec id Starting)|done|]. intros [rec|e] m; [|done].
    intros (_ & Hp & Hs & (Hl & _ & Hr)). split; [done|]. split; [by exists (run_status rec)|done]. }
  intros rec. apply (hoare_seq _ _ (fun _ m => phase id Starting m)).
  { case_bool_decide; [by apply hoare_ret|by apply (aside_any id)]. }
  intros cancelled. destruct cancelled; [apply finish_as_cancelled_spec|].
  eapply hoare_seq; [apply event_spec|]. intros ev n m [[j ->] Hm]. revert n m Hm.
  eapply hoare_seq; [apply transition_spec; [done|done|exists j; apply plain_event; set_solver]|].
  intros [y|err].
  2:{ destruct err; try (by apply hoare_raise); intros n m Hm.
      destruct Hm as (s & Hm & _). by eapply finish_as_cancelled_spec. }
  eapply hoare_weaken; [|by intros m [Hl Hs]; exact (in_phase id Running m Hl Hs HnC)|done].
  apply (hoare_seq _ _ (fun _ m => phase id Running m)); [by apply (aside_any id)|]. intros outcome.
  apply attempt_spec.
Qed.

End Env.

(** ** Stopping *)
Section Quiet.
Variable env : Env.
(** The worker has been joined and no client call is in progress. *)
Hypothesis quiet : forall n m, interfere env n m = m.
Hypothesis events_valid : forall n ev, ev ∈ manager_events (clock env n) -> validate_event ev = Ok tt.

(** How a stop leaves a run: what was queued is cancelled, what had started is
    interrupted, what was finished is as it was. *)
Definition stopped (s : RunState) : RunState := default s (stop_state s).

Lemma stopped_terminal s : is_terminal (stopped s) = true.
Proof. by destruct s. Qed.

Lemma stop_one id s next n m :
  ledger (core (store m)) -> in_state id s (store m) -> roomy id (store m) -> stop_state s = Some next ->
  exists x db', (ev <- event env "run_manager_stopped" None ;
                 r <- transition env id s next ev ; lift_store r) (n, m)
                = (Ok x, (S (S n), set_store db' m))
    /\ ledger (core db') /\ in_state id next db'
    /\ (forall id', id' <> id -> runs db' !! id' = runs (store m) !! id')
    /\ assistant_turns db' = assistant_turns (store m).
Proof.
  intros Hl Hs Hroom Hstop.
  unfold event, now_millis, transition, store_call, atomic, tbind, tret, lift_store, tlift. simpl. rewrite !quiet.
  set (ev := event_at (clock env n) "run_manager_stopped" None).
  assert (validate_event ev = Ok tt) as Hval by (apply (events_valid n), plain_event; set_solver).
  destruct (transition_run id s next ev (tick env (S n)) (store m)) as [r db'] eqn:Hop.
  pose proof (transition_outcome id s next ev _ _ s r db' Hl Hs Hop) as Hout.
  assert (is_terminal s = false /\ edge s next) as [Ht He] by (destruct s; simpl in Hstop; try discriminate; injection Hstop as <-; by split).
  destruct r as [x|err].
  - destruct Hout as (_ & _ & Hl' & Hs'). exists x, db'. split; [done|]. split; [done|]. split; [done|].
    apply transition_run_ok in Hop as (_ & _ & row & Hr & _ & _ & Hcore & _). split.
    + intros id' Hne. rewrite (f_equal k_runs Hcore : runs db' = _). simpl. by rewrite lookup_insert_ne.
    + by rewrite (f_equal k_turns Hcore : assistant_turns db' = _).
  - exfalso. destruct err; try (destruct Hout as (_ & _ & Hno); by apply Hno). by destruct Hout as [_ ?].
Qed.

Lemma interrupt_all ids n m :
  NoDup ids -> ledger (core (store m)) ->
  (forall id, id ∈ ids -> (exists s, in_state id s (store m)) /\ roomy id (store m)) ->
  exists n' db', interrupt_each_admitted env ids (n, m) = (Ok tt, (n', set_store db' m))
    /\ ledger (core db')
    /\ (forall id s, id ∈ ids -> in_state id s (store m) -> in_state id (stopped s) db')
    /\ (forall id, id ∉ ids -> runs db' !! id = runs (store m) !! id).
Proof.
  intros Hnd. revert n m. induction Hnd as [|id ids Hnin _ IH]; intros n m Hl Hall.
  { exists n, (store m). simpl. split; [by destruct m|]. split; [done|]. split; [by intros ? ? ?%elem_of_nil|done]. }
  destruct (Hall id) as [[s Hs] Hroom]; [left|]. pose proof Hs as (row & Hr & Hv). cbn [interrupt_each_admitted].
  unfold tbind at 1, store_call at 1, atomic at 1, get_run, tread. cbn [fst snd]. rewrite quiet.
  rewrite (run_by_id_decoded id row s) by done.
  assert (set_store (store m) m = m) as -> by by destruct m.
  unfold tbind at 1, lift_store at 1, tlift at 1. cbn [map_err run_status decoded].
  destruct (stop_state s) as [next|] eqn:Hstop.
  - destruct (stop_one id s next (S n) m Hl Hs Hroom Hstop) as (x & db1 & Hone & Hl1 & Hs1 & Hsame & Htu).
    destruct (IH (S (S (S n))) (set_store db1 m)) as (n' & db' & Hrest & Hl' & Hin & Hout).
    { done. }
    { intros id' Hid'. destruct (Hall id') as [[s' (row' & Hr' & Hv')] [Ht' Hroom']]; [by right|].
      assert (runs db1 !! id' = runs (store m) !! id') as Heq by (apply Hsame; by intros ->).
      split; [exists s', row'; simpl; by rewrite Heq|]. split; [simpl; by rewrite Htu|]. simpl. by rewrite Heq. }
    exists n', db'. split; [|split; [done|split]].
    + revert Hone Hrest. unfold tbind. destruct (event env _ None (S n, m)) as [[ev|] st1]; [|discriminate].
      destruct (transition env id s next ev st1) as [[r|] st2]; [|discriminate].
      intros -> Hrest. exact Hrest.
    + intros id' s' [->|Hid']%elem_of_cons Hs'.
      * assert (s' = s) as -> by by eapply in_state_unique. destruct Hs1 as (row1 & Hr1 & Hv1).
        exists row1. rewrite Hout by done. split; [done|]. unfold stopped. by rewrite Hstop.
      * apply Hin; [done|]. destruct Hs' as (row' & Hr' & Hv'). exists row'. split; [|done].
        simpl. rewrite Hsame; [done|]. by intros ->.
    + intros id' [Hne Hn']%not_elem_of_cons. rewrite Hout by done. simpl. by apply Hsame.
  - destruct (IH (S n) m Hl) as (n' & db' & Hrest & Hl' & Hin & Hout).
    { intros id' Hid'. apply Hall. by right. }
    exists n', db'. split; [done|]. split; [done|]. split.
    + intros id' s' [->|Hid']%elem_of_cons Hs'; [|by apply Hin].
      assert (s' = s) as -> by by eapply in_state_unique. exists row. rewrite Hout by done.
      split; [done|]. unfold stopped. by rewrite Hstop.
    + intros id' [Hne Hn']%not_elem_of_cons. by apply Hout.
Qed.
End Quiet.

(** ** Evidence *)

(** Each state the manager writes, with the event it writes there. *)
Definition manager_evidence (ms : Z) : list (RunState * NewRunEvent) :=
  [(Starting, event_at ms "run_starting" None); (Running, event_at ms "run_started" None);
   (Succeeded, event_at ms "run_succeeded" None);
   (CancelRequested, event_at ms "run_cancel_requested" None);
   (Cancelled, event_at ms "run_manager_stopped" None);
   (Interrupted, event_at ms "run_manager_stopped" None);
   (Cancelled, cancellation_event_at ms CRequested);
   (Cancelled, cancellation_event_at ms CManagerShutdown);
   (Failed, failure_event_at ms "executor_panicked" "executor panicked");
   (Failed, failure_event_at ms "queue_full" "bounded run queue is full");
   (Failed, failure_event_at ms "worker_unavailable" "run worker is unavailable")]
  ++ map (fun k => (Failed, failure_event_at ms (execution_failure_evidence k).1
                              (execution_failure_evidence k).2))
       [General; Unsupported; Spawn; TimedOut; OutputLimit; ProviderExit; Teardown].

Lemma phase_here (env : Env) (C : string -> Prop) id s m :
  ledger (core (store m)) -> in_state id s (store m) -> (C id -> roomy id (store m)) -> phase C id s m.
Proof. intros Hl Hs Hr. split; [done|]. split; [|done]. exists s. split; [done|constructor]. Qed.

(** ** Properties *)

(** C6: settling an executed run converges under any interference: while other
    threads make whatever store calls they like, [settle_attempt] (and
    [finish_cancelled]) either leave the run in a terminal state or return an
    error with which the store itself refused the write; they never run out of
    their eight attempts, and with room in the ledger they always succeed. *)
Theorem settlement_converges (env : Env) (id : string) (s : RunState) (token : nat)
    (outcome : ExecutionAttempt) (n : nat) (m : Mgr)
    (Hrely : forall k m', rely m' (interfere env k m'))
    (Hl : ledger (core (store m))) (Hs : in_state id s (store m)) (Hst : started s) :
  forall p, p = settle_attempt env id token outcome \/ p = finish_cancelled env id ->
  match p (n, m) with
  | (Ok _, (_, m')) => settled_run id (store m')
  | (Err (Store e), _) => refusal e = true /\ ~ (calm env id /\ roomy id (store m))
  | (Err _, _) => False
  end.
Proof.
  intros p Hp. set (C := fun i => calm env i /\ (i = id -> roomy id (store m))).
  assert (hoare (phase C id s) p (settles C id)) as Hh.
  { destruct Hp as [-> | ->];
      [apply (settle_attempt_spec env C)|apply (finish_cancelled_spec env C)]; try done; by intros ? []. }
  specialize (Hh n m). destruct (p (n, m)) as [[u|e] [n' m']]; simpl in Hh.
  - apply Hh. apply (phase_here env); [done..|]. intros [_ ?]. auto.
  - destruct e as [| |e|]; try (apply Hh; apply (phase_here env); [done..|intros [_ ?]; auto]).
    destruct Hh as [Hr HC]; [apply (phase_here env); [done..|intros [_ ?]; auto]|].
    split; [done|]. intros [Hc Hroom]. apply HC. split; auto.
Qed.

(** [cancel] converges under any interference: for a known run it returns its
    record in a terminal state or in [CancelRequested], and from then on the
    run is in one of these states; it never gives up after eight attempts, and
    only fails when the store itself refuses the write. *)
Theorem cancel_converges (env : Env) (id : string) (s : RunState) (n : nat) (m : Mgr)
    (Hrely : forall k m', rely m' (interfere env k m'))
    (Hl : ledger (core (store m))) (Hs : in_state id s (store m)) :
  match cancel env id (n, m) with
  | (Ok rec, (_, m')) =>
      run_id rec = id /\ (is_terminal (run_status rec) = true \/ run_status rec = CancelRequested)
      /\ exists s', in_state id s' (store m') /\ (is_terminal s' = true \/ s' = CancelRequested)
  | (Err (Store e), _) => refusal e = true /\ ~ (calm env id /\ roomy id (store m))
  | (Err _, _) => False
  end.
Proof.
  set (C := fun i => calm env i /\ (i = id -> roomy id (store m))).
  pose proof (cancel_spec env C Hrely ltac:(by intros ? []) id s n m) as Hh.
  specialize (Hh (phase_here env C id s m Hl Hs ltac:(intros [_ ?]; auto))).
  destruct (cancel env id (n, m)) as [[rec|e] [n' m']]; simpl in Hh.
  - destruct Hh as (? & (_ & s' & ? & ?) & ?). eauto.
  - destruct e as [| |e|]; try done. destruct Hh as [Hr HC]. split; [done|]. intros [Hc Hroom]. apply HC. split; auto.
Qed.

(** A work item the worker finished is settled: when [execute_item] returns
    without error, its run is in a terminal state and stays there, whatever the
    executor did (completed, failed, panicked) and whatever other threads did
    meanwhile. *)
Theorem executed_items_are_settled (env : Env) (item : WorkItem) (s : RunState) (n : nat) (m : Mgr)
    (Hrely : forall k m', rely m' (interfere env k m'))
    (Hl : ledger (core (store m))) (Hs : in_state (wi_run_id item) s (store m)) :
  forall u n' m', execute_item env item (n, m) = (Ok u, (n', m')) ->
    ledger (core (store m')) /\ settled_run (wi_run_id item) (store m')
    /\ forall k, settled_run (wi_run_id item) (store (interfere env k m')).
Proof.
  intros u n' m' Hop.
  pose proof (execute_item_spec env (fun _ => False) Hrely ltac:(by intros ? []) item s ltac:(by intros []) n m) as Hh.
  specialize (Hh (phase_here env (fun _ => False) _ s m Hl Hs ltac:(by intros []))). rewrite Hop in Hh. simpl in Hh.
  destruct Hh as [Hl' Hd]. split; [done|]. split; [done|]. intros k.
  by apply (done_stable env Hrely (wi_run_id item) k m').
Qed.

(** Stopping the manager leaves nothing running: once no other thread is
    active, [interrupt_admitted] cancels every admitted run that was queued,
    interrupts every one that had started, keeps finished ones and all other
    runs, and empties the admission tables. *)
Theorem stop_settles_all_admitted_runs (env : Env) (n : nat) (m : Mgr)
    (Hquiet : forall k m', interfere env k m' = m')
    (Hev : forall k ev, ev ∈ manager_events (clock env k) -> validate_event ev = Ok tt)
    (Hl : ledger (core (store m)))
    (Hadm : forall id, id ∈ admitted m -> (exists s, in_state id s (store m)) /\ roomy id (store m)) :
  exists n' m', interrupt_admitted env (n, m) = (Ok tt, (n', m'))
    /\ admitted m' = ∅ /\ active m' = ∅
    /\ (forall id s, id ∈ admitted m -> in_state id s (store m) ->
          in_state id (stopped s) (store m') /\ is_terminal (stopped s) = true)
    /\ (forall id, id ∉ admitted m -> runs (store m') !! id = runs (store m) !! id).
Proof.
  destruct (interrupt_all env Hquiet Hev (elements (admitted m)) (S n) m) as (n' & db' & Hop & Hl' & Hin & Hout).
  { apply NoDup_elements. }
  { done. }
  { intros id Hid%elem_of_elements. by apply Hadm. }
  unfold interrupt_admitted, tbind at 1, atomic at 1. cbn [fst snd]. rewrite Hquiet.
  unfold tbind at 1. rewrite Hop. unfold tbind, atomic, notify. cbn [fst snd]. unfold atomic. cbn [fst snd].
  rewrite !Hquiet. eexists _, _. split; [done|]. split; [done|]. split; [done|]. split.
  - intros id s Hid%elem_of_elements Hs. split; [by apply Hin|apply stopped_terminal].
  - intros id Hid. simpl. apply Hout. by rewrite elem_of_elements.
Qed.

(** Whatever the manager records can be shown: every event it writes, for every
    way an execution can fail, is accepted by the projection of the store for
    the state it is written with, so no managed run becomes unreadable. *)
Theorem manager_evidence_projects (ms seq : Z) (id ts : string) (s : RunState) (ev : NewRunEvent)
    (Hin : (s, ev) ∈ manager_evidence ms) (Hseq : seq <> 0)
    (Hts : is_ok (parse_timestamp ts) = true) :
  exists e, lifecycle_state e = s
    /\ project_run_event (mkRunEvent id seq (ne_kind ev) (ne_payload ev) ts) (Some s)
       = Ok (mkRunEventRecord id seq ts e).
Proof.
  apply Z.eqb_neq in Hseq. destruct (parse_timestamp ts) as [x|] eqn:Ht; [|done].
  unfold manager_evidence in Hin.
  repeat (apply elem_of_cons in Hin as [[= -> ->]|Hin];
    [eexists; split; [|unfold project_run_event; cbn; unfold RunEventRecord_validate; cbn [er_sequence er_recorded_at er_event];
       rewrite Hseq, Ht; reflexivity]; reflexivity|]).
  by apply elem_of_nil in Hin.
Qed.

(** The digest of a request is one the store accepts: 64 lower-case hexadecimal
    digits, so that admission never fails on its own digest. *)
Theorem request_digest_is_accepted `{!DigestLaws} (request : RunRequest) (d key : string)
    (conversation : option string) (Hd : canonical_request_digest request = Ok d) :
  validate_new_run (mkNewRun conversation key d) = Ok tt.
Proof.
  unfold canonical_request_digest in Hd. destruct (encode_request request) as [bs|]; [|discriminate].
  injection Hd as <-. destruct (hexadecimal_ok (sha256 bs) (sha256_bytes bs)) as [Hlen Hhex].
  unfold validate_new_run. simpl. rewrite Hlen, sha256_length. simpl.
  by rewrite (proj2 (forallb_Forall _ _) Hhex).
Qed.
End Props.

(** ** Instances *)
Module ManagerExample.
Import Fixture ContentFixture DigestFixture JsonFixture LedgerExample.

#[export] Instance request_fixture : RequestDigest := {| encode_request r := Some (bytes (rq_input r)) |}.

(** No other thread; the clock shows 5. *)
Definition env0 : Env :=
  mkEnv (fun _ m => m) (fun _ => tick "6") (fun _ => 5) (fun _ => id2) (fun _ => "m2") (fun _ _ _ => Returned (Ok tt))
    (fun _ => true) (fun _ => false).
(** Another thread cancels the run before the first access. *)
Definition env1 : Env :=
  mkEnv (fun n m => match n with
                    | O => set_store (exec (OpTransition id1 Running CancelRequested (note "run_cancel_requested"))
                                        (tick "5") (store m)).2 m
                    | _ => m
                    end) (fun _ => tick "6") (fun _ => 5) (fun _ => id2) (fun _ => "m2") (fun _ _ _ => Returned (Ok tt))
    (fun _ => true) (fun _ => false).

Definition m4 : Mgr := set_admitted {[id1; id2]} (start db4 default_config).

Lemma env0_rely k m' : rely m' (interfere env0 k m').
Proof. constructor. Defined.
Lemma env1_rely k m' : rely m' (interfere env1 k m').
Proof.
  destruct k as [|k]; [|constructor]. apply rtc_once. left.
  eapply (store_step_exec (OpTransition id1 Running CancelRequested (note "run_cancel_requested")) (tick "5"));
    [exact I|]. apply surjective_pairing.
Qed.

Lemma running_db4 : in_state id1 Running db4.
Proof. exists row4. split; [vm_compute; reflexivity|]. constructor; try reflexivity; [discriminate|simpl; lia]. Qed.
Lemma queued_db4 : in_state id2 Queued db4.
Proof.
  exists (mkRunRow None "request-2" digest2 "queued" 2 "2" "2"). split; [vm_compute; reflexivity|].
  constructor; try reflexivity; [discriminate|simpl; lia].
Qed.

Lemma events5 : forall ev, ev ∈ manager_events 5 -> validate_event ev = Ok tt.
Proof.
  apply (proj1 (Forall_forall _ _)). unfold manager_events. simpl.
  repeat (apply Forall_cons; split; [vm_compute; reflexivity|]). by apply Forall_nil.
Qed.

Lemma settlement_converges_witness :
  match settle_attempt env1 id1 0 Completed (0%nat, m4) with
  | (Ok _, (_, m')) => settled_run id1 (store m')
  | (Err (Store e), _) => refusal e = true /\ ~ (calm env1 id1 /\ roomy id1 (store m4))
  | (Err _, _) => False
  end.
Proof.
  exact (settlement_converges env1 id1 Running 0 Completed 0 m4 env1_rely ledger_db4 running_db4
           (rtc_refl _ _) _ (or_introl eq_refl)).
Defined.

Lemma cancel_converges_witness :
  match cancel env1 id1 (0%nat, m4) with
  | (Ok rec, (_, m')) =>
      run_id rec = id1 /\ (is_terminal (run_status rec) = true \/ run_status rec = CancelRequested)
      /\ exists s', in_state id1 s' (store m') /\ (is_terminal s' = true \/ s' = CancelRequested)
  | (Err (Store e), _) => refusal e = true /\ ~ (calm env1 id1 /\ roomy id1 (store m4))
  | (Err _, _) => False
  end.
Proof. exact (cancel_converges env1 id1 Running 0 m4 env1_rely ledger_db4 running_db4). Defined.

Definition turn2 : V4SubmitTurn := mkV4SubmitTurn id1 "request-2" "abi.m" "hello".
Definition after_item : St := (execute_item env0 (mkWorkItem id2 (V4 turn2)) (0%nat, m4)).2.
Lemma executed_items_are_settled_witness : settled_run id2 (store after_item.2).
Proof.
  refine (proj1 (proj2 (executed_items_are_settled env0 (mkWorkItem id2 (V4 turn2)) Queued 0 m4 env0_rely ledger_db4
            queued_db4 tt after_item.1 after_item.2 _))).
  vm_compute. reflexivity.
Defined.

Lemma roomy_db4 id : id ∈ ({[id1; id2]} : gset string) -> (exists s, in_state id s db4) /\ roomy id db4.
Proof.
  intros [->%elem_of_singleton| ->%elem_of_singleton]%elem_of_union.
  - split; [by exists Running; apply running_db4|]. split; [reflexivity|].
    intros row Hr. assert (row = row4) as -> by (vm_compute in Hr; by injection Hr as <-). reflexivity.
  - split; [by exists Queued; apply queued_db4|]. split; [reflexivity|].
    intros row Hr. vm_compute in Hr. injection Hr as <-. reflexivity.
Qed.

Lemma stop_settles_all_admitted_runs_witness :
  exists n' m', interrupt_admitted env0 (0%nat, m4) = (Ok tt, (n', m')) /\ in_state id1 Interrupted (store m').
Proof.
  destruct (stop_settles_all_admitted_runs env0 0 m4 (fun _ _ => eq_refl) (fun _ => events5) ledger_db4 roomy_db4)
    as (n' & m' & Hop & _ & _ & Hin & _).
  exists n', m'. split; [exact Hop|]. apply (Hin id1 Running); [|exact running_db4].
  apply elem_of_union. left. by apply elem_of_singleton.
Defined.

Lemma queue_stays_bounded_witness : queue_bounded (cancel env0 id1 (0%nat, m4)).2.
Proof.
  apply (proj1 (proj2 (proj2 (queue_stays_bounded env0 (fun _ _ Hb => Hb))))).
  split; vm_compute; lia.
Defined.

Lemma manager_evidence_projects_witness :
  exists e, lifecycle_state e = Failed
    /\ project_run_event (mkRunEvent id1 4 "run_failed"
         (ne_payload (failure_event_at 5 "queue_full" "bounded run queue is full")) "6") (Some Failed)
       = Ok (mkRunEventRecord id1 4 "6" e).
Proof.
  refine (manager_evidence_projects 5 4 id1 "6" Failed
            (failure_event_at 5 "queue_full" "bounded run queue is full") _ _ _).
  - unfold manager_evidence. do 9 right. left.
  - lia.
  - reflexivity.
Defined.

Lemma request_digest_is_accepted_witness :
  validate_new_run (mkNewRun None "k" (hexadecimal (repeat 171 32))) = Ok tt.
Proof.
  exact (request_digest_is_accepted (mkRunRequest "k" None OneShot Abi "hello" []) _ "k" None eq_refl).
Defined.
End ManagerExample.
