(* ===== verification/ManagerTurns.v ===== *)
(** * Submitting assistant turns to the manager

    [submit_v4] composes the admission of the turn store with the work queue: an
    admitted turn is handed to the worker or ended at once. *)
From stdpp Require Import base list gmap strings relations.
From Stdlib Require Import ZArith Lia.
From S2P Require Import Prelude RustStr ArgvBudget External RunContract Digest StoreBase AssistantContent RunStore TurnContract TurnStore RunLedger TurnLedger TurnMoves TurnSteps TurnHistory TurnAdmission TurnProps TurnExample Manager ManagerProps.
Import RunStateOps.

Open Scope Z_scope.
Open Scope rust_scope.

(** What [finish_admission] leaves. *)
Definition released (id : string) (m : Mgr) : Mgr :=
  set_generation ((generation m + 1) mod (u64_max + 1))
    (set_admitted (admitted m ∖ {[id]}) (set_active (delete id (active m)) m)).

(** The queue has room and somebody to serve it. *)
Definition takes_items (m : Mgr) : bool :=
  sender m && receiver m && Nat.ltb (length (queue m)) (capacity m).

Lemma added_removed (x : string) (A : gset string) : x ∉ A -> ({[x]} ∪ A) ∖ {[x]} = A.
Proof.
  intros Hx. apply leibniz_equiv. intros y. rewrite elem_of_difference, elem_of_union, elem_of_singleton.
  split; [tauto|]. intros Hy. split; [by right|]. by intros ->.
Qed.

Section Turns.
Context {EX : External} {CC : ContentCodec} {MF : MillisFormat} {DG : Digest} {VJ : V4Json} {RD : RequestDigest}.
Context {EL : ExternalLaws} {ML : MillisFormatLaws} {CL : ContentLaws}.
Variable env : Env.
(** No other call is in progress; clocks are valid timestamps and the evidence
    is within its size limit. *)
Hypothesis quiet : forall n m, interfere env n m = m.
Hypothesis clock_ok : forall n, 0 <= now_ms (tick env n) <= MAX_SAFE_INTEGER.
Hypothesis events_valid : forall n ev, ev ∈ manager_events (clock env n) -> validate_event ev = Ok tt.
Hypothesis unadopted_valid : validate_event unadopted_event = Ok tt.

(** ** Steps without interference *)
Lemma quiet_atomic {A} (f : nat -> Mgr -> A * Mgr) n m : atomic env f (n, m) = (Ok (f n m).1, (S n, (f n m).2)).
Proof. unfold atomic. simpl. rewrite quiet. by destruct (f n m). Qed.

Lemma quiet_store {A} (op : Tick -> Tx RunDb StoreError A) n m r db :
  op (tick env n) (store m) = (r, db) -> store_call env op (n, m) = (Ok r, (S n, set_store db m)).
Proof. intros Hop. unfold store_call. by rewrite quiet_atomic, Hop. Qed.

Lemma set_store_same m : set_store (store m) m = m.
Proof. by destruct m. Qed.

Lemma quiet_fetch (id : string) row s n m :
  runs (store m) !! id = Some row -> row_valid id row s -> fetch_run env id (n, m) = (Ok (decoded id row s), (S n, m)).
Proof.
  intros Hr Hv. unfold fetch_run, tbind at 1.
  rewrite (quiet_store _ n m (Ok (Some (decoded id row s))) (store m))
    by (unfold get_run, tread; by rewrite (run_by_id_decoded id row s)).
  by rewrite set_store_same.
Qed.

Lemma quiet_finish id n m : finish_admission env id (n, m) = (Ok tt, (S (S (S n)), released id m)).
Proof. unfold finish_admission, notify, tbind. by rewrite !quiet_atomic. Qed.

(** How an ended turn looks: its run failed, the transcript shows it, and nothing
    else moved. *)
Record turn_failed (db : RunDb) (id : string) (db' : RunDb) : Prop := {
  tf_run : exists row ts, runs db !! id = Some row /\ row_valid id row Queued
    /\ runs db' = <[id := advance_row row Failed ts]> (runs db);
  tf_marked : is_Some (conv_of db id) -> marked db' id;
  tf_turns : assistant_turns db' = assistant_turns db;
  tf_store : assistant db';
}.

(** Rejecting a queued run fails it in one attempt. *)
Lemma quiet_reject (id code msg : string) row n m :
  assistant (store m) -> runs (store m) !! id = Some row -> row_valid id row Queued ->
  c_next_event_sequence row < i64_max ->
  (forall ms, failure_event_at ms code msg ∈ manager_events ms) ->
  exists rec n' db', reject_admission env id code msg (n, m) = (Ok rec, (n', released id (set_store db' m)))
    /\ turn_failed (store m) id db'.
Proof.
  intros Ha Hr Hv Hroom Hin.
  assert (transition_refusal (failure_event_at (clock env (S n)) code msg) (found_of id (store m)) id Queued Failed = None)
    as Href.
  { unfold transition_refusal. rewrite (events_valid (S n)) by apply Hin. rewrite (found_of_decoded id row Queued) by done.
    cbn. destruct (Z.leb_spec i64_max (c_next_event_sequence row - 1 + 1)); [lia|done]. }
  destruct (transition_moves id Queued Failed _ (tick env (S (S n))) (store m) Ha (clock_ok _) Href)
    as (row' & x & db' & Hop & Hr' & _ & Hruns & Htn & Ha' & Hmk).
  assert (row' = row) as -> by congruence.
  set (row2 := advance_row row Failed (now (tick env (S (S n))))).
  assert (runs db' !! id = Some row2) as Hr2 by (rewrite Hruns; apply lookup_insert_eq).
  exists (decoded id row2 Failed), (S (S (S (S (S (S (S n))))))), db'. split.
  - unfold reject_admission, retry, tbind at 1. unfold tbind at 1. rewrite (quiet_fetch id row Queued) by done.
    cbn [decoded run_status is_terminal]. rewrite bool_decide_eq_true_2 by done. cbn [negb].
    unfold tbind at 1, attempt, transition_with_failure, failure_event, now_millis. unfold tbind at 1 2.
    rewrite quiet_atomic. unfold tret at 1. cbn [fst snd]. unfold tbind at 1, transition.
    rewrite (quiet_store (fun t => transition_run id Queued Failed _ t) _ _ _ _ Hop). unfold lift_store, tbind at 1, tlift at 1. cbn [map_err].
    rewrite (quiet_fetch id row2 Failed) by (simpl; try done; by apply (row_valid_advance _ row Queued)).
    cbn [fst snd]. unfold tbind. by rewrite quiet_finish.
  - constructor; [by exists row, (now (tick env (S (S n))))| |done|done]. intros Hc. by apply Hmk.
Qed.

Lemma queued_evidence code msg ms :
  (code = "queue_full" /\ msg = "bounded run queue is full")
  \/ (code = "worker_unavailable" /\ msg = "run worker is unavailable") ->
  failure_event_at ms code msg ∈ manager_events ms.
Proof. intros [[-> ->]|[-> ->]]; unfold manager_events; rewrite !elem_of_app, !elem_of_cons; tauto. Qed.

(** Compute the fields of a concrete manager state. *)
Ltac manager_fields :=
  unfold set_sender, set_queue;
  cbn [fst snd negb store admitted active tokens shutting_down worker_failed sender clones
       receiver queue capacity generation].

(** Queuing an item takes it, or ends its run. *)
Lemma quiet_enqueue item row n m :
  assistant (store m) -> runs (store m) !! (wi_run_id item : string) = Some row ->
  row_valid (wi_run_id item) row Queued -> c_next_event_sequence row < i64_max ->
  if takes_items m
  then exists n', enqueue env item (n, m) = (Ok OEnqueued, (n', set_queue true (queue m ++ [item]) m))
  else exists r n' db', enqueue env item (n, m) = (r, (n', released (wi_run_id item) (set_store db' m)))
    /\ turn_failed (store m) (wi_run_id item) db'
    /\ if sender m && receiver m then exists rec, r = Ok (OQueueFull rec) else r = Err ShuttingDown.
Proof.
  intros Ha Hr Hv Hroom. unfold takes_items, enqueue.
  destruct m as [db ad ac tk sd wf [] cl rc qu cap gen]; cbn [sender store andb] in *.
  2:{ destruct (quiet_reject (wi_run_id item) "worker_unavailable" "run worker is unavailable" row (S n)
        (mkMgr db ad ac tk sd wf false cl rc qu cap gen)) as (rec & n' & db' & Hrej & Hf); try done.
      { intros. apply queued_evidence. by right. }
      exists (Err ShuttingDown), n', db'. split; [|by split]. unfold tbind at 1. rewrite quiet_atomic. manager_fields.
      unfold tbind. by rewrite Hrej. }
  destruct rc; cbn [receiver andb queue capacity].
  - destruct (Nat.ltb_spec (length qu) cap) as [Hlt|Hge].
    + eexists. unfold tbind at 1. rewrite quiet_atomic. manager_fields.
      unfold tbind at 1, attempt, try_send. unfold tbind at 1. rewrite quiet_atomic. manager_fields.
      rewrite (proj2 (Nat.leb_gt _ _)) by done. cbn [fst snd].
      unfold tbind at 1, tret at 1. by rewrite quiet_atomic.
    + destruct (quiet_reject (wi_run_id item) "queue_full" "bounded run queue is full" row (S (S n))
          (mkMgr db ad ac tk sd wf true (S cl) true qu cap gen)) as (rec & n' & db' & Hrej & Hf); try done.
      { intros. apply queued_evidence. by left. }
      exists (Ok (OQueueFull rec)), (S n'), db'. split; [|split; [done|by exists rec]].
      unfold tbind at 1. rewrite quiet_atomic. manager_fields.
      unfold tbind at 1, attempt, try_send. unfold tbind at 1. rewrite quiet_atomic. manager_fields.
      rewrite (proj2 (Nat.leb_le _ _)) by done. cbn [fst snd].
      unfold tbind at 1. rewrite Hrej. unfold tret at 1, tbind at 1. by rewrite quiet_atomic.
  - destruct (quiet_reject (wi_run_id item) "worker_unavailable" "run worker is unavailable" row (S (S n))
      (mkMgr db ad ac tk sd wf true (S cl) false qu cap gen)) as (rec & n' & db' & Hrej & Hf); try done.
    { intros. apply queued_evidence. by right. }
    exists (Err ShuttingDown), (S n'), db'. split; [|by split].
    unfold tbind at 1. rewrite quiet_atomic. manager_fields.
    unfold tbind at 1, attempt, try_send. unfold tbind at 1. rewrite quiet_atomic. manager_fields.
    unfold tbind at 1. rewrite Hrej. unfold traise at 1, tbind at 1. by rewrite quiet_atomic.
Qed.

(** ** Reading back a failed turn *)
Lemma failed_receipt (run cid : string) row ts tn t db :
  assistant db -> runs db !! run = Some (advance_row row Failed ts) -> row_valid run row Queued ->
  assistant_turns db !! run = Some tn -> c_conversation_id row = Some cid ->
  0 < tn_user_sequence tn <= MAX_SAFE_INTEGER ->
  v4_fail_unadopted_turn run t db
  = (Ok (mkV4TurnSubmission cid run (c_idempotency_key row) (tn_user_sequence tn) Failed false), db).
Proof.
  intros Ha Hr Hv Htn Hc Hseq. pose proof (row_valid_advance run row Queued Failed ts Hv) as Hv'.
  unfold v4_fail_unadopted_turn. rewrite (transition_run_refused run _ _ _ _ _ (UnexpectedStatus Queued Failed)); [|apply a_ledger, Ha|].
  - unfold tread, submission_for. rewrite (run_by_id_decoded run _ Failed db Hr Hv'). cbn [ok_or decoded run_id].
    unfold user_sequence. change (assistant_turns db !! (run : RunId)) with (assistant_turns db !! run). rewrite Htn.
    cbn [fmap option_fmap option_map ok_or]. cbn. rewrite Hc. cbn.
    unfold V4TurnSubmission_validate, ensure. cbn. destruct (Z.ltb_spec (tn_user_sequence tn) 0); [lia|].
    by rewrite (proj2 (Z.ltb_lt _ _)), (proj2 (Z.leb_le _ _)) by lia.
  - unfold transition_refusal. rewrite unadopted_valid, (found_of_decoded run _ Failed db Hr Hv'). done.
Qed.

(** ** Submission *)
Lemma refused_admission s run msg now db e db' :
  v4_admit_turn s run msg now db = (Err e, db') -> db' = db.
Proof.
  unfold v4_admit_turn. intros [Hop|([] & db0 & Hv & Hop)]%tbind_err; [by injection Hop|].
  injection Hv as _ <-. by apply transaction_err in Hop as [-> _].
Qed.

Lemma duplicate_flag existing s db sub : duplicate_submission existing s db = Ok sub -> ts_duplicate sub = true.
Proof.
  unfold duplicate_submission. destruct (_ || _); [discriminate|]. destruct (user_sequence _ _); [|discriminate].
  destruct (map_err _ _); [|discriminate]. by intros [= <-].
Qed.

(** What [submit_v4] does, by the answer of the store's admission. *)
Definition adoption (request : V4SubmitTurn) (run : string) (m : Mgr)
    (answer : result StoreError V4TurnSubmission * RunDb) (res : result ManagerError V4TurnSubmission * St) : Prop :=
  let '(r, (_, m')) := res in
  match answer with
  | (Err e, _) => r = Err (Store e) /\ m' = m
  | (Ok sub, db) =>
      if ts_duplicate sub then r = Ok sub /\ m' = m
      else if takes_items m then
        r = Ok sub /\ sub = mkV4TurnSubmission (st_conversation_id request) run (st_idempotency_key request)
                               (ts_user_message_sequence sub) Queued false
        /\ store m' = db /\ queue m' = queue m ++ [mkWorkItem run (V4 request)] /\ admitted m' = {[run]} ∪ admitted m
      else
        r = (if sender m && receiver m
             then Ok (mkV4TurnSubmission (st_conversation_id request) run (st_idempotency_key request)
                        (ts_user_message_sequence sub) Failed false)
             else Err ShuttingDown)
        /\ queue m' = queue m /\ admitted m' = admitted m
        /\ status_of (store m') run = Some "failed" /\ marked (store m') run
        /\ (forall id, id <> run -> runs (store m') !! id = runs (store m) !! id)
  end.

(** Its early returns, and the admission. *)
Definition submission (request : V4SubmitTurn) (run : string) (m : Mgr)
    (answer : result StoreError V4TurnSubmission * RunDb) (res : result ManagerError V4TurnSubmission * St) : Prop :=
  if shutting_down m then res.1 = Err ShuttingDown /\ res.2.2 = m
  else match V4SubmitTurn_validate request with
       | Err e => res.1 = Err (InvalidRequest (ve_message e)) /\ res.2.2 = m
       | Ok _ => adoption request run m answer res
       end.

Lemma adoption_new request (run msg : string) now n m db sub :
  turn_admitted request run msg now (store m) db -> assistant db -> run ∉ admitted m ->
  sub = mkV4TurnSubmission (st_conversation_id request) run (st_idempotency_key request)
          (next_message_sequence (st_conversation_id request) (store m)) Queued false ->
  let rest :=
    (outcome <- enqueue env (mkWorkItem run (V4 request)) ;
     match outcome with
     | OEnqueued => tret sub
     | OQueueFull _ => receipt <- store_call env (fun t => v4_fail_unadopted_turn run t) ; lift_store receipt
     end) in
  let res := rest (n, set_admitted ({[run]} ∪ admitted m) (set_store db m)) in
  adoption request run m (Ok sub, db) res.
Proof.
  intros Hadm Ha Hnew Hsub rest res. set (m1 := set_admitted _ _) in *.
  destruct (ta_runs _ _ _ _ _ _ Hadm) as (ts & Hruns). set (row := admitted_row (turn_run request) ts) in *.
  assert (runs (store m1) !! run = Some row) as Hr by (simpl; rewrite Hruns; apply lookup_insert_eq).
  destruct (ta_turn _ _ _ _ _ _ Hadm) as (tn & Hconv & Htok & Hseq & _ & _ & _ & Hturns).
  assert (assistant_turns db !! run = Some tn) as Htn by (rewrite Hturns; apply lookup_insert_eq).
  assert (row_valid run row Queued) as Hv.
  { destruct (l_row _ (a_ledger _ Ha) run row Hr) as [[s Hs] _].
    assert (s = Queued) as -> by (pose proof (rv_status _ _ _ Hs) as He; by destruct s). done. }
  pose proof (quiet_enqueue (mkWorkItem run (V4 request)) row n m1 Ha Hr Hv ltac:(done)) as Henq.
  change (takes_items m1) with (takes_items m) in Henq. unfold adoption.
  assert (ts_duplicate sub = false) as -> by by subst sub.
  destruct (takes_items m).
  - destruct Henq as (n' & Henq).
    assert (res = (Ok sub, (n', set_queue true (queue m1 ++ [mkWorkItem run (V4 request)]) m1))) as ->
      by (unfold res, rest, tbind; by rewrite Henq).
    cbn [fst snd]. split; [done|]. split; [by subst sub|]. done.
  - destruct Henq as (r & n' & db' & Henq & [(row' & ts' & Hr' & _ & Hfail) Hmk Htu Ha'] & Hres).
    cbn [wi_run_id] in *. assert (row' = row) as -> by congruence.
    assert (runs db' !! run = Some (advance_row row Failed ts')) as Hrf by (rewrite Hfail; apply lookup_insert_eq).
    set (m2 := released run (set_store db' m1)).
    assert (queue m2 = queue m /\ admitted m2 = admitted m /\ status_of (store m2) run = Some "failed"
            /\ marked (store m2) run /\ forall id, id <> run -> runs (store m2) !! id = runs (store m) !! id) as Hend.
    { split; [done|]. split; [by apply added_removed|]. split; [unfold status_of; simpl; by rewrite Hrf|]. split.
      - apply Hmk. exists (tn_conversation_id tn). unfold conv_of.
        change (assistant_turns (store m1)) with (assistant_turns db). by rewrite Htn.
      - intros id Hne. trans (runs db !! id); [simpl; rewrite Hfail|rewrite Hruns]; by apply lookup_insert_ne. }
    change (sender m1) with (sender m) in Hres. change (receiver m1) with (receiver m) in Hres.
    assert (exists n'', res = (if sender m && receiver m
      then Ok (mkV4TurnSubmission (st_conversation_id request) run (st_idempotency_key request)
                 (ts_user_message_sequence sub) Failed false) else Err ShuttingDown, (n'', m2))) as [n'' ->].
    { unfold res, rest, tbind. rewrite Henq. fold m2. destruct (sender m && receiver m); [|subst r; by exists n'].
      destruct Hres as [rec ->]. exists (S n').
      assert (0 < tn_user_sequence tn <= MAX_SAFE_INTEGER) as Hrange by (unfold turn_ok, turn_check in Htok; bools; lia).
      pose proof (fun t => failed_receipt run (st_conversation_id request) row ts' tn t db' Ha' Hrf Hv
                             ltac:(rewrite Htu; exact Htn) eq_refl Hrange) as Hreceipt.
      rewrite (quiet_store (fun t => v4_fail_unadopted_turn run t) n' m2 _ _ (Hreceipt _)).
      unfold lift_store, tlift. cbn [map_err]. rewrite Hseq. by subst sub. }
    by split.
Qed.

(** C17: when no other call is in progress, [submit_v4] leaves no turn behind.  A
    stopping manager and a malformed request change nothing; so do a refusal of
    the store, whose error is returned, and a duplicate, whose receipt is
    returned.  A newly admitted turn is queued for the worker when the queue has
    room and a worker; otherwise its run has failed and its transcript is closed
    before the call returns, with the failed receipt when the queue was full and
    [ShuttingDown] when there is no worker, and no other run has moved. *)
Theorem submitted_turns_are_adopted_or_ended (request : V4SubmitTurn) (n : nat) (m : Mgr)
    (Ha : assistant (store m))
    (Hty : typed (OpV4Admit request (fresh_id env (S (S n))) (fresh_message env (S (S n)))))
    (Hnew : (fresh_id env (S (S n)) : string) ∉ admitted m) :
  let run := fresh_id env (S (S n)) in
  let msg := fresh_message env (S (S n)) in
  submission request run m (v4_admit_turn request run msg (clock env (S n)) (store m)) (submit_v4 env request (n, m)).
Proof.
  intros run msg. unfold submit_v4, load_shutting_down, now_millis, admit_v4.
  unfold tbind at 1. rewrite quiet_atomic. cbn [fst snd]. destruct (shutting_down m) eqn:Hstop; [unfold submission; by rewrite Hstop|].
  unfold tbind at 1, tlift at 1. destruct (V4SubmitTurn_validate request) as [[]|e] eqn:Hval; cbn [map_err];
    [|unfold submission; by rewrite Hstop, Hval].
  assert (forall answer res, adoption request run m answer res -> submission request run m answer res) as Hsub0
    by (intros answer res; unfold submission; by rewrite Hstop, Hval). apply Hsub0. clear Hsub0.
  unfold tbind at 1. rewrite quiet_atomic. cbn [fst snd]. unfold tbind at 1. cbn [fst]. fold run msg.
  destruct (v4_admit_turn request run msg (clock env (S n)) (store m)) as [r db] eqn:Hadm.
  rewrite (quiet_store (fun _ => v4_admit_turn request run msg (clock env (S n))) _ _ _ _ Hadm).
  unfold tbind at 1, lift_store at 1, tlift at 1. destruct r as [sub|e]; cbn [map_err].
  2:{ apply refused_admission in Hadm as ->. by rewrite set_store_same. }
  pose proof Hadm as [_ [(-> & id & row & ex & _ & _ & Hdup)|(_ & _ & _ & _ & Hins)]]%v4_admit_turn_ok.
  { apply duplicate_flag in Hdup as Hd. unfold adoption. rewrite Hd. cbn [orb]. by rewrite set_store_same. }
  assert (assistant db) as Ha'.
  { apply (steps_assistant (store m)); [|done]. apply rtc_once.
    apply (store_step_exec (OpV4Admit request run msg) (mkTick EmptyString (clock env (S n))) (store m) (Ok tt)); [done|].
    simpl. by rewrite Hadm. }
  apply insert_turn_ok in Hins as [Hturn Hsub].
  pose proof (adoption_new request run msg (clock env (S n)) (S (S (S (S n)))) m db sub Hturn Ha' Hnew Hsub) as Hgoal.
  assert (ts_duplicate sub = false /\ ts_state sub = Queued /\ ts_run_id sub = run) as (-> & -> & ->) by by subst sub.
  rewrite (bool_decide_eq_true_2 (Queued = Queued)) by done. cbn [orb negb]. unfold tbind at 1. rewrite quiet_atomic.
  cbn [fst snd admitted set_store]. rewrite bool_decide_eq_false_2 by done. exact Hgoal.
Qed.
End Turns.

(** ** Instances *)
Module SubmitExample.
Import Fixture ContentFixture DigestFixture JsonFixture LedgerExample ManagerExample.

(** Two conversations; nobody else is active. *)
Definition dbc : RunDb := play (take 2 opening) empty_run_db.
Definition env2 : Env :=
  mkEnv (fun _ m => m) (fun _ => at_ms 13) (fun _ => 12) (fun _ => id1) (fun _ => "m1") (fun _ _ _ => Returned (Ok tt))
    (fun _ => true) (fun _ => false).
Definition idle : Mgr := start dbc default_config.
Definition busy : Mgr := set_queue true (repeat (mkWorkItem id2 (V4 turn2)) 8) idle.

Lemma dbc_assistant : assistant dbc.
Proof.
  eapply steps_assistant; [|apply assistant_empty]. apply play_steps.
  apply Forall_take, opening_typed.
Qed.
Lemma events12 : forall ev, ev ∈ manager_events 12 -> validate_event ev = Ok tt.
Proof.
  apply (proj1 (Forall_forall _ _)). unfold manager_events. simpl.
  repeat (apply Forall_cons; split; [vm_compute; reflexivity|]). by apply Forall_nil.
Qed.

Lemma submit1_typed : typed (OpV4Admit submit1 id1 "m1").
Proof. apply (proj1 (Forall_forall _ _) opening_typed (OpV4Admit submit1 id1 "m1", at_ms 12)). set_solver. Qed.

(** The turn goes to an idle worker; a full queue ends it. *)
Lemma submitted_turns_are_adopted_or_ended_witness :
  (exists st, submit_v4 env2 submit1 (0%nat, idle)
     = (Ok (mkV4TurnSubmission conv1 id1 "request-1" 1 Queued false), st)
     /\ queue st.2 = [mkWorkItem id1 (V4 submit1)])
  /\ (exists st, submit_v4 env2 submit1 (0%nat, busy)
     = (Ok (mkV4TurnSubmission conv1 id1 "request-1" 1 Failed false), st)
     /\ queue st.2 = queue busy /\ status_of (store st.2) id1 = Some "failed").
Proof.
  pose proof (fun m Ha Hnew => submitted_turns_are_adopted_or_ended env2 (fun _ _ => eq_refl)
    (fun _ => conj (Zle_bool_imp_le 0 13 eq_refl) (Zle_bool_imp_le 13 MAX_SAFE_INTEGER eq_refl)) (fun _ => events12) eq_refl
    submit1 0 m Ha submit1_typed Hnew) as Hsub.
  assert (exists db, v4_admit_turn submit1 id1 "m1" 12 dbc = (Ok (mkV4TurnSubmission conv1 id1 "request-1" 1 Queued false), db))
    as [db Hdb].
  { destruct (v4_admit_turn submit1 id1 "m1" 12 dbc) as [r db] eqn:Hop. exists db. f_equal.
    change r with (r, db).1. rewrite <- Hop. vm_compute. reflexivity. }
  split.
  - specialize (Hsub idle dbc_assistant ltac:(vm_compute; intros Hin; inversion Hin)).
    change (store idle) with dbc in Hsub. change (clock env2 1) with 12 in Hsub. cbv zeta in Hsub.
    change (fresh_id env2 2) with id1 in Hsub. change (fresh_message env2 2) with "m1" in Hsub. rewrite Hdb in Hsub.
    destruct (submit_v4 env2 submit1 (0%nat, idle)) as [r [k m']]. cbn in Hsub. exists (k, m'). cbn.
    destruct Hsub as (-> & _ & _ & -> & _). split; reflexivity.
  - specialize (Hsub busy dbc_assistant ltac:(vm_compute; intros Hin; inversion Hin)).
    change (store busy) with dbc in Hsub. change (clock env2 1) with 12 in Hsub. cbv zeta in Hsub.
    change (fresh_id env2 2) with id1 in Hsub. change (fresh_message env2 2) with "m1" in Hsub. rewrite Hdb in Hsub.
    destruct (submit_v4 env2 submit1 (0%nat, busy)) as [r [k m']]. cbn in Hsub. exists (k, m'). cbn.
    destruct Hsub as (-> & -> & _ & Hst & _). split; [reflexivity|]. split; [reflexivity|exact Hst].
Defined.
End SubmitExample.
