(* ===== verification/Provider.v ===== *)
(** * The route executor (src/src/runtime/provider.rs with provider/content_sink.rs
    and provider/conversation.rs)

    Startup-bound routes, the sinks that check a provider's event stream, and the
    execution of a run or an assistant turn on a route.  The providers, budgets
    and events of the agent runtime crate are parameters: a provider is what it
    emits and how it ends. *)
From stdpp Require Import base list gmap strings.
From Stdlib Require Import ZArith Lia.
From S2P Require Import Prelude RustStr ArgvBudget External Digest RunContract StoreBase AssistantContent RunStore TurnContract TurnStore Preview TurnContext Manager.
Import RunStateOps.

Open Scope Z_scope.
Open Scope rust_scope.

Module Provider.
Definition MAX_MODEL_ID_BYTES : Z := 256.
Definition MAX_PROVIDER_ID_BYTES : Z := 128.

Inductive ProviderConfigError :=
| EmptyRoutes | DuplicateBackend | InvalidModel | InvalidProvider | UnboundedBudget.

(** ** What the agent runtime crate provides *)

(** The events of a stream as far as the sinks tell them apart. *)
Inductive ModelEvent :=
| EvStarted (model : string)
| EvTextDelta (text : string)
| EvFinished
| EvToolCall
| EvToolResult
| EvOther.

Inductive BudgetLimit := LimitDuration | LimitEvents | LimitOutputTokens.
Inductive StopReason :=
| StopCancelled
| BudgetExhausted (limit : BudgetLimit)
| StopFailed
| StopCompleted.

Record RunBudget := mkRunBudget {
  max_events : option Z;
  max_output_tokens : option Z;
  max_duration : option Z;
}.

(** One call of [run_provider]: what it emitted, its report (stop reason and
    whether the capture was truncated) unless it failed, and whether the token
    was cancelled when it returned. *)
Record ProviderRun := mkProviderRun {
  pv_events : list ModelEvent;
  pv_report : option (StopReason * bool);
  pv_cancelled : bool;
}.

Class ModelRuntime := {
  ModelProvider : Type;
  provider_id : ModelProvider -> string;
  run_provider : ModelProvider -> string -> string -> RunBudget -> ProviderRun;
}.

(** ** Errors *)
Definition unsupported : ExecutionError := ExecutionError_with_kind Unsupported "provider route is unsupported".
Definition provider_failed : ExecutionError := ExecutionError_with_kind ProviderExit "provider execution failed".
Definition budget_error (limit : BudgetLimit) : ExecutionError :=
  ExecutionError_with_kind
    (match limit with LimitDuration => TimedOut | LimitEvents | LimitOutputTokens => OutputLimit end)
    "provider execution exhausted its budget".

(** ** Routes *)
Definition is_graphic (b : Z) : bool := (33 <=? b) && (b <=? 126).
Definition valid_identifier (value : string) (maximum : Z) : bool :=
  negb (is_empty value) && (slen value <=? maximum) && forallb is_graphic (bytes value).

Definition is_positive (v : option Z) : bool := match v with Some n => 0 <? n | None => false end.
Definition finite_budget (budget : RunBudget) : bool :=
  is_positive (max_events budget) && is_positive (max_output_tokens budget) && is_positive (max_duration budget).

Definition v4_route_id (backend : BackendSelection) (model : string) : string :=
  (match backend with
   | Abi => "abi"
   | FoundationModels => "fm"
   | Cursor => "cursor"
   | Grok => "grok"
   end) +:+ "." +:+ model.

(** ** The sinks *)
Record Sink := mkSink { sk_started : bool; sk_terminal : bool; sk_invalid : bool }.
Definition sink_new : Sink := mkSink false false false.
Definition sink_open (s : Sink) : bool := sk_started s && negb (sk_terminal s).
Definition sink_reject (s : Sink) : Sink := mkSink (sk_started s) (sk_terminal s) true.

Definition sink_validate (s : Sink) : result ExecutionError unit :=
  if sk_started s && sk_terminal s && negb (sk_invalid s) then Ok tt else Err unsupported.

(** [ProviderBoundarySink::emit] *)
Definition boundary_emit (expected_model : string) (s : Sink) (event : ModelEvent) : Sink :=
  match event with
  | EvStarted model =>
      if negb (sk_started s) && negb (sk_terminal s) && bool_decide (model = expected_model)
      then mkSink true (sk_terminal s) (sk_invalid s) else sink_reject s
  | EvTextDelta _ => if sink_open s then s else sink_reject s
  | EvFinished => if sink_open s then mkSink (sk_started s) true (sk_invalid s) else sink_reject s
  | EvToolCall | EvToolResult | EvOther => sink_reject s
  end.

(** ** Calls into the store

    Between two calls other threads may change the store; each call has its own
    clock reading and its own fresh message identifier. *)
Record World := mkWorld {
  others : nat -> RunDb -> RunDb;
  now_ms_at : nat -> Z;
  message_id : nat -> string;
}.

Section Executor.
Context `{External} `{ContentCodec} `{Digest} `{V4Json} `{ModelRuntime}.

Record ProviderRoute := mkProviderRoute {
  rt_backend : BackendSelection;
  rt_model : string;
  rt_provider : ModelProvider;
  rt_budget : RunBudget;
}.

Definition ProviderRoute_new (backend : BackendSelection) (model : string) (provider : ModelProvider)
    (budget : RunBudget) : result ProviderConfigError ProviderRoute :=
  fail? negb (valid_identifier model MAX_MODEL_ID_BYTES) with InvalidModel in
  fail? negb (valid_identifier (provider_id provider) MAX_PROVIDER_ID_BYTES) with InvalidProvider in
  fail? negb (finite_budget budget) with UnboundedBudget in
  Ok (mkProviderRoute backend model provider budget).

(** [BTreeMap<BackendSelection, ProviderRoute>]: the values in key order. *)
Definition Routes : Type := list ProviderRoute.

(** [insert]: the table and whether the key was present. *)
Fixpoint routes_insert (route : ProviderRoute) (table : Routes) : Routes * bool :=
  match table with
  | [] => ([route], false)
  | r :: rest =>
      if backend_rank (rt_backend route) <? backend_rank (rt_backend r) then (route :: table, false)
      else if backend_rank (rt_backend route) =? backend_rank (rt_backend r) then (route :: rest, true)
      else let '(rest', present) := routes_insert route rest in (r :: rest', present)
  end.
Definition routes_get (backend : BackendSelection) (table : Routes) : option ProviderRoute :=
  List.find (fun r => backend_rank (rt_backend r) =? backend_rank backend) table.

Definition deny_all : Routes := [].

Fixpoint insert_routes (routes : list ProviderRoute) (table : Routes) : result ProviderConfigError Routes :=
  match routes with
  | [] => Ok table
  | route :: rest =>
      let '(table', present) := routes_insert route table in
      fail? present with DuplicateBackend in
      insert_routes rest table'
  end.
Definition ModelProviderExecutor_new (routes : list ProviderRoute) : result ProviderConfigError Routes :=
  let? table := insert_routes routes [] in
  fail? bool_decide (length table = 0%nat) with EmptyRoutes in
  Ok table.

Definition route_for_v4 (table : Routes) (route_id : string) : option ProviderRoute :=
  List.find (fun r => bool_decide (v4_route_id (rt_backend r) (rt_model r) = route_id)) table.

(** The common end of [execute] and [execute_v4]. *)
Definition conclude (run : ProviderRun) (validated : result ExecutionError unit) : result ExecutionError unit :=
  match pv_report run with
  | None => Err provider_failed
  | Some (stop, truncated) =>
      match stop with
      | StopCancelled => if pv_cancelled run then Ok tt else Err provider_failed
      | BudgetExhausted limit => Err (budget_error limit)
      | StopFailed => Err provider_failed
      | StopCompleted =>
          fail? truncated with ExecutionError_with_kind OutputLimit "provider exceeded bounded capture" in
          validated
      end
  end.

Definition execute (table : Routes) (request : RunRequest) : result ExecutionError unit :=
  let? _ := map_err (fun _ => unsupported) (RunRequest_validate request) in
  fail? match rq_mode request with Interactive | Automation => true | _ => false end with unsupported in
  let? route := ok_or (routes_get (rq_backend request) table) unsupported in
  let run := run_provider (rt_provider route) (rt_model route) (rq_input request) (rt_budget route) in
  conclude run (sink_validate (foldl (boundary_emit (rt_model route)) sink_new (pv_events run))).

Variable world : World.

(** The number of store calls so far and the store. *)
Definition Ex : Type := (nat * RunDb)%type.

Definition call_store {E A} (op : Z -> string -> Tx RunDb StoreError A) : Tx Ex E (result StoreError A) :=
  fun x => let '(n, db) := x in
    let '(r, db') := op (now_ms_at world n) (message_id world n) (others world n db) in (Ok r, (S n, db')).

Definition append_payload {E} (run : RunId) (payload : V4ContentPayload) : Tx Ex E (result StoreError V4ContentEvent) :=
  call_store (fun now msg => v4_append_content run payload msg now).

(** [while !remaining.is_empty()]; the result says whether a write failed. *)
Fixpoint write_text {E} (fuel : nat) (run : RunId) (remaining : string) : Tx Ex E bool :=
  match fuel with
  | O => tret false
  | S fuel' =>
      if is_empty remaining then tret false
      else
        let end_ := floor_char_boundary remaining (Z.to_nat (Z.min (slen remaining) MAX_V4_DELTA_BYTES)) in
        written <- append_payload run (TextDelta (str_take end_ remaining)) ;
        match written with
        | Err _ => tret true
        | Ok _ => write_text fuel' run (str_drop end_ remaining)
        end
  end.

(** [V4ContentSink::emit] *)
Definition content_emit {E} (run : RunId) (expected_model : string) (s : Sink) (event : ModelEvent) : Tx Ex E Sink :=
  match event with
  | EvStarted model =>
      tret (if negb (sk_started s) && negb (sk_terminal s) && bool_decide (model = expected_model)
            then mkSink true (sk_terminal s) (sk_invalid s) else sink_reject s)
  | EvTextDelta text =>
      if sink_open s then
        if is_empty text then tret s
        else failed <- write_text (String.length text) run text ;
             tret (if failed then sink_reject s else s)
      else tret (sink_reject s)
  | EvFinished => tret (if sink_open s then mkSink (sk_started s) true (sk_invalid s) else sink_reject s)
  | EvToolCall | EvToolResult | EvOther => tret (sink_reject s)
  end.

Fixpoint emit_all {E} (run : RunId) (expected_model : string) (s : Sink) (events : list ModelEvent) : Tx Ex E Sink :=
  match events with
  | [] => tret s
  | e :: rest => s' <- content_emit run expected_model s e ; emit_all run expected_model s' rest
  end.

(** ** The prompt of a turn *)
Definition conversation_context_prefix (history : string) : string :=
  "Previous conversation (context, oldest first, may be truncated):" +:+ newline +:+ history +:+ newline
  +:+ "--- end of context; answer the next message ---".

Definition history_text (pairs : list V4ContextPair) : string :=
  foldl (fun acc p => acc +:+ "User:" +:+ newline +:+ cx_user p +:+ newline +:+ "Assistant:" +:+ newline
                      +:+ cx_assistant p +:+ newline) EmptyString pairs.

Definition context_budget (request : V4SubmitTurn) : Z :=
  Z.min (usize_saturating_sub (usize_saturating_sub MAX_V4_INPUT_BYTES (slen (st_input request))) 2048) (24 * 1024).

Definition prompt_for_turn (run : RunId) (request : V4SubmitTurn) : Tx Ex ExecutionError string :=
  found <- call_store (fun _ _ => v4_turn_context run request (context_budget request)) ;
  context <- tlift (map_err (fun _ => unsupported) found) ;
  (if tc_truncated context
   then noted <- append_payload run (Notice Truncated) ;
        tlift (map_err (fun _ => provider_failed) noted) ;; tret tt
   else tret tt) ;;
  match tc_pairs context with
  | [] => tret (st_input request)
  | pairs =>
      let prompt := conversation_context_prefix (history_text pairs) +:+ newline +:+ st_input request in
      if MAX_V4_INPUT_BYTES <? slen prompt then traise unsupported else tret prompt
  end.

Definition execute_v4 (table : Routes) (run : RunId) (request : V4SubmitTurn) : Tx Ex ExecutionError unit :=
  tlift (map_err (fun _ => unsupported) (V4SubmitTurn_validate request)) ;;
  route <- tlift (ok_or (route_for_v4 table (st_route_id request)) unsupported) ;
  prompt <- prompt_for_turn run request ;
  let stream := run_provider (rt_provider route) (rt_model route) prompt (rt_budget route) in
  sink <- emit_all run (rt_model route) sink_new (pv_events stream) ;
  tlift (conclude stream (sink_validate sink)).
End Executor.
End Provider.
