(* ===== verification/ProviderProps.v ===== *)
(** * What the route executor guarantees

    Routes are found by the identity they were bound with, the prompt of a turn
    always fits, and the stored reply is what the provider said. *)
From stdpp Require Import base list gmap strings sorting relations.
From Stdlib Require Import ZArith Lia.
From S2P Require Import Prelude RustStr ArgvBudget External Digest Tables RunContract StoreBase AssistantContent RunStore TurnContract TurnStore TurnContext Preview RunLedger TurnLedger TurnMoves TurnSteps TurnHistory TurnAdmission TurnReferences TurnRead ContextProps Manager Provider.
Import RunStateOps.
Import Provider.

Open Scope Z_scope.
Open Scope rust_scope.

(** ** Streams the sinks accept *)
Definition event_text (e : ModelEvent) : string := match e with EvTextDelta t => t | _ => EmptyString end.

Lemma boundary_invalid m e s : sk_invalid (boundary_emit m s e) = false -> sk_invalid s = false.
Proof.
  destruct e; simpl; try discriminate;
    repeat (match goal with |- context [if ?b then _ else _] => destruct b end); simpl; (done || discriminate).
Qed.

Lemma boundary_fold_invalid m es s : sk_invalid (foldl (boundary_emit m) s es) = false -> sk_invalid s = false.
Proof. revert s. induction es as [|e es IH]; intros s; [done|]. simpl. intros H%IH. by eapply boundary_invalid. Qed.

(** After the end nothing more is accepted. *)
Lemma boundary_after_end m es : forall s, sk_terminal s = true ->
  sk_invalid (foldl (boundary_emit m) s es) = false -> es = [].
Proof.
  induction es as [|e es IH]; intros s Ht; [done|]. simpl. intros Hi%boundary_fold_invalid. exfalso.
  unfold boundary_emit, sink_open in Hi. rewrite Ht in Hi. rewrite !andb_false_r in Hi. destruct e; simpl in Hi; try discriminate.
Qed.

Lemma boundary_started m es : forall s, sk_started s = true -> sk_terminal s = false ->
  sk_terminal (foldl (boundary_emit m) s es) = true -> sk_invalid (foldl (boundary_emit m) s es) = false ->
  exists texts, es = map EvTextDelta texts ++ [EvFinished].
Proof.
  induction es as [|e es IH]; intros s Hst Ht; simpl; [congruence|]. intros Hfin Hinv.
  pose proof (boundary_fold_invalid _ _ _ Hinv) as He.
  destruct e as [mo|t| | | |]; try discriminate; unfold boundary_emit, sink_open in *; rewrite Hst, Ht in *; simpl in *.
  - discriminate.
  - destruct (IH s Hst Ht Hfin Hinv) as (ts & ->). by exists (t :: ts).
  - exists []. apply boundary_after_end in Hinv as ->; done.
Qed.

Lemma accepted_stream m es :
  sink_validate (foldl (boundary_emit m) sink_new es) = Ok tt <->
  exists texts, es = EvStarted m :: map EvTextDelta texts ++ [EvFinished].
Proof.
  unfold sink_validate. split.
  - destruct (_ && _) eqn:Hb; [|discriminate]. intros _. apply andb_true_iff in Hb as [[Hst Ht]%andb_true_iff Hi]. bools.
    destruct es as [|e es]; [discriminate|]. simpl in Hst, Ht, Hi. pose proof (boundary_fold_invalid _ _ _ Hi) as He.
    destruct e as [mo|t| | | |]; try discriminate. simpl in *. case_bool_decide as Hm; [|discriminate]. subst mo.
    destruct (boundary_started m es (mkSink true false false) eq_refl eq_refl Ht Hi) as (ts & ->). by exists ts.
  - intros (ts & ->). simpl. rewrite bool_decide_eq_true_2 by done. rewrite foldl_app.
    assert (foldl (boundary_emit m) (mkSink true false false) (map EvTextDelta ts) = mkSink true false false) as ->; [|done].
    induction ts as [|t ts IH]; [done|]. exact IH.
Qed.

Lemma stream_text m ts :
  concat_text (map event_text (EvStarted m :: map EvTextDelta ts ++ [EvFinished])) = concat_text ts.
Proof.
  change (concat_text (map event_text (map EvTextDelta ts ++ [EvFinished])) = concat_text ts).
  induction ts as [|t ts IH]; [done|]. change (t +:+ concat_text (map event_text (map EvTextDelta ts ++ [EvFinished]))
    = t +:+ concat_text ts). by rewrite IH.
Qed.

(** ** Routes *)
Section Routes.
Context {MR : ModelRuntime}.

Definition rank_of (r : ProviderRoute) : Z := backend_rank (rt_backend r).
Definition by_rank (table : Routes) : Prop := StronglySorted (fun a b => rank_of a < rank_of b) table.

Lemma routes_insert_ok r table : by_rank table ->
  by_rank (routes_insert r table).1
  /\ ((routes_insert r table).2 = true <-> exists q, q ∈ table /\ rank_of q = rank_of r)
  /\ ((routes_insert r table).2 = false -> (routes_insert r table).1 ≡ₚ r :: table)
  /\ (forall q, q ∈ (routes_insert r table).1 -> q = r \/ q ∈ table).
Proof.
  induction 1 as [|a l Hs IH Ha]; simpl.
  - split; [by repeat constructor|]. split; [|split; [done|intros q Hq%list_elem_of_singleton; by left]].
    split; [discriminate|]. intros (q & Hq & _). by apply elem_of_nil in Hq.
  - fold (rank_of r) (rank_of a). destruct (Z.ltb_spec (rank_of r) (rank_of a)) as [Hlt|Hge].
    + simpl. split; [|split; [|split; [done|]]].
      * constructor; [by constructor|]. constructor; [done|]. eapply Forall_impl; [exact Ha|]. simpl. lia.
      * split; [discriminate|]. intros (q & [->|Hq]%elem_of_cons & Heq); [lia|].
        apply (proj1 (Forall_forall _ _) Ha) in Hq. simpl in Hq. lia.
      * intros q [->|Hq]%elem_of_cons; auto.
    + destruct (Z.eqb_spec (rank_of r) (rank_of a)) as [Heq|Hne].
      * simpl. split; [|split; [|split; [discriminate|]]].
        -- constructor; [done|]. eapply Forall_impl; [exact Ha|]. simpl. lia.
        -- split; [|done]. intros _. exists a. split; [by left|done].
        -- intros q [->|Hq]%elem_of_cons; [by left|right; by right].
      * destruct (routes_insert r l) as [l' b]. simpl in *. destruct IH as (I1 & I2 & I3 & I4).
        split; [|split; [|split]].
        -- constructor; [done|]. apply Forall_forall. intros q [->|Hq]%I4; [lia|].
           by apply (proj1 (Forall_forall _ _) Ha).
        -- rewrite I2. split; [intros (q & Hq & Heq); exists q; split; [by right|done]|].
           intros (q & [->|Hq]%elem_of_cons & Heq); [congruence|]. eauto.
        -- intros Hb. rewrite (I3 Hb). apply perm_swap.
        -- intros q [->|[->|Hq]%I4]%elem_of_cons; [right; by left|by left|right; by right].
Qed.

Lemma insert_routes_ok routes : forall table, by_rank table ->
  match insert_routes routes table with
  | Ok t => by_rank t /\ t ≡ₚ routes ++ table
  | Err e => e = DuplicateBackend /\ ~ NoDup (map rank_of (routes ++ table))
  end.
Proof.
  induction routes as [|r rest IH]; intros table Hs; simpl; [done|].
  destruct (routes_insert_ok r table Hs) as (H1 & H2 & H3 & _). destruct (routes_insert r table) as [table' []]; simpl in *.
  - split; [done|]. destruct (proj1 H2 eq_refl) as (q & Hq & Heq). intros [Hn _]%NoDup_cons. apply Hn.
    apply list_elem_of_fmap. exists q. split; [done|]. apply elem_of_app. by right.
  - specialize (IH table' H1). specialize (H3 eq_refl). destruct (insert_routes rest table') as [t|e].
    + destruct IH as [? Hp]. split; [done|]. rewrite Hp, H3. by rewrite Permutation_middle.
    + destruct IH as [-> Hn]. split; [done|]. intros Hnd. apply Hn.
      assert (map rank_of (rest ++ table') ≡ₚ rank_of r :: map rank_of (rest ++ table)) as ->; [|done].
      rewrite H3. by rewrite <- Permutation_middle.
Qed.

Lemma backend_rank_inj a b : backend_rank a = backend_rank b -> a = b.
Proof. by destruct a, b. Qed.

Lemma route_id_backend b1 m1 b2 m2 : v4_route_id b1 m1 = v4_route_id b2 m2 -> b1 = b2.
Proof. by destruct b1, b2. Qed.

Lemma by_rank_unique table a b : by_rank table -> a ∈ table -> b ∈ table -> rt_backend a = rt_backend b -> a = b.
Proof.
  induction 1 as [|x l _ IH Hx]; [by intros ?%elem_of_nil|].
  intros [->|Ha]%elem_of_cons [->|Hb]%elem_of_cons Heq; [done| | |by apply IH].
  - apply (proj1 (Forall_forall _ _) Hx) in Hb. unfold rank_of in Hb. rewrite Heq in Hb. lia.
  - apply (proj1 (Forall_forall _ _) Hx) in Ha. unfold rank_of in Ha. rewrite Heq in Ha. lia.
Qed.

(** A search that only one element satisfies finds it. *)
Lemma find_unique {A} (f : A -> bool) (l : list A) x :
  x ∈ l -> f x = true -> (forall y, y ∈ l -> f y = true -> y = x) -> List.find f l = Some x.
Proof.
  induction l as [|a l IH]; [by intros ?%elem_of_nil|]. intros Hx Hf Hu. simpl. destruct (f a) eqn:Ha.
  - f_equal. apply Hu; [by left|done].
  - apply IH; [|done|intros y Hy; apply Hu; by right]. apply elem_of_cons in Hx as [->|?]; [congruence|done].
Qed.

(** The table of routes is exactly the routes given, one per backend, in
    backend order; each is found by its backend and by its own protocol-v4
    identity, and an identity never finds another route.  Construction fails only
    for an empty list or when two routes name the same backend. *)
Theorem routes_are_unambiguous (routes : list ProviderRoute) :
  match ModelProviderExecutor_new routes with
  | Ok table =>
      table ≡ₚ routes /\ routes <> [] /\ by_rank table
      /\ (forall r, r ∈ routes -> routes_get (rt_backend r) table = Some r
            /\ route_for_v4 table (v4_route_id (rt_backend r) (rt_model r)) = Some r)
      /\ (forall b r, routes_get b table = Some r -> r ∈ routes /\ rt_backend r = b)
      /\ (forall id r, route_for_v4 table id = Some r -> r ∈ routes /\ v4_route_id (rt_backend r) (rt_model r) = id)
  | Err e => (e = EmptyRoutes /\ routes = []) \/ (e = DuplicateBackend /\ ~ NoDup (map rt_backend routes))
  end.
Proof.
  unfold ModelProviderExecutor_new. pose proof (insert_routes_ok routes [] ltac:(constructor)) as Hins.
  destruct (insert_routes routes []) as [table|e].
  - destruct Hins as [Hs Hp]. rewrite app_nil_r in Hp. case_bool_decide as Hlen.
    + left. split; [done|]. apply Permutation_length in Hp. destruct table; [|discriminate]. by destruct routes.
    + split; [done|]. split; [intros ->; apply Permutation_length in Hp; by rewrite Hp in Hlen|]. split; [done|].
      split; [|split].
      * intros r Hr. assert (r ∈ table) as Hin by (by rewrite Hp). split; apply find_unique; try done.
        -- by apply Z.eqb_eq.
        -- intros q Hq Heq%Z.eqb_eq%backend_rank_inj. by eapply by_rank_unique.
        -- by apply bool_decide_eq_true_2.
        -- intros q Hq Heq%bool_decide_eq_true%route_id_backend. by eapply by_rank_unique.
      * intros b r [Hin Heq]%List.find_some. rewrite <- Hp. split; [by apply list_elem_of_In|].
        by apply Z.eqb_eq, backend_rank_inj in Heq.
      * intros id r [Hin Heq]%List.find_some. rewrite <- Hp. split; [by apply list_elem_of_In|].
        by apply bool_decide_eq_true in Heq.
  - destruct Hins as [-> Hn]. right. split; [done|]. intros Hnd. apply Hn. rewrite app_nil_r.
    replace (map rank_of routes) with (map backend_rank (map rt_backend routes)) by (by rewrite map_map).
    apply NoDup_fmap_2; [|done]. intros a b. apply backend_rank_inj.
Qed.
End Routes.

(** ** The prompt of a turn *)
Definition prompt_text (ctx : V4TurnContext) (request : V4SubmitTurn) : string :=
  match tc_pairs ctx with
  | [] => st_input request
  | pairs => conversation_context_prefix (history_text pairs) +:+ newline +:+ st_input request
  end.

Lemma history_size ps acc :
  slen (foldl (fun acc p => acc +:+ "User:" +:+ newline +:+ cx_user p +:+ newline +:+ "Assistant:" +:+ newline
                      +:+ cx_assistant p +:+ newline) acc ps)
  = slen acc + pairs_size ps + 19 * Z.of_nat (length ps).
Proof.
  revert acc. induction ps as [|p ps IH]; intros acc; [simpl; lia|]. cbn [foldl]. rewrite IH, !slen_app.
  change (slen newline) with 1. change (slen "User:") with 5. change (slen "Assistant:") with 10.
  cbn [pairs_size foldr length]. fold (pairs_size ps). lia.
Qed.

Lemma prompt_size ctx request :
  slen (st_input request) <= MAX_V4_INPUT_BYTES -> pairs_size (tc_pairs ctx) <= context_budget request ->
  (length (tc_pairs ctx) <= 32)%nat -> Forall (fun p => cx_user p <> EmptyString) (tc_pairs ctx) ->
  slen (prompt_text ctx request) <= MAX_V4_INPUT_BYTES.
Proof.
  intros Hin Hsize Hlen Hne. unfold prompt_text. destruct (tc_pairs ctx) as [|p ps] eqn:Hps; [done|]. rewrite <- Hps in *.
  unfold conversation_context_prefix, history_text. rewrite !slen_app, history_size. change (slen newline) with 1.
  change (slen EmptyString) with 0.
  change (slen "Previous conversation (context, oldest first, may be truncated):") with 64.
  change (slen "--- end of context; answer the next message ---") with 47.
  unfold context_budget, usize_saturating_sub, MAX_V4_INPUT_BYTES in *.
  assert (Z.of_nat (length (tc_pairs ctx)) <= pairs_size (tc_pairs ctx)) as H0.
  { clear -Hne. induction Hne as [|q l Hq _ IH]; [done|]. cbn [pairs_size foldr length]. fold (pairs_size l).
    pose proof (slen_nonneg (cx_assistant q)). assert (1 <= slen (cx_user q)); [|lia].
    destruct (cx_user q); [done|]. unfold slen. simpl. lia. }
  assert (1 <= Z.of_nat (length (tc_pairs ctx))) by (rewrite Hps; simpl; lia). lia.
Qed.

(** ** Execution *)
Section Execution.
Context {EX : External} {CC : ContentCodec} {MF : MillisFormat} {DG : Digest} {VJ : V4Json}.
Context {EL : ExternalLaws} {ML : MillisFormatLaws} {CL : ContentLaws} {MR : ModelRuntime}.
Variables (world : World) (run cid : string).

(** Between the calls of an execution the other threads make store calls, but
    none that touches the reply of this run. *)
Definition undisturbed : Prop :=
  forall n db, rtc store_step db (others world n db) /\ reply (others world n db) cid run = reply db cid run.

(** The store is sound and the run is a turn of [cid]. *)
Definition ready (x : Ex) : Prop := assistant x.2 /\ conv_of x.2 run = Some cid.

Lemma preview_content r t msg now db :
  assistant_content_events (update_assistant_preview r t msg now db).2 = assistant_content_events db
  /\ assistant_content_payloads (update_assistant_preview r t msg now db).2 = assistant_content_payloads db.
Proof.
  set (P := fun d => assistant_content_events d = assistant_content_events db
                     /\ assistant_content_payloads d = assistant_content_payloads db).
  assert (forall id m, keeps P (insert_message_row id m)) as H1.
  { intros id m d Hd. unfold insert_message_row. by repeat case_match. }
  assert (forall b n, keeps P (update_preview r b n)) as H2.
  { intros b n d Hd. unfold update_preview. by repeat case_match. }
  assert (keeps P (update_assistant_preview r t msg now)) as Hk; [|by apply Hk].
  unfold update_assistant_preview. keeps_solve.
Qed.

Lemma v4_append_reply p msg now db e db' :
  turns db -> conv_of db run = Some cid -> payload_typed p ->
  v4_append_content run p msg now db = (Ok e, db') -> reply db' cid run = reply db cid run +:+ payload_text p.
Proof.
  intros Ht Hc Hty Hop.
  apply v4_append_ok in Hop as (row & s & c & Hr & Hv & Hs & Hc' & Href & _ & Hop); [|apply Ht|apply Ht|done].
  assert (c = cid) as -> by congruence.
  set (D := add_content cid (last_content_sequence cid db + 1) (new_row run p now) (content_json p) db) in *.
  assert (reply db' cid run = reply D cid run) as ->.
  { destruct p as [t| | | |]; [|by subst db'..]. pose proof (preview_content run t msg now D) as [H1 H2].
    rewrite Hop in H1, H2. simpl in H1, H2. unfold reply, content_after, delta_of. by rewrite H1, H2. }
  unfold D. erewrite appended_reply by eassumption.
  by rewrite bool_decide_eq_true_2.
Qed.

Lemma steps_ready n db db' : rtc store_step db db' -> ready (n, db) -> forall m, ready (m, db').
Proof.
  intros Hs [Ha Hc] m. split; [by eapply steps_assistant|]. apply conv_of_turn in Hc as (t & Ht & Hc).
  destruct (steps_kept _ _ Hs _ _ Ht) as (t' & Ht' & Hcc & _). apply conv_of_turn. exists t'. simpl in *. split; congruence.
Qed.

Hypothesis Hrely : undisturbed.

(** One append: what was refused leaves no text. *)
Lemma append_spec {E} p x :
  ready x -> payload_typed p -> (forall t, p = TextDelta t -> valid_utf8 t) ->
  exists r x', append_payload (E := E) world run p x = (Ok r, x') /\ ready x'
    /\ reply x'.2 cid run = reply x.2 cid run +:+ match r with Ok _ => payload_text p | Err _ => EmptyString end.
Proof.
  intros Hx Hty Hu. destruct x as [n db]. unfold append_payload, call_store.
  destruct (Hrely n db) as [Hs Hreply]. pose proof (steps_ready n _ _ Hs Hx n) as [Ha1 Hc1]. simpl in Ha1, Hc1.
  set (db1 := others world n db) in *.
  destruct (v4_append_content run p (message_id world n) (now_ms_at world n) db1) as [r db2] eqn:Hop.
  exists r, (S n, db2). split; [done|].
  assert (store_step db1 db2) as Hstep.
  { eapply (store_step_exec (OpV4Append run p (message_id world n)) (mkTick EmptyString (now_ms_at world n)) db1); [done|].
    simpl. rewrite Hop. reflexivity. }
  split; [by apply (steps_ready n db1 db2); [apply rtc_once|]|]. simpl. rewrite <- Hreply. destruct r as [e|e].
  - by eapply v4_append_reply; [apply Ha1|..].
  - rewrite append_empty_r. unfold v4_append_content in Hop. apply transaction_err in Hop as [-> _]. done.
Qed.

(** A delta is written piece by piece; what is stored is a prefix of it. *)
Lemma write_text_spec {E} fuel : forall text x,
  ready x -> valid_utf8 text -> (String.length text <= fuel)%nat ->
  exists failed x' part rest, write_text (E := E) world fuel run text x = (Ok failed, x') /\ ready x'
    /\ text = part +:+ rest /\ reply x'.2 cid run = reply x.2 cid run +:+ part
    /\ (failed = false -> rest = EmptyString).
Proof.
  induction fuel as [|fuel IH]; intros t x Hx Hv Hf.
  - destruct t; [|simpl in Hf; lia]. exists false, x, EmptyString, EmptyString.
      split; [done|]. split; [done|]. split; [done|].
      split; [by rewrite append_empty_r|done].
  - cbn [write_text]. destruct (is_empty t) eqn:He.
    { destruct t; [|discriminate]. exists false, x, EmptyString, EmptyString.
      split; [done|]. split; [done|]. split; [done|].
      split; [by rewrite append_empty_r|done]. }
    set (k := floor_char_boundary t (Z.to_nat (Z.min (slen t) MAX_V4_DELTA_BYTES))).
    assert (t <> EmptyString) as Hne by (by intros ->).
    assert (is_char_boundary t k = true) as Hb by apply floor_char_boundary_ok.
    assert (1 <= k)%nat as Hk.
    { apply floor_char_boundary_pos; [done|done|]. unfold MAX_V4_DELTA_BYTES, slen.
      destruct (Z.le_ge_cases (Z.of_nat (String.length t)) (16 * 1024)); [right|left]; lia. }
    destruct (append_spec (E := E) (TextDelta (str_take k t)) x Hx I) as (r & x1 & Hop & Hx1 & Hr1).
    { intros ? [= <-]. by apply valid_utf8_take. }
    unfold tbind. rewrite Hop. destruct r as [e|e].
    + destruct (IH (str_drop k t) x1 Hx1) as (failed & x2 & part & rest & Hw & Hx2 & Ht & Hr2 & Hdone);
        [by apply valid_utf8_drop|rewrite length_str_drop; lia|].
      exists failed, x2, (str_take k t +:+ part), rest. split; [done|]. split; [done|]. split; [|split; [|done]].
      * rewrite append_assoc, <- Ht. by rewrite str_take_drop.
      * rewrite Hr2, Hr1. simpl. by rewrite append_assoc.
    + exists true, x1, EmptyString, t. split; [done|]. split; [done|]. by split; [|split; [|discriminate]].
Qed.

Lemma sink_reject_invalid s : sk_invalid (sink_reject s) = true.
Proof. done. Qed.

(** One event: a prefix of its text is stored, all of it when the sink stays
    valid, and then the sink moves like the boundary sink. *)
Lemma content_emit_spec {E} m s e x :
  ready x -> valid_utf8 (event_text e) ->
  exists s' x' part rest, content_emit (E := E) world run m s e x = (Ok s', x') /\ ready x'
    /\ event_text e = part +:+ rest /\ reply x'.2 cid run = reply x.2 cid run +:+ part
    /\ (sk_invalid s' = false -> s' = boundary_emit m s e /\ rest = EmptyString).
Proof.
  intros Hx Hv. destruct e as [mo|t| | | |]; simpl in Hv |- *;
    try (eexists _, x, EmptyString, EmptyString; split; [reflexivity|]; split; [done|]; split; [done|];
         split; [by rewrite append_empty_r|done]).
  destruct (sink_open s).
  - destruct (is_empty t) eqn:He.
    { destruct t; [|discriminate]. exists s, x, EmptyString, EmptyString.
      split; [done|]. split; [done|]. split; [done|].
      split; [by rewrite append_empty_r|done]. }
    destruct (write_text_spec (E := E) (String.length t) t x Hx Hv (Nat.le_refl _)) as (failed & x1 & part & rest & Hw & Hx1 & Ht & Hr & Hd).
    unfold tbind. rewrite Hw. exists (if failed then sink_reject s else s), x1, part, rest.
    split; [done|]. split; [done|]. split; [done|]. split; [done|]. destruct failed; [discriminate|auto].
  - exists (sink_reject s), x, EmptyString, t.
    split; [done|]. split; [done|]. split; [done|]. split; [by rewrite append_empty_r|discriminate].
Qed.

Lemma emit_all_spec {E} m es : forall s x,
  ready x -> Forall (fun e => valid_utf8 (event_text e)) es ->
  exists s' x' parts, emit_all (E := E) world run m s es x = (Ok s', x') /\ ready x'
    /\ Forall2 (fun part e => exists rest, event_text e = part +:+ rest) parts es
    /\ reply x'.2 cid run = reply x.2 cid run +:+ concat_text parts
    /\ (sk_invalid s' = false -> s' = foldl (boundary_emit m) s es /\ parts = map event_text es /\ sk_invalid s = false).
Proof.
  induction es as [|e es IH]; intros s x Hx Hv.
  - exists s, x, []. split; [done|]. split; [done|]. split; [constructor|]. simpl. rewrite append_empty_r. auto.
  - apply Forall_cons in Hv as [Hve Hv]. cbn [emit_all].
    destruct (content_emit_spec (E := E) m s e x Hx Hve) as (s1 & x1 & part & rest & H1 & Hx1 & Ht & Hr1 & Hs1).
    destruct (IH s1 x1 Hx1 Hv) as (s2 & x2 & parts & H2 & Hx2 & Hp & Hr2 & Hs2).
    unfold tbind. rewrite H1. exists s2, x2, (part :: parts). split; [done|]. split; [done|].
    split; [constructor; [by exists rest|done]|]. split.
    + rewrite Hr2, Hr1. simpl. by rewrite append_assoc.
    + intros Hinv. destruct (Hs2 Hinv) as (-> & -> & Hinv1). destruct (Hs1 Hinv1) as (-> & ->).
      split; [done|]. split; [simpl; by rewrite Ht, append_empty_r|]. by eapply boundary_invalid.
Qed.

Lemma turn_context_reads r request max db : (v4_turn_context r request max db).2 = db.
Proof.
  unfold v4_turn_context, tbind, tlift, tread. destruct (map_err _ _); [|done]. by destruct (_ <? _).
Qed.

(** Preparing the prompt adds no text. *)
Lemma prompt_spec request x :
  ready x -> exists r x', prompt_for_turn world run request x = (r, x') /\ ready x'
    /\ reply x'.2 cid run = reply x.2 cid run.
Proof.
  intros Hx. destruct x as [n db]. unfold prompt_for_turn, tbind at 1, call_store at 1.
  destruct (Hrely n db) as [Hs Hreply]. pose proof (turn_context_reads run request (context_budget request) (others world n db)) as Hread.
  destruct (v4_turn_context run request _ _) as [found db1]. simpl in Hread. subst db1.
  pose proof (steps_ready n _ _ Hs Hx (S n)) as Hx1. unfold tbind at 1, tlift at 1.
  destruct (map_err _ found) as [ctx|e]; [|by eexists _, _].
  assert (exists r x', (if tc_truncated ctx
             then noted <- append_payload world run (Notice Truncated) ;
                  tlift (map_err (fun _ => provider_failed) noted) ;; tret tt
             else tret tt) (S n, others world n db) = (r, x') /\ ready x' /\ reply x'.2 cid run = reply db cid run)
    as (r & x2 & Hnote & Hx2 & Hr2).
  { destruct (tc_truncated ctx); [|by eexists _, _].
    destruct (append_spec (E := ExecutionError) (Notice Truncated) _ Hx1 I ltac:(discriminate)) as (r & x2 & Hop & Hx2 & Hr2).
    unfold tbind. rewrite Hop. assert (reply x2.2 cid run = reply db cid run) as Hr.
    { rewrite Hr2. simpl. rewrite Hreply. by destruct r; rewrite append_empty_r. }
    destruct r; by eexists _, _. }
  unfold tbind at 1. rewrite Hnote. destruct r as [u|e]; [|by eexists _, _].
  destruct (tc_pairs ctx); [by eexists _, _|]. destruct (_ <? _); by eexists _, _.
Qed.

(** How a stream ended that was accepted: cancelled, or complete, well formed and
    stored in full. *)
Definition accepted (route : ProviderRoute) (stream : ProviderRun) (before after : string) : Prop :=
  ((exists truncated, pv_report stream = Some (StopCancelled, truncated)) /\ pv_cancelled stream = true)
  \/ (pv_report stream = Some (StopCompleted, false)
      /\ exists texts, pv_events stream = EvStarted (rt_model route) :: map EvTextDelta texts ++ [EvFinished]
           /\ after = before +:+ concat_text texts).

Definition stream_of (route : ProviderRoute) (prompt : string) : ProviderRun :=
  run_provider (rt_provider route) (rt_model route) prompt (rt_budget route).

(** What an execution recorded: [said] is what the provider emitted, if it was
    asked at all; the reply grew by a prefix of each text. *)
Definition recorded (table : Routes) (request : V4SubmitTurn) (before : string)
    (r : result ExecutionError unit) (after : string) : Prop :=
  exists said parts,
    (said = [] \/ exists route prompt, said = pv_events (stream_of route prompt))
    /\ Forall2 (fun part e => exists rest, event_text e = part +:+ rest) parts said
    /\ after = before +:+ concat_text parts
    /\ (r = Ok tt -> exists route prompt, route_for_v4 table (st_route_id request) = Some route
         /\ said = pv_events (stream_of route prompt) /\ accepted route (stream_of route prompt) before after).

Lemma recorded_nothing table request s e : recorded table request s (Err e) s.
Proof.
  exists [], []. split; [by left|]. split; [constructor|]. split; [by rewrite append_empty_r|discriminate].
Qed.

(** C10: whatever a provider emits and however it ends, the stored reply of the
    turn only grows by what the provider said: for every text delta by a prefix of
    it, in order, and by nothing else.  The other threads may make any store calls
    in between that leave the reply of this run as it is ([undisturbed]).  When the
    execution returns without an error, either the provider was stopped by a
    cancellation, and nothing more is claimed than those prefixes, or the stream was
    the expected model's start, texts, and the end, the provider reported completion
    without truncation, and every text was stored in full. *)
Theorem execution_records_what_the_provider_said (table : Routes) (request : V4SubmitTurn) (x : Ex)
    (Hx : ready x)
    (Hu : forall route prompt, Forall (fun e => valid_utf8 (event_text e)) (pv_events (stream_of route prompt))) :
  let '(r, x') := execute_v4 world table run request x in
  ready x' /\ recorded table request (reply x.2 cid run) r (reply x'.2 cid run).
Proof.
  unfold execute_v4, tbind at 1, tlift at 1.
  destruct (map_err _ _); [|split; [done|apply recorded_nothing]].
  unfold tbind at 1, tlift at 1. destruct (route_for_v4 table (st_route_id request)) as [route|] eqn:Hroute;
    [|split; [done|apply recorded_nothing]].
  cbn [ok_or]. destruct (prompt_spec request x Hx) as (rp & x1 & Hp & Hx1 & Hr1). unfold tbind at 1. rewrite Hp.
  destruct rp as [prompt|e]; [|split; [done|rewrite Hr1; apply recorded_nothing]].
  fold (stream_of route prompt). set (stream := stream_of route prompt).
  destruct (emit_all_spec (E := ExecutionError) (rt_model route) (pv_events stream) sink_new x1 Hx1 (Hu route prompt))
    as (s' & x2 & parts & Hem & Hx2 & Hparts & Hr2 & Hs').
  unfold tbind at 1. rewrite Hem. unfold tlift. split; [done|]. exists (pv_events stream), parts.
  split; [right; by exists route, prompt|]. split; [done|]. split; [by rewrite Hr2, Hr1|].
  intros Hok. exists route, prompt. split; [done|]. split; [done|]. fold stream.
  unfold conclude in Hok. destruct (pv_report stream) as [[stop truncated]|] eqn:Hrep; [|discriminate].
  destruct stop; try discriminate.
  - left. split; [by exists truncated|]. by destruct (pv_cancelled stream).
  - right. destruct truncated; [discriminate|]. split; [done|].
    assert (sk_invalid s' = false) as Hinv.
    { unfold sink_validate in Hok. destruct (sk_started s' && sk_terminal s'); [|discriminate]. by destruct (sk_invalid s'). }
    destruct (Hs' Hinv) as (-> & -> & _). apply accepted_stream in Hok as (texts & Hes). exists texts.
    split; [done|]. by rewrite Hr2, Hr1, Hes, stream_text.
Qed.
End Execution.

Section Prompt.
Context {EX : External} {CC : ContentCodec} {MF : MillisFormat} {DG : Digest} {VJ : V4Json}.
Context {EL : ExternalLaws} {ML : MillisFormatLaws} {CL : ContentLaws}.

(** [prompt_for_turn] when the prompt fits. *)
Lemma prompt_eq world (run : RunId) request n db :
  let db1 := others world n db in
  prompt_for_turn world run request (n, db)
  = match (v4_turn_context run request (context_budget request) db1).1 with
    | Err _ => (Err unsupported, (S n, db1))
    | Ok ctx =>
        let finish x := (if MAX_V4_INPUT_BYTES <? slen (prompt_text ctx request) then
                           if bool_decide (tc_pairs ctx = []) then Ok (prompt_text ctx request) else Err unsupported
                         else Ok (prompt_text ctx request), x) in
        if tc_truncated ctx then
          match append_payload (E := ExecutionError) world run (Notice Truncated) (S n, db1) with
          | (Ok (Ok _), x) => finish x
          | (Ok (Err _), x) => (Err provider_failed, x)
          | (Err e, x) => (Err e, x)
          end
        else finish (S n, db1)
    end.
Proof.
  intros db1. pose proof (turn_context_reads run request (context_budget request) db1) as Hread.
  unfold prompt_for_turn, tbind at 1, call_store at 1. fold db1.
  destruct (v4_turn_context run request (context_budget request) db1) as [[ctx|e] db2]; simpl in Hread; subst db2; [|done].
  unfold tbind at 1, tlift at 1. cbn [map_err fst]. unfold prompt_text.
  assert (forall y : Ex, (match tc_pairs ctx with
            | [] => tret (st_input request)
            | pairs => let prompt := conversation_context_prefix (history_text pairs) +:+ newline +:+ st_input request in
                       if MAX_V4_INPUT_BYTES <? slen prompt then traise unsupported else tret prompt
            end : Tx Ex ExecutionError string) y
          = (if MAX_V4_INPUT_BYTES <? slen (match tc_pairs ctx with
               | [] => st_input request
               | pairs => conversation_context_prefix (history_text pairs) +:+ newline +:+ st_input request end) then
               if bool_decide (tc_pairs ctx = []) then Ok (match tc_pairs ctx with
               | [] => st_input request
               | pairs => conversation_context_prefix (history_text pairs) +:+ newline +:+ st_input request end) else Err unsupported
             else Ok (match tc_pairs ctx with
               | [] => st_input request
               | pairs => conversation_context_prefix (history_text pairs) +:+ newline +:+ st_input request end), y)) as Hend.
  { intros y. destruct (tc_pairs ctx); cbv zeta; [by destruct (_ <? _)|]. by destruct (_ <? _). }
  destruct (tc_truncated ctx).
  - unfold tbind. destruct (append_payload _ _ _ _) as [[[ev|e]|e] x]; [apply Hend|done|done].
  - unfold tbind, tret at 1. apply Hend.
Qed.
(** The prompt of a turn always fits: on every store built by its calls the
    history and its framing leave room for the input, which comes last and is
    never cut, so the size check of [prompt_for_turn] never refuses; preparing a
    prompt fails only when the context cannot be read, or when the notice that it
    was truncated cannot be recorded. *)
Theorem prompt_always_fits (world : World) (run : string) (request : V4SubmitTurn) (n : nat) (db : RunDb)
    (Hs : rtc store_step empty_run_db (others world n db)) (Hv : V4SubmitTurn_validate request = Ok tt) :
  let db1 := others world n db in
  match (v4_turn_context run request (context_budget request) db1).1 with
  | Err _ => prompt_for_turn world run request (n, db) = (Err unsupported, (S n, db1))
  | Ok ctx =>
      slen (prompt_text ctx request) <= MAX_V4_INPUT_BYTES
      /\ (tc_truncated ctx = false -> prompt_for_turn world run request (n, db) = (Ok (prompt_text ctx request), (S n, db1)))
      /\ (tc_truncated ctx = true ->
          exists noted x, append_payload (E := ExecutionError) world run (Notice Truncated) (S n, db1) = (Ok noted, x)
            /\ prompt_for_turn world run request (n, db)
               = (match noted with Ok _ => Ok (prompt_text ctx request) | Err _ => Err provider_failed end, x))
  end.
Proof.
  intros db1. rewrite prompt_eq. fold db1.
  destruct (v4_turn_context run request (context_budget request) db1) as [[ctx|e] db2] eqn:Hctx; cbn [fst]; [|done].
  assert (slen (prompt_text ctx request) <= MAX_V4_INPUT_BYTES) as Hfit.
  { apply turn_context_within in Hctx as (Hsize & Hlen & Hfrom); [|unfold context_budget, usize_saturating_sub; lia].
    apply prompt_size; [|done|done|].
    - unfold V4SubmitTurn_validate in Hv. destruct (route _); [|discriminate]. by apply valid_text_len in Hv.
    - eapply Forall_impl; [exact Hfrom|]. intros p (id & m & Hm & Hrole & ->).
      by apply (r_text _ (steps_referenced _ _ Hs referenced_empty) id m). }
  rewrite (proj2 (Z.ltb_ge _ _) Hfit). split; [done|]. split; intros ->; [done|].
  unfold append_payload, call_store. destruct (v4_append_content _ _ _ _ _) as [noted db3].
  exists noted, (S (S n), db3). split; [done|]. by destruct noted.
Qed.
End Prompt.
