(* ===== verification/ProviderExample.v ===== *)
(** * A scripted provider answers the second turn

    Examples of the route executor on the store of [TurnExample]. *)
From stdpp Require Import base list gmap strings sorting relations.
From Stdlib Require Import ZArith Lia.
From S2P Require Import Prelude RustStr ArgvBudget External Digest Tables RunContract StoreBase AssistantContent RunStore TurnContract TurnStore TurnContext Preview RunLedger TurnLedger TurnHistory TurnAdmission TurnReferences ContextProps TurnExample Manager Provider ProviderProps.
Import RunStateOps.
Import Provider.

Open Scope Z_scope.
Open Scope rust_scope.

Import LedgerExample.
Import Fixture ContentFixture DigestFixture JsonFixture.

(** The provider says "Well, then." in two pieces. *)
Definition script1 : list ModelEvent := [EvStarted "m"; EvTextDelta "Well, "; EvTextDelta "then."; EvFinished].
#[local] Instance scripted : ModelRuntime := {|
  ModelProvider := unit;
  provider_id _ := "scripted";
  run_provider _ _ _ _ := mkProviderRun script1 (Some (StopCompleted, false)) false;
|}.

Definition budget1 : RunBudget := mkRunBudget (Some 16) (Some 32) (Some 1000000000).
Definition route1 : ProviderRoute := mkProviderRoute Abi "m" tt budget1.
Definition world1 : World := mkWorld (fun _ db => db) (fun n => 30 + Z.of_nat n) (fun n => "a" +:+ decimal (Z.of_nat n + 3)).

Lemma world1_undisturbed : undisturbed world1 id2 conv1.
Proof. by intros n db. Qed.

Lemma recorded_at table request a a' r r' b b' :
  a = a' -> r = r' -> b = b' -> recorded table request a r b -> recorded table request a' r' b'.
Proof. by intros -> -> ->. Qed.

Definition start2 : Ex := (0%nat, dbr).
Lemma start2_ready : ready id2 conv1 start2.
Proof. split; [exact dbr_assistant|vm_compute; reflexivity]. Qed.

Lemma execution_records_what_the_provider_said_witness :
  (execute_v4 world1 [route1] id2 submit2 start2).1 = Ok tt
  /\ recorded [route1] submit2 EmptyString (Ok tt) "Well, then.".
Proof.
  assert ((execute_v4 world1 [route1] id2 submit2 start2).1 = Ok tt) as H1 by (vm_compute; reflexivity).
  split; [exact H1|].
  assert (reply start2.2 conv1 id2 = EmptyString) as H0 by (vm_compute; reflexivity).
  assert (reply (execute_v4 world1 [route1] id2 submit2 start2).2.2 conv1 id2 = "Well, then.") as H2
    by (vm_compute; reflexivity).
  assert (ready id2 conv1 start2) as Hr by exact start2_ready.
  assert (forall route prompt, Forall (fun e => valid_utf8 (event_text e)) (pv_events (stream_of route prompt))) as Hu.
  { intros route prompt. repeat (apply Forall_cons; split; [by apply ascii_valid|]). apply Forall_nil. exact I. }
  pose proof (execution_records_what_the_provider_said world1 id2 conv1 world1_undisturbed [route1] submit2 start2 Hr Hu) as H.
  revert H H1 H2. destruct (execute_v4 world1 [route1] id2 submit2 start2) as [r x]. intros [_ H] H1 H2.
  exact (recorded_at _ _ _ _ _ _ _ _ H0 H1 H2 H).
Defined.

(** The first turn rides along in front of the second question. *)
Lemma prompt_always_fits_witness :
  exists prompt, prompt_for_turn world1 id2 submit2 (0%nat, dbr) = (Ok prompt, (1%nat, dbr))
    /\ slen prompt <= MAX_V4_INPUT_BYTES
    /\ prompt = conversation_context_prefix ("User:" +:+ newline +:+ "Hello?" +:+ newline +:+ "Assistant:" +:+ newline
                  +:+ "Hi there." +:+ newline) +:+ newline +:+ "And then?".
Proof.
  pose proof (prompt_always_fits world1 id2 submit2 0 dbr dbr_steps ltac:(vm_compute; reflexivity)) as H. cbv zeta in H.
  assert ((v4_turn_context id2 submit2 (context_budget submit2) (others world1 0 dbr)).1
          = Ok (mkV4TurnContext [mkV4ContextPair "Hello?" "Hi there."] false)) as Hc by (vm_compute; reflexivity).
  rewrite Hc in H. destruct H as (Hle & Heq & _).
  exists (prompt_text (mkV4TurnContext [mkV4ContextPair "Hello?" "Hi there."] false) submit2).
  split; [exact (Heq eq_refl)|]. split; [exact Hle|]. reflexivity.
Defined.
