(* ===== verification/Cron.v ===== *)
(** * Cron expressions of automation schedules

    src/src/automation_schedule/cron.rs: the numeric five-field grammar
    ([number], [field]), the [Calendar] it compiles to and its day test.  Dates
    are day numbers counted from 1970-01-01; chrono's calendar and chrono-tz's
    zones are the class [Chrono], what is relied on of them the class
    [ChronoLaws]. *)
From stdpp Require Import base list numbers sorting strings.
From Stdlib Require Import ZArith Lia Sorted Ascii.
From S2P Require Import Prelude RustStr.

Open Scope Z_scope.
Open Scope rust_scope.

Inductive ScheduleError :=
| InvalidSchedule | InvalidTimestamp | InvalidCount | InvalidInterval | TimezoneGap.

(** [chrono::LocalResult<DateTime<Tz>>], an instant being its milliseconds. *)
Inductive LocalResult := Single (t : Z) | Ambiguous (a b : Z) | LocalNone.

Class Chrono := {
  Tz : Type;
  tz_parse : string -> option Tz;
  tz_name : Tz -> string;
  date_min : Z;
  date_max : Z;
  from_ymd_opt : Z -> Z -> Z -> option Z;
  month : Z -> Z;
  day_of_month : Z -> Z;
  num_days_from_sunday : Z -> Z;
  utc_in_range : Z -> bool;
  local_minus_utc : Tz -> Z -> Z;
  from_local_datetime : Tz -> Z -> LocalResult;
  to_rfc3339 : Tz -> Z -> string;
}.

(** Months, days and weekdays have their usual ranges, weekdays follow each
    other, the supported dates contain a Gregorian cycle from 2000-01-01 and the
    days around the epoch, offsets are less than a day, and the instants from
    the epoch to a supported one are supported. *)
Class ChronoLaws `{Chrono} := {
  month_range : forall d, 1 <= month d <= 12;
  day_range : forall d, 1 <= day_of_month d <= 31;
  weekday_range : forall d, 0 <= num_days_from_sunday d < 7;
  weekday_succ : forall d, num_days_from_sunday (d + 1) = (num_days_from_sunday d + 1) mod 7;
  date_min_before_epoch : date_min <= -4;
  year_2000 : exists d, from_ymd_opt 2000 1 1 = Some d /\ date_min <= d /\ d + 146097 <= date_max;
  offset_range : forall z t, -86400 < local_minus_utc z t < 86400;
  utc_convex : forall t t', 0 <= t <= t' -> utc_in_range t' = true -> utc_in_range t = true;
}.

(** ** Strings *)

(** [str::split] on one character: always at least one piece. *)
Fixpoint split_on (c : Ascii.ascii) (s : string) : list string :=
  match s with
  | EmptyString => [EmptyString]
  | String x s' =>
      if bool_decide (x = c) then EmptyString :: split_on c s'
      else match split_on c s' with
           | p :: ps => String x p :: ps
           | [] => [String x EmptyString]
           end
  end.

(** [str::split_once]. *)
Fixpoint split_once (c : Ascii.ascii) (s : string) : option (string * string) :=
  match s with
  | EmptyString => None
  | String x s' =>
      if bool_decide (x = c) then Some (EmptyString, s')
      else match split_once c s' with
           | Some (a, b) => Some (String x a, b)
           | None => None
           end
  end.

(** [u8::is_ascii_whitespace]: tab, line feed, form feed, carriage return, space. *)
Definition is_ascii_whitespace (b : Z) : bool :=
  (b =? 9) || (b =? 10) || (b =? 12) || (b =? 13) || (b =? 32).

(** [str::split_ascii_whitespace]; [word] is the piece being read. *)
Fixpoint split_words (word : string) (s : string) : list string :=
  match s with
  | EmptyString => if is_empty word then [] else [word]
  | String x s' =>
      if is_ascii_whitespace (byte_val x)
      then if is_empty word then split_words EmptyString s' else word :: split_words EmptyString s'
      else split_words (word +:+ String x EmptyString) s'
  end.
Definition split_ascii_whitespace (s : string) : list string := split_words EmptyString s.

Definition starts_with (c : Ascii.ascii) (s : string) : bool :=
  match s with String x _ => bool_decide (x = c) | EmptyString => false end.

(** ** Fields *)
Definition number (s : string) : result ScheduleError Z :=
  fail? is_empty s || negb (forallb is_ascii_digit (bytes s)) with InvalidSchedule in
  let n := digits_value (bytes s) in
  fail? u32_max <? n with InvalidSchedule in
  Ok n.

(** One comma-separated part: the body of the loop of [field]. *)
Definition field_part (part : string) (min max : Z) : result ScheduleError (list Z) :=
  match split_on "/"%char part with
  | [] => Err InvalidSchedule
  | base :: rest =>
      let? step := match rest with
                   | [] => Ok None
                   | s :: _ => let? n := number s in Ok (Some n)
                   end in
      fail? match rest with _ :: _ :: _ => true | _ => false end || bool_decide (step = Some 0)
      with InvalidSchedule in
      let? bounds :=
        (if bool_decide (base = "*") then Ok (min, max)
         else match split_once "-"%char base with
              | Some (a, b) => let? lo := number a in let? hi := number b in Ok (lo, hi)
              | None =>
                  fail? match step with Some _ => true | None => false end with InvalidSchedule in
                  let? n := number base in Ok (n, n)
              end) in
      let '(lo, hi) := bounds in
      fail? (lo <? min) || (max <? hi) || (hi <? lo) with InvalidSchedule in
      Ok (filter (fun n => (n - lo) mod (default 1 step) = 0) (seqZ lo (hi - lo + 1)))
  end.

(** [Vec::dedup]: drop repetitions of the previous element. *)
Fixpoint dedup (l : list Z) : list Z :=
  match l with
  | x :: (y :: _) as tl => if x =? y then dedup tl else x :: dedup tl
  | _ => l
  end.

Definition field (s : string) (min max : Z) : result ScheduleError (list Z) :=
  let? pushed := map_result (fun part => field_part part min max) (split_on ","%char s) in
  let values := dedup (merge_sort Z.le (concat pushed)) in
  fail? match values with [] => true | _ => false end with InvalidSchedule in
  Ok values.

(** ** Calendars *)
Record Calendar := mkCalendar {
  minutes : list Z;
  hours : list Z;
  dom : list Z;
  months : list Z;
  dow : list Z;
  dom_any : bool;
  dow_any : bool;
}.

Section Calendars.
Context `{CH : Chrono}.

Definition date_in_range (day : Z) : bool := (date_min <=? day) && (day <=? date_max).

(** [NaiveDate::checked_add_signed] of whole days. *)
Definition checked_add_days (day n : Z) : option Z :=
  if date_in_range (day + n) then Some (day + n) else None.

Definition matches (c : Calendar) (day : Z) : bool :=
  if negb (bool_decide (month day ∈ months c)) then false
  else
    let in_dom := bool_decide (day_of_month day ∈ dom c) in
    let in_dow := bool_decide (num_days_from_sunday day ∈ dow c) in
    if dom_any c || dow_any c then in_dom && in_dow else in_dom || in_dow.

(** The search for one matching date in a Gregorian cycle. *)
Fixpoint find_match (fuel : nat) (c : Calendar) (day : Z) : result ScheduleError Calendar :=
  match fuel with
  | O => Err InvalidSchedule
  | S fuel' =>
      if matches c day then Ok c
      else match checked_add_days day 1 with
           | Some next => find_match fuel' c next
           | None => Err InvalidSchedule
           end
  end.

Definition Calendar_parse (expression : string) : result ScheduleError Calendar :=
  fail? 128 <? slen expression with InvalidSchedule in
  match split_ascii_whitespace expression with
  | [f0; f1; f2; f3; f4] =>
      let? minutes := field f0 0 59 in
      let? hours := field f1 0 23 in
      let? dom := field f2 1 31 in
      let? months := field f3 1 12 in
      let? dow := field f4 0 7 in
      let c := mkCalendar minutes hours dom months (map (fun v => v mod 7) dow)
                 (starts_with "*"%char f2) (starts_with "*"%char f4) in
      match from_ymd_opt 2000 1 1 with
      | None => Err InvalidSchedule
      | Some day => find_match (Z.to_nat 146097) c day
      end
  | _ => Err InvalidSchedule
  end.
End Calendars.

Example field_steps : field "*/15,7,50-59/4" 0 59 = Ok [0; 7; 15; 30; 45; 50; 54; 58].
Proof. vm_compute. reflexivity. Qed.
Example field_refused :
  map (fun s => is_ok (field s 0 59)) ["1/2"; "9-1"; "1,,2"; "*/0"; "60"; "1/2/3"; "MON"; ""] =
  [false; false; false; false; false; false; false; false].
Proof. vm_compute. reflexivity. Qed.

(** ** The grammar: parts, how they are written and what they stand for *)
Inductive Part :=
| PAny (step : option Z)
| PRange (lo hi : Z) (step : option Z)
| POne (n : Z).

Definition print_step (step : option Z) : string :=
  match step with Some k => "/" +:+ decimal k | None => EmptyString end.
Definition print_part (p : Part) : string :=
  match p with
  | PAny step => "*" +:+ print_step step
  | PRange lo hi step => decimal lo +:+ "-" +:+ decimal hi +:+ print_step step
  | POne n => decimal n
  end.
Fixpoint print_field (parts : list Part) : string :=
  match parts with
  | [] => EmptyString
  | [p] => print_part p
  | p :: tl => print_part p +:+ "," +:+ print_field tl
  end.

Definition part_bounds (min max : Z) (p : Part) : Z * Z * Z :=
  match p with
  | PAny step => (min, max, default 1 step)
  | PRange lo hi step => (lo, hi, default 1 step)
  | POne n => (n, n, 1)
  end.
Definition part_ok (min max : Z) (p : Part) : Prop :=
  let '(lo, hi, step) := part_bounds min max p in min <= lo <= hi /\ hi <= max /\ step <> 0.
Definition denotes (min max n : Z) (p : Part) : Prop :=
  let '(lo, hi, step) := part_bounds min max p in lo <= n <= hi /\ (n - lo) mod step = 0.

Definition is_u32 (n : Z) : Prop := 0 <= n <= u32_max.
(** The numbers of a part are 32-bit. *)
Definition part_u32 (p : Part) : Prop :=
  match p with
  | PAny step => forall k, step = Some k -> is_u32 k
  | PRange lo hi step => is_u32 lo /\ is_u32 hi /\ forall k, step = Some k -> is_u32 k
  | POne n => is_u32 n
  end.

(** ** Lemmas *)
Lemma byte_val_inj a b : byte_val a = byte_val b -> a = b.
Proof.
  unfold byte_val. intros H%N2Z.inj. rewrite <- (Ascii.ascii_N_embedding a), <- (Ascii.ascii_N_embedding b).
  by rewrite H.
Qed.

(** [c] does not occur in [s]. *)
Definition no_char (c : Ascii.ascii) (s : string) : Prop := Forall (fun b => b <> byte_val c) (bytes s).

Lemma no_char_app c a b : no_char c (a +:+ b) <-> no_char c a /\ no_char c b.
Proof. unfold no_char. by rewrite bytes_app, Forall_app. Qed.

Lemma split_on_none c s : no_char c s -> split_on c s = [s].
Proof.
  induction s as [|x s IH]; intros Hs; [done|]. apply Forall_cons in Hs as [Hx Hs].
  cbn [split_on]. rewrite bool_decide_eq_false_2 by (by intros ->). by rewrite IH.
Qed.

Lemma split_on_app c a b : no_char c a -> split_on c (a +:+ String c b) = a :: split_on c b.
Proof.
  induction a as [|x a IH]; intros Ha; simpl.
  - by rewrite bool_decide_eq_true_2.
  - apply Forall_cons in Ha as [Hx Ha]. rewrite bool_decide_eq_false_2 by (by intros ->). by rewrite IH.
Qed.

Lemma split_once_none c s : no_char c s -> split_once c s = None.
Proof.
  induction s as [|x s IH]; intros Hs; [done|]. apply Forall_cons in Hs as [Hx Hs].
  cbn [split_once]. rewrite bool_decide_eq_false_2 by (by intros ->). by rewrite IH.
Qed.

Lemma split_once_app c a b : no_char c a -> split_once c (a +:+ String c b) = Some (a, b).
Proof.
  induction a as [|x a IH]; intros Ha; simpl.
  - by rewrite bool_decide_eq_true_2.
  - apply Forall_cons in Ha as [Hx Ha]. rewrite bool_decide_eq_false_2 by (by intros ->). by rewrite IH.
Qed.

Lemma decimal_no_char c n : 0 <= n -> is_ascii_digit (byte_val c) = false -> no_char c (decimal n).
Proof.
  intros Hn Hc. eapply Forall_impl; [by apply decimal_digits|]. intros b Hb ->. congruence.
Qed.

Lemma number_decimal n : is_u32 n -> number (decimal n) = Ok n.
Proof.
  intros Hn. unfold number. rewrite decimal_nonempty.
  rewrite (proj2 (forallb_Forall _ _)) by (apply decimal_digits; apply Hn). simpl.
  unfold is_u32, u32_max in *. rewrite digits_value_decimal by (unfold is_u64, u64_max; lia).
  destruct (Z.ltb_spec 4294967295 n); [lia|done].
Qed.

Lemma number_ok s n : number s = Ok n -> is_u32 n.
Proof.
  unfold number. destruct (is_empty s || _) eqn:Hd; [done|]. bools.
  destruct (Z.ltb_spec u32_max (digits_value (bytes s))); [done|]. intros [= <-]. split; [|done].
  rename select (forallb _ _ = true) into Hf. apply forallb_Forall in Hf.
  unfold digits_value. cut (forall acc, 0 <= acc -> 0 <= foldl (fun a b => a * 10 + (b - 48)) acc (bytes s)).
  { intros Hg. by apply Hg. }
  clear -Hf. induction Hf as [|b l Hb Hf IH]; intros acc Hacc; [done|]. simpl. apply IH.
  unfold is_ascii_digit in Hb. bools. lia.
Qed.

(** *** Sorting and deduplication *)
Lemma dedup_cons x y l : dedup (x :: y :: l) = if x =? y then dedup (y :: l) else x :: dedup (y :: l).
Proof. done. Qed.

Lemma dedup_elem n l : n ∈ dedup l <-> n ∈ l.
Proof.
  induction l as [|x [|y l] IH]; [done|done|]. rewrite dedup_cons. destruct (Z.eqb_spec x y) as [->|Hne].
  - rewrite IH. rewrite (elem_of_cons (y :: l)). split; [auto|]. intros [->|?]; [left|done].
  - rewrite (elem_of_cons _ n x), (elem_of_cons (y :: l) n x). by rewrite IH.
Qed.

Lemma dedup_sorted l : StronglySorted Z.le l -> StronglySorted Z.lt (dedup l).
Proof.
  induction l as [|x [|y l] IH]; intros Hs; [constructor|repeat constructor|].
  apply StronglySorted_inv in Hs as [Hs Hx]. rewrite dedup_cons. destruct (Z.eqb_spec x y) as [->|Hne]; [by apply IH|].
  constructor; [by apply IH|]. apply Forall_forall. intros n Hn. apply (proj1 (dedup_elem n (y :: l))) in Hn.
  apply StronglySorted_inv in Hs as [_ Hy]. apply Forall_cons in Hx as [Hxy _].
  apply elem_of_cons in Hn as [->|Hn]; [lia|]. eapply Forall_forall in Hy; [|done]. lia.
Qed.

Lemma elem_of_concat {A} (x : A) ls : x ∈ concat ls <-> exists l, l ∈ ls /\ x ∈ l.
Proof.
  induction ls as [|l ls IH]; simpl.
  - split; [by intros ?%elem_of_nil|]. by intros (l & ?%elem_of_nil & _).
  - rewrite elem_of_app, IH. setoid_rewrite elem_of_cons. split.
    + intros [?|(l' & ? & ?)]; eauto.
    + intros (l' & [->|?] & ?); eauto.
Qed.

(** *** Parts *)
Lemma field_part_elem part min max l n :
  field_part part min max = Ok l -> n ∈ l -> min <= n <= max.
Proof.
  unfold field_part. destruct (split_on _ part) as [|base rest]; [done|].
  destruct (match rest with [] => Ok None | s :: _ => _ end) as [step|]; [|done].
  destruct (_ || bool_decide (step = Some 0)); [done|].
  destruct (if bool_decide (base = "*") then _ else _) as [[lo hi]|]; [|done].
  destruct ((lo <? min) || (max <? hi) || (hi <? lo)) eqn:Hb; [done|]. bools.
  intros [= <-] [_ Hn%elem_of_seqZ]%list_elem_of_filter. lia.
Qed.

(** What is accepted, ascending without repetition. *)
Lemma field_ok s min max vs :
  field s min max = Ok vs <->
  exists ls, Forall2 (fun part l => field_part part min max = Ok l) (split_on ","%char s) ls
    /\ concat ls <> [] /\ vs = dedup (merge_sort Z.le (concat ls)).
Proof.
  unfold field. destruct (map_result _ _) as [ls|e] eqn:Hm.
  - assert (dedup (merge_sort Z.le (concat ls)) = [] <-> concat ls = []) as Hnil.
    { split; [|by intros ->]. intros Hd. apply elem_of_nil_inv. intros n Hn.
      assert (n ∈ dedup (merge_sort Z.le (concat ls))) as Hin
        by (by rewrite dedup_elem, merge_sort_Permutation). rewrite Hd in Hin. by apply elem_of_nil in Hin. }
    apply map_result_ok in Hm. split.
    + intros Hf. exists ls. split; [done|]. destruct (dedup _) as [|v vs'] eqn:Hd; [done|]. injection Hf as <-.
      split; [|done]. intros Hc. by apply Hnil in Hc.
    + intros (ls' & Hls & Hne & ->). apply map_result_ok in Hm, Hls. rewrite Hm in Hls. injection Hls as <-.
      destruct (dedup _) as [|v vs'] eqn:Hd; [|done]. exfalso. by apply Hne, Hnil.
  - split; [done|]. intros (ls & Hls%map_result_ok & _). congruence.
Qed.

Lemma field_values s min max vs :
  field s min max = Ok vs ->
  vs <> [] /\ StronglySorted Z.lt vs /\ Forall (fun n => min <= n <= max) vs.
Proof.
  intros (ls & Hls & Hne & ->)%field_ok. split; [|split].
  - intros Hd. apply Hne, elem_of_nil_inv. intros n Hn.
    assert (n ∈ dedup (merge_sort Z.le (concat ls))) as Hin by (by rewrite dedup_elem, merge_sort_Permutation).
    rewrite Hd in Hin. by apply elem_of_nil in Hin.
  - apply dedup_sorted, (StronglySorted_merge_sort Z.le).
  - apply Forall_forall. intros n. rewrite dedup_elem, merge_sort_Permutation.
    intros (l & Hl & Hn)%elem_of_concat. apply list_elem_of_lookup in Hl as [i Hi].
    eapply Forall2_lookup_r in Hi as (part & _ & Hp); [|done].
    by apply (field_part_elem part min max l).
Qed.

Lemma print_step_no_char c step :
  (forall k, step = Some k -> is_u32 k) -> is_ascii_digit (byte_val c) = false -> c <> "/"%char ->
  no_char c (print_step step).
Proof.
  intros Hk Hd Hc. destruct step as [k|]; [|constructor]. apply no_char_app. split.
  - repeat constructor. intros Hb. by apply Hc, byte_val_inj.
  - apply decimal_no_char; [by apply Hk|done].
Qed.

Lemma print_part_no_comma p : part_u32 p -> no_char ","%char (print_part p).
Proof.
  destruct p as [step|lo hi step|n]; simpl; intros Hp.
  - constructor; [done|]. by apply print_step_no_char.
  - destruct Hp as (Hlo & Hhi & Hk). apply no_char_app. split; [by apply decimal_no_char; [apply Hlo|]|].
    constructor; [done|]. apply no_char_app. split; [by apply decimal_no_char; [apply Hhi|]|].
    by apply print_step_no_char.
  - by apply decimal_no_char; [apply Hp|].
Qed.

Lemma split_fields parts :
  parts <> [] -> Forall part_u32 parts -> split_on ","%char (print_field parts) = map print_part parts.
Proof.
  induction parts as [|p [|q parts] IH]; intros Hne Hp; [done| |].
  - apply Forall_cons in Hp as [Hp _]. simpl. by apply split_on_none, print_part_no_comma.
  - apply Forall_cons in Hp as [Hp Hps].
    change (print_field (p :: q :: parts)) with (print_part p +:+ String "," (print_field (q :: parts))).
    rewrite split_on_app by (by apply print_part_no_comma). by rewrite IH.
Qed.

(** The base and the step of a written part. *)
Lemma split_step base step :
  (forall k, step = Some k -> is_u32 k) -> no_char "/"%char base ->
  split_on "/"%char (base +:+ print_step step)
  = base :: match step with Some k => [decimal k] | None => [] end.
Proof.
  intros Hk Hb. destruct step as [k|].
  - change (print_step (Some k)) with (String "/" (decimal k)). rewrite split_on_app by done. f_equal. apply split_on_none, decimal_no_char; [by apply Hk|done].
  - change (print_step None) with EmptyString. rewrite append_empty_r. by apply split_on_none.
Qed.

Lemma decimal_not_star n : 0 <= n -> decimal n <> "*".
Proof.
  intros Hn Heq. pose proof (decimal_digits n Hn) as Hd. rewrite Heq in Hd. by apply Forall_inv in Hd.
Qed.

(** Reading back a written part. *)
Lemma field_part_print p min max :
  part_u32 p -> let '(lo, hi, step) := part_bounds min max p in
  field_part (print_part p) min max
  = if (lo <? min) || (max <? hi) || (hi <? lo) || (step =? 0) then Err InvalidSchedule
    else Ok (filter (fun n => (n - lo) mod step = 0) (seqZ lo (hi - lo + 1))).
Proof.
  intros Hp. destruct p as [step|lo hi step|n]; simpl in Hp; cbn [part_bounds print_part].
  - unfold field_part. rewrite split_step; [|done|by repeat constructor].
    destruct step as [k|]; simpl.
    + rewrite number_decimal by auto. case_bool_decide as H0.
      * simplify_eq. by rewrite !orb_true_r.
      * destruct (Z.eqb_spec k 0); [congruence|]. by rewrite !orb_false_r.
    + by rewrite !orb_false_r.
  - destruct Hp as (Hlo & Hhi & Hk). unfold field_part.
    replace (decimal lo +:+ "-" +:+ decimal hi +:+ print_step step)
      with ((decimal lo +:+ String "-" (decimal hi)) +:+ print_step step) by (by rewrite append_assoc).
    rewrite split_step; [|done|].
    2:{ apply no_char_app. split; [by apply decimal_no_char; [apply Hlo|]|].
        constructor; [done|]. by apply decimal_no_char; [apply Hhi|]. }
    rewrite (bool_decide_eq_false_2 (_ = "*")).
    2:{ intros Heq. apply (f_equal bytes) in Heq. rewrite bytes_app in Heq.
        assert (45 ∈ bytes "*") as Hin by (rewrite <- Heq; apply elem_of_app; right; left). by apply list_elem_of_singleton in Hin. }
    rewrite split_once_app by (by apply decimal_no_char; [apply Hlo|]). rewrite !number_decimal by done.
    destruct step as [k|]; simpl.
    + rewrite number_decimal by auto. case_bool_decide as H0.
      * simplify_eq. by rewrite !orb_true_r.
      * destruct (Z.eqb_spec k 0); [congruence|]. by rewrite !orb_false_r.
    + by rewrite !orb_false_r.
  - unfold field_part. rewrite split_on_none by (by apply decimal_no_char; [apply Hp|]).
    cbn [bool_decide]. rewrite (bool_decide_eq_false_2 (_ = "*")) by (by apply decimal_not_star; apply Hp).
    rewrite split_once_none by (by apply decimal_no_char; [apply Hp|]). rewrite number_decimal by done.
    simpl. by rewrite !orb_false_r.
Qed.

Lemma field_part_print_ok p min max :
  part_u32 p -> part_ok min max p ->
  exists l, field_part (print_part p) min max = Ok l /\ l <> [] /\ forall n, n ∈ l <-> denotes min max n p.
Proof.
  intros Hu Hok. pose proof (field_part_print p min max Hu) as Hf. unfold part_ok, denotes in *.
  destruct (part_bounds min max p) as [[lo hi] step]. rewrite Hf. clear Hf.
  destruct Hok as (Hlo & Hhi & Hs).
  replace ((lo <? min) || (max <? hi) || (hi <? lo) || (step =? 0)) with false by (symmetry; rewrite !orb_false_iff; lia).
  eexists. split; [done|]. assert (forall n, n ∈ filter (fun n => (n - lo) mod step = 0) (seqZ lo (hi - lo + 1))
    <-> lo <= n <= hi /\ (n - lo) mod step = 0) as Hin.
  { intros n. rewrite list_elem_of_filter, elem_of_seqZ. split; intros [? ?]; split; lia. }
  split; [|done]. intros Hnil. assert (lo ∈ ([] : list Z)) as Hbad.
  { rewrite <- Hnil. apply Hin. split; [lia|]. by rewrite Z.sub_diag, Z.mod_0_l. }
  by apply elem_of_nil in Hbad.
Qed.

Lemma field_part_print_err p min max :
  part_u32 p -> ~ part_ok min max p -> field_part (print_part p) min max = Err InvalidSchedule.
Proof.
  intros Hu Hok. pose proof (field_part_print p min max Hu) as Hf. unfold part_ok in Hok.
  destruct (part_bounds min max p) as [[lo hi] step]. rewrite Hf.
  destruct ((lo <? min) || (max <? hi) || (hi <? lo) || (step =? 0)) eqn:Hb; [done|]. bools. exfalso. lia.
Qed.

Lemma part_ok_dec min max p : part_ok min max p \/ ~ part_ok min max p.
Proof. unfold part_ok. destruct (part_bounds min max p) as [[lo hi] step]. lia. Qed.

Lemma field_print_ok parts min max :
  parts <> [] -> Forall part_u32 parts -> Forall (part_ok min max) parts ->
  exists vs, field (print_field parts) min max = Ok vs
    /\ forall n, n ∈ vs <-> Exists (denotes min max n) parts.
Proof.
  intros Hne Hu Hok.
  assert (exists ls, Forall2 (fun p l => field_part (print_part p) min max = Ok l /\ l <> []
            /\ forall n, n ∈ l <-> denotes min max n p) parts ls) as [ls Hls].
  { clear Hne. induction parts as [|p parts IH]; [by exists []|].
    apply Forall_cons in Hu as [Hp Hu]. apply Forall_cons in Hok as [Hpo Hok].
    destruct (IH Hu Hok) as [ls Hls]. destruct (field_part_print_ok p min max Hp Hpo) as (l & Hl).
    exists (l :: ls). by constructor. }
  exists (dedup (merge_sort Z.le (concat ls))). split.
  - apply field_ok. exists ls. split; [|split; [|done]].
    + rewrite split_fields by done. clear -Hls. induction Hls as [|p l ps ls (H & _) _ IH]; by constructor.
    + destruct parts as [|p parts]; [done|]. apply Forall2_cons_inv_l in Hls as (l & ls' & (_ & Hl & _) & _ & ->).
      simpl. destruct l; [done|discriminate].
  - intros n. rewrite dedup_elem, merge_sort_Permutation, elem_of_concat. clear -Hls.
    induction Hls as [|p l ps ls (_ & _ & Hd) _ IH].
    + split; [by intros (l & ?%elem_of_nil & _)|by intros ?%Exists_nil].
    + rewrite Exists_cons, <- IH, <- (Hd n). setoid_rewrite elem_of_cons. split.
      * intros (l' & [->|Hl] & Hn); eauto.
      * intros [Hn|(l' & Hl & Hn)]; eauto.
Qed.

Lemma field_print_err parts min max :
  parts <> [] -> Forall part_u32 parts -> ~ Forall (part_ok min max) parts ->
  is_ok (field (print_field parts) min max) = false.
Proof.
  intros Hne Hu Hbad. destruct (field _ _ _) as [vs|e] eqn:Hf; [|done].
  exfalso. apply Hbad. apply field_ok in Hf as (ls & Hls & _). rewrite split_fields in Hls by done.
  clear Hne Hbad. revert ls Hls. induction parts as [|p parts IH]; intros ls Hls; [constructor|].
  apply Forall_cons in Hu as [Hp Hu]. simpl in Hls. apply Forall2_cons_inv_l in Hls as (l & ls' & Hl & Hls & ->).
  constructor; [|by eapply IH]. destruct (part_ok_dec min max p) as [|Hn]; [done|].
  rewrite field_part_print_err in Hl; done.
Qed.

(** A cron field means what it says: whatever text is accepted yields a
    non-empty, strictly ascending list of values within the field's range; a
    field written from parts (wildcards, ranges, steps, single numbers) is
    accepted exactly when every part lies within the range with a non-zero
    step, and its values are then exactly those some part stands for. *)
Theorem cron_field_is_exact (min max : Z) :
  (forall s vs, field s min max = Ok vs ->
     vs <> [] /\ StronglySorted Z.lt vs /\ Forall (fun n => min <= n <= max) vs)
  /\ (forall parts, parts <> [] -> Forall part_u32 parts ->
        (is_ok (field (print_field parts) min max) = true <-> Forall (part_ok min max) parts)
        /\ forall vs, field (print_field parts) min max = Ok vs ->
             forall n, n ∈ vs <-> Exists (denotes min max n) parts).
Proof.
  split; [intros s vs; apply field_values|]. intros parts Hne Hu.
  assert (Forall (part_ok min max) parts \/ ~ Forall (part_ok min max) parts) as [Hok|Hbad].
  { clear. induction parts as [|p parts [IH|IH]]; [by left| |].
    - destruct (part_ok_dec min max p); [left; by constructor|right; by intros [? ?]%Forall_cons].
    - right. by intros [? ?]%Forall_cons. }
  - destruct (field_print_ok parts min max Hne Hu Hok) as (vs & Hf & Hd). rewrite Hf.
    split; [done|]. by intros vs' [= <-].
  - pose proof (field_print_err parts min max Hne Hu Hbad) as Hf.
    split; [by rewrite Hf|]. intros vs Hv. by rewrite Hv in Hf.
Qed.
