(* ===== verification/Schedule.v ===== *)
(** * Automation schedules

    src/src/automation_schedule.rs: compilation of a schedule and the bounded
    search for its occurrences.  Instants and wall times are milliseconds from
    the epoch; a wall time is the number of milliseconds its calendar reading is
    away from 1970-01-01 00:00. *)
From stdpp Require Import base list numbers sorting strings.
From Stdlib Require Import ZArith Lia Sorted.
From S2P Require Import Prelude RustStr Cron.

Open Scope Z_scope.
Open Scope rust_scope.

Inductive ScheduleKind :=
| Once (at_ms : Z)
| Hourly (minute : Z)
| Daily (hour minute : Z)
| Weekly (weekday hour minute : Z)
| Cron (expression : string).

Record ScheduleSpec := mkScheduleSpec { timezone : string; kind : ScheduleKind }.
Record Occurrence := mkOccurrence { scheduled_at_ms : Z; local_label : string }.
Record MissedWindow := mkMissedWindow { after_ms : Z; through_ms : Z }.
Record CatchUp := mkCatchUp {
  latest_due : option Occurrence;
  missed_window : option MissedWindow;
  next : option Occurrence;
}.

Definition MAX_TIMESTAMP_MS : Z := 9007199254740991.
Definition DAY_MS : Z := 86400000.
Definition SEARCH_DAYS : nat := Eval cbv in Z.to_nat (8 * 366 + 4).
Definition GAP_MINUTES : nat := Eval cbv in Z.to_nat (48 * 60 + 1).

Section Schedules.
Context `{CH : Chrono}.

Record CompiledSchedule := mkCompiledSchedule {
  zone : Tz;
  once : option Z;
  calendar : Calendar;
}.

(** The date of a wall time. *)
Definition date_of (wall : Z) : Z := wall / DAY_MS.

(** [NaiveDateTime::checked_add_signed]. *)
Definition naive_checked_add (wall ms : Z) : option Z :=
  if date_in_range (date_of (wall + ms)) then Some (wall + ms) else None.

Definition timestamp (ms : Z) : result ScheduleError Z :=
  fail? MAX_TIMESTAMP_MS <? ms with InvalidTimestamp in
  fail? negb (utc_in_range ms) with InvalidTimestamp in
  Ok ms.

Definition local_datetime (z : Tz) (ms : Z) : result ScheduleError Z :=
  let? utc := timestamp ms in
  ok_or (naive_checked_add utc (local_minus_utc z utc * 1000)) InvalidTimestamp.

Definition kind_expression (z : Tz) (k : ScheduleKind) : result ScheduleError string :=
  match k with
  | Once at_ms => let? _ := local_datetime z at_ms in Ok "* * * * *"
  | Hourly minute =>
      if minute <? 60 then Ok (decimal minute +:+ " * * * *") else Err InvalidSchedule
  | Daily hour minute =>
      if (hour <? 24) && (minute <? 60)
      then Ok (decimal minute +:+ " " +:+ decimal hour +:+ " * * *") else Err InvalidSchedule
  | Weekly weekday hour minute =>
      if (weekday <? 7) && (hour <? 24) && (minute <? 60)
      then Ok (decimal minute +:+ " " +:+ decimal hour +:+ " * * " +:+ decimal weekday)
      else Err InvalidSchedule
  | Cron expression => Ok expression
  end.

Definition CompiledSchedule_new (spec : ScheduleSpec) : result ScheduleError CompiledSchedule :=
  fail? is_empty (timezone spec) || (64 <? slen (timezone spec)) with InvalidSchedule in
  match tz_parse (timezone spec) with
  | None => Err InvalidSchedule
  | Some z =>
      fail? negb (bool_decide (tz_name z = timezone spec)) with InvalidSchedule in
      let? expression := kind_expression z (kind spec) in
      let? c := Calendar_parse expression in
      Ok (mkCompiledSchedule z (match kind spec with Once at_ms => Some at_ms | _ => None end) c)
  end.

Definition occurrence (s : CompiledSchedule) (ms : Z) : result ScheduleError Occurrence :=
  let? _ := local_datetime (zone s) ms in
  let? utc := timestamp ms in
  Ok (mkOccurrence ms (to_rfc3339 (zone s) utc)).

(** The instant of a local reading: the earlier one of a fold, none in a gap. *)
Definition earliest (z : Tz) (wall : Z) : option Z :=
  match from_local_datetime z wall with
  | Single t => Some t
  | Ambiguous a b => Some (Z.min a b)
  | LocalNone => None
  end.

Fixpoint resolve_from (fuel : nat) (z : Tz) (wall : Z) : result ScheduleError (option Z) :=
  match fuel with
  | O => Err TimezoneGap
  | S fuel' =>
      match earliest z wall with
      | Some ms => Ok (if (0 <=? ms) && (ms <=? MAX_TIMESTAMP_MS) then Some ms else None)
      | None =>
          match naive_checked_add wall 60000 with
          | None => Ok None
          | Some next => resolve_from fuel' z next
          end
      end
  end.
Definition resolve (z : Tz) (wall : Z) : result ScheduleError (option Z) := resolve_from GAP_MINUTES z wall.

(** [NaiveDate::and_hms_opt] with zero seconds. *)
Definition and_hms_opt (day hour minute : Z) : option Z :=
  if (hour <? 24) && (minute <? 60) then Some (day * DAY_MS + hour * 3600000 + minute * 60000) else None.

Definition in_window (reverse : bool) (bound ms : Z) : bool :=
  (reverse && (ms <=? bound)) || (negb reverse && (bound <? ms)).

Definition better (reverse : bool) (best : option Z) (ms : Z) : Z :=
  match best with
  | Some old => if reverse then Z.max old ms else Z.min old ms
  | None => ms
  end.

(** The two nested loops over hours and minutes of one day. *)
Fixpoint scan_day (s : CompiledSchedule) (reverse : bool) (bound day : Z) (times : list (Z * Z))
    (best : option Z) : result ScheduleError (option Z) :=
  match times with
  | [] => Ok best
  | (hour, minute) :: rest =>
      match and_hms_opt day hour minute with
      | None => scan_day s reverse bound day rest best
      | Some wall =>
          let? resolved := resolve (zone s) wall in
          scan_day s reverse bound day rest
            (match resolved with
             | Some ms => if in_window reverse bound ms then Some (better reverse best ms) else best
             | None => best
             end)
      end
  end.

Definition times_of (c : Calendar) : list (Z * Z) :=
  concat (map (fun hour => map (fun minute => (hour, minute)) (minutes c)) (hours c)).

Fixpoint find_days (fuel : nat) (s : CompiledSchedule) (reverse : bool) (bound day : Z)
    (best : option Z) (remaining : option Z) : result ScheduleError (option Z) :=
  match fuel with
  | O => Ok best
  | S fuel' =>
      let? best :=
        (if matches (calendar s) day
         then scan_day s reverse bound day (times_of (calendar s)) best else Ok best) in
      let advance remaining :=
        match checked_add_days day (if reverse then -1 else 1) with
        | None => Ok best
        | Some next => find_days fuel' s reverse bound next best remaining
        end in
      match best with
      | Some _ =>
          let n := default 2 remaining in
          if n =? 0 then Ok best else advance (Some (n - 1))
      | None => advance remaining
      end
  end.

Definition find (s : CompiledSchedule) (bound : Z) (reverse : bool)
    : result ScheduleError (option Occurrence) :=
  match once s with
  | Some ms =>
      if in_window reverse bound ms
      then let? o := occurrence s ms in Ok (Some o)
      else Ok None
  | None =>
      let? wall := local_datetime (zone s) bound in
      let local := date_of wall in
      let day := if reverse then local else default local (checked_add_days local (-2)) in
      let? best := find_days SEARCH_DAYS s reverse bound day None None in
      match best with
      | Some ms => let? o := occurrence s ms in Ok (Some o)
      | None => Ok None
      end
  end.

Definition next_after (s : CompiledSchedule) (after : Z) : result ScheduleError (option Occurrence) :=
  let? _ := timestamp after in
  find s after false.

Fixpoint preview_from (count : nat) (s : CompiledSchedule) (after : Z)
    : result ScheduleError (list Occurrence) :=
  match count with
  | O => Ok []
  | S count' =>
      let? found := next_after s after in
      match found with
      | None => Ok []
      | Some item => let? rest := preview_from count' s (scheduled_at_ms item) in Ok (item :: rest)
      end
  end.

Definition preview (s : CompiledSchedule) (after count : Z) : result ScheduleError (list Occurrence) :=
  fail? negb ((1 <=? count) && (count <=? 50)) with InvalidCount in
  let? _ := timestamp after in
  preview_from (Z.to_nat count) s after.

(** [Option::filter] on [scheduled_at_ms > from]. *)
Definition later_than (from : Z) (o : option Occurrence) : option Occurrence :=
  match o with
  | Some x => if from <? scheduled_at_ms x then Some x else None
  | None => None
  end.

Definition catch_up (s : CompiledSchedule) (from_exclusive now : Z) : result ScheduleError CatchUp :=
  let? _ := timestamp from_exclusive in
  let? _ := timestamp now in
  fail? now <? from_exclusive with InvalidInterval in
  let? found := find s now true in
  let latest := later_than from_exclusive found in
  let? previous :=
    match latest with
    | Some o =>
        if 0 <? scheduled_at_ms o
        then let? p := find s (scheduled_at_ms o - 1) true in Ok (later_than from_exclusive p)
        else Ok None
    | None => Ok None
    end in
  let? following := next_after s now in
  Ok (mkCatchUp latest
        (match previous with
         | Some o => Some (mkMissedWindow from_exclusive (scheduled_at_ms o))
         | None => None
         end)
        following).
End Schedules.
