(* ===== verification/ScheduleProps.v ===== *)
(** * Correctness of the schedule search

    What the occurrences of a schedule are, independently of any search, and
    that the bounded day-by-day search of src/src/automation_schedule.rs finds
    exactly the next, the previous and the missed ones. *)
From stdpp Require Import base list numbers sorting strings.
From Stdlib Require Import ZArith Lia Sorted Ascii.
From S2P Require Import Prelude RustStr Cron Schedule.

Open Scope Z_scope.
Open Scope rust_scope.

(** [o] is the best element of [P]: the greatest when searching backwards, the
    least when searching forwards; none when [P] is empty. *)
Definition optimum (reverse : bool) (P : Z -> Prop) (o : option Z) : Prop :=
  match o with
  | Some b => P b /\ forall x, P x -> if reverse then x <= b else b <= x
  | None => forall x, ~ P x
  end.

Section Search.
Context `{CL : ChronoLaws}.

(** ** Occurrences *)

(** A wall time the calendar asks for. *)
Definition planned (c : Calendar) (day wall : Z) : Prop :=
  date_in_range day = true /\ matches c day = true
  /\ exists h m, h ∈ hours c /\ m ∈ minutes c /\ and_hms_opt day h m = Some wall.

(** The instants at which a schedule is due. *)
Definition occurs (s : CompiledSchedule) (ms : Z) : Prop :=
  match once s with
  | Some at_ms => ms = at_ms
  | None => exists day wall, planned (calendar s) day wall /\ resolve (zone s) wall = Ok (Some ms)
  end.

(** What is relied on of a time zone: an instant is one of the instants of its
    local reading, readings resolve to instants that have this reading, later
    readings never resolve to earlier instants, and no gap exceeds 48 hours. *)
Record zone_ok (z : Tz) : Prop := {
  zo_round : forall t, utc_in_range t = true ->
    match from_local_datetime z (t + local_minus_utc z t * 1000) with
    | Single t' => t' = t
    | Ambiguous a b => t = a \/ t = b
    | LocalNone => False
    end;
  zo_sound : forall v t, date_in_range (date_of v) = true -> earliest z v = Some t ->
    utc_in_range t = true /\ t + local_minus_utc z t * 1000 = v;
  zo_mono : forall v1 v2 t1 t2, v1 <= v2 ->
    earliest z v1 = Some t1 -> earliest z v2 = Some t2 -> t1 <= t2;
  zo_gap : forall v, exists k : nat, (k < GAP_MINUTES)%nat /\ is_Some (earliest z (v + 60000 * Z.of_nat k));
}.

(** Clocks are never turned back over midnight. *)
Definition midnight_ok (z : Tz) : Prop :=
  forall t v e, date_of (t + local_minus_utc z t * 1000) < date_of v ->
    earliest z v = Some e -> t < e.

(** What [CompiledSchedule_new] guarantees of its result. *)
Definition sched_ok (s : CompiledSchedule) : Prop :=
  (forall t, once s = Some t -> 0 <= t /\ exists L, local_datetime (zone s) t = Ok L)
  /\ Forall (fun h => 0 <= h) (hours (calendar s)) /\ Forall (fun m => 0 <= m) (minutes (calendar s)).

(** ** Resolution of wall times *)
Lemma resolve_from_ok fuel z wall t :
  resolve_from fuel z wall = Ok (Some t) ->
  0 <= t <= MAX_TIMESTAMP_MS
  /\ exists k : nat, (k < fuel)%nat /\ earliest z (wall + 60000 * Z.of_nat k) = Some t
       /\ (forall j : nat, (j < k)%nat -> earliest z (wall + 60000 * Z.of_nat j) = None)
       /\ (date_in_range (date_of wall) = true -> date_in_range (date_of (wall + 60000 * Z.of_nat k)) = true).
Proof.
  revert wall. induction fuel as [|fuel IH]; intros wall Hr; [done|]. cbn [resolve_from] in Hr.
  destruct (earliest z wall) as [ms|] eqn:He.
  - destruct ((0 <=? ms) && (ms <=? MAX_TIMESTAMP_MS)) eqn:Hb; [|done]. injection Hr as <-. bools.
    split; [done|]. exists 0%nat. rewrite Z.add_0_r. split; [lia|]. split; [done|]. split; [intros; lia|done].
  - unfold naive_checked_add in Hr. destruct (date_in_range (date_of (wall + 60000))) eqn:Hd; [|done].
    apply IH in Hr as (Hb & k & Hk & Hek & Hbefore & Hrange). split; [done|]. exists (S k).
    replace (wall + 60000 * Z.of_nat (S k)) with (wall + 60000 + 60000 * Z.of_nat k) by lia.
    split; [lia|]. split; [done|]. split; [|by intros _; apply Hrange].
    intros [|j] Hj; [by rewrite Z.add_0_r|]. rewrite <- (Hbefore j) by lia. f_equal. lia.
Qed.

(** Later wall times on the minute grid never resolve to earlier instants. *)
Lemma resolve_mono z w1 w2 t1 t2 :
  zone_ok z -> w1 <= w2 -> (w2 - w1) mod 60000 = 0 ->
  resolve z w1 = Ok (Some t1) -> resolve z w2 = Ok (Some t2) -> t1 <= t2.
Proof.
  intros Hz Hle Hgrid (_ & k1 & _ & H1 & Hb1 & _)%resolve_from_ok (_ & k2 & _ & H2 & _)%resolve_from_ok.
  destruct (Z.le_gt_cases (w1 + 60000 * Z.of_nat k1) (w2 + 60000 * Z.of_nat k2)) as [Hv|Hv].
  - by eapply (zo_mono z Hz).
  - exfalso. apply Z.div_exact in Hgrid; [|lia]. set (q := (w2 - w1) / 60000) in *.
    specialize (Hb1 (Z.to_nat (q + Z.of_nat k2))).
    rewrite Z2Nat.id in Hb1 by lia. replace (w1 + 60000 * (q + Z.of_nat k2)) with (w2 + 60000 * Z.of_nat k2) in Hb1 by lia.
    rewrite Hb1 in H2; [done|lia].
Qed.

Lemma resolve_total z wall : zone_ok z -> is_ok (resolve z wall) = true.
Proof.
  intros Hz. destruct (zo_gap z Hz wall) as (k & Hk & Hs). unfold resolve. revert Hk Hs.
  generalize GAP_MINUTES as fuel. intros fuel. revert wall k.
  induction fuel as [|fuel IH]; intros wall k Hk Hs; [lia|]. cbn [resolve_from].
  destruct (earliest z wall) eqn:He; [done|]. unfold naive_checked_add.
  destruct (date_in_range _); [|done]. destruct k as [|k].
  - rewrite Z.add_0_r, He in Hs. by destruct Hs.
  - apply (IH _ k); [lia|]. replace (wall + 60000 + 60000 * Z.of_nat k) with (wall + 60000 * Z.of_nat (S k)) by lia.
    done.
Qed.

(** A planned wall time lies within its day, on the minute grid. *)
Definition clock_ok (c : Calendar) : Prop :=
  Forall (fun h => 0 <= h) (hours c) /\ Forall (fun m => 0 <= m) (minutes c).

Lemma and_hms_wall day h m wall :
  0 <= h -> 0 <= m -> and_hms_opt day h m = Some wall ->
  day * DAY_MS <= wall < (day + 1) * DAY_MS /\ wall mod 60000 = 0.
Proof.
  intros Hh Hm. unfold and_hms_opt, DAY_MS. destruct ((h <? 24) && (m <? 60)) eqn:Hb; [|done]. bools.
  intros [= <-]. split; [lia|].
  replace (day * 86400000 + h * 3600000 + m * 60000) with ((day * 1440 + h * 60 + m) * 60000) by lia.
  by apply Z.mod_mul.
Qed.

Lemma planned_wall c day wall :
  clock_ok c -> planned c day wall ->
  day * DAY_MS <= wall < (day + 1) * DAY_MS /\ wall mod 60000 = 0.
Proof.
  intros [Hh Hm] (_ & _ & h & m & Hin & Him & Hw). rewrite Forall_forall in Hh, Hm.
  apply (and_hms_wall day h m); auto.
Qed.

Lemma planned_mono s d1 d2 w1 w2 t1 t2 :
  zone_ok (zone s) -> clock_ok (calendar s) -> d1 < d2 ->
  planned (calendar s) d1 w1 -> planned (calendar s) d2 w2 ->
  resolve (zone s) w1 = Ok (Some t1) -> resolve (zone s) w2 = Ok (Some t2) -> t1 <= t2.
Proof.
  intros Hz Hc Hd Hp1 Hp2. apply planned_wall in Hp1 as [Hw1 Hg1], Hp2 as [Hw2 Hg2]; [|done..].
  apply resolve_mono; [done|unfold DAY_MS in *; lia|].
  rewrite Zminus_mod, Hg1, Hg2. done.
Qed.

(** ** One day *)
Lemma optimum_iff rev (P Q : Z -> Prop) o : (forall x, P x <-> Q x) -> optimum rev P o <-> optimum rev Q o.
Proof. intros HPQ. destruct o; simpl; setoid_rewrite HPQ; done. Qed.

Lemma optimum_add rev (P : Z -> Prop) o ms :
  optimum rev P o -> optimum rev (fun x => P x \/ x = ms) (Some (better rev o ms)).
Proof.
  destruct o as [b|]; simpl.
  - intros [Hb Hbest]. destruct rev; simpl.
    + split; [destruct (Z.max_spec b ms) as [[_ ->]|[_ ->]]; auto|].
      intros x [Hx%Hbest| ->]; lia.
    + split; [destruct (Z.min_spec b ms) as [[_ ->]|[_ ->]]; auto|].
      intros x [Hx%Hbest| ->]; lia.
  - intros Hnone. split; [by right|]. intros x [Hx| ->]; [by apply Hnone in Hx|]. destruct rev; lia.
Qed.

Definition candidate (s : CompiledSchedule) (rev : bool) (bound day : Z) (times : list (Z * Z)) (ms : Z) : Prop :=
  exists h m wall, (h, m) ∈ times /\ and_hms_opt day h m = Some wall
    /\ resolve (zone s) wall = Ok (Some ms) /\ in_window rev bound ms = true.

Lemma candidate_cons s rev bound day h m times ms :
  candidate s rev bound day ((h, m) :: times) ms <->
  candidate s rev bound day times ms
  \/ exists wall, and_hms_opt day h m = Some wall /\ resolve (zone s) wall = Ok (Some ms)
       /\ in_window rev bound ms = true.
Proof.
  unfold candidate. split.
  - intros (h' & m' & wall & [[= -> ->]|Hin]%elem_of_cons & Hw); [right|left]; eauto 10.
  - intros [(h' & m' & wall & Hin & Hw)|(wall & Hw)].
    + exists h', m', wall. split; [by right|done].
    + exists h, m, wall. split; [by left|done].
Qed.

Lemma scan_day_optimum s rev bound day times (P : Z -> Prop) best :
  zone_ok (zone s) -> optimum rev P best ->
  exists best', scan_day s rev bound day times best = Ok best'
    /\ optimum rev (fun x => P x \/ candidate s rev bound day times x) best'.
Proof.
  intros Hz. revert P best. induction times as [|[h m] times IH]; intros P best Hopt; cbn [scan_day].
  - exists best. split; [done|]. eapply optimum_iff; [|exact Hopt]. intros x. split; [|auto].
    intros [?|(h & m & w & ?%elem_of_nil & _)]; done.
  - destruct (and_hms_opt day h m) as [wall|] eqn:Hw.
    2:{ destruct (IH P best Hopt) as (best' & -> & Ho). exists best'. split; [done|].
        eapply optimum_iff; [|exact Ho]. intros x. rewrite candidate_cons, Hw.
        split; [intros [?|[?|(w & ? & _)]]; auto; done|intros [?|?]; auto]. }
    destruct (resolve (zone s) wall) as [r|e] eqn:Hr;
      [|pose proof (resolve_total (zone s) wall Hz) as Ht; by rewrite Hr in Ht].
    assert (optimum rev (fun x => P x \/ (r = Some x /\ in_window rev bound x = true))
      match r with
      | Some ms => if in_window rev bound ms then Some (better rev best ms) else best
      | None => best end) as Hstep.
    { destruct r as [ms|]; [destruct (in_window rev bound ms) eqn:Hin|].
      - eapply optimum_iff; [|by apply optimum_add]. intros x. simpl. split.
        + intros [?|[[= ->] _]]; auto.
        + intros [?| ->]; auto.
      - eapply optimum_iff; [|exact Hopt]. intros x. split; [|auto]. intros [?|[[= ->] ?]]; [done|congruence].
      - eapply optimum_iff; [|exact Hopt]. intros x. split; [|auto]. intros [?|[? _]]; done. }
    destruct (IH _ _ Hstep) as (best' & -> & Ho). exists best'. split; [done|].
    eapply optimum_iff; [|exact Ho]. intros x. rewrite candidate_cons, Hw. split.
    + intros [?|[?|(w & [= <-] & Hx & ?)]]; auto. left; right. rewrite Hr in Hx. by injection Hx as ->.
    + intros [[?|[-> ?]]|?]; auto. right; right. exists wall. auto.
Qed.

(** ** Day by day *)
Definition dir (rev : bool) : Z := if rev then -1 else 1.

Definition due_on (s : CompiledSchedule) (rev : bool) (bound day ms : Z) : Prop :=
  exists wall, planned (calendar s) day wall /\ resolve (zone s) wall = Ok (Some ms)
    /\ in_window rev bound ms = true.

Lemma elem_of_times c h m : (h, m) ∈ times_of c <-> h ∈ hours c /\ m ∈ minutes c.
Proof.
  unfold times_of. rewrite elem_of_concat. split.
  - intros (l & (h' & -> & Hh)%list_elem_of_fmap & (m' & [= -> ->] & Hm)%list_elem_of_fmap). done.
  - intros [Hh Hm]. exists (map (fun m => (h, m)) (minutes c)).
    split; apply list_elem_of_fmap; eauto.
Qed.

Lemma due_on_candidate s rev bound day x :
  date_in_range day = true ->
  due_on s rev bound day x <->
  matches (calendar s) day = true /\ candidate s rev bound day (times_of (calendar s)) x.
Proof.
  intros Hd. unfold due_on, candidate, planned. split.
  - intros (w & (_ & Hm & h & m & Hh & Hmi & Hw) & Hr). split; [done|]. exists h, m, w.
    by rewrite elem_of_times.
  - intros (Hm & h & m & w & [Hh Hmi]%elem_of_times & Hw & Hr). exists w. eauto 10.
Qed.

Lemma scan_matching s rev bound day (P : Z -> Prop) best :
  zone_ok (zone s) -> date_in_range day = true -> optimum rev P best ->
  exists best', (if matches (calendar s) day
                 then scan_day s rev bound day (times_of (calendar s)) best else Ok best) = Ok best'
    /\ optimum rev (fun x => P x \/ due_on s rev bound day x) best'.
Proof.
  intros Hz Hd Hopt. destruct (matches (calendar s) day) eqn:Hm.
  - destruct (scan_day_optimum s rev bound day (times_of (calendar s)) P best Hz Hopt) as (best' & -> & Ho).
    exists best'. split; [done|]. eapply optimum_iff; [|exact Ho]. intros x.
    rewrite due_on_candidate by done. rewrite Hm. tauto.
  - exists best. split; [done|]. eapply optimum_iff; [|exact Hopt]. intros x.
    rewrite due_on_candidate by done. rewrite Hm. split; [|auto]. intros [?|[? _]]; done.
Qed.

Lemma visited_zero s rev bound day (P : Z -> Prop) x :
  P x <-> P x \/ exists i : nat, (i < 0)%nat /\ due_on s rev bound (day + dir rev * Z.of_nat i) x.
Proof. split; [auto|]. intros [?|(i & ? & _)]; [done|lia]. Qed.

Lemma visited_succ s rev bound day (P : Z -> Prop) n x :
  (P x \/ due_on s rev bound day x)
  \/ (exists i : nat, (i < n)%nat /\ due_on s rev bound (day + dir rev + dir rev * Z.of_nat i) x) <->
  P x \/ exists i : nat, (i < S n)%nat /\ due_on s rev bound (day + dir rev * Z.of_nat i) x.
Proof.
  split.
  - intros [[?|H0]|(i & Hi & Hx)]; [by left| |]; right.
    + exists 0%nat. rewrite Z.mul_0_r, Z.add_0_r. split; [lia|done].
    + exists (S i). split; [lia|]. by replace (day + dir rev * Z.of_nat (S i))
        with (day + dir rev + dir rev * Z.of_nat i) by lia.
  - intros [?|(i & Hi & Hx)]; [auto|]. destruct i as [|i].
    + rewrite Z.mul_0_r, Z.add_0_r in Hx. auto.
    + right. exists i. split; [lia|]. by replace (day + dir rev + dir rev * Z.of_nat i)
        with (day + dir rev * Z.of_nat (S i)) by lia.
Qed.

Lemma find_days_optimum fuel s rev bound day best remaining (P : Z -> Prop) :
  zone_ok (zone s) -> date_in_range day = true -> optimum rev P best ->
  exists r n, find_days fuel s rev bound day best remaining = Ok r /\ (n <= fuel)%nat
    /\ optimum rev (fun x => P x \/ exists i : nat, (i < n)%nat /\ due_on s rev bound (day + dir rev * Z.of_nat i) x) r
    /\ (r = None -> n = fuel \/ date_in_range (day + dir rev * Z.of_nat n) = false).
Proof.
  intros Hz. revert day best remaining P.
  induction fuel as [|fuel IH]; intros day best remaining P Hd Hopt.
  { exists best, 0%nat. split; [done|]. split; [lia|]. split; [|auto].
    eapply optimum_iff; [|exact Hopt]. intros x. symmetry. apply visited_zero. }
  cbn [find_days]. destruct (scan_matching s rev bound day P best Hz Hd Hopt) as (b1 & -> & Ho).
  assert (optimum rev (fun x => P x \/ exists i : nat, (i < 1)%nat
            /\ due_on s rev bound (day + dir rev * Z.of_nat i) x) b1) as Hone.
  { eapply optimum_iff; [|exact Ho]. intros x. rewrite <- visited_succ. symmetry.
    apply (visited_zero s rev bound (day + dir rev) (fun x => P x \/ due_on s rev bound day x)). }
  assert (forall rem, exists r n,
    match checked_add_days day (if rev then -1 else 1) with
    | None => Ok b1
    | Some next => find_days fuel s rev bound next b1 rem
    end = Ok r /\ (n <= S fuel)%nat
    /\ optimum rev (fun x => P x \/ exists i : nat, (i < n)%nat /\ due_on s rev bound (day + dir rev * Z.of_nat i) x) r
    /\ (r = None -> n = S fuel \/ date_in_range (day + dir rev * Z.of_nat n) = false)) as Hnext.
  { intros rem. unfold checked_add_days. change (if rev then -1 else 1) with (dir rev).
    destruct (date_in_range (day + dir rev)) eqn:Hd'.
    - destruct (IH _ b1 rem _ Hd' Ho) as (r & n & -> & Hn & Hr & Hnone). exists r, (S n).
      split; [done|]. split; [lia|]. split.
      + eapply optimum_iff; [|exact Hr]. intros x. symmetry. apply visited_succ.
      + intros Hx. destruct (Hnone Hx) as [->|Hout]; [by left|right].
        by replace (day + dir rev * Z.of_nat (S n)) with (day + dir rev + dir rev * Z.of_nat n) by lia.
    - exists b1, 1%nat. split; [done|]. split; [lia|]. split; [done|]. intros _. right. by rewrite Z.mul_1_r. }
  destruct b1 as [b|]; [|apply Hnext].
  destruct (default 2 remaining =? 0); [|apply Hnext].
  exists (Some b), 1%nat. split; [done|]. split; [lia|]. split; [done|]. discriminate.
Qed.

(** ** Bounds between instants and days *)
(** Eight years, with days to spare: eight calendar years have at most 2922 days.  The
    search looks at 8 * 366 + 4 days, two of them before the local date of its
    bound and one taken by the offsets of the zone, which may differ by two days. *)
Definition HORIZON_MS : Z := 2927 * DAY_MS.

Lemma date_bounds w : date_of w * DAY_MS <= w < (date_of w + 1) * DAY_MS.
Proof.
  unfold date_of, DAY_MS. pose proof (Z.div_mod w 86400000 ltac:(lia)).
  pose proof (Z.mod_pos_bound w 86400000 ltac:(lia)). lia.
Qed.

Lemma local_datetime_ok z ms L :
  local_datetime z ms = Ok L <->
  ms <= MAX_TIMESTAMP_MS /\ utc_in_range ms = true /\ L = ms + local_minus_utc z ms * 1000
  /\ date_in_range (date_of L) = true.
Proof.
  unfold local_datetime, timestamp. destruct (Z.ltb_spec MAX_TIMESTAMP_MS ms); [split; [done|lia]|].
  destruct (utc_in_range ms); simpl; [|split; [done|by intros (_ & ? & _)]].
  unfold naive_checked_add, ok_or. destruct (date_in_range _) eqn:Hd; split; intros H1.
  - by injection H1 as <-.
  - by destruct H1 as (_ & _ & -> & _).
  - done.
  - destruct H1 as (_ & _ & -> & ?). congruence.
Qed.

Section Schedule.
Variable s : CompiledSchedule.
Hypothesis Hsched : sched_ok s.
Hypothesis Hzone : zone_ok (zone s).

Lemma clock : clock_ok (calendar s).
Proof. exact (proj2 Hsched). Qed.

(** The instant of a planned wall time is near it, and has a label. *)
Lemma planned_near day wall t :
  planned (calendar s) day wall -> resolve (zone s) wall = Ok (Some t) ->
  wall - DAY_MS <= t <= wall + 3 * DAY_MS
  /\ exists v, wall <= v <= wall + 2 * DAY_MS /\ earliest (zone s) v = Some t
       /\ local_datetime (zone s) t = Ok v /\ 0 <= t.
Proof.
  intros Hp Hr. pose proof (planned_wall _ _ _ clock Hp) as [Hw _]. destruct Hp as (Hd & _).
  apply resolve_from_ok in Hr as ([H0 Hmax] & k & Hk & He & _ & Hrange).
  assert (date_of wall = day) as Hday by (pose proof (date_bounds wall); unfold DAY_MS in *; lia).
  rewrite Hday in Hrange. destruct (zo_sound _ Hzone _ _ (Hrange Hd) He) as [Hu Hv].
  pose proof (offset_range (zone s) t). unfold GAP_MINUTES in Hk.
  split; [unfold DAY_MS in *; lia|]. exists (wall + 60000 * Z.of_nat k).
  split; [unfold DAY_MS in *; lia|]. split; [done|]. split; [|done].
  apply local_datetime_ok. auto.
Qed.

Lemma occurrence_ok t L :
  local_datetime (zone s) t = Ok L -> occurrence s t = Ok (mkOccurrence t (to_rfc3339 (zone s) t)).
Proof.
  intros HL. unfold occurrence. rewrite HL. apply local_datetime_ok in HL as (Hmax & Hu & _).
  unfold timestamp. destruct (Z.ltb_spec MAX_TIMESTAMP_MS t); [lia|]. by rewrite Hu.
Qed.

(** The reading of an instant resolves to that instant or an earlier one. *)
Lemma local_earliest t L :
  local_datetime (zone s) t = Ok L -> exists e, earliest (zone s) L = Some e /\ e <= t.
Proof.
  intros (_ & Hu & -> & _)%local_datetime_ok. pose proof (zo_round _ Hzone t Hu) as Hround.
  unfold earliest. destruct (from_local_datetime _ _) as [t'|a b|]; [|eexists; split; [done|lia]|done].
  exists t'. split; [done|lia].
Qed.

(** Days that are over at an instant hold no later occurrence. *)
Lemma past_days_done bound L day wall t :
  local_datetime (zone s) bound = Ok L -> planned (calendar s) day wall ->
  resolve (zone s) wall = Ok (Some t) -> day < date_of L - 2 -> t <= bound.
Proof.
  intros HL Hp Hr Hday. destruct (planned_near _ _ _ Hp Hr) as (_ & v & Hv & He & _).
  destruct (local_earliest _ _ HL) as (e & Hle & Hb).
  pose proof (planned_wall _ _ _ clock Hp) as [Hw _]. pose proof (date_bounds L).
  transitivity e; [|done]. apply (zo_mono _ Hzone v L t e); try done. unfold DAY_MS in *. lia.
Qed.

(** Days that have not begun hold no earlier occurrence. *)
Lemma future_days_wait bound L day wall t :
  midnight_ok (zone s) -> local_datetime (zone s) bound = Ok L -> planned (calendar s) day wall ->
  resolve (zone s) wall = Ok (Some t) -> date_of L < day -> bound < t.
Proof.
  intros Hmid HL Hp Hr Hday. destruct (planned_near _ _ _ Hp Hr) as (_ & v & Hv & He & _).
  pose proof (planned_wall _ _ _ clock Hp) as [Hw _].
  apply local_datetime_ok in HL as (_ & _ & -> & _). apply (Hmid bound v t); [|done].
  pose proof (date_bounds v). unfold DAY_MS in *. lia.
Qed.

(** ** The search *)
Definition start_day (rev : bool) (L : Z) : Z := if rev then date_of L else date_of L - 2.

Lemma start_day_eq (rev : bool) bound L :
  0 <= bound -> local_datetime (zone s) bound = Ok L ->
  (if rev then date_of L else default (date_of L) (checked_add_days (date_of L) (-2))) = start_day rev L
  /\ date_in_range (start_day rev L) = true.
Proof.
  intros H0 (_ & _ & -> & Hd)%local_datetime_ok. destruct rev; simpl; [done|].
  set (L := bound + _) in *. assert (date_in_range (date_of L - 2) = true) as Hin.
  { pose proof (offset_range (zone s) bound). pose proof (date_bounds L). pose proof date_min_before_epoch.
    unfold date_in_range in *. bools. apply andb_true_iff. subst L. unfold DAY_MS in *. lia. }
  unfold checked_add_days. by replace (date_of L + -2) with (date_of L - 2) by lia; rewrite Hin.
Qed.

(** The best of the days visited is the best of all days. *)
Lemma visited_is_all (rev : bool) bound L n b :
  (rev = true -> midnight_ok (zone s)) -> once s = None -> local_datetime (zone s) bound = Ok L ->
  optimum rev (fun x => exists i : nat, (i < n)%nat
                 /\ due_on s rev bound (start_day rev L + dir rev * Z.of_nat i) x) (Some b) ->
  optimum rev (fun x => occurs s x /\ in_window rev bound x = true) (Some b).
Proof.
  intros Hmid Honce HL [(i & Hi & wb & Hpb & Hrb & Hwb) Hbest]. split.
  { split; [|done]. unfold occurs. rewrite Honce. eauto. }
  intros x [Hx Hwin]. unfold occurs in Hx. rewrite Honce in Hx. destruct Hx as (day & wall & Hp & Hr).
  assert (due_on s rev bound day x) as Hdue by (exists wall; by split).
  destruct rev; unfold start_day, dir in *; unfold in_window in Hwin; simpl in Hwin; bools.
  - destruct (Z.le_gt_cases day (date_of L)) as [Hle|Hgt].
    2:{ pose proof (future_days_wait bound L day wall x (Hmid eq_refl) HL Hp Hr Hgt).
        apply orb_true_iff in Hwin as [?|?]; [bools; lia|done]. }
    destruct (Z.le_gt_cases (date_of L + -1 * Z.of_nat i) day) as [Hv|Hv].
    + apply Hbest. exists (Z.to_nat (date_of L - day)). split; [lia|].
      replace (date_of L + -1 * Z.of_nat (Z.to_nat (date_of L - day))) with day by lia. done.
    + eapply (planned_mono s day _ wall wb x b); eauto using clock.
  - destruct (Z.le_gt_cases (date_of L - 2) day) as [Hle|Hgt].
    2:{ pose proof (past_days_done bound L day wall x HL Hp Hr ltac:(lia)). bools. lia. }
    destruct (Z.le_gt_cases day (date_of L - 2 + 1 * Z.of_nat i)) as [Hv|Hv].
    + apply Hbest. exists (Z.to_nat (day - (date_of L - 2))). split; [lia|].
      replace (date_of L - 2 + 1 * Z.of_nat (Z.to_nat (day - (date_of L - 2)))) with day by lia. done.
    + eapply (planned_mono s _ day wb wall b x); eauto using clock.
Qed.

(** When nothing was found, the next one is more than eight years away. *)
Lemma visited_none (rev : bool) bound L n :
  (rev = true -> midnight_ok (zone s)) -> once s = None -> 0 <= bound -> local_datetime (zone s) bound = Ok L ->
  (n = SEARCH_DAYS \/ date_in_range (start_day rev L + dir rev * Z.of_nat n) = false) ->
  optimum rev (fun x => exists i : nat, (i < n)%nat
                 /\ due_on s rev bound (start_day rev L + dir rev * Z.of_nat i) x) None ->
  forall x, occurs s x -> in_window rev bound x = true -> HORIZON_MS < Z.abs (x - bound).
Proof.
  intros Hmid Honce H0 HL Hn Hnone x Hx Hwin. unfold occurs in Hx. rewrite Honce in Hx.
  destruct Hx as (day & wall & Hp & Hr).
  destruct (planned_near _ _ _ Hp Hr) as (Hnear & _). pose proof (planned_wall _ _ _ clock Hp) as [Hw _].
  pose proof (date_bounds L) as HbL. pose proof (offset_range (zone s) bound) as Hoff.
  destruct (start_day_eq rev bound L H0 HL) as [_ Hstart]. destruct Hp as (Hd & Hp).
  destruct (Z.le_gt_cases (Z.abs (x - bound)) HORIZON_MS) as [Hclose|]; [|done]. exfalso.
  assert (0 <= dir rev * (day - start_day rev L)) as Hside.
  { destruct rev; unfold start_day, dir, in_window in *; simpl in *.
    - destruct (Z.le_gt_cases day (date_of L)) as [|Hgt]; [lia|].
      pose proof (future_days_wait bound L day wall x (Hmid eq_refl) HL (conj Hd Hp) Hr Hgt).
      apply orb_true_iff in Hwin as [?|?]; [bools; lia|done].
    - destruct (Z.le_gt_cases (date_of L - 2) day) as [|Hgt]; [lia|].
      pose proof (past_days_done bound L day wall x HL (conj Hd Hp) Hr ltac:(lia)). bools. lia. }
  set (i := Z.to_nat (dir rev * (day - start_day rev L))).
  assert (start_day rev L + dir rev * Z.of_nat i = day) as Hi by (subst i; destruct rev; unfold dir in *; lia).
  apply (Hnone x). exists i. rewrite Hi. split; [|exists wall; by split].
  apply local_datetime_ok in HL as (_ & _ & HL & _).
  destruct Hn as [->|Hout].
  - unfold SEARCH_DAYS, HORIZON_MS in *. subst i. destruct rev; unfold start_day, dir, DAY_MS in *; lia.
  - unfold date_in_range in *. bools. apply andb_false_iff in Hout.
    destruct (decide (i < n)%nat) as [|Hge]; [done|]. exfalso.
    destruct rev; unfold dir in *; destruct Hout; bools; lia.
Qed.

(** What a search promises: the best occurrence on its side of the bound with
    its label, or none within eight years. *)
Definition found (rev : bool) (bound : Z) (r : option Occurrence) : Prop :=
  match r with
  | Some o => optimum rev (fun x => occurs s x /\ in_window rev bound x = true) (Some (scheduled_at_ms o))
              /\ local_label o = to_rfc3339 (zone s) (scheduled_at_ms o)
  | None => forall x, occurs s x -> in_window rev bound x = true -> HORIZON_MS < Z.abs (x - bound)
  end.

Lemma occurs_label x : occurs s x -> 0 <= x /\ exists L, local_datetime (zone s) x = Ok L.
Proof.
  unfold occurs. destruct (once s) as [t|] eqn:Ho; [intros ->; by apply Hsched|].
  intros (day & wall & Hp & Hr). destruct (planned_near _ _ _ Hp Hr) as (_ & v & _ & _ & HL & H0). eauto.
Qed.

Lemma find_exact (rev : bool) bound L :
  (rev = true -> midnight_ok (zone s)) -> 0 <= bound -> local_datetime (zone s) bound = Ok L ->
  exists r, find s bound rev = Ok r /\ found rev bound r.
Proof.
  intros Hmid H0 HL. unfold find. destruct (once s) as [t|] eqn:Ho.
  - destruct (in_window rev bound t) eqn:Hwin.
    + destruct (proj1 Hsched t Ho) as (_ & Lt & HLt). rewrite (occurrence_ok _ _ HLt). eexists. split; [done|].
      split; [|done]. simpl. unfold occurs. rewrite Ho. split; [done|]. intros x [-> _]. destruct rev; lia.
    + eexists. split; [done|]. intros x Hx Hw. unfold occurs in Hx. rewrite Ho in Hx. congruence.
  - rewrite HL. destruct (start_day_eq rev bound L H0 HL) as [-> Hd].
    destruct (find_days_optimum SEARCH_DAYS s rev bound (start_day rev L) None None (fun _ => False) Hzone Hd)
      as (r & n & -> & Hn & Hopt & Hnone); [by intros ? []|].
    eapply (optimum_iff rev _ (fun x => exists i : nat, (i < n)%nat
      /\ due_on s rev bound (start_day rev L + dir rev * Z.of_nat i) x)) in Hopt; [|intros x; tauto].
    destruct r as [b|].
    + apply (visited_is_all rev bound L n b) in Hopt; [|done..]. destruct Hopt as [[Hb Hwb] Hbest].
      destruct (occurs_label b Hb) as (_ & Lb & HLb). rewrite (occurrence_ok _ _ HLb).
      eexists. split; [done|]. split; [|done]. by split.
    + eexists. split; [done|]. exact (visited_none rev bound L n Hmid Ho H0 HL (Hnone eq_refl) Hopt).
Qed.

Lemma timestamp_ok ms : ms <= MAX_TIMESTAMP_MS -> utc_in_range ms = true -> timestamp ms = Ok ms.
Proof. intros Hm Hu. unfold timestamp. destruct (Z.ltb_spec MAX_TIMESTAMP_MS ms); [lia|]. by rewrite Hu. Qed.

Lemma next_after_exact after L :
  0 <= after -> local_datetime (zone s) after = Ok L ->
  exists r, next_after s after = Ok r /\ found false after r.
Proof.
  intros H0 HL. pose proof HL as (Hm & Hu & _)%local_datetime_ok. unfold next_after.
  rewrite timestamp_ok by done. by apply (find_exact false after L).
Qed.

(** ** Previews *)
Definition instants (l : list Occurrence) : list Z := map scheduled_at_ms l.
Definition last_instant (after : Z) (l : list Occurrence) : Z := default after (last (instants l)).

Lemma preview_from_exact count after L :
  0 <= after -> local_datetime (zone s) after = Ok L ->
  exists l, preview_from count s after = Ok l /\ (length l <= count)%nat
    /\ StronglySorted Z.lt (after :: instants l)
    /\ Forall (occurs s) (instants l)
    /\ forall x, occurs s x -> after < x -> x ∉ instants l ->
         last_instant after l < x
         /\ (length l = count \/ HORIZON_MS < x - last_instant after l).
Proof.
  revert after L. induction count as [|count IH]; intros after L H0 HL.
  { exists []. split; [done|]. split; [done|]. split; [repeat constructor|]. split; [constructor|].
    intros x _ Hx _. split; [done|by left]. }
  cbn [preview_from]. destruct (next_after_exact after L H0 HL) as (r & -> & Hfound).
  destruct r as [o|].
  - destruct Hfound as [[[Ho Hwin] Hbest] _]. unfold in_window in *. simpl in Hwin. bools.
    destruct (occurs_label _ Ho) as (Ho0 & Lo & HLo).
    destruct (IH _ _ Ho0 HLo) as (l & -> & Hlen & Hsort & Hall & Hrest). exists (o :: l). split; [done|].
    split; [simpl; lia|]. split.
    { constructor; [exact Hsort|]. simpl. apply StronglySorted_inv in Hsort as [_ Hlt]. constructor; [done|].
      eapply Forall_impl; [exact Hlt|]. intros y Hy. simpl in Hy. lia. }
    split; [by constructor|]. intros x Hx Hax [Hne Hnin]%not_elem_of_cons.
    assert (scheduled_at_ms o < x) as Hox.
    { assert (scheduled_at_ms o <= x); [|lia]. apply Hbest. split; [done|]. simpl. by apply Z.ltb_lt. }
    assert (last_instant after (o :: l) = last_instant (scheduled_at_ms o) l) as ->.
    { unfold last_instant, instants. simpl map. rewrite last_cons. by destruct (last _). }
    destruct (Hrest x Hx Hox Hnin) as [Hl [Hfull|Hfar]]; (split; [done|]); [left; simpl; lia|by right].
  - exists []. split; [done|]. split; [simpl; lia|]. split; [repeat constructor|]. split; [constructor|].
    intros x Hx Hax _. split; [done|right]. specialize (Hfound x Hx). unfold in_window in Hfound. simpl in Hfound.
    unfold last_instant. simpl. rewrite Z.abs_eq in Hfound by lia. apply Hfound. by apply Z.ltb_lt.
Qed.

(** ** Catching up *)
Lemma earlier_local t now L :
  0 <= t <= now -> local_datetime (zone s) now = Ok L -> date_of now + 2 <= date_max ->
  exists Lt, local_datetime (zone s) t = Ok Lt.
Proof.
  intros Ht (Hm & Hu & _)%local_datetime_ok Hmax. eexists. apply local_datetime_ok.
  split; [lia|]. split; [by eapply utc_convex|]. split; [done|].
  pose proof (offset_range (zone s) t). set (Lt := t + _ * 1000) in *.
  pose proof (date_bounds Lt). pose proof (date_bounds now). pose proof date_min_before_epoch.
  unfold date_in_range. apply andb_true_iff. subst Lt. unfold DAY_MS in *. lia.
Qed.

(** The latest occurrence of a window that reaches back at most eight years. *)
Lemma latest_in_window from bound r :
  bound - from <= HORIZON_MS -> found true bound r ->
  optimum true (fun x => occurs s x /\ from < x <= bound) (scheduled_at_ms <$> later_than from r).
Proof.
  intros Hspan Hf. destruct r as [o|]; simpl.
  - destruct Hf as [[[Ho Hw] Hbest] _]. unfold in_window in *. simpl in *.
    rewrite orb_false_r in Hw. bools.
    destruct (Z.ltb_spec from (scheduled_at_ms o)); simpl.
    + split; [auto|]. intros x (Hx & ? & ?). apply Hbest. split; [done|]. rewrite orb_false_r. by apply Z.leb_le.
    + intros x (Hx & ? & ?). assert (x <= scheduled_at_ms o); [|lia]. apply Hbest. split; [done|].
      rewrite orb_false_r. by apply Z.leb_le.
  - intros x (Hx & ? & ?). specialize (Hf x Hx). unfold in_window in Hf. simpl in Hf. rewrite orb_false_r in Hf.
    specialize (Hf (proj2 (Z.leb_le _ _) ltac:(done))). lia.
Qed.

Lemma catch_up_exact from now L :
  midnight_ok (zone s) -> 0 <= from <= now -> now - from <= HORIZON_MS ->
  local_datetime (zone s) now = Ok L -> date_of now + 2 <= date_max ->
  exists c, catch_up s from now = Ok c
    /\ optimum true (fun x => occurs s x /\ from < x <= now) (scheduled_at_ms <$> latest_due c)
    /\ match missed_window c with
       | Some w => after_ms w = from
                   /\ exists o, latest_due c = Some o
                      /\ optimum true (fun x => occurs s x /\ from < x < scheduled_at_ms o) (Some (through_ms w))
       | None => forall x y, occurs s x -> occurs s y -> from < x <= now -> from < y <= now -> x = y
       end
    /\ found false now (next c).
Proof.
  intros Hmid Hfrom Hspan HL Hmax.
  pose proof HL as (Hm & Hu & _)%local_datetime_ok.
  assert (utc_in_range from = true) as Hu' by (by eapply utc_convex).
  unfold catch_up. rewrite (timestamp_ok from), (timestamp_ok now) by (done || lia).
  destruct (Z.ltb_spec now from); [lia|].
  destruct (find_exact true now L (fun _ => Hmid) ltac:(lia) HL) as (r & -> & Hr).
  destruct (next_after_exact now L ltac:(lia) HL) as (nx & -> & Hnx).
  pose proof (latest_in_window from now r Hspan Hr) as Hlatest.
  destruct (later_than from r) as [o|]; simpl in Hlatest.
  2:{ eexists. split; [done|]. split; [done|]. split; [|done]. simpl. intros x y Hx _ Hx' _.
      exfalso. by apply (Hlatest x). }
  pose proof Hlatest as [(Ho & Hof & Hon) Hbest].
  destruct (Z.ltb_spec 0 (scheduled_at_ms o)); [|lia].
  destruct (earlier_local (scheduled_at_ms o - 1) now L ltac:(lia) HL Hmax) as (Lp & HLp).
  destruct (find_exact true (scheduled_at_ms o - 1) Lp (fun _ => Hmid) ltac:(lia) HLp) as (p & -> & Hp).
  pose proof (latest_in_window from (scheduled_at_ms o - 1) p ltac:(lia) Hp) as Hprev.
  eexists. split; [done|]. split; [done|]. split; [|done]. simpl.
  destruct (later_than from p) as [q|]; simpl in Hprev.
  - split; [done|]. exists o. split; [done|]. destruct Hprev as [(Hq & ? & ?) Hpbest].
    split; [split; [done|simpl; lia]|]. intros x (Hx & ? & ?). apply Hpbest. split; [done|lia].
  - assert (forall x, occurs s x -> from < x <= now -> x = scheduled_at_ms o) as Honly; [|intros x y Hx Hy Hx' Hy'; by rewrite (Honly x), (Honly y)].
    intros x Hx Hx'. pose proof (Hbest x (conj Hx Hx')).
    destruct (decide (x = scheduled_at_ms o)) as [|Hne]; [done|]. exfalso. apply (Hprev x). split; [done|lia].
Qed.
End Schedule.

(** ** Compilation *)
Lemma find_match_ok fuel c day c' : find_match fuel c day = Ok c' -> c' = c.
Proof.
  revert day. induction fuel as [|fuel IH]; intros day; [done|]. cbn [find_match].
  destruct (matches c day); [congruence|]. destruct (checked_add_days day 1); [apply IH|done].
Qed.

Lemma find_match_total fuel c day i :
  (i < fuel)%nat -> date_min <= day -> day + Z.of_nat i <= date_max -> matches c (day + Z.of_nat i) = true ->
  find_match fuel c day = Ok c.
Proof.
  revert day i. induction fuel as [|fuel IH]; intros day i Hi Hmin Hmax Hm; [lia|]. cbn [find_match].
  destruct (matches c day) eqn:Hd; [done|]. destruct i as [|i]; [by rewrite Z.add_0_r, Hd in Hm|].
  unfold checked_add_days, date_in_range.
  replace ((date_min <=? day + 1) && (day + 1 <=? date_max)) with true by (symmetry; apply andb_true_iff; lia).
  apply (IH (day + 1) i); [lia..|]. by replace (day + 1 + Z.of_nat i) with (day + Z.of_nat (S i)) by lia.
Qed.

Lemma Calendar_parse_ok e c :
  Calendar_parse e = Ok c ->
  Forall (fun h => 0 <= h <= 23) (hours c) /\ Forall (fun m => 0 <= m <= 59) (minutes c).
Proof.
  unfold Calendar_parse. destruct (128 <? slen e); [done|].
  destruct (split_ascii_whitespace e) as [|f0 [|f1 [|f2 [|f3 [|f4 [|]]]]]]; try done.
  destruct (field f0 0 59) as [mi|] eqn:H0; [|done]. destruct (field f1 0 23) as [ho|] eqn:H1; [|done].
  destruct (field f2 1 31); [|done]. destruct (field f3 1 12); [|done]. destruct (field f4 0 7); [|done].
  destruct (from_ymd_opt 2000 1 1); [|done]. intros ->%find_match_ok.
  apply field_values in H0 as (_ & _ & Hm), H1 as (_ & _ & Hh). done.
Qed.

(** Compiled schedules are ready for the search. *)
Lemma new_sched_ok spec s :
  (forall t, kind spec = Once t -> 0 <= t) -> CompiledSchedule_new spec = Ok s ->
  sched_ok s /\ tz_parse (timezone spec) = Some (zone s).
Proof.
  intros Hu. unfold CompiledSchedule_new. destruct (is_empty _ || _); [done|].
  destruct (tz_parse (timezone spec)) as [z|] eqn:Hz; [|done]. destruct (negb _); [done|].
  destruct (kind_expression z (kind spec)) as [e|] eqn:He; [|done].
  destruct (Calendar_parse e) as [c|] eqn:Hc; [|done]. intros [= <-]. split; [|done].
  apply Calendar_parse_ok in Hc as [Hh Hm]. split; [|split; (eapply Forall_impl; [eassumption|simpl; lia])].
  simpl. intros t Ht. destruct (kind spec) as [at_ms| | | |] eqn:Hk; [|discriminate..].
  injection Ht as ->. split; [by apply Hu|]. simpl in He. destruct (local_datetime z t) as [L|]; [eauto|done].
Qed.

Lemma field_one n min max : is_u32 n -> min <= n <= max -> field (decimal n) min max = Ok [n].
Proof.
  intros Hn Hr. apply field_ok. exists [[n]]. rewrite split_on_none by (by apply decimal_no_char; [apply Hn|]).
  split; [|split; [done|by vm_compute]]. constructor; [|constructor].
  pose proof (field_part_print (POne n) min max Hn) as Hf. simpl in Hf. rewrite Hf.
  replace ((n <? min) || (max <? n) || (n <? n) || false) with false by (symmetry; rewrite !orb_false_iff; lia).
  replace (n - n + 1) with 1 by lia. f_equal. rewrite seqZ_cons, seqZ_nil by lia.
  rewrite filter_cons_True; [done|]. by rewrite Z.sub_diag.
Qed.

Lemma field_star min max :
  min <= max -> exists vs, field "*" min max = Ok vs /\ forall n, n ∈ vs <-> min <= n <= max.
Proof.
  intros Hr. destruct (field_print_ok [PAny None] min max) as (vs & Hf & Hin);
    [done|by repeat constructor|repeat constructor; simpl; lia|].
  exists vs. split; [exact Hf|]. intros n. rewrite Hin, Exists_cons, Exists_nil. unfold denotes. simpl.
  rewrite Z.mod_1_r. lia.
Qed.

(** *** The expressions of the fixed kinds *)
Definition no_space (w : string) : Prop := Forall (fun b => is_ascii_whitespace b = false) (bytes w).

Lemma decimal_no_space n : 0 <= n -> no_space (decimal n).
Proof.
  intros Hn. eapply Forall_impl; [by apply decimal_digits|]. intros b Hb. unfold is_ascii_digit in Hb. bools.
  unfold is_ascii_whitespace. rewrite !orb_false_iff. lia.
Qed.

Lemma split_words_app word w rest :
  no_space w -> split_words word (w +:+ rest) = split_words (word +:+ w) rest.
Proof.
  revert word. induction w as [|x w IH]; intros word Hw; [by rewrite append_empty_r|].
  apply Forall_cons in Hw as [Hx Hw]. change (String x w +:+ rest) with (String x (w +:+ rest)).
  cbn [split_words]. rewrite Hx, IH by done. by rewrite append_assoc.
Qed.

Lemma split_first w rest :
  no_space w -> is_empty w = false ->
  split_ascii_whitespace (w +:+ String " "%char rest) = w :: split_ascii_whitespace rest.
Proof.
  intros Hw Hne. unfold split_ascii_whitespace. rewrite split_words_app by done.
  change (EmptyString +:+ w) with w. cbn [split_words]. by rewrite Hne.
Qed.

Lemma split_last w : no_space w -> is_empty w = false -> split_ascii_whitespace w = [w].
Proof.
  intros Hw Hne. unfold split_ascii_whitespace. rewrite <- (append_empty_r w) at 1.
  rewrite split_words_app by done. change (EmptyString +:+ w) with w. cbn [split_words]. by rewrite Hne.
Qed.

Lemma weekday_add d (i : nat) : num_days_from_sunday (d + Z.of_nat i) = (num_days_from_sunday d + Z.of_nat i) mod 7.
Proof.
  induction i as [|i IH].
  - rewrite !Z.add_0_r, Z.mod_small; [done|apply weekday_range].
  - replace (d + Z.of_nat (S i)) with (d + Z.of_nat i + 1) by lia. rewrite weekday_succ, IH.
    rewrite Zplus_mod_idemp_l. f_equal. lia.
Qed.

Lemma parse_every_day e f1 f4 minute ho dw :
  slen e <= 128 -> split_ascii_whitespace e = [decimal minute; f1; "*"; "*"; f4] ->
  0 <= minute < 60 -> field f1 0 23 = Ok ho -> field f4 0 7 = Ok dw ->
  exists c, Calendar_parse e = Ok c /\ minutes c = [minute] /\ hours c = ho
    /\ forall day, matches c day = true <-> exists v, v ∈ dw /\ num_days_from_sunday day = v mod 7.
Proof.
  intros He Hsplit Hm H1 H4. unfold Calendar_parse. destruct (Z.ltb_spec 128 (slen e)); [lia|]. rewrite Hsplit.
  rewrite (field_one minute) by (unfold is_u32, u32_max; lia). rewrite H1.
  destruct (field_star 1 31 ltac:(lia)) as (dm & -> & Hdm). destruct (field_star 1 12 ltac:(lia)) as (mo & -> & Hmo).
  rewrite H4. destruct year_2000 as (d0 & -> & Hmin & Hmax). cbv zeta.
  set (c := mkCalendar _ _ _ _ _ _ _).
  assert (forall day, matches c day = true <-> exists v, v ∈ dw /\ num_days_from_sunday day = v mod 7) as Hmatch.
  { intros day. unfold matches. simpl.
    rewrite (bool_decide_eq_true_2 (month day ∈ mo)) by apply Hmo, month_range.
    rewrite (bool_decide_eq_true_2 (day_of_month day ∈ dm)) by apply Hdm, day_range. simpl.
    rewrite bool_decide_eq_true, list_elem_of_fmap. split; intros (v & ? & ?); eauto. }
  exists c. split; [|done]. pose proof (field_values _ _ _ _ H4) as (Hne & _ & Hr).
  destruct dw as [|v dw]; [done|]. set (i := (v - num_days_from_sunday d0) mod 7).
  pose proof (Z.mod_pos_bound (v - num_days_from_sunday d0) 7 ltac:(lia)).
  apply (find_match_total _ c d0 (Z.to_nat i)); [subst i; lia..|]. apply Hmatch. exists v. split; [left|].
  rewrite weekday_add, Z2Nat.id by (subst i; lia). subst i. rewrite Zplus_mod_idemp_r. f_equal. lia.
Qed.

Definition zone_named (name : string) (z : Tz) : Prop :=
  tz_parse name = Some z /\ tz_name z = name /\ is_empty name = false /\ slen name <= 64.

Lemma new_builtin name z k e c :
  zone_named name z -> kind_expression z k = Ok e -> Calendar_parse e = Ok c -> (forall t, k <> Once t) ->
  CompiledSchedule_new (mkScheduleSpec name k) = Ok (mkCompiledSchedule z None c).
Proof.
  intros (Hz & Hn & He & Hl) Hk Hc Hone. unfold CompiledSchedule_new. simpl. rewrite He.
  destruct (Z.ltb_spec 64 (slen name)); [lia|]. simpl. rewrite Hz, bool_decide_eq_true_2 by done. simpl.
  rewrite Hk, Hc. by destruct k; [edestruct Hone|..].
Qed.

Lemma and_hms_iff day h m wall :
  0 <= h < 24 -> 0 <= m < 60 ->
  and_hms_opt day h m = Some wall <-> wall = day * DAY_MS + h * 3600000 + m * 60000.
Proof.
  intros Hh Hm. unfold and_hms_opt.
  replace ((h <? 24) && (m <? 60)) with true by (symmetry; apply andb_true_iff; lia).
  split; [by intros [= <-]|by intros ->].
Qed.

(** The wall times of a fixed kind on a day. *)
Definition kind_plans (k : ScheduleKind) (day wall : Z) : Prop :=
  match k with
  | Hourly m => exists h, 0 <= h < 24 /\ wall = day * DAY_MS + h * 3600000 + m * 60000
  | Daily h m => wall = day * DAY_MS + h * 3600000 + m * 60000
  | Weekly w h m => num_days_from_sunday day = w /\ wall = day * DAY_MS + h * 3600000 + m * 60000
  | _ => False
  end.
Definition kind_in_range (k : ScheduleKind) : Prop :=
  match k with
  | Hourly m => 0 <= m < 60
  | Daily h m => 0 <= h < 24 /\ 0 <= m < 60
  | Weekly w h m => 0 <= w < 7 /\ 0 <= h < 24 /\ 0 <= m < 60
  | _ => False
  end.

Lemma slen_expr m rest : slen rest <= 100 -> slen (decimal m +:+ rest) <= 128.
Proof. intros Hr. rewrite slen_app. pose proof (slen_decimal m). lia. Qed.

Lemma compile_every_day name z k e f1 f4 m ho dw :
  zone_named name z -> kind_expression z k = Ok e -> (forall t, k <> Once t) -> slen e <= 128 ->
  split_ascii_whitespace e = [decimal m; f1; "*"; "*"; f4] ->
  0 <= m < 60 -> field f1 0 23 = Ok ho -> field f4 0 7 = Ok dw ->
  exists c, CompiledSchedule_new (mkScheduleSpec name k) = Ok (mkCompiledSchedule z None c)
    /\ forall day wall, planned c day wall <->
         date_in_range day = true /\ (exists v, v ∈ dw /\ num_days_from_sunday day = v mod 7)
         /\ exists h, h ∈ ho /\ wall = day * DAY_MS + h * 3600000 + m * 60000.
Proof.
  intros Hz Hk Hone Hlen Hsplit Hm H1 H4.
  destruct (parse_every_day e f1 f4 m ho dw Hlen Hsplit Hm H1 H4) as (c & Hc & Hmi & Hho & Hmat).
  exists c. split; [by eapply new_builtin|]. apply field_values in H1 as (_ & _ & Hr). rewrite Forall_forall in Hr.
  intros day wall. unfold planned. rewrite Hmi, Hho, Hmat. setoid_rewrite list_elem_of_singleton. split.
  - intros (Hd & Hv & h & m' & Hh & -> & Hw). split; [done|]. split; [done|]. exists h. split; [done|].
    pose proof (Hr h Hh). apply and_hms_iff; [lia..|done].
  - intros (Hd & Hv & h & Hh & Hw). split; [done|]. split; [done|]. exists h, m. pose proof (Hr h Hh).
    rewrite and_hms_iff by lia. done.
Qed.

Lemma split_decimal n rest :
  0 <= n -> split_ascii_whitespace (decimal n +:+ String " "%char rest) = decimal n :: split_ascii_whitespace rest.
Proof. intros Hn. apply split_first; [by apply decimal_no_space|apply decimal_nonempty]. Qed.

Lemma split_clock m h rest :
  0 <= m -> 0 <= h ->
  split_ascii_whitespace (decimal m +:+ " " +:+ decimal h +:+ String " "%char rest)
  = decimal m :: decimal h :: split_ascii_whitespace rest.
Proof.
  intros Hm Hh. change (" " +:+ decimal h +:+ String " "%char rest)
    with (String " "%char (decimal h +:+ String " "%char rest)). by rewrite !split_decimal.
Qed.

Lemma field_small n min max : 0 <= min <= n -> n <= max < 60 -> field (decimal n) min max = Ok [n].
Proof. intros Hn Hm. apply field_one; [unfold is_u32, u32_max|]; lia. Qed.

Lemma any_weekday : exists d7, field "*" 0 7 = Ok d7
  /\ forall day, exists v, v ∈ d7 /\ num_days_from_sunday day = v mod 7.
Proof.
  destruct (field_star 0 7 ltac:(lia)) as (d7 & Hd7 & Hin7). exists d7. split; [done|].
  intros day. pose proof (weekday_range day). exists (num_days_from_sunday day).
  rewrite Hin7, Z.mod_small by lia. split; [lia|done].
Qed.

Lemma kind_compiles name z k :
  zone_named name z -> kind_in_range k ->
  exists c, CompiledSchedule_new (mkScheduleSpec name k) = Ok (mkCompiledSchedule z None c)
    /\ forall day wall, planned c day wall <-> date_in_range day = true /\ kind_plans k day wall.
Proof.
  intros Hz Hk. destruct (field_star 0 23 ltac:(lia)) as (h24 & Hh24 & Hin24).
  destruct any_weekday as (d7 & Hd7 & Hany).
  destruct k as [t|m|h m|w h m|e]; simpl in Hk; try done.
  - destruct (compile_every_day name z (Hourly m) (decimal m +:+ " * * * *") "*" "*" m h24 d7)
      as (c & Hc & Hp); try done.
    { simpl. by rewrite (proj2 (Z.ltb_lt m 60)) by lia. }
    { apply slen_expr. by vm_compute. }
    { by rewrite (split_decimal m "* * * *") by lia. }
    exists c. split; [done|]. intros day wall. rewrite Hp. simpl. setoid_rewrite Hin24. split.
    + intros (? & _ & h & ? & ?). split; [done|]. exists h. split; [lia|done].
    + intros (? & h & ? & ?). split; [done|]. split; [done|]. exists h. split; [lia|done].
  - destruct (compile_every_day name z (Daily h m) (decimal m +:+ " " +:+ decimal h +:+ " * * *") (decimal h) "*" m [h] d7)
      as (c & Hc & Hp); try done; [| | |lia|by apply field_small; lia|].
    { simpl. by rewrite (proj2 (Z.ltb_lt h 24)), (proj2 (Z.ltb_lt m 60)) by lia. }
    { apply slen_expr. rewrite !slen_app. pose proof (slen_decimal h).
      change (slen " ") with 1. change (slen " * * *") with 6. lia. }
    { by rewrite (split_clock m h "* * *") by lia. }
    exists c. split; [done|]. intros day wall. rewrite Hp. setoid_rewrite list_elem_of_singleton. simpl.
    split; [by intros (? & _ & h' & -> & ?)|intros [? ?]; eauto].
  - destruct (compile_every_day name z (Weekly w h m)
      (decimal m +:+ " " +:+ decimal h +:+ " * * " +:+ decimal w) (decimal h) (decimal w) m [h] [w])
      as (c & Hc & Hp); try done; [| | |lia|by apply field_small; lia|by apply field_small; lia|].
    { simpl. by rewrite (proj2 (Z.ltb_lt w 7)), (proj2 (Z.ltb_lt h 24)), (proj2 (Z.ltb_lt m 60)) by lia. }
    { apply slen_expr. rewrite !slen_app. pose proof (slen_decimal h). pose proof (slen_decimal w).
      change (slen " ") with 1. change (slen " * * ") with 5. lia. }
    { change (" * * " +:+ decimal w) with (String " "%char ("*" +:+ String " "%char ("*" +:+ String " "%char (decimal w)))).
      rewrite (split_clock m h ("*" +:+ String " "%char ("*" +:+ String " "%char (decimal w)))) by lia.
      rewrite !split_first by (done || by repeat constructor).
      rewrite split_last; [done|apply decimal_no_space; lia|apply decimal_nonempty]. }
    exists c. split; [done|]. intros day wall. rewrite Hp. setoid_rewrite list_elem_of_singleton.
    assert (w mod 7 = w) as Hw by (apply Z.mod_small; lia). simpl. split.
    + intros (? & (v & -> & ?) & h' & -> & ?). rewrite Hw in *. done.
    + intros (? & ? & ?). split; [done|]. split; [exists w; by rewrite Hw|]. eauto.
Qed.

(** The fixed kinds with unsigned values. *)
Definition kind_unsigned (k : ScheduleKind) : Prop :=
  match k with
  | Hourly m => 0 <= m
  | Daily h m => 0 <= h /\ 0 <= m
  | Weekly w h m => 0 <= w /\ 0 <= h /\ 0 <= m
  | _ => False
  end.

Lemma kind_refused name z k :
  zone_named name z -> kind_unsigned k -> ~ kind_in_range k ->
  CompiledSchedule_new (mkScheduleSpec name k) = Err InvalidSchedule.
Proof.
  intros (Hz & Hn & He & Hl) Hu Hk. unfold CompiledSchedule_new. simpl. rewrite He.
  destruct (Z.ltb_spec 64 (slen name)); [lia|]. simpl. rewrite Hz, bool_decide_eq_true_2 by done. simpl.
  assert (kind_expression z k = Err InvalidSchedule) as ->; [|done].
  destruct k as [t|m|h m|w h m|e]; simpl in *; try done.
  - destruct (Z.ltb_spec m 60); [lia|done].
  - destruct (Z.ltb_spec h 24), (Z.ltb_spec m 60); try done; lia.
  - destruct (Z.ltb_spec w 7), (Z.ltb_spec h 24), (Z.ltb_spec m 60); try done; lia.
Qed.

(** Hourly, daily and weekly schedules mean what they say: compiled through
    their cron text, they are due on every supported date (of the weekday, if
    one is given) at exactly the given hour and minute; values out of range are
    refused; and the compiled schedule meets the conditions of the search. *)
Theorem fixed_kinds_mean_what_they_say (name : string) (z : Tz) (k : ScheduleKind)
    (Hz : zone_named name z) (Hu : kind_unsigned k) :
  (kind_in_range k ->
     exists s, CompiledSchedule_new (mkScheduleSpec name k) = Ok s /\ zone s = z /\ sched_ok s
       /\ forall ms, occurs s ms <->
            exists day wall, date_in_range day = true /\ kind_plans k day wall
              /\ resolve z wall = Ok (Some ms))
  /\ (~ kind_in_range k -> CompiledSchedule_new (mkScheduleSpec name k) = Err InvalidSchedule).
Proof.
  split; [|by eapply kind_refused]. intros Hk. destruct (kind_compiles name z k Hz Hk) as (c & Hc & Hp).
  exists (mkCompiledSchedule z None c). split; [done|]. split; [done|]. split.
  - eapply (new_sched_ok (mkScheduleSpec name k)); [|done]. simpl. intros t ->. done.
  - intros ms. unfold occurs. simpl. setoid_rewrite Hp. split.
    + intros (day & wall & [? ?] & ?). eauto 10.
    + intros (day & wall & ? & ? & ?). eauto 10.
Qed.

(** C38: [next_after] is exact: for every instant with a local reading it returns
    the earliest occurrence strictly after it, labelled with its local time;
    it returns nothing only when there is none within 2927 days, which any eight
    calendar years are within, and it never fails. *)
Theorem next_after_is_exact (s : CompiledSchedule) (after L : Z)
    (Hs : sched_ok s) (Hz : zone_ok (zone s)) (H0 : 0 <= after)
    (HL : local_datetime (zone s) after = Ok L) :
  exists r, next_after s after = Ok r /\
    match r with
    | Some o => occurs s (scheduled_at_ms o) /\ after < scheduled_at_ms o
                /\ (forall x, occurs s x -> after < x -> scheduled_at_ms o <= x)
                /\ local_label o = to_rfc3339 (zone s) (scheduled_at_ms o)
    | None => forall x, occurs s x -> after < x -> HORIZON_MS < x - after
    end.
Proof.
  destruct (next_after_exact s Hs Hz after L H0 HL) as (r & Hr & Hf). exists r. split; [done|].
  unfold found, in_window in Hf. destruct r as [o|]; simpl in Hf.
  - destruct Hf as [[[Ho Hw] Hbest] Hl]. bools. split; [done|]. split; [done|]. split; [|done].
    intros x Hx Hax. apply Hbest. split; [done|]. by apply Z.ltb_lt.
  - intros x Hx Hax. specialize (Hf x Hx (proj2 (Z.ltb_lt _ _) Hax)). lia.
Qed.

(** A preview is the list of the next occurrences: strictly ascending, at most
    as long as asked, all of them occurrences, and without omission: whatever
    is due after the start and not listed comes after the last one listed, and
    more than eight years after it if the list is not full. *)
Theorem preview_is_complete (s : CompiledSchedule) (after count L : Z)
    (Hs : sched_ok s) (Hz : zone_ok (zone s)) (H0 : 0 <= after)
    (HL : local_datetime (zone s) after = Ok L) (Hc : 1 <= count <= 50) :
  exists l, preview s after count = Ok l /\ Z.of_nat (length l) <= count
    /\ StronglySorted Z.lt (after :: instants l) /\ Forall (occurs s) (instants l)
    /\ forall x, occurs s x -> after < x -> x ∉ instants l ->
         last_instant after l < x
         /\ (Z.of_nat (length l) = count \/ HORIZON_MS < x - last_instant after l).
Proof.
  destruct (preview_from_exact s Hs Hz (Z.to_nat count) after L H0 HL) as (l & Hl & Hlen & Hsort & Hall & Hrest).
  exists l. unfold preview. replace ((1 <=? count) && (count <=? 50)) with true by (symmetry; apply andb_true_iff; lia).
  pose proof HL as (Hm & Hu & _)%local_datetime_ok. rewrite timestamp_ok by done. simpl.
  split; [done|]. split; [lia|]. split; [done|]. split; [done|]. intros x Hx Hax Hnin.
  destruct (Hrest x Hx Hax Hnin) as [? [?|?]]; (split; [done|]); [left; lia|by right].
Qed.

(** C39: catching up is exact, for a window of at most eight years (2927 days) and a zone that
    never turns its clocks back over midnight: the latest due occurrence is the
    greatest in the window; a missed window is reported exactly when more than
    one was due, and reaches through the second latest; and the next occurrence
    is the earliest after now. *)
Theorem catch_up_is_exact (s : CompiledSchedule) (from now L : Z)
    (Hs : sched_ok s) (Hz : zone_ok (zone s)) (Hmid : midnight_ok (zone s))
    (Hfrom : 0 <= from <= now) (Hspan : now - from <= HORIZON_MS)
    (HL : local_datetime (zone s) now = Ok L) (Hmax : date_of now + 2 <= date_max) :
  exists c, catch_up s from now = Ok c
    /\ optimum true (fun x => occurs s x /\ from < x <= now) (scheduled_at_ms <$> latest_due c)
    /\ match missed_window c with
       | Some w => after_ms w = from
                   /\ exists o, latest_due c = Some o
                      /\ optimum true (fun x => occurs s x /\ from < x < scheduled_at_ms o) (Some (through_ms w))
       | None => forall x y, occurs s x -> occurs s y -> from < x <= now -> from < y <= now -> x = y
       end
    /\ match next c with
       | Some o => optimum false (fun x => occurs s x /\ now < x) (Some (scheduled_at_ms o))
       | None => forall x, occurs s x -> now < x -> HORIZON_MS < x - now
       end.
Proof.
  destruct (catch_up_exact s Hs Hz from now L Hmid Hfrom Hspan HL Hmax) as (c & Hc & Hl & Hw & Hn).
  exists c. split; [done|]. split; [done|]. split; [done|]. unfold found, in_window in Hn.
  destruct (next c) as [o|]; simpl in Hn.
  - destruct Hn as [[[Ho Hlt] Hbest] _]. bools. split; [done|]. intros x [Hx Hax]. apply Hbest.
    split; [done|]. by apply Z.ltb_lt.
  - intros x Hx Hax. specialize (Hn x Hx (proj2 (Z.ltb_lt _ _) Hax)). lia.
Qed.
End Search.
