(* ===== verification/ScheduleExample.v ===== *)
(** * Schedules at concrete zones

    A concrete calendar (the proleptic Gregorian one) and three zones, each with
    at most one transition: they satisfy what the theorems of ScheduleProps.v
    assume of chrono and chrono-tz, and exhibit a fold over midnight. *)
From stdpp Require Import base list numbers sorting strings.
From Stdlib Require Import ZArith Lia Sorted Ascii.
From S2P Require Import Prelude RustStr Cron Schedule ScheduleProps.

Open Scope Z_scope.
Open Scope rust_scope.

Module ScheduleExample.
(** New York springs forward on 2026-03-08, Newfoundland fell back from 00:01 to
    23:01 on 2006-10-29. *)
Inductive FixtureTz := UTC | New_York | St_Johns.

Definition fixture_name (z : FixtureTz) : string :=
  match z with UTC => "UTC" | New_York => "America/New_York" | St_Johns => "America/St_Johns" end.
Definition change (z : FixtureTz) : Z :=
  match z with UTC => 0 | New_York => 1772953200000 | St_Johns => 1162089060000 end.
Definition offset_before (z : FixtureTz) : Z :=
  match z with UTC => 0 | New_York => -18000 | St_Johns => -9000 end.
Definition offset_after (z : FixtureTz) : Z :=
  match z with UTC => 0 | New_York => -14400 | St_Johns => -12600 end.

(** Day of era, day of the March-based year, and the month it falls in. *)
Definition day_of_year (doe : Z) : Z :=
  let yoe := (doe - doe / 1460 + doe / 36524 - doe / 146096) / 365 in
  doe - (365 * yoe + yoe / 4 - yoe / 100).
Definition month_index (doy : Z) : Z := (5 * doy + 2) / 153.
Definition fixture_month (d : Z) : Z :=
  let mp := month_index (day_of_year ((d + 719468) mod 146097)) in if mp <? 10 then mp + 3 else mp - 9.
Definition fixture_day (d : Z) : Z :=
  let doy := day_of_year ((d + 719468) mod 146097) in doy - (153 * month_index doy + 2) / 5 + 1.

#[export] Instance fixture_chrono : Chrono := {|
  Tz := FixtureTz;
  tz_parse name :=
    if bool_decide (name = "UTC") then Some UTC
    else if bool_decide (name = "America/New_York") then Some New_York
    else if bool_decide (name = "America/St_Johns") then Some St_Johns else None;
  tz_name := fixture_name;
  date_min := -95746000;
  date_max := 95745000;
  from_ymd_opt y m d := if (y =? 2000) && (m =? 1) && (d =? 1) then Some 10957 else None;
  month := fixture_month;
  day_of_month := fixture_day;
  num_days_from_sunday d := (d + 4) mod 7;
  utc_in_range t := (-8273000000000000 <=? t) && (t <=? 8273000000000000);
  local_minus_utc z t := if t <? change z then offset_before z else offset_after z;
  from_local_datetime z v :=
    let a := v - offset_before z * 1000 in
    let b := v - offset_after z * 1000 in
    match a <? change z, change z <=? b with
    | true, true => Ambiguous a b
    | true, false => Single a
    | false, true => Single b
    | false, false => LocalNone
    end;
  to_rfc3339 z t := decimal t +:+ "@" +:+ fixture_name z;
|}.

(** Day and month of a March-based year. *)
Lemma day_of_year_range doe : 0 <= doe < 146097 -> 0 <= day_of_year doe <= 365.
Proof. intros Hd. unfold day_of_year. Z.div_mod_to_equations. lia. Qed.

Lemma in_cycle d :
  let doy := day_of_year ((d + 719468) mod 146097) in let mp := month_index doy in
  0 <= mp <= 11 /\ 1 <= doy - (153 * mp + 2) / 5 + 1 <= 31.
Proof.
  pose proof (day_of_year_range _ (Z.mod_pos_bound (d + 719468) 146097 ltac:(lia))) as Hy. cbv zeta.
  revert Hy. generalize (day_of_year ((d + 719468) mod 146097)) as doy. intros doy Hy.
  unfold month_index. Z.div_mod_to_equations. lia.
Qed.

#[export] Instance fixture_chrono_laws : ChronoLaws.
Proof.
  constructor; cbn -[Z.modulo Z.div].
  - intros d. unfold fixture_month. destruct (in_cycle d) as [? _].
    destruct (Z.ltb_spec (month_index (day_of_year ((d + 719468) mod 146097))) 10); lia.
  - intros d. apply (in_cycle d).
  - intros d. apply Z.mod_pos_bound. lia.
  - intros d. rewrite Zplus_mod_idemp_l. f_equal. lia.
  - lia.
  - exists 10957. split; [done|lia].
  - intros z t. destruct (t <? change z); destruct z; simpl; lia.
  - intros t t' Ht Hr. bools. apply andb_true_iff. lia.
Qed.

(** ** The zones *)
Lemma earliest_cases (z : FixtureTz) v t :
  earliest z v = Some t <->
  (t = v - offset_before z * 1000 /\ t < change z)
  \/ (t = v - offset_after z * 1000 /\ change z <= t /\ change z <= v - offset_before z * 1000).
Proof.
  unfold earliest. simpl. set (a := v - offset_before z * 1000). set (b := v - offset_after z * 1000).
  destruct (Z.ltb_spec a (change z)), (Z.leb_spec (change z) b); (split; [intros [= <-]|intros [[-> ?]|(-> & ? & ?)]]);
    try (f_equal; lia); try lia; try (destruct z; unfold a, b in *; simpl in *; lia).
Qed.

Lemma fixture_zone_ok (z : FixtureTz) : zone_ok z.
Proof.
  constructor.
  - intros t _. cbn. destruct (Z.ltb_spec t (change z));
      repeat match goal with
             | |- context [?x <? ?y] => destruct (Z.ltb_spec x y)
             | |- context [?x <=? ?y] => destruct (Z.leb_spec x y)
             end; first [lia|left; lia|right; lia].
  - intros v t Hd He. apply earliest_cases in He. pose proof (date_bounds v) as Hv. cbn in *.
    unfold date_in_range, DAY_MS in *. simpl in Hd. bools. split.
    + apply andb_true_iff. destruct z; simpl in He; lia.
    + destruct (Z.ltb_spec t (change z)); lia.
  - intros v1 v2 t1 t2 Hle H1%earliest_cases H2%earliest_cases. lia.
  - intros v. destruct (@earliest fixture_chrono z v) as [t|] eqn:He.
    + exists 0%nat. rewrite Z.add_0_r, He. split; [unfold GAP_MINUTES; lia|done].
    + assert (change z <= v - offset_before z * 1000 /\ v - offset_after z * 1000 < change z) as [Hb Ha].
      { unfold earliest in He. simpl in He.
        destruct (Z.ltb_spec (v - offset_before z * 1000) (change z)),
                 (Z.leb_spec (change z) (v - offset_after z * 1000)); done. }
      exists 60%nat. split; [unfold GAP_MINUTES; lia|]. eexists. apply earliest_cases. right.
      split; [done|]. destruct z; simpl in *; lia.
Qed.

(** Only Newfoundland turns its clocks back over midnight. *)
Lemma fixture_midnight_ok (z : FixtureTz) : z <> St_Johns -> midnight_ok z.
Proof.
  intros Hz t v e Hd He%earliest_cases. apply Z.nle_gt. intros Hle.
  pose proof (date_bounds v). pose proof (date_bounds (t + local_minus_utc z t * 1000)) as Ht.
  simpl in *. unfold DAY_MS in *. destruct (Z.ltb_spec t (change z)); destruct z; simpl in *; try done; lia.
Qed.

(** ** Witnesses *)
Definition daily_230 : ScheduleSpec := mkScheduleSpec "America/New_York" (Daily 2 30).
Definition midnight : ScheduleSpec := mkScheduleSpec "America/St_Johns" (Daily 0 0).

(** The calendar both compile to, up to the hour and the minute. *)
Definition compiled (spec : ScheduleSpec) : CompiledSchedule :=
  match CompiledSchedule_new spec with Ok s => s | Err _ => mkCompiledSchedule UTC None (mkCalendar [] [] [] [] [] true true) end.

Lemma compiled_ok spec : is_ok (CompiledSchedule_new spec) = true -> CompiledSchedule_new spec = Ok (compiled spec).
Proof. unfold compiled. by destruct (CompiledSchedule_new spec). Qed.
Lemma compiled_230 : CompiledSchedule_new daily_230 = Ok (compiled daily_230).
Proof. apply compiled_ok. vm_compute. reflexivity. Qed.
Lemma compiled_midnight : CompiledSchedule_new midnight = Ok (compiled midnight).
Proof. apply compiled_ok. vm_compute. reflexivity. Qed.
Lemma ready_230 : sched_ok (compiled daily_230).
Proof. eapply (new_sched_ok daily_230); [done|]. exact compiled_230. Qed.
Lemma ready_midnight : sched_ok (compiled midnight).
Proof. eapply (new_sched_ok midnight); [done|]. exact compiled_midnight. Qed.

(** Half past two does not exist in New York on 2026-03-08: that run is due at
    three, which is 07:00 UTC. *)
Lemma next_after_is_exact_witness :
  (forall x, occurs (compiled daily_230) x -> 1772928000000 < x -> 1772953200000 <= x)
  /\ occurs (compiled daily_230) 1772953200000.
Proof.
  destruct (next_after_is_exact (compiled daily_230) 1772928000000 1772910000000 ready_230
    (fixture_zone_ok _) ltac:(lia)) as (r & Hr & Hspec); [vm_compute; reflexivity|].
  assert (match r with Some o => Some (scheduled_at_ms o) | None => None end = Some 1772953200000) as Hms.
  { transitivity (match next_after (compiled daily_230) 1772928000000 with
                  | Ok (Some o) => Some (scheduled_at_ms o) | _ => None end); [by rewrite Hr|].
    vm_compute. reflexivity. }
  destruct r as [o|]; [|discriminate]. injection Hms as Hms. rewrite Hms in Hspec.
  destruct Hspec as (Ho & _ & Hleast & _). split; [exact Hleast|exact Ho].
Defined.

Lemma preview_is_complete_witness :
  exists l, preview (compiled daily_230) 1772928000000 3 = Ok l
    /\ instants l = [1772953200000; 1773037800000; 1773124200000]
    /\ Forall (occurs (compiled daily_230)) (instants l).
Proof.
  destruct (preview_is_complete (compiled daily_230) 1772928000000 3 1772910000000 ready_230
    (fixture_zone_ok _) ltac:(lia)) as (l & Hl & _ & _ & Hall & _); [vm_compute; reflexivity|lia|].
  exists l. split; [exact Hl|]. split; [|exact Hall].
  transitivity (match preview (compiled daily_230) 1772928000000 3 with Ok l => instants l | Err _ => [] end);
    [by rewrite Hl|]. vm_compute. reflexivity.
Defined.

(** Three days were missed: the last is due, the window covers the first two. *)
Lemma catch_up_is_exact_witness :
  exists c, catch_up (compiled daily_230) 1772928000000 1773150000000 = Ok c
    /\ optimum true (fun x => occurs (compiled daily_230) x /\ 1772928000000 < x <= 1773150000000) (Some 1773124200000)
    /\ (through_ms <$> missed_window c) = Some 1773037800000.
Proof.
  destruct (catch_up_is_exact (compiled daily_230) 1772928000000 1773150000000 1773135600000 ready_230
    (fixture_zone_ok _)) as (c & Hc & Hopt & _).
  - apply fixture_midnight_ok. discriminate.
  - lia.
  - unfold HORIZON_MS, DAY_MS. lia.
  - vm_compute. reflexivity.
  - vm_compute. discriminate.
  - assert (match catch_up (compiled daily_230) 1772928000000 1773150000000 with
            | Ok c => (scheduled_at_ms <$> latest_due c, through_ms <$> missed_window c)
            | Err _ => (None, None) end = (Some 1773124200000, Some 1773037800000)) as Hval
      by (vm_compute; reflexivity).
    rewrite Hc in Hval. injection Hval as Hlatest Hmissed.
    exists c. split; [exact Hc|]. split; [rewrite <- Hlatest; exact Hopt|exact Hmissed].
Defined.

Lemma fixed_kinds_mean_what_they_say_witness :
  exists s, CompiledSchedule_new midnight = Ok s /\ sched_ok s /\ zone s = (St_Johns : @Tz fixture_chrono).
Proof.
  destruct (fixed_kinds_mean_what_they_say (H := fixture_chrono) "America/St_Johns" St_Johns (Daily 0 0)) as [Hin _].
  - repeat split; vm_compute; try reflexivity; discriminate.
  - simpl. lia.
  - destruct Hin as (s & Hs & Hz & Hok & _); [simpl; lia|]. exists s. split; [exact Hs|]. split; [exact Hok|exact Hz].
Defined.

(** ** A fold over midnight *)

(** Midnight of 2006-10-29 was reached at 02:30 UTC, one minute before the
    clocks went back. *)
Lemma midnight_occurs : occurs (compiled midnight) 1162089000000.
Proof.
  destruct (kind_compiles (H := fixture_chrono) "America/St_Johns" St_Johns (Daily 0 0)) as (c & Hc & Hp).
  - repeat split; vm_compute; try reflexivity; discriminate.
  - simpl. lia.
  - unfold compiled, midnight. rewrite Hc. unfold occurs. simpl. exists 13450, (13450 * DAY_MS).
    rewrite Hp. split; [|vm_compute; reflexivity]. split; [vm_compute; reflexivity|simpl; lia].
Qed.

(** The backward search can miss an occurrence when clocks are turned back over
    midnight (as in Newfoundland until 2011): in the repeated half hour after
    midnight the occurrence at midnight lies in the window, but its local date
    is later than the one of now, where the search starts; catching up reports
    nothing due, and the next occurrence is a day later. *)
Theorem catch_up_misses_fold_over_midnight :
  exists s from x now c,
    zone_ok (zone s) /\ sched_ok s /\ occurs s x /\ from < x <= now
    /\ catch_up s from now = Ok c /\ latest_due c = None
    /\ exists o, next c = Some o /\ x < scheduled_at_ms o.
Proof.
  exists (compiled midnight), 1162080000000, 1162089000000, 1162090800000.
  destruct (catch_up (compiled midnight) 1162080000000 1162090800000) as [c|e] eqn:Hc.
  - exists c. split; [apply fixture_zone_ok|]. split; [exact ready_midnight|].
    split; [exact midnight_occurs|]. split; [lia|]. split; [done|].
    assert (match catch_up (compiled midnight) 1162080000000 1162090800000 with
            | Ok c => (scheduled_at_ms <$> latest_due c, scheduled_at_ms <$> next c)
            | Err _ => (None, None) end = (None, Some 1162179000000)) as Hval by (vm_compute; reflexivity).
    rewrite Hc in Hval. destruct (latest_due c); [discriminate|]. split; [done|].
    destruct (next c) as [o|]; [|discriminate]. injection Hval as Hval. exists o. split; [done|lia].
  - assert (is_ok (catch_up (compiled midnight) 1162080000000 1162090800000) = true) as Hok
      by (vm_compute; reflexivity). by rewrite Hc in Hok.
Qed.
End ScheduleExample.
