(* ===== verification/Identity.v ===== *)
(** * Conversation identity material (src/src/runtime/identity.rs)

    Provider conversation identifiers, edition names and mutation tokens are
    validated and hashed; only these digests reach the store. *)
From stdpp Require Import base list strings.
From Stdlib Require Import ZArith Lia.
From S2P Require Import Prelude RustStr External Digest RunContract.

Open Scope Z_scope.
Open Scope rust_scope.

Definition MAX_EXTERNAL_ID_BYTES : Z := 512.
Definition MAX_EDITION_SLUG_BYTES : Z := 64.
Definition MAX_MUTATION_TOKEN_BYTES : Z := 128.
Definition MAX_IDENTITY_SCOPES : Z := 16.

(** A domain of the source: its text and a NUL byte. *)
Definition domain (text : string) : list Z := bytes text ++ [0].
Definition UUID_DOMAIN := domain "abbey:legacy-conversation:v1".
Definition ALIAS_DOMAIN := domain "abbey:legacy-conversation-alias:v1".
Definition EDITION_DOMAIN := domain "abbey:conversation-identity-edition:v1".
Definition GLOBAL_SCOPE_DOMAIN := domain "abbey:conversation-identity-scope:global:v1".
Definition CWD_SCOPE_DOMAIN := domain "abbey:conversation-identity-scope:cwd:v1".
Definition MUTATION_DOMAIN := domain "abbey:conversation-identity-mutation:v1".
Definition SCOPE_SET_DOMAIN := domain "abbey:conversation-identity-scope-set:v1".
Definition CLEAR_ALL_DOMAIN := domain "abbey:conversation-identity-clear-all:v1".

Inductive IdentityError := BadExternalId | BadEdition | BadMutationToken | BadScopeSet.

Record ExternalIdentity := mkExternalIdentity { ex_alias_sha256 : string; ex_conversation_id : ConversationId }.
Record ConversationIdentityScope := mkScope { as_sha256 : string }.
#[export] Instance scope_eq_dec : EqDecision ConversationIdentityScope.
Proof. solve_decision. Defined.

Inductive IdentityOperation := Save | ClearScope | ClearAll.
#[export] Instance identity_operation_eq_dec : EqDecision IdentityOperation.
Proof. solve_decision. Defined.

Inductive IdentityScopeState := StateUntracked | StateCurrent | StateTombstoned | StateDiverged.
Inductive IdentityScopeSelection :=
| Untracked
| Selected (alias_sha256 : string) (conversation_id : ConversationId)
| Tombstoned.

Definition IdentityOperation_parse (value : string) : option IdentityOperation :=
  if bool_decide (value = "save") then Some Save
  else if bool_decide (value = "clear_scope") then Some ClearScope
  else if bool_decide (value = "clear_all") then Some ClearAll
  else None.

Record IdentityCommit := mkIdentityCommit {
  ic_revision : Z;
  ic_operation : IdentityOperation;
  ic_edition_sha256 : string;
  ic_scope_sha256 : string;
  ic_scope_set_sha256 : string;
  ic_alias_sha256 : option string;
  ic_conversation_id : option ConversationId;
  ic_mutation_sha256 : string;
  ic_committed_at : string;
}.
#[export] Instance identity_commit_eq_dec : EqDecision IdentityCommit.
Proof. solve_decision. Defined.

(** [Uuid::from_bytes(..).to_string()]. *)
Class UuidFormat := { uuid_from_bytes : list Z -> string }.
Class UuidFormatLaws `{External} `{UuidFormat} := {
  uuid_from_bytes_canonical : forall bs, length bs = 16%nat ->
    uuid_canonical (uuid_from_bytes bs) = Some (uuid_from_bytes bs);
}.

Definition is_lower_hex_sha256 (value : string) : bool := (slen value =? 64) && forallb is_lower_hex (bytes value).

(** [u64::to_be_bytes] *)
Definition to_be_bytes (n : Z) : list Z := map (fun i => (n / 256 ^ i) mod 256) [7; 6; 5; 4; 3; 2; 1; 0].

(** [value.trim()], as bytes. *)
Definition trimmed (value : string) : list Z := concat (map encode_char (trim (chars value))).

Definition validate_external_id (value : string) : result IdentityError (list Z) :=
  let value' := trimmed value in
  if bool_decide (value' = []) || (MAX_EXTERNAL_ID_BYTES <? Z.of_nat (length value'))
     || existsb is_control (trim (chars value))
  then Err BadExternalId else Ok value'.

Section Material.
Context `{Digest} `{UuidFormat}.

Definition digest_bytes (dom material : list Z) : list Z := sha256 (dom ++ material).
Definition digest_parts (dom material : list Z) : string := hexadecimal (digest_bytes dom material).

Definition global_scope : ConversationIdentityScope := mkScope (digest_parts GLOBAL_SCOPE_DOMAIN []).
(** The bytes of a path (unix). *)
Definition working_directory (path : list Z) : ConversationIdentityScope :=
  mkScope (digest_parts CWD_SCOPE_DOMAIN path).

Definition clear_all_sha256 : string := digest_parts CLEAR_ALL_DOMAIN [].

(** The first sixteen bytes with the version and variant of a UUIDv8. *)
Definition uuid_bytes (digest : list Z) : list Z :=
  let b := take 16 digest in
  let b := <[6%nat := Z.lor (Z.land (nth 6 b 0) 15) 128]> b in
  <[8%nat := Z.lor (Z.land (nth 8 b 0) 63) 128]> b.

Definition external_identity (value : string) : result IdentityError ExternalIdentity :=
  let? value' := validate_external_id value in
  Ok (mkExternalIdentity (hexadecimal (digest_bytes ALIAS_DOMAIN value'))
        (uuid_from_bytes (uuid_bytes (digest_bytes UUID_DOMAIN value')))).

Definition edition_sha256 (slug : string) : result IdentityError string :=
  if is_empty slug || (MAX_EDITION_SLUG_BYTES <? slen slug) || existsb is_control (chars slug)
  then Err BadEdition else Ok (digest_parts EDITION_DOMAIN (bytes slug)).

Definition mutation_sha256 (token : string) : result IdentityError string :=
  if is_empty token || (MAX_MUTATION_TOKEN_BYTES <? slen token) || existsb is_control (chars token)
  then Err BadMutationToken else Ok (digest_parts MUTATION_DOMAIN (bytes token)).

(** [scopes[..index].contains(scope)], for every index. *)
Fixpoint scopes_distinct (seen scopes : list string) : bool :=
  match scopes with
  | [] => true
  | s :: r => is_lower_hex_sha256 s && negb (bool_decide (s ∈ seen)) && scopes_distinct (seen ++ [s]) r
  end.

Definition scope_set_sha256_from_hashes (scopes : list string) : result IdentityError string :=
  if bool_decide (scopes = []) || (MAX_IDENTITY_SCOPES <? Z.of_nat (length scopes)) then Err BadScopeSet
  else if negb (scopes_distinct [] scopes) then Err BadScopeSet
  else Ok (hexadecimal (sha256 (SCOPE_SET_DOMAIN ++ to_be_bytes (Z.of_nat (length scopes)) ++ concat (map bytes scopes)))).

Definition scope_set_sha256 (scopes : list ConversationIdentityScope) : result IdentityError string :=
  scope_set_sha256_from_hashes (map as_sha256 scopes).

Definition matches_external_id (selection : IdentityScopeSelection) (raw_candidate : string)
    : result IdentityError bool :=
  let? candidate := external_identity raw_candidate in
  Ok (match selection with
      | Selected alias conversation =>
          bool_decide (ex_alias_sha256 candidate = alias) && bool_decide (ex_conversation_id candidate = conversation)
      | _ => false
      end).

(** [scopes[0].as_sha256()]; the callers reject an empty slice first. *)
Definition first_scope (scopes : list ConversationIdentityScope) : string :=
  match scopes with s :: _ => as_sha256 s | [] => EmptyString end.

Definition matches_save_scopes (c : IdentityCommit) (edition_slug : string) (scopes : list ConversationIdentityScope)
    (external_id mutation_token : string) : bool :=
  match edition_sha256 edition_slug, external_identity external_id, mutation_sha256 mutation_token,
        scope_set_sha256 scopes with
  | Ok edition, Ok external, Ok mutation, Ok set =>
      bool_decide (ic_operation c = Save) && bool_decide (ic_edition_sha256 c = edition)
      && bool_decide (ic_scope_sha256 c = first_scope scopes) && bool_decide (ic_scope_set_sha256 c = set)
      && bool_decide (ic_alias_sha256 c = Some (ex_alias_sha256 external))
      && bool_decide (ic_conversation_id c = Some (ex_conversation_id external))
      && bool_decide (ic_mutation_sha256 c = mutation)
  | _, _, _, _ => false
  end.

Definition is_clear_of (c : IdentityCommit) (operation : IdentityOperation) (edition scope set mutation : string) : bool :=
  bool_decide (ic_operation c = operation) && bool_decide (ic_edition_sha256 c = edition)
  && bool_decide (ic_scope_sha256 c = scope) && bool_decide (ic_scope_set_sha256 c = set)
  && bool_decide (ic_alias_sha256 c = None) && bool_decide (ic_conversation_id c = None)
  && bool_decide (ic_mutation_sha256 c = mutation).

Definition matches_clear_scopes (c : IdentityCommit) (edition_slug : string) (scopes : list ConversationIdentityScope)
    (mutation_token : string) : bool :=
  match edition_sha256 edition_slug, mutation_sha256 mutation_token, scope_set_sha256 scopes with
  | Ok edition, Ok mutation, Ok set => is_clear_of c ClearScope edition (first_scope scopes) set mutation
  | _, _, _ => false
  end.

Definition matches_clear_all (c : IdentityCommit) (edition_slug mutation_token : string) : bool :=
  match edition_sha256 edition_slug, mutation_sha256 mutation_token with
  | Ok edition, Ok mutation => is_clear_of c ClearAll edition clear_all_sha256 clear_all_sha256 mutation
  | _, _ => false
  end.
End Material.
