(* ===== verification/IdentityStore.v ===== *)
(** * Conversation identities in the store: tables and receipts
    (src/src/runtime/store/identity_receipts.rs; migrations 3 and 4)

    The tables of the identity store with one definition per SQL statement, and
    the checks that relate the committed state to the append-only receipts. *)
From stdpp Require Import base list gmap strings sorting.
From Stdlib Require Import ZArith Lia.
From S2P Require Import Prelude RustStr External Digest Tables RunContract StoreBase AssistantContent RunStore Identity.

Open Scope Z_scope.
Open Scope rust_scope.

(** ** Tables *)
Record AliasRow := mkAliasRow { al_conversation_id : string; al_origin : string; al_created_at : string }.
Record SelectionRow := mkSelectionRow {
  sl_alias_sha256 : string;
  sl_conversation_id : string;
  sl_revision : Z;
  sl_updated_at : string;
}.
Record EffectRow := mkEffectRow { ef_revision : Z; ef_cleared_at : string }.
(** A row of [conversation_identity_commit] without its mutation, and of
    [conversation_identity_mutations] without its key. *)
Record MutationRow := mkMutationRow {
  mu_revision : Z;
  mu_operation : string;
  mu_edition_sha256 : string;
  mu_scope_sha256 : string;
  mu_scope_set_sha256 : string;
  mu_alias_sha256 : option string;
  mu_conversation_id : option string;
  mu_committed_at : string;
}.
#[export] Instance mutation_row_eq_dec : EqDecision MutationRow.
Proof. solve_decision. Defined.

Record IdentityDb := mkIdentityDb {
  id_store : RunDb;
  identity_aliases : gmap string AliasRow;
  identity_scopes : gmap (string * string) SelectionRow;
  identity_commit : option (string * MutationRow);
  identity_tombstones : gmap (string * string) EffectRow;
  identity_clear_all : gmap string EffectRow;
  identity_mutations : gmap string MutationRow;
  identity_mutation_scopes : list (string * string);
  identity_migrated_scopes : gmap (string * string) SelectionRow;
}.
Definition empty_identity_db : IdentityDb := mkIdentityDb empty_run_db ∅ ∅ None ∅ ∅ ∅ [] ∅.

Definition set_id_store s db :=
  mkIdentityDb s (identity_aliases db) (identity_scopes db) (identity_commit db) (identity_tombstones db)
    (identity_clear_all db) (identity_mutations db) (identity_mutation_scopes db) (identity_migrated_scopes db).
Definition set_aliases t db :=
  mkIdentityDb (id_store db) t (identity_scopes db) (identity_commit db) (identity_tombstones db)
    (identity_clear_all db) (identity_mutations db) (identity_mutation_scopes db) (identity_migrated_scopes db).
Definition set_scopes t db :=
  mkIdentityDb (id_store db) (identity_aliases db) t (identity_commit db) (identity_tombstones db)
    (identity_clear_all db) (identity_mutations db) (identity_mutation_scopes db) (identity_migrated_scopes db).
Definition set_commit t db :=
  mkIdentityDb (id_store db) (identity_aliases db) (identity_scopes db) t (identity_tombstones db)
    (identity_clear_all db) (identity_mutations db) (identity_mutation_scopes db) (identity_migrated_scopes db).
Definition set_tombstones t db :=
  mkIdentityDb (id_store db) (identity_aliases db) (identity_scopes db) (identity_commit db) t
    (identity_clear_all db) (identity_mutations db) (identity_mutation_scopes db) (identity_migrated_scopes db).
Definition set_clear_all t db :=
  mkIdentityDb (id_store db) (identity_aliases db) (identity_scopes db) (identity_commit db) (identity_tombstones db)
    t (identity_mutations db) (identity_mutation_scopes db) (identity_migrated_scopes db).
Definition set_mutations t db :=
  mkIdentityDb (id_store db) (identity_aliases db) (identity_scopes db) (identity_commit db) (identity_tombstones db)
    (identity_clear_all db) t (identity_mutation_scopes db) (identity_migrated_scopes db).
Definition set_mutation_scopes t db :=
  mkIdentityDb (id_store db) (identity_aliases db) (identity_scopes db) (identity_commit db) (identity_tombstones db)
    (identity_clear_all db) (identity_mutations db) t (identity_migrated_scopes db).

(** The payload of an operation: an alias and a conversation exactly for saves. *)
Definition payload_check (row : MutationRow) : bool :=
  (bool_decide (mu_operation row = "save")
   && bool_decide (is_Some (mu_alias_sha256 row)) && bool_decide (is_Some (mu_conversation_id row)))
  || ((bool_decide (mu_operation row = "clear_scope") || bool_decide (mu_operation row = "clear_all"))
      && bool_decide (mu_alias_sha256 row = None) && bool_decide (mu_conversation_id row = None)).

(** ** Statements *)
Definition insert_or_ignore_conversation (id timestamp : string) : Tx IdentityDb StoreError unit :=
  tmodify (fun db =>
    match conversations (id_store db) !! id with
    | Some _ => db
    | None => set_id_store (set_conversations (<[id := (timestamp, timestamp)]> (conversations (id_store db)))
                              (id_store db)) db
    end).

Definition alias_of_conversation (conversation : string) (db : IdentityDb) : option string :=
  fst <$> head (filter (fun p => al_conversation_id p.2 = conversation) (map_to_list (identity_aliases db))).

(** [INSERT OR IGNORE]: a row that breaks a key or a CHECK is skipped, one whose
    conversation does not exist is an error. *)
Definition insert_or_ignore_alias (alias : string) (row : AliasRow) : Tx IdentityDb StoreError unit := fun db =>
  match identity_aliases db !! alias, alias_of_conversation (al_conversation_id row) db with
  | None, None =>
      if negb (is_lower_hex_sha256 alias) then (Ok tt, db)
      else match conversations (id_store db) !! al_conversation_id row with
           | None => (Err (Database ConstraintForeignKey), db)
           | Some _ => (Ok tt, set_aliases (<[alias := row]> (identity_aliases db)) db)
           end
  | _, _ => (Ok tt, db)
  end.

Definition delete_tombstone (edition scope : string) : Tx IdentityDb StoreError unit :=
  tmodify (fun db => set_tombstones (delete (edition, scope) (identity_tombstones db)) db).

(** [INSERT .. ON CONFLICT(edition_sha256, scope_sha256) DO UPDATE] *)
Definition upsert_selection (edition scope : string) (row : SelectionRow) : Tx IdentityDb StoreError unit := fun db =>
  if negb (is_lower_hex_sha256 edition && is_lower_hex_sha256 scope && (0 <? sl_revision row))
  then (Err (Database ConstraintCheck), db)
  else match identity_aliases db !! sl_alias_sha256 row, conversations (id_store db) !! sl_conversation_id row with
       | Some _, Some _ => (Ok tt, set_scopes (<[(edition, scope) := row]> (identity_scopes db)) db)
       | _, _ => (Err (Database ConstraintForeignKey), db)
       end.

Definition upsert_tombstone (edition scope : string) (row : EffectRow) : Tx IdentityDb StoreError unit := fun db =>
  if negb (is_lower_hex_sha256 edition && is_lower_hex_sha256 scope && (0 <? ef_revision row))
  then (Err (Database ConstraintCheck), db)
  else (Ok tt, set_tombstones (<[(edition, scope) := row]> (identity_tombstones db)) db).

Definition upsert_clear_all (edition : string) (row : EffectRow) : Tx IdentityDb StoreError unit := fun db =>
  if negb (is_lower_hex_sha256 edition && (0 <? ef_revision row)) then (Err (Database ConstraintCheck), db)
  else (Ok tt, set_clear_all (<[edition := row]> (identity_clear_all db)) db).

Definition delete_selection (edition scope : string) : Tx IdentityDb StoreError unit :=
  tmodify (fun db => set_scopes (delete (edition, scope) (identity_scopes db)) db).
(** [DELETE FROM .. WHERE edition_sha256=?1] *)
Definition of_other_edition {V} (edition : string) (m : gmap (string * string) V) : gmap (string * string) V :=
  filter (fun p => p.1.1 <> edition) m.
Definition delete_edition (edition : string) : Tx IdentityDb StoreError unit :=
  tmodify (fun db => set_scopes (of_other_edition edition (identity_scopes db)) db) ;;
  tmodify (fun db => set_tombstones (of_other_edition edition (identity_tombstones db)) db).

(** A referenced row exists unless the column is NULL. *)
Definition reference_ok {V} (key : option string) (m : gmap string V) : bool :=
  match key with Some k => bool_decide (is_Some (m !! k)) | None => true end.

Definition upsert_commit (mutation : string) (row : MutationRow) : Tx IdentityDb StoreError unit := fun db =>
  if negb ((0 <? mu_revision row) && bool_decide (is_Some (IdentityOperation_parse (mu_operation row)))
           && forallb is_lower_hex_sha256 [mu_edition_sha256 row; mu_scope_sha256 row; mu_scope_set_sha256 row; mutation]
           && payload_check row)
  then (Err (Database ConstraintCheck), db)
  else if negb (reference_ok (mu_alias_sha256 row) (identity_aliases db)
                && reference_ok (mu_conversation_id row) (conversations (id_store db)))
  then (Err (Database ConstraintForeignKey), db)
  else (Ok tt, set_commit (Some (mutation, row)) db).

Definition insert_mutation (mutation : string) (row : MutationRow) : Tx IdentityDb StoreError unit := fun db =>
  if negb (is_lower_hex_sha256 mutation && (0 <? mu_revision row)
           && bool_decide (is_Some (IdentityOperation_parse (mu_operation row))) && payload_check row)
  then (Err (Database ConstraintCheck), db)
  else match identity_mutations db !! mutation with
       | Some _ => (Err (Database ConstraintPrimaryKey), db)
       | None =>
           if fold_exists (fun _ r => mu_revision r =? mu_revision row) (identity_mutations db)
           then (Err (Database ConstraintUnique), db)
           else (Ok tt, set_mutations (<[mutation := row]> (identity_mutations db)) db)
       end.

Definition insert_mutation_scope (mutation scope : string) : Tx IdentityDb StoreError unit := fun db =>
  if negb (is_lower_hex_sha256 scope) then (Err (Database ConstraintCheck), db)
  else if bool_decide ((mutation, scope) ∈ identity_mutation_scopes db) then (Err (Database ConstraintPrimaryKey), db)
  else match identity_mutations db !! mutation with
       | None => (Err (Database ConstraintForeignKey), db)
       | Some _ => (Ok tt, set_mutation_scopes (identity_mutation_scopes db ++ [(mutation, scope)]) db)
       end.

(** One statement per element. *)
Fixpoint each {A} (f : A -> Tx IdentityDb StoreError unit) (l : list A) : Tx IdentityDb StoreError unit :=
  match l with
  | [] => tret tt
  | x :: r => f x ;; each f r
  end.

(** ** Reads and checks *)
Definition identity_input : StoreError := InvalidInput "conversation identity material is invalid".
Definition identity_conflict : StoreError :=
  InvalidInput "conversation identity collides with incompatible provenance".

Definition operation_name (operation : IdentityOperation) : string :=
  match operation with Save => "save" | ClearScope => "clear_scope" | ClearAll => "clear_all" end.

Definition validate_revision (revision : Z) : result StoreError unit :=
  fail? revision <=? 0 with CorruptData "identity revision is not positive" in Ok tt.

Definition exceeds : StoreError := CorruptData "identity revision exceeds SQLite integer".
Definition sql_revision (revision : Z) : result StoreError Z :=
  if revision <=? i64_max then Ok revision else Err exceeds.

Section Reads.
Context `{External} `{MillisFormat} `{Digest} `{UuidFormat}.

(** [parse_from_rfc3339(..).with_timezone(&Utc).to_rfc3339_opts(Millis, true)];
    the instant is in nanoseconds. *)
Definition canonical_utc (timestamp : string) : option string :=
  ns ← parse_from_rfc3339 timestamp; rfc3339_millis (ns / 1000000).

Definition validate_canonical_timestamp (timestamp message : string) : result StoreError unit :=
  let? canonical := ok_or (canonical_utc timestamp) (CorruptData message) in
  fail? negb (bool_decide (canonical = timestamp)) with CorruptData message in Ok tt.

Definition validate_alias_provenance (alias : string) (conversation : ConversationId) (db : IdentityDb)
    : result StoreError unit :=
  let by_alias := al_conversation_id <$> identity_aliases db !! alias in
  fail? match by_alias with Some mapped => negb (bool_decide (mapped = conversation)) | None => false end
  with identity_conflict in
  fail? match alias_of_conversation conversation db with
        | Some mapped => negb (bool_decide (mapped = alias))
        | None => false
        end
  with identity_conflict in
  fail? bool_decide (is_Some (conversations (id_store db) !! (conversation : string)))
        && bool_decide (by_alias = None)
  with identity_conflict in
  Ok tt.

Fixpoint validate_scope_set (edition : string) (scopes : list ConversationIdentityScope) (external : ExternalIdentity)
    (db : IdentityDb) : result StoreError unit :=
  match scopes with
  | [] => Ok tt
  | scope :: rest =>
      let stored := (fun r => (sl_alias_sha256 r, sl_conversation_id r)) <$> identity_scopes db !! (edition, as_sha256 scope) in
      fail? negb (bool_decide (stored = Some (ex_alias_sha256 external, ex_conversation_id external : string)))
      with identity_conflict in
      validate_scope_set edition rest external db
  end.

Definition next_revision (db : IdentityDb) : result StoreError Z :=
  let current := default 0 (mu_revision ∘ snd <$> identity_commit db) in
  fail? current <? 0 with CorruptData "identity revision is negative" in
  ok_or (u64_checked_add current 1) (CorruptData "identity revision overflow").

Definition commit_on (db : IdentityDb) : result StoreError (option IdentityCommit) :=
  match identity_commit db with
  | None => Ok None
  | Some (mutation, row) =>
      fail? mu_revision row <? 0 with CorruptData "identity revision is not positive" in
      fail? mu_revision row =? 0 with CorruptData "identity revision is not positive" in
      let? operation := ok_or (IdentityOperation_parse (mu_operation row)) (CorruptData "unknown identity operation") in
      fail? negb (forallb is_lower_hex_sha256
                    [mu_edition_sha256 row; mu_scope_sha256 row; mu_scope_set_sha256 row; mutation])
      with CorruptData "identity commit digest is not lower-case SHA-256" in
      fail? match mu_alias_sha256 row with Some d => negb (is_lower_hex_sha256 d) | None => false end
      with CorruptData "identity commit digest is not lower-case SHA-256" in
      let? committed_at := ok_or (canonical_utc (mu_committed_at row))
                             (CorruptData "identity commit timestamp is invalid") in
      fail? negb (bool_decide (committed_at = mu_committed_at row))
      with CorruptData "identity commit timestamp is not canonical UTC" in
      let has_identity := bool_decide (is_Some (mu_alias_sha256 row)) && bool_decide (is_Some (mu_conversation_id row)) in
      fail? negb (Bool.eqb (bool_decide (operation = Save)) has_identity)
      with CorruptData "identity commit operation payload is inconsistent" in
      fail? bool_decide (operation = ClearAll)
            && (negb (bool_decide (mu_scope_sha256 row = clear_all_sha256))
                || negb (bool_decide (mu_scope_set_sha256 row = clear_all_sha256)))
      with CorruptData "clear-all identity commit digest is inconsistent" in
      let? conversation :=
        (match mu_conversation_id row with
         | Some c => match parse_conversation_id c with Ok c' => Ok (Some c') | Err e => Err e end
         | None => Ok None
         end) in
      Ok (Some (mkIdentityCommit (mu_revision row) operation (mu_edition_sha256 row) (mu_scope_sha256 row)
                  (mu_scope_set_sha256 row) (mu_alias_sha256 row) conversation mutation committed_at))
  end.

Definition current_identity_commit : Tx IdentityDb StoreError (option IdentityCommit) := tread commit_on.

Definition count_selections (edition : string) (db : IdentityDb) : nat :=
  size (filter (fun p => p.1.1 = edition) (identity_scopes db)).
Definition count_tombstones (edition : string) (db : IdentityDb) : nat :=
  size (filter (fun p => p.1.1 = edition) (identity_tombstones db)).

Fixpoint validate_clear_scopes (edition : string) (scopes : list ConversationIdentityScope) (revision : Z) (db : IdentityDb)
    : result StoreError unit :=
  match scopes with
  | [] => Ok tt
  | scope :: rest =>
      fail? bool_decide (is_Some (identity_scopes db !! (edition, as_sha256 scope)))
            || negb (bool_decide (ef_revision <$> identity_tombstones db !! (edition, as_sha256 scope) = Some revision))
      with CorruptData "identity clear-scope effect is inconsistent" in
      validate_clear_scopes edition rest revision db
  end.

Definition validate_clear_effect (edition : string) (scopes : option (list ConversationIdentityScope))
    (commit : IdentityCommit) (db : IdentityDb) : result StoreError unit :=
  let? revision := sql_revision (ic_revision commit) in
  match scopes, ic_operation commit with
  | Some scopes, ClearScope => validate_clear_scopes edition scopes revision db
  | None, ClearAll =>
      fail? negb (Nat.eqb (count_selections edition db) 0) || negb (Nat.eqb (count_tombstones edition db) 0)
            || negb (bool_decide (ef_revision <$> identity_clear_all db !! edition = Some revision))
      with CorruptData "identity clear-all effect is inconsistent" in
      Ok tt
  | _, _ => Err (CorruptData "identity clear operation does not match its scope set")
  end.

Definition reject_replayed_mutation (mutation : string) (db : IdentityDb) : result StoreError unit :=
  fail? bool_decide (is_Some (identity_mutations db !! mutation)) with identity_conflict in Ok tt.

(** The row that records a commit. *)
Definition commit_row (c : IdentityCommit) (revision : Z) : MutationRow :=
  mkMutationRow revision (operation_name (ic_operation c)) (ic_edition_sha256 c) (ic_scope_sha256 c)
    (ic_scope_set_sha256 c) (ic_alias_sha256 c) (ic_conversation_id c) (ic_committed_at c).

Definition insert_mutation_receipt (commit : IdentityCommit) (scopes : list ConversationIdentityScope)
    : Tx IdentityDb StoreError unit :=
  revision <- tlift (sql_revision (ic_revision commit)) ;
  insert_mutation (ic_mutation_sha256 commit) (commit_row commit revision) ;;
  each (fun scope => insert_mutation_scope (ic_mutation_sha256 commit) (as_sha256 scope)) scopes.

(** [ORDER BY rowid] *)
Definition receipt_scopes (mutation : string) (db : IdentityDb) : list string :=
  map snd (filter (fun p => p.1 = mutation) (identity_mutation_scopes db)).

Definition validate_current_receipt (commit : IdentityCommit) (scopes : list ConversationIdentityScope) (db : IdentityDb)
    : result StoreError unit :=
  let? revision := sql_revision (ic_revision commit) in
  fail? negb (bool_decide (identity_mutations db !! ic_mutation_sha256 commit = Some (commit_row commit revision)))
  with CorruptData "identity mutation receipt is inconsistent" in
  fail? negb (Nat.eqb (length (receipt_scopes (ic_mutation_sha256 commit) db)) (length scopes))
  with CorruptData "identity mutation receipt scope set is inconsistent" in
  fail? existsb (fun scope => negb (bool_decide (as_sha256 scope ∈ receipt_scopes (ic_mutation_sha256 commit) db))) scopes
  with CorruptData "identity mutation receipt scope set is inconsistent" in
  Ok tt.
End Reads.
