(* ===== verification/IdentityValidation.v ===== *)
(** * Validation of identity receipts (src/src/runtime/store/identity_validation.rs)

    Every receipt a read relies on is checked: its digests, its edition, its
    timestamp, its scope set and, for a save, its alias.  The digest of a save
    that migration 4 carried over is searched among the orders of its scopes. *)
From stdpp Require Import base list gmap strings sorting.
From Stdlib Require Import ZArith Lia.
From S2P Require Import Prelude RustStr External Digest Tables RunContract StoreBase AssistantContent RunStore Identity IdentityStore.

Open Scope Z_scope.
Open Scope rust_scope.

Definition MAX_MIGRATED_V3_SCOPE_PERMUTATIONS : Z := 40320.

Record MutationReceipt := mkMutationReceipt {
  rc_mutation_sha256 : string;
  rc_revision : Z;
  rc_operation : IdentityOperation;
  rc_edition_sha256 : string;
  rc_scope_sha256 : string;
  rc_scope_set_sha256 : string;
  rc_alias_sha256 : option string;
  rc_conversation_id : option string;
  rc_committed_at : string;
}.

(** [ORDER BY revision DESC LIMIT 1] over the rows that satisfy [P]. *)
Definition newer (a b : string * MutationRow) : Prop := mu_revision b.2 <= mu_revision a.2.
#[export] Instance newer_dec : RelDecision newer.
Proof. intros a b. unfold newer. apply _. Defined.
Definition latest_mutation (P : string -> MutationRow -> bool) (db : IdentityDb) : option (string * MutationRow) :=
  head (merge_sort newer (filter (fun p => P p.1 p.2 = true) (map_to_list (identity_mutations db)))).

Definition mutation_receipt_on (P : string -> MutationRow -> bool) (db : IdentityDb)
    : result StoreError (option MutationReceipt) :=
  match latest_mutation P db with
  | None => Ok None
  | Some (mutation, row) =>
      let? operation := ok_or (IdentityOperation_parse (mu_operation row)) (CorruptData "unknown identity operation") in
      Ok (Some (mkMutationReceipt mutation (mu_revision row) operation (mu_edition_sha256 row) (mu_scope_sha256 row)
                  (mu_scope_set_sha256 row) (mu_alias_sha256 row) (mu_conversation_id row) (mu_committed_at row)))
  end.

Definition validate_alias_mapping (alias conversation : string) (db : IdentityDb) : result StoreError unit :=
  fail? negb (match identity_aliases db !! alias with
              | Some row => bool_decide (al_conversation_id row = conversation)
                            && bool_decide (is_Some (conversations (id_store db) !! conversation))
              | None => false
              end)
  with CorruptData "identity selection has no exact alias provenance" in
  Ok tt.

(** ** Permutations in lexicographic order *)
Section Permutation.
Context {A : Type} (lt : A -> A -> bool).

Definition lt_at (values : list A) (i j : nat) : bool :=
  match values !! i, values !! j with Some x, Some y => lt x y | _, _ => false end.

(** [(0..len - 1).rev().find(|i| values[i] < values[i + 1])] *)
Definition find_pivot (values : list A) : option nat :=
  List.find (fun i => lt_at values i (S i)) (rev (seq 0 (pred (length values)))).
(** [(pivot + 1..len).rev().find(|i| values[pivot] < values[i])] *)
Definition find_successor (values : list A) (pivot : nat) : option nat :=
  List.find (fun i => lt_at values pivot i) (rev (seq (S pivot) (length values - S pivot))).

(** [values.swap(i, j)] *)
Definition swap (values : list A) (i j : nat) : list A :=
  match values !! i, values !! j with
  | Some x, Some y => <[i := y]> (<[j := x]> values)
  | _, _ => values
  end.

(** The next permutation, or [None] when the values are in descending order. *)
Definition advance_permutation (values : list A) : option (list A) :=
  match find_pivot values with
  | None => None
  | Some pivot =>
      match find_successor values pivot with
      | None => None
      | Some successor =>
          let values' := swap values pivot successor in
          Some (take (S pivot) values' ++ rev (drop (S pivot) values'))
      end
  end.
End Permutation.

(** [for factor in 2..=remaining.len()] with its checked product. *)
Fixpoint bounded_permutations (factors : list Z) (count : Z) : result StoreError unit :=
  match factors with
  | [] => Ok tt
  | factor :: rest =>
      let count := count * factor in
      fail? u64_max <? count with CorruptData "identity migrated-v3 scope-set digest cannot be bounded" in
      fail? MAX_MIGRATED_V3_SCOPE_PERMUTATIONS <? count
      with CorruptData "identity migrated-v3 scope-set digest cannot be authenticated" in
      bounded_permutations rest count
  end.

Section Validation.
Context `{External} `{MillisFormat} `{Digest} `{UuidFormat}.

(** The search loop, which the code does not bound: [None] is a search that has not
    ended after [fuel] turns. *)
Fixpoint search_digest (fuel : nat) (expected primary : string) (remaining : list string)
    : option (result StoreError unit) :=
  match fuel with
  | O => None
  | S fuel' =>
      match map_err (fun _ => CorruptData "identity migrated-v3 scope-set digest is invalid")
              (scope_set_sha256_from_hashes (primary :: remaining)) with
      | Err e => Some (Err e)
      | Ok digest =>
          if bool_decide (digest = expected) then Some (Ok tt)
          else match advance_permutation str_ltb remaining with
               | Some next => search_digest fuel' expected primary next
               | None => Some (Err (CorruptData "identity migrated-v3 scope-set digest is unauthenticated"))
               end
      end
  end.

(** The search takes at most one turn per order of the scopes, so its last
    alternative, an outcome the code does not have, is never taken. *)
Definition validate_migrated_v3_scope_set_digest (receipt : MutationReceipt) (scope_refs : list string)
    : result StoreError unit :=
  let primary := rc_scope_sha256 receipt in
  let remaining := merge_sort str_le (filter (fun scope => scope <> primary) scope_refs) in
  let? _ := bounded_permutations (seqZ 2 (Z.of_nat (length remaining) - 1)) 1 in
  match search_digest (S (fact (length remaining))) (rc_scope_set_sha256 receipt) primary remaining with
  | Some outcome => outcome
  | None => Err (CorruptData "endless search")
  end.

(** A migrated selection of exactly this authority. *)
Definition is_migrated (edition scope alias conversation : string) (revision : Z) (updated_at : string) (db : IdentityDb)
    : bool :=
  match identity_migrated_scopes db !! (edition, scope) with
  | Some r => bool_decide (sl_alias_sha256 r = alias) && bool_decide (sl_conversation_id r = conversation)
              && (sl_revision r =? revision) && bool_decide (sl_updated_at r = updated_at)
  | None => false
  end.
Definition count_migrated (edition alias conversation : string) (revision : Z) (updated_at : string) (db : IdentityDb) : nat :=
  size (filter (fun p => p.1.1 = edition
                  /\ is_migrated p.1.1 p.1.2 alias conversation revision updated_at db = true)
          (identity_migrated_scopes db)).

Definition validate_migrated_v3_save_receipt (receipt : MutationReceipt) (alias conversation : string)
    (scope_refs : list string) (db : IdentityDb) : result StoreError bool :=
  let count := count_migrated (rc_edition_sha256 receipt) alias conversation (rc_revision receipt) (rc_committed_at receipt) db in
  if Nat.eqb count 0 then Ok false
  else
    let? _ := map_err (fun _ => CorruptData "identity migrated-v3 receipt scope membership is invalid")
                (scope_set_sha256_from_hashes scope_refs) in
    fail? negb (Nat.eqb count (length scope_refs)) || negb (bool_decide (rc_scope_sha256 receipt ∈ scope_refs))
    with CorruptData "identity migrated-v3 receipt scope membership is inconsistent" in
    fail? existsb (fun scope => negb (is_migrated (rc_edition_sha256 receipt) scope alias conversation
                                        (rc_revision receipt) (rc_committed_at receipt) db)) scope_refs
    with CorruptData "identity migrated-v3 receipt scope authority is inconsistent" in
    let? _ := validate_migrated_v3_scope_set_digest receipt scope_refs in
    Ok true.

Definition validate_mutation_receipt (receipt : MutationReceipt) (expected_edition : string) (db : IdentityDb)
    : result StoreError unit :=
  let? _ := validate_revision (rc_revision receipt) in
  fail? negb (forallb is_lower_hex_sha256
                [rc_mutation_sha256 receipt; rc_edition_sha256 receipt; rc_scope_sha256 receipt; rc_scope_set_sha256 receipt])
  with CorruptData "identity mutation receipt digest is not lower-case SHA-256" in
  fail? negb (bool_decide (rc_edition_sha256 receipt = expected_edition))
  with CorruptData "identity mutation receipt crosses edition authority" in
  let? _ := validate_canonical_timestamp (rc_committed_at receipt)
              "identity mutation receipt timestamp is not canonical UTC" in
  let scope_refs := receipt_scopes (rc_mutation_sha256 receipt) db in
  match rc_operation receipt with
  | Save =>
      match rc_alias_sha256 receipt, rc_conversation_id receipt with
      | Some alias, Some conversation =>
          fail? negb (is_lower_hex_sha256 alias) || negb (is_ok (parse_conversation_id conversation))
          with CorruptData "identity save receipt payload is inconsistent" in
          let? _ := validate_alias_mapping alias conversation db in
          let? migrated := validate_migrated_v3_save_receipt receipt alias conversation scope_refs db in
          if migrated : bool then Ok tt
          else
            fail? negb (bool_decide (head scope_refs = Some (rc_scope_sha256 receipt)))
            with CorruptData "identity native-v4 save receipt scope digest is inconsistent" in
            let? digest := map_err (fun _ => CorruptData "identity save receipt scope set is invalid")
                             (scope_set_sha256_from_hashes scope_refs) in
            fail? negb (bool_decide (digest = rc_scope_set_sha256 receipt))
            with CorruptData "identity native-v4 save receipt scope digest is inconsistent" in
            Ok tt
      | _, _ => Err (CorruptData "identity mutation receipt payload is inconsistent")
      end
  | ClearScope =>
      fail? bool_decide (is_Some (rc_alias_sha256 receipt)) || bool_decide (is_Some (rc_conversation_id receipt))
            || negb (bool_decide (scope_refs = [rc_scope_sha256 receipt]))
      with CorruptData "identity clear-scope receipt is inconsistent" in
      let? digest := map_err (fun _ => CorruptData "identity clear-scope receipt scope set is invalid")
                       (scope_set_sha256_from_hashes scope_refs) in
      fail? negb (bool_decide (digest = rc_scope_set_sha256 receipt))
      with CorruptData "identity clear-scope receipt is inconsistent" in
      Ok tt
  | ClearAll =>
      fail? bool_decide (is_Some (rc_alias_sha256 receipt)) || bool_decide (is_Some (rc_conversation_id receipt))
            || negb (bool_decide (scope_refs = [])) || negb (bool_decide (rc_scope_sha256 receipt = clear_all_sha256))
            || negb (bool_decide (rc_scope_set_sha256 receipt = clear_all_sha256))
      with CorruptData "identity clear-all receipt is inconsistent" in
      Ok tt
  end.

(** [SELECT EXISTS(SELECT 1 FROM conversation_identity_mutations WHERE ..)] *)
Definition mutation_exists (P : string -> MutationRow -> bool) (db : IdentityDb) : bool :=
  fold_exists P (identity_mutations db).

(** One pass of the loop of [validate_effect_receipt]. *)
Definition check_effect (operation : string) (effect : option EffectRow) (edition : string) (scope : option string)
    (db : IdentityDb) : result StoreError unit :=
  match effect with
  | None => Ok tt
  | Some e =>
      let? _ := validate_revision (ef_revision e) in
      let? _ := validate_canonical_timestamp (ef_cleared_at e) "identity clear effect timestamp is not canonical UTC" in
      fail? negb (mutation_exists (fun _ r =>
              bool_decide (mu_operation r = operation) && bool_decide (mu_edition_sha256 r = edition)
              && match scope with Some s => bool_decide (mu_scope_sha256 r = s) | None => true end
              && (mu_revision r =? ef_revision e) && bool_decide (mu_committed_at r = ef_cleared_at e)) db)
      with CorruptData "identity clear effect has no mutation receipt" in
      Ok tt
  end.
Definition validate_effect_receipt (edition : string) (scope : ConversationIdentityScope)
    (scope_clear all_clear : option EffectRow) (db : IdentityDb) : result StoreError unit :=
  let? _ := check_effect "clear_scope" scope_clear edition (Some (as_sha256 scope)) db in
  check_effect "clear_all" all_clear edition None db.

Definition validate_selection_receipt (edition : string) (scope : ConversationIdentityScope) (row : SelectionRow)
    (db : IdentityDb) : result StoreError unit :=
  let? _ := validate_canonical_timestamp (sl_updated_at row)
              "identity scope selection timestamp is not canonical UTC" in
  let? _ := validate_alias_mapping (sl_alias_sha256 row) (sl_conversation_id row) db in
  fail? negb (mutation_exists (fun mutation m =>
                bool_decide (mu_operation m = "save") && bool_decide (mu_edition_sha256 m = edition)
                && bool_decide (as_sha256 scope ∈ receipt_scopes mutation db)
                && bool_decide (mu_alias_sha256 m = Some (sl_alias_sha256 row))
                && bool_decide (mu_conversation_id m = Some (sl_conversation_id row))
                && (mu_revision m =? sl_revision row) && bool_decide (mu_committed_at m = sl_updated_at row)) db
              || is_migrated edition (as_sha256 scope) (sl_alias_sha256 row) (sl_conversation_id row) (sl_revision row)
                   (sl_updated_at row) db)
  with CorruptData "identity scope selection has no exact save receipt" in
  Ok tt.
End Validation.
