(* ===== verification/IdentityOps.v ===== *)
(** * Operations of the identity store (src/src/runtime/store/identity.rs)

    Saving and clearing conversation identities in one transaction each, and the
    state of a scope as authenticated by the receipts. *)
From stdpp Require Import base list gmap strings sorting.
From Stdlib Require Import ZArith Lia.
From S2P Require Import Prelude RustStr External Digest Tables RunContract StoreBase AssistantContent RunStore Identity IdentityStore IdentityValidation.

Open Scope Z_scope.
Open Scope rust_scope.

Section Operations.
Context `{External} `{MillisFormat} `{Digest} `{UuidFormat}.

Definition input {A} (r : result IdentityError A) : result StoreError A := map_err (fun _ => identity_input) r.

(** The last commit when it carries this mutation token. *)
Definition replayed (mutation : string) (db : IdentityDb) : result StoreError (option IdentityCommit) :=
  let? existing := commit_on db in
  Ok (match existing with
      | Some c => if bool_decide (ic_mutation_sha256 c = mutation) then Some c else None
      | None => None
      end).

Definition save_conversation_identity (edition_slug : string) (scopes : list ConversationIdentityScope)
    (external_id mutation_token : string) (t : Tick) : Tx IdentityDb StoreError IdentityCommit :=
  edition <- tlift (input (edition_sha256 edition_slug)) ;
  external <- tlift (input (external_identity external_id)) ;
  mutation <- tlift (input (mutation_sha256 mutation_token)) ;
  set <- tlift (input (scope_set_sha256 scopes)) ;
  let primary := first_scope scopes in
  transaction
    (found <- tread (replayed mutation) ;
     match found with
     | Some existing =>
         if bool_decide (ic_edition_sha256 existing = edition) && bool_decide (ic_scope_sha256 existing = primary)
            && bool_decide (ic_scope_set_sha256 existing = set)
            && bool_decide (ic_alias_sha256 existing = Some (ex_alias_sha256 external))
            && bool_decide (ic_conversation_id existing = Some (ex_conversation_id external))
         then
           tread (validate_alias_provenance (ex_alias_sha256 external) (ex_conversation_id external)) ;;
           tread (validate_scope_set edition scopes external) ;;
           tread (validate_current_receipt existing scopes) ;;
           tret existing
         else traise identity_conflict
     | None =>
         tread (reject_replayed_mutation mutation) ;;
         tread (validate_alias_provenance (ex_alias_sha256 external) (ex_conversation_id external)) ;;
         insert_or_ignore_conversation (ex_conversation_id external) (now t) ;;
         insert_or_ignore_alias (ex_alias_sha256 external) (mkAliasRow (ex_conversation_id external) "runtime_v3" (now t)) ;;
         tread (validate_alias_provenance (ex_alias_sha256 external) (ex_conversation_id external)) ;;
         revision <- tread next_revision ;
         revision <- tlift (sql_revision revision) ;
         each (fun scope =>
                 delete_tombstone edition (as_sha256 scope) ;;
                 upsert_selection edition (as_sha256 scope)
                   (mkSelectionRow (ex_alias_sha256 external) (ex_conversation_id external) revision (now t))) scopes ;;
         upsert_commit mutation
           (mkMutationRow revision "save" edition primary set (Some (ex_alias_sha256 external))
              (Some (ex_conversation_id external : string)) (now t)) ;;
         committed <- tread commit_on ;
         committed <- tlift (ok_or committed (CorruptData "identity commit disappeared inside transaction")) ;
         insert_mutation_receipt committed scopes ;;
         tret committed
     end).

(** Operation, primary scope and scope-set digest of a clear. *)
Definition clear_target (scopes : option (list ConversationIdentityScope))
    : result StoreError (IdentityOperation * string * string) :=
  match scopes with
  | Some scopes =>
      fail? negb (Nat.eqb (length scopes) 1)
      with InvalidInput "conversation identity clear requires exactly one scope" in
      let? set := input (scope_set_sha256 scopes) in
      Ok (ClearScope, first_scope scopes, set)
  | None => Ok (ClearAll, clear_all_sha256, clear_all_sha256)
  end.

Definition matches_clear (existing : IdentityCommit) (edition_slug : string)
    (scopes : option (list ConversationIdentityScope)) (mutation_token : string) : bool :=
  match scopes with
  | Some scopes => matches_clear_scopes existing edition_slug scopes mutation_token
  | None => matches_clear_all existing edition_slug mutation_token
  end.

Definition clear_effects (edition : string) (scopes : option (list ConversationIdentityScope)) (effect : EffectRow)
    : Tx IdentityDb StoreError unit :=
  match scopes with
  | Some scopes =>
      each (fun scope =>
              delete_selection edition (as_sha256 scope) ;;
              upsert_tombstone edition (as_sha256 scope) effect) scopes
  | None => delete_edition edition ;; upsert_clear_all edition effect
  end.

Definition clear_conversation_identity (edition_slug : string) (scopes : option (list ConversationIdentityScope))
    (mutation_token : string) (t : Tick) : Tx IdentityDb StoreError IdentityCommit :=
  edition <- tlift (input (edition_sha256 edition_slug)) ;
  mutation <- tlift (input (mutation_sha256 mutation_token)) ;
  target <- tlift (clear_target scopes) ;
  let '(operation, primary, set) := target in
  transaction
    (found <- tread (replayed mutation) ;
     match found with
     | Some existing =>
         if matches_clear existing edition_slug scopes mutation_token
         then
           tread (validate_clear_effect edition scopes existing) ;;
           tread (validate_current_receipt existing (default [] scopes)) ;;
           tret existing
         else traise identity_conflict
     | None =>
         tread (reject_replayed_mutation mutation) ;;
         revision <- tread next_revision ;
         revision <- tlift (sql_revision revision) ;
         clear_effects edition scopes (mkEffectRow revision (now t)) ;;
         upsert_commit mutation (mkMutationRow revision (operation_name operation) edition primary set None None (now t)) ;;
         committed <- tread commit_on ;
         committed <- tlift (ok_or committed (CorruptData "identity clear commit disappeared inside transaction")) ;
         insert_mutation_receipt committed (default [] scopes) ;;
         tret committed
     end).

Definition verify_clear_conversation_identity (edition_slug : string) (scopes : option (list ConversationIdentityScope))
    (commit : IdentityCommit) : Tx IdentityDb StoreError unit :=
  edition <- tlift (input (edition_sha256 edition_slug)) ;
  tread (validate_clear_effect edition scopes commit).

(** ** The state of a scope *)
Definition opt_max (a b : option Z) : option Z :=
  match a, b with Some x, Some y => Some (Z.max x y) | Some x, None => Some x | None, o => o end.

(** The receipts a read of the scope relies on: the latest clear of the scope,
    the latest clear of the edition and the latest save that covers the scope. *)
Definition covers_clear (edition scope : string) (db : IdentityDb) (mutation : string) (m : MutationRow) : bool :=
  bool_decide (mu_operation m = "clear_scope") && bool_decide (mu_edition_sha256 m = edition)
  && (bool_decide (mu_scope_sha256 m = scope) || bool_decide (scope ∈ receipt_scopes mutation db)).
Definition covers_all (edition : string) (mutation : string) (m : MutationRow) : bool :=
  bool_decide (mu_operation m = "clear_all") && bool_decide (mu_edition_sha256 m = edition).
Definition covers_save (edition scope : string) (db : IdentityDb) (mutation : string) (m : MutationRow) : bool :=
  bool_decide (mu_operation m = "save") && bool_decide (mu_edition_sha256 m = edition)
  && (bool_decide (scope ∈ receipt_scopes mutation db)
      || match mu_alias_sha256 m, mu_conversation_id m with
         | Some alias, Some conversation =>
             is_migrated (mu_edition_sha256 m) scope alias conversation (mu_revision m) (mu_committed_at m) db
         | _, _ => false
         end).

Fixpoint validate_receipts (receipts : list (option MutationReceipt)) (edition : string) (db : IdentityDb)
    : result StoreError unit :=
  match receipts with
  | [] => Ok tt
  | None :: rest => validate_receipts rest edition db
  | Some receipt :: rest => let? _ := validate_mutation_receipt receipt edition db in validate_receipts rest edition db
  end.
Fixpoint validate_revisions (revisions : list (option Z)) : result StoreError unit :=
  match revisions with
  | [] => Ok tt
  | None :: rest => validate_revisions rest
  | Some r :: rest => let? _ := validate_revision r in validate_revisions rest
  end.

(** [a.is_none_or(|x| p(x))] *)
Definition none_or {A} (o : option A) (p : A -> bool) : bool := match o with Some x => p x | None => true end.

(** The latest authority of each kind must have left its effect. *)
Definition check_authority (selected cleared_after receipt_clear saved : option Z) : result StoreError unit :=
  fail? match receipt_clear with
        | Some receipt => none_or selected (fun s => s <=? receipt) && none_or cleared_after (fun e => e <? receipt)
        | None => false
        end
  with CorruptData "identity clear receipt is missing its canonical effect" in
  fail? match saved with
        | Some s => none_or receipt_clear (fun c => c <? s) && none_or selected (fun r => r <? s)
        | None => false
        end
  with CorruptData "identity save receipt is missing its canonical selection" in
  Ok tt.

Definition scope_selection (edition : string) (scope : ConversationIdentityScope) (db : IdentityDb)
    : result StoreError IdentityScopeSelection :=
  let id := as_sha256 scope in
  let selection := identity_scopes db !! (edition, id) in
  let scope_clear := identity_tombstones db !! (edition, id) in
  let all_clear := identity_clear_all db !! edition in
  let? scope_receipt := mutation_receipt_on (covers_clear edition id db) db in
  let? all_receipt := mutation_receipt_on (covers_all edition) db in
  let? save_receipt := mutation_receipt_on (covers_save edition id db) db in
  let? _ := validate_receipts [scope_receipt; all_receipt; save_receipt] edition db in
  let migrated_save := sl_revision <$> identity_migrated_scopes db !! (edition, id) in
  let revisions := [ef_revision <$> scope_clear; ef_revision <$> all_clear; rc_revision <$> scope_receipt;
                    rc_revision <$> all_receipt; rc_revision <$> save_receipt; migrated_save] in
  let? _ := validate_revisions revisions in
  let cleared_after := opt_max (ef_revision <$> scope_clear) (ef_revision <$> all_clear) in
  let receipt_clear := opt_max (rc_revision <$> scope_receipt) (rc_revision <$> all_receipt) in
  let saved := opt_max (rc_revision <$> save_receipt) migrated_save in
  let? _ := check_authority (sl_revision <$> selection) cleared_after receipt_clear saved in
  let? _ := validate_effect_receipt edition scope scope_clear all_clear db in
  match selection with
  | None => Ok (if bool_decide (is_Some cleared_after) then Tombstoned else Untracked)
  | Some row =>
      let? _ := validate_revision (sl_revision row) in
      fail? negb (is_lower_hex_sha256 (sl_alias_sha256 row))
      with CorruptData "identity scope selection contains invalid opaque material" in
      let? conversation := parse_conversation_id (sl_conversation_id row) in
      let? _ := validate_selection_receipt edition scope row db in
      if match cleared_after with Some cleared => sl_revision row <=? cleared | None => false end
      then Ok Tombstoned
      else Ok (Selected (sl_alias_sha256 row) conversation)
  end.

Definition identity_scope_selection (edition_slug : string) (scope : ConversationIdentityScope)
    : Tx IdentityDb StoreError IdentityScopeSelection :=
  edition <- tlift (input (edition_sha256 edition_slug)) ;
  tread (scope_selection edition scope).

Definition identity_scope_state (edition_slug : string) (scope : ConversationIdentityScope)
    (mirror_candidate : option string) : Tx IdentityDb StoreError IdentityScopeState :=
  selection <- identity_scope_selection edition_slug scope ;
  candidate_matches <-
    tlift (match mirror_candidate with
           | Some candidate => let? b := input (matches_external_id selection candidate) in Ok (Some b)
           | None => Ok None
           end) ;
  tret (match selection with
        | Untracked => StateUntracked
        | Tombstoned => StateTombstoned
        | Selected _ _ => if bool_decide (candidate_matches = Some true) then StateCurrent else StateDiverged
        end).

(** Other scopes of the edition, the global one apart, that select this identity. *)
Definition count_owners (edition : string) (scope : ConversationIdentityScope) (external : ExternalIdentity)
    (db : IdentityDb) : nat :=
  size (filter (fun p => p.1.1 = edition /\ p.1.2 <> as_sha256 scope /\ p.1.2 <> as_sha256 global_scope
                  /\ sl_alias_sha256 p.2 = ex_alias_sha256 external
                  /\ sl_conversation_id p.2 = ex_conversation_id external)
          (identity_scopes db)).

Definition missing_mirror : StoreError := InvalidInput "canonical conversation scope is missing its mirror".

(** The state and the owners are two reads; no other call comes between them here. *)
Definition authorize_clear_scope_candidate (edition_slug : string) (scope : ConversationIdentityScope)
    (mirror_candidate : option string) : Tx IdentityDb StoreError unit :=
  state <- identity_scope_state edition_slug scope mirror_candidate ;
  let check_owner (candidate : string) : Tx IdentityDb StoreError unit :=
    edition <- tlift (input (edition_sha256 edition_slug)) ;
    external <- tlift (input (external_identity candidate)) ;
    if bool_decide (scope = global_scope) then tret tt
    else tread (fun db =>
           fail? negb (Nat.eqb (count_owners edition scope external db) 0)
           with InvalidInput "conversation mirror is shared by another working-directory scope" in
           Ok tt) in
  match state, mirror_candidate with
  | (StateCurrent | StateUntracked), Some candidate => check_owner candidate
  | StateCurrent, None => traise missing_mirror
  | StateUntracked, None => tret tt
  | StateTombstoned, None => tret tt
  | StateTombstoned, Some _ => traise (InvalidInput "conversation mirror is superseded by a clear tombstone")
  | StateDiverged, _ => traise (InvalidInput "conversation mirror diverges from the cleared scope")
  end.
End Operations.
