(* ===== verification/IdentityLedger.v ===== *)
(** * The identity store as a log of mutations

    What a store of identities promises is a log: each accepted call appends one
    mutation, and a scope is in the state its last mutation left.  [represents]
    says how the tables encode a log. *)
From stdpp Require Import base list gmap strings sorting relations.
From Stdlib Require Import ZArith Lia.
From S2P Require Import Prelude RustStr External Digest Tables RunContract StoreBase AssistantContent RunStore Identity IdentityStore IdentityValidation IdentityOps.

Open Scope Z_scope.
Open Scope rust_scope.

(** ** The log *)
Inductive IdentityEffect :=
| ESave (scopes : list string) (alias : string) (conversation : ConversationId)
| EClear (scope : string)
| EClearAll.

Record Mutation := mkMutation {
  mn_token : string;
  mn_edition : string;
  mn_effect : IdentityEffect;
  mn_at : string;
}.

(** The mutation reaches the scope of the edition. *)
Definition affects (edition scope : string) (m : Mutation) : bool :=
  bool_decide (mn_edition m = edition)
  && match mn_effect m with
     | ESave scopes _ _ => bool_decide (scope ∈ scopes)
     | EClear s => bool_decide (s = scope)
     | EClearAll => true
     end.

(** The last mutation that satisfies [Q], with its revision; a log is written
    newest first and the oldest mutation has revision 1. *)
Fixpoint last_such (Q : Mutation -> bool) (log : list Mutation) : option (Z * Mutation) :=
  match log with
  | [] => None
  | m :: older => if Q m then Some (Z.of_nat (length log), m) else last_such Q older
  end.

(** The state of a scope: what its last mutation did. *)
Definition selection_of (log : list Mutation) (edition scope : string) : IdentityScopeSelection :=
  match last_such (affects edition scope) log with
  | Some (_, m) => match mn_effect m with ESave _ alias conversation => Selected alias conversation | _ => Tombstoned end
  | None => Untracked
  end.

Lemma last_such_In Q log r m :
  last_such Q log = Some (r, m) ->
  Q m = true /\ m ∈ log /\ 1 <= r <= Z.of_nat (length log).
Proof.
  induction log as [|x log IH]; [discriminate|]. simpl. destruct (Q x) eqn:Hq.
  - intros [= <- <-]. split; [done|]. split; [left|simpl; lia].
  - intros (? & ? & ?)%IH. split; [done|]. split; [by right|simpl; lia].
Qed.

Lemma last_such_none Q log : last_such Q log = None -> forall m, m ∈ log -> Q m = false.
Proof.
  induction log as [|x log IH]; [by intros _ m ?%elem_of_nil|]. simpl. destruct (Q x) eqn:Hq; [discriminate|].
  intros Hn m [->|Hm]%elem_of_cons; [done|by apply IH].
Qed.

Lemma last_such_ext Q Q' log : (forall m, m ∈ log -> Q m = Q' m) -> last_such Q log = last_such Q' log.
Proof.
  induction log as [|x log IH]; intros Heq; [done|]. simpl. rewrite (Heq x) by left.
  destruct (Q' x); [done|]. apply IH. intros m Hm. apply Heq. by right.
Qed.

(** Of two last mutations the one of a union is the later. *)
Lemma last_such_or Q1 Q2 log :
  last_such (fun m => Q1 m || Q2 m) log
  = match last_such Q1 log, last_such Q2 log with
    | Some (r1, m1), Some (r2, m2) => if r2 <=? r1 then Some (r1, m1) else Some (r2, m2)
    | Some x, None => Some x
    | None, o => o
    end.
Proof.
  induction log as [|x log IH]; [done|]. cbn [last_such length].
  destruct (Q1 x) eqn:H1, (Q2 x) eqn:H2; cbn [orb]; [by rewrite Z.leb_refl| | |exact IH].
  - destruct (last_such Q2 log) as [[r m]|] eqn:Hl; [|done]. apply last_such_In in Hl as (_ & _ & ?).
    by rewrite (proj2 (Z.leb_le _ _)) by lia.
  - destruct (last_such Q1 log) as [[r m]|] eqn:Hl; [|done]. apply last_such_In in Hl as (_ & _ & ?).
    by rewrite (proj2 (Z.leb_gt _ _)) by lia.
Qed.

(** The three kinds of mutation. *)
Definition is_save (edition scope : string) (m : Mutation) : bool :=
  bool_decide (mn_edition m = edition) && match mn_effect m with ESave scopes _ _ => bool_decide (scope ∈ scopes) | _ => false end.
Definition is_clear (edition scope : string) (m : Mutation) : bool :=
  bool_decide (mn_edition m = edition) && match mn_effect m with EClear s => bool_decide (s = scope) | _ => false end.
Definition is_clear_all (edition : string) (m : Mutation) : bool :=
  bool_decide (mn_edition m = edition) && match mn_effect m with EClearAll => true | _ => false end.

Lemma affects_kinds edition scope m :
  affects edition scope m = is_save edition scope m || (is_clear edition scope m || is_clear_all edition m).
Proof. unfold affects, is_save, is_clear, is_clear_all. destruct (bool_decide _), (mn_effect m); simpl; by rewrite ?orb_false_r. Qed.

Section Ledger.
Context {EX : External} {MF : MillisFormat} {DG : Digest} {UF : UuidFormat}.

(** ** The rows of a mutation *)
Definition entry_scopes (m : Mutation) : list string :=
  match mn_effect m with ESave scopes _ _ => scopes | EClear s => [s] | EClearAll => [] end.
Definition primary_scope (m : Mutation) : string :=
  match mn_effect m with EClearAll => clear_all_sha256 | _ => default EmptyString (head (entry_scopes m)) end.
Definition scope_set (m : Mutation) : string :=
  match mn_effect m with
  | EClearAll => clear_all_sha256
  | _ => match scope_set_sha256_from_hashes (entry_scopes m) with Ok d => d | Err _ => EmptyString end
  end.
Definition entry_operation (m : Mutation) : IdentityOperation :=
  match mn_effect m with ESave _ _ _ => Save | EClear _ => ClearScope | EClearAll => ClearAll end.
Definition entry_alias (m : Mutation) : option string :=
  match mn_effect m with ESave _ alias _ => Some alias | _ => None end.
Definition entry_conversation (m : Mutation) : option ConversationId :=
  match mn_effect m with ESave _ _ conversation => Some conversation | _ => None end.
Definition entry_row (r : Z) (m : Mutation) : MutationRow :=
  mkMutationRow r (operation_name (entry_operation m)) (mn_edition m) (primary_scope m) (scope_set m)
    (entry_alias m) (entry_conversation m) (mn_at m).
Definition entry_commit (r : Z) (m : Mutation) : IdentityCommit :=
  mkIdentityCommit r (entry_operation m) (mn_edition m) (primary_scope m) (scope_set m) (entry_alias m)
    (entry_conversation m) (mn_token m) (mn_at m).

(** What a mutation must be for its rows to be valid. *)
Record mutation_shape (m : Mutation) : Prop := {
  mo_token : is_lower_hex_sha256 (mn_token m) = true;
  mo_edition : is_lower_hex_sha256 (mn_edition m) = true;
  mo_scopes : match mn_effect m with EClearAll => True
              | _ => exists d, scope_set_sha256_from_hashes (entry_scopes m) = Ok d end;
  mo_save : match mn_effect m with
            | ESave _ alias conversation =>
                is_lower_hex_sha256 alias = true /\ uuid_canonical conversation = Some conversation
            | _ => True end;
}.
Record mutation_ok (m : Mutation) : Prop := {
  mo_shape :> mutation_shape m;
  mo_at : canonical_utc (mn_at m) = Some (mn_at m);
}.

Fixpoint rows_of (log : list Mutation) : list (string * MutationRow) :=
  match log with
  | [] => []
  | m :: older => (mn_token m, entry_row (Z.of_nat (length log)) m) :: rows_of older
  end.
Fixpoint scope_rows (log : list Mutation) : list (string * string) :=
  match log with
  | [] => []
  | m :: older => scope_rows older ++ map (fun s => (mn_token m, s)) (entry_scopes m)
  end.

(** The rows a scope has in the tables of effects. *)
Definition selected_row (log : list Mutation) (edition scope : string) : option SelectionRow :=
  match last_such (affects edition scope) log with
  | Some (r, m) => match mn_effect m with
                   | ESave _ alias conversation => Some (mkSelectionRow alias conversation r (mn_at m))
                   | _ => None
                   end
  | None => None
  end.
Definition tombstone_row (log : list Mutation) (edition scope : string) : option EffectRow :=
  match last_such (affects edition scope) log with
  | Some (r, m) => match mn_effect m with EClear _ => Some (mkEffectRow r (mn_at m)) | _ => None end
  | None => None
  end.
Definition clear_all_row (log : list Mutation) (edition : string) : option EffectRow :=
  match last_such (is_clear_all edition) log with Some (r, m) => Some (mkEffectRow r (mn_at m)) | None => None end.

Record represents (log : list Mutation) (db : IdentityDb) : Prop := {
  rp_ok : Forall mutation_ok log;
  rp_tokens : NoDup (map mn_token log);
  rp_bound : Z.of_nat (length log) <= i64_max;
  rp_mutations : identity_mutations db = list_to_map (rows_of log);
  rp_scopes : identity_mutation_scopes db = scope_rows log;
  rp_commit : identity_commit db = head (rows_of log);
  rp_selection : forall ed sc, identity_scopes db !! (ed, sc) = selected_row log ed sc;
  rp_tombstone : forall ed sc, identity_tombstones db !! (ed, sc) = tombstone_row log ed sc;
  rp_clear_all : forall ed, identity_clear_all db !! ed = clear_all_row log ed;
  rp_migrated : identity_migrated_scopes db = ∅;
  rp_alias : forall m scopes alias conversation, m ∈ log -> mn_effect m = ESave scopes alias conversation ->
    al_conversation_id <$> identity_aliases db !! alias = Some (conversation : string);
  rp_provenance : forall alias row, identity_aliases db !! alias = Some row ->
    is_Some (conversations (id_store db) !! al_conversation_id row)
    /\ forall alias' row', identity_aliases db !! alias' = Some row' ->
         al_conversation_id row' = al_conversation_id row -> alias' = alias;
}.

Lemma represents_empty : represents [] empty_identity_db.
Proof.
  constructor; try done; try constructor.
  - intros m scopes alias conversation Hm. by apply elem_of_nil in Hm.
Qed.

(** ** Reading the receipts *)
Fixpoint entries (log : list Mutation) : list (Z * Mutation) :=
  match log with [] => [] | m :: older => (Z.of_nat (length log), m) :: entries older end.

Lemma rows_of_entries log : rows_of log = map (fun p => (mn_token p.2, entry_row p.1 p.2)) (entries log).
Proof. induction log as [|m log IH]; [done|]. cbn [rows_of entries map]. by rewrite IH. Qed.
Lemma entries_fst log : map fst (rows_of log) = map mn_token log.
Proof. induction log as [|m log IH]; [done|]. cbn. by rewrite IH. Qed.
Lemma entries_In log r m : (r, m) ∈ entries log -> m ∈ log /\ 1 <= r <= Z.of_nat (length log).
Proof.
  induction log as [|x log IH]; [by intros ?%elem_of_nil|]. cbn [entries].
  intros [[= -> ->]|(? & ?)%IH]%elem_of_cons; [split; [left|simpl; lia]|]. split; [by right|simpl; lia].
Qed.
Lemma entries_cover log m : m ∈ log -> exists r, (r, m) ∈ entries log.
Proof.
  induction log as [|x log IH]; [by intros ?%elem_of_nil|]. intros [->|[r Hr]%IH]%elem_of_cons;
    [eexists; left|exists r; by right].
Qed.
Lemma last_such_entries Q log x : last_such Q log = Some x -> x ∈ entries log /\ Q x.2 = true.
Proof.
  induction log as [|m log IH]; [discriminate|]. cbn [last_such entries]. destruct (Q m) eqn:Hq.
  - intros [= <-]. split; [left|done].
  - intros [? ?]%IH. split; [by right|done].
Qed.

Lemma entries_sorted log : StronglySorted (fun a b : Z * Mutation => b.1 < a.1) (entries log).
Proof.
  induction log as [|m log IH]; [constructor|]. cbn [entries]. constructor; [done|].
  apply Forall_forall. intros [r x] [_ ?]%entries_In. cbn [fst length]. lia.
Qed.
(** A revision belongs to one mutation. *)
Lemma entries_unique log r m m' : (r, m) ∈ entries log -> (r, m') ∈ entries log -> m = m'.
Proof.
  induction log as [|x log IH]; [by intros ?%elem_of_nil|]. cbn [entries].
  intros [E1|H1]%elem_of_cons [E2|H2]%elem_of_cons; [congruence| | |by apply IH].
  - apply entries_In in H2 as [_ ?]. injection E1 as -> _. simpl in *. lia.
  - apply entries_In in H1 as [_ ?]. injection E2 as -> _. simpl in *. lia.
Qed.

Section Rows.
Context {log : list Mutation} {db : IdentityDb} (Hrep : represents log db).

Lemma rows_nodup : NoDup (map fst (rows_of log)).
Proof. rewrite entries_fst. exact (rp_tokens _ _ Hrep). Qed.

Lemma mutation_lookup tok row :
  identity_mutations db !! tok = Some row <-> exists r m, (r, m) ∈ entries log /\ mn_token m = tok /\ row = entry_row r m.
Proof.
  rewrite (rp_mutations _ _ Hrep), <- elem_of_list_to_map by apply rows_nodup. rewrite rows_of_entries, list_elem_of_fmap. split.
  - intros ([r m] & [= -> ->] & Hin). eauto.
  - intros (r & m & Hin & <- & ->). by exists (r, m).
Qed.

Lemma token_known tok : is_Some (identity_mutations db !! tok) <-> tok ∈ map mn_token log.
Proof.
  split.
  - intros [row (r & m & [Hm _]%entries_In & <- & _)%mutation_lookup]. apply list_elem_of_fmap. by exists m.
  - intros (m & -> & [r Hr]%entries_cover)%list_elem_of_fmap. eexists. apply mutation_lookup. eauto.
Qed.

Lemma same_token m m' : m ∈ log -> m' ∈ log -> mn_token m = mn_token m' -> m = m'.
Proof.
  intros (i & Hi)%list_elem_of_lookup (j & Hj)%list_elem_of_lookup Heq.
  assert (i = j) as <-; [|congruence].
  eapply (NoDup_lookup (map mn_token log) i j (mn_token m) (rp_tokens _ _ Hrep)); rewrite list_lookup_fmap.
  - by rewrite Hi.
  - by rewrite Hj, Heq.
Qed.

(** The scopes of a receipt, in the order in which they were given. *)
Lemma receipt_scopes_entry m : m ∈ log -> receipt_scopes (mn_token m) db = entry_scopes m.
Proof.
  intros Hm. unfold receipt_scopes. rewrite (rp_scopes _ _ Hrep). pose proof (rp_tokens _ _ Hrep) as Hnd.
  assert (forall m', filter (fun p : string * string => p.1 = mn_token m) (map (fun s => (mn_token m', s)) (entry_scopes m'))
            = if bool_decide (mn_token m' = mn_token m) then map (fun s => (mn_token m', s)) (entry_scopes m') else []) as Hone.
  { intros m'. induction (entry_scopes m') as [|s ss IH]; [by case_bool_decide|]. cbn [map]. rewrite filter_cons. cbn [fst].
    rewrite IH. case_bool_decide; [by rewrite decide_True|by rewrite decide_False]. }
  clear Hrep. induction log as [|x l IH]; [by apply elem_of_nil in Hm|]. cbn [scope_rows map] in *.
  apply NoDup_cons in Hnd as [Hx Hnd]. rewrite filter_app, map_app, Hone. apply elem_of_cons in Hm as [<-|Hm].
  - rewrite bool_decide_eq_true_2 by done. rewrite map_map. cbn [snd]. rewrite map_id.
    assert (filter (fun p : string * string => p.1 = mn_token m) (scope_rows l) = []) as ->; [|done].
    clear IH Hnd. induction l as [|y l IH]; [done|]. cbn [map] in Hx. apply not_elem_of_cons in Hx as [Hy Hx].
    cbn [scope_rows]. rewrite filter_app, IH by done. rewrite Hone, bool_decide_eq_false_2 by congruence. done.
  - rewrite IH by done. rewrite bool_decide_eq_false_2; [by rewrite app_nil_r|].
    intros Heq. apply Hx, list_elem_of_fmap. by exists m.
Qed.

(** The latest row of a query is the one of the last mutation. *)
Lemma latest_mutation_last (P : string -> MutationRow -> bool) (Q : Mutation -> bool) :
  (forall r m, (r, m) ∈ entries log -> P (mn_token m) (entry_row r m) = Q m) ->
  latest_mutation P db = match last_such Q log with Some (r, m) => Some (mn_token m, entry_row r m) | None => None end.
Proof.
  intros HPQ. unfold latest_mutation. set (F := fun p : string * MutationRow => P p.1 p.2 = true).
  assert (merge_sort newer (filter F (map_to_list (identity_mutations db))) = filter F (rows_of log)) as ->.
  { apply (ordered_unique (fun p : string * MutationRow => - mu_revision p.2)).
    - apply merge_sort_ordered. intros a b. unfold newer. lia.
    - apply ordered_filter. rewrite rows_of_entries. pose proof (entries_sorted log) as Hs.
      clear HPQ. induction Hs as [|[r m] l _ IH Hall]; [constructor|]. cbn [map]. constructor; [done|].
      apply Forall_map. eapply Forall_impl; [exact Hall|]. intros [r' m']. cbn. lia.
    - intros x y Hx Hy Heq. rewrite merge_sort_Permutation in Hx, Hy. apply list_elem_of_filter in Hx as [_ Hx], Hy as [_ Hy].
      destruct x as [tx rx], y as [ty ry]. apply elem_of_map_to_list in Hx, Hy.
      apply mutation_lookup in Hx as (r & m & Hin & <- & ->), Hy as (r' & m' & Hin' & <- & ->). cbn in Heq.
      assert (r' = r) as -> by lia. by rewrite (entries_unique log r m m').
    - rewrite merge_sort_Permutation, (rp_mutations _ _ Hrep), map_to_list_to_map by apply rows_nodup. done. }
  rewrite rows_of_entries. clear Hrep. induction log as [|m l IH]; [done|].
  cbn [entries map last_such]. rewrite filter_cons. unfold F at 1. cbn [fst snd].
  pose proof (HPQ (Z.of_nat (length (m :: l))) m ltac:(left)) as Hm.
  destruct (decide _) as [Hd|Hd], (Q m); [done|congruence|congruence|]. apply IH. intros r x Hx. apply HPQ. by right.
Qed.
End Rows.
End Ledger.
