(* ===== verification/IdentityReads.v ===== *)
(** * Reading the state of a scope

    On a store that encodes a log every receipt validates and the read of a scope
    returns what its last mutation left. *)
From stdpp Require Import base list gmap strings sorting relations.
From Stdlib Require Import ZArith Lia.
From S2P Require Import Prelude RustStr External Digest Tables RunContract StoreBase AssistantContent RunStore Identity IdentityStore IdentityValidation IdentityOps IdentityLedger.

Open Scope Z_scope.
Open Scope rust_scope.

Section Reads.
Context {EX : External} {MF : MillisFormat} {DG : Digest} {UF : UuidFormat} {DL : DigestLaws}.

(** ** Digests *)
Lemma digest_hex bs : is_lower_hex_sha256 (hexadecimal (sha256 bs)) = true.
Proof.
  destruct (hexadecimal_ok (sha256 bs) (sha256_bytes bs)) as [Hlen Hhex].
  unfold is_lower_hex_sha256. rewrite Hlen, sha256_length. by apply forallb_Forall.
Qed.

Lemma distinct_spec seen l :
  scopes_distinct seen l = true -> Forall (fun s => is_lower_hex_sha256 s = true) l /\ NoDup l /\ (forall s, s ∈ l -> s ∉ seen).
Proof.
  revert seen. induction l as [|s l IH]; intros seen Hd; [split; [done|split; [constructor|by intros s ?%elem_of_nil]]|].
  cbn in Hd. apply andb_true_iff in Hd as [[Hh Hs]%andb_true_iff (H1 & H2 & H3)%IH]. bools. split; [by constructor|]. split.
  - constructor; [|done]. intros Hin. apply (H3 s Hin). apply elem_of_app. right. by apply list_elem_of_singleton.
  - intros x [->|Hx]%elem_of_cons; [done|]. intros Hin. apply (H3 x Hx). apply elem_of_app. by left.
Qed.

Lemma scope_set_ok l d :
  scope_set_sha256_from_hashes l = Ok d ->
  l <> [] /\ Forall (fun s => is_lower_hex_sha256 s = true) l /\ NoDup l /\ is_lower_hex_sha256 d = true.
Proof.
  unfold scope_set_sha256_from_hashes. destruct (bool_decide (l = [])) eqn:He; [discriminate|]. bools.
  destruct (MAX_IDENTITY_SCOPES <? _); [discriminate|]. cbn [orb]. destruct (scopes_distinct [] l) eqn:Hd; [|discriminate].
  intros [= <-]. apply distinct_spec in Hd as (? & ? & _). split_and!; [done..|]. apply digest_hex.
Qed.

Lemma entry_scope_set m : mutation_shape m ->
  is_lower_hex_sha256 (primary_scope m) = true /\ is_lower_hex_sha256 (scope_set m) = true
  /\ match mn_effect m with
     | EClearAll => True
     | _ => scope_set_sha256_from_hashes (entry_scopes m) = Ok (scope_set m) /\ head (entry_scopes m) = Some (primary_scope m)
     end.
Proof.
  intros [_ _ Hs _]. unfold primary_scope, scope_set. destruct (mn_effect m) eqn:He.
  3:{ split_and!; [apply digest_hex..|done]. }
  all: destruct Hs as [d Hd]; rewrite Hd; apply scope_set_ok in Hd as (Hne & Hall & _ & Hh);
    destruct (entry_scopes m); [done|]; cbn; apply Forall_cons in Hall as [? _]; by split_and!.
Qed.

Lemma parse_operation m : IdentityOperation_parse (operation_name (entry_operation m)) = Some (entry_operation m).
Proof. by destruct (entry_operation m). Qed.

Definition receipt_of (r : Z) (m : Mutation) : MutationReceipt :=
  mkMutationReceipt (mn_token m) r (entry_operation m) (mn_edition m) (primary_scope m) (scope_set m) (entry_alias m)
    (entry_conversation m) (mn_at m).

Context {log : list Mutation} {db : IdentityDb} (Hrep : represents log db).

Lemma entry_ok m : m ∈ log -> mutation_ok m.
Proof. intros Hm. pose proof (rp_ok _ _ Hrep) as Hall. rewrite Forall_forall in Hall. by apply Hall. Qed.

Lemma receipt_on_last (P : string -> MutationRow -> bool) (Q : Mutation -> bool) :
  (forall r m, (r, m) ∈ entries log -> P (mn_token m) (entry_row r m) = Q m) ->
  mutation_receipt_on P db = Ok (match last_such Q log with Some (r, m) => Some (receipt_of r m) | None => None end).
Proof.
  intros HPQ. unfold mutation_receipt_on. rewrite (latest_mutation_last Hrep P Q HPQ).
  destruct (last_such Q log) as [[r m]|]; [|done]. cbn [mu_operation entry_row]. by rewrite parse_operation.
Qed.

Lemma not_migrated edition scope alias conversation r at_ :
  is_migrated edition scope alias conversation r at_ db = false.
Proof. unfold is_migrated. by rewrite (rp_migrated _ _ Hrep), lookup_empty. Qed.
Lemma none_migrated edition alias conversation r at_ : count_migrated edition alias conversation r at_ db = 0%nat.
Proof. unfold count_migrated. by rewrite (rp_migrated _ _ Hrep), map_filter_empty, map_size_empty. Qed.

Lemma canonical_ok timestamp message :
  canonical_utc timestamp = Some timestamp -> validate_canonical_timestamp timestamp message = Ok tt.
Proof. unfold validate_canonical_timestamp. intros ->. cbn. by rewrite bool_decide_eq_true_2. Qed.

Lemma revision_ok r : 1 <= r -> validate_revision r = Ok tt.
Proof. intros Hr. unfold validate_revision. by destruct (Z.leb_spec r 0); [lia|]. Qed.

Lemma alias_mapping_ok m scopes alias conversation :
  m ∈ log -> mn_effect m = ESave scopes alias conversation -> validate_alias_mapping alias conversation db = Ok tt.
Proof.
  intros Hm He. pose proof (rp_alias _ _ Hrep m _ _ _ Hm He) as Ha. unfold validate_alias_mapping.
  destruct (identity_aliases db !! alias) as [row|] eqn:Hrow; [|discriminate]. injection Ha as <-.
  rewrite bool_decide_eq_true_2 by done. by rewrite bool_decide_eq_true_2 by apply (rp_provenance _ _ Hrep alias row Hrow).
Qed.

(** Every receipt of the log passes its validation. *)
Lemma receipt_valid r m : (r, m) ∈ entries log -> validate_mutation_receipt (receipt_of r m) (mn_edition m) db = Ok tt.
Proof.
  intros Hin. pose proof (entries_In _ _ _ Hin) as [Hm Hr]. pose proof (entry_ok m Hm) as Hok.
  destruct (entry_scope_set m Hok) as (Hprim & Hset & Hscopes). pose proof Hok as [[Htok Hed _ Hsave] Hat].
  unfold validate_mutation_receipt. cbn [receipt_of rc_revision rc_mutation_sha256 rc_edition_sha256 rc_scope_sha256
    rc_scope_set_sha256 rc_committed_at rc_operation rc_alias_sha256 rc_conversation_id].
  rewrite revision_ok by lia. cbn [forallb]. rewrite Htok, Hed, Hprim, Hset. cbn [andb negb].
  rewrite bool_decide_eq_true_2 by done. cbn [negb]. rewrite canonical_ok by done.
  rewrite (receipt_scopes_entry Hrep m Hm). unfold entry_operation, entry_alias, entry_conversation.
  destruct (mn_effect m) as [scopes alias conversation|scope|] eqn:He.
  - destruct Hsave as [Ha Hc]. destruct Hscopes as [Hd Hhead]. rewrite Ha. cbn [negb orb].
    rewrite (proj2 (parse_conversation_id_ok conversation conversation)) by done. cbn [is_ok negb].
    rewrite (alias_mapping_ok m scopes) by done. unfold validate_migrated_v3_save_receipt. rewrite none_migrated. cbn [Nat.eqb].
    rewrite Hhead, bool_decide_eq_true_2 by done. cbn [negb]. rewrite Hd. cbn [map_err].
    by rewrite bool_decide_eq_true_2.
  - destruct Hscopes as [Hd Hhead]. unfold entry_scopes in Hd, Hhead |- *. rewrite He in Hd, Hhead |- *. cbn in Hhead.
    injection Hhead as Hs. rewrite <- Hs. rewrite !bool_decide_eq_false_2 by (intros [? ?]; discriminate).
    cbn [orb negb]. rewrite bool_decide_eq_true_2 by done. cbn [negb]. rewrite Hd. cbn [map_err]. by rewrite bool_decide_eq_true_2.
  - unfold entry_scopes, primary_scope, scope_set. rewrite He. rewrite !bool_decide_eq_false_2 by (intros [? ?]; discriminate).
    by rewrite !bool_decide_eq_true_2.
Qed.

(** ** The last mutations of a scope *)
Lemma covers_clear_entry edition scope r m :
  (r, m) ∈ entries log -> covers_clear edition scope db (mn_token m) (entry_row r m) = is_clear edition scope m.
Proof.
  intros [Hm _]%entries_In. unfold covers_clear, is_clear. rewrite (receipt_scopes_entry Hrep m Hm).
  cbn [mu_operation mu_edition_sha256 mu_scope_sha256 entry_row]. unfold entry_operation, primary_scope, entry_scopes.
  destruct (mn_effect m) as [scopes alias conversation|s|]; cbn [operation_name head default].
  - rewrite (bool_decide_eq_false_2 (_ = "clear_scope")) by done. by rewrite andb_false_r.
  - rewrite (bool_decide_eq_true_2 (_ = "clear_scope")) by done. cbn [andb]. f_equal.
    rewrite (bool_decide_ext (scope ∈ [s]) (s = scope)) by (rewrite list_elem_of_singleton; split; congruence). apply orb_diag.
  - rewrite (bool_decide_eq_false_2 (_ = "clear_scope")) by done. by rewrite andb_false_r.
Qed.
Lemma covers_all_entry edition r m :
  (r, m) ∈ entries log -> covers_all edition (mn_token m) (entry_row r m) = is_clear_all edition m.
Proof.
  intros _. unfold covers_all, is_clear_all. cbn [mu_operation mu_edition_sha256 entry_row]. unfold entry_operation.
  destruct (mn_effect m); cbn [operation_name].
  1,2: rewrite (bool_decide_eq_false_2 (_ = "clear_all")) by done; by rewrite andb_false_r.
  rewrite (bool_decide_eq_true_2 (_ = "clear_all")) by done. by rewrite andb_true_r.
Qed.
Lemma covers_save_entry edition scope r m :
  (r, m) ∈ entries log -> covers_save edition scope db (mn_token m) (entry_row r m) = is_save edition scope m.
Proof.
  intros [Hm _]%entries_In. unfold covers_save, is_save. rewrite (receipt_scopes_entry Hrep m Hm).
  cbn [mu_operation mu_edition_sha256 mu_alias_sha256 mu_conversation_id mu_revision mu_committed_at entry_row].
  unfold entry_operation, entry_scopes, entry_alias, entry_conversation.
  destruct (mn_effect m) as [scopes alias conversation|s|]; cbn [operation_name].
  - rewrite not_migrated, orb_false_r. by rewrite (bool_decide_eq_true_2 (_ = "save")).
  - rewrite (bool_decide_eq_false_2 (_ = "save")) by done. by rewrite !andb_false_r.
  - rewrite (bool_decide_eq_false_2 (_ = "save")) by done. by rewrite !andb_false_r.
Qed.

Lemma validate_receipts_ok edition (Qs : list (Mutation -> bool)) :
  Forall (fun Q => forall m, Q m = true -> mn_edition m = edition) Qs ->
  validate_receipts (map (fun Q => match last_such Q log with Some (r, m) => Some (receipt_of r m) | None => None end) Qs)
    edition db = Ok tt.
Proof.
  induction 1 as [|Q Qs HQ _ IH]; [done|]. cbn [map validate_receipts].
  destruct (last_such Q log) as [[r m]|] eqn:Hl; [|exact IH]. apply last_such_entries in Hl as [Hin Hq].
  rewrite <- (HQ m Hq) at 1. by rewrite receipt_valid.
Qed.

Lemma validate_revisions_ok l : Forall (fun o : option Z => forall r, o = Some r -> 1 <= r) l -> validate_revisions l = Ok tt.
Proof.
  induction 1 as [|[r|] l Hr _ IH]; [done| |done]. cbn [validate_revisions]. by rewrite revision_ok by by apply Hr.
Qed.

(** An effect of a clear in the log has its receipt. *)
Lemma check_effect_ok operation edition scope r m :
  (r, m) ∈ entries log -> operation_name (entry_operation m) = operation -> mn_edition m = edition ->
  match scope with Some s => primary_scope m = s | None => True end ->
  check_effect operation (Some (mkEffectRow r (mn_at m))) edition scope db = Ok tt.
Proof.
  intros Hin <- <- Hs. pose proof (entries_In _ _ _ Hin) as [Hm Hr]. unfold check_effect. cbn [ef_revision ef_cleared_at].
  rewrite revision_ok by lia. rewrite canonical_ok by by apply mo_at, entry_ok.
  unfold mutation_exists. rewrite (proj2 (fold_exists_true _ _)); [done|].
  exists (mn_token m), (entry_row r m). split; [apply (mutation_lookup Hrep); eauto|].
  cbn [mu_operation mu_edition_sha256 mu_scope_sha256 mu_revision mu_committed_at entry_row].
  rewrite Z.eqb_refl, !bool_decide_eq_true_2 by done. destruct scope; [by rewrite bool_decide_eq_true_2|done].
Qed.

Lemma selection_receipt_ok edition scope r m scopes alias conversation :
  (r, m) ∈ entries log -> mn_effect m = ESave scopes alias conversation -> mn_edition m = edition ->
  as_sha256 scope ∈ scopes ->
  validate_selection_receipt edition scope (mkSelectionRow alias conversation r (mn_at m)) db = Ok tt.
Proof.
  intros Hin He <- Hs. pose proof (entries_In _ _ _ Hin) as [Hm Hr]. unfold validate_selection_receipt.
  cbn [sl_updated_at sl_alias_sha256 sl_conversation_id sl_revision].
  rewrite canonical_ok by by apply mo_at, entry_ok. rewrite (alias_mapping_ok m scopes) by done.
  unfold mutation_exists. rewrite (proj2 (fold_exists_true _ _)); [done|].
  exists (mn_token m), (entry_row r m). split; [apply (mutation_lookup Hrep); eauto|].
  rewrite (receipt_scopes_entry Hrep m Hm). unfold entry_row, entry_operation, entry_scopes, entry_alias, entry_conversation.
  cbn [mu_operation mu_edition_sha256 mu_alias_sha256 mu_conversation_id mu_revision mu_committed_at]. rewrite He.
  rewrite Z.eqb_refl, !bool_decide_eq_true_2 by done. done.
Qed.

Lemma save_effect edition scope m :
  is_save edition scope m = true ->
  exists scopes alias conversation, mn_effect m = ESave scopes alias conversation /\ scope ∈ scopes /\ mn_edition m = edition.
Proof. unfold is_save. intros [? ?]%andb_true_iff. destruct (mn_effect m) as [scopes alias conv| |]; try done. bools. eauto 10. Qed.
Lemma clear_effect edition scope m : is_clear edition scope m = true -> mn_effect m = EClear scope /\ mn_edition m = edition.
Proof. unfold is_clear. intros [? ?]%andb_true_iff. destruct (mn_effect m); try done. bools. by subst. Qed.
Lemma clear_all_effect edition m : is_clear_all edition m = true -> mn_effect m = EClearAll /\ mn_edition m = edition.
Proof. unfold is_clear_all. intros [? ?]%andb_true_iff. destruct (mn_effect m); try done. by bools. Qed.

(** Different kinds of mutation have different revisions. *)
Lemma kinds_differ Q1 Q2 r1 m1 r2 m2 :
  last_such Q1 log = Some (r1, m1) -> last_such Q2 log = Some (r2, m2) -> mn_effect m1 <> mn_effect m2 -> r1 <> r2.
Proof.
  intros [H1 _]%last_such_entries [H2 _]%last_such_entries Hne ->. apply Hne. f_equal. by eapply entries_unique.
Qed.

(** ** The latest authority *)
(** The later of two. *)
Definition later (a b : option (Z * Mutation)) : option (Z * Mutation) :=
  match a, b with
  | Some (r1, m1), Some (r2, m2) => if r2 <=? r1 then Some (r1, m1) else Some (r2, m2)
  | Some x, None => Some x
  | None, o => o
  end.

Lemma affects_later edition scope :
  last_such (affects edition scope) log
  = later (last_such (is_save edition scope) log)
      (later (last_such (is_clear edition scope) log) (last_such (is_clear_all edition) log)).
Proof.
  rewrite (last_such_ext _ (fun m => is_save edition scope m || (is_clear edition scope m || is_clear_all edition m)))
    by (intros; apply affects_kinds).
  by rewrite (last_such_or (is_save edition scope) (fun m => is_clear edition scope m || is_clear_all edition m)), last_such_or.
Qed.

Lemma affects_edition edition scope m : affects edition scope m = true -> mn_edition m = edition.
Proof. unfold affects. intros [? _]%andb_true_iff. by bools. Qed.

Lemma migrated_none edition scope : sl_revision <$> identity_migrated_scopes db !! (edition, scope) = None.
Proof. by rewrite (rp_migrated _ _ Hrep), lookup_empty. Qed.

Lemma effects_ok edition scope :
  validate_effect_receipt edition scope (tombstone_row log edition (as_sha256 scope)) (clear_all_row log edition) db = Ok tt.
Proof.
  unfold validate_effect_receipt.
  assert (check_effect "clear_scope" (tombstone_row log edition (as_sha256 scope)) edition (Some (as_sha256 scope)) db = Ok tt) as ->.
  - unfold tombstone_row. destruct (last_such _ log) as [[r m]|] eqn:Hl; [|done]. apply last_such_entries in Hl as [Hin Ha].
    cbn [snd] in Ha. pose proof (affects_edition _ _ _ Ha) as He. unfold affects in Ha. apply andb_true_iff in Ha as [_ Ha].
    destruct (mn_effect m) eqn:Hm; [done| |done]. bools. subst. apply check_effect_ok; try done.
    + unfold entry_operation. by rewrite Hm.
    + unfold primary_scope, entry_scopes. by rewrite Hm.
  - unfold clear_all_row. destruct (last_such _ log) as [[r m]|] eqn:Hl; [|done]. apply last_such_entries in Hl as [Hin [He Hd]%clear_all_effect].
    cbn [snd] in *. apply check_effect_ok; try done. unfold entry_operation. by rewrite He.
Qed.

Lemma selected_valid edition scope row :
  selected_row log edition (as_sha256 scope) = Some row ->
  1 <= sl_revision row /\ is_lower_hex_sha256 (sl_alias_sha256 row) = true
  /\ parse_conversation_id (sl_conversation_id row) = Ok (sl_conversation_id row)
  /\ validate_selection_receipt edition scope row db = Ok tt.
Proof.
  unfold selected_row. destruct (last_such _ log) as [[r m]|] eqn:Hl; [|done]. apply last_such_entries in Hl as [Hin Ha].
  cbn [snd] in Ha. pose proof (affects_edition _ _ _ Ha) as He. unfold affects in Ha. apply andb_true_iff in Ha as [_ Ha].
  destruct (mn_effect m) eqn:Hm; [|done..]. bools. intros [= <-]. cbn [sl_revision sl_alias_sha256 sl_conversation_id].
  pose proof (entries_In _ _ _ Hin) as [Hlog Hr]. pose proof (mo_save _ (entry_ok m Hlog)) as Hsave. rewrite Hm in Hsave.
  destruct Hsave as [Hx Hc]. split_and!; [lia|done|by apply parse_conversation_id_ok|by eapply selection_receipt_ok].
Qed.

Lemma last_revision Q r m : last_such Q log = Some (r, m) -> 1 <= r.
Proof. intros (_ & _ & ?)%last_such_In. lia. Qed.

Lemma rows_revisions edition scope Q1 Q2 Q3 :
  validate_revisions [ef_revision <$> tombstone_row log edition scope; ef_revision <$> clear_all_row log edition;
    fst <$> last_such Q1 log; fst <$> last_such Q2 log; fst <$> last_such Q3 log; None] = Ok tt.
Proof.
  apply validate_revisions_ok. unfold tombstone_row, clear_all_row.
  repeat constructor; try done; intros r; destruct (last_such _ log) as [[r' m]|] eqn:Hl; try done; apply last_revision in Hl;
    try (by intros [= <-]). destruct (mn_effect m); try done. by intros [= <-].
Qed.

Definition cleared_after edition scope : option Z :=
  opt_max (ef_revision <$> tombstone_row log edition scope) (ef_revision <$> clear_all_row log edition).
Definition receipt_revision (Q : Mutation -> bool) : option Z := fst <$> last_such Q log.

(** What the last save, clear and clear of the edition leave together. *)
Lemma authority_cases edition scope :
  check_authority (sl_revision <$> selected_row log edition scope) (cleared_after edition scope)
    (opt_max (receipt_revision (is_clear edition scope)) (receipt_revision (is_clear_all edition)))
    (opt_max (receipt_revision (is_save edition scope)) None) = Ok tt
  /\ match selected_row log edition scope with
     | None => selection_of log edition scope = (if bool_decide (is_Some (cleared_after edition scope)) then Tombstoned else Untracked)
     | Some row =>
         match cleared_after edition scope with Some cleared => sl_revision row <=? cleared | None => false end = false
         /\ selection_of log edition scope = Selected (sl_alias_sha256 row) (sl_conversation_id row)
     end.
Proof.
  unfold cleared_after, receipt_revision, selected_row, tombstone_row, clear_all_row, selection_of. rewrite affects_later.
  destruct (last_such (is_save edition scope) log) as [[rs ms]|] eqn:HS;
  [pose proof (last_such_In _ _ _ _ HS) as [(scopes & alias & conversation & Es & _ & _)%save_effect _]|];
  (destruct (last_such (is_clear edition scope) log) as [[rc mc]|] eqn:HC;
   [pose proof (last_such_In _ _ _ _ HC) as [[Ec _]%clear_effect _]|]);
  (destruct (last_such (is_clear_all edition) log) as [[ra ma]|] eqn:HA;
   [pose proof (last_such_In _ _ _ _ HA) as [[Ea _]%clear_all_effect _]|]);
  repeat match goal with
    | H1 : last_such ?Q1 log = Some (?r1, ?m1), H2 : last_such ?Q2 log = Some (?r2, ?m2) |- _ =>
        lazymatch goal with H : r1 <> r2 |- _ => fail | H : r2 <> r1 |- _ => fail | _ => idtac end;
        assert (r1 <> r2) by (apply (kinds_differ _ _ _ _ _ _ H1 H2); congruence)
    end;
  cbn [later];
  repeat match goal with |- context [if ?a <=? ?b then _ else _] => destruct (Z.leb_spec a b); cbn [later] end;
  rewrite ?Es, ?Ec, ?Ea; cbn [fmap option_fmap option_map opt_max fst ef_revision sl_revision sl_alias_sha256 sl_conversation_id];
  rewrite ?Es, ?Ec, ?Ea; unfold check_authority, none_or;
  repeat match goal with |- context [?a <=? ?b] => destruct (Z.leb_spec a b); [try lia|try lia] end;
  repeat match goal with |- context [?a <? ?b] => destruct (Z.ltb_spec a b); [try lia|try lia] end;
  try done.
Qed.

(** The read of a scope is what its last mutation left. *)
Lemma scope_selection_last edition scope :
  scope_selection edition scope db = Ok (selection_of log edition (as_sha256 scope)).
Proof.
  unfold scope_selection.
  rewrite (receipt_on_last _ _ (covers_clear_entry edition (as_sha256 scope))).
  rewrite (receipt_on_last _ _ (covers_all_entry edition)).
  rewrite (receipt_on_last _ _ (covers_save_entry edition (as_sha256 scope))).
  pose proof (validate_receipts_ok edition
    [is_clear edition (as_sha256 scope); is_clear_all edition; is_save edition (as_sha256 scope)]) as Hreceipts.
  cbn [map] in Hreceipts. rewrite Hreceipts.
  2:{ repeat constructor; intros m; [intros [_ ?]%clear_effect|intros [_ ?]%clear_all_effect|intros (? & ? & ? & _ & _ & ?)%save_effect]; done. }
  clear Hreceipts. rewrite migrated_none, (rp_selection _ _ Hrep), (rp_tombstone _ _ Hrep), (rp_clear_all _ _ Hrep).
  pose proof (authority_cases edition (as_sha256 scope)) as [Hauth Hsel].
  pose proof (effects_ok edition scope) as Heff. pose proof (selected_valid edition scope) as Hvalid.
  assert (forall Q, (rc_revision <$> match last_such Q log with Some (r, m) => Some (receipt_of r m) | None => None end)
            = fst <$> last_such Q log) as Hfst by (intros Q; by destruct (last_such Q log) as [[? ?]|]).
  rewrite !Hfst, rows_revisions. fold (cleared_after edition (as_sha256 scope)). unfold receipt_revision in Hauth.
  rewrite Hauth, Heff. destruct (selected_row log edition (as_sha256 scope)) as [row|]; [|by rewrite Hsel].
  destruct Hsel as [Hlater ->], (Hvalid row eq_refl) as (Hr & Hhex & Hparse & Hreceipt).
  rewrite revision_ok by done. rewrite Hhex, Hparse, Hreceipt. cbn [negb]. by rewrite Hlater.
Qed.
End Reads.
