(* ===== verification/IdentityOrders.v ===== *)
(** * Searching the order of a migrated scope set

    [advance_permutation] is the lexicographic successor: started at the sorted
    scopes, the search of [validate_migrated_v3_scope_set_digest] meets every
    order of them before its fuel, the number of orders, is spent. *)
From stdpp Require Import base list gmap strings sorting.
From Stdlib Require Import ZArith Lia Factorial.
From S2P Require Import Prelude RustStr External Digest Tables RunContract StoreBase AssistantContent RunStore Identity IdentityStore IdentityValidation IdentityOps IdentityLedger IdentityReads.

Open Scope Z_scope.
Open Scope rust_scope.

(** ** Lexicographic order *)
Section Lexicographic.
Context {A : Type} `{EqDecision A} (lt : A -> A -> bool).
Context (lt_irrefl : forall x, lt x x = false).
Context (lt_trans : forall x y z, lt x y = true -> lt y z = true -> lt x z = true).
Context (lt_total : forall x y, lt x y = false -> lt y x = false -> x = y).

Fixpoint lex (a b : list A) : bool :=
  match a, b with
  | x :: a', y :: b' => lt x y || (bool_decide (x = y) && lex a' b')
  | _, _ => false
  end.

Lemma lt_asym x y : lt x y = true -> lt y x = false.
Proof. intros H1. destruct (lt y x) eqn:H2; [|done]. pose proof (lt_trans _ _ _ H1 H2) as H. by rewrite lt_irrefl in H. Qed.

Lemma lex_irrefl a : lex a a = false.
Proof. induction a as [|x a IH]; [done|]. cbn. by rewrite lt_irrefl, IH, andb_false_r. Qed.

Lemma lex_trans a b c : lex a b = true -> lex b c = true -> lex a c = true.
Proof.
  revert b c. induction a as [|x a IH]; intros [|y b] [|z c]; try done. cbn.
  rewrite !orb_true_iff, !andb_true_iff, !bool_decide_eq_true. intros [H1|[-> H1]] [H2|[-> H2]]; [|by left..|].
  - left. by eapply lt_trans.
  - right. split; [done|]. by eapply IH.
Qed.

Lemma lex_app pre a b : lex (pre ++ a) (pre ++ b) = lex a b.
Proof. induction pre as [|x pre IH]; [done|]. cbn. by rewrite lt_irrefl, bool_decide_eq_true_2, IH by done. Qed.

(** A longer list that comes after [pre ++ a] either shares the prefix or comes
    after every list with the prefix. *)
Lemma lex_prefix pre a p :
  lex (pre ++ a) p = true ->
  (exists p', p = pre ++ p' /\ lex a p' = true) \/ forall c, lex (pre ++ c) p = true.
Proof.
  revert p. induction pre as [|x pre IH]; intros p; [by eauto|]. destruct p as [|y p]; [done|]. cbn.
  rewrite orb_true_iff, andb_true_iff, bool_decide_eq_true. intros [Hlt|[-> [(p' & -> & Hp)|Hall]%IH]].
  - right. intros c. by rewrite Hlt.
  - left. by exists p'.
  - right. intros c. by rewrite lt_irrefl, bool_decide_eq_true_2, Hall by done.
Qed.

Definition before (x y : A) : Prop := lt x y = true.

(** The ascending order comes first, the descending one last. *)
Lemma ascending_first l p : StronglySorted before l -> p ≡ₚ l -> lex p l = false.
Proof.
  intros Hs. revert p. induction Hs as [|x l _ IH Hall]; intros p Hp.
  - by apply Permutation_nil_r in Hp as ->.
  - destruct p as [|y p]; [by apply Permutation_nil_l in Hp|]. cbn.
    assert (y ∈ x :: l) as [->|Hy]%elem_of_cons by (rewrite <- Hp; left).
    + apply Permutation_cons_inv in Hp. by rewrite lt_irrefl, IH, andb_false_r.
    + rewrite Forall_forall in Hall. specialize (Hall y Hy). unfold before in Hall. rewrite (lt_asym _ _ Hall).
      rewrite bool_decide_eq_false_2; [done|]. intros ->. by rewrite lt_irrefl in Hall.
Qed.

Lemma descending_last l p : StronglySorted (fun x y => before y x) l -> p ≡ₚ l -> lex l p = false.
Proof.
  intros Hs. revert p. induction Hs as [|x l _ IH Hall]; intros p Hp; [done|].
  destruct p as [|y p]; [done|]. cbn. assert (y ∈ x :: l) as [->|Hy]%elem_of_cons by (rewrite <- Hp; left).
  - apply Permutation_cons_inv in Hp. by rewrite lt_irrefl, IH, andb_false_r.
  - rewrite Forall_forall in Hall. specialize (Hall y Hy). unfold before in Hall. rewrite (lt_asym _ _ Hall).
    rewrite bool_decide_eq_false_2; [done|]. intros ->. by rewrite lt_irrefl in Hall.
Qed.

Lemma sorted_rev (R : relation A) l : StronglySorted (fun x y => R y x) l -> StronglySorted R (rev l).
Proof.
  induction 1 as [|x l _ IH Hall]; [constructor|]. cbn. apply StronglySorted_app. split; [|split; [done|by repeat constructor]].
  intros a b Ha ->%list_elem_of_singleton. rewrite <- (Permutation_rev l) in Ha. rewrite Forall_forall in Hall. by apply Hall.
Qed.

(** ** The successor *)
(** The shape of a step: [x] is the pivot, [y] its successor in the descending rest. *)
Definition successor (l l' : list A) : Prop :=
  exists pre x s1 y s2, l = pre ++ x :: s1 ++ y :: s2 /\ l' = pre ++ y :: rev (s1 ++ x :: s2)
    /\ before x y /\ StronglySorted (fun a b => before b a) (s1 ++ y :: s2) /\ Forall (fun z => before z x) s2.

Lemma successor_perm l l' : successor l l' -> l ≡ₚ l'.
Proof.
  intros (pre & x & s1 & y & s2 & -> & -> & _). apply Permutation_app_head. rewrite <- Permutation_rev.
  rewrite <- !Permutation_middle. apply perm_swap.
Qed.

Lemma successor_after l l' : successor l l' -> lex l l' = true.
Proof. intros (pre & x & s1 & y & s2 & -> & -> & Hxy & _). rewrite lex_app. cbn. unfold before in Hxy. by rewrite Hxy. Qed.

Lemma sorted_replace x s1 y s2 :
  before x y -> StronglySorted (fun a b => before b a) (s1 ++ y :: s2) -> Forall (fun z => before z x) s2 ->
  StronglySorted before (rev (s1 ++ x :: s2)).
Proof.
  intros Hxy (Hcross & Hs1 & Hs2)%StronglySorted_app Hlow. apply sorted_rev, StronglySorted_app. split; [|split; [done|]].
  - intros a b Ha Hb. assert (before y a) as Hya by (apply (Hcross a y Ha); left).
    apply elem_of_cons in Hb as [->|Hb]; [by eapply lt_trans|]. apply (Hcross a b Ha). by right.
  - apply StronglySorted_inv in Hs2 as [Hs2 _]. by constructor.
Qed.

(** Nothing lies between. *)
Lemma successor_next l l' p : successor l l' -> p ≡ₚ l -> lex l p = true -> lex p l' = false.
Proof.
  intros (pre & x & s1 & y & s2 & -> & -> & Hxy & Hs & Hlow) Hp Hlt.
  apply lex_prefix in Hlt as [(p' & -> & Hlt)|Hall].
  - apply Permutation_app_inv_l in Hp. rewrite lex_app. destruct p' as [|z q]; [done|]. cbn in *.
    rewrite orb_true_iff, andb_true_iff, bool_decide_eq_true in Hlt. destruct Hlt as [Hxz|[<- Hq]].
    2:{ apply Permutation_cons_inv in Hp. by rewrite (descending_last _ _ Hs Hp) in Hq. }
    assert (z ∈ x :: s1 ++ y :: s2) as Hz by (rewrite <- Hp; left).
    destruct (decide (z = y)) as [->|Hne].
    + rewrite lt_irrefl, bool_decide_eq_true_2 by done. cbn. apply ascending_first; [by apply (sorted_replace x s1 y s2)|].
      rewrite <- Permutation_rev. rewrite <- Permutation_middle. rewrite <- Permutation_middle, perm_swap in Hp.
      by apply Permutation_cons_inv in Hp.
    + rewrite bool_decide_eq_false_2 by done. rewrite orb_false_r. apply lt_asym.
      apply elem_of_cons in Hz as [->|Hz]; [by rewrite lt_irrefl in Hxz|]. apply StronglySorted_app in Hs as (Hcross & _ & _).
      apply elem_of_app in Hz as [Hz|[->|Hz]%elem_of_cons]; [by apply (Hcross z y); [|left]|done|].
      rewrite Forall_forall in Hlow. specialize (Hlow z Hz). unfold before in Hlow. by rewrite (lt_asym _ _ Hxz) in Hlow.
  - specialize (Hall (y :: rev (s1 ++ x :: s2))). destruct (lex p _) eqn:Hp'; [|done].
    pose proof (lex_trans _ _ _ Hall Hp') as Hbad. by rewrite lex_irrefl in Hbad.
Qed.

(** ** The code takes this step *)
Lemma find_last f a n :
  match List.find f (rev (seq a n)) with
  | Some i => (a <= i < a + n)%nat /\ f i = true /\ forall j, (i < j < a + n)%nat -> f j = false
  | None => forall j, (a <= j < a + n)%nat -> f j = false
  end.
Proof.
  induction n as [|n IH]; [cbn; lia|]. rewrite seq_S, rev_app_distr. cbn. destruct (f (a + n)%nat) eqn:Hf.
  - split_and!; [lia|lia|done|lia].
  - destruct (List.find f (rev (seq a n))) as [i|].
    + destruct IH as (? & ? & Hlater). split_and!; [lia|lia|done|]. intros j Hj.
      destruct (decide (j = a + n)%nat) as [->|]; [done|]. apply Hlater. lia.
    + intros j Hj. destruct (decide (j = a + n)%nat) as [->|]; [done|]. apply IH. lia.
Qed.

Lemma insert_middle (l1 : list A) x y l2 : <[length l1 := y]> (l1 ++ x :: l2) = l1 ++ y :: l2.
Proof. induction l1 as [|z l1 IH]; [done|]. cbn. by f_equal. Qed.

(** The swap and the reversal of a step. *)
Lemma swap_reverse (pre : list A) x s1 y s2 i j :
  i = length pre -> j = (length pre + S (length s1))%nat ->
  let l := swap (pre ++ x :: s1 ++ y :: s2) i j in
  take (S i) l ++ rev (drop (S i) l) = pre ++ y :: rev (s1 ++ x :: s2).
Proof.
  intros -> -> l. assert (l = pre ++ y :: s1 ++ x :: s2) as ->.
  - unfold l, swap. rewrite list_lookup_middle by done.
    assert (pre ++ x :: s1 ++ y :: s2 = (pre ++ x :: s1) ++ y :: s2) as E by by rewrite <- app_assoc.
    assert ((length pre + S (length s1))%nat = length (pre ++ x :: s1)) as Hj by (rewrite length_app; done).
    assert ((pre ++ x :: s1 ++ y :: s2) !! (length pre + S (length s1))%nat = Some y) as ->
      by (rewrite E; by apply list_lookup_middle).
    rewrite E, Hj, insert_middle, <- app_assoc. cbn [app]. by rewrite insert_middle.
  - change (y :: s1 ++ x :: s2) with ([y] ++ (s1 ++ x :: s2)). rewrite app_assoc.
    assert (S (length pre) = length (pre ++ [y])) as -> by (rewrite length_app; cbn; lia).
    by rewrite take_app_length, drop_app_length, <- app_assoc.
Qed.

Lemma descending_adjacent l :
  NoDup l -> (forall k, lt_at lt l k (S k) = false) -> StronglySorted (fun a b => before b a) l.
Proof.
  intros Hnd Hadj. apply Sorted_StronglySorted; [intros a b c ? ?; by eapply lt_trans|].
  induction l as [|x l IH]; [constructor|]. apply NoDup_cons in Hnd as [Hx Hnd]. constructor.
  - apply IH; [done|]. intros k. exact (Hadj (S k)).
  - destruct l as [|y l]; constructor. specialize (Hadj 0%nat). cbn in Hadj. unfold before.
    destruct (lt y x) eqn:Hyx; [done|]. destruct Hx. rewrite (lt_total _ _ Hadj Hyx). left.
Qed.

Lemma advance_spec l :
  NoDup l ->
  match advance_permutation lt l with
  | Some l' => successor l l'
  | None => StronglySorted (fun a b => before b a) l
  end.
Proof.
  intros Hnd. unfold advance_permutation, find_pivot.
  pose proof (find_last (fun i => lt_at lt l i (S i)) 0 (pred (length l))) as Hpivot.
  destruct (List.find _ _) as [i|].
  2:{ apply descending_adjacent; [done|]. intros k. destruct (decide (k < pred (length l))%nat); [apply Hpivot; lia|].
      unfold lt_at. rewrite (lookup_ge_None_2 l (S k)) by lia. by destruct (l !! k). }
  destruct Hpivot as (Hi & Hlt & Hdesc). unfold lt_at in Hlt.
  destruct (l !! i) as [x|] eqn:Hx; [|done]. destruct (l !! S i) as [w|] eqn:Hw; [|done].
  set (suf := drop (S i) l). assert (l = take i l ++ x :: suf) as Hl by (unfold suf; symmetry; by apply take_drop_middle).
  assert (length (take i l) = i) as Hlen by (rewrite length_take; lia).
  assert (forall k, suf !! k = l !! (S i + k)%nat) as Hsuf by (intros k; apply lookup_drop).
  assert (NoDup (x :: suf)) as [Hxs Hns]%NoDup_cons by (rewrite Hl in Hnd; by apply NoDup_app in Hnd as (_ & _ & ?)).
  assert (StronglySorted (fun a b => before b a) suf) as Hsorted.
  { apply descending_adjacent; [done|]. intros k. unfold lt_at. rewrite !Hsuf. replace (S i + S k)%nat with (S (S i + k)) by lia.
    destruct (decide (S i + k < pred (length l))%nat); [by apply Hdesc; lia|].
    rewrite (lookup_ge_None_2 l (S (S i + k))) by lia. by destruct (l !! (S i + k)%nat). }
  unfold find_successor. pose proof (find_last (fun j => lt_at lt l i j) (S i) (length l - S i)) as Hsucc.
  destruct (List.find _ _) as [j|].
  2:{ exfalso. apply lookup_lt_Some in Hw as Hwl. specialize (Hsucc (S i) ltac:(lia)). cbn in Hsucc. unfold lt_at in Hsucc. by rewrite Hx, Hw, Hlt in Hsucc. }
  destruct Hsucc as (Hj & Hxy & Hafter). unfold lt_at in Hxy. rewrite Hx in Hxy. destruct (l !! j) as [y|] eqn:Hy; [|done].
  set (k := (j - S i)%nat). assert (suf !! k = Some y) as Hk by (rewrite Hsuf; unfold k; by replace (S i + (j - S i))%nat with j by lia).
  pose proof (take_drop_middle suf k y Hk) as Hparts.
  rewrite <- Hparts in Hl. exists (take i l), x, (take k suf), y, (drop (S k) suf). split; [exact Hl|]. split; [|split; [done|split]].
  - rewrite Hl at 1 2. apply swap_reverse; [done|]. rewrite Hlen, length_take. apply lookup_lt_Some in Hk. unfold k in *. lia.
  - by rewrite Hparts.
  - apply Forall_forall. intros z Hz. apply list_elem_of_lookup in Hz as [n Hn]. rewrite lookup_drop, Hsuf in Hn.
    specialize (Hafter (S i + (S k + n))%nat). unfold lt_at in Hafter. rewrite Hx, Hn in Hafter.
    assert (lt x z = false) as Hxz by (apply Hafter; apply lookup_lt_Some in Hn; unfold k in *; lia).
    unfold before. destruct (lt z x) eqn:Hzx; [done|]. destruct Hxs. rewrite (lt_total _ _ Hxz Hzx).
    apply list_elem_of_lookup. exists (S k + n)%nat. by rewrite Hsuf.
Qed.

Lemma lex_total a b : length a = length b -> lex a b = false -> lex b a = false -> a = b.
Proof.
  revert b. induction a as [|x a IH]; intros [|y b] Hlen; try done. cbn. rewrite !orb_false_iff.
  intros [H1 H2] [H3 H4]. pose proof (lt_total _ _ H1 H3) as <-. rewrite bool_decide_eq_true_2 in H2, H4 by done.
  f_equal. apply IH; [by injection Hlen|done|done].
Qed.

Lemma lex_from_first l p : StronglySorted before l -> p ≡ₚ l -> p = l \/ lex l p = true.
Proof.
  intros Hs Hp. destruct (lex l p) eqn:Hlt; [by right|]. left.
  apply lex_total; [by apply Permutation_length|by apply ascending_first|done].
Qed.

Lemma successor_splits l l' p : successor l l' -> p ≡ₚ l -> lex l p = true <-> p = l' \/ lex l' p = true.
Proof.
  intros Hs Hp. split.
  - intros Hlt. destruct (lex l' p) eqn:Hl'; [by right|]. left. apply lex_total; [|by eapply successor_next|done].
    apply Permutation_length. by rewrite Hp, (successor_perm _ _ Hs).
  - intros [->|Hlt]; [by apply successor_after|]. eapply lex_trans; [by apply successor_after|done].
Qed.
End Lexicographic.

(** ** Counting the orders *)
Fixpoint insert_all {A} (x : A) (l : list A) : list (list A) :=
  (x :: l) :: match l with [] => [] | y :: r => map (cons y) (insert_all x r) end.
Fixpoint orders {A} (l : list A) : list (list A) :=
  match l with [] => [[]] | x :: r => concat (map (insert_all x) (orders r)) end.

Lemma insert_all_length {A} (x : A) l : length (insert_all x l) = S (length l).
Proof. induction l as [|y l IH]; [done|]. cbn [insert_all length]. by rewrite length_map, IH. Qed.

Lemma insert_all_In {A} (x : A) l1 l2 : l1 ++ x :: l2 ∈ insert_all x (l1 ++ l2).
Proof.
  induction l1 as [|y l1 IH]; cbn; [destruct l2; left|]. right. apply list_elem_of_fmap. eauto.
Qed.
Lemma insert_all_lengths {A} (x : A) l p : p ∈ insert_all x l -> length p = S (length l).
Proof.
  revert p. induction l as [|y l IH]; intros p; cbn; [by intros ->%list_elem_of_singleton|].
  intros [->|(q & -> & Hq)%list_elem_of_fmap]%elem_of_cons; [done|]. cbn. by rewrite (IH q).
Qed.

Lemma orders_In {A} (l p : list A) : p ≡ₚ l -> p ∈ orders l.
Proof.
  revert p. induction l as [|x l IH]; intros p Hp; cbn [orders].
  - apply Permutation_nil_r in Hp as ->. left.
  - assert (x ∈ p) as (l1 & l2 & ->)%list_elem_of_split by (rewrite Hp; left).
    rewrite <- Permutation_middle in Hp. apply Permutation_cons_inv in Hp.
    apply list_elem_of_In, in_concat. exists (insert_all x (l1 ++ l2)). split.
    + apply in_map, list_elem_of_In. by apply IH.
    + apply list_elem_of_In, insert_all_In.
Qed.

Lemma orders_length {A} (l : list A) : length (orders l) = fact (length l) /\ Forall (fun p => length p = length l) (orders l).
Proof.
  induction l as [|x l [IH1 IH2]]; [by repeat constructor|]. cbn [orders length]. change (fact (S (length l))) with (S (length l) * fact (length l))%nat.
  rewrite <- IH1. clear IH1. induction IH2 as [|p ps Hp _ [IHa IHb]]; [split; [cbn; lia|constructor]|]. cbn [map concat length]. split.
  - rewrite length_app, IHa, insert_all_length, Hp. lia.
  - apply Forall_app. split; [|done]. apply Forall_forall. intros q Hq. by rewrite (insert_all_lengths _ _ _ Hq), Hp.
Qed.

Lemma filter_fewer {A} (P Q : A -> bool) l x :
  (forall y, P y = true -> Q y = true) -> x ∈ l -> Q x = true -> P x = false ->
  (length (List.filter P l) < length (List.filter Q l))%nat.
Proof.
  intros HPQ Hx HQ HP. assert (forall l, (length (List.filter P l) <= length (List.filter Q l))%nat) as Hle.
  { clear l Hx. induction l as [|y l IH]; [done|]. cbn. destruct (P y) eqn:Hy; [rewrite (HPQ y Hy); cbn; lia|destruct (Q y); cbn; lia]. }
  induction l as [|y l IH]; [by apply elem_of_nil in Hx|]. cbn. apply elem_of_cons in Hx as [<-|Hx].
  - rewrite HP, HQ. specialize (Hle l). cbn. lia.
  - specialize (IH Hx). destruct (P y) eqn:Hy; [rewrite (HPQ y Hy); cbn; lia|destruct (Q y); cbn; lia].
Qed.

Lemma sorted_scopes l : NoDup l -> StronglySorted (before str_ltb) (merge_sort str_le l).
Proof.
  intros Hnd. pose proof (StronglySorted_merge_sort str_le l) as Hs.
  rewrite <- (merge_sort_Permutation str_le l) in Hnd. revert Hnd Hs. generalize (merge_sort str_le l) as r.
  induction r as [|x r IH]; intros Hnd Hs; [constructor|]. apply NoDup_cons in Hnd as [Hx Hnd]. apply StronglySorted_inv in Hs as [Hs Hall].
  constructor; [by apply IH|]. rewrite Forall_forall in Hall |- *. intros y Hy. specialize (Hall y Hy). unfold before, str_le in *.
  destruct (str_ltb x y) eqn:Hxy; [done|]. rewrite (str_ltb_total _ _ Hxy Hall) in Hx. by destruct Hx.
Qed.

Section Search.
Context {EX : External} {MF : MillisFormat} {DG : Digest} {UF : UuidFormat} {DL : DigestLaws}.

Lemma distinct_conv seen l :
  Forall (fun s => is_lower_hex_sha256 s = true) l -> NoDup l -> (forall s, s ∈ l -> s ∉ seen) -> scopes_distinct seen l = true.
Proof.
  revert seen. induction l as [|s l IH]; intros seen Hall Hnd Hseen; [done|]. apply Forall_cons in Hall as [Hs Hall].
  apply NoDup_cons in Hnd as [Hx Hnd]. cbn. rewrite Hs, bool_decide_eq_false_2 by (apply Hseen; left). cbn.
  apply IH; [done..|]. intros y Hy [Hin|Hin%list_elem_of_singleton]%elem_of_app; [|by subst]. apply (Hseen y); [by right|done].
Qed.

(** Whether a list of scopes has a digest does not depend on its order. *)
Lemma scope_set_perm l p d : scope_set_sha256_from_hashes l = Ok d -> p ≡ₚ l -> exists d', scope_set_sha256_from_hashes p = Ok d'.
Proof.
  intros Hl Hp. pose proof (scope_set_ok l d Hl) as (Hne & Hall & Hnd & _). unfold scope_set_sha256_from_hashes in *.
  rewrite (bool_decide_eq_false_2 (p = [])) by (intros ->; apply Permutation_nil_l in Hp; by subst).
  rewrite (Permutation_length Hp). rewrite (bool_decide_eq_false_2 (l = [])) in Hl by done.
  destruct (MAX_IDENTITY_SCOPES <? _); [discriminate|]. cbn [orb] in *.
  rewrite distinct_conv; [by eexists|by rewrite Hp|by rewrite Hp|]. intros s _. apply not_elem_of_nil.
Qed.

Definition has_digest (expected primary : string) (p : list string) : Prop :=
  scope_set_sha256_from_hashes (primary :: p) = Ok expected.

(** With more turns than there are later orders, the search ends and has met all of
    them. *)
Lemma search_meets fuel expected primary l0 l d :
  scope_set_sha256_from_hashes (primary :: l) = Ok d -> l ≡ₚ l0 ->
  (length (List.filter (lex str_ltb l) (orders l0)) < fuel)%nat ->
  exists outcome, search_digest fuel expected primary l = Some outcome
  /\ (outcome = Ok tt <-> exists p, p ≡ₚ l /\ (p = l \/ lex str_ltb l p = true) /\ has_digest expected primary p).
Proof.
  revert l d. induction fuel as [|fuel IH]; intros l d Hd Hl Hfuel; [lia|].
  pose proof (scope_set_ok _ _ Hd) as (_ & _ & [_ Hnd]%NoDup_cons & _).
  pose proof (advance_spec str_ltb str_ltb_trans str_ltb_total l Hnd) as Hadv.
  cbn [search_digest]. rewrite Hd. cbn [map_err].
  destruct (decide (d = expected)) as [->|Hne].
  { rewrite bool_decide_eq_true_2 by done. eexists. split; [done|]. split; [intros _; exists l; eauto|done]. }
  rewrite bool_decide_eq_false_2 by done.
  destruct (advance_permutation str_ltb l) as [l'|] eqn:Hstep.
  - pose proof (successor_perm str_ltb l l' Hadv) as Hperm.
    destruct (scope_set_perm (primary :: l) (primary :: l') d Hd) as [d' Hd']; [by rewrite Hperm|].
    destruct (IH l' d' Hd') as (outcome & Hout & Hiff); [by rewrite <- Hperm| |].
    + pose proof (successor_after str_ltb str_ltb_irrefl l l' Hadv) as Hafter.
      assert (length (List.filter (lex str_ltb l') (orders l0)) < length (List.filter (lex str_ltb l) (orders l0)))%nat; [|lia].
      apply (filter_fewer _ _ _ l'); [|apply orders_In; by rewrite <- Hperm|done|apply lex_irrefl, str_ltb_irrefl].
      intros p Hp. by eapply (lex_trans str_ltb str_ltb_trans).
    + exists outcome. split; [done|]. rewrite Hiff. split; intros (p & Hp & Hor & Hdig).
      * exists p. split; [by rewrite Hperm|]. split; [|done]. right.
        apply (successor_splits str_ltb str_ltb_irrefl str_ltb_trans str_ltb_total l l'); [done|by rewrite Hperm|done].
      * exists p. split; [by rewrite <- Hperm|]. split; [|done]. destruct Hor as [->|Hlt]; [unfold has_digest in Hdig; congruence|].
        by apply (successor_splits str_ltb str_ltb_irrefl str_ltb_trans str_ltb_total l l').
  - eexists. split; [done|]. split; [done|].
    intros (p & Hp & [->|Hlt] & Hdig); [unfold has_digest in Hdig; congruence|].
    by rewrite (descending_last str_ltb str_ltb_irrefl str_ltb_trans l p Hadv Hp) in Hlt.
Qed.

(** What a search found does not depend on the turns it could have taken. *)
Lemma search_more fuel fuel' expected primary l outcome :
  search_digest fuel expected primary l = Some outcome -> (fuel <= fuel')%nat ->
  search_digest fuel' expected primary l = Some outcome.
Proof.
  revert fuel' l. induction fuel as [|fuel IH]; intros fuel' l Hs Hle; [done|]. destruct fuel' as [|fuel']; [lia|].
  cbn [search_digest] in *. destruct (map_err _ _); [|done]. destruct (bool_decide _); [done|].
  destruct (advance_permutation str_ltb l); [|done]. apply IH; [done|lia].
Qed.

(** From the sorted scopes, one turn per order is enough. *)
Lemma search_ends expected primary l :
  exists outcome, search_digest (S (fact (length l))) expected primary (merge_sort str_le l) = Some outcome
    /\ (outcome = Ok tt <-> exists p, p ≡ₚ l /\ has_digest expected primary p).
Proof.
  pose proof (merge_sort_Permutation str_le l) as Hsort. set (sorted := merge_sort str_le l) in *.
  destruct (scope_set_sha256_from_hashes (primary :: sorted)) as [d|e] eqn:Hd.
  - pose proof (scope_set_ok _ _ Hd) as (_ & _ & [_ Hnd]%NoDup_cons & _).
    destruct (search_meets (S (fact (length l))) expected primary sorted sorted d Hd) as (outcome & Hout & Hiff); [done| |].
    { rewrite <- (Permutation_length Hsort), <- (proj1 (orders_length sorted)). apply Nat.lt_succ_r, filter_length_le. }
    exists outcome. split; [done|]. rewrite Hiff. split.
    + intros (p & Hp & _ & Hdig). exists p. by rewrite <- Hsort.
    + intros (p & Hp & Hdig). rewrite <- Hsort in Hp. exists p. split; [done|]. split; [|done].
      apply (lex_from_first str_ltb str_ltb_irrefl str_ltb_trans str_ltb_total); [|done].
      apply sorted_scopes. by rewrite <- Hsort.
  - cbn [search_digest]. rewrite Hd. eexists. split; [done|]. split; [done|].
    intros (p & Hp & Hdig).
    destruct (scope_set_perm _ (primary :: sorted) _ Hdig) as [d' Hd']; [by rewrite Hsort, Hp|congruence].
Qed.

(** At most eight scopes besides the primary one. *)
Lemma bounded_orders n : bounded_permutations (seqZ 2 (Z.of_nat n - 1)) 1 = Ok tt <-> (n <= 8)%nat.
Proof.
  split.
  - intros Hok. destruct (decide (n <= 8)%nat) as [|Hn]; [done|exfalso].
    do 8 (rewrite seqZ_cons in Hok by lia). cbn in Hok. discriminate.
  - intros Hn. do 9 (destruct n as [|n]; [done|]). lia.
Qed.

(** C37: the digest of a save that migration 4 carried over authenticates exactly
    when at most eight scopes stand beside the primary one and some order of
    them, after the primary scope, has the stored digest: the search tries every
    order.  It always ends: whatever the scopes and the digests, the unbounded loop
    has its outcome after at most one turn per order and one more, further turns
    would not change it, and it is the answer of the validation. *)
Theorem migrated_digest_search_is_exact receipt scope_refs :
  let remaining := filter (fun scope => scope <> rc_scope_sha256 receipt) scope_refs in
  (validate_migrated_v3_scope_set_digest receipt scope_refs = Ok tt
   <-> (length remaining <= 8)%nat
       /\ exists order, order ≡ₚ remaining
            /\ scope_set_sha256_from_hashes (rc_scope_sha256 receipt :: order) = Ok (rc_scope_set_sha256 receipt))
  /\ exists outcome,
       (forall turns, (fact (length remaining) < turns)%nat ->
          search_digest turns (rc_scope_set_sha256 receipt) (rc_scope_sha256 receipt) (merge_sort str_le remaining)
          = Some outcome)
       /\ ((length remaining <= 8)%nat -> validate_migrated_v3_scope_set_digest receipt scope_refs = outcome).
Proof.
  intros remaining. unfold validate_migrated_v3_scope_set_digest. fold remaining.
  rewrite !(Permutation_length (merge_sort_Permutation str_le remaining)).
  destruct (search_ends (rc_scope_set_sha256 receipt) (rc_scope_sha256 receipt) remaining) as (outcome & Hout & Hiff).
  rewrite Hout. split.
  - rewrite <- (bounded_orders (length remaining)). fold (has_digest (rc_scope_set_sha256 receipt) (rc_scope_sha256 receipt)).
    destruct (bounded_permutations _ 1) as [[]|e]; [|by split; [|intros [? _]]].
    rewrite Hiff. unfold has_digest. by split; [|intros [_ ?]].
  - exists outcome. split; [intros turns Hturns; by eapply search_more|].
    rewrite <- (bounded_orders (length remaining)). by intros ->.
Qed.
End Search.
