(* ===== verification/IdentityCalls.v ===== *)
(** * Identity calls on the log

    What the statements of a save and of a clear do to the tables, and that
    together they append one mutation to the log; the log machine the calls
    implement, and the runs that take a new mutation token. *)
From stdpp Require Import base list gmap strings sorting relations.
From Stdlib Require Import ZArith Lia.
From S2P Require Import Prelude RustStr External Digest Tables RunContract StoreBase AssistantContent RunStore Identity IdentityStore IdentityValidation IdentityOps IdentityLedger IdentityReads.

Open Scope Z_scope.
Open Scope rust_scope.

(** ** Appending a mutation *)
Lemma last_such_cons Q m log :
  last_such Q (m :: log) = if Q m then Some (Z.of_nat (length (m :: log)), m) else last_such Q log.
Proof. done. Qed.

Section Append.
Context {EX : External} {MF : MillisFormat} {DG : Digest} {UF : UuidFormat}.

(** Every alias has its conversation, and no conversation two aliases. *)
Definition provenance (db : IdentityDb) : Prop :=
  forall alias row, identity_aliases db !! alias = Some row ->
    is_Some (conversations (id_store db) !! al_conversation_id row)
    /\ forall alias' row', identity_aliases db !! alias' = Some row' ->
         al_conversation_id row' = al_conversation_id row -> alias' = alias.

Lemma represents_append log db db' m (r := Z.of_nat (length (m :: log))) :
  represents log db -> mutation_ok m -> mn_token m ∉ map mn_token log -> r <= i64_max ->
  identity_mutations db' = <[mn_token m := entry_row r m]> (identity_mutations db) ->
  identity_mutation_scopes db' = identity_mutation_scopes db ++ map (fun s => (mn_token m, s)) (entry_scopes m) ->
  identity_commit db' = Some (mn_token m, entry_row r m) ->
  (forall ed sc, identity_scopes db' !! (ed, sc)
     = if affects ed sc m
       then match mn_effect m with ESave _ a c => Some (mkSelectionRow a c r (mn_at m)) | _ => None end
       else identity_scopes db !! (ed, sc)) ->
  (forall ed sc, identity_tombstones db' !! (ed, sc)
     = if affects ed sc m then match mn_effect m with EClear _ => Some (mkEffectRow r (mn_at m)) | _ => None end
       else identity_tombstones db !! (ed, sc)) ->
  (forall ed, identity_clear_all db' !! ed
     = if is_clear_all ed m then Some (mkEffectRow r (mn_at m)) else identity_clear_all db !! ed) ->
  identity_migrated_scopes db' = identity_migrated_scopes db ->
  identity_aliases db ⊆ identity_aliases db' ->
  (forall scopes a c, mn_effect m = ESave scopes a c -> al_conversation_id <$> identity_aliases db' !! a = Some (c : string)) ->
  provenance db' -> represents (m :: log) db'.
Proof.
  intros Hrep Hok Hfresh Hbound Hmut Hmsc Hcommit Hsel Htomb Hall Hmig Hal Hnew Hprov.
  destruct Hrep as [R1 R2 R3 R4 R5 R6 R7 R8 R9 R10 R11 R12]. constructor; try done.
  - by constructor.
  - cbn [map]. by constructor.
  - by rewrite Hmut, R4.
  - by rewrite Hmsc, R5.
  - intros ed sc. rewrite Hsel, R7. unfold selected_row. rewrite last_such_cons. by destruct (affects ed sc m).
  - intros ed sc. rewrite Htomb, R8. unfold tombstone_row. rewrite last_such_cons. by destruct (affects ed sc m).
  - intros ed. rewrite Hall, R9. unfold clear_all_row. rewrite last_such_cons. by destruct (is_clear_all ed m).
  - by rewrite Hmig.
  - intros m' scopes a c [->|Hm]%elem_of_cons He; [by eapply Hnew|]. pose proof (R11 m' scopes a c Hm He) as Ho.
    destruct (identity_aliases db !! a) as [row|] eqn:Hrow; [|done]. rewrite (lookup_weaken _ _ _ _ Hrow Hal). done.
Qed.

(** ** Loops of statements *)
Lemma each_cons {A} (f : A -> Tx IdentityDb StoreError unit) x l db db1 :
  f x db = (Ok tt, db1) -> each f (x :: l) db = each f l db1.
Proof. cbn [each]. unfold tbind. by intros ->. Qed.

(** Every scope of a list gets the row [v], or loses its row. *)
Definition write_scopes {V} (ed : string) (scopes : list string) (v : option V) (m : gmap (string * string) V)
    : gmap (string * string) V :=
  foldl (fun (m : gmap (string * string) V) s => partial_alter (fun _ => v) (ed, s) m) m scopes.

Lemma write_scopes_lookup {V} ed scopes (v : option V) m e s :
  write_scopes ed scopes v m !! (e, s) = if bool_decide (e = ed) && bool_decide (s ∈ scopes) then v else m !! (e, s).
Proof.
  unfold write_scopes. revert m. induction scopes as [|x scopes IH]; intros m; cbn [foldl].
  - rewrite (bool_decide_eq_false_2 (s ∈ [])) by apply not_elem_of_nil. by rewrite andb_false_r.
  - rewrite IH. destruct (decide ((e, s) = (ed, x))) as [[= -> ->]|Hne].
    + rewrite lookup_partial_alter_eq, (bool_decide_eq_true_2 (ed = ed)) by done.
      rewrite (bool_decide_eq_true_2 (x ∈ x :: scopes)) by left. by destruct (bool_decide (x ∈ scopes)).
    + rewrite lookup_partial_alter_ne by congruence.
      rewrite (bool_decide_ext (s ∈ x :: scopes) (s = x \/ s ∈ scopes)) by apply elem_of_cons.
      destruct (decide (e = ed)) as [->|]; [|by rewrite !(bool_decide_eq_false_2 (e = ed))].
      rewrite (bool_decide_ext (s = x \/ s ∈ scopes) (s ∈ scopes)) by (split; [by intros [->|?]|by right]). done.
Qed.

Lemma each_select ed scopes row db :
  is_lower_hex_sha256 ed = true -> Forall (fun s => is_lower_hex_sha256 s = true) (map as_sha256 scopes) ->
  0 < sl_revision row -> is_Some (identity_aliases db !! sl_alias_sha256 row) ->
  is_Some (conversations (id_store db) !! sl_conversation_id row) ->
  each (fun scope => delete_tombstone ed (as_sha256 scope) ;; upsert_selection ed (as_sha256 scope) row) scopes db
  = (Ok tt, set_scopes (write_scopes ed (map as_sha256 scopes) (Some row) (identity_scopes db))
              (set_tombstones (write_scopes ed (map as_sha256 scopes) None (identity_tombstones db)) db)).
Proof.
  intros Hed Hall Hr Ha Hc. revert db Hall Ha Hc. induction scopes as [|s scopes IH]; intros db Hall Ha Hc.
  - by destruct db.
  - cbn [map] in Hall. apply Forall_cons in Hall as [Hs Hall].
    rewrite (each_cons _ _ _ _ (set_scopes (<[(ed, as_sha256 s) := row]> (identity_scopes db))
                                  (set_tombstones (delete (ed, as_sha256 s) (identity_tombstones db)) db))).
    + by rewrite IH.
    + unfold tbind, delete_tombstone, tmodify, upsert_selection. rewrite Hed, Hs, (proj2 (Z.ltb_lt _ _) Hr). cbn [andb negb].
      unfold set_tombstones. cbn [identity_aliases id_store]. destruct Ha as [? ->], Hc as [? ->]. done.
Qed.

Lemma each_receipt_scope tok scopes db :
  Forall (fun s => is_lower_hex_sha256 s = true) (map as_sha256 scopes) -> NoDup (map as_sha256 scopes) ->
  (forall s, (tok, s) ∈ identity_mutation_scopes db -> s ∉ map as_sha256 scopes) ->
  is_Some (identity_mutations db !! tok) ->
  each (fun scope => insert_mutation_scope tok (as_sha256 scope)) scopes db
  = (Ok tt, set_mutation_scopes (identity_mutation_scopes db ++ map (fun s => (tok, s)) (map as_sha256 scopes)) db).
Proof.
  revert db. induction scopes as [|s scopes IH]; intros db Hall Hnd Hnew Hm.
  - cbn [map]. rewrite app_nil_r. by destruct db.
  - cbn [map] in *. apply Forall_cons in Hall as [Hs Hall]. apply NoDup_cons in Hnd as [Hin Hnd].
    rewrite (each_cons _ _ _ _ (set_mutation_scopes (identity_mutation_scopes db ++ [(tok, as_sha256 s)]) db)).
    + rewrite IH; [|done|done| |done].
      * unfold set_mutation_scopes. cbn [identity_mutation_scopes]. by rewrite <- app_assoc.
      * unfold set_mutation_scopes. cbn [identity_mutation_scopes]. intros s'. rewrite elem_of_app.
        intros [Hold|[= ->]%list_elem_of_singleton]; [|done]. specialize (Hnew s' Hold). rewrite not_elem_of_cons in Hnew. tauto.
    + unfold insert_mutation_scope. rewrite Hs. cbn [negb]. rewrite bool_decide_eq_false_2; [by destruct Hm as [? ->]|].
      intros Hold. apply (Hnew _ Hold). left.
Qed.

(** ** The alias of an identity *)
Lemma alias_of_conversation_spec c db :
  match alias_of_conversation c db with
  | Some a => exists row, identity_aliases db !! a = Some row /\ al_conversation_id row = c
  | None => forall a row, identity_aliases db !! a = Some row -> al_conversation_id row <> c
  end.
Proof.
  unfold alias_of_conversation.
  destruct (filter (fun p : string * AliasRow => al_conversation_id p.2 = c) (map_to_list (identity_aliases db))) as [|[a row] l] eqn:Hf.
  - intros a row Ha%elem_of_map_to_list Hc. apply (not_elem_of_nil (a, row)). rewrite <- Hf. by apply list_elem_of_filter.
  - exists row. assert ((a, row) ∈ (a, row) :: l) as Hin by left. rewrite <- Hf in Hin.
    apply list_elem_of_filter in Hin as [? ?%elem_of_map_to_list]. done.
Qed.

Lemma provenance_ok a row db :
  provenance db -> identity_aliases db !! a = Some row -> validate_alias_provenance a (al_conversation_id row) db = Ok tt.
Proof.
  intros Hp Ha. unfold validate_alias_provenance. rewrite Ha. cbn [fmap option_fmap option_map].
  rewrite bool_decide_eq_true_2 by done. cbn [negb]. pose proof (alias_of_conversation_spec (al_conversation_id row) db) as Hs.
  destruct (alias_of_conversation _ db) as [a'|].
  - destruct Hs as (row' & Ha' & Hc). destruct (Hp a row Ha) as [_ Huniq]. rewrite (Huniq a' row' Ha' Hc), bool_decide_eq_true_2 by done.
    cbn [negb]. rewrite (bool_decide_eq_false_2 (Some _ = None)) by done. by rewrite andb_false_r.
  - rewrite (bool_decide_eq_false_2 (Some _ = None)) by done. by rewrite andb_false_r.
Qed.

Lemma provenance_cases a c db :
  validate_alias_provenance a c db = Ok tt ->
  (exists row, identity_aliases db !! a = Some row /\ al_conversation_id row = c)
  \/ (identity_aliases db !! a = None /\ conversations (id_store db) !! (c : string) = None).
Proof.
  unfold validate_alias_provenance. destruct (identity_aliases db !! a) as [row|] eqn:Ha; cbn [fmap option_fmap option_map].
  - destruct (decide (al_conversation_id row = c)) as [<-|Hne]; [by eauto|]. rewrite bool_decide_eq_false_2 by done. discriminate.
  - destruct (match alias_of_conversation c db with Some _ => _ | None => _ end); [discriminate|].
    destruct (conversations (id_store db) !! (c : string)) eqn:Hk; [|eauto].
    by rewrite (bool_decide_eq_true_2 (is_Some _)), bool_decide_eq_true_2 by eauto.
Qed.

(** The alias and its conversation exist after a save; both are new or neither is. *)
Definition linked (a : string) (c : ConversationId) (timestamp : string) (db : IdentityDb) : IdentityDb :=
  match identity_aliases db !! a with
  | Some _ => db
  | None =>
      set_aliases (<[a := mkAliasRow c "runtime_v3" timestamp]> (identity_aliases db))
        (set_id_store (set_conversations (<[(c : string) := (timestamp, timestamp)]> (conversations (id_store db))) (id_store db)) db)
  end.

Lemma linked_provenance a c timestamp db :
  provenance db -> validate_alias_provenance a c db = Ok tt ->
  provenance (linked a c timestamp db) /\ identity_aliases db ⊆ identity_aliases (linked a c timestamp db)
  /\ al_conversation_id <$> identity_aliases (linked a c timestamp db) !! a = Some (c : string)
  /\ is_Some (conversations (id_store (linked a c timestamp db)) !! (c : string)).
Proof.
  intros Hp Hv. unfold linked. apply provenance_cases in Hv as [(row & Ha & <-)|[Ha Hc]]; rewrite Ha.
  - split_and!; [done|done|by rewrite Ha|by apply (Hp a row)].
  - assert (forall a' row', identity_aliases db !! a' = Some row' -> al_conversation_id row' <> c) as Hother.
    { intros a' row' Ha' <-. destruct (Hp a' row' Ha') as [[? Hk] _]. congruence. }
    unfold set_aliases, set_id_store, set_conversations. cbn [identity_aliases id_store conversations].
    split_and!; [|by apply insert_subseteq|by rewrite lookup_insert_eq|by rewrite lookup_insert_eq].
    intros a1 row1. cbn [identity_aliases id_store conversations].
    intros [[<- <-]|[Hne1 H1]]%lookup_insert_Some; cbn [al_conversation_id]; (split; [|intros a2 row2]).
    + by rewrite lookup_insert_eq.
    + intros [[<- <-]|[Hne2 H2]]%lookup_insert_Some; [done|]. intros Heq. by destruct (Hother _ _ H2).
    + rewrite lookup_insert_ne; [by apply (Hp a1 row1)|]. intros Heq. by destruct (Hother _ _ H1).
    + intros [[<- <-]|[Hne2 H2]]%lookup_insert_Some; cbn [al_conversation_id].
      * intros Heq. by destruct (Hother _ _ H1).
      * by apply (Hp a1 row1).
Qed.

Lemma link_statements {A} a c timestamp db (k : Tx IdentityDb StoreError A) :
  provenance db -> validate_alias_provenance a c db = Ok tt -> is_lower_hex_sha256 a = true ->
  (insert_or_ignore_conversation c timestamp ;; insert_or_ignore_alias a (mkAliasRow c "runtime_v3" timestamp) ;;
   tread (validate_alias_provenance a c) ;; k) db = k (linked a c timestamp db).
Proof.
  intros Hp Hv Hex. pose proof (linked_provenance a c timestamp db Hp Hv) as (Hp' & _ & Hal & _).
  unfold tbind at 1 2 3. unfold insert_or_ignore_conversation, tmodify, insert_or_ignore_alias, linked in *. cbn [al_conversation_id].
  pose proof (provenance_cases _ _ _ Hv) as [(row & Ha & <-)|[Ha Hc]]; rewrite Ha in *.
  - destruct (Hp a row Ha) as [[x Hx] _]. change (conversations (id_store db) !! (al_conversation_id row : string) = Some x) in Hx.
    rewrite Hx. rewrite Ha. unfold tread. by rewrite Hv.
  - rewrite Hc. unfold set_id_store at 1. cbn [identity_aliases]. rewrite Ha.
    change (alias_of_conversation c (set_id_store _ db)) with (alias_of_conversation c db).
    pose proof (alias_of_conversation_spec c db) as Hs. destruct (alias_of_conversation c db) as [a'|].
    { destruct Hs as (row & Ha' & <-). destruct (Hp a' row Ha') as [[? Hk] _]. congruence. }
    rewrite Hex. cbn [negb]. set (C := <[(c : string) := (timestamp, timestamp)]> (conversations (id_store db))) in *.
    assert (C !! (c : string) = Some (timestamp, timestamp)) as HC by apply lookup_insert_eq.
    change (conversations (id_store (set_id_store (set_conversations C (id_store db)) db)) !! (c : string)) with (C !! (c : string)).
    rewrite HC. unfold tread.
    match goal with |- match validate_alias_provenance a c ?d with _ => _ end = _ =>
      assert (validate_alias_provenance a c d = Ok tt) as ->; [|done] end.
    apply (provenance_ok a (mkAliasRow c "runtime_v3" timestamp)); [exact Hp'|].
    unfold set_aliases. cbn [identity_aliases]. apply lookup_insert_eq.
Qed.

(** ** Recording a mutation *)
(** The timestamp of a commit must be the canonical form of its instant. *)
Definition clock_check (timestamp : string) : result StoreError unit :=
  let? committed_at := ok_or (canonical_utc timestamp) (CorruptData "identity commit timestamp is invalid") in
  fail? negb (bool_decide (committed_at = timestamp)) with CorruptData "identity commit timestamp is not canonical UTC" in
  Ok tt.

Lemma clock_check_ok timestamp : clock_check timestamp = Ok tt <-> canonical_utc timestamp = Some timestamp.
Proof.
  unfold clock_check. destruct (canonical_utc timestamp) as [c|]; cbn [ok_or]; [|done].
  destruct (decide (c = timestamp)) as [->|Hne]; [by rewrite bool_decide_eq_true_2|].
  rewrite bool_decide_eq_false_2 by done. split; [done|]. by intros [= ->].
Qed.

Context {DL : DigestLaws}.

Lemma commit_on_entry r m db :
  identity_commit db = Some (mn_token m, entry_row r m) -> 1 <= r -> mutation_shape m ->
  commit_on db = (let? _ := clock_check (mn_at m) in Ok (Some (entry_commit r m))).
Proof.
  intros Hc Hr Hs. destruct (entry_scope_set m Hs) as (Hprim & Hset & _). pose proof Hs as [Htok Hed _ Hsave].
  unfold commit_on. rewrite Hc. cbn [mu_revision mu_operation mu_edition_sha256 mu_scope_sha256 mu_scope_set_sha256
    mu_alias_sha256 mu_conversation_id mu_committed_at entry_row].
  rewrite (proj2 (Z.ltb_ge _ _)), (proj2 (Z.eqb_neq _ _)) by lia. rewrite parse_operation. cbn [ok_or forallb].
  rewrite Hed, Hprim, Hset, Htok. cbn [andb negb]. unfold clock_check.
  assert (match entry_alias m with Some d => negb (is_lower_hex_sha256 d) | None => false end = false) as ->.
  { unfold entry_alias. destruct (mn_effect m) as [scopes a c| |]; [|done..]. by destruct Hsave as [-> _]. }
  destruct (canonical_utc (mn_at m)) as [c|]; cbn [ok_or]; [|done].
  destruct (negb (bool_decide (c = mn_at m))) eqn:Hcanon; [done|]. bools. subst c.
  unfold entry_commit, entry_alias, entry_conversation, entry_operation, primary_scope, scope_set.
  destruct (mn_effect m) as [scopes a c|s|]; cbn; [|done|by rewrite (bool_decide_eq_true_2 (clear_all_sha256 = _))].
  destruct Hsave as [_ Hconv]. by rewrite (proj2 (parse_conversation_id_ok c c)).
Qed.

(** The database after the mutation is recorded. *)
Definition recorded (m : Mutation) (r : Z) (db : IdentityDb) : IdentityDb :=
  set_mutation_scopes (identity_mutation_scopes db ++ map (fun s => (mn_token m, s)) (entry_scopes m))
    (set_mutations (<[mn_token m := entry_row r m]> (identity_mutations db)) (set_commit (Some (mn_token m, entry_row r m)) db)).

Lemma row_of_commit r m : commit_row (entry_commit r m) r = entry_row r m.
Proof. done. Qed.

Lemma entry_payload r m : payload_check (entry_row r m) = true.
Proof. unfold payload_check, entry_row, entry_operation, entry_alias, entry_conversation. by destruct (mn_effect m). Qed.

Lemma sql_revision_ok r : r <= i64_max -> sql_revision r = Ok r.
Proof. intros Hr. unfold sql_revision. by rewrite (proj2 (Z.leb_le _ _)). Qed.

Lemma shape_scopes m : mutation_shape m -> Forall (fun s => is_lower_hex_sha256 s = true) (entry_scopes m) /\ NoDup (entry_scopes m).
Proof.
  intros [_ _ Hs _]. unfold entry_scopes in *. destruct (mn_effect m); [..|by split; constructor].
  all: destruct Hs as [d Hd]; by apply scope_set_ok in Hd as (_ & ? & ? & _).
Qed.

Lemma record_statements m scopes r error db :
  mutation_shape m -> map as_sha256 scopes = entry_scopes m -> 1 <= r <= i64_max ->
  reference_ok (entry_alias m) (identity_aliases db) = true ->
  reference_ok (entry_conversation m) (conversations (id_store db)) = true ->
  identity_mutations db !! mn_token m = None ->
  (forall s, (mn_token m, s) ∉ identity_mutation_scopes db) ->
  (forall tok row, identity_mutations db !! tok = Some row -> mu_revision row <> r) ->
  exists db', (upsert_commit (mn_token m) (entry_row r m) ;; committed <- tread commit_on ;
   committed <- tlift (ok_or committed error) ; insert_mutation_receipt committed scopes ;; tret committed) db
  = match clock_check (mn_at m) with Ok _ => (Ok (entry_commit r m), recorded m r db) | Err e => (Err e, db') end.
Proof.
  intros Hs Hscopes Hr Ha Hc Hfresh Hnone Hrev. destruct (entry_scope_set m Hs) as (Hprim & Hset & _).
  pose proof (mo_token _ Hs) as Htok. pose proof (mo_edition _ Hs) as Hed. exists (set_commit (Some (mn_token m, entry_row r m)) db).
  unfold tbind at 1. unfold upsert_commit. rewrite entry_payload. cbn [mu_revision mu_operation mu_edition_sha256 mu_scope_sha256
    mu_scope_set_sha256 mu_alias_sha256 mu_conversation_id entry_row forallb].
  rewrite (proj2 (Z.ltb_lt _ _)) by lia. rewrite parse_operation, Hed, Hprim, Hset, Htok.
  rewrite (bool_decide_eq_true_2 (is_Some _)) by eauto. cbn [andb negb]. rewrite Ha, Hc. cbn [andb negb].
  unfold tbind at 1. unfold tread. rewrite (commit_on_entry r m) by (done || lia). destruct (clock_check (mn_at m)) as [[]|e]; [|done].
  unfold tbind, tlift. cbn [ok_or]. unfold insert_mutation_receipt, tbind, tlift. cbn [ic_revision entry_commit].
  rewrite sql_revision_ok by lia. rewrite row_of_commit. unfold insert_mutation. cbn [ic_mutation_sha256 entry_commit].
  rewrite Htok, entry_payload. cbn [mu_revision mu_operation entry_row]. rewrite (proj2 (Z.ltb_lt _ _)) by lia.
  rewrite parse_operation, (bool_decide_eq_true_2 (is_Some _)) by eauto. cbn [andb negb].
  unfold set_commit at 1. cbn [identity_mutations]. rewrite Hfresh.
  assert (fold_exists (fun _ r0 => mu_revision r0 =? r) (identity_mutations db) = false) as Hno.
  { apply not_true_iff_false. rewrite fold_exists_true. intros (tok & row & Hrow & Heq). bools. by eapply Hrev. }
  unfold set_commit at 1. cbn [identity_mutations]. rewrite Hno. destruct (shape_scopes m Hs) as [Hhex Hnd].
  rewrite each_receipt_scope; rewrite ?Hscopes; try done.
  - intros s Hin. by destruct (Hnone s).
  - unfold set_mutations. cbn [identity_mutations]. rewrite lookup_insert_eq. eauto.
Qed.
End Append.

#[export] Instance identity_effect_eq_dec : EqDecision IdentityEffect.
Proof. solve_decision. Defined.

(** ** The abstract log machine *)
(** The same call made again: equal but for its time. *)
Definition same_call (a b : Mutation) : bool :=
  bool_decide (mn_edition a = mn_edition b) && bool_decide (mn_effect a = mn_effect b).

Inductive IdentityCall :=
| CallSave (edition_slug : string) (scopes : list ConversationIdentityScope) (external_id token : string)
| CallClear (edition_slug : string) (scopes : option (list ConversationIdentityScope)) (token : string).

Section Machine.
Context {EX : External} {MF : MillisFormat} {DG : Digest} {UF : UuidFormat}.

(** The log has a revision left and the clock is canonical. *)
Definition may_append (log : list Mutation) (timestamp : string) : result StoreError unit :=
  fail? i64_max <=? Z.of_nat (length log) with exceeds in clock_check timestamp.

(** One call on the log: the last mutation is answered again, a token is used
    once, and the new mutation becomes the newest entry. *)
Definition identity_spec (log : list Mutation) (m : Mutation) (owner : result StoreError unit)
    : result StoreError (IdentityCommit * list Mutation) :=
  let fresh :=
    fail? bool_decide (mn_token m ∈ map mn_token log) with identity_conflict in
    let? _ := owner in
    let? _ := may_append log (mn_at m) in
    Ok (entry_commit (Z.of_nat (length (m :: log))) m, m :: log) in
  match log with
  | last :: _ =>
      if bool_decide (mn_token last = mn_token m)
      then if same_call last m then Ok (entry_commit (Z.of_nat (length log)) last, log) else Err identity_conflict
      else fresh
  | [] => fresh
  end.

(** The mutation a call asks for. *)
Definition request (call : IdentityCall) (t : Tick) : result StoreError Mutation :=
  match call with
  | CallSave slug scopes external_id token =>
      let? edition := input (edition_sha256 slug) in
      let? external := input (external_identity external_id) in
      let? mutation := input (mutation_sha256 token) in
      let? _ := input (scope_set_sha256 scopes) in
      Ok (mkMutation mutation edition
            (ESave (map as_sha256 scopes) (ex_alias_sha256 external) (ex_conversation_id external)) (now t))
  | CallClear slug scopes token =>
      let? edition := input (edition_sha256 slug) in
      let? mutation := input (mutation_sha256 token) in
      let? _ := clear_target scopes in
      Ok (mkMutation mutation edition
            (match scopes with Some scopes => EClear (first_scope scopes) | None => EClearAll end) (now t))
  end.

(** Who may take the alias of a save. *)
Definition owner_of (m : Mutation) (db : IdentityDb) : result StoreError unit :=
  match mn_effect m with ESave _ alias conversation => validate_alias_provenance alias conversation db | _ => Ok tt end.

Definition run_call (call : IdentityCall) (t : Tick) : Tx IdentityDb StoreError IdentityCommit :=
  match call with
  | CallSave slug scopes external_id token => save_conversation_identity slug scopes external_id token t
  | CallClear slug scopes token => clear_conversation_identity slug scopes token t
  end.

(** The digests of the last scope list and of the new one do not collide. *)
Definition no_collision (log : list Mutation) (m : Mutation) : Prop :=
  forall last, head log = Some last -> scope_set last = scope_set m -> entry_scopes last = entry_scopes m.
End Machine.

Section Calls.
Context {EX : External} {MF : MillisFormat} {DG : Digest} {UF : UuidFormat} {DL : DigestLaws} {UL : UuidFormatLaws}.

(** ** The request of a call *)
Lemma uuid_bytes_length digest : (16 <= length digest)%nat -> length (uuid_bytes digest) = 16%nat.
Proof. intros Hlen. unfold uuid_bytes. rewrite !length_insert, length_take. lia. Qed.

Lemma external_identity_ok value external :
  external_identity value = Ok external ->
  is_lower_hex_sha256 (ex_alias_sha256 external) = true
  /\ uuid_canonical (ex_conversation_id external) = Some (ex_conversation_id external : string).
Proof.
  unfold external_identity. destruct (validate_external_id value); [|discriminate]. intros [= <-].
  split; [apply digest_hex|]. apply uuid_from_bytes_canonical, uuid_bytes_length. unfold digest_bytes. rewrite sha256_length. lia.
Qed.

Lemma input_ok {A} (r : result IdentityError A) a : input r = Ok a -> r = Ok a.
Proof. destruct r; [by intros [= ->]|discriminate]. Qed.

Lemma edition_hex slug ed : edition_sha256 slug = Ok ed -> is_lower_hex_sha256 ed = true.
Proof. unfold edition_sha256. destruct (_ || _ || _); [discriminate|]. intros [= <-]. apply digest_hex. Qed.
Lemma mutation_hex token mutation : mutation_sha256 token = Ok mutation -> is_lower_hex_sha256 mutation = true.
Proof. unfold mutation_sha256. destruct (_ || _ || _); [discriminate|]. intros [= <-]. apply digest_hex. Qed.

Lemma clear_target_some scopes op primary set :
  clear_target (Some scopes) = Ok (op, primary, set) ->
  exists s, scopes = [s] /\ op = ClearScope /\ primary = as_sha256 s /\ scope_set_sha256_from_hashes [as_sha256 s] = Ok set.
Proof.
  unfold clear_target. destruct scopes as [|s [|]]; try discriminate. cbn [length Nat.eqb negb].
  destruct (input (scope_set_sha256 [s])) as [d|] eqn:Hd; [|discriminate]. intros [= <- <- <-]. apply input_ok in Hd. by exists s.
Qed.

Lemma request_shape call t m : request call t = Ok m -> mutation_shape m /\ mn_at m = now t.
Proof.
  destruct call as [slug scopes ext token|slug scopes token]; cbn [request].
  - destruct (input (edition_sha256 slug)) as [ed|] eqn:He; [|discriminate]. apply input_ok in He.
    destruct (input (external_identity ext)) as [ex|] eqn:Hx; [|discriminate]. apply input_ok, external_identity_ok in Hx.
    destruct (input (mutation_sha256 token)) as [mu|] eqn:Hm; [|discriminate]. apply input_ok in Hm.
    destruct (input (scope_set_sha256 scopes)) as [d|] eqn:Hd; [|discriminate]. apply input_ok in Hd. intros [= <-].
    split; [|done]. constructor; cbn; [by eapply mutation_hex|by eapply edition_hex|by exists d|done].
  - destruct (input (edition_sha256 slug)) as [ed|] eqn:He; [|discriminate]. apply input_ok in He.
    destruct (input (mutation_sha256 token)) as [mu|] eqn:Hm; [|discriminate]. apply input_ok in Hm.
    destruct (clear_target scopes) as [[[op primary] set]|] eqn:Ht; [|discriminate]. intros [= <-].
    split; [|done]. constructor; cbn; [by eapply mutation_hex|by eapply edition_hex| |by destruct scopes].
    destruct scopes as [scopes|]; [|done]. apply clear_target_some in Ht as (s & -> & _ & _ & Hd). by exists set.
Qed.

(** ** What the reads of a call find *)
Section Found.
Context {log : list Mutation} {db : IdentityDb} (Hrep : represents log db).

Lemma next_revision_ok : next_revision db = Ok (Z.of_nat (S (length log))).
Proof.
  unfold next_revision. rewrite (rp_commit _ _ Hrep). pose proof (rp_bound _ _ Hrep).
  assert (default 0 (mu_revision ∘ snd <$> head (rows_of log)) = Z.of_nat (length log)) as -> by by destruct log.
  rewrite (proj2 (Z.ltb_ge _ _)) by lia. unfold u64_checked_add. rewrite (proj2 (Z.leb_le _ _)) by (unfold u64_max, i64_max in *; lia).
  cbn [ok_or]. f_equal. lia.
Qed.

Lemma commit_on_last :
  commit_on db = Ok (match log with m :: _ => Some (entry_commit (Z.of_nat (length log)) m) | [] => None end).
Proof.
  pose proof (rp_commit _ _ Hrep) as Hc. pose proof (rp_ok _ _ Hrep) as Hok. destruct log as [|m older].
  - unfold commit_on. by rewrite Hc.
  - apply Forall_cons in Hok as [Hm _]. rewrite (commit_on_entry (Z.of_nat (length (m :: older))) m db Hc) by (by apply mo_shape || (cbn [length]; lia)).
    by rewrite (proj2 (clock_check_ok _) (mo_at _ Hm)).
Qed.

Lemma replayed_last tok :
  replayed tok db
  = Ok (match log with
        | m :: _ => if bool_decide (mn_token m = tok) then Some (entry_commit (Z.of_nat (length log)) m) else None
        | [] => None
        end).
Proof. unfold replayed. rewrite commit_on_last. by destruct log. Qed.

Lemma reject_used tok :
  reject_replayed_mutation tok db = if bool_decide (tok ∈ map mn_token log) then Err identity_conflict else Ok tt.
Proof. unfold reject_replayed_mutation. by rewrite (bool_decide_ext _ _ (token_known Hrep tok)). Qed.

Lemma represents_provenance : provenance db.
Proof. exact (rp_provenance _ _ Hrep). Qed.

Lemma fresh_scopes tok : tok ∉ map mn_token log -> forall s, (tok, s) ∉ identity_mutation_scopes db.
Proof.
  rewrite (rp_scopes _ _ Hrep). clear Hrep. induction log as [|m l IH]; intros Hn s; [apply not_elem_of_nil|].
  cbn [map scope_rows] in *. apply not_elem_of_cons in Hn as [Hne Hn]. rewrite elem_of_app, list_elem_of_fmap.
  intros [Hin|(s' & [= Heq _] & _)]; [by apply (IH Hn s)|congruence].
Qed.

Lemma fresh_token tok : tok ∉ map mn_token log -> identity_mutations db !! tok = None.
Proof.
  intros Hn. destruct (identity_mutations db !! tok) eqn:Hm; [|done]. destruct Hn. apply (token_known Hrep). eauto.
Qed.

Lemma fresh_revision tok row : identity_mutations db !! tok = Some row -> mu_revision row <> Z.of_nat (S (length log)).
Proof. intros (r & m & [_ Hr]%entries_In & _ & ->)%(mutation_lookup Hrep). cbn. lia. Qed.
End Found.

(** ** Running a call *)
Lemma run_lift {A B} (a : A) (k : A -> Tx IdentityDb StoreError B) db : tbind (tlift (Ok a)) k db = k a db.
Proof. done. Qed.
Lemma run_read {A B} f (a : A) (k : A -> Tx IdentityDb StoreError B) db : f db = Ok a -> tbind (tread f) k db = k a db.
Proof. intros Hf. unfold tbind, tread. by rewrite Hf. Qed.
Lemma run_read_err {A B} f e (k : A -> Tx IdentityDb StoreError B) db : f db = Err e -> tbind (tread f) k db = (Err e, db).
Proof. intros Hf. unfold tbind, tread. by rewrite Hf. Qed.
Lemma run_step {A B} (p : Tx IdentityDb StoreError A) a (k : A -> Tx IdentityDb StoreError B) db db' :
  p db = (Ok a, db') -> tbind p k db = k a db'.
Proof. intros Hp. unfold tbind. by rewrite Hp. Qed.
Lemma run_transaction {A} (p : Tx IdentityDb StoreError A) db r db' :
  p db = (r, db') -> transaction p db = (r, match r with Ok _ => db' | Err _ => db end).
Proof. intros Hp. unfold transaction. rewrite Hp. by destruct r. Qed.

(** What a call may do to the rest of the store: create the conversation of a save. *)
Definition keeps_runs (t : Tick) (db db' : RunDb) : Prop :=
  db' = db \/ exists c, db' = snd (create_conversation c t db).

Lemma linked_keeps a c t db :
  provenance db -> validate_alias_provenance a c db = Ok tt -> keeps_runs t (id_store db) (id_store (linked a c (now t) db)).
Proof.
  intros Hp Hv. unfold linked. apply provenance_cases in Hv as [(row & Ha & <-)|[Ha Hc]]; rewrite Ha; [by left|].
  right. exists c. unfold create_conversation. change (conversations (id_store db) !! c = None) in Hc. by rewrite Hc.
Qed.

(** The outcome of a call on a database that represents [log]. *)
Definition outcome (t : Tick) (spec : result StoreError (IdentityCommit * list Mutation)) (log : list Mutation)
    (db : IdentityDb) (run : result StoreError IdentityCommit * IdentityDb) : Prop :=
  match spec with
  | Ok (c, log') => exists db', run = (Ok c, db') /\ represents log' db' /\ (log' = log -> db' = db)
                                /\ keeps_runs t (id_store db) (id_store db')
  | Err e => run = (Err e, db)
  end.

Definition append_spec (log : list Mutation) (m : Mutation) (owner : result StoreError unit)
    : result StoreError (IdentityCommit * list Mutation) :=
  fail? bool_decide (mn_token m ∈ map mn_token log) with identity_conflict in
  let? _ := owner in
  let? _ := may_append log (mn_at m) in
  Ok (entry_commit (Z.of_nat (length (m :: log))) m, m :: log).

(** A link of an alias writes two tables. *)
Lemma linked_tables a c timestamp db :
  exists A R, linked a c timestamp db = set_aliases A (set_id_store R db).
Proof.
  unfold linked. destruct (identity_aliases db !! a); [|eauto]. exists (identity_aliases db), (id_store db). by destruct db.
Qed.

Lemma first_scope_head scopes : first_scope scopes = default EmptyString (head (map as_sha256 scopes)).
Proof. by destruct scopes. Qed.

(** The rest of a call, once its checks have passed: take the next revision,
    write the effects and record the mutation. *)
Definition finish (effects : Z -> Tx IdentityDb StoreError unit) (row : Z -> MutationRow) (mutation : string)
    (scopes : list ConversationIdentityScope) (error : StoreError) : Tx IdentityDb StoreError IdentityCommit :=
  revision <- tread next_revision ;
  revision <- tlift (sql_revision revision) ;
  effects revision ;;
  upsert_commit mutation (row revision) ;;
  committed <- tread commit_on ;
  committed <- tlift (ok_or committed error) ;
  insert_mutation_receipt committed scopes ;;
  tret committed.

(** The effects of a mutation on the scopes of every edition. *)
Definition effects_written (m : Mutation) (r : Z) (db1 db2 : IdentityDb) : Prop :=
  (forall ed sc, identity_scopes db2 !! (ed, sc)
     = if affects ed sc m
       then match mn_effect m with ESave _ a c => Some (mkSelectionRow a c r (mn_at m)) | _ => None end
       else identity_scopes db1 !! (ed, sc))
  /\ (forall ed sc, identity_tombstones db2 !! (ed, sc)
     = if affects ed sc m then match mn_effect m with EClear _ => Some (mkEffectRow r (mn_at m)) | _ => None end
       else identity_tombstones db1 !! (ed, sc))
  /\ (forall ed, identity_clear_all db2 !! ed
     = if is_clear_all ed m then Some (mkEffectRow r (mn_at m)) else identity_clear_all db1 !! ed)
  /\ exists S T C, db2 = set_clear_all C (set_tombstones T (set_scopes S db1)).

Lemma finish_appends log db A R m scopes effects row error t :
  represents log db -> mutation_shape m -> map as_sha256 scopes = entry_scopes m ->
  mn_token m ∉ map mn_token log ->
  let db1 := set_aliases A (set_id_store R db) in
  provenance db1 -> identity_aliases db ⊆ A -> keeps_runs t (id_store db) R ->
  reference_ok (entry_alias m) A = true -> reference_ok (entry_conversation m) (conversations R) = true ->
  (forall ss a c, mn_effect m = ESave ss a c -> al_conversation_id <$> A !! a = Some (c : string)) ->
  let r := Z.of_nat (length (m :: log)) in
  row r = entry_row r m ->
  (r <= i64_max -> exists db2, effects r db1 = (Ok tt, db2) /\ effects_written m r db1 db2) ->
  exists db3, finish effects row (mn_token m) scopes error db1
  = (let? _ := may_append log (mn_at m) in Ok (entry_commit r m), db3)
  /\ (may_append log (mn_at m) = Ok tt -> represents (m :: log) db3 /\ keeps_runs t (id_store db) (id_store db3)).
Proof.
  intros Hrep Hshape Hscopes Hfresh db1 Hprov Hsub Hkeep Ha Hc Hnew r Hrow Heff. unfold finish.
  rewrite (run_read _ (Z.of_nat (S (length log)))) by exact (next_revision_ok Hrep). change (Z.of_nat (S (length log))) with r.
  pose proof (rp_bound _ _ Hrep). unfold sql_revision, may_append. destruct (Z.leb_spec i64_max (Z.of_nat (length log))).
  { exists db1. split; [|done]. destruct (Z.leb_spec r i64_max); [cbn [length] in *; lia|done]. }
  destruct (Z.leb_spec r i64_max); [|cbn [length] in *; lia]. rewrite run_lift.
  destruct Heff as (db2 & Hrun & Hsel & Htomb & Hall & S' & T' & C' & ->); [done|]. rewrite (run_step _ _ _ _ _ Hrun), Hrow.
  destruct (record_statements m scopes r error (set_clear_all C' (set_tombstones T' (set_scopes S' db1)))) as [db3 Hrec]; try done.
  - cbn [length] in *. lia.
  - exact (fresh_token Hrep _ Hfresh).
  - exact (fresh_scopes Hrep _ Hfresh).
  - exact (fresh_revision Hrep).
  - rewrite Hrec. destruct (clock_check (mn_at m)) as [[]|e] eqn:Hclock; [|by exists db3].
    eexists. split; [done|]. intros _. split; [|exact Hkeep].
    eapply represents_append; try done. constructor; [done|by apply clock_check_ok].
Qed.

Lemma outcome_finish t log db m p db3 (r := Z.of_nat (length (m :: log))) :
  p db = (let? _ := may_append log (mn_at m) in Ok (entry_commit r m), db3) ->
  (may_append log (mn_at m) = Ok tt -> represents (m :: log) db3 /\ keeps_runs t (id_store db) (id_store db3)) ->
  outcome t (let? _ := may_append log (mn_at m) in Ok (entry_commit r m, m :: log)) log db (transaction p db).
Proof.
  intros Hp Hdone. unfold outcome. rewrite (run_transaction _ _ _ _ Hp).
  destruct (may_append log (mn_at m)) as [[]|e]; [|done].
  exists db3. split; [done|]. destruct (Hdone eq_refl) as [? ?]. split; [done|]. split; [|done].
  intros Heq. apply (f_equal length) in Heq. cbn in Heq. lia.
Qed.

Lemma save_effects_written m ed scopes a c db1 r :
  mn_effect m = ESave (map as_sha256 scopes) a c -> mn_edition m = ed ->
  effects_written m r db1
    (set_scopes (write_scopes ed (map as_sha256 scopes) (Some (mkSelectionRow a c r (mn_at m))) (identity_scopes db1))
       (set_tombstones (write_scopes ed (map as_sha256 scopes) None (identity_tombstones db1)) db1)).
Proof.
  intros He Hed. unfold effects_written, set_scopes, set_tombstones, affects, is_clear_all. rewrite He, Hed.
  cbn [identity_scopes identity_tombstones identity_clear_all]. split_and!.
  - intros e s. rewrite write_scopes_lookup. by rewrite (bool_decide_ext (e = ed) (ed = e)) by done.
  - intros e s. rewrite write_scopes_lookup. by rewrite (bool_decide_ext (e = ed) (ed = e)) by done.
  - intros e. by rewrite andb_false_r.
  - do 2 eexists. exists (identity_clear_all db1). unfold set_clear_all. cbn. done.
Qed.

Lemma save_appends log db slug scopes ext token t ed ex mu set :
  represents log db -> edition_sha256 slug = Ok ed -> external_identity ext = Ok ex -> mutation_sha256 token = Ok mu ->
  scope_set_sha256 scopes = Ok set -> replayed mu db = Ok None ->
  let m := mkMutation mu ed (ESave (map as_sha256 scopes) (ex_alias_sha256 ex) (ex_conversation_id ex)) (now t) in
  outcome t (append_spec log m (owner_of m db)) log db (save_conversation_identity slug scopes ext token t db).
Proof.
  intros Hrep Hed Hex Hmu Hset Hreplay m.
  assert (request (CallSave slug scopes ext token) t = Ok m) as Hreq by (cbn [request]; by rewrite Hed, Hex, Hmu, Hset).
  apply request_shape in Hreq as [Hshape _]. pose proof (represents_provenance Hrep) as Hprov.
  unfold save_conversation_identity. rewrite Hed, Hex, Hmu, Hset. cbn [input map_err]. rewrite !run_lift.
  unfold append_spec, owner_of. cbn [mn_effect mn_token mn_at m].
  destruct (bool_decide (mu ∈ map mn_token log)) eqn:Hused.
  { unfold outcome. erewrite run_transaction by (rewrite (run_read _ _ _ _ Hreplay); apply run_read_err;
      rewrite (reject_used Hrep), Hused; done). done. }
  assert (reject_replayed_mutation mu db = Ok tt) as Hrej by by rewrite (reject_used Hrep), Hused.
  destruct (validate_alias_provenance _ _ db) as [[]|e] eqn:Hv.
  2:{ unfold outcome. erewrite run_transaction by (rewrite (run_read _ _ _ _ Hreplay), (run_read _ _ _ _ Hrej);
      by apply run_read_err). done. }
  destruct (linked_provenance _ _ (now t) _ Hprov Hv) as (Hp' & Hsub & Hal & Hconv).
  pose proof (linked_keeps _ _ t _ Hprov Hv) as Hkeep.
  destruct (linked_tables (ex_alias_sha256 ex) (ex_conversation_id ex) (now t) db) as (A & R & Hlink). rewrite Hlink in *.
  change (al_conversation_id <$> A !! ex_alias_sha256 ex = Some (ex_conversation_id ex : string)) in Hal.
  assert (is_Some (A !! ex_alias_sha256 ex)) as Ha by (by apply (fmap_is_Some al_conversation_id); rewrite Hal).
  destruct (finish_appends log db A R m scopes
    (fun revision => each (fun scope => delete_tombstone ed (as_sha256 scope) ;;
       (upsert_selection ed (as_sha256 scope) (mkSelectionRow (ex_alias_sha256 ex) (ex_conversation_id ex) revision (now t)))) scopes)
    (fun revision => mkMutationRow revision "save" ed (first_scope scopes) set (Some (ex_alias_sha256 ex))
       (Some (ex_conversation_id ex : string)) (now t))
    (CorruptData "identity commit disappeared inside transaction") t) as (db3 & Hrun & Hdone); try done.
  - by bools.
  - cbn. by rewrite bool_decide_eq_true_2.
  - cbn. by rewrite bool_decide_eq_true_2.
  - intros ss a c [= <- <- <-]. exact Hal.
  - unfold entry_row, primary_scope, scope_set, entry_operation, entry_alias, entry_conversation, entry_scopes. cbn [mn_effect m mn_edition mn_at].
    rewrite first_scope_head. unfold scope_set_sha256 in Hset. by rewrite Hset.
  - intros _. eexists. split; [apply each_select; try done|by apply (save_effects_written m)].
    + exact (mo_edition _ Hshape).
    + exact (proj1 (shape_scopes _ Hshape)).
  - apply (outcome_finish t log db m _ db3); [|exact Hdone]. rewrite <- Hrun.
    rewrite (run_read _ _ _ _ Hreplay), (run_read _ _ _ _ Hrej), (run_read _ _ _ _ Hv), <- Hlink.
    apply link_statements; [done|done|]. by apply (external_identity_ok ext).
Qed.

(** ** Clears *)
Lemma of_other_edition_lookup {V} (ed : string) (t : gmap (string * string) V) (e s : string) :
  of_other_edition ed t !! (e, s) = if bool_decide (ed = e) then None else t !! (e, s).
Proof.
  unfold of_other_edition. rewrite map_lookup_filter. destruct (t !! (e, s)) as [v|]; cbn; [|by case_bool_decide].
  case_bool_decide as He; [by rewrite option_guard_False by naive_solver|by rewrite option_guard_True by naive_solver].
Qed.

Lemma clear_effects_written m scopes r db :
  mutation_shape m -> 1 <= r -> map as_sha256 (default [] scopes) = entry_scopes m ->
  mn_effect m = match scopes with Some ss => EClear (first_scope ss) | None => EClearAll end ->
  exists db2, clear_effects (mn_edition m) scopes (mkEffectRow r (mn_at m)) db = (Ok tt, db2) /\ effects_written m r db db2.
Proof.
  intros Hs Hr Hscopes He. pose proof (mo_edition _ Hs) as Hed. unfold entry_scopes in Hscopes. rewrite He in Hscopes.
  unfold effects_written, affects, is_clear_all. rewrite He. destruct scopes as [ss|].
  - destruct ss as [|s [|]]; cbn [default map first_scope] in Hscopes; [discriminate| |discriminate].
    assert (is_lower_hex_sha256 (as_sha256 s) = true) as Hhex.
    { pose proof (proj1 (shape_scopes _ Hs)) as Hall. unfold entry_scopes in Hall. rewrite He in Hall. by apply Forall_cons in Hall as [? _]. }
    eexists. split.
    + cbn. unfold tbind, delete_selection, tmodify, upsert_tombstone. rewrite Hed, Hhex. cbn [ef_revision andb].
      rewrite (proj2 (Z.ltb_lt _ _)) by lia. done.
    + unfold set_tombstones, set_scopes. cbn [identity_scopes identity_tombstones identity_clear_all first_scope]. split_and!.
      * intros e x. change (delete (mn_edition m, as_sha256 s) (identity_scopes db)) with (write_scopes (mn_edition m) [as_sha256 s] None (identity_scopes db)).
        rewrite write_scopes_lookup. rewrite (bool_decide_ext (e = mn_edition m) (mn_edition m = e)) by done.
        by rewrite (bool_decide_ext (x ∈ [as_sha256 s]) (as_sha256 s = x)) by (rewrite list_elem_of_singleton; done).
      * intros e x. change (<[(mn_edition m, as_sha256 s) := mkEffectRow r (mn_at m)]> (identity_tombstones db))
          with (write_scopes (mn_edition m) [as_sha256 s] (Some (mkEffectRow r (mn_at m))) (identity_tombstones db)).
        rewrite write_scopes_lookup. rewrite (bool_decide_ext (e = mn_edition m) (mn_edition m = e)) by done.
        by rewrite (bool_decide_ext (x ∈ [as_sha256 s]) (as_sha256 s = x)) by (rewrite list_elem_of_singleton; done).
      * intros e. by rewrite andb_false_r.
      * do 2 eexists. exists (identity_clear_all db). unfold set_clear_all. cbn. done.
  - eexists. split.
    + unfold clear_effects, delete_edition, tbind, tmodify, upsert_clear_all. rewrite Hed. cbn [ef_revision andb].
      rewrite (proj2 (Z.ltb_lt _ _)) by lia. done.
    + unfold set_clear_all, set_tombstones, set_scopes. cbn [identity_scopes identity_tombstones identity_clear_all]. split_and!.
      * intros e x. rewrite of_other_edition_lookup. by rewrite andb_true_r.
      * intros e x. rewrite of_other_edition_lookup. by rewrite andb_true_r.
      * intros e. rewrite andb_true_r. case_bool_decide as Heq; [subst; by rewrite lookup_insert_eq|by rewrite lookup_insert_ne].
      * do 3 eexists. done.
Qed.

Lemma clear_appends log db slug scopes token t ed mu target :
  represents log db -> edition_sha256 slug = Ok ed -> mutation_sha256 token = Ok mu -> clear_target scopes = Ok target ->
  replayed mu db = Ok None ->
  let m := mkMutation mu ed (match scopes with Some ss => EClear (first_scope ss) | None => EClearAll end) (now t) in
  outcome t (append_spec log m (owner_of m db)) log db (clear_conversation_identity slug scopes token t db).
Proof.
  intros Hrep Hed Hmu Htarget Hreplay m.
  assert (request (CallClear slug scopes token) t = Ok m) as Hreq by (cbn [request]; by rewrite Hed, Hmu, Htarget).
  apply request_shape in Hreq as [Hshape _].
  assert (map as_sha256 (default [] scopes) = entry_scopes m) as Hscopes.
  { destruct scopes as [ss|]; [|done]. destruct target as [[op primary] set].
    by apply clear_target_some in Htarget as (s & -> & _). }
  unfold clear_conversation_identity. rewrite Hed, Hmu, Htarget. cbn [input map_err]. rewrite !run_lift.
  destruct target as [[op primary] set]. unfold append_spec.
  assert (owner_of m db = Ok tt) as -> by (by destruct scopes).
  destruct (bool_decide (mn_token m ∈ map mn_token log)) eqn:Hused; cbn [mn_token m] in Hused.
  { unfold outcome. erewrite run_transaction by (rewrite (run_read _ _ _ _ Hreplay); apply run_read_err;
      rewrite (reject_used Hrep), Hused; done). done. }
  assert (reject_replayed_mutation mu db = Ok tt) as Hrej by by rewrite (reject_used Hrep), Hused.
  destruct (finish_appends log db (identity_aliases db) (id_store db) m (default [] scopes)
    (fun revision => clear_effects ed scopes (mkEffectRow revision (now t)))
    (fun revision => mkMutationRow revision (operation_name op) ed primary set None None (now t))
    (CorruptData "identity clear commit disappeared inside transaction") t) as (db3 & Hrun & Hdone); try done.
  - by bools.
  - exact (represents_provenance Hrep).
  - by left.
  - by destruct scopes.
  - by destruct scopes.
  - by destruct scopes.
  - unfold entry_row, primary_scope, scope_set, entry_operation, entry_alias, entry_conversation, entry_scopes. cbn [mn_effect m mn_edition mn_at].
    destruct scopes as [ss|]; [|by injection Htarget as <- <- <-].
    apply clear_target_some in Htarget as (s & -> & -> & -> & Hd). cbn [first_scope head default]. by rewrite Hd.
  - intros _. apply (clear_effects_written m); try done. cbn [length]. lia.
  - apply (outcome_finish t log db m _ db3); [|exact Hdone]. rewrite <- Hrun.
    rewrite (run_read _ _ _ _ Hreplay), (run_read _ _ _ _ Hrej). by destruct db.
Qed.
End Calls.
