(* ===== verification/IdentityProps.v ===== *)
(** * Identity calls refine the log

    Every save and clear of an identity either fails and changes nothing, repeats
    the last commit, or appends one mutation to the log the tables represent; the
    state of a scope is what the last mutation left. *)
From stdpp Require Import base list gmap strings sorting relations.
From Stdlib Require Import ZArith Lia.
From S2P Require Import Prelude RustStr External Digest Tables RunContract StoreBase AssistantContent RunStore Identity IdentityStore IdentityValidation IdentityOps IdentityLedger IdentityReads IdentityCalls.

Open Scope Z_scope.
Open Scope rust_scope.

Section Replay.
Context {EX : External} {MF : MillisFormat} {DG : Digest} {UF : UuidFormat} {DL : DigestLaws} {UL : UuidFormatLaws}.

(** ** Answering the last call again *)
Lemma same_save last m scopes a c :
  mn_effect m = ESave scopes a c -> scopes <> [] ->
  (scope_set last = scope_set m -> entry_scopes last = entry_scopes m) ->
  bool_decide (mn_edition last = mn_edition m) && bool_decide (primary_scope last = primary_scope m)
  && bool_decide (scope_set last = scope_set m) && bool_decide (entry_alias last = Some a)
  && bool_decide (entry_conversation last = Some c) = same_call last m.
Proof.
  intros He Hne Hcol. unfold same_call. apply eq_true_iff_eq. rewrite !andb_true_iff, !bool_decide_eq_true. split.
  - intros ((((-> & _) & Hset) & Ha) & Hc). specialize (Hcol Hset). split; [done|].
    unfold entry_alias, entry_conversation, entry_scopes in *. rewrite He in *. destruct (mn_effect last); [|discriminate..]. congruence.
  - intros [Hed Hef]. unfold primary_scope, scope_set, entry_alias, entry_conversation, entry_scopes. rewrite Hef, He. done.
Qed.

Lemma same_clear last m :
  entry_alias m = None ->
  (scope_set last = scope_set m -> entry_scopes last = entry_scopes m) ->
  is_clear_of (entry_commit 0 last) (entry_operation m) (mn_edition m) (primary_scope m) (scope_set m) (mn_token last)
  = same_call last m.
Proof.
  intros Hno Hcol. unfold same_call, is_clear_of. cbn [ic_operation ic_edition_sha256 ic_scope_sha256 ic_scope_set_sha256
    ic_alias_sha256 ic_conversation_id ic_mutation_sha256 entry_commit].
  apply eq_true_iff_eq. rewrite !andb_true_iff, !bool_decide_eq_true. split.
  - intros ((((((Hop & ->) & _) & Hset) & _) & _) & _). specialize (Hcol Hset). split; [done|].
    unfold entry_operation, entry_scopes, entry_alias in *. destruct (mn_effect last), (mn_effect m); congruence.
  - intros [Hed Hef]. unfold primary_scope, scope_set, entry_alias, entry_conversation, entry_operation, entry_scopes in *.
    rewrite Hef. destruct (mn_effect m); [discriminate|done..].
Qed.

Section Last.
Context {last : Mutation} {older : list Mutation} {db : IdentityDb} (Hrep : represents (last :: older) db).
Let log := last :: older.
Let r := Z.of_nat (length log).

Lemma last_row : identity_mutations db !! mn_token last = Some (entry_row r last).
Proof. apply (mutation_lookup Hrep). exists r, last. split; [left|done]. Qed.

Lemma last_receipt scopes : map as_sha256 scopes = entry_scopes last -> validate_current_receipt (entry_commit r last) scopes db = Ok tt.
Proof.
  intros Hs. unfold validate_current_receipt. cbn [ic_revision ic_mutation_sha256 entry_commit].
  rewrite sql_revision_ok by exact (rp_bound _ _ Hrep). rewrite last_row, row_of_commit, bool_decide_eq_true_2 by done.
  rewrite (receipt_scopes_entry Hrep last) by left. rewrite <- Hs, length_map, Nat.eqb_refl. cbn [negb].
  rewrite (proj2 (existsb_false_Forall _ _)); [done|]. apply Forall_forall. intros s Hin.
  rewrite bool_decide_eq_true_2; [done|]. by apply list_elem_of_fmap_2.
Qed.

Lemma last_selected scopes external l :
  mn_effect last = ESave scopes (ex_alias_sha256 external) (ex_conversation_id external) ->
  Forall (fun s => as_sha256 s ∈ scopes) l -> validate_scope_set (mn_edition last) l external db = Ok tt.
Proof.
  intros He. induction 1 as [|s l Hs _ IH]; [done|]. cbn [validate_scope_set].
  rewrite (rp_selection _ _ Hrep). unfold selected_row. rewrite last_such_cons. unfold affects. rewrite He.
  rewrite (bool_decide_eq_true_2 (mn_edition last = _)), (bool_decide_eq_true_2 (as_sha256 s ∈ _)) by done.
  cbn [andb]. rewrite He. cbn [fmap option_fmap option_map sl_alias_sha256 sl_conversation_id]. by rewrite bool_decide_eq_true_2.
Qed.

(** The effect of a clear that was the last mutation is still there. *)
Lemma last_cleared scopes :
  mn_effect last = match scopes with Some ss => EClear (first_scope ss) | None => EClearAll end ->
  map as_sha256 (default [] scopes) = entry_scopes last ->
  validate_clear_effect (mn_edition last) scopes (entry_commit r last) db = Ok tt.
Proof.
  intros He Hs. unfold validate_clear_effect. cbn [ic_revision ic_operation entry_commit]. unfold entry_operation, entry_scopes in *.
  rewrite sql_revision_ok by exact (rp_bound _ _ Hrep). rewrite He in *. destruct scopes as [ss|].
  - destruct ss as [|s [|]]; cbn [default map first_scope] in *; [discriminate| |discriminate]. cbn [validate_clear_scopes].
    rewrite (rp_selection _ _ Hrep), (rp_tombstone _ _ Hrep). unfold selected_row, tombstone_row. rewrite last_such_cons.
    unfold affects. rewrite He, (bool_decide_eq_true_2 (mn_edition last = _)), (bool_decide_eq_true_2 (as_sha256 s = _)) by done.
    cbn [andb]. rewrite He.
    cbn [fmap option_fmap option_map ef_revision]. rewrite bool_decide_eq_false_2 by (by intros [? ?]).
    by rewrite bool_decide_eq_true_2.
  - assert (forall e s, affects e s last = bool_decide (mn_edition last = e)) as Haff
      by (intros e s; unfold affects; rewrite He; apply andb_true_r).
    assert (forall (V : Type) (t : gmap (string * string) V) (row : list Mutation -> string -> string -> option V),
              (forall e s, t !! (e, s) = row (last :: older) e s) -> (forall s, row (last :: older) (mn_edition last) s = None) ->
              size (filter (fun p => p.1.1 = mn_edition last) t) = 0%nat) as Hnone.
    { intros V t row Ht Hrow. apply map_size_empty_iff, map_empty. intros [e s]. rewrite map_lookup_filter_None. right.
      cbn. intros x Hx ->. by rewrite Ht, Hrow in Hx. }
    unfold count_selections, count_tombstones.
    rewrite (Hnone _ _ selected_row (rp_selection _ _ Hrep)), (Hnone _ _ tombstone_row (rp_tombstone _ _ Hrep)); cbn [Nat.eqb negb orb].
    + rewrite (rp_clear_all _ _ Hrep). unfold clear_all_row. rewrite last_such_cons. unfold is_clear_all.
      rewrite He, (bool_decide_eq_true_2 (mn_edition last = _)) by done. cbn [andb fmap option_fmap option_map ef_revision]. by rewrite bool_decide_eq_true_2.
    + intros s. unfold tombstone_row. rewrite last_such_cons, Haff, bool_decide_eq_true_2 by done. by rewrite He.
    + intros s. unfold selected_row. rewrite last_such_cons, Haff, bool_decide_eq_true_2 by done. by rewrite He.
Qed.
End Last.

Lemma same_call_spec a b : same_call a b = true <-> mn_edition a = mn_edition b /\ mn_effect a = mn_effect b.
Proof. unfold same_call. by rewrite andb_true_iff, !bool_decide_eq_true. Qed.

Lemma save_replays last older db slug scopes ext token t ed ex mu set :
  represents (last :: older) db -> edition_sha256 slug = Ok ed -> external_identity ext = Ok ex ->
  mutation_sha256 token = Ok mu -> scope_set_sha256 scopes = Ok set -> mn_token last = mu ->
  let m := mkMutation mu ed (ESave (map as_sha256 scopes) (ex_alias_sha256 ex) (ex_conversation_id ex)) (now t) in
  let '(r, db') := save_conversation_identity slug scopes ext token t db in
  db' = db /\ ((scope_set last = scope_set m -> entry_scopes last = entry_scopes m) ->
    r = if same_call last m then Ok (entry_commit (Z.of_nat (length (last :: older))) last) else Err identity_conflict).
Proof.
  intros Hrep Hed Hex Hmu Hset Htok m. pose proof (replayed_last Hrep mu) as Hreplay. cbn match in Hreplay.
  rewrite bool_decide_eq_true_2 in Hreplay by done. assert (map as_sha256 scopes <> []) as Hne
    by (intros Hnil; unfold scope_set_sha256 in Hset; by rewrite Hnil in Hset).
  pose proof (same_save last m (map as_sha256 scopes) _ _ eq_refl Hne) as Hsame.
  unfold save_conversation_identity. rewrite Hed, Hex, Hmu, Hset. cbn [input map_err]. rewrite !run_lift.
  unfold transaction. rewrite (run_read _ _ _ _ Hreplay).
  cbn [ic_edition_sha256 ic_scope_sha256 ic_scope_set_sha256 ic_alias_sha256 ic_conversation_id entry_commit].
  assert (set = scope_set m) as -> by (unfold scope_set, entry_scopes; cbn [mn_effect m]; unfold scope_set_sha256 in Hset; by rewrite Hset).
  assert (first_scope scopes = primary_scope m) as -> by apply first_scope_head.
  change ed with (mn_edition m).
  match goal with |- context [if ?c then _ else traise _] => destruct c eqn:Hc end.
  - assert ((scope_set last = scope_set m -> entry_scopes last = entry_scopes m) -> same_call last m = true) as Hyes
      by (intros Hcol; symmetry; by apply Hsame).
    unfold tbind, tread. destruct (validate_alias_provenance _ _ db) as [[]|e] eqn:Hv;
    [destruct (validate_scope_set _ _ _ db) as [[]|e] eqn:Hsc; [destruct (validate_current_receipt _ _ db) as [[]|e] eqn:Hrc|]|];
    (split; [done|]); intros Hcol; rewrite (Hyes Hcol); try done; exfalso; specialize (Hyes Hcol); apply same_call_spec in Hyes as [Hme Hef].
    + rewrite last_receipt in Hrc; [done|done|]. unfold entry_scopes. by rewrite Hef.
    + rewrite <- Hme, (last_selected Hrep (map as_sha256 scopes)) in Hsc; [done|by rewrite Hef|].
      apply Forall_forall. intros s Hs. by apply list_elem_of_fmap_2.
    + pose proof (rp_alias _ _ Hrep last _ _ _ ltac:(left) Hef) as Ha.
      destruct (identity_aliases db !! ex_alias_sha256 ex) as [row|] eqn:Hrow; [|done]. injection Ha as Hcv.
      pose proof (provenance_ok _ _ _ (represents_provenance Hrep) Hrow) as Hpok. by rewrite Hcv, Hv in Hpok.
  - split; [done|]. intros Hcol. assert (same_call last m = false) as ->; [|done]. symmetry. by apply Hsame.
Qed.

Lemma clear_replays last older db slug scopes token t ed mu target :
  represents (last :: older) db -> edition_sha256 slug = Ok ed -> mutation_sha256 token = Ok mu ->
  clear_target scopes = Ok target -> mn_token last = mu ->
  let m := mkMutation mu ed (match scopes with Some ss => EClear (first_scope ss) | None => EClearAll end) (now t) in
  let '(r, db') := clear_conversation_identity slug scopes token t db in
  db' = db /\ ((scope_set last = scope_set m -> entry_scopes last = entry_scopes m) ->
    r = if same_call last m then Ok (entry_commit (Z.of_nat (length (last :: older))) last) else Err identity_conflict).
Proof.
  intros Hrep Hed Hmu Htarget Htok m. pose proof (replayed_last Hrep mu) as Hreplay. cbn match in Hreplay.
  rewrite bool_decide_eq_true_2 in Hreplay by done.
  assert (map as_sha256 (default [] scopes) = entry_scopes m) as Hscopes.
  { destruct scopes as [ss|]; [|done]. destruct target as [[op primary] set].
    by apply clear_target_some in Htarget as (s & -> & _). }
  assert (matches_clear (entry_commit (Z.of_nat (length (last :: older))) last) slug scopes token
          = is_clear_of (entry_commit 0 last) (entry_operation m) (mn_edition m) (primary_scope m) (scope_set m) (mn_token last)) as Hm.
  { unfold matches_clear, matches_clear_scopes, matches_clear_all, entry_operation, primary_scope, scope_set, entry_scopes.
    cbn [mn_effect m]. rewrite Hed, Hmu, Htok. destruct scopes as [ss|]; [|done]. destruct target as [[op primary] set].
    apply clear_target_some in Htarget as (s & -> & _ & _ & Hd). unfold scope_set_sha256. cbn [map first_scope head default]. by rewrite Hd. }
  unfold clear_conversation_identity. rewrite Hed, Hmu, Htarget. cbn [input map_err]. rewrite !run_lift.
  destruct target as [[op primary] set]. unfold transaction. rewrite (run_read _ _ _ _ Hreplay). rewrite Hm.
  assert (entry_alias m = None) as Hno by by destruct scopes.
  destruct (is_clear_of _ _ _ _ _ _) eqn:Hc.
  - assert ((scope_set last = scope_set m -> entry_scopes last = entry_scopes m) -> same_call last m = true) as Hyes
      by (intros Hcol; rewrite <- Hc; symmetry; by apply same_clear).
    unfold tbind, tread. destruct (validate_clear_effect _ _ _ db) as [[]|e] eqn:Hv;
    [destruct (validate_current_receipt _ _ db) as [[]|e] eqn:Hrc|];
    (split; [done|]); intros Hcol; rewrite (Hyes Hcol); try done; exfalso; specialize (Hyes Hcol); apply same_call_spec in Hyes as [Hme Hef].
    + rewrite last_receipt in Hrc; [done|done|]. rewrite Hscopes. unfold entry_scopes. by rewrite Hef.
    + change ed with (mn_edition m) in Hv. rewrite <- Hme, (last_cleared Hrep) in Hv; [done|by rewrite Hef|].
      rewrite Hscopes. unfold entry_scopes. by rewrite Hef.
  - split; [done|]. intros Hcol. assert (same_call last m = false) as ->; [|done]. rewrite <- Hc. symmetry. by apply same_clear.
Qed.

(** ** The three cases of a call *)
Lemma call_rejected call t db e : request call t = Err e -> run_call call t db = (Err e, db).
Proof.
  destruct call as [slug scopes ext token|slug scopes token]; cbn [request run_call];
    unfold save_conversation_identity, clear_conversation_identity.
  - destruct (input (edition_sha256 slug)); [|by intros [= ->]]. rewrite run_lift.
    destruct (input (external_identity ext)); [|by intros [= ->]]. rewrite run_lift.
    destruct (input (mutation_sha256 token)); [|by intros [= ->]]. rewrite run_lift.
    destruct (input (scope_set_sha256 scopes)); [done|by intros [= ->]].
  - destruct (input (edition_sha256 slug)); [|by intros [= ->]]. rewrite run_lift.
    destruct (input (mutation_sha256 token)); [|by intros [= ->]]. rewrite run_lift.
    destruct (clear_target scopes); [done|by intros [= ->]].
Qed.

Lemma call_parts call t m :
  request call t = Ok m ->
  match call with
  | CallSave slug scopes ext token => exists ed ex mu set,
      edition_sha256 slug = Ok ed /\ external_identity ext = Ok ex /\ mutation_sha256 token = Ok mu
      /\ scope_set_sha256 scopes = Ok set
      /\ m = mkMutation mu ed (ESave (map as_sha256 scopes) (ex_alias_sha256 ex) (ex_conversation_id ex)) (now t)
  | CallClear slug scopes token => exists ed mu target,
      edition_sha256 slug = Ok ed /\ mutation_sha256 token = Ok mu /\ clear_target scopes = Ok target
      /\ m = mkMutation mu ed (match scopes with Some ss => EClear (first_scope ss) | None => EClearAll end) (now t)
  end.
Proof.
  destruct call as [slug scopes ext token|slug scopes token]; cbn [request].
  - destruct (edition_sha256 slug); [|discriminate]. destruct (external_identity ext); [|discriminate].
    destruct (mutation_sha256 token); [|discriminate]. destruct (scope_set_sha256 scopes); [|discriminate].
    intros [= <-]. eauto 10.
  - destruct (edition_sha256 slug); [|discriminate]. destruct (mutation_sha256 token); [|discriminate].
    destruct (clear_target scopes); [|discriminate]. intros [= <-]. eauto 10.
Qed.

Lemma call_appends log db call t m :
  represents log db -> request call t = Ok m -> replayed (mn_token m) db = Ok None ->
  outcome t (append_spec log m (owner_of m db)) log db (run_call call t db).
Proof.
  intros Hrep Hreq. apply call_parts in Hreq. destruct call; cbn [run_call].
  - destruct Hreq as (ed & ex & mu & set & Hed & Hex & Hmu & Hset & ->). intros Hr. by eapply save_appends.
  - destruct Hreq as (ed & mu & target & Hed & Hmu & Ht & ->). intros Hr. by eapply clear_appends.
Qed.

Lemma call_replays last older db call t m :
  represents (last :: older) db -> request call t = Ok m -> mn_token last = mn_token m ->
  let '(r, db') := run_call call t db in
  db' = db /\ ((scope_set last = scope_set m -> entry_scopes last = entry_scopes m) ->
    r = if same_call last m then Ok (entry_commit (Z.of_nat (length (last :: older))) last) else Err identity_conflict).
Proof.
  intros Hrep Hreq. apply call_parts in Hreq. destruct call; cbn [run_call].
  - destruct Hreq as (ed & ex & mu & set & Hed & Hex & Hmu & Hset & ->). intros Hr. by eapply save_replays.
  - destruct Hreq as (ed & mu & target & Hed & Hmu & Ht & ->). intros Hr. by eapply clear_replays.
Qed.

(** A call on a represented database leaves one. *)
Lemma call_keeps log db call t :
  represents log db -> exists log', represents log' (run_call call t db).2 /\ (log' = log \/ exists m, log' = m :: log).
Proof.
  intros Hrep. destruct (request call t) as [m|e] eqn:Hreq; [|by rewrite (call_rejected _ _ _ _ Hreq); exists log; eauto].
  pose proof (replayed_last Hrep (mn_token m)) as Hreplay.
  assert (replayed (mn_token m) db = Ok None -> exists log', represents log' (run_call call t db).2 /\ (log' = log \/ exists m, log' = m :: log)) as Hfresh.
  { intros Hr. pose proof (call_appends _ _ _ _ _ Hrep Hreq Hr) as Ho. unfold outcome, append_spec in Ho.
    destruct (bool_decide _); [by rewrite Ho; eauto|]. destruct (owner_of m db) as [[]|]; [|by rewrite Ho; eauto].
    destruct (may_append _ _) as [[]|]; [|by rewrite Ho; eauto]. destruct Ho as (db' & -> & Hrep' & _). eauto. }
  destruct log as [|last older]; [by apply Hfresh|].
  destruct (decide (mn_token last = mn_token m)) as [Heq|Hne]; [|apply Hfresh; rewrite Hreplay; by rewrite bool_decide_eq_false_2].
  pose proof (call_replays _ _ _ _ _ _ Hrep Hreq Heq) as Ho. destruct (run_call call t db) as [r db'].
  destruct Ho as [-> _]. eauto.
Qed.

(** A store operation that deletes no conversation keeps the log. *)
Lemma store_keeps log db R :
  (forall c, is_Some (conversations (id_store db) !! c) -> is_Some (conversations R !! c)) ->
  represents log db -> represents log (set_id_store R db).
Proof.
  intros Hc [R1 R2 R3 R4 R5 R6 R7 R8 R9 R10 R11 R12]. constructor; try done.
  intros a row Ha. destruct (R12 a row Ha) as [Hs Hu]. split; [by apply Hc|done].
Qed.

(** The database of identities changes by calls of its own and by operations of
    the run store, which delete no conversation. *)
Inductive identity_step (db db' : IdentityDb) : Prop :=
| step_call call t : db' = (run_call call t db).2 -> identity_step db db'
| step_store R :
    (forall c, is_Some (conversations (id_store db) !! c) -> is_Some (conversations R !! c)) ->
    db' = set_id_store R db -> identity_step db db'.

Lemma reachable_represents db : rtc identity_step empty_identity_db db -> exists log, represents log db.
Proof.
  revert db. apply (rtc_ind_r (fun db => exists log, represents log db)); [exists []; apply represents_empty|].
  intros db db' _ Hstep [log Hrep]. destruct Hstep as [call t ->|R HR ->].
  - destruct (call_keeps log db call t Hrep) as (log' & Hrep' & _). eauto.
  - exists log. by apply store_keeps.
Qed.

(** ** The state of a scope *)
Lemma selection_read log db slug ed scope :
  represents log db -> edition_sha256 slug = Ok ed ->
  identity_scope_selection slug scope db = (Ok (selection_of log ed (as_sha256 scope)), db).
Proof.
  intros Hrep He. unfold identity_scope_selection. rewrite He. cbn [input map_err]. rewrite run_lift. unfold tread.
  by rewrite (scope_selection_last Hrep).
Qed.

(** C12: every save and every clear is one step of the log machine: invalid
    material, a token used before, an alias of somebody else, the last revision
    or a clock that is not canonical is an error and changes nothing; the last
    call made again returns its commit and changes nothing; any other call
    appends its mutation, after which the tables represent the longer log, and
    the runs of the store are untouched except for the conversation of a save. *)
Theorem identity_calls_refine_the_log log db call t :
  represents log db -> (forall m, request call t = Ok m -> no_collision log m) ->
  outcome t (let? m := request call t in identity_spec log m (owner_of m db)) log db (run_call call t db).
Proof.
  intros Hrep Hcol. destruct (request call t) as [m|e] eqn:Hreq; [|exact (call_rejected _ _ _ _ Hreq)].
  specialize (Hcol m eq_refl). pose proof (replayed_last Hrep (mn_token m)) as Hreplay.
  destruct log as [|last older]; [exact (call_appends _ _ _ _ _ Hrep Hreq Hreplay)|].
  unfold identity_spec. cbv zeta. destruct (decide (mn_token last = mn_token m)) as [Heq|Hne].
  - rewrite bool_decide_eq_true_2 by done. pose proof (call_replays _ _ _ _ _ _ Hrep Hreq Heq) as Ho.
    destruct (run_call call t db) as [r db']. destruct Ho as [-> Hr]. rewrite (Hr (Hcol last eq_refl)).
    destruct (same_call last m); [|done]. exists db. split_and!; [done..|by left].
  - rewrite bool_decide_eq_false_2 in Hreplay |- * by done. exact (call_appends _ _ _ _ _ Hrep Hreq Hreplay).
Qed.

(** C13: whatever saves, clears and run-store operations came before, the tables
    of identities represent a log with distinct tokens, and the state of every
    scope is what the last mutation that reaches it left: no read finds the
    store corrupt. *)
Theorem scopes_show_their_last_mutation db :
  rtc identity_step empty_identity_db db ->
  exists log, represents log db /\
    forall slug ed scope, edition_sha256 slug = Ok ed ->
      identity_scope_selection slug scope db = (Ok (selection_of log ed (as_sha256 scope)), db).
Proof.
  intros [log Hrep]%reachable_represents. exists log. split; [done|]. intros slug ed scope He. by apply selection_read.
Qed.

(** ** Authority to clear a mirror *)
Lemma count_owners_none log db ed scope ex :
  represents log db ->
  count_owners ed scope ex db = 0%nat
  <-> forall s, s <> as_sha256 scope -> s <> as_sha256 global_scope ->
        selection_of log ed s <> Selected (ex_alias_sha256 ex) (ex_conversation_id ex).
Proof.
  intros Hrep. unfold count_owners. rewrite map_size_empty_iff. split.
  - intros Hnone s Hs Hg Hsel.
    assert (exists r t, identity_scopes db !! (ed, s) = Some (mkSelectionRow (ex_alias_sha256 ex) (ex_conversation_id ex) r t)) as (r & t & Hrow).
    { rewrite (rp_selection _ _ Hrep). unfold selected_row, selection_of in *. destruct (last_such _ log) as [[r m]|]; [|done].
      destruct (mn_effect m); [|done..]. injection Hsel as -> ->. eauto. }
    rewrite map_empty in Hnone. specialize (Hnone (ed, s)). rewrite map_lookup_filter_None in Hnone.
    destruct Hnone as [Hn|Hn]; [by rewrite Hrow in Hn|]. by apply (Hn _ Hrow).
  - intros Hall. apply map_empty. intros [e s]. apply map_lookup_filter_None. right. cbn. intros row Hrow (-> & Hs & Hg & Ha & Hc).
    apply (Hall s Hs Hg). rewrite (rp_selection _ _ Hrep) in Hrow. unfold selected_row, selection_of in *.
    destruct (last_such _ log) as [[r m]|]; [|done]. destruct (mn_effect m); [|done..]. injection Hrow as <-. cbn in Ha, Hc. by subst.
Qed.

(** The owner check of a candidate. *)
Lemma owner_check log db ed scope ex :
  represents log db ->
  (if bool_decide (scope = global_scope) then Ok tt
   else fail? negb (Nat.eqb (count_owners ed scope ex db) 0)
        with InvalidInput "conversation mirror is shared by another working-directory scope" in Ok tt) = (Ok tt : result StoreError unit)
  <-> scope = global_scope
      \/ forall s, s <> as_sha256 scope -> s <> as_sha256 global_scope ->
           selection_of log ed s <> Selected (ex_alias_sha256 ex) (ex_conversation_id ex).
Proof.
  intros Hrep. rewrite <- (count_owners_none log db ed scope ex Hrep). case_bool_decide as Hg; [by split; [left|]|].
  destruct (Nat.eqb_spec (count_owners ed scope ex db) 0) as [->|Hne]; [by split; [right|]|]. cbn [negb].
  split; [discriminate|]. intros [?|?]; done.
Qed.

(** A caller may clear the mirror of a scope exactly when the scope does not
    contradict it: an untracked scope or one that selects the candidate, which
    then no other scope of the edition but the global one selects; without a
    mirror, an untracked scope or one that was cleared.  Asking changes nothing. *)
Theorem authorized_clears_are_exact log db slug ed scope mirror :
  represents log db -> edition_sha256 slug = Ok ed ->
  let '(r, db') := authorize_clear_scope_candidate slug scope mirror db in
  db' = db /\
  (r = Ok tt <->
   match mirror with
   | None => selection_of log ed (as_sha256 scope) = Untracked \/ selection_of log ed (as_sha256 scope) = Tombstoned
   | Some candidate => exists ex, external_identity candidate = Ok ex
       /\ (selection_of log ed (as_sha256 scope) = Untracked
           \/ selection_of log ed (as_sha256 scope) = Selected (ex_alias_sha256 ex) (ex_conversation_id ex))
       /\ (scope = global_scope
           \/ forall s, s <> as_sha256 scope -> s <> as_sha256 global_scope ->
                selection_of log ed s <> Selected (ex_alias_sha256 ex) (ex_conversation_id ex))
   end).
Proof.
  intros Hrep He. pose proof (selection_read _ _ _ _ scope Hrep He) as Hsel.
  unfold authorize_clear_scope_candidate, identity_scope_state, tbind. rewrite Hsel. clear Hsel.
  set (sel := selection_of log ed (as_sha256 scope)). unfold tlift, tret, tread, traise. rewrite He. cbn [input map_err].
  destruct mirror as [candidate|]; cbn [input map_err].
  - unfold matches_external_id. destruct (external_identity candidate) as [ex|e] eqn:Hx; cbn [map_err input].
    2:{ split; [done|]. split; [done|]. by intros (ex & ? & _). }
    pose proof (owner_check log db ed scope ex Hrep) as Howner.
    assert (forall Q : Prop, Q ->
      let '(r, db') := (if bool_decide (scope = global_scope) then fun s : IdentityDb => (Ok tt, s)
        else fun s => (fail? negb (Nat.eqb (count_owners ed scope ex s) 0)
               with InvalidInput "conversation mirror is shared by another working-directory scope" in Ok tt, s)) db in
      db' = db /\ (r = Ok tt <-> Q /\ (scope = global_scope \/ forall s, s <> as_sha256 scope -> s <> as_sha256 global_scope ->
           selection_of log ed s <> Selected (ex_alias_sha256 ex) (ex_conversation_id ex)))) as Hask.
    { intros Q HQ. destruct (bool_decide (scope = global_scope)); (split; [done|]); rewrite Howner; tauto. }
    match goal with |- let '(_, _) := ?X in _ =>
      enough (let '(r, db') := X in db' = db /\ (r = Ok tt <-> (sel = Untracked \/ sel = Selected (ex_alias_sha256 ex) (ex_conversation_id ex))
         /\ (scope = global_scope \/ forall s, s <> as_sha256 scope -> s <> as_sha256 global_scope ->
              selection_of log ed s <> Selected (ex_alias_sha256 ex) (ex_conversation_id ex)))) as Hgoal;
      [destruct X as [r db']; destruct Hgoal as [? ->]; split; [done|split; [by eauto|by intros (ex' & [= <-] & ?)]]|] end.
    destruct sel as [|a c|] eqn:Hs.
    + apply Hask. by left.
    + destruct (bool_decide (ex_alias_sha256 ex = a) && bool_decide (ex_conversation_id ex = c)) eqn:Hm.
      * bools. subst a c. rewrite bool_decide_eq_true_2 by done. apply Hask. by right.
      * rewrite bool_decide_eq_false_2 by done. split; [done|]. split; [done|]. intros [[?|[= -> ->]] _]; [done|].
        by rewrite !bool_decide_eq_true_2 in Hm.
    + split; [done|]. split; [done|]. by intros [[?|?] _].
  - destruct sel as [|a c|] eqn:Hs.
    + split; [done|]. split; [by left|done].
    + split; [done|]. split; [done|]. by intros [?|?].
    + split; [done|]. split; [by right|done].
Qed.
End Replay.
