(* ===== verification/IdentityExample.v ===== *)
(** * Identities at concrete calls

    Two scopes are saved, one of them is cleared, and another identity is saved;
    the digest of this file keeps the last bytes of its input. *)
From stdpp Require Import base list gmap strings sorting relations.
From Stdlib Require Import ZArith Lia.
From S2P Require Import Prelude RustStr External Digest Tables RunContract StoreBase AssistantContent RunStore Identity IdentityStore IdentityValidation IdentityOps IdentityLedger IdentityReads IdentityOrders IdentityCalls IdentityProps.

Open Scope Z_scope.
Open Scope rust_scope.

Import Fixture ContentFixture.

(** The last 32 bytes, after a padding of zeros. *)
#[local] Instance tail_digest : Digest := {|
  sha256 bs := let l := repeat 0 32 ++ map (fun b => b mod 256) bs in drop (length l - 32) l
|}.
#[local] Instance tail_digest_laws : DigestLaws.
Proof.
  constructor; intros bs; unfold sha256, tail_digest; cbv zeta.
  - rewrite length_drop, length_app, repeat_length. lia.
  - apply Forall_drop, Forall_app. split.
    + simpl. repeat constructor; lia.
    + apply Forall_map, Forall_forall. intros b _. apply Z.mod_pos_bound. lia.
Qed.

(** Sixteen bytes in hexadecimal, filled up to the length of a UUID. *)
#[local] Instance uuid_example : UuidFormat := {| uuid_from_bytes bs := String.append (hexadecimal bs) "0000" |}.
#[local] Instance uuid_example_laws : UuidFormatLaws.
Proof.
  constructor. intros bs Hlen. unfold uuid_from_bytes, uuid_example, uuid_canonical, fixture.
  assert (slen (hexadecimal bs) = 2 * Z.of_nat (length bs)) as Hhex.
  { clear Hlen. induction bs as [|b bs IH]; [done|]. unfold slen in *. simpl in *. lia. }
  rewrite slen_app, Hhex, Hlen. done.
Qed.

Definition tick : Tick := mkTick "0" 0.
Definition here : ConversationIdentityScope := working_directory (bytes "/home/a").
Definition there : ConversationIdentityScope := working_directory (bytes "/home/b").
Definition first_thread : string := "thread-000000001-of-the-provider".
Definition second_thread : string := "thread-000000002-of-the-provider".
Definition save1 : IdentityCall := CallSave "abbey" [global_scope; here] first_thread "token-1".
Definition clear1 : IdentityCall := CallClear "abbey" (Some [here]) "token-2".
Definition save2 : IdentityCall := CallSave "abbey" [there] second_thread "token-3".
Definition mutation_of (call : IdentityCall) : Mutation :=
  match request call tick with Ok m => m | Err _ => mkMutation EmptyString EmptyString EClearAll EmptyString end.
Definition log2 : list Mutation := [mutation_of clear1; mutation_of save1].
#[local] Abbreviation db1 := ((run_call save1 tick empty_identity_db).2).
#[local] Abbreviation db2 := ((run_call clear1 tick db1).2).
#[local] Abbreviation db3 := ((run_call save2 tick db2).2).

(** A call the log machine accepts, on a database that represents the log. *)
Lemma accepted log db call m :
  represents log db -> request call tick = Ok m -> replayed (mn_token m) db = Ok None ->
  append_spec log m (owner_of m db) = Ok (entry_commit (Z.of_nat (length (m :: log))) m, m :: log) ->
  represents (m :: log) (run_call call tick db).2.
Proof.
  intros Hrep Hreq Hr Hspec. pose proof (call_appends _ _ _ tick _ Hrep Hreq Hr) as Ho. unfold outcome in Ho. rewrite Hspec in Ho.
  by destruct Ho as (db' & -> & Hrep' & _).
Qed.

Lemma db2_represents : represents log2 db2.
Proof.
  unfold log2. apply accepted; [|reflexivity|reflexivity|reflexivity].
  apply accepted; [apply represents_empty|reflexivity..].
Qed.

(** Saving in a third directory is the next entry; the same save again is answered alike. *)
Lemma identity_calls_refine_the_log_witness :
  represents log2 db2 /\ (forall m, request save2 tick = Ok m -> no_collision log2 m)
  /\ (let? m := request save2 tick in identity_spec log2 m (owner_of m db2))
     = Ok (entry_commit 3 (mutation_of save2), mutation_of save2 :: log2)
  /\ outcome tick (let? m := request save2 tick in identity_spec log2 m (owner_of m db2)) log2 db2 (run_call save2 tick db2)
  /\ (run_call save2 tick db3).1 = Ok (entry_commit 3 (mutation_of save2)).
Proof.
  assert (forall m, request save2 tick = Ok m -> no_collision log2 m) as Hcol.
  { intros m Hm. assert (m = mutation_of save2) as -> by (unfold mutation_of; by rewrite Hm).
    intros last Hlast. injection Hlast as <-. vm_compute. discriminate. }
  split; [exact db2_represents|]. split; [exact Hcol|]. split; [vm_compute; reflexivity|].
  split; [exact (identity_calls_refine_the_log log2 db2 save2 tick db2_represents Hcol)|]. vm_compute. reflexivity.
Defined.

Lemma empty_step call db : rtc identity_step empty_identity_db db -> rtc identity_step empty_identity_db (run_call call tick db).2.
Proof. intros Hs. eapply rtc_r; [exact Hs|]. by eapply step_call. Qed.

Lemma scopes_show_their_last_mutation_witness :
  rtc identity_step empty_identity_db db3
  /\ exists log, represents log db3 /\
    forall slug ed scope, edition_sha256 slug = Ok ed ->
      identity_scope_selection slug scope db3 = (Ok (selection_of log ed (as_sha256 scope)), db3).
Proof.
  assert (rtc identity_step empty_identity_db db3) as Hs by (do 3 apply empty_step; apply rtc_refl).
  split; [exact Hs|]. exact (scopes_show_their_last_mutation db3 Hs).
Defined.

(** The cleared directory has no mirror any more; another one keeps its own. *)
Lemma authorized_clears_are_exact_witness :
  represents log2 db2 /\ edition_sha256 "abbey" = Ok (mn_edition (mutation_of save1))
  /\ (authorize_clear_scope_candidate "abbey" here None db2).1 = Ok tt
  /\ (let '(r, db') := authorize_clear_scope_candidate "abbey" global_scope (Some first_thread) db2 in
      db' = db2 /\
      (r = Ok tt <->
       exists ex, external_identity first_thread = Ok ex
         /\ (selection_of log2 (mn_edition (mutation_of save1)) (as_sha256 global_scope) = Untracked
             \/ selection_of log2 (mn_edition (mutation_of save1)) (as_sha256 global_scope)
                = Selected (ex_alias_sha256 ex) (ex_conversation_id ex))
         /\ (global_scope = global_scope
             \/ forall s, s <> as_sha256 global_scope -> s <> as_sha256 global_scope ->
                  selection_of log2 (mn_edition (mutation_of save1)) s <> Selected (ex_alias_sha256 ex) (ex_conversation_id ex)))).
Proof.
  assert (edition_sha256 "abbey" = Ok (mn_edition (mutation_of save1))) as He by reflexivity.
  split; [exact db2_represents|]. split; [exact He|]. split; [vm_compute; reflexivity|].
  pose proof (authorized_clears_are_exact log2 db2 "abbey" (mn_edition (mutation_of save1)) global_scope (Some first_thread) db2_represents He) as H. cbn match in H. exact H.
Defined.

(** Three scopes saved in an order that is not the ascending one. *)
Definition carried : list string := [as_sha256 here; as_sha256 there; as_sha256 global_scope].
Definition carried_digest : string :=
  match scope_set_sha256_from_hashes carried with Ok d => d | Err _ => EmptyString end.
Definition carried_receipt : MutationReceipt :=
  mkMutationReceipt EmptyString 1 Save EmptyString (as_sha256 here) carried_digest None None "0".

Lemma migrated_digest_search_is_exact_witness :
  scope_set_sha256_from_hashes carried = Ok carried_digest
  /\ validate_migrated_v3_scope_set_digest carried_receipt [as_sha256 global_scope; as_sha256 here; as_sha256 there] = Ok tt.
Proof.
  assert (scope_set_sha256_from_hashes carried = Ok carried_digest) as Hd by (vm_compute; reflexivity).
  split; [exact Hd|]. apply (proj1 (migrated_digest_search_is_exact carried_receipt _)). split; [vm_compute; lia|].
  exists [as_sha256 there; as_sha256 global_scope]. split; [vm_compute; apply perm_swap|exact Hd].
Defined.
