(* ===== verification/Threads.v ===== *)
(** * Threads that share memory

    A program is a tree of atomic sections (a section holds one lock, or is one
    call into the store), of thread creations and of a result.  A pool runs any
    number of threads in any interleaving over one shared world; the inputs of a
    section (what a crate returned, whether the system could create a thread) come
    with the step.

    The logic: each thread owns a piece of ghost state; an invariant relates the
    world to all pieces.  [wp] is computed from the program: every section must
    restore the invariant for some new piece of its own and change the world only
    as the guarantee allows. *)
From stdpp Require Import base list relations.
From S2P Require Import Prelude.

(** [E]: inputs of a section; [W]: the shared world. *)
Inductive Prog (E W : Type) (R : Type) : Type :=
| Done (r : R)
| Act {X : Type} (section : E -> W -> X * W) (k : X -> Prog E W R)
| Fork (job : Prog E W unit) (k : bool -> Prog E W R).
Arguments Done {E W R} r.
Arguments Act {E W R X} section k.
Arguments Fork {E W R} job k.

Fixpoint pbind {E W A B} (p : Prog E W A) (h : A -> Prog E W B) : Prog E W B :=
  match p with
  | Done a => h a
  | Act section k => Act section (fun x => pbind (k x) h)
  | Fork job k => Fork job (fun b => pbind (k b) h)
  end.

(** One section, and one call that a thread makes without any. *)
Definition act {E W X} (section : E -> W -> X * W) : Prog E W X := Act section Done.
Definition spawn {E W} (job : Prog E W unit) : Prog E W bool := Fork job Done.

Declare Scope prog_scope.
Delimit Scope prog_scope with prog.
Notation "'let!' x := m 'in' k" := (pbind m (fun x => k))
  (at level 10, x pattern, m at level 100, k at level 200) : prog_scope.
(** [let x = m?; k] *)
Notation "'try!' x := m 'in' k" :=
  (pbind m (fun r => match r with Ok x => k | Err e => Done (Err e) end))
  (at level 10, x pattern, m at level 100, k at level 200) : prog_scope.

(** ** Pools *)
Definition Pool (E W T : Type) : Type := W * list (Prog E W T).
Inductive pool_event (E W D T : Type) :=
| Request (p : Prog E W T)
| Step (thread : nat) (e : E)
| Outside (d : D).
Arguments Request {E W D T} p.
Arguments Step {E W D T} thread e.
Arguments Outside {E W D T} d.

Section Pool.
Context {E W D T : Type}.
(** Whether the system can create a thread; what happens outside; what a thread
    that nobody waits for leaves. *)
Context (spawns : E -> bool) (outside : D -> W -> W) (job_done : T).

Definition job_thread (job : Prog E W unit) : Prog E W T := pbind job (fun _ => Done job_done).

(** One step of a thread: the world, what is left to do, the threads created. *)
Definition thread_step (e : E) (w : W) (p : Prog E W T) : W * Prog E W T * list (Prog E W T) :=
  match p with
  | Done r => (w, Done r, [])
  | Act section k => let '(x, w') := section e w in (w', k x, [])
  | Fork job k => if spawns e then (w, k true, [job_thread job]) else (w, k false, [])
  end.

Definition finished (p : Prog E W T) : bool := match p with Done _ => true | _ => false end.


Definition pool_step (ev : pool_event E W D T) (c : Pool E W T) : Pool E W T :=
  let '(w, threads) := c in
  match ev with
  | Request p => (w, threads ++ [p])
  | Step i e =>
      match threads !! i with
      | None => c
      | Some p => let '(w', p', created) := thread_step e w p in (w', <[i := p']> threads ++ created)
      end
  | Outside d => (outside d w, threads)
  end.

Definition pool_run (evs : list (pool_event E W D T)) (c : Pool E W T) : Pool E W T := foldl (fun c ev => pool_step ev c) c evs.

(** A step of a thread that has something left to do. *)
Definition pool_advances (c' c : Pool E W T) : Prop :=
  exists i e p, c.2 !! i = Some p /\ finished p = false /\ c' = pool_step (Step i e) c.

(** ** Every thread ends *)

(** Forgetting the world, a thread is replaced by one of its continuations. *)
Inductive reduces : list (Prog E W T) -> list (Prog E W T) -> Prop :=
| reduces_act l1 X (section : E -> W -> X * W) k x l2 :
    reduces (l1 ++ k x :: l2) (l1 ++ Act section k :: l2)
| reduces_fork l1 job k l2 :
    reduces (l1 ++ k true :: l2 ++ [job_thread job]) (l1 ++ Fork job k :: l2)
| reduces_alone l1 job k l2 :
    reduces (l1 ++ k false :: l2) (l1 ++ Fork job k :: l2).

Lemma reduces_cons p l l' :
  reduces l' (p :: l) ->
  (exists l1, l' = p :: l1 /\ reduces l1 l)
  \/ match p with
     | Done _ => False
     | Act _ k => exists x, l' = k x :: l
     | Fork job k => l' = k true :: l ++ [job_thread job] \/ l' = k false :: l
     end.
Proof.
  intros Hr. remember (p :: l) as l0 eqn:Hl. destruct Hr as [l1 X section k x l2|l1 job k l2|l1 job k l2];
    destruct l1 as [|q l1]; simpl in *; injection Hl; intros; subst; eauto using reduces.
Qed.

(** Where a thread stands in the pool does not matter. *)
Lemma reduces_perm l1 l2 l' :
  l1 ≡ₚ l2 -> reduces l' l1 -> exists l'', reduces l'' l2 /\ l' ≡ₚ l''.
Proof.
  intros Hp Hr. destruct Hr as [a X section k x b|a job k b|a job k b];
    match type of Hp with ?a ++ ?p :: ?b ≡ₚ _ =>
      assert (p ∈ l2) as Hin by (rewrite <- Hp; set_solver);
      apply list_elem_of_split in Hin as (c & d & ->);
      apply (Permutation_app_inv a b c d) in Hp end.
  - eexists. split; [constructor|]. rewrite <- !Permutation_middle. by f_equiv.
  - eexists. split; [constructor|]. rewrite <- !Permutation_middle, !(assoc_L (++)).
    by rewrite Hp.
  - eexists. split; [apply reduces_alone|]. rewrite <- !Permutation_middle. by f_equiv.
Qed.

Lemma acc_perm l1 l2 : Acc reduces l1 -> l1 ≡ₚ l2 -> Acc reduces l2.
Proof.
  intros Hacc. revert l2. induction Hacc as [l1 _ IH]. intros l2 Hp. constructor. intros l' Hr.
  symmetry in Hp. destruct (reduces_perm _ _ _ Hp Hr) as (l'' & Hr' & Hp'). by eapply IH.
Qed.

Lemma acc_job {A} (p : Prog E W A) (h : A -> T) l :
  Acc reduces l -> Acc reduces (pbind p (fun a => Done (h a)) :: l).
Proof.
  revert h l. induction p as [A r|A X section k IH|A job IHjob k IH]; intros h l Hl;
    induction Hl as [l Hl IHl]; constructor; intros l' [(l1 & -> & Hr)|Hp]%reduces_cons; auto; simpl in Hp.
  - done.
  - destruct Hp as [x ->]. apply IH. by constructor.
  - destruct Hp as [->| ->]; apply IH; [|by constructor].
    eapply acc_perm; [|by rewrite (comm (++))]. apply IHjob. by constructor.
Qed.

Fixpoint acc_thread (p : Prog E W T) {struct p} : forall l, Acc reduces l -> Acc reduces (p :: l).
Proof.
  intros l Hl. induction Hl as [l Hl IHl]. constructor.
  intros l' [(l1 & -> & Hr)|Hp]%reduces_cons; [exact (IHl _ Hr)|].
  destruct p as [r|X section k|job k]; [destruct Hp|..].
  - destruct Hp as [x ->]. apply acc_thread. exact (Acc_intro _ Hl).
  - destruct Hp as [->| ->]; apply acc_thread; [|exact (Acc_intro _ Hl)].
    eapply acc_perm; [|rewrite (comm (++)); reflexivity]. apply acc_job. exact (Acc_intro _ Hl).
Qed.

Lemma acc_threads l : Acc reduces l.
Proof.
  induction l as [|p l IH]; [|by apply acc_thread].
  constructor. intros l' Hr. inversion Hr; by destruct l1.
Qed.

Lemma advances_reduces c c' : pool_advances c' c -> reduces c'.2 c.2.
Proof.
  destruct c as [w ts]. intros (i & e & p & Hp & Hf & ->). simpl in *. rewrite Hp.
  destruct (list_elem_of_split_length _ _ _ Hp) as (l1 & l2 & -> & ->).
  destruct p as [r|X section k|job k]; simpl in *; [done|..].
  - destruct (section e w) as [x w']. simpl. rewrite insert_app_r_alt, Nat.sub_diag, app_nil_r by done. constructor.
  - destruct (spawns e); simpl; rewrite insert_app_r_alt, Nat.sub_diag by done.
    + rewrite <- app_assoc. simpl. constructor.
    + rewrite app_nil_r. apply reduces_alone.
Qed.

(** No schedule keeps the threads of a pool busy for ever. *)
Lemma pool_terminates c : Acc pool_advances c.
Proof.
  destruct c as [w ts]. pose proof (acc_threads ts) as Hacc. revert w.
  induction Hacc as [ts _ IH]. intros w. constructor. intros [w' ts'] Hc.
  apply advances_reduces in Hc. by apply IH.
Qed.

(** A pool that cannot advance has only finished threads. *)
Lemma pool_stuck c (e : E) : (forall c', ~ pool_advances c' c) <-> Forall (fun p => finished p = true) c.2.
Proof.
  split.
  - intros Hn. apply Forall_forall. intros p Hp. destruct (finished p) eqn:Hf; [done|].
    apply list_elem_of_lookup in Hp as [i Hi]. destruct (Hn (pool_step (Step i e) c)). by exists i, e, p.
  - intros Hall c' (i & e' & p & Hi & Hf & _). rewrite Forall_lookup in Hall. specialize (Hall i p Hi). congruence.
Qed.
End Pool.

(** ** Programs whose sections all stay within a relation and create no thread *)
Section Leaves.
Context {E W : Type} (same : W -> W -> Prop).

Fixpoint leaves {R : Type} (p : Prog E W R) : Prop :=
  match p with
  | Done _ => True
  | Act section k => (forall e w, same w (section e w).2) /\ forall x, leaves (k x)
  | Fork _ _ => False
  end.

Lemma leaves_act {X} (section : E -> W -> X * W) : (forall e w, same w (section e w).2) -> leaves (act section).
Proof. by split. Qed.
Lemma leaves_bind {A B} (p : Prog E W A) (h : A -> Prog E W B) :
  leaves p -> (forall a, leaves (h a)) -> leaves (pbind p h).
Proof.
  revert B h. induction p as [A r|A X section k IH|A job _ k IH]; intros B h; simpl; [auto| |done].
  intros [H1 H2] Hh. split; [done|]. intros x. by apply IH.
Qed.
Lemma leaves_try {F A B} (p : Prog E W (result F A)) (h : A -> Prog E W (result F B)) :
  leaves p -> (forall a, leaves (h a)) ->
  leaves (pbind p (fun r => match r with Ok x => h x | Err e => Done (Err e) end)).
Proof. intros Hp Hh. apply leaves_bind; [done|]. by intros [a|e]. Qed.
End Leaves.

(** ** The logic *)
Section Logic.
Context {E W D T G : Type}.
Context (spawns : E -> bool) (outside : D -> W -> W) (job_done : T).
(** Inputs of steps, actions of the outside, the invariant over all ghost pieces,
    what a section may change, what a new thread owns, what a finished job owns. *)
Context (Input : E -> Prop) (Tame : D -> W -> Prop).
Context (Inv : W -> list G -> Prop) (Guar : W -> W -> Prop) (idle : G) (Final : G -> Prop).

Fixpoint wp {R : Type} (p : Prog E W R) (Q : R -> G -> Prop) (g : G) : Prop :=
  match p with
  | Done r => Q r g
  | Act section k => forall e w gs, Input e -> Inv w (g :: gs) ->
      exists g', Inv (section e w).2 (g' :: gs) /\ Guar w (section e w).2 /\ wp (k (section e w).1) Q g'
  | Fork job k =>
      ((exists e, Input e /\ spawns e = false) -> wp (k false) Q g)
      /\ exists g1 g2, (forall w gs, Inv w (g :: gs) -> Inv w (g1 :: g2 :: gs))
                       /\ wp job (fun _ => Final) g2 /\ wp (k true) Q g1
  end.

Lemma wp_mono {R} (p : Prog E W R) (Q Q' : R -> G -> Prop) g :
  (forall r g, Q r g -> Q' r g) -> wp p Q g -> wp p Q' g.
Proof.
  intros HQ. revert Q Q' HQ g.
  induction p as [R r|R X section k IH|R job _ k IH]; intros Q Q' HQ g; simpl; [apply HQ|..].
  - intros Hp e w gs He Hi. destruct (Hp e w gs He Hi) as (g' & H1 & H2 & H3). eauto 6.
  - intros (H1 & g1 & g2 & H2 & H3 & H4). split; [eauto|]. exists g1, g2. eauto.
Qed.

Lemma wp_bind {A B} (p : Prog E W A) (h : A -> Prog E W B) (Q : B -> G -> Prop) g :
  wp p (fun a g => wp (h a) Q g) g -> wp (pbind p h) Q g.
Proof.
  revert B h Q g. induction p as [A r|A X section k IH|A job _ k IH]; intros B h Q g; simpl; [done|..].
  - intros Hp e w gs He Hi. destruct (Hp e w gs He Hi) as (g' & H1 & H2 & H3). eauto 6.
  - intros (H1 & g1 & g2 & H2 & H3 & H4). split; [eauto|]. exists g1, g2. eauto.
Qed.

Lemma wp_act {X} (section : E -> W -> X * W) (Q : X -> G -> Prop) g :
  (forall e w gs, Input e -> Inv w (g :: gs) ->
     exists g', Inv (section e w).2 (g' :: gs) /\ Guar w (section e w).2 /\ Q (section e w).1 g') ->
  wp (act section) Q g.
Proof. done. Qed.

(** A program that changes nothing the invariant speaks of keeps its ghost state. *)
Lemma wp_leaves {R} (same : W -> W -> Prop) (p : Prog E W R) g :
  (forall w w' gs, same w w' -> Inv w gs -> Inv w' gs /\ Guar w w') ->
  leaves same p -> wp p (fun _ g' => g' = g) g.
Proof.
  intros Hsame. revert g. induction p as [R r|R X section k IH|R job _ k IH]; intros g; simpl; [done| |done].
  intros [Hs Hk] e w gs _ Hi. destruct (Hsame w (section e w).2 (g :: gs)) as [H1 H2]; [done..|]. eauto.
Qed.
Lemma wp_then {A B} (same : W -> W -> Prop) (p : Prog E W A) (h : A -> Prog E W B) (Q : B -> G -> Prop) g :
  (forall w w' gs, same w w' -> Inv w gs -> Inv w' gs /\ Guar w w') ->
  leaves same p -> (forall a, wp (h a) Q g) -> wp (pbind p h) Q g.
Proof.
  intros Hs Hp Hh. apply wp_bind. eapply wp_mono; [|by eapply wp_leaves]. by intros a g' ->.
Qed.

Context (Post : T -> G -> Prop).
Hypothesis Inv_perm : forall w gs gs', gs ≡ₚ gs' -> Inv w gs -> Inv w gs'.
Hypothesis Inv_idle : forall w gs, Inv w gs -> Inv w (idle :: gs).
Hypothesis Inv_outside : forall d w gs, Tame d w -> Inv w gs -> Inv (outside d w) gs.
Hypothesis Guar_refl : forall w, Guar w w.
Hypothesis Final_post : forall g, Final g -> Post job_done g.

Definition pool_ok (c : Pool E W T) : Prop :=
  exists gs, Inv c.1 gs /\ Forall2 (fun p g => wp p Post g) c.2 gs.

Definition event_ok (ev : pool_event E W D T) (c : Pool E W T) : Prop :=
  match ev with
  | Request p => wp p Post idle
  | Step _ e => Input e
  | Outside d => Tame d c.1
  end.

Lemma thread_ok e w p g gs :
  Input e -> Inv w (g :: gs) -> wp p Post g ->
  let '(w', p', created) := thread_step spawns job_done e w p in
  Guar w w' /\ exists g' gs', Inv w' (g' :: gs ++ gs') /\ wp p' Post g'
                /\ Forall2 (fun p g => wp p Post g) created gs'.
Proof.
  intros He Hi Hp. destruct p as [r|X section k|job k]; cbn [thread_step].
  - split; [apply Guar_refl|]. exists g, []. rewrite app_nil_r. auto.
  - destruct (Hp e w gs He Hi) as (g' & H1 & H2 & H3). destruct (section e w) as [x w']. simpl in *.
    split; [done|]. exists g', []. rewrite app_nil_r. auto.
  - destruct Hp as (H1 & g1 & g2 & H2 & H3 & H4). destruct (spawns e) eqn:Hs; (split; [apply Guar_refl|]).
    + exists g1, [g2]. split; [|split; [done|]].
      * eapply Inv_perm; [|apply H2, Hi]. by rewrite (comm (++)).
      * constructor; [|done]. apply wp_bind. eapply wp_mono; [|exact H3]. simpl. auto.
    + exists g, []. rewrite app_nil_r. split; [done|]. split; [apply H1; eauto|constructor].
Qed.

Lemma step_ok ev c :
  event_ok ev c -> pool_ok c ->
  pool_ok (pool_step spawns outside job_done ev c)
  /\ (forall i e, ev = Step i e -> Guar c.1 (pool_step spawns outside job_done ev c).1).
Proof.
  destruct c as [w ts]. intros Hev (gs & Hi & Hts). destruct ev as [p|i e|d]; simpl in *.
  - split; [|done]. exists (gs ++ [idle]). split; [|apply Forall2_app; [done|by repeat constructor]].
    eapply Inv_perm; [|apply Inv_idle, Hi]. by rewrite (comm (++)).
  - destruct (ts !! i) as [p|] eqn:Hp; [|split; [by exists gs|intros; apply Guar_refl]].
    destruct (list_elem_of_split_length _ _ _ Hp) as (l1 & l2 & -> & ->).
    apply Forall2_app_inv_l in Hts as (g1 & gs2 & Hl1 & Hl2 & ->).
    apply Forall2_cons_inv_l in Hl2 as (g & g2 & Hg & Hl2 & ->).
    assert (Inv w (g :: g1 ++ g2)) as Hi' by (eapply Inv_perm; [|exact Hi]; by rewrite Permutation_middle).
    pose proof (thread_ok e w p g _ Hev Hi' Hg) as Hstep.
    destruct (thread_step spawns job_done e w p) as [[w' p'] created].
    destruct Hstep as (HG & g' & gs' & H1 & H2 & H3). split; [|intros; exact HG].
    exists ((g1 ++ g' :: g2) ++ gs'). split.
    + eapply Inv_perm; [|exact H1]. rewrite <- Permutation_middle. done.
    + rewrite insert_app_r_alt, Nat.sub_diag by done. by apply Forall2_app; [apply Forall2_app; [|constructor]|].
  - split; [|done]. exists gs. split; [by apply Inv_outside|done].
Qed.

(** Every event of a run is admissible when it happens. *)
Fixpoint events_ok (evs : list (pool_event E W D T)) (c : Pool E W T) : Prop :=
  match evs with
  | [] => True
  | ev :: rest => event_ok ev c /\ events_ok rest (pool_step spawns outside job_done ev c)
  end.

Theorem run_ok evs c :
  events_ok evs c -> pool_ok c -> pool_ok (pool_run spawns outside job_done evs c).
Proof.
  revert c. induction evs as [|ev evs IH]; intros c; simpl; [done|].
  intros [Hev Hevs] Hc. apply IH; [done|]. by apply step_ok.
Qed.

(** What is left when every thread has finished. *)
Lemma finished_ok c :
  pool_ok c -> Forall (fun p => finished p = true) c.2 ->
  exists gs, Inv c.1 gs /\ Forall (fun g => exists r, Post r g) gs.
Proof.
  intros (gs & Hi & Hts) Hf. exists gs. split; [done|]. clear Hi.
  induction Hts as [|p g ts gs Hp _ IH]; [done|]. apply Forall_cons in Hf as [Hf1 Hf].
  constructor; [|by apply IH]. destruct p; [by eexists|done..].
Qed.
End Logic.
