(* ===== verification/ModelInference.v ===== *)
(** * Inference on one exact loaded model
    (src/src/app_core/v3_model.rs and
    src/src/daemon/runtime_v3/model_lifecycle/model_inference.rs)

    The request and result of an inference with their domain-separated digests,
    the sink that checks the provider's event stream, the budget, and the evidence
    that must agree before a result is returned.  The provider belongs to the
    model runtime crates: a run is what it emitted and reported. *)
From stdpp Require Import base list strings.
From Stdlib Require Import ZArith Lia.
From S2P Require Import Prelude RustStr Framing External Digest RunContract StoreBase AuditMetadata AssistantContent RunStore Provider.
Import Provider.

Open Scope Z_scope.
Open Scope rust_scope.

Module Inference.
Definition MAX_ID_BYTES : Z := 128.
Definition MAX_V3_MODEL_PROMPT_BYTES : Z := MAX_APP_FRAME_BYTES.
Definition MAX_V3_MODEL_OUTPUT_BYTES : Z := 32 * 1024.
Definition MAX_V3_MODEL_OUTPUT_TOKENS : Z := 256.

(** [b"...\0"] *)
Definition REQUEST_DIGEST_DOMAIN : list Z := bytes "abbey.protocol-v3.exact-model-inference.request.v1" ++ [0].
Definition OUTPUT_DIGEST_DOMAIN : list Z := bytes "abbey.protocol-v3.exact-model-inference.output.v1" ++ [0].

(** ** The contract *)
Inductive V3ModelDevice := V3Cpu | V3Metal | V3Cuda.
#[export] Instance V3ModelDevice_eq_dec : EqDecision V3ModelDevice.
Proof. solve_decision. Defined.

Record V3ModelInferenceRequest := mkInferenceRequest {
  iq_model_id : string;
  iq_revision : string;
  iq_prompt : string;
  iq_max_output_tokens : Z;
  iq_request_digest : string;
}.

Record V3ModelInferenceResult := mkInferenceResult {
  ir_model_id : string;
  ir_revision : string;
  ir_request_digest : string;
  ir_output_digest : string;
  ir_output : string;
  ir_requested_output_tokens : Z;
  ir_prompt_tokens : Z;
  ir_output_tokens : Z;
  ir_requested_device : V3ModelDevice;
  ir_executed_device : V3ModelDevice;
  ir_native_operations : Z;
  ir_fallback_used : bool;
  ir_mixed_execution : bool;
}.

(** [v3::validate_id] and [v3::validate_digest] *)
Definition validate_id (value : string) : result ValidationError unit :=
  validate_identifier value MAX_ID_BYTES "invalid v3 identifier".
Definition validate_digest (value : string) : result ValidationError unit :=
  if negb (slen value =? 64) || negb (forallb is_lower_hex (bytes value))
  then Err (mkValidationError "invalid v3 sha256 digest") else Ok tt.

(** Big-endian bytes of an unsigned integer of [width] bytes. *)
Fixpoint be_bytes (width : nat) (n : Z) : list Z :=
  match width with O => [] | S w => be_bytes w (n / 256) ++ [n mod 256] end.

(** [digest_field]: the length as eight bytes, then the bytes. *)
Definition digest_field (value : list Z) : list Z := be_bytes 8 (Z.of_nat (length value)) ++ value.

Definition request_material (model_id revision prompt : string) (max_output_tokens : Z) : list Z :=
  REQUEST_DIGEST_DOMAIN ++ digest_field (bytes model_id) ++ digest_field (bytes revision)
  ++ digest_field (bytes prompt) ++ be_bytes 2 max_output_tokens.
Definition output_material (model_id revision request_digest output : string) : list Z :=
  OUTPUT_DIGEST_DOMAIN ++ digest_field (bytes model_id) ++ digest_field (bytes revision)
  ++ digest_field (bytes request_digest) ++ digest_field (bytes output).

(** Length of the JSON text of a request (serde_json). *)
Class InferenceJson := { inference_request_len : V3ModelInferenceRequest -> Z }.

Section Contract.
Context `{Digest} `{InferenceJson}.

Definition computed_digest (q : V3ModelInferenceRequest) : string :=
  hexadecimal (sha256 (request_material (iq_model_id q) (iq_revision q) (iq_prompt q) (iq_max_output_tokens q))).

Definition InferenceRequest_validate (q : V3ModelInferenceRequest) : result ValidationError unit :=
  let? _ := validate_id (iq_model_id q) in
  let? _ := validate_id (iq_revision q) in
  fail? bool_decide (trim (chars (iq_prompt q)) = []) || (MAX_V3_MODEL_PROMPT_BYTES <? slen (iq_prompt q))
        || existsb is_forbidden_control (chars (iq_prompt q))
  with mkValidationError "invalid v3 model prompt" in
  fail? (iq_max_output_tokens q =? 0) || (MAX_V3_MODEL_OUTPUT_TOKENS <? iq_max_output_tokens q)
  with mkValidationError "invalid v3 model output-token limit" in
  let? _ := validate_digest (iq_request_digest q) in
  fail? negb (bool_decide (iq_request_digest q = computed_digest q))
  with mkValidationError "v3 model request digest mismatch" in
  fail? MAX_APP_FRAME_BYTES <? inference_request_len q
  with mkValidationError "v3 model request exceeds frame limit" in
  Ok tt.

Definition InferenceRequest_new (model_id revision prompt : string) (max_output_tokens : Z)
    : result ValidationError V3ModelInferenceRequest :=
  let blank := mkInferenceRequest model_id revision prompt max_output_tokens EmptyString in
  let request := mkInferenceRequest model_id revision prompt max_output_tokens (computed_digest blank) in
  let? _ := InferenceRequest_validate request in
  Ok request.

Definition output_digest (model_id revision request_digest output : string) : string :=
  hexadecimal (sha256 (output_material model_id revision request_digest output)).
Definition computed_output_digest (r : V3ModelInferenceResult) : string :=
  output_digest (ir_model_id r) (ir_revision r) (ir_request_digest r) (ir_output r).

Definition InferenceResult_validate (r : V3ModelInferenceResult) : result ValidationError unit :=
  let? _ := validate_id (ir_model_id r) in
  let? _ := validate_id (ir_revision r) in
  let? _ := validate_digest (ir_request_digest r) in
  let? _ := validate_digest (ir_output_digest r) in
  fail? (MAX_V3_MODEL_OUTPUT_BYTES <? slen (ir_output r))
        || (ir_requested_output_tokens r =? 0)
        || (MAX_V3_MODEL_OUTPUT_TOKENS <? ir_requested_output_tokens r)
        || (ir_prompt_tokens r =? 0)
        || (ir_requested_output_tokens r <? ir_output_tokens r)
        || (ir_native_operations r =? 0)
        || negb (bool_decide (ir_requested_device r = ir_executed_device r))
        || ir_fallback_used r
        || ir_mixed_execution r
        || negb (bool_decide (ir_output_digest r = computed_output_digest r))
  with mkValidationError "invalid v3 model inference result" in
  Ok tt.

Definition InferenceResult_validate_for (r : V3ModelInferenceResult) (q : V3ModelInferenceRequest)
    : result ValidationError unit :=
  let? _ := InferenceRequest_validate q in
  let? _ := InferenceResult_validate r in
  fail? negb (bool_decide (ir_model_id r = iq_model_id q))
        || negb (bool_decide (ir_revision r = iq_revision q))
        || negb (bool_decide (ir_request_digest r = iq_request_digest q))
        || negb (ir_requested_output_tokens r =? iq_max_output_tokens q)
  with mkValidationError "v3 model inference correlation mismatch" in
  Ok tt.
End Contract.

(** ** What the model runtime crates provide *)
Inductive DevicePreference := Cpu | Metal | Cuda.
Inductive ExecutionPath := PathCpu | PathMetal | PathCuda.

(** The end of one [run_provider]: how it stopped, the captured text, the usage. *)
Record RunReport := mkRunReport {
  rr_stop : StopReason;
  rr_text : string;
  rr_truncated : bool;
  rr_input_tokens : Z;
  rr_output_tokens : Z;
}.
Record InferenceEvidence := mkInferenceEvidence {
  en_model_id : string;
  en_prompt_tokens : Z;
  en_generated_tokens : Z;
  en_requested_device : DevicePreference;
  en_executed_path : ExecutionPath;
  en_native_operations : Z;
  en_fallback_used : bool;
  en_mixed_execution : bool;
  en_executed : bool;
  en_runtime_verified : bool;
}.
Record LoadReport := mkLoadReport { lr_model_id : string; lr_revision : string }.

(** ** Failures (daemon/server.rs) *)
Record HandlerFailure := mkHandlerFailure { hf_code : string; hf_message : string }.
Definition invalid_command_failure : HandlerFailure := mkHandlerFailure "invalid_command" "command payload is invalid".
Definition not_found_failure : HandlerFailure := mkHandlerFailure "not_found" "model resource was not found".
Definition conflict_failure : HandlerFailure :=
  mkHandlerFailure "conflict" "model operation conflicts with durable state".
Definition model_denied_failure : HandlerFailure :=
  mkHandlerFailure "model_not_authorized" "model license acceptance does not authorize this exact model revision".
Definition runtime_failure : HandlerFailure :=
  mkHandlerFailure "runtime_unavailable" "model runtime operation is unavailable".

(** ** The sink *)
Definition exact_emit (expected_model : string) (s : Sink) (event : ModelEvent) : Sink :=
  match event with
  | EvStarted model =>
      if negb (sk_started s) && negb (sk_terminal s) && bool_decide (model = expected_model)
      then mkSink true (sk_terminal s) (sk_invalid s)
      else sink_reject s
  | EvTextDelta _ => if sk_started s && negb (sk_terminal s) then s else sink_reject s
  | EvFinished =>
      if sk_started s && negb (sk_terminal s) then mkSink (sk_started s) true (sk_invalid s) else sink_reject s
  | EvToolCall | EvToolResult | EvOther => sink_reject s
  end.
Definition exact_valid (s : Sink) : bool := sk_started s && sk_terminal s && negb (sk_invalid s).

(** The budget of a run; the duration in milliseconds. *)
Definition exact_budget (max_output_tokens : Z) : RunBudget :=
  mkRunBudget (Some (max_output_tokens + 2)) (Some max_output_tokens) (Some 1000).

Definition is_budget_exhausted (stop : StopReason) : bool :=
  match stop with BudgetExhausted _ => true | _ => false end.
Definition is_completed (stop : StopReason) : bool :=
  match stop with StopCompleted => true | _ => false end.

(** [run_exact_provider], given what the provider emitted and its report. *)
Definition run_exact_provider (model : string) (run : list ModelEvent * option RunReport)
    : result HandlerFailure RunReport :=
  let? report := ok_or run.2 runtime_failure in
  let sink := foldl (exact_emit model) sink_new run.1 in
  fail? is_budget_exhausted (rr_stop report)
  with mkHandlerFailure "budget_exceeded" "model inference exceeded its execution budget" in
  fail? negb (is_completed (rr_stop report)) || rr_truncated report
        || (MAX_V3_MODEL_OUTPUT_BYTES <? slen (rr_text report)) || negb (exact_valid sink)
  with runtime_failure in
  Ok report.

Definition model_device (device : DevicePreference) : V3ModelDevice :=
  match device with Cpu => V3Cpu | Metal => V3Metal | Cuda => V3Cuda end.
Definition executed_device (device : ExecutionPath) : V3ModelDevice :=
  match device with PathCpu => V3Cpu | PathMetal => V3Metal | PathCuda => V3Cuda end.
Definition device_name (device : V3ModelDevice) : string :=
  match device with V3Cpu => "cpu" | V3Metal => "metal" | V3Cuda => "cuda" end.

(** [u32::try_from] of a [usize]. *)
Definition u32_try_from (n : Z) : result HandlerFailure Z := if n <=? u32_max then Ok n else Err runtime_failure.
(** [usize::try_from(u64).unwrap_or(usize::MAX)]: [usize] has 64 bits. *)
Definition usize_of_u64 (n : Z) : Z := Z.min n u64_max.

Section Result.
Context `{Digest} `{InferenceJson}.

(** The middle of [infer_locked]: from the run, the provider's evidence and its
    load report to the result that is audited and returned. *)
Definition inference_result (q : V3ModelInferenceRequest) (run : RunReport) (evidence : InferenceEvidence)
    (load : LoadReport) : result HandlerFailure V3ModelInferenceResult :=
  fail? negb (bool_decide (lr_model_id load = iq_model_id q))
        || negb (bool_decide (lr_revision load = iq_revision q))
        || negb (bool_decide (en_model_id evidence = iq_model_id q))
        || negb (en_prompt_tokens evidence =? usize_of_u64 (rr_input_tokens run))
        || negb (en_generated_tokens evidence =? usize_of_u64 (rr_output_tokens run))
        || negb (en_executed evidence)
        || negb (en_runtime_verified evidence)
  with runtime_failure in
  let? prompt_tokens := u32_try_from (en_prompt_tokens evidence) in
  let? output_tokens := u32_try_from (en_generated_tokens evidence) in
  let r := mkInferenceResult (iq_model_id q) (iq_revision q) (iq_request_digest q)
             (output_digest (iq_model_id q) (iq_revision q) (iq_request_digest q) (rr_text run))
             (rr_text run) (iq_max_output_tokens q) prompt_tokens output_tokens
             (model_device (en_requested_device evidence)) (executed_device (en_executed_path evidence))
             (en_native_operations evidence) (en_fallback_used evidence) (en_mixed_execution evidence) in
  let? _ := map_err (fun _ => runtime_failure) (InferenceResult_validate_for r q) in
  Ok r.
End Result.

(** The metadata [audit_inference] passes to [AuditMetadata::new]. *)
Definition inference_metadata (r : V3ModelInferenceResult) : Value :=
  VObject [("model_id", VString (ir_model_id r));
           ("revision", VString (ir_revision r));
           ("request_digest", VString (ir_request_digest r));
           ("output_digest", VString (ir_output_digest r));
           ("output_bytes", VNumber (slen (ir_output r)));
           ("requested_output_tokens", VNumber (ir_requested_output_tokens r));
           ("prompt_tokens", VNumber (ir_prompt_tokens r));
           ("output_tokens", VNumber (ir_output_tokens r));
           ("requested_device", VString (device_name (ir_requested_device r)));
           ("executed_device", VString (device_name (ir_executed_device r)));
           ("native_operations", VNumber (ir_native_operations r));
           ("fallback_used", VBool (ir_fallback_used r));
           ("mixed_execution", VBool (ir_mixed_execution r))].

(** [record_audit(NewAuditEvent { .., metadata: AuditMetadata::new(..)? })] *)
Definition audit_event `{External} (action outcome : string) (metadata : Value) (t : Tick)
    : Tx RunDb StoreError unit :=
  metadata' <- tlift (AuditMetadata_new metadata) ;
  record_audit (mkNewAuditEvent None action outcome metadata') t ;;
  tret tt.
End Inference.
