(* ===== verification/ModelLifecycle.v ===== *)
(** * The lifecycle of local models (src/src/daemon/runtime_v3/model_lifecycle.rs)

    Handlers of the daemon download, load, unload, cancel and query local models.
    Downloads and loads go on in a thread of their own.  Handlers and threads
    share the durable operations, the audit ledger, the set of busy revisions and
    the table of loaded models; every lock acquisition and every store call is one
    section of [Threads]. *)
From stdpp Require Import base list gmap strings sorting.
From Stdlib Require Import ZArith Lia.
From S2P Require Import Prelude RustStr External Digest RunContract StoreBase AuditMetadata AssistantContent RunStore ModelOperation Provider Threads ModelInference.
Import Model Provider Inference.

Open Scope Z_scope.
Open Scope rust_scope.
Open Scope prog_scope.

Module Lifecycle.
(** ** Commands and answers (app_core/v3.rs, app_core/v3_model.rs) *)
Definition MAX_LABEL_BYTES : Z := 256.

Record V3ModelAction := mkModelAction { ac_model_id : string; ac_revision : string; ac_operation_id : string }.
Record V3Action := mkAction { va_resource_id : string; va_operation_id : string }.
Record V3ResourceQuery := mkResourceQuery { rq_resource_id : string }.
Inductive V3OperationState :=
| OpAvailable | OpQueued | OpRunning | OpInputRequired | OpSucceeded | OpFailed | OpDenied | OpCancelled
| OpNotDownloaded.
Record V3OperationStatus := mkOperationStatus {
  os_operation_id : string;
  os_resource_id : string;
  os_state : V3OperationState;
  os_progress_basis_points : Z;
}.
Record V3EntityRecord := mkEntityRecord { et_id : string; et_label : string; et_state : V3OperationState }.
Record V3ModelDetails := mkModelDetails {
  md_model_id : string;
  md_revision : string;
  md_architecture : string;
  md_configured_device : V3ModelDevice;
  md_license_sha256 : string;
  md_license_accepted : bool;
  md_loaded : bool;
}.
(** The events of [V3Event] that answer a model command. *)
Inductive V3Event :=
| EvModelStatus (status : V3OperationStatus)
| EvModelDetails (details : V3ModelDetails)
| EvModelInference (inference : V3ModelInferenceResult).

Definition V3ModelAction_validate (a : V3ModelAction) : result ValidationError unit :=
  let? _ := Inference.validate_id (ac_model_id a) in
  let? _ := Inference.validate_id (ac_revision a) in
  Inference.validate_id (ac_operation_id a).
Definition V3Action_validate (a : V3Action) : result ValidationError unit :=
  let? _ := Inference.validate_id (va_resource_id a) in
  Inference.validate_id (va_operation_id a).
Definition V3ResourceQuery_validate (q : V3ResourceQuery) : result ValidationError unit :=
  Inference.validate_id (rq_resource_id q).
Definition validate_label (value : string) (max_bytes : Z) (message : string) : result ValidationError unit :=
  if bool_decide (trim (chars value) = []) || (max_bytes <? slen value) || existsb is_control (chars value)
  then Err (mkValidationError message) else Ok tt.
Definition V3EntityRecord_validate (r : V3EntityRecord) : result ValidationError unit :=
  let? _ := Inference.validate_id (et_id r) in
  validate_label (et_label r) MAX_LABEL_BYTES "invalid v3 entity label".
Definition V3OperationStatus_validate (s : V3OperationStatus) : result ValidationError unit :=
  let? _ := Inference.validate_id (os_operation_id s) in
  let? _ := Inference.validate_id (os_resource_id s) in
  fail? 10000 <? os_progress_basis_points s with mkValidationError "invalid v3 operation progress" in
  Ok tt.
Definition V3ModelDetails_validate (d : V3ModelDetails) : result ValidationError unit :=
  let? _ := Inference.validate_id (md_model_id d) in
  let? _ := Inference.validate_id (md_revision d) in
  let? _ := Inference.validate_id (md_architecture d) in
  Inference.validate_digest (md_license_sha256 d).

(** ** What the model crates provide

    The signed registry, the license ledger and the storage root are fixed when
    the daemon starts. *)
Class ModelCrates := {
  Artifact : Type;
  LocalModelProvider : Type;
  load_report : LocalModelProvider -> LoadReport;
  device_as_str : DevicePreference -> string;
}.
Record Manifest `{ModelCrates} := mkManifest {
  mf_revision : string;
  mf_architecture : string;
  mf_license_sha256 : string;
  mf_artifacts : list Artifact;
}.
Record Binding `{ModelCrates} := mkBinding {
  registry_ids : list string;
  registry_get : string -> option Manifest;
  resolve_for : string -> string -> bool;
  is_accepted_for : Manifest -> string -> bool;
  principal : string;
  device : DevicePreference;
  max_artifact_bytes : Z;
}.

Section Lifecycle.
Context `{External} `{Digest} `{InferenceJson} `{ModelCrates}.

(** What the world outside decides at one step: the time stamp of an audit
    record, whether a thread can be created, whether an artifact arrives whole,
    the provider of a load, a provider's run and its last report. *)
Record Input := mkInput {
  in_tick : Tick;
  in_spawn : bool;
  in_fetch : Artifact -> Z -> bool;
  in_load : string -> string -> DevicePreference -> Z -> option LocalModelProvider;
  in_run : LocalModelProvider -> string -> string -> Z -> RunBudget -> list ModelEvent * option RunReport;
  in_report : LocalModelProvider -> result unit (option InferenceEvidence);
}.

(** [ModelKey] and [ActiveKey]: model and revision. *)
Definition ModelKey : Type := string * string.

(** The clock is [None] when the system time is before 1970 or beyond [u64]. *)
Record World := mkWorld {
  w_runs : RunDb;
  w_models : ModelDb;
  w_active : gset ModelKey;
  w_loaded : gmap ModelKey LocalModelProvider;
  w_clock : option Z;
}.
Definition set_runs db w := mkWorld db (w_models w) (w_active w) (w_loaded w) (w_clock w).
Definition set_models db w := mkWorld (w_runs w) db (w_active w) (w_loaded w) (w_clock w).
Definition set_active a w := mkWorld (w_runs w) (w_models w) a (w_loaded w) (w_clock w).
Definition set_loaded l w := mkWorld (w_runs w) (w_models w) (w_active w) l (w_clock w).
Definition set_clock c w := mkWorld (w_runs w) (w_models w) (w_active w) (w_loaded w) c.

Definition Program (A : Type) : Type := Prog Input World (result HandlerFailure A).
(** Programs of [Result<A, ()>]. *)
Definition Attempt (A : Type) : Type := Prog Input World (result unit A).
Definition lift {A} (r : result HandlerFailure A) : Program A := Done r.
Definition forget {A} (p : Program A) : Attempt A := let! r := p in Done (map_err (fun _ => tt) r).

(** ** Sections *)
Definition now_ms : Program Z := act (fun _ w => (ok_or (w_clock w) runtime_failure, w)).
Definition model_call {A} (op : Tx ModelDb StoreError A) : Prog Input World (result StoreError A) :=
  act (fun _ w => let '(r, db) := op (w_models w) in (r, set_models db w)).
Definition audit_call (action outcome : string) (metadata : Value) : Prog Input World (result StoreError unit) :=
  act (fun e w => let '(r, db) := audit_event action outcome metadata (in_tick e) (w_runs w) in (r, set_runs db w)).

Definition map_store_error (error : StoreError) : HandlerFailure :=
  match error with
  | ModelOperationNotFound _ => not_found_failure
  | ModelOperationConflict => conflict_failure
  | ModelOperationCapacity =>
      mkHandlerFailure "resource_exhausted" "model operation ledger reached its bounded capacity"
  | InvalidInput _ => invalid_command_failure
  | _ => runtime_failure
  end.

Definition status (record : ModelOperationRecord) : V3OperationStatus :=
  mkOperationStatus (mo_operation_id record) (mo_model_id record)
    (match mo_state record with
     | MQueued => OpQueued
     | MRunning => OpRunning
     | MSucceeded => OpSucceeded
     | MFailed => OpFailed
     | MCancelled => OpCancelled
     end)
    (mo_progress_basis_points record).
Definition model_key (action : V3ModelAction) : ModelKey := (ac_model_id action, ac_revision action).

Fixpoint string_of_bytes (bs : list Z) : string :=
  match bs with [] => EmptyString | b :: r => String (Ascii.ascii_of_N (Z.to_N b)) (string_of_bytes r) end.
(** The first 256 characters. *)
Definition model_label (model_id architecture : string) : string :=
  string_of_bytes (concat (map encode_char (take 256 (chars (model_id +:+ " (" +:+ architecture +:+ ")"))))).

Definition parse_device (value : string) : result unit DevicePreference :=
  if bool_decide (value = "cpu") then Ok Cpu
  else if bool_decide (value = "metal") then Ok Metal
  else if bool_decide (value = "cuda") then Ok Cuda
  else Err tt.

Definition lifecycle_metadata (d : DevicePreference) (o : ModelOperationRecord) : Value :=
  VObject [("operation_id", VString (mo_operation_id o));
           ("model_id", VString (mo_model_id o));
           ("revision", VString (mo_revision o));
           ("kind", VString (kind_as_str (mo_kind o)));
           ("progress_basis_points", VNumber (mo_progress_basis_points o));
           ("requested_device", VString (device_as_str d));
           ("fallback_allowed", VBool false)].

Definition acquire_exact (model_id revision : string) : Program ModelKey :=
  let key := (model_id, revision) in
  act (fun _ w => if bool_decide (key ∈ w_active w) then (Err conflict_failure, w)
                  else (Ok key, set_active ({[key]} ∪ w_active w) w)).
Definition acquire_active (action : V3ModelAction) : Program ModelKey :=
  acquire_exact (ac_model_id action) (ac_revision action).
Definition release_active (key : ModelKey) : Prog Input World unit :=
  act (fun _ w => (tt, set_active (w_active w ∖ {[key]}) w)).

Context (binding : Binding).

Definition audit (operation : ModelOperationRecord) : Prog Input World (result StoreError unit) :=
  audit_call "v3_model_lifecycle" (mstate_as_str (mo_state operation)) (lifecycle_metadata (device binding) operation).
Definition audit_or_fail (operation : ModelOperationRecord) : Program unit :=
  let! r := audit operation in Done (map_err (fun _ => runtime_failure) r).

Definition create_operation (action : V3ModelAction) (kind : ModelOperationKind) : Program ModelOperationRecord :=
  try! now := now_ms in
  let! r := model_call (create_model_operation
              (mkNewModelOperation (ac_operation_id action) (ac_model_id action) (ac_revision action) kind now)) in
  Done (map_err map_store_error r).
Definition transition (operation_id : string) (state : ModelOperationState) (progress : Z)
    : Program ModelOperationRecord :=
  try! now := now_ms in
  let! r := model_call (transition_model_operation operation_id state progress now) in
  Done (map_err map_store_error r).

Definition validate_model_revision (model_id revision : string) : result HandlerFailure unit :=
  let? manifest := ok_or (registry_get binding model_id) not_found_failure in
  fail? negb (bool_decide (mf_revision manifest = revision)) with invalid_command_failure in
  Ok tt.
Definition validate_action (action : V3ModelAction) : result HandlerFailure unit :=
  let? _ := map_err (fun _ => invalid_command_failure) (V3ModelAction_validate action) in
  validate_model_revision (ac_model_id action) (ac_revision action).

(** ** Background work *)
Definition progress_of (index count : Z) : result unit Z :=
  fail? u32_max <? index + 1 with tt in
  fail? u32_max <? count with tt in
  let progress := (index + 1) * 10000 / count in
  fail? u16_max <? progress with tt in
  Ok progress.

Fixpoint download_each (operation_id : string) (index count : Z) (artifacts : list Artifact) : Attempt unit :=
  match artifacts with
  | [] => Done (Ok tt)
  | artifact :: rest =>
      let! arrived := act (fun e w => (in_fetch e artifact (max_artifact_bytes binding), w)) in
      if negb arrived then Done (Err tt)
      else match progress_of index count with
           | Err _ => Done (Err tt)
           | Ok progress =>
               try! _ := forget (transition operation_id MRunning progress) in
               download_each operation_id (index + 1) count rest
           end
  end.
Definition download_all (action : V3ModelAction) : Attempt unit :=
  try! _ := forget (transition (ac_operation_id action) MRunning 0) in
  match registry_get binding (ac_model_id action) with
  | None => Done (Err tt)
  | Some manifest =>
      download_each (ac_operation_id action) 0 (Z.of_nat (length (mf_artifacts manifest))) (mf_artifacts manifest)
  end.

Definition load_exact (action : V3ModelAction) : Attempt unit :=
  try! _ := forget (transition (ac_operation_id action) MRunning 0) in
  let key := model_key action in
  let! present := act (fun _ w => (bool_decide (is_Some (w_loaded w !! key)), w)) in
  if (present : bool) then Done (Err tt)
  else
    let! provider := act (fun e w => (in_load e (ac_model_id action) (principal binding) (device binding)
                                        (max_artifact_bytes binding), w)) in
    match provider with
    | None => Done (Err tt)
    | Some p => act (fun _ w => (Ok tt, set_loaded (<[key := p]> (w_loaded w)) w))
    end.

Definition finish_background (operation_id : string) (outcome : result unit unit) : Prog Input World unit :=
  let state := if is_ok outcome then MSucceeded else MFailed in
  let! progress :=
    (if is_ok outcome then Done 10000
     else let! found := model_call (model_operation operation_id) in
          Done (match found with Ok (Some record) => mo_progress_basis_points record | _ => 0 end)) in
  let! done := transition operation_id state progress in
  match done with
  | Ok record => let! _ := audit record in Done tt
  | Err _ => Done tt
  end.

Definition run_download (action : V3ModelAction) (active : ModelKey) : Prog Input World unit :=
  let! outcome := download_all action in
  let! _ := release_active active in
  finish_background (ac_operation_id action) outcome.
Definition run_load (action : V3ModelAction) (active : ModelKey) : Prog Input World unit :=
  let! outcome := load_exact action in
  let! _ := release_active active in
  finish_background (ac_operation_id action) outcome.

(** ** Handlers *)
Definition start (action : V3ModelAction) (kind : ModelOperationKind)
    (operation : V3ModelAction -> ModelKey -> Prog Input World unit) : Program V3Event :=
  try! active_key := acquire_active action in
  let! attempt := create_operation action kind in
  match attempt with
  | Err error => let! _ := release_active active_key in Done (Err error)
  | Ok created =>
      let! audited := audit created in
      if negb (is_ok audited) then
        let! _ := transition (mo_operation_id created) MFailed (mo_progress_basis_points created) in
        let! _ := release_active active_key in
        Done (Err runtime_failure)
      else
        let! spawned := spawn (operation action active_key) in
        if negb spawned then
          try! failed := transition (mo_operation_id created) MFailed (mo_progress_basis_points created) in
          try! _ := audit_or_fail failed in
          let! _ := release_active active_key in
          Done (Ok (EvModelStatus (status failed)))
        else Done (Ok (EvModelStatus (status created)))
  end.

Definition resolved (action : V3ModelAction) : result HandlerFailure unit :=
  let? _ := validate_action action in
  fail? negb (resolve_for binding (ac_model_id action) (principal binding)) with model_denied_failure in
  Ok tt.
Definition download (action : V3ModelAction) : Program V3Event :=
  try! _ := lift (resolved action) in
  start action Download run_download.
Definition load (action : V3ModelAction) : Program V3Event :=
  try! _ := lift (resolved action) in
  start action Load run_load.

Definition unload_held (action : V3ModelAction) : Program V3Event :=
  try! operation := create_operation action Unload in
  try! _ := audit_or_fail operation in
  try! _ := transition (mo_operation_id operation) MRunning 0 in
  let key := model_key action in
  let! removed := act (fun _ w => (bool_decide (is_Some (w_loaded w !! key)), set_loaded (delete key (w_loaded w)) w)) in
  let state := if (removed : bool) then MSucceeded else MFailed in
  let progress := if (removed : bool) then 10000 else 0 in
  try! terminal := transition (mo_operation_id operation) state progress in
  try! _ := audit_or_fail terminal in
  Done (Ok (EvModelStatus (status terminal))).
Definition unload (action : V3ModelAction) : Program V3Event :=
  try! _ := lift (validate_action action) in
  try! active_key := acquire_active action in
  let! outcome := unload_held action in
  let! _ := release_active active_key in
  Done outcome.

Definition cancel (action : V3Action) : Program V3Event :=
  try! _ := lift (map_err (fun _ => invalid_command_failure) (V3Action_validate action)) in
  let! found := model_call (model_operation (va_operation_id action)) in
  try! cur := lift (let? o := map_err map_store_error found in ok_or o not_found_failure) in
  try! updated := transition (va_operation_id action) MCancelled (mo_progress_basis_points cur) in
  let! _ := audit updated in
  Done (Ok (EvModelStatus (status updated))).

Definition download_status (query : V3ResourceQuery) : Program V3Event :=
  try! _ := lift (map_err (fun _ => invalid_command_failure) (V3ResourceQuery_validate query)) in
  let! found := model_call (model_operation (rq_resource_id query)) in
  lift (let? o := map_err (fun _ => runtime_failure) found in
        let? operation := ok_or o not_found_failure in
        match mo_kind operation with
        | Download => Ok (EvModelStatus (status operation))
        | Load | Unload => Err invalid_command_failure
        end).

(** The order of the keys of the [BTreeMap]. *)
Definition key_leb (a b : ModelKey) : bool :=
  if bool_decide (a.1 = b.1) then String.leb a.2 b.2 else String.leb a.1 b.1.
Definition entry_le (a b : ModelKey * LocalModelProvider) : Prop := key_leb a.1 b.1 = true.
#[export] Instance entry_le_dec : RelDecision entry_le.
Proof. intros a b. apply bool_eq_dec. Defined.
Definition loaded_in_order (loaded : gmap ModelKey LocalModelProvider) : list (ModelKey * LocalModelProvider) :=
  merge_sort entry_le (map_to_list loaded).

Definition loaded_status (query : V3ResourceQuery) (e : Input) (w : World) : result HandlerFailure V3Event :=
  let? entry := ok_or (List.find (fun p => bool_decide (p.1.1 = rq_resource_id query)) (loaded_in_order (w_loaded w)))
                  not_found_failure in
  let '(key, provider) := entry in
  let? report := map_err (fun _ => runtime_failure) (in_report e provider) in
  Ok (EvModelStatus (mkOperationStatus ("inference:" +:+ key.1) key.1
        (match report with Some _ => OpSucceeded | None => OpAvailable end)
        (match report with Some _ => 10000 | None => 0 end))).
Definition inference_status (query : V3ResourceQuery) : Program V3Event :=
  try! _ := lift (map_err (fun _ => invalid_command_failure) (V3ResourceQuery_validate query)) in
  let! found := model_call (model_operation (rq_resource_id query)) in
  match found with
  | Err _ => Done (Err runtime_failure)
  | Ok (Some operation) =>
      match mo_kind operation with
      | Download => Done (Err invalid_command_failure)
      | Load | Unload => Done (Ok (EvModelStatus (status operation)))
      end
  | Ok None => act (fun e w => (loaded_status query e w, w))
  end.

Definition inventory : list V3EntityRecord :=
  omap (fun model_id => match registry_get binding model_id with
                        | Some manifest =>
                            Some (mkEntityRecord model_id (model_label model_id (mf_architecture manifest)) OpAvailable)
                        | None => None
                        end) (registry_ids binding).

Definition details (query : V3ResourceQuery) : Program V3Event :=
  try! _ := lift (map_err (fun _ => invalid_command_failure) (V3ResourceQuery_validate query)) in
  try! manifest := lift (ok_or (registry_get binding (rq_resource_id query)) not_found_failure) in
  let! loaded := act (fun _ w => (bool_decide (is_Some (w_loaded w !! (rq_resource_id query, mf_revision manifest))), w)) in
  let d := mkModelDetails (rq_resource_id query) (mf_revision manifest) (mf_architecture manifest)
             (model_device (device binding)) (mf_license_sha256 manifest)
             (is_accepted_for binding manifest (principal binding)) loaded in
  try! _ := lift (map_err (fun _ => invalid_command_failure) (V3ModelDetails_validate d)) in
  Done (Ok (EvModelDetails d)).

(** ** Inference *)
Definition audit_inference (r : V3ModelInferenceResult) : Prog Input World (result StoreError unit) :=
  audit_call "v3_model_inference" "succeeded" (inference_metadata r).

Definition infer_locked (request : V3ModelInferenceRequest) : Program V3Event :=
  try! provider := act (fun _ w => (ok_or (w_loaded w !! (iq_model_id request, iq_revision request)) not_found_failure, w)) in
  let! run := act (fun e w => (in_run e provider (iq_model_id request) (iq_prompt request)
                                 (iq_max_output_tokens request) (exact_budget (iq_max_output_tokens request)), w)) in
  try! report := lift (run_exact_provider (iq_model_id request) run) in
  try! found := act (fun e w => (map_err (fun _ => runtime_failure) (in_report e provider), w)) in
  try! evidence := lift (ok_or found runtime_failure) in
  try! answer := lift (inference_result request report evidence (load_report provider)) in
  let! audited := audit_inference answer in
  try! _ := lift (map_err (fun _ => runtime_failure) audited) in
  Done (Ok (EvModelInference answer)).

Definition infer (request : V3ModelInferenceRequest) : Program V3Event :=
  try! _ := lift (map_err (fun _ => invalid_command_failure) (InferenceRequest_validate request)) in
  try! _ := lift (validate_model_revision (iq_model_id request) (iq_revision request)) in
  try! active := acquire_exact (iq_model_id request) (iq_revision request) in
  let! outcome := infer_locked request in
  let! _ := release_active active in
  Done outcome.

(** ** The daemon: any number of handlers and background threads *)

(** The commands of [V3Command] that the dispatcher hands to this component. *)
Inductive ModelCommand :=
| DownloadModel (action : V3ModelAction)
| LoadModel (action : V3ModelAction)
| UnloadModel (action : V3ModelAction)
| CancelModel (action : V3Action)
| DownloadStatus (query : V3ResourceQuery)
| InferenceStatus (query : V3ResourceQuery)
| ModelDetails (query : V3ResourceQuery)
| InferModel (request : V3ModelInferenceRequest).

Definition handle (command : ModelCommand) : Program V3Event :=
  match command with
  | DownloadModel action => download action
  | LoadModel action => load action
  | UnloadModel action => unload action
  | CancelModel action => cancel action
  | DownloadStatus query => download_status query
  | InferenceStatus query => inference_status query
  | ModelDetails query => details query
  | InferModel request => infer request
  end.

(** How a thread ends: with an answer, or as a job. *)
Inductive Reply := Answered (answer : result HandlerFailure V3Event) | JobEnded.

Definition serve (command : ModelCommand) : Prog Input World Reply :=
  let! answer := handle command in Done (Answered answer).

(** An event of the daemon: a command arrives, a thread makes a step, the system
    clock changes. *)
Inductive DaemonEvent :=
| Arrives (command : ModelCommand)
| Runs (thread : nat) (input : Input)
| ClockIs (clock : option Z).
Definition pool_event_of (ev : DaemonEvent) : pool_event Input World (option Z) Reply :=
  match ev with
  | Arrives command => Request (serve command)
  | Runs thread input => Step thread input
  | ClockIs clock => Outside clock
  end.
Definition Daemon : Type := Pool Input World Reply.
Definition daemon_step (ev : DaemonEvent) : Daemon -> Daemon := pool_step in_spawn set_clock JobEnded (pool_event_of ev).
Definition daemon_run (evs : list DaemonEvent) (d : Daemon) : Daemon := foldl (fun d ev => daemon_step ev d) d evs.
End Lifecycle.
End Lifecycle.
