(* ===== verification/ModelInferenceProps.v ===== *)
(** * Properties of exact-model inference

    A result belongs to one request, and only complete, native, bounded runs of
    the requested model become results. *)
From stdpp Require Import base list strings.
From Stdlib Require Import ZArith Lia.
From S2P Require Import Prelude RustStr Framing External Digest RunContract StoreBase AuditMetadata AssistantContent RunStore Provider ModelInference ProviderProps.
Import Provider Inference.

Open Scope Z_scope.
Open Scope rust_scope.

(** ** The encoding of digest material *)
Lemma be_bytes_length w n : length (be_bytes w n) = w.
Proof. revert n. induction w as [|w IH]; intros n; [done|]. simpl. rewrite length_app, IH. simpl. lia. Qed.

Lemma be_bytes_inj w : forall n m, 0 <= n < 256 ^ Z.of_nat w -> 0 <= m < 256 ^ Z.of_nat w ->
  be_bytes w n = be_bytes w m -> n = m.
Proof.
  induction w as [|w IH]; intros n m Hn Hm; [simpl in *; lia|].
  rewrite Nat2Z.inj_succ, Z.pow_succ_r in Hn, Hm by lia. simpl. intros [H1 H2]%app_inj_tail.
  apply IH in H1; Z.div_mod_to_equations; lia.
Qed.

Lemma digest_field_inj a b x y :
  Z.of_nat (length a) <= u64_max -> Z.of_nat (length b) <= u64_max ->
  digest_field a ++ x = digest_field b ++ y -> a = b /\ x = y.
Proof.
  unfold digest_field. intros Ha Hb. rewrite <- !(assoc_L (++)). intros [H1 H2]%app_inj_1; [|by rewrite !be_bytes_length].
  assert (length a = length b) as Hlen.
  { apply be_bytes_inj in H1; [lia|..]; unfold u64_max in *; simpl; lia. }
  by apply app_inj_1 in H2.
Qed.

Section Props.
Context `{DigestLaws} `{InferenceJson}.

Lemma request_material_inj m1 r1 p1 t1 m2 r2 p2 t2 :
  slen m1 <= u64_max -> slen r1 <= u64_max -> slen p1 <= u64_max ->
  slen m2 <= u64_max -> slen r2 <= u64_max -> slen p2 <= u64_max -> is_u16 t1 -> is_u16 t2 ->
  request_material m1 r1 p1 t1 = request_material m2 r2 p2 t2 -> m1 = m2 /\ r1 = r2 /\ p1 = p2 /\ t1 = t2.
Proof.
  unfold request_material, is_u16, u16_max. intros Hm1 Hr1 Hp1 Hm2 Hr2 Hp2 Ht1 Ht2 Heq.
  apply app_inv_head in Heq.
  apply digest_field_inj in Heq as [Ha Heq]; [|by rewrite <- slen_bytes..].
  apply digest_field_inj in Heq as [Hb Heq]; [|by rewrite <- slen_bytes..].
  apply digest_field_inj in Heq as [Hc Heq]; [|by rewrite <- slen_bytes..].
  apply be_bytes_inj in Heq; [|simpl; lia..].
  auto using bytes_inj.
Qed.

Lemma request_valid q :
  InferenceRequest_validate q = Ok tt ->
  slen (iq_model_id q) <= MAX_ID_BYTES /\ slen (iq_revision q) <= MAX_ID_BYTES
  /\ slen (iq_prompt q) <= MAX_V3_MODEL_PROMPT_BYTES /\ iq_max_output_tokens q <= MAX_V3_MODEL_OUTPUT_TOKENS
  /\ iq_request_digest q = computed_digest q.
Proof.
  unfold InferenceRequest_validate, validate_id.
  destruct (validate_identifier (iq_model_id q) _ _) as [[]|] eqn:Hm; [|done].
  destruct (validate_identifier (iq_revision q) _ _) as [[]|] eqn:Hr; [|done].
  apply validate_identifier_ok in Hm, Hr.
  destruct (bool_decide _ || _ || _) eqn:Hp; [done|]. destruct ((_ =? 0) || _) eqn:Ht; [done|].
  destruct (validate_digest _) as [[]|]; [|done]. destruct (negb _) eqn:Hd; [done|]. bools. intros _.
  destruct Hm as (_ & ? & _), Hr as (_ & ? & _). auto.
Qed.

Lemma result_for r q :
  InferenceResult_validate_for r q = Ok tt ->
  InferenceRequest_validate q = Ok tt /\ InferenceResult_validate r = Ok tt
  /\ ir_model_id r = iq_model_id q /\ ir_revision r = iq_revision q
  /\ ir_request_digest r = iq_request_digest q /\ ir_requested_output_tokens r = iq_max_output_tokens q.
Proof.
  unfold InferenceResult_validate_for.
  destruct (InferenceRequest_validate q) as [[]|]; [|done].
  destruct (InferenceResult_validate r) as [[]|]; [|done]. destruct (_ || _) eqn:Hb; [done|]. bools. auto 10.
Qed.

Lemma result_valid r :
  InferenceResult_validate r = Ok tt ->
  slen (ir_output r) <= MAX_V3_MODEL_OUTPUT_BYTES /\ ir_output_tokens r <= ir_requested_output_tokens r
  /\ ir_requested_output_tokens r <= MAX_V3_MODEL_OUTPUT_TOKENS
  /\ ir_requested_device r = ir_executed_device r /\ ir_native_operations r <> 0
  /\ ir_fallback_used r = false /\ ir_mixed_execution r = false
  /\ ir_output_digest r = computed_output_digest r.
Proof.
  unfold InferenceResult_validate.
  destruct (validate_id (ir_model_id r)) as [[]|]; [|done].
  destruct (validate_id (ir_revision r)) as [[]|]; [|done].
  destruct (validate_digest (ir_request_digest r)) as [[]|]; [|done].
  destruct (validate_digest (ir_output_digest r)) as [[]|]; [|done].
  destruct (_ || _) eqn:Hb; [done|]. bools. auto 10.
Qed.

(** An inference result answers one request: when a result passes the check
    against two requests whose digests do not collide, they are the same request,
    prompt and token limit included. *)
Theorem result_answers_one_request (r : V3ModelInferenceResult) (q1 q2 : V3ModelInferenceRequest) :
  is_u16 (iq_max_output_tokens q1) -> is_u16 (iq_max_output_tokens q2) ->
  collision_free (fun m => m = request_material (iq_model_id q1) (iq_revision q1) (iq_prompt q1) (iq_max_output_tokens q1)
                        \/ m = request_material (iq_model_id q2) (iq_revision q2) (iq_prompt q2) (iq_max_output_tokens q2)) ->
  InferenceResult_validate_for r q1 = Ok tt -> InferenceResult_validate_for r q2 = Ok tt -> q1 = q2.
Proof.
  intros Ht1 Ht2 Hcf (Hv1 & _ & _ & _ & Hd1 & _)%result_for (Hv2 & _ & _ & _ & Hd2 & _)%result_for.
  apply request_valid in Hv1 as (? & ? & ? & _ & Hc1), Hv2 as (? & ? & ? & _ & Hc2).
  assert (request_material (iq_model_id q1) (iq_revision q1) (iq_prompt q1) (iq_max_output_tokens q1)
          = request_material (iq_model_id q2) (iq_revision q2) (iq_prompt q2) (iq_max_output_tokens q2)) as Hm.
  { eapply rendered_digest_inj; [exact Hcf|by left|by right|]. unfold computed_digest in *. congruence. }
  unfold MAX_ID_BYTES, MAX_V3_MODEL_PROMPT_BYTES, MAX_APP_FRAME_BYTES in *.
  apply request_material_inj in Hm as (? & ? & ? & ?); [|unfold u64_max; (lia || done)..].
  destruct q1, q2; simpl in *; congruence.
Qed.

(** ** Runs *)
(** The sink accepts the streams the sink of a run route accepts. *)
Lemma exact_is_boundary model es : forall s, foldl (exact_emit model) s es = foldl (boundary_emit model) s es.
Proof. induction es as [|e es IH]; intros s; [done|]. simpl. rewrite IH. by destruct e. Qed.

Lemma exact_stream model es :
  exact_valid (foldl (exact_emit model) sink_new es) = true <->
  exists texts, es = EvStarted model :: map EvTextDelta texts ++ [EvFinished].
Proof.
  rewrite exact_is_boundary, <- accepted_stream. unfold exact_valid, sink_validate. by destruct (_ && _).
Qed.

(** A run is accepted exactly when it completed within its budget, its text
    was captured whole and has at most 32 KiB, and its events are a start of this
    model, texts and an end; a result made of it is bound to the request, carries
    that text, is backed by evidence of the same model and counts, was executed
    natively on the requested device and stays within the token limit. *)
Theorem inference_is_exact (q : V3ModelInferenceRequest) (run : list ModelEvent * option RunReport)
    (evidence : InferenceEvidence) (load : LoadReport) :
  (forall report,
     run_exact_provider (iq_model_id q) run = Ok report <->
     run.2 = Some report /\ rr_stop report = StopCompleted /\ rr_truncated report = false
     /\ slen (rr_text report) <= MAX_V3_MODEL_OUTPUT_BYTES
     /\ exists texts, run.1 = EvStarted (iq_model_id q) :: map EvTextDelta texts ++ [EvFinished])
  /\ (forall report r,
     inference_result q report evidence load = Ok r ->
     InferenceResult_validate_for r q = Ok tt /\ ir_output r = rr_text report
     /\ ir_output_digest r = computed_output_digest r
     /\ lr_model_id load = iq_model_id q /\ lr_revision load = iq_revision q /\ en_model_id evidence = iq_model_id q
     /\ en_executed evidence = true /\ en_runtime_verified evidence = true
     /\ ir_prompt_tokens r = usize_of_u64 (rr_input_tokens report)
     /\ ir_output_tokens r = usize_of_u64 (rr_output_tokens report)
     /\ ir_output_tokens r <= iq_max_output_tokens q
     /\ executed_device (en_executed_path evidence) = model_device (en_requested_device evidence)
     /\ en_native_operations evidence <> 0 /\ en_fallback_used evidence = false /\ en_mixed_execution evidence = false).
Proof.
  split.
  - intros report. unfold run_exact_provider. destruct (run.2) as [rep|]; simpl; [|by split; intros; deex].
    destruct (is_budget_exhausted (rr_stop rep)) eqn:Hb.
    + split; [done|]. intros ([= ->] & Hs & _). by rewrite Hs in Hb.
    + rewrite <- exact_stream. destruct (exact_valid _); destruct (is_completed (rr_stop rep)) eqn:Hc;
        destruct (rr_truncated rep) eqn:Htr; destruct (Z.ltb_spec MAX_V3_MODEL_OUTPUT_BYTES (slen (rr_text rep)));
        simpl; (split; [intros [= <-]|intros ([= ->] & Hs & Ht' & Hl & Hv)]);
        try rewrite Hs in Hc; try done; try congruence; try lia.
      by destruct (rr_stop rep).
  - intros report r. unfold inference_result. destruct (_ || _) eqn:Hb; [done|]. unfold u32_try_from.
    destruct (_ <=? u32_max); [|done]. destruct (_ <=? u32_max); [|done].
    destruct (InferenceResult_validate_for _ q) as [[]|] eqn:Hv; [|done]. simpl. intros [= <-].
    pose proof (result_for _ _ Hv) as (_ & Hr & _ & _ & _ & Hmax).
    apply result_valid in Hr as (_ & Htok & _ & Hdev & Hnat & Hfb & Hmix & Hod).
    simpl in *. bools. auto 20.
Qed.
End Props.
