(* ===== verification/ModelKeys.v ===== *)
(** * Busy revisions and loaded models

    The first instance of the logic of [Threads] for the model lifecycle: a thread
    owns the revision it marked busy and what it has read of the table of loaded
    models there. *)
From stdpp Require Import base list gmap strings.
From Stdlib Require Import ZArith Lia.
From S2P Require Import Prelude RustStr External Digest RunContract StoreBase AssistantContent RunStore ModelOperation Provider Threads ModelInference ModelLifecycle.
Import Model Inference Lifecycle.

Open Scope Z_scope.
Open Scope rust_scope.
Open Scope prog_scope.

Section Keys.
Context {ext : External} {dig : Digest} {inf : InferenceJson} {crates : ModelCrates}.
Context (binding : Binding) (Can : Input -> Prop).

(** ** Programs that leave both tables alone *)
Definition same_tables (w w' : World) : Prop := w_active w' = w_active w /\ w_loaded w' = w_loaded w.
Abbreviation quiet := (leaves same_tables).
Lemma quiet_model {A} (op : Tx ModelDb StoreError A) : quiet (model_call op).
Proof. apply leaves_act. intros e w. by destruct (op (w_models w)). Qed.
Lemma quiet_audit action outcome metadata : quiet (audit_call action outcome metadata).
Proof. apply leaves_act. intros e w. by destruct (audit_event _ _ _ _ _). Qed.
Lemma quiet_now : quiet now_ms.
Proof. by apply leaves_act. Qed.
Lemma quiet_lift {A} (r : result HandlerFailure A) : quiet (lift r).
Proof. done. Qed.
Lemma quiet_audit_record o : quiet (audit binding o).
Proof. apply quiet_audit. Qed.
#[local] Hint Resolve quiet_model quiet_audit quiet_audit_record quiet_now quiet_lift : core.

Lemma quiet_transition id s p : quiet (transition id s p).
Proof. apply leaves_try; [done|]. intros now. by apply leaves_bind. Qed.
Lemma quiet_create action kind : quiet (create_operation action kind).
Proof. apply leaves_try; [done|]. intros now. by apply leaves_bind. Qed.
Lemma quiet_audit_or_fail o : quiet (audit_or_fail binding o).
Proof. by apply leaves_bind. Qed.
#[local] Hint Resolve quiet_transition quiet_create quiet_audit_or_fail : core.

Lemma quiet_download_each id artifacts : forall index count, quiet (download_each binding id index count artifacts).
Proof.
  induction artifacts as [|a rest IH]; intros index count; [done|]. apply leaves_bind; [by apply leaves_act|].
  intros [|]; cbn [negb]; [|done]. destruct (progress_of _ _); [|done].
  apply leaves_bind; [by apply leaves_bind|]. intros [u|u]; [apply IH|done].
Qed.
Lemma quiet_download_all action : quiet (download_all binding action).
Proof.
  apply leaves_bind; [by apply leaves_bind|]. intros [u|u]; [|done].
  destruct (registry_get _ _); [apply quiet_download_each|done].
Qed.
Lemma quiet_finish_background id outcome : quiet (finish_background binding id outcome).
Proof.
  apply leaves_bind; [destruct (is_ok outcome); [done|by apply leaves_bind]|]. intros progress.
  apply leaves_bind; [done|]. intros [record|]; [|done]. by apply leaves_bind.
Qed.
Lemma quiet_infer_locked request : quiet (infer_locked request).
Proof.
  apply leaves_try; [by apply leaves_act|]. intros provider. apply leaves_bind; [by apply leaves_act|]. intros run.
  apply leaves_try; [done|]. intros report. apply leaves_try; [by apply leaves_act|]. intros found.
  apply leaves_try; [done|]. intros evidence. apply leaves_try; [done|]. intros answer.
  apply leaves_bind; [apply quiet_audit|]. intros audited. by apply leaves_try.
Qed.

Lemma quiet_cancel action : quiet (cancel binding action).
Proof.
  apply leaves_try; [done|]. intros []. apply leaves_bind; [done|]. intros found. apply leaves_try; [done|].
  intros cur. apply leaves_try; [done|]. intros updated. by apply leaves_bind.
Qed.
Lemma quiet_download_status query : quiet (download_status query).
Proof. apply leaves_try; [done|]. intros []. by apply leaves_bind. Qed.
Lemma quiet_inference_status query : quiet (inference_status query).
Proof.
  apply leaves_try; [done|]. intros []. apply leaves_bind; [done|].
  intros [[o|]|]; [by destruct (mo_kind o)|by apply leaves_act|done].
Qed.
Lemma quiet_details query : quiet (details binding query).
Proof.
  apply leaves_try; [done|]. intros []. apply leaves_try; [done|]. intros manifest.
  apply leaves_bind; [by apply leaves_act|]. intros loaded. by apply leaves_try.
Qed.

(** ** Ownership *)

(** The revision a thread holds, and whether it has seen it loaded. *)
Definition Held : Type := option (ModelKey * option bool).
Definition held_key (g : Held) : option ModelKey := fst <$> g.
Definition seen_right (loaded : gmap ModelKey LocalModelProvider) (g : Held) : Prop :=
  match g with Some (k, Some b) => bool_decide (is_Some (loaded !! k)) = b | _ => True end.

Definition keys_inv (w : World) (gs : list Held) : Prop :=
  elements (w_active w) ≡ₚ omap held_key gs /\ Forall (seen_right (w_loaded w)) gs.
(** Only a held revision is loaded or unloaded, and a loaded model is not replaced. *)
Definition keys_guar (w w' : World) : Prop :=
  forall k, w_loaded w' !! k <> w_loaded w !! k ->
  k ∈ w_active w /\ (w_loaded w !! k = None \/ w_loaded w' !! k = None).

(** A thread may end with a revision only when no thread could be created. *)
Definition spawn_may_fail : Prop := exists e, Can e /\ in_spawn e = false.
Definition released {A} (_ : A) (g : Held) : Prop := spawn_may_fail \/ g = None.

Abbreviation kwp := (wp in_spawn Can keys_inv keys_guar (fun g : Held => g = None)).

Lemma keys_guar_same w w' : w_loaded w' = w_loaded w -> keys_guar w w'.
Proof. intros Heq k. by rewrite Heq. Qed.

Lemma held_active w k s gs : keys_inv w (Some (k, s) :: gs) -> k ∈ w_active w.
Proof. intros [Hp _]. apply elem_of_elements. rewrite Hp. simpl. left. Qed.

(** Nobody else holds the revision of a thread. *)
Lemma held_once w k s gs : keys_inv w (Some (k, s) :: gs) -> k ∉ omap held_key gs.
Proof.
  intros [Hp _]. pose proof (NoDup_elements (w_active w)) as Hnd. rewrite Hp in Hnd. simpl in Hnd.
  by apply NoDup_cons in Hnd as [? _].
Qed.

Lemma others_seen w k s gs loaded' :
  keys_inv w (Some (k, s) :: gs) -> (forall k', k' <> k -> loaded' !! k' = w_loaded w !! k') ->
  Forall (seen_right loaded') gs.
Proof.
  intros Hi Hl. pose proof (held_once _ _ _ _ Hi) as Hk. destruct Hi as [_ Hs]. apply Forall_cons in Hs as [_ Hs].
  apply Forall_forall. intros [[k' [b|]]|] Hg; simpl; [|done..]. rewrite Hl.
  - by apply (proj1 (Forall_forall _ _) Hs (Some (k', Some b))).
  - intros ->. apply Hk. apply list_elem_of_omap. by exists (Some (k, Some b)).
Qed.

Lemma same_tables_inv w w' gs : same_tables w w' -> keys_inv w gs -> keys_inv w' gs /\ keys_guar w w'.
Proof. intros [Ha Hl] Hi. split; [|by apply keys_guar_same]. unfold keys_inv. by rewrite Ha, Hl. Qed.
Lemma kwp_then {A B} (p : Prog Input World A) (h : A -> Prog Input World B) (Q : B -> Held -> Prop) g :
  quiet p -> (forall a, kwp (h a) Q g) -> kwp (pbind p h) Q g.
Proof. apply wp_then, same_tables_inv. Qed.
Lemma kwp_last {A} (p : Prog Input World A) (Q : A -> Held -> Prop) g :
  quiet p -> (forall a, Q a g) -> kwp p Q g.
Proof. intros Hp HQ. eapply wp_mono; [|eapply wp_leaves, Hp; apply same_tables_inv]. by intros a g' ->. Qed.

Lemma kwp_acquire model_id revision (Q : result HandlerFailure ModelKey -> Held -> Prop) :
  Q (Ok (model_id, revision)) (Some ((model_id, revision), None)) -> Q (Err conflict_failure) None ->
  kwp (acquire_exact model_id revision) Q None.
Proof.
  intros H1 H2. apply wp_act. intros e w gs _ [Hp Hs]. cbv beta zeta. case_bool_decide as Hin; simpl.
  - exists None. split; [done|]. split; [by apply keys_guar_same|done].
  - eexists. split; [|split; [by apply keys_guar_same|exact H1]]. split; simpl.
    + rewrite elements_union_singleton by done. by f_equiv.
    + apply Forall_cons in Hs as [_ Hs]. by constructor.
Qed.
Lemma kwp_release k s (Q : unit -> Held -> Prop) :
  Q tt None -> kwp (release_active k) Q (Some (k, s)).
Proof.
  intros HQ. apply wp_act. intros e w gs _ Hi. exists None. split; [|split; [by apply keys_guar_same|done]].
  pose proof (held_once _ _ _ _ Hi) as Hk. destruct Hi as [Hp Hs]. split; simpl.
  - assert (w_active w = {[k]} ∪ (w_active w ∖ {[k]})) as Heq.
    { apply union_difference_L, singleton_subseteq_l, elem_of_elements. rewrite Hp. simpl. left. }
    rewrite Heq, elements_union_singleton in Hp by (clear; set_solver). simpl in Hp.
    by apply Permutation_cons_inv in Hp.
  - apply Forall_cons in Hs as [_ Hs]. by constructor.
Qed.
Lemma kwp_look k s (Q : bool -> Held -> Prop) :
  (forall b, Q b (Some (k, Some b))) ->
  kwp (act (fun _ w => (bool_decide (is_Some (w_loaded w !! k)), w))) Q (Some (k, s)).
Proof.
  intros HQ. apply wp_act. intros e w gs _ [Hp Hs]. eexists. split; [|split; [by apply keys_guar_same|apply HQ]].
  apply Forall_cons in Hs as [_ Hs]. by split; [|constructor].
Qed.
Lemma kwp_insert k provider (Q : result unit unit -> Held -> Prop) :
  Q (Ok tt) (Some (k, None)) ->
  kwp (act (fun _ w => (Ok tt, set_loaded (<[k := provider]> (w_loaded w)) w))) Q (Some (k, Some false)).
Proof.
  intros HQ. apply wp_act. intros e w gs _ Hi. exists (Some (k, None)). split; [|split; [|done]].
  - split; [apply Hi|]. constructor; [done|]. eapply others_seen; [exact Hi|]. simpl. intros k' Hk'.
    by rewrite lookup_insert_ne.
  - intros k' Hk'. simpl in *. destruct (decide (k' = k)) as [->|Hne]; [|by rewrite lookup_insert_ne in Hk'].
    split; [by eapply held_active|]. left. destruct Hi as [_ Hs]. apply Forall_cons in Hs as [Hs _]. simpl in Hs.
    apply bool_decide_eq_false in Hs. by destruct (w_loaded w !! k); [destruct Hs|].
Qed.
Lemma kwp_remove k s (Q : bool -> Held -> Prop) :
  (forall b, Q b (Some (k, None))) ->
  kwp (act (fun _ w => (bool_decide (is_Some (w_loaded w !! k)), set_loaded (delete k (w_loaded w)) w))) Q (Some (k, s)).
Proof.
  intros HQ. apply wp_act. intros e w gs _ Hi. exists (Some (k, None)). split; [|split; [|apply HQ]].
  - split; [apply Hi|]. constructor; [done|]. eapply others_seen; [exact Hi|]. simpl. intros k' Hk'.
    by rewrite lookup_delete_ne.
  - intros k' Hk'. simpl in *. destruct (decide (k' = k)) as [->|Hne]; [|by rewrite lookup_delete_ne in Hk'].
    split; [by eapply held_active|]. right. apply lookup_delete_eq.
Qed.

(** ** The threads *)
Lemma kwp_run_download action s :
  kwp (run_download binding action (model_key action)) (fun _ g => g = None) (Some (model_key action, s)).
Proof.
  apply kwp_then; [apply quiet_download_all|]. intros outcome. apply wp_bind, kwp_release.
  by apply kwp_last; [apply quiet_finish_background|].
Qed.
Lemma kwp_run_load action s :
  kwp (run_load binding action (model_key action)) (fun _ g => g = None) (Some (model_key action, s)).
Proof.
  apply wp_bind.
  assert (forall a s, kwp (let! _ := release_active (model_key action) in
            finish_background binding (ac_operation_id action) a) (fun _ g => g = None)
            (Some (model_key action, s))) as Hany.
  { intros a s'. apply wp_bind, kwp_release. by apply kwp_last; [apply quiet_finish_background|]. }
  unfold load_exact. apply kwp_then; [by apply leaves_bind|]. intros [u|u]; [|apply Hany].
  apply wp_bind, kwp_look. intros [|]; [apply Hany|]. apply kwp_then; [by apply leaves_act|].
  intros [provider|]; [|apply Hany]. apply kwp_insert, Hany.
Qed.

Lemma kwp_start action kind operation :
  (forall s, kwp (operation action (model_key action)) (fun _ g => g = None) (Some (model_key action, s))) ->
  kwp (start binding action kind operation) released None.
Proof.
  intros Hjob. apply wp_bind, kwp_acquire; [|by right]. apply kwp_then; [done|].
  intros [created|error]; [|apply wp_bind, kwp_release; by right].
  apply kwp_then; [apply quiet_audit|]. intros [u|u]; cbn [is_ok negb].
  - apply wp_bind. split.
    + intros Hf. cbn [negb]. apply kwp_then; [done|]. intros [failed|]; [|by left].
      apply kwp_then; [done|]. intros [u'|]; [|by left]. apply wp_bind, kwp_release. by right.
    + exists None, (Some (model_key action, None)). split; [|split; [apply Hjob|by right]].
      intros w gs [Hp Hs]. split; [done|]. by constructor.
  - apply kwp_then; [done|]. intros r. apply wp_bind, kwp_release. by right.
Qed.

Lemma kwp_unload action : kwp (unload binding action) released None.
Proof.
  apply kwp_then; [done|]. intros [u|error]; [|by right]. apply wp_bind, kwp_acquire; [|by right].
  apply wp_bind.
  assert (forall (a : result HandlerFailure V3Event) s, kwp (let! _ := release_active (model_key action) in Done a)
            released (Some (model_key action, s))) as Hrel by (intros a s; apply wp_bind, kwp_release; by right).
  unfold unload_held.
  apply kwp_then; [done|]. intros [operation|error]; [|apply Hrel].
  apply kwp_then; [done|]. intros [u'|error]; [|apply Hrel].
  apply kwp_then; [done|]. intros [running|error]; [|apply Hrel].
  apply wp_bind, kwp_remove. intros removed.
  apply kwp_then; [done|]. intros [terminal|error]; [|apply Hrel].
  apply kwp_then; [done|]. intros [u''|error]; apply Hrel.
Qed.

Lemma kwp_infer request : kwp (infer binding request) released None.
Proof.
  apply kwp_then; [done|]. intros [u|error]; [|by right].
  apply kwp_then; [done|]. intros [u'|error]; [|by right].
  apply wp_bind, kwp_acquire; [|by right].
  apply kwp_then; [apply quiet_infer_locked|]. intros outcome. apply wp_bind, kwp_release. by right.
Qed.

Lemma kwp_handle command : kwp (handle binding command) released None.
Proof.
  destruct command as [action|action|action|action|query|query|query|request]; simpl handle.
  - apply kwp_then; [done|]. intros [u|error]; [|by right]. apply kwp_start, kwp_run_download.
  - apply kwp_then; [done|]. intros [u|error]; [|by right]. apply kwp_start, kwp_run_load.
  - apply kwp_unload.
  - apply kwp_last; [apply quiet_cancel|by right].
  - apply kwp_last; [apply quiet_download_status|by right].
  - apply kwp_last; [apply quiet_inference_status|by right].
  - apply kwp_last; [apply quiet_details|by right].
  - apply kwp_infer.
Qed.

Lemma kwp_serve command : kwp (serve binding command) released None.
Proof. apply wp_bind. eapply wp_mono; [|apply kwp_handle]. done. Qed.

(** ** The daemon *)
Lemma keys_inv_perm w gs gs' : gs ≡ₚ gs' -> keys_inv w gs -> keys_inv w gs'.
Proof. intros Hp [H1 H2]. split; by rewrite <- Hp. Qed.
Lemma keys_inv_idle w gs : keys_inv w gs -> keys_inv w (None :: gs).
Proof. intros [H1 H2]. by split; [|constructor]. Qed.

Definition can_event (ev : DaemonEvent) : Prop := match ev with Runs _ input => Can input | _ => True end.
Definition keys_ok (d : Daemon) : Prop :=
  pool_ok in_spawn Can keys_inv keys_guar (fun g : Held => g = None) released d.

Lemma keys_step ev d :
  can_event ev -> keys_ok d ->
  keys_ok (daemon_step binding ev d)
  /\ (forall thread input, ev = Runs thread input -> keys_guar d.1 (daemon_step binding ev d).1).
Proof.
  intros Hev Hd. unfold daemon_step.
  destruct (step_ok in_spawn set_clock JobEnded Can (fun _ _ => True) keys_inv keys_guar None
              (fun g : Held => g = None) released keys_inv_perm keys_inv_idle)
    with (ev := pool_event_of binding ev) (c := d) as [H1 H2].
  - by intros c w gs _ [? ?].
  - intros w. by apply keys_guar_same.
  - intros g ->. by right.
  - destruct ev; [apply kwp_serve|done|done].
  - done.
  - split; [done|]. intros thread input ->. by apply (H2 thread input).
Qed.

Lemma keys_run evs d : Forall can_event evs -> keys_ok d -> keys_ok (daemon_run binding evs d).
Proof.
  intros Hevs. revert d. induction Hevs as [|ev evs Hev _ IH]; intros d Hd; [done|].
  simpl. apply IH. by apply keys_step.
Qed.

Lemma keys_start w : w_active w = ∅ -> keys_ok (w, []).
Proof. intros Ha. exists []. split; [|done]. split; [|done]. simpl. by rewrite Ha. Qed.
End Keys.

Section Properties.
Context {ext : External} {dig : Digest} {inf : InferenceJson} {crates : ModelCrates}.
Implicit Types (binding : Binding) (evs : list DaemonEvent) (w : World).

(** C19: whatever commands arrive and however their threads interleave, a step
    changes which provider is loaded for a model revision only while that revision
    is marked busy, and it loads where nothing was loaded or unloads: a loaded
    model is never replaced by another. *)
Theorem loaded_models_are_never_replaced binding evs w (thread : nat) (input : Input) (key : ModelKey) :
  w_active w = ∅ ->
  let d := daemon_run binding evs (w, []) in
  let d' := daemon_step binding (Runs thread input) d in
  w_loaded d'.1 !! key <> w_loaded d.1 !! key ->
  key ∈ w_active d.1 /\ (w_loaded d.1 !! key = None \/ w_loaded d'.1 !! key = None).
Proof.
  intros Hw d d' Hne.
  assert (keys_ok (fun _ => True) d) as Hd.
  { apply keys_run; [|by apply keys_start]. apply Forall_forall. by intros []. }
  destruct (keys_step binding (fun _ => True) (Runs thread input) d I Hd) as [_ HG].
  by apply (HG thread input).
Qed.

(** No schedule keeps the daemon busy for ever: the threads of any commands
    come to an end, whatever the crates return and the clock shows, and when they
    have ended no revision is left busy, provided the system could create the
    threads it was asked for. *)
Theorem threads_end_and_free_their_models binding evs w :
  w_active w = ∅ -> Forall (can_event (fun input => in_spawn input = true)) evs ->
  let d := daemon_run binding evs (w, []) in
  Acc (pool_advances (D := option Z) in_spawn set_clock JobEnded) d
  /\ (Forall (fun p => finished p = true) d.2 -> w_active d.1 = ∅).
Proof.
  intros Hw Hevs d. split; [apply pool_terminates|]. intros Hf.
  assert (keys_ok (fun input => in_spawn input = true) d) as Hd by (apply keys_run; [done|by apply keys_start]).
  destruct (finished_ok _ _ _ _ _ _ _ Hd Hf) as (gs & [Hp _] & Hgs).
  assert (omap held_key gs = []) as Hnil.
  { clear Hp. induction Hgs as [|g gs [r [(e & He & Hs)|Hg]] _ IH]; [done|congruence|].
    simpl in *. by rewrite Hg. }
  rewrite Hnil in Hp. apply Permutation_nil_r, elements_empty_inv in Hp. by apply leibniz_equiv.
Qed.
End Properties.
