(* ===== verification/ModelEnds.v ===== *)
(** * Every model operation comes to an end

    The second instance of the logic of [Threads]: a thread owns the operation it
    created until it has written its final state. *)
From stdpp Require Import base list gmap strings.
From Stdlib Require Import ZArith Lia.
From S2P Require Import Prelude RustStr External Digest RunContract StoreBase AuditMetadata AssistantContent RunStore ModelOperation Provider Threads ModelInference ModelLifecycle.
Import Model Inference Lifecycle.

Open Scope Z_scope.
Open Scope rust_scope.
Open Scope prog_scope.

(** ** The size of audit records *)

(** A bound on the length of the JSON text of a value: every byte of a string
    needs at most six. *)
Fixpoint json_size (v : Value) : Z :=
  match v with
  | VNull => 4
  | VBool _ => 5
  | VNumber n => 2 + Z.log2 (Z.abs n)
  | VString s => 2 + 6 * slen s
  | VArray items => 2 + foldr (fun v n => 1 + json_size v + n) 0 items
  | VObject fields => 2 + foldr (fun p n => 4 + 6 * slen p.1 + json_size p.2 + n) 0 fields
  end.
Class JsonSizeLaws `{External} `{ModelCrates} := {
  json_to_string_size : forall v, slen (json_to_string v) <= json_size v;
  device_as_str_size : forall d, slen (device_as_str d) <= 128;
}.

(** ** Lemmas on the operation table *)
Definition final (row : ModelRow) : Prop := incomplete row = false.

Lemma validate_id_short v : Model.validate_id v = Ok tt -> slen v <= Model.MAX_ID_BYTES.
Proof. unfold Model.validate_id. destruct (_ || _ || _) eqn:Hb; [done|]. bools. done. Qed.

Lemma incomplete_state row s : mr_state row = mstate_as_str s -> incomplete row = negb (terminal s).
Proof. intros Hs. unfold incomplete. rewrite Hs. by destruct s. Qed.

Lemma create_record o db rec db' :
  create_model_operation o db = (Ok rec, db') ->
  db !! nm_operation_id o = None
  /\ db' = <[nm_operation_id o := mkModelRow (nm_model_id o) (nm_revision o) (kind_as_str (nm_kind o)) "queued" 0
                                    (nm_created_at_ms o) (nm_created_at_ms o)]> db
  /\ rec = mkModelOperationRecord (nm_operation_id o) (nm_model_id o) (nm_revision o) (nm_kind o) MQueued 0
             (nm_created_at_ms o) (nm_created_at_ms o)
  /\ Model.validate_id (nm_operation_id o) = Ok tt /\ Model.validate_id (nm_model_id o) = Ok tt
  /\ Model.validate_id (nm_revision o) = Ok tt.
Proof.
  unfold create_model_operation, tbind, tlift, tread.
  destruct (Model.validate_id (nm_operation_id o)) as [[]|]; [|done].
  destruct (Model.validate_id (nm_model_id o)) as [[]|]; [|done].
  destruct (Model.validate_id (nm_revision o)) as [[]|]; [|done].
  destruct (sql_time (nm_created_at_ms o)) as [t|] eqn:Ht; [|done]. apply sql_time_ok in Ht as [-> Hmax].
  destruct (_ <=? _); [done|]. unfold insert_model. destruct (model_check _) eqn:Hc; [|done]. cbn [negb].
  destruct (db !! nm_operation_id o) eqn:Hr; [done|].
  unfold row_by_id. rewrite lookup_insert_eq.
  destruct (decode_model_total (nm_operation_id o) _ Hc) as (k & s & Hk & Hs & ->). cbn [ok_or].
  intros [= <- <-]. split; [done|]. split; [done|]. split; [|done].
  assert (s = MQueued) as -> by by apply mstate_as_str_inj.
  assert (k = nm_kind o) as -> by (simpl in Hk; destruct (nm_kind o); by injection Hk). done.
Qed.

Lemma transition_id id s p now db rec db' :
  model_ok db -> transition_model_operation id s p now db = (Ok rec, db') ->
  mo_operation_id rec = id /\ exists row row' st, db !! id = Some row /\ db' = <[id := row']> db
    /\ mr_state row = mstate_as_str st /\ advance row st s p now = Some row'
    /\ mr_state row' = mstate_as_str s /\ mr_progress row' = p /\ mr_updated row' = now.
Proof.
  intros Hok Hop. apply transition_ok in Hop as (row & k & st & row' & Hr & Hst & _ & Ha & -> & ->); [|done].
  split; [done|]. exists row, row', st. repeat (split; [done|]). unfold advance in Ha.
  destruct (_ || _); [done|]. by injection Ha as <-.
Qed.

(** A finished operation refuses every transition. *)
Lemma transition_final id s p now db row :
  model_ok db -> db !! id = Some row -> final row ->
  exists e, transition_model_operation id s p now db = (Err e, db).
Proof.
  intros Hok Hr Hf. destruct (transition_model_operation id s p now db) as [[rec|e] db'] eqn:Hop.
  - apply transition_id in Hop as (_ & row0 & row' & st & Hr0 & _ & Hst & Ha & _); [|done].
    assert (row0 = row) as -> by congruence. unfold final in Hf. rewrite (incomplete_state _ _ Hst) in Hf.
    apply negb_false_iff in Hf. unfold advance in Ha. by rewrite Hf in Ha.
  - exists e. by rewrite (transition_err _ _ _ _ _ _ _ Hop).
Qed.

(** The owner's transition is accepted. *)
Lemma transition_open id s p now db row st :
  model_ok db -> Model.validate_id id = Ok tt -> db !! id = Some row -> mr_state row = mstate_as_str st ->
  terminal st = false -> permitted st s = true -> mr_progress row <= p <= 10000 -> mr_updated row <= now <= i64_max ->
  (s = MSucceeded -> p = 10000) ->
  exists rec row', transition_model_operation id s p now db = (Ok rec, <[id := row']> db)
    /\ mo_operation_id rec = id /\ mr_state row' = mstate_as_str s /\ mr_progress row' = p /\ mr_updated row' = now.
Proof.
  intros Hok Hid Hr Hst Ht Hperm Hp Hn Hs. destruct (mk_row _ Hok id row Hr) as [Hc _].
  destruct (decode_model_total id row Hc) as (k & st' & Hk & Hst' & _).
  rewrite (transition_cases id s p now db row k st) by (done || lia).
  unfold advance. rewrite Ht, Hperm. destruct (Z.ltb_spec p (mr_progress row)); [lia|].
  destruct (Z.ltb_spec now (mr_updated row)); [lia|]. cbn [orb negb].
  case_bool_decide as Hsd; [rewrite (Hs Hsd)|]; simpl; eexists _, _; (split; [done|]); done.
Qed.

Lemma transition_keeps_ok id s p now db r db' :
  model_ok db -> transition_model_operation id s p now db = (r, db') -> model_ok db'.
Proof. intros Hok Hop. destruct (mexec_ok (MTransition id s p now) db Hok) as [Hok' _]. simpl in Hok'. by rewrite Hop in Hok'. Qed.

Section Ends.
Context {ext : External} {dig : Digest} {inf : InferenceJson} {crates : ModelCrates}.
Context (binding : Binding).

(** A short text is recorded as it is or redacted, and stays short. *)
Lemma sanitize_short s d : d <= MAX_DEPTH -> slen s <= Model.MAX_ID_BYTES ->
  exists t, sanitize_value (VString s) d = Ok (VString t) /\ slen t <= Model.MAX_ID_BYTES.
Proof.
  intros Hd Hs. unfold Model.MAX_ID_BYTES in *. simpl. destruct (Z.ltb_spec MAX_DEPTH d); [lia|].
  unfold AuditMetadata.MAX_STRING_BYTES. destruct (Z.ltb_spec 512 (slen s)); [lia|].
  destruct (looks_secret s); eexists; (split; [reflexivity|]); [by vm_compute|done].
Qed.

(** The metadata of a new operation fits. *)
Lemma lifecycle_metadata_fits `{!JsonSizeLaws} o :
  slen (mo_operation_id o) <= Model.MAX_ID_BYTES -> slen (mo_model_id o) <= Model.MAX_ID_BYTES ->
  slen (mo_revision o) <= Model.MAX_ID_BYTES -> mo_progress_basis_points o = 0 ->
  exists v, AuditMetadata_new (lifecycle_metadata (device binding) o) = Ok v.
Proof.
  intros Hid Hm Hr Hp. unfold AuditMetadata_new, lifecycle_metadata. rewrite Hp.
  destruct (sanitize_short _ 1 ltac:(done) Hid) as (t1 & E1 & L1), (sanitize_short _ 1 ltac:(done) Hm) as (t2 & E2 & L2),
    (sanitize_short _ 1 ltac:(done) Hr) as (t3 & E3 & L3).
  assert (exists t, sanitize_value (VString (kind_as_str (mo_kind o))) 1 = Ok (VString t) /\ slen t <= 10)
    as (t4 & E4 & L4) by (destruct (mo_kind o); eexists; split; [reflexivity|done|reflexivity|done|reflexivity|done]).
  destruct (sanitize_short _ 1 ltac:(done) (device_as_str_size (device binding))) as (t5 & E5 & L5).
  cbn [sanitize_value sanitize_object]. unfold sanitize_object. cbn [sanitize_fields].
  repeat match goal with
         | |- context [key_invalid ?k] => replace (key_invalid k) with false by reflexivity
         | |- context [is_sensitive_key ?k] => replace (is_sensitive_key k) with false by reflexivity
         end.
  change (0 + 1) with 1. rewrite E1, E2, E3, E4, E5.
  match goal with |- context [MAX_COLLECTION_ITEMS <? ?n] => replace (MAX_COLLECTION_ITEMS <? n) with false by reflexivity end.
  cbn [sanitize_value]. change (MAX_DEPTH <? 0) with false. change (MAX_DEPTH <? 1) with false. cbv iota.
  match goal with |- context [json_to_string ?v] =>
    pose proof (json_to_string_size v) as Hv; destruct (Z.ltb_spec MAX_METADATA_BYTES (slen (json_to_string v)))
  end; [|by eexists].
  exfalso. cbn [json_size foldr fst snd] in Hv. unfold MAX_METADATA_BYTES, Model.MAX_ID_BYTES in *.
  repeat match type of Hv with context [slen (String ?a ?b)] =>
    let n := eval vm_compute in (slen (String a b)) in change (slen (String a b)) with n in Hv end.
  change (Z.log2 (Z.abs 0)) with 0 in Hv. lia.
Qed.

Lemma lifecycle_audit_fits `{!JsonSizeLaws} action outcome o t db :
  validate_audit_label action "audit action is empty or exceeds 64 bytes" = Ok tt ->
  validate_audit_label outcome "audit outcome is empty or exceeds 64 bytes" = Ok tt ->
  slen (mo_operation_id o) <= Model.MAX_ID_BYTES -> slen (mo_model_id o) <= Model.MAX_ID_BYTES ->
  slen (mo_revision o) <= Model.MAX_ID_BYTES -> mo_progress_basis_points o = 0 ->
  exists db', audit_event action outcome (lifecycle_metadata (device binding) o) t db = (Ok tt, db').
Proof.
  intros Ha Ho Hid Hm Hr Hp. destruct (lifecycle_metadata_fits o Hid Hm Hr Hp) as [v Hv].
  unfold audit_event, tbind, tlift. rewrite Hv. unfold record_audit, tbind, tlift. simpl na_action. simpl na_outcome.
  rewrite Ha, Ho. simpl. by eexists.
Qed.

(** ** Ownership *)

(** The operation a thread must finish with the state and progress it wrote last
    ([None] once it is known to be final), and the last clock reading. *)
Record Owned := mkOwned { o_op : option (string * option (ModelOperationState * Z)); o_time : Z }.
Definition owned_id (g : Owned) : option string := fst <$> o_op g.
Definition idle_owner : Owned := mkOwned None 0.
Definition op_settled (g : Owned) : Prop := match o_op g with Some (_, Some _) => False | _ => True end.

Definition owns_right (db : ModelDb) (g : Owned) : Prop :=
  match o_op g with
  | None => True
  | Some (id, what) =>
      Model.validate_id id = Ok tt
      /\ exists row, db !! id = Some row
           /\ (final row \/ match what with
                            | None => False
                            | Some (st, p) => mr_state row = mstate_as_str st /\ terminal st = false
                                              /\ mr_progress row = p /\ mr_updated row <= o_time g
                            end)
  end.

Record ops_inv (w : World) (gs : list Owned) : Prop := {
  oi_ok : model_ok (w_models w);
  oi_clock : exists c, w_clock w = Some c /\ 0 <= c <= i64_max /\ Forall (fun g => 0 <= o_time g <= c) gs;
  oi_right : Forall (owns_right (w_models w)) gs;
  oi_once : NoDup (omap owned_id gs);
  oi_all : forall id row, w_models w !! id = Some row ->
    final row \/ exists g s, g ∈ gs /\ o_op g = Some (id, Some s);
}.
Abbreviation owp := (wp in_spawn (fun _ : Input => True) ops_inv (fun _ _ : World => True) op_settled).

Definition same_ops (w w' : World) : Prop := w_models w' = w_models w /\ w_clock w' = w_clock w.
Abbreviation calm := (leaves same_ops).
Lemma same_ops_inv w w' gs : same_ops w w' -> ops_inv w gs -> ops_inv w' gs /\ True.
Proof. intros [Hm Hc] []. split; [|done]. constructor; rewrite ?Hm, ?Hc; done. Qed.
Lemma owp_then {A B} (p : Prog Input World A) (h : A -> Prog Input World B) (Q : B -> Owned -> Prop) g :
  calm p -> (forall a, owp (h a) Q g) -> owp (pbind p h) Q g.
Proof. apply wp_then, same_ops_inv. Qed.
Lemma owp_last {A} (p : Prog Input World A) (Q : A -> Owned -> Prop) g :
  calm p -> (forall a, Q a g) -> owp p Q g.
Proof. intros Hp HQ. eapply wp_mono; [|eapply wp_leaves, Hp; apply same_ops_inv]. by intros a g' ->. Qed.

Lemma calm_audit action outcome metadata : calm (audit_call action outcome metadata).
Proof. apply leaves_act. intros e w. by destruct (audit_event _ _ _ _ _). Qed.
Lemma calm_audit_record o : calm (audit binding o).
Proof. apply calm_audit. Qed.
Lemma calm_acquire m r : calm (acquire_exact m r).
Proof. apply leaves_act. intros e w. by case_bool_decide. Qed.
Lemma calm_release k : calm (release_active k).
Proof. by apply leaves_act. Qed.
Lemma calm_read id : calm (model_call (model_operation id)).
Proof.
  apply leaves_act. intros e w. unfold model_operation, tbind, tlift, tread.
  by destruct (Model.validate_id id); [|].
Qed.
Lemma calm_acquire_active action : calm (acquire_active action).
Proof. apply calm_acquire. Qed.
#[local] Hint Resolve calm_audit calm_audit_record calm_acquire calm_acquire_active calm_release calm_read : core.

(** ** Changing one operation *)
Lemma owns_other db id row' gs :
  Forall (owns_right db) gs -> id ∉ omap owned_id gs -> Forall (owns_right (<[id := row']> db)) gs.
Proof.
  intros Hr Hid. apply Forall_forall. intros g Hg. pose proof (proj1 (Forall_forall _ _) Hr g Hg) as Hog.
  unfold owns_right in *. destruct (o_op g) as [[id' what]|] eqn:Ho; [|done].
  rewrite lookup_insert_ne; [done|]. intros ->. apply Hid, list_elem_of_omap. exists g. split; [done|].
  unfold owned_id. by rewrite Ho.
Qed.
Lemma owns_final db id row row' gs :
  Forall (owns_right db) gs -> db !! id = Some row -> final row' -> Forall (owns_right (<[id := row']> db)) gs.
Proof.
  intros Hr Hrow Hf. eapply Forall_impl; [exact Hr|]. intros g. unfold owns_right.
  destruct (o_op g) as [[id' what]|]; [|done]. intros (Hv & row0 & Hr0 & Hcase). split; [done|].
  destruct (decide (id' = id)) as [->|Hne]; [exists row'|exists row0].
  - rewrite lookup_insert_eq. auto.
  - by rewrite lookup_insert_ne.
Qed.

Lemma once_head g gs id what :
  NoDup (omap owned_id (g :: gs)) -> o_op g = Some (id, what) -> id ∉ omap owned_id gs.
Proof. intros Hnd Ho. simpl in Hnd. unfold owned_id at 1 in Hnd. rewrite Ho in Hnd. by apply NoDup_cons in Hnd as [? _]. Qed.

(** The owner of [id] writes [row'] and then owns [what]. *)
Lemma own_write w gs id what what' t row' models' :
  ops_inv w (mkOwned (Some (id, what)) t :: gs) -> models' = <[id := row']> (w_models w) -> model_ok models' ->
  owns_right models' (mkOwned (Some (id, what')) t) -> (final row' \/ exists s, what' = Some s) ->
  ops_inv (set_models models' w) (mkOwned (Some (id, what')) t :: gs).
Proof.
  intros [Hok Hc Hr Hnd Hall] -> Hok' Hown Hwhat.
  pose proof (once_head _ _ _ _ Hnd eq_refl) as Hid. apply Forall_cons in Hr as [_ Hr].
  constructor; simpl; [done| | |exact Hnd|].
  - destruct Hc as (c & ? & ? & Hf). exists c. split; [done|]. split; [done|].
    apply Forall_cons in Hf as [? ?]. by constructor.
  - constructor; [done|]. by apply owns_other.
  - intros id' row0 [[<- <-]|[Hne H0]]%lookup_insert_Some.
    + destruct Hwhat as [?|[s ->]]; [by left|right]. eexists _, s. split; [left|done].
    + destruct (Hall id' row0 H0) as [?|(g & s & [->|Hg]%elem_of_cons & Ho)]; [by left| |].
      * simpl in Ho. congruence.
      * right. exists g, s. split; [by right|done].
Qed.

(** ** Sections *)
Lemma owp_now (Q : result HandlerFailure Z -> Owned -> Prop) g :
  (forall c, 0 <= c <= i64_max -> o_time g <= c -> Q (Ok c) (mkOwned (o_op g) c)) -> owp now_ms Q g.
Proof.
  intros HQ. apply wp_act. intros e w gs _ [Hok (c & Hc & Hcm & Hf) Hr Hnd Hall]. simpl. rewrite Hc. simpl.
  apply Forall_cons in Hf as [Hg Hf]. exists (mkOwned (o_op g) c). split; [|split; [done|apply HQ; lia]].
  constructor; try done.
  - exists c. split; [done|]. split; [done|]. constructor; [simpl; lia|done].
  - apply Forall_cons in Hr as [Hr Hrs]. constructor; [|done]. unfold owns_right in *. simpl.
    destruct (o_op g) as [[id [[st p]|]]|]; [|done|done]. destruct Hr as (? & row & ? & [?|(? & ? & ? & ?)]);
      (split; [done|]); exists row; (split; [done|]); [by left|right]. repeat (split; [done|]). simpl. lia.
  - intros id row Hrow. destruct (Hall id row Hrow) as [?|(g' & s & [->|Hg']%elem_of_cons & Ho)]; [by left| |].
    + right. exists (mkOwned (o_op g) c), s. split; [left|done].
    + right. exists g', s. split; [by right|done].
Qed.

(** The row of the operation a thread owns. *)
Lemma owned_row w gs id what t :
  ops_inv w (mkOwned (Some (id, what)) t :: gs) ->
  Model.validate_id id = Ok tt /\ exists row, w_models w !! id = Some row
    /\ (final row \/ exists st p, what = Some (st, p) /\ mr_state row = mstate_as_str st /\ terminal st = false
                               /\ mr_progress row = p /\ mr_updated row <= t).
Proof.
  intros [_ _ Hr _ _]. apply Forall_cons in Hr as [(Hv & row & Hrow & Hcase) _]. split; [done|].
  exists row. split; [done|]. destruct Hcase as [?|Hwhat]; [by left|right]. destruct what as [[st p]|]; [|done].
  destruct Hwhat as (? & ? & ? & ?). by exists st, p.
Qed.

Lemma set_same_models w : set_models (w_models w) w = w.
Proof. by destruct w. Qed.

(** A thread that learns that its operation is final, by another hand. *)
Lemma own_final w gs id what t row :
  ops_inv w (mkOwned (Some (id, what)) t :: gs) -> w_models w !! id = Some row -> final row ->
  ops_inv w (mkOwned (Some (id, None)) t :: gs).
Proof.
  intros Hi Hrow Hf. destruct (owned_row _ _ _ _ _ Hi) as [Hv _].
  assert (w_models w = <[id := row]> (w_models w)) as Heq by (symmetry; by apply insert_id).
  rewrite <- (set_same_models w). eapply own_write; [exact Hi|exact Heq|apply Hi| |by left].
  split; [done|]. exists row. auto.
Qed.

(** A finished operation is left as it is. *)
Lemma owp_transition_final id s p t (Q : result HandlerFailure ModelOperationRecord -> Owned -> Prop) :
  (forall e t', Q (Err e) (mkOwned (Some (id, None)) t')) ->
  owp (transition id s p) Q (mkOwned (Some (id, None)) t).
Proof.
  intros HQ. apply wp_bind, owp_now. intros c Hc Ht. apply wp_bind, wp_act. intros e w gs _ Hi. simpl o_op in Hi.
  destruct (owned_row _ _ _ _ _ Hi) as (Hv & row & Hrow & [Hf|(? & ? & ? & _)]); [|done].
  destruct (transition_final id s p c (w_models w) row (oi_ok _ _ Hi) Hrow Hf) as [er ->]. simpl.
  rewrite set_same_models. eexists. split; [exact Hi|]. split; [done|apply HQ].
Qed.

(** The owner's transition is accepted unless the operation was cancelled. *)
Lemma owp_transition_own id s p st p0 t (Q : result HandlerFailure ModelOperationRecord -> Owned -> Prop) :
  permitted st s = true -> p0 <= p <= 10000 -> (s = MSucceeded -> p = 10000) ->
  (forall rec t', mo_operation_id rec = id ->
     Q (Ok rec) (mkOwned (Some (id, if terminal s then None else Some (s, p))) t')) ->
  (forall e t', Q (Err e) (mkOwned (Some (id, None)) t')) ->
  owp (transition id s p) Q (mkOwned (Some (id, Some (st, p0))) t).
Proof.
  intros Hperm Hp Hs HOk HErr. apply wp_bind, owp_now. intros c Hc Ht. apply wp_bind, wp_act. intros e w gs _ Hi.
  simpl o_op in Hi.
  destruct (owned_row _ _ _ _ _ Hi) as (Hv & row & Hrow & [Hf|(st' & p' & [= <- <-] & Hst & Hter & Hpr & Hup)]).
  - destruct (transition_final id s p c (w_models w) row (oi_ok _ _ Hi) Hrow Hf) as [er ->]. simpl.
    rewrite set_same_models. eexists. split; [by eapply own_final|]. split; [done|apply HErr].
  - destruct (transition_open id s p c (w_models w) row st (oi_ok _ _ Hi)) as (rec & row' & Hop & Hrid & Hs' & Hp' & Hu');
      [done..|lia|lia|done|].
    pose proof (transition_keeps_ok _ _ _ _ _ _ _ (oi_ok _ _ Hi) Hop) as Hok'. rewrite Hop. simpl.
    eexists. split; [|split; [done|by apply HOk]]. eapply own_write; [exact Hi|done|done| |].
    + split; [done|]. exists row'. rewrite lookup_insert_eq. split; [done|].
      destruct (terminal s) eqn:Hts; [left; unfold final; by rewrite (incomplete_state _ _ Hs'), Hts|right].
      repeat (split; [done|]). simpl. lia.
    + destruct (terminal s) eqn:Hts; [left; unfold final; by rewrite (incomplete_state _ _ Hs'), Hts|right; eauto].
Qed.

(** A thread that owns nothing may only cancel. *)
Lemma owp_cancel id p t (Q : result HandlerFailure ModelOperationRecord -> Owned -> Prop) :
  (forall r t', Q r (mkOwned None t')) -> owp (transition id MCancelled p) Q (mkOwned None t).
Proof.
  intros HQ. apply wp_bind, owp_now. intros c Hc Ht. apply wp_bind, wp_act. intros e w gs _ Hi. simpl o_op in Hi.
  destruct (transition_model_operation id MCancelled p c (w_models w)) as [r db'] eqn:Hop.
  pose proof (transition_keeps_ok _ _ _ _ _ _ _ (oi_ok _ _ Hi) Hop) as Hok'. simpl.
  exists (mkOwned None c). split; [|split; [done|apply HQ]]. destruct r as [rec|er].
  - apply transition_id in Hop as (_ & row & row' & st & Hrow & -> & _ & _ & Hs' & _); [|apply Hi].
    assert (final row') as Hf by (unfold final; by rewrite (incomplete_state _ _ Hs')).
    destruct Hi as [_ Hcl Hr Hnd Hall]. constructor; simpl; [done|done|by eapply owns_final|done|].
    intros id' row0 [[<- <-]|[_ H0]]%lookup_insert_Some; [by left|by apply Hall].
  - rewrite (transition_err _ _ _ _ _ _ _ Hop), set_same_models. done.
Qed.

Lemma owp_create action kind t (Q : result HandlerFailure ModelOperationRecord -> Owned -> Prop) :
  (forall rec t', mo_operation_id rec = ac_operation_id action -> mo_progress_basis_points rec = 0 ->
     mo_state rec = MQueued ->
     slen (mo_operation_id rec) <= Model.MAX_ID_BYTES -> slen (mo_model_id rec) <= Model.MAX_ID_BYTES ->
     slen (mo_revision rec) <= Model.MAX_ID_BYTES ->
     Q (Ok rec) (mkOwned (Some (ac_operation_id action, Some (MQueued, 0))) t')) ->
  (forall e t', Q (Err e) (mkOwned None t')) ->
  owp (create_operation action kind) Q (mkOwned None t).
Proof.
  intros HOk HErr. apply wp_bind, owp_now. intros c Hc Ht. apply wp_bind, wp_act. intros e w gs _ Hi. simpl o_op in Hi.
  set (o := mkNewModelOperation _ _ _ _ _).
  destruct (create_model_operation o (w_models w)) as [[rec|er] db'] eqn:Hop; simpl.
  2:{ pose proof (create_cases _ _ _ _ Hop) as [->|(_ & _ & row & _ & _ & _ & rec & Heq)]; [|done].
      rewrite set_same_models. eexists. split; [exact Hi|]. split; [done|apply HErr]. }
  destruct (mexec_ok (MCreate o) (w_models w) (oi_ok _ _ Hi)) as [Hok' _]. simpl in Hok'. rewrite Hop in Hok'.
  apply create_record in Hop as (Hnone & -> & -> & Hv1 & Hv2 & Hv3). simpl in *.
  exists (mkOwned (Some (ac_operation_id action, Some (MQueued, 0))) c). split; [|split; [done|]].
  2:{ apply HOk; simpl; auto using validate_id_short. }
  destruct Hi as [_ Hcl Hr Hnd Hall]. apply Forall_cons in Hr as [_ Hr].
  assert (ac_operation_id action ∉ omap owned_id gs) as Hfresh.
  { intros (g & Hg & Ho)%list_elem_of_omap. pose proof (proj1 (Forall_forall _ _) Hr g Hg) as Hog.
    unfold owned_id in Ho. unfold owns_right in Hog. destruct (o_op g) as [[id what]|]; [|done].
    simpl in Ho. injection Ho as ->. destruct Hog as (_ & row & Hrow & _). congruence. }
  constructor; simpl; [done| | | |].
  - destruct Hcl as (c' & ? & ? & Hf). exists c'. split; [done|]. split; [done|].
    apply Forall_cons in Hf as [? ?]. by constructor.
  - constructor; [|by apply owns_other]. split; [done|]. eexists. rewrite lookup_insert_eq. split; [done|]. right.
    repeat (split; [done|]). simpl. lia.
  - apply NoDup_cons. done.
  - intros id row [[<- <-]|[Hne H0]]%lookup_insert_Some.
    + right. eexists _, _. split; [left|done].
    + destruct (Hall id row H0) as [?|(g & s & [->|Hg]%elem_of_cons & Ho)]; [by left|done|].
      right. exists g, s. split; [by right|done].
Qed.

(** Reading the progress of the own operation. *)
Lemma owp_read id what t (Q : result StoreError (option ModelOperationRecord) -> Owned -> Prop) :
  (forall r, Q r (mkOwned (Some (id, None)) t)) ->
  (forall rec st, what = Some (st, mo_progress_basis_points rec) ->
     Q (Ok (Some rec)) (mkOwned (Some (id, what)) t)) ->
  owp (model_call (model_operation id)) Q (mkOwned (Some (id, what)) t).
Proof.
  intros HF HO. apply wp_act. intros e w gs _ Hi.
  destruct (owned_row _ _ _ _ _ Hi) as (Hv & row & Hrow & Hcase).
  destruct (mk_row _ (oi_ok _ _ Hi) id row Hrow) as [Hck _].
  destruct (decode_model_total id row Hck) as (k & s & _ & _ & Hdec).
  unfold model_operation, tbind, tlift, tread, row_by_id. rewrite Hv, Hrow, Hdec. simpl. rewrite set_same_models.
  destruct Hcase as [Hf|(st & p & -> & _ & _ & Hp & _)].
  - eexists. split; [by eapply own_final|]. split; [done|apply HF].
  - eexists. split; [exact Hi|]. split; [done|]. apply (HO _ st). simpl. congruence.
Qed.

(** ** Background work *)

(** What a job owns until it writes the final state. *)
Definition at_work (id : string) (g : Owned) : Prop :=
  exists t what, g = mkOwned (Some (id, what)) t
    /\ match what with None => True | Some (st, p) => st = MRunning /\ p <= 10000 end.

Lemma owp_forget {A} (p : Program A) (Q : result unit A -> Owned -> Prop) g :
  owp p (fun r g' => Q (map_err (fun _ => tt) r) g') g -> owp (forget p) Q g.
Proof. intros Hp. by apply wp_bind. Qed.

Lemma progress_of_bounds index count p :
  0 <= index < count -> progress_of index count = Ok p -> p = (index + 1) * 10000 / count /\ p <= 10000.
Proof.
  unfold progress_of. intros Hi. destruct (_ <? _); [done|]. destruct (_ <? _); [done|]. destruct (_ <? _); [done|].
  intros [= <-]. split; [done|]. apply Z.div_le_upper_bound; nia.
Qed.

Lemma owp_download_each id artifacts : forall index count p t,
  0 <= index -> index + Z.of_nat (length artifacts) = count -> p <= 10000 -> (count > 0 -> p <= index * 10000 / count) ->
  owp (download_each binding id index count artifacts) (fun _ g => at_work id g)
    (mkOwned (Some (id, Some (MRunning, p))) t).
Proof.
  induction artifacts as [|a rest IH]; intros index count p t Hi Hlen Hp Hle; simpl in Hlen.
  { eexists t, _. split; [done|]. simpl. done. }
  apply owp_then; [by apply leaves_act|]. intros [|]; cbn [negb]; [|by eexists t, _].
  destruct (progress_of index count) as [p'|] eqn:Hprog; [|by eexists t, _].
  apply progress_of_bounds in Hprog as [-> Hmax]; [|lia].
  assert (p <= (index + 1) * 10000 / count) as Hmono.
  { etransitivity; [apply Hle; lia|]. apply Z.div_le_mono; lia. }
  apply wp_bind, owp_forget, owp_transition_own; [done|lia|done|..].
  - intros rec t' _. simpl. apply IH; [lia|lia|done|done].
  - intros e t'. by eexists t', None.
Qed.

Lemma owp_download_all action t :
  owp (download_all binding action) (fun _ g => at_work (ac_operation_id action) g)
    (mkOwned (Some (ac_operation_id action, Some (MQueued, 0))) t).
Proof.
  apply wp_bind, owp_forget, owp_transition_own; [done|lia|done|..].
  - intros rec t' _. simpl. destruct (registry_get _ _) as [manifest|]; [|by eexists t', _].
    apply owp_download_each; [lia|lia|lia|]. intros Hc. apply Z.div_pos; lia.
  - intros e t'. by eexists t', None.
Qed.

Lemma owp_load_exact action t :
  owp (load_exact binding action) (fun _ g => at_work (ac_operation_id action) g)
    (mkOwned (Some (ac_operation_id action, Some (MQueued, 0))) t).
Proof.
  apply wp_bind, owp_forget, owp_transition_own; [done|lia|done|..].
  - intros rec t' _. simpl map_err. cbv iota beta.
    assert (at_work (ac_operation_id action) (mkOwned (Some (ac_operation_id action, Some (MRunning, 0))) t')) as Hw
      by by eexists t', _.
    apply owp_then; [by apply leaves_act|]. intros [|]; [done|]. apply owp_then; [by apply leaves_act|].
    intros [provider|]; [|done]. by apply owp_last; [apply leaves_act|].
  - intros e t'. by eexists t', None.
Qed.

Lemma owp_write_end id st p t :
  (st = MFailed \/ (st = MSucceeded /\ p = 10000)) ->
  forall what, match what with None => True | Some (st', p') => st' = MRunning /\ p' <= p <= 10000 end ->
  owp (let! done := transition id st p in
       match done with
       | Ok record => let! _ := audit binding record in Done tt
       | Err _ => Done tt
       end) (fun _ => op_settled) (mkOwned (Some (id, what)) t).
Proof.
  intros Hst what Hwhat. apply wp_bind.
  destruct what as [[st' p']|]; [destruct Hwhat as [-> Hp]; apply owp_transition_own|apply owp_transition_final].
  - by destruct Hst as [->|[-> _]].
  - lia.
  - intros ->. destruct Hst as [?|[_ ?]]; [done|lia].
  - intros rec t' _. destruct Hst as [->|[-> _]]; apply owp_then; done.
  - done.
  - done.
Qed.

Lemma owp_finish id outcome g : at_work id g -> owp (finish_background binding id outcome) (fun _ => op_settled) g.
Proof.
  intros (t & what & -> & Hwhat). apply wp_bind. destruct outcome as [u|u]; cbn [is_ok].
  - apply owp_write_end; [by right|]. destruct what as [[st p]|]; [|done]. destruct Hwhat as [-> ?]. split; [done|lia].
  - apply wp_bind, owp_read.
    + intros r. by apply owp_write_end; [by left|].
    + intros rec st ->. apply owp_write_end; [by left|]. destruct Hwhat as [-> ?]. split; [done|lia].
Qed.

Lemma owp_run_download action active t :
  owp (run_download binding action active) (fun _ => op_settled)
    (mkOwned (Some (ac_operation_id action, Some (MQueued, 0))) t).
Proof.
  apply wp_bind. eapply wp_mono; [|apply owp_download_all]. intros outcome g Hg.
  apply owp_then; [done|]. intros _. by apply owp_finish.
Qed.
Lemma owp_run_load action active t :
  owp (run_load binding action active) (fun _ => op_settled)
    (mkOwned (Some (ac_operation_id action, Some (MQueued, 0))) t).
Proof.
  apply wp_bind. eapply wp_mono; [|apply owp_load_exact]. intros outcome g Hg.
  apply owp_then; [done|]. intros _. by apply owp_finish.
Qed.

(** ** Handlers *)
Definition ends {A} (_ : A) (g : Owned) : Prop := op_settled g.

Lemma owp_start action kind operation t :
  (forall active t, owp (operation action active) (fun _ => op_settled)
                      (mkOwned (Some (ac_operation_id action, Some (MQueued, 0))) t)) ->
  owp (start binding action kind operation) ends (mkOwned None t).
Proof.
  intros Hjob. apply owp_then; [done|]. intros [active|error]; [|done]. apply wp_bind, owp_create.
  2:{ intros e t'. by apply owp_then. }
  intros created t' Hid Hp _ _ _ _. apply owp_then; [done|]. intros [u|u]; cbn [is_ok negb].
  - apply wp_bind. split.
    + intros _. cbn [negb]. rewrite Hid, Hp. apply wp_bind, owp_transition_own; [done|lia|done|..].
      * intros failed t'' _. apply owp_then; [by apply leaves_bind|]. intros [u'|]; [|done]. by apply owp_then.
      * done.
    + exists (mkOwned None t'), (mkOwned (Some (ac_operation_id action, Some (MQueued, 0))) t').
      split; [|split; [apply Hjob|done]].
      intros w gs [Hok (c & Hc & Hcm & Hf) Hr Hnd Hall]. constructor; try done.
      * exists c. split; [done|]. split; [done|]. by constructor; [apply Forall_cons in Hf as [? _]|].
      * by constructor.
      * intros id row Hrow. destruct (Hall id row Hrow) as [?|(g & s & Hg & Ho)]; [by left|right].
        exists g, s. split; [by right|done].
  - rewrite Hid, Hp. apply wp_bind, owp_transition_own; [done|lia|done|..].
    + intros rec t'' _. by apply owp_then.
    + intros e t''. by apply owp_then.
Qed.

(** Recording a new operation succeeds. *)
Lemma owp_audit_new `{!JsonSizeLaws} created (Q : result HandlerFailure unit -> Owned -> Prop) g :
  mo_progress_basis_points created = 0 -> mo_state created = MQueued ->
  slen (mo_operation_id created) <= Model.MAX_ID_BYTES -> slen (mo_model_id created) <= Model.MAX_ID_BYTES ->
  slen (mo_revision created) <= Model.MAX_ID_BYTES -> Q (Ok tt) g -> owp (audit_or_fail binding created) Q g.
Proof.
  intros Hp Hst L1 L2 L3 HQ. apply wp_bind, wp_act. intros e w gs _ Hi.
  destruct (lifecycle_audit_fits "v3_model_lifecycle" (mstate_as_str (mo_state created)) created (in_tick e) (w_runs w))
    as [db' ->]; [reflexivity|by rewrite Hst|done..|].
  exists g. split; [|split; [done|exact HQ]]. by eapply same_ops_inv; [|exact Hi].
Qed.

Lemma owp_unload `{!JsonSizeLaws} action t : owp (unload binding action) ends (mkOwned None t).
Proof.
  apply owp_then; [done|]. intros [u|error]; [|done]. apply owp_then; [done|]. intros [active|error]; [|done].
  apply wp_bind.
  assert (forall (a : result HandlerFailure V3Event) g, op_settled g ->
            owp (let! _ := release_active active in Done a) ends g) as Hrel by (intros a g Hg; by apply owp_then).
  apply wp_bind, owp_create; [|intros e t'; by apply Hrel].
  intros created t' Hid Hp Hst L1 L2 L3. apply wp_bind, owp_audit_new; [done..|].
  rewrite Hid. apply wp_bind, owp_transition_own; [done|lia|done|..]; [|intros er t''; by apply Hrel].
  intros running t'' _. apply owp_then; [by apply leaves_act|]. intros removed.
  apply wp_bind, owp_transition_own; [by destruct removed|destruct removed; lia|by destruct removed|..];
    [|intros er t3; by apply Hrel].
  intros terminal t3 _. apply owp_then; [by apply leaves_bind|]. by intros [u'|er]; apply Hrel; destruct removed.
Qed.

Lemma owp_cancel_handler action t : owp (cancel binding action) ends (mkOwned None t).
Proof.
  apply owp_then; [done|]. intros [u|error]; [|done]. apply owp_then; [done|]. intros found.
  apply owp_then; [done|]. intros [cur|error]; [|done]. apply wp_bind, owp_cancel. intros [updated|error] t'; [|done].
  by apply owp_then.
Qed.

Lemma calm_infer request : calm (infer binding request).
Proof.
  apply leaves_try; [done|]. intros u. apply leaves_try; [done|]. intros u'. apply leaves_try; [done|].
  intros active. apply leaves_bind; [|intros outcome; by apply leaves_bind].
  apply leaves_try; [by apply leaves_act|]. intros provider. apply leaves_bind; [by apply leaves_act|]. intros run.
  apply leaves_try; [done|]. intros report. apply leaves_try; [by apply leaves_act|]. intros found.
  apply leaves_try; [done|]. intros evidence. apply leaves_try; [done|]. intros answer.
  apply leaves_bind; [apply calm_audit|]. intros audited. by apply leaves_try.
Qed.

Lemma owp_handle `{!JsonSizeLaws} command t : owp (handle binding command) ends (mkOwned None t).
Proof.
  destruct command as [action|action|action|action|query|query|query|request]; simpl handle.
  - apply owp_then; [done|]. intros [u|error]; [|done]. apply owp_start, owp_run_download.
  - apply owp_then; [done|]. intros [u|error]; [|done]. apply owp_start, owp_run_load.
  - apply owp_unload.
  - apply owp_cancel_handler.
  - apply owp_last; [|done]. apply leaves_try; [done|]. intros u. by apply leaves_bind.
  - apply owp_last; [|done]. apply leaves_try; [done|]. intros u. apply leaves_bind; [done|].
    intros [[o|]|]; [by destruct (mo_kind o)|by apply leaves_act|done].
  - apply owp_last; [|done]. apply leaves_try; [done|]. intros u. apply leaves_try; [done|]. intros manifest.
    apply leaves_bind; [by apply leaves_act|]. intros loaded. by apply leaves_try.
  - apply owp_last; [apply calm_infer|done].
Qed.

Lemma owp_serve `{!JsonSizeLaws} command : owp (serve binding command) ends idle_owner.
Proof. apply wp_bind. by eapply wp_mono; [|apply owp_handle]. Qed.

(** ** The daemon *)
Lemma ops_inv_perm w gs gs' : gs ≡ₚ gs' -> ops_inv w gs -> ops_inv w gs'.
Proof.
  intros Hp [Hok (c & Hc & Hcm & Hf) Hr Hnd Hall]. constructor; [done| |by rewrite <- Hp|by rewrite <- Hp|].
  - exists c. split; [done|]. split; [done|]. by rewrite <- Hp.
  - intros id row Hrow. destruct (Hall id row Hrow) as [?|(g & s & Hg & Ho)]; [by left|right].
    exists g, s. split; [by rewrite <- Hp|done].
Qed.
Lemma ops_inv_idle w gs : ops_inv w gs -> ops_inv w (idle_owner :: gs).
Proof.
  intros [Hok (c & Hc & Hcm & Hf) Hr Hnd Hall]. constructor; [done| |by constructor|done|].
  - exists c. split; [done|]. split; [done|]. constructor; [simpl; lia|done].
  - intros id row Hrow. destruct (Hall id row Hrow) as [?|(g & s & Hg & Ho)]; [by left|right].
    exists g, s. split; [by right|done].
Qed.

(** The clock goes forward. *)
Definition forward (clock : option Z) (w : World) : Prop :=
  match clock, w_clock w with Some c', Some c => c <= c' <= i64_max | _, _ => False end.
Lemma ops_inv_clock clock w gs : forward clock w -> ops_inv w gs -> ops_inv (set_clock clock w) gs.
Proof.
  unfold forward. intros Hfw [Hok (c & Hc & Hcm & Hf) Hr Hnd Hall]. rewrite Hc in Hfw.
  destruct clock as [c'|]; [|done]. constructor; try done. exists c'. split; [done|]. split; [lia|].
  eapply Forall_impl; [exact Hf|]. simpl. lia.
Qed.

Definition ops_ok (d : Daemon) : Prop :=
  pool_ok in_spawn (fun _ : Input => True) ops_inv (fun _ _ : World => True) op_settled ends d.

Definition in_order (ev : DaemonEvent) (d : Daemon) : Prop :=
  match ev with ClockIs clock => forward clock d.1 | _ => True end.
Fixpoint all_in_order (evs : list DaemonEvent) (d : Daemon) : Prop :=
  match evs with
  | [] => True
  | ev :: rest => in_order ev d /\ all_in_order rest (daemon_step binding ev d)
  end.

Lemma ops_step `{!JsonSizeLaws} ev d : in_order ev d -> ops_ok d -> ops_ok (daemon_step binding ev d).
Proof.
  intros Hev Hd. unfold daemon_step.
  apply (step_ok in_spawn set_clock JobEnded (fun _ => True) forward ops_inv (fun _ _ => True) idle_owner
           op_settled ends ops_inv_perm ops_inv_idle ops_inv_clock); [done|done| |done].
  destruct ev; [apply owp_serve|done|done].
Qed.
Lemma ops_run `{!JsonSizeLaws} evs : forall d, all_in_order evs d -> ops_ok d -> ops_ok (daemon_run binding evs d).
Proof.
  induction evs as [|ev evs IH]; intros d; [done|]. intros [Hev Hevs] Hd. simpl. apply IH; [done|]. by apply ops_step.
Qed.

(** ** Counting *)
Definition open_id (g : Owned) : option string := match o_op g with Some (id, Some _) => Some id | _ => None end.
Definition unfinished_operations (db : ModelDb) : gmap string ModelRow :=
  filter (fun p : string * ModelRow => incomplete p.2 = true) db.
Definition unfinished_threads (threads : list (Prog Input World Reply)) : list (Prog Input World Reply) :=
  filter (fun p => finished p = false) threads.

Lemma open_threads threads gs :
  Forall2 (fun p g => wp in_spawn (fun _ => True) ops_inv (fun _ _ => True) op_settled p ends g) threads gs ->
  (length (omap open_id gs) <= length (unfinished_threads threads))%nat.
Proof.
  induction 1 as [|p g threads gs Hp _ IH]; [done|]. unfold unfinished_threads in *. cbn [omap list_omap].
  destruct (finished p) eqn:Hf.
  - rewrite filter_cons_False by congruence. destruct p as [r| |]; [|done..].
    change (op_settled g) in Hp. unfold op_settled in Hp. unfold open_id at 1. by destruct (o_op g) as [[id [s|]]|].
  - rewrite filter_cons_True by done. destruct (open_id g); simpl; lia.
Qed.

Lemma open_operations w gs :
  ops_inv w gs -> (size (unfinished_operations (w_models w)) <= length (omap open_id gs))%nat.
Proof.
  intros [_ _ _ _ Hall]. rewrite <- length_map_to_list, <- (length_map fst).
  apply submseteq_length, NoDup_submseteq; [apply NoDup_fst_map_to_list|].
  intros id ([id' row] & -> & Hin)%list_elem_of_fmap. apply elem_of_map_to_list, map_lookup_filter_Some in Hin as [Hrow Hi].
  destruct (Hall _ _ Hrow) as [Hf|(g & s & Hg & Ho)]; [unfold final in Hf; simpl in *; congruence|].
  apply list_elem_of_omap. exists g. split; [done|]. unfold open_id. by rewrite Ho.
Qed.
End Ends.

Section Properties.
Context {ext : External} {dig : Digest} {inf : InferenceJson} {crates : ModelCrates} `{!JsonSizeLaws}.

(** C18: starting from a recovered ledger, whatever commands arrive, however their
    threads interleave, whatever the crates return and even when threads cannot be
    created: as long as the clock does not go back, there are at most as many
    unfinished operations as unfinished threads.  So once all threads have ended (which no
    schedule can prevent) every download, load and unload is succeeded, failed or
    cancelled. *)
Theorem model_operations_end (binding : Binding) (w : World) (c : Z) (evs : list DaemonEvent) :
  model_ok (w_models w) -> (forall id row, w_models w !! id = Some row -> incomplete row = false) ->
  w_clock w = Some c -> 0 <= c <= i64_max -> all_in_order binding evs (w, []) ->
  let d := daemon_run binding evs (w, []) in
  model_ok (w_models d.1)
  /\ (size (unfinished_operations (w_models d.1)) <= length (unfinished_threads d.2))%nat
  /\ (Forall (fun p => finished p = true) d.2 ->
      forall id row, w_models d.1 !! id = Some row -> incomplete row = false).
Proof.
  intros Hok Hrec Hc Hcm Hevs d.
  assert (ops_ok d) as (gs & Hi & Hts).
  { apply (ops_run binding); [done|]. exists []. split; [|done]. constructor; simpl; [done|by exists c|done|constructor|].
    intros id row Hrow. left. by eapply Hrec. }
  split; [apply Hi|]. pose proof (open_operations _ _ Hi) as Hcount. pose proof (open_threads _ _ Hts) as Hthreads.
  split; [lia|]. intros Hf id row Hrow. destruct (incomplete row) eqn:Hinc; [exfalso|done].
  assert (unfinished_threads d.2 = []) as Hnil.
  { apply elem_of_nil_inv. intros p [Hp Hin]%list_elem_of_filter. rewrite Forall_forall in Hf.
    by rewrite (Hf p Hin) in Hp. }
  rewrite Hnil in Hthreads. simpl in Hthreads.
  assert (unfinished_operations (w_models d.1) = ∅) as He by (apply map_size_empty_iff; lia).
  assert (unfinished_operations (w_models d.1) !! id = Some row) as Hin by by apply map_lookup_filter_Some.
  by rewrite He, lookup_empty in Hin.
Qed.
End Properties.
