(* ===== verification/LifecycleExample.v ===== *)
(** * The model lifecycle on concrete schedules

    Witnesses of the theorems on [ModelLifecycle], and three schedules that show
    what the code allows: a cancelled load that stays loaded, a revision that
    stays busy after a thread could not be created, and token counts that never
    reach the audit ledger. *)
From stdpp Require Import base list gmap strings.
From Stdlib Require Import ZArith Lia.
From S2P Require Import Prelude RustStr External Digest RunContract StoreBase AuditMetadata AssistantContent RunStore ModelOperation Provider Threads ModelInference ModelLifecycle ModelInferenceProps ModelKeys ModelEnds.
Import Model Provider Inference Lifecycle.

Open Scope Z_scope.
Open Scope rust_scope.

Module ModelFixture.
(** JSON texts are not looked at. *)
#[local] Instance compact : External := {|
  uuid_canonical s := Some s;
  parse_from_rfc3339 _ := Some 0;
  json_to_string _ := "{}";
  json_from_str _ := Some VNull;
|}.
Lemma json_size_pos v : 2 <= json_size v.
Proof.
  induction v as [|b|n|t|items IH|fields IH] using value_induction; simpl; try lia.
  - pose proof (Z.log2_nonneg (Z.abs n)). lia.
  - pose proof (slen_nonneg t). lia.
  - enough (0 <= foldr (fun v n => 1 + json_size v + n) 0 items) by lia. induction IH; simpl; lia.
  - enough (0 <= foldr (fun p n => 4 + 6 * slen p.1 + json_size p.2 + n) 0 fields) by lia.
    induction IH as [|p l Hp _ IHl]; simpl; [lia|]. pose proof (slen_nonneg p.1). lia.
Qed.
#[local] Instance small_requests : InferenceJson := {| inference_request_len _ := 100 |}.
(** Artifacts are numbers; a provider is the model and revision it was loaded from. *)
#[local] Instance crates : ModelCrates := {|
  Artifact := nat;
  LocalModelProvider := string * string;
  load_report p := mkLoadReport p.1 p.2;
  device_as_str d := device_name (model_device d);
|}.
#[local] Instance sizes : JsonSizeLaws.
Proof. constructor; [intros v; apply json_size_pos|by intros []]. Qed.
Import DigestFixture.

Definition llama : Manifest := {|
  mf_revision := "rev-1"; mf_architecture := "llama"; mf_license_sha256 := EmptyString; mf_artifacts := [1%nat; 2%nat];
|}.
Definition startup : Binding := {|
  registry_ids := ["llama"];
  registry_get id := if bool_decide (id = "llama") then Some llama else None;
  resolve_for _ _ := true;
  is_accepted_for _ _ := true;
  principal := "owner";
  device := Cpu;
  max_artifact_bytes := 1024;
|}.

(** Everything the world outside gives works, except possibly thread creation. *)
Definition fixture_input (spawns : bool) : Input := {|
  in_tick := mkTick "2026-01-01T00:00:00Z" 100;
  in_spawn := spawns;
  in_fetch _ _ := true;
  in_load model _ _ _ := Some (model, "rev-1");
  in_run _ _ _ _ _ := ([], None);
  in_report _ := Ok None;
|}.
Definition steps (thread n : nat) : list DaemonEvent := repeat (Runs thread (fixture_input true)) n.

Definition world0 : World := mkWorld empty_run_db ∅ ∅ ∅ (Some 100).
Definition action (operation : string) : V3ModelAction := mkModelAction "llama" "rev-1" operation.
Definition key : ModelKey := ("llama", "rev-1").
Definition run (evs : list DaemonEvent) : Daemon := daemon_run startup evs (world0, []).
Definition state_of (operation : string) (d : Daemon) : option string := mr_state <$> w_models d.1 !! operation.

(** A load that runs to its end: six sections and a thread of ten. *)
Definition load_evs : list DaemonEvent := Arrives (LoadModel (action "op-1")) :: steps 0 6 ++ steps 1 12.
Example load_succeeds :
  (state_of "op-1" (run load_evs), w_loaded (run load_evs).1 !! key, bool_decide (key ∈ w_active (run load_evs).1),
   map finished (run load_evs).2) = (Some "succeeded", Some ("llama", "rev-1"), false, [true; true]).
Proof. vm_compute. reflexivity. Qed.

Ltac computes := vm_compute; reflexivity.

(** ** Witnesses *)
Definition before_insert : list DaemonEvent := Arrives (LoadModel (action "op-1")) :: steps 0 5 ++ steps 1 4.
Lemma loaded_models_are_never_replaced_witness :
  w_loaded (daemon_step startup (Runs 1 (fixture_input true)) (run before_insert)).1 !! key <> w_loaded (run before_insert).1 !! key
  /\ key ∈ w_active (run before_insert).1.
Proof.
  assert (w_loaded (daemon_step startup (Runs 1 (fixture_input true)) (run before_insert)).1 !! key
          <> w_loaded (run before_insert).1 !! key) as Hne by (vm_compute; discriminate).
  split; [exact Hne|].
  exact (proj1 (loaded_models_are_never_replaced startup before_insert world0 1 (fixture_input true) key eq_refl Hne)).
Defined.

Lemma load_evs_spawn : Forall (can_event (fun i => in_spawn i = true)) load_evs.
Proof. unfold load_evs, steps. simpl. repeat constructor. Qed.
Lemma threads_end_and_free_their_models_witness : w_active (run load_evs).1 = ∅.
Proof.
  apply (threads_end_and_free_their_models startup load_evs world0 eq_refl load_evs_spawn).
  vm_compute. repeat constructor.
Defined.

(** A cancellation and a clock tick between the sections of a download. *)
Definition cancel_evs : list DaemonEvent :=
  Arrives (DownloadModel (action "op-1")) :: steps 0 6 ++ steps 1 3
  ++ ClockIs (Some 200) :: Arrives (CancelModel (mkAction "llama" "op-1")) :: steps 2 5 ++ steps 1 12.
Example download_cancelled :
  (state_of "op-1" (run cancel_evs), map finished (run cancel_evs).2) = (Some "cancelled", [true; true; true]).
Proof. computes. Qed.
Lemma empty_model_ok : model_ok ∅.
Proof. constructor; [by vm_compute|]. intros id row Hr. by rewrite lookup_empty in Hr. Qed.
Lemma cancel_evs_in_order : all_in_order startup cancel_evs (world0, []).
Proof. vm_compute. repeat split; discriminate. Qed.
Lemma model_operations_end_witness :
  match w_models (run cancel_evs).1 !! "op-1" with Some row => incomplete row = false | None => False end.
Proof.
  destruct (model_operations_end startup world0 100 cancel_evs empty_model_ok) as (_ & _ & Hall).
  - intros id r Hr. change (w_models world0) with (∅ : ModelDb) in Hr. by rewrite lookup_empty in Hr.
  - reflexivity.
  - split; [lia|unfold i64_max; lia].
  - exact cancel_evs_in_order.
  - specialize (Hall ltac:(vm_compute; repeat constructor) "op-1"). unfold run.
    destruct (w_models (daemon_run startup cancel_evs (world0, [])).1 !! "op-1") as [row|] eqn:Hrow.
    + exact (Hall row eq_refl).
    + vm_compute in Hrow. discriminate.
Defined.

Definition question : V3ModelInferenceRequest :=
  mkInferenceRequest "llama" "rev-1" "hello" 4
    (computed_digest (mkInferenceRequest "llama" "rev-1" "hello" 4 EmptyString)).
Definition answered : V3ModelInferenceResult :=
  mkInferenceResult "llama" "rev-1" (iq_request_digest question)
    (output_digest "llama" "rev-1" (iq_request_digest question) "reply") "reply" 4 1 1 V3Cpu V3Cpu 7 false false.
Lemma answered_for : InferenceResult_validate_for answered question = Ok tt.
Proof. computes. Qed.
Lemma result_answers_one_request_witness :
  InferenceResult_validate_for answered question = Ok tt /\ question = question.
Proof.
  split; [exact answered_for|].
  apply (result_answers_one_request answered question question).
  - unfold is_u16, u16_max. simpl. lia.
  - unfold is_u16, u16_max. simpl. lia.
  - intros a b [->| ->] [->| ->]; reflexivity.
  - exact answered_for.
  - exact answered_for.
Defined.

Definition good_run : list ModelEvent * option RunReport :=
  ([EvStarted "llama"; EvTextDelta "re"; EvTextDelta "ply"; EvFinished],
   Some (mkRunReport StopCompleted "reply" false 1 1)).
Definition good_evidence : InferenceEvidence := mkInferenceEvidence "llama" 1 1 Cpu PathCpu 7 false false true true.
Lemma inference_is_exact_witness :
  exists report, run_exact_provider "llama" good_run = Ok report
    /\ inference_result question report good_evidence (mkLoadReport "llama" "rev-1") = Ok answered
    /\ ir_output answered = rr_text report
    /\ exists texts, good_run.1 = EvStarted "llama" :: map EvTextDelta texts ++ [EvFinished].
Proof.
  destruct (inference_is_exact question good_run good_evidence (mkLoadReport "llama" "rev-1")) as [H1 H2].
  exists (mkRunReport StopCompleted "reply" false 1 1).
  assert (run_exact_provider "llama" good_run = Ok (mkRunReport StopCompleted "reply" false 1 1)) as Hrun by computes.
  assert (inference_result question (mkRunReport StopCompleted "reply" false 1 1) good_evidence
            (mkLoadReport "llama" "rev-1") = Ok answered) as Hres by computes.
  split; [exact Hrun|]. split; [exact Hres|]. split; [exact (proj1 (proj2 (H2 _ _ Hres)))|].
  exact (proj2 (proj2 (proj2 (proj2 (proj1 (H1 _) Hrun))))).
Defined.

(** ** What the code allows *)

(** A load that was cancelled while the provider was being built: the operation is
    cancelled for ever and the model is loaded. *)
Definition cancelled_load : list DaemonEvent :=
  Arrives (LoadModel (action "op-1")) :: steps 0 6 ++ steps 1 4
  ++ Arrives (CancelModel (mkAction "llama" "op-1")) :: steps 2 5 ++ steps 1 12.
Theorem cancelled_load_stays_loaded :
  state_of "op-1" (run cancelled_load) = Some "cancelled"
  /\ w_loaded (run cancelled_load).1 !! key = Some ("llama", "rev-1")
  /\ map finished (run cancelled_load).2 = [true; true; true].
Proof. vm_compute. repeat split. Qed.

(** A load cancelled before its thread could not be created: every thread has
    ended and the revision stays busy, so that later commands are refused. *)
Definition cancelled_spawn : list DaemonEvent :=
  Arrives (LoadModel (action "op-1")) :: steps 0 4
  ++ Arrives (CancelModel (mkAction "llama" "op-1")) :: steps 1 5 ++ Runs 0 (fixture_input false) :: steps 0 3.
Theorem failed_spawn_can_leave_model_busy :
  bool_decide (key ∈ w_active (run cancelled_spawn).1) = true
  /\ map finished (run cancelled_spawn).2 = [true; true]
  /\ (run (cancelled_spawn ++ Arrives (UnloadModel (action "op-2")) :: steps 2 1)).2 !! 2%nat
     = Some (Done (Answered (Err conflict_failure))).
Proof. vm_compute. repeat split. Qed.
End ModelFixture.
