(* ===== verification/StdNet.v ===== *)
(** * IP addresses of the standard library

    [std::net::IpAddr]: octets and segments, and the predicates on address
    ranges that the code asks for. *)
From stdpp Require Import base list strings.
From Stdlib Require Import ZArith Lia.
From S2P Require Import Prelude RustStr.

Open Scope Z_scope.

(** An IPv4 address is its four octets, an IPv6 address its eight segments. *)
Inductive IpAddr := V4 (a b c d : Z) | V6 (segments : list Z).
#[export] Instance IpAddr_eq_dec : EqDecision IpAddr.
Proof. solve_decision. Defined.

(** [Ipv4Addr::is_loopback] is 127.0.0.0/8, [Ipv6Addr::is_loopback] is ::1. *)
Definition is_loopback (ip : IpAddr) : bool :=
  match ip with
  | V4 a _ _ _ => a =? 127
  | V6 segments => bool_decide (segments = [0; 0; 0; 0; 0; 0; 0; 1])
  end.

(** [Ipv4Addr::is_private] *)
Definition v4_is_private (a b : Z) : bool :=
  (a =? 10) || ((a =? 172) && (16 <=? b) && (b <=? 31)) || ((a =? 192) && (b =? 168)).

(** ** Reading addresses: [<IpAddr as FromStr>::from_str] *)

(** [char::to_digit] *)
Definition to_digit (radix b : Z) : option Z :=
  let d := if is_ascii_digit b then b - 48
           else if (97 <=? b) && (b <=? 122) then b - 87
           else if (65 <=? b) && (b <=? 90) then b - 55
           else 36 in
  if d <? radix then Some d else None.

(** The digits in front, and the rest. *)
Fixpoint leading_digits (radix : Z) (s : list Z) : list Z * list Z :=
  match s with
  | [] => ([], [])
  | b :: r => match to_digit radix b with
              | Some d => let '(ds, rest) := leading_digits radix r in (d :: ds, rest)
              | None => ([], s)
              end
  end.

(** [read_number] with a limit on the digits; the value must not exceed [max]. *)
Definition read_number (radix : Z) (max_digits : nat) (allow_zero_prefix : bool) (max : Z) (s : list Z)
    : option (Z * list Z) :=
  let '(ds, rest) := leading_digits radix s in
  let value := foldl (fun acc d => acc * radix + d) 0 ds in
  if (max_digits <? length ds)%nat then None
  else if (length ds =? 0)%nat then None
  else if negb allow_zero_prefix && bool_decide (head s = Some 48) && (1 <? length ds)%nat then None
  else if value <=? max then Some (value, rest) else None.

(** [read_separator]: the separator before every group but the first. *)
Definition read_separator {A} (sep : Z) (index : nat) (inner : list Z -> option (A * list Z)) (s : list Z)
    : option (A * list Z) :=
  match index with
  | O => inner s
  | _ => match s with b :: r => if b =? sep then inner r else None | [] => None end
  end.

Definition read_octet (s : list Z) : option (Z * list Z) := read_number 10 3 false 255 s.

Definition read_ipv4 (s : list Z) : option ((Z * Z * Z * Z) * list Z) :=
  match read_separator 46 0 read_octet s with
  | None => None
  | Some (a, s) =>
      match read_separator 46 1 read_octet s with
      | None => None
      | Some (b, s) =>
          match read_separator 46 2 read_octet s with
          | None => None
          | Some (c, s) =>
              match read_separator 46 3 read_octet s with
              | None => None
              | Some (d, s) => Some ((a, b, c, d), s)
              end
          end
      end
  end.

(** [read_groups] into the [limit - i] slots from [i] on: the groups, whether an
    embedded IPv4 address ended them, and the rest. *)
Fixpoint read_groups (slots i : nat) (s : list Z) : list Z * bool * list Z :=
  match slots with
  | O => ([], false, s)
  | S slots' =>
      match (match slots' with O => None | _ => read_separator 58 i read_ipv4 s end) with
      | Some ((a, b, c, d), rest) => ([a * 256 + b; c * 256 + d], true, rest)
      | None =>
          match read_separator 58 i (read_number 16 4 true 65535) s with
          | Some (group, rest) =>
              let '(groups, v4, rest) := read_groups slots' (S i) rest in (group :: groups, v4, rest)
          | None => ([], false, s)
          end
      end
  end.

Definition read_ipv6 (s : list Z) : option (list Z * list Z) :=
  let '(head, head_ipv4, rest) := read_groups 8 0 s in
  if (length head =? 8)%nat then Some (head, rest)
  else if head_ipv4 then None
  else match rest with
       | x :: y :: rest =>
           if (x =? 58) && (y =? 58)
           then
             let '(tail, _, rest) := read_groups (8 - (length head + 1)) 0 rest in
             Some (head ++ replicate (8 - length head - length tail) 0 ++ tail, rest)
           else None
       | _ => None
       end.

(** The whole text must be an address. *)
Definition parse_ip (s : string) : option IpAddr :=
  match read_ipv4 (bytes s) with
  | Some ((a, b, c, d), rest) => if bool_decide (rest = []) then Some (V4 a b c d) else None
  | None =>
      match read_ipv6 (bytes s) with
      | Some (segments, rest) => if bool_decide (rest = []) then Some (V6 segments) else None
      | None => None
      end
  end.

Example parse_ip_examples :
  map parse_ip ["127.0.0.1"; "127.0.0.01"; "127.0.0.1.evil.com"; "::1"; "0:0:0:0:0:0:0:1"; "::ffff:127.0.0.1"; "256.0.0.1"; "::1:8787"]%string
  = [Some (V4 127 0 0 1); None; None; Some (V6 [0; 0; 0; 0; 0; 0; 0; 1]); Some (V6 [0; 0; 0; 0; 0; 0; 0; 1]);
     Some (V6 [0; 0; 0; 0; 0; 65535; 32512; 1]); None; Some (V6 [0; 0; 0; 0; 0; 0; 1; 34695])].
Proof. vm_compute. reflexivity. Qed.

(** ** Lemmas: the text of an IPv4 address *)
Lemma leading_digits_spec radix s :
  let '(ds, rest) := leading_digits radix s in
  exists used, s = used ++ rest /\ mapM (to_digit radix) used = Some ds
    /\ match rest with [] => True | b :: _ => to_digit radix b = None end.
Proof.
  induction s as [|b s IH]; simpl; [by exists []|].
  destruct (to_digit radix b) as [d|] eqn:Hb; [|by exists []].
  destruct (leading_digits radix s) as [ds rest]. destruct IH as (used & -> & Hu & Hr).
  exists (b :: used). simpl. rewrite Hb. simpl. by rewrite Hu.
Qed.

Lemma leading_digits_app radix used ds rest :
  mapM (to_digit radix) used = Some ds -> match rest with [] => True | b :: _ => to_digit radix b = None end ->
  leading_digits radix (used ++ rest) = (ds, rest).
Proof.
  intros Hu Hr. revert ds Hu. induction used as [|b used IH]; intros ds Hu; simpl in *.
  - injection Hu as <-. destruct rest as [|b rest]; [done|]. simpl. by rewrite Hr.
  - destruct (to_digit radix b) as [d|]; [|done]. simpl in Hu.
    destruct (mapM (to_digit radix) used) as [ds'|]; [|done]. simpl in Hu. injection Hu as <-. by rewrite (IH ds').
Qed.

Lemma decimal_digit b d : to_digit 10 b = Some d -> b = 48 + d /\ 0 <= d < 10.
Proof.
  unfold to_digit, is_ascii_digit.
  repeat match goal with |- context [?a <=? ?b] => destruct (Z.leb_spec a b) end; cbn [andb];
    match goal with |- context [?a <? ?b] => destruct (Z.ltb_spec a b) end; intros Hd; simplify_eq; lia.
Qed.

(** The decimal text of every number below 1000 has its digits. *)
Definition below (n : nat) : list Z := map Z.of_nat (seq 0 n).
Lemma below_in n z : 0 <= z < Z.of_nat n -> z ∈ below n.
Proof.
  intros Hz. unfold below. apply list_elem_of_In, in_map_iff. exists (Z.to_nat z). rewrite in_seq. lia.
Qed.

Lemma three_digits :
  forallb (fun a => forallb (fun b => forallb (fun c =>
    (bool_decide (a = 0) || bool_decide (bytes (decimal (a * 100 + b * 10 + c)) = [48 + a; 48 + b; 48 + c]))
    && (bool_decide (b = 0) || bool_decide (bytes (decimal (b * 10 + c)) = [48 + b; 48 + c]))
    && bool_decide (bytes (decimal c) = [48 + c])) (below 10)) (below 10)) (below 10) = true.
Proof. vm_compute. reflexivity. Qed.

Lemma three_digits_at a b c : 0 <= a < 10 -> 0 <= b < 10 -> 0 <= c < 10 ->
  (a <> 0 -> bytes (decimal (a * 100 + b * 10 + c)) = [48 + a; 48 + b; 48 + c])
  /\ (b <> 0 -> bytes (decimal (b * 10 + c)) = [48 + b; 48 + c])
  /\ bytes (decimal c) = [48 + c].
Proof.
  intros Ha Hb Hc. pose proof three_digits as Hall.
  apply forallb_Forall in Hall. rewrite Forall_forall in Hall. specialize (Hall a (below_in 10 a Ha)).
  apply forallb_Forall in Hall. rewrite Forall_forall in Hall. specialize (Hall b (below_in 10 b Hb)).
  apply forallb_Forall in Hall. rewrite Forall_forall in Hall. specialize (Hall c (below_in 10 c Hc)).
  apply andb_true_iff in Hall as [[H1 H2]%andb_true_iff H3].
  apply orb_true_iff in H1. apply orb_true_iff in H2. rewrite !bool_decide_eq_true in *.
  split_and!; [intros; by destruct H1|intros; by destruct H2|done].
Qed.

(** An octet is read in its canonical decimal text only. *)
Lemma read_octet_spec s v rest :
  read_octet s = Some (v, rest) -> s = bytes (decimal v) ++ rest /\ 0 <= v <= 255.
Proof.
  unfold read_octet, read_number. pose proof (leading_digits_spec 10 s) as Hs.
  destruct (leading_digits 10 s) as [ds rest'] eqn:Hl. destruct Hs as (used & -> & Hu & _).
  destruct (3 <? length ds)%nat eqn:H3; [done|]. apply Nat.ltb_ge in H3.
  destruct (length ds =? 0)%nat eqn:H0; [done|]. apply Nat.eqb_neq in H0.
  destruct (_ && (1 <? length ds)%nat) eqn:Hz; [done|].
  destruct (Z.leb_spec (foldl (fun acc d => acc * 10 + d) 0 ds) 255) as [Hv|]; [|done].
  intros [= <- ->]. apply mapM_Some in Hu.
  assert (forall b d, to_digit 10 b = Some d -> b = 48 + d /\ 0 <= d < 10) as Hd by apply decimal_digit.
  destruct ds as [|c [|b [|a [|]]]]; [done| | | |simpl in H3; lia];
    repeat match goal with H : Forall2 _ _ (_ :: _) |- _ =>
      let b := fresh "x" in let Hb := fresh "Hb" in
      apply Forall2_cons_inv_r in H as (b & ? & Hb & H & ->); apply Hd in Hb as [-> ?] end;
    apply Forall2_nil_inv_r in Hu as ->; cbn [foldl app length] in *; rewrite ?Z.mul_0_l, ?Z.add_0_l in *.
  - destruct (three_digits_at 0 0 c) as (_ & _ & Hdec); [lia..|]. rewrite Hdec. split; [done|lia].
  - destruct (three_digits_at 0 c b) as (_ & Hdec & _); [lia..|].
    assert (c <> 0) as Hc. { intros ->. rewrite bool_decide_eq_true_2 in Hz by done. done. }
    rewrite Hdec by done. split; [done|lia].
  - destruct (three_digits_at c b a) as (Hdec & _ & _); [lia..|].
    assert (c <> 0) as Hc. { intros ->. rewrite bool_decide_eq_true_2 in Hz by done. done. }
    replace ((c * 10 + b) * 10 + a) with (c * 100 + b * 10 + a) by lia. rewrite Hdec by done. split; [done|lia].
Qed.

Lemma octets_read :
  forallb (fun v => bool_decide (read_octet (bytes (decimal v)) = Some (v, []))) (below 256) = true.
Proof. vm_compute. reflexivity. Qed.

Lemma read_octet_decimal v rest :
  0 <= v <= 255 -> match rest with [] => True | b :: _ => to_digit 10 b = None end ->
  read_octet (bytes (decimal v) ++ rest) = Some (v, rest).
Proof.
  intros Hv Hr. pose proof octets_read as Hall. apply forallb_Forall in Hall. rewrite Forall_forall in Hall.
  specialize (Hall v (below_in 256 v ltac:(lia))). apply bool_decide_eq_true in Hall.
  unfold read_octet, read_number in *. pose proof (leading_digits_spec 10 (bytes (decimal v))) as Hs.
  destruct (leading_digits 10 (bytes (decimal v))) as [ds rest'] eqn:Hl. destruct Hs as (used & Hu & Hm & _).
  assert (rest' = []) as ->.
  { destruct (3 <? length ds)%nat; [done|]. destruct (length ds =? 0)%nat; [done|].
    destruct (_ && (1 <? length ds)%nat); [done|]. destruct (_ <=? _); by simplify_eq. }
  rewrite app_nil_r in Hu. subst used. rewrite (leading_digits_app 10 _ ds rest) by done.
  assert (head (bytes (decimal v) ++ rest) = head (bytes (decimal v))) as ->.
  { pose proof (decimal_nonempty v). by destruct (decimal v). }
  destruct (3 <? length ds)%nat; [done|]. destruct (length ds =? 0)%nat; [done|].
  destruct (_ && (1 <? length ds)%nat); [done|]. destruct (_ <=? _); by simplify_eq.
Qed.

(** The text of an IPv4 address. *)
Definition v4_text (a b c d : Z) : list Z :=
  bytes (decimal a) ++ 46 :: bytes (decimal b) ++ 46 :: bytes (decimal c) ++ 46 :: bytes (decimal d).

Lemma read_ipv4_spec s a b c d rest :
  read_ipv4 s = Some ((a, b, c, d), rest) ->
  s = v4_text a b c d ++ rest /\ 0 <= a <= 255 /\ 0 <= b <= 255 /\ 0 <= c <= 255 /\ 0 <= d <= 255.
Proof.
  unfold read_ipv4, read_separator, v4_text.
  destruct (read_octet s) as [[a' s1]|] eqn:Ha; [|done]. apply read_octet_spec in Ha as [-> ?].
  destruct s1 as [|x s1]; [done|]. destruct (Z.eqb_spec x 46) as [->|]; [|done].
  destruct (read_octet s1) as [[b' s2]|] eqn:Hb; [|done]. apply read_octet_spec in Hb as [-> ?].
  destruct s2 as [|x s2]; [done|]. destruct (Z.eqb_spec x 46) as [->|]; [|done].
  destruct (read_octet s2) as [[c' s3]|] eqn:Hc; [|done]. apply read_octet_spec in Hc as [-> ?].
  destruct s3 as [|x s3]; [done|]. destruct (Z.eqb_spec x 46) as [->|]; [|done].
  destruct (read_octet s3) as [[d' s4]|] eqn:Hd; [|done]. apply read_octet_spec in Hd as [-> ?].
  intros [= -> -> -> -> ->]. split; [|lia]. rewrite <-!app_assoc. simpl. rewrite <-!app_assoc. simpl.
  by rewrite <-!app_assoc.
Qed.

Lemma read_ipv4_text a b c d :
  0 <= a <= 255 -> 0 <= b <= 255 -> 0 <= c <= 255 -> 0 <= d <= 255 ->
  read_ipv4 (v4_text a b c d) = Some ((a, b, c, d), []).
Proof.
  intros Ha Hb Hc Hd. unfold read_ipv4, read_separator, v4_text.
  rewrite read_octet_decimal by done. simpl. rewrite read_octet_decimal by done. simpl.
  rewrite read_octet_decimal by done. simpl. rewrite <-(app_nil_r (bytes (decimal d))).
  by rewrite read_octet_decimal by done.
Qed.

(** Hexadecimal digits, colons and dots. *)
Definition address_char (b : Z) : Prop := is_Some (to_digit 16 b) \/ b = 58 \/ b = 46.

Lemma read_number_uses radix n z max s v rest :
  read_number radix n z max s = Some (v, rest) ->
  exists used, s = used ++ rest /\ Forall (fun b => is_Some (to_digit radix b)) used.
Proof.
  unfold read_number. pose proof (leading_digits_spec radix s) as Hs.
  destruct (leading_digits radix s) as [ds rest']. destruct Hs as (used & -> & Hu & _).
  destruct (_ <? _)%nat; [done|]. destruct (_ =? _)%nat; [done|]. destruct (_ && _); [done|].
  destruct (_ <=? _); [|done]. intros [= _ <-]. exists used. split; [done|].
  apply mapM_Some in Hu. induction Hu as [|b d used ds Hb _ IH]; constructor; [by eexists|exact IH].
Qed.

Lemma decimal_is_hex b : is_Some (to_digit 10 b) -> is_Some (to_digit 16 b).
Proof. intros [d [-> Hd]%decimal_digit]. exists d. unfold to_digit, is_ascii_digit.
  rewrite (proj2 (Z.leb_le 48 _)), (proj2 (Z.leb_le _ 57)) by lia. cbn [andb].
  replace (48 + d - 48) with d by lia. by rewrite (proj2 (Z.ltb_lt d 16)) by lia.
Qed.

Lemma digits_are_address radix used :
  radix = 10 \/ radix = 16 -> Forall (fun b => is_Some (to_digit radix b)) used -> Forall address_char used.
Proof.
  intros Hr Hu. eapply Forall_impl; [exact Hu|]. intros b Hb. left. destruct Hr as [->| ->]; [|done].
  by apply decimal_is_hex.
Qed.

Lemma v4_text_chars a b c d : 0 <= a -> 0 <= b -> 0 <= c -> 0 <= d -> Forall address_char (v4_text a b c d).
Proof.
  intros Ha Hb Hc Hd. assert (forall n, 0 <= n -> Forall address_char (bytes (decimal n))) as Hn.
  { intros n Hn. eapply (digits_are_address 10); [by left|]. eapply Forall_impl; [by apply decimal_digits|].
    intros x Hx. exists (x - 48). unfold to_digit. rewrite Hx. unfold is_ascii_digit in Hx. bools.
    by rewrite (proj2 (Z.ltb_lt _ 10)) by lia. }
  assert (address_char 46) as Hdot by (by right; right).
  unfold v4_text. repeat (apply Forall_app; split; [by apply Hn|]; apply Forall_cons; split; [done|]). by apply Hn.
Qed.

Lemma read_separator_uses {A} sep i (inner : list Z -> option (A * list Z)) s v rest :
  address_char sep ->
  (forall s v rest, inner s = Some (v, rest) -> exists used, s = used ++ rest /\ Forall address_char used) ->
  read_separator sep i inner s = Some (v, rest) -> exists used, s = used ++ rest /\ Forall address_char used.
Proof.
  intros Hsep Hi. unfold read_separator. destruct i; [by apply Hi|]. destruct s as [|b s]; [done|].
  destruct (Z.eqb_spec b sep) as [->|]; [|done]. intros (used & -> & Hu)%Hi.
  exists (sep :: used). split; [done|by constructor].
Qed.

Lemma read_groups_uses slots i s :
  let '(_, _, rest) := read_groups slots i s in exists used, s = used ++ rest /\ Forall address_char used.
Proof.
  assert (address_char 58) as Hc by (by right; left).
  revert i s. induction slots as [|slots IH]; intros i s; [by exists []|]. cbn [read_groups].
  destruct (match slots with O => _ | _ => _ end) as [[[[[a b] c] d] rest]|] eqn:H4.
  - destruct slots; [done|]. eapply read_separator_uses; [exact Hc| |exact H4].
    intros s' [[[a' b'] c'] d'] rest' (-> & ? & ? & ? & ?)%read_ipv4_spec. eexists. split; [done|].
    apply v4_text_chars; lia.
  - clear H4. destruct (read_separator 58 i (read_number 16 4 true 65535) s) as [[g rest]|] eqn:Hg; [|by exists []].
    destruct (read_separator_uses 58 i (read_number 16 4 true 65535) s g rest Hc) as (used & -> & Hu); [|exact Hg|].
    { intros s' v' r' (used & -> & Hu)%read_number_uses. exists used. split; [done|].
        eapply (digits_are_address 16); [by right|done]. }
    specialize (IH (S i) rest). destruct (read_groups slots (S i) rest) as [[gs b] rest'].
    destruct IH as (used' & -> & Hu'). exists (used ++ used'). rewrite <-app_assoc. split; [done|].
    by apply Forall_app.
Qed.

(** An accepted address is text of these characters. *)
Lemma parse_ip_chars s ip : parse_ip s = Some ip -> Forall address_char (bytes s).
Proof.
  unfold parse_ip. destruct (read_ipv4 (bytes s)) as [[[[[a b] c] d] rest]|] eqn:H4.
  - case_bool_decide; [|done]. intros _. apply read_ipv4_spec in H4 as (-> & ? & ? & ? & ?). subst.
    rewrite app_nil_r. apply v4_text_chars; lia.
  - destruct (read_ipv6 (bytes s)) as [[segs rest]|] eqn:H6; [|done]. case_bool_decide; [|done]. intros _. subst.
    unfold read_ipv6 in H6. pose proof (read_groups_uses 8 0 (bytes s)) as Hg.
    destruct (read_groups 8 0 (bytes s)) as [[hd v4] r1]. destruct Hg as (used & -> & Hu).
    destruct (length hd =? 8)%nat; [simplify_eq; by rewrite app_nil_r|]. destruct v4; [done|].
    destruct r1 as [|x [|y r1]]; [done|done|].
    destruct (_ && _) eqn:Hxy; [|done]. apply andb_true_iff in Hxy as [->%Z.eqb_eq ->%Z.eqb_eq].
    pose proof (read_groups_uses (8 - (length hd + 1)) 0 r1) as Hg.
    destruct (read_groups (8 - (length hd + 1)) 0 r1) as [[tl v4] r2]. destruct Hg as (used' & -> & Hu').
    simplify_eq. rewrite app_nil_r. assert (address_char 58) by (by right; left).
    apply Forall_app. split; [done|]. by constructor; [|constructor].
Qed.
