(* ===== verification/RustFloat.v ===== *)
(** * Rust's [f64]

    Binary64 numbers as the Standard Library's [spec_float]: the operations round
    to nearest, ties to even, with 53 bits of precision, which is what Rust
    specifies for [+], [*], [/] and for conversions from integers. *)
From Stdlib Require Import ZArith Lia SpecFloat.

Open Scope Z_scope.

Definition f64 : Set := spec_float.

(** [n as f64] *)
Definition f64_of_int (n : Z) : f64 := binary_normalize 53 1024 n 0 false.
Definition f64_add : f64 -> f64 -> f64 := SFadd 53 1024.
Definition f64_sub : f64 -> f64 -> f64 := SFsub 53 1024.
Definition f64_mul : f64 -> f64 -> f64 := SFmul 53 1024.
Definition f64_div : f64 -> f64 -> f64 := SFdiv 53 1024.

(** The literal [n / d], correctly rounded. *)
Definition f64_lit (n d : Z) : f64 := f64_div (f64_of_int n) (f64_of_int d).

Definition f64_is_finite (x : f64) : bool :=
  match x with S754_zero _ | S754_finite _ _ _ => true | _ => false end.

(** The magnitude of the bit pattern: exponent and mantissa. *)
Definition f64_magnitude (x : f64) : Z :=
  match x with
  | S754_zero _ => 0
  | S754_finite _ m e => (e + 1074) * 2 ^ 52 + Z.pos m
  | S754_infinity _ => 2047 * 2 ^ 52
  | S754_nan => 2047 * 2 ^ 52 + 2 ^ 51
  end.
Definition f64_sign (x : f64) : bool :=
  match x with
  | S754_zero s | S754_infinity s | S754_finite s _ _ => s
  | S754_nan => false
  end.

(** [to_bits() as i64], with the other bits of negative numbers flipped: the key
    by which [total_cmp] compares. *)
Definition f64_key (x : f64) : Z := if f64_sign x then - f64_magnitude x - 1 else f64_magnitude x.

(** [a.total_cmp(&b)] *)
Definition total_cmp (a b : f64) : comparison := f64_key a ?= f64_key b.
