(* ===== verification/RustFloatProps.v ===== *)
(** * Rounding is monotone

    The operations of [RustFloat] on non-negative numbers, as one rounding of the
    exact result.  Numbers are compared at a common scale, as multiples of
    [2 ^ -4000], which is finer than any product of two binary64 numbers. *)
From stdpp Require Import base tactics.
From Stdlib Require Import ZArith Lia Bool SpecFloat.
From S2P Require Import RustFloat.

Open Scope Z_scope.

Module Rounding.

(** ** Numbers of digits *)
Lemma digits_log2 (p : positive) : Zdigits2 (Z.pos p) = Z.log2 (Z.pos p) + 1.
Proof.
  assert (digits2_pos p = Pos.size p) as H by (induction p; simpl; congruence).
  simpl. rewrite H. destruct p; simpl; lia.
Qed.

Lemma digits_spec N : 0 < N -> 2 ^ (Zdigits2 N - 1) <= N < 2 ^ Zdigits2 N.
Proof.
  destruct N as [|p|]; try lia. intros _. rewrite digits_log2.
  replace (Z.log2 (Z.pos p) + 1 - 1) with (Z.log2 (Z.pos p)) by lia.
  apply Z.log2_spec. lia.
Qed.

Lemma digits_nonneg N : 0 <= Zdigits2 N.
Proof. destruct N; simpl; lia. Qed.

Lemma digits_unique N d : 0 < N -> 2 ^ (d - 1) <= N < 2 ^ d -> Zdigits2 N = d.
Proof.
  intros HN [H1 H2]. destruct N as [|p|]; try lia. rewrite digits_log2.
  assert (1 <= d).
  { destruct (Z.lt_trichotomy d 0) as [Hd|[->|]]; [|simpl in H2; lia|lia].
    rewrite Z.pow_neg_r in H2 by done. lia. }
  rewrite (Z.log2_unique (Z.pos p) (d - 1)); [lia|lia|].
  replace (Z.succ (d - 1)) with d by lia. lia.
Qed.

Lemma digits_mono a b : 0 <= a <= b -> Zdigits2 a <= Zdigits2 b.
Proof.
  intros [Ha Hab]. destruct a as [|p|]; [apply digits_nonneg| |lia].
  destruct b as [|q|]; [lia| |lia]. rewrite !digits_log2. pose proof (Z.log2_le_mono _ _ Hab). lia.
Qed.

Lemma digits_scale N k : 0 < N -> 0 <= k -> Zdigits2 (N * 2 ^ k) = Zdigits2 N + k.
Proof.
  intros HN Hk. destruct (digits_spec N HN) as [H1 H2]. pose proof (digits_nonneg N).
  assert (0 < 2 ^ k) by (apply Z.pow_pos_nonneg; lia).
  assert (Zdigits2 N <> 0) by (destruct N; simpl; lia).
  apply digits_unique; [nia|]. replace (Zdigits2 N + k - 1) with (Zdigits2 N - 1 + k) by lia.
  rewrite !Z.pow_add_r by lia. nia.
Qed.

Lemma pow_pred n : 0 < n -> 2 ^ n = 2 ^ (n - 1) * 2.
Proof. intros Hn. change 2 with (2 ^ 1) at 3. rewrite <- Z.pow_add_r by lia. f_equal. lia. Qed.

(** ** Shifting to the right, with the bits that are lost *)
Definition rec_of (N n : Z) : shr_record :=
  if n =? 0 then Build_shr_record N false false
  else Build_shr_record (N / 2 ^ n) (Z.odd (N / 2 ^ (n - 1))) (negb (N mod 2 ^ (n - 1) =? 0)).

Lemma shr_1_eq m r s : 0 <= m -> shr_1 (Build_shr_record m r s) = Build_shr_record (m / 2) (Z.odd m) (r || s).
Proof.
  intros Hm. rewrite <- Z.div2_div. destruct m as [|p|]; [done| |lia]. by destruct p.
Qed.

Lemma rec_of_step N n : 0 <= N -> 0 <= n -> shr_1 (rec_of N n) = rec_of N (n + 1).
Proof.
  intros HN Hn. unfold rec_of. destruct (Z.eqb_spec (n + 1) 0); [lia|].
  replace (n + 1 - 1) with n by lia.
  destruct (Z.eqb_spec n 0) as [->|Hn0].
  { rewrite shr_1_eq by done. simpl. rewrite Z.div_1_r, Z.mod_1_r. done. }
  assert (0 < 2 ^ n) by (apply Z.pow_pos_nonneg; lia).
  rewrite shr_1_eq by (apply Z.div_pos; lia). f_equal.
  - rewrite Z.div_div by lia. f_equal. rewrite Z.pow_add_r by lia. done.
  - rewrite (pow_pred n) by lia.
    assert (0 < 2 ^ (n - 1)) by (apply Z.pow_pos_nonneg; lia).
    rewrite Z.rem_mul_r by lia. rewrite Zmod_odd.
    pose proof (Z.mod_pos_bound N (2 ^ (n - 1)) ltac:(lia)).
    destruct (Z.odd (N / 2 ^ (n - 1))), (Z.eqb_spec (N mod 2 ^ (n - 1)) 0);
      match goal with |- context [?x =? 0] => destruct (Z.eqb_spec x 0) end; simpl; try done; lia.
Qed.

Lemma iter_pos_iter {A} (f : A -> A) p x : iter_pos f p x = Pos.iter f x p.
Proof.
  revert x. induction p as [p IH|p IH|]; intros x; simpl; [|by rewrite !IH|done].
  rewrite !IH. f_equal. rewrite <- !Pos.iter_swap. done.
Qed.

Lemma shr_rec N k e n : 0 <= N -> 0 <= k -> 0 <= n -> shr (rec_of N k) e n = (rec_of N (k + n), e + n).
Proof.
  intros HN Hk Hn. destruct n as [|p|]; [by rewrite !Z.add_0_r| |lia]. simpl. f_equal.
  rewrite iter_pos_iter. clear Hn. induction p as [|p IH] using Pos.peano_ind.
  - change (Pos.iter shr_1 (rec_of N k) 1) with (shr_1 (rec_of N k)). by rewrite rec_of_step.
  - rewrite Pos.iter_succ, IH, rec_of_step by lia. f_equal. lia.
Qed.

(** ** Rounding a quotient by a power of two *)
Definition rne (N n : Z) : Z :=
  let q := N / 2 ^ n in
  match 2 * (N mod 2 ^ n) ?= 2 ^ n with
  | Lt => q
  | Eq => if Z.even q then q else q + 1
  | Gt => q + 1
  end.

Lemma rne_rec N n : 0 <= N -> 0 <= n ->
  round_nearest_even (shr_m (rec_of N n)) (loc_of_shr_record (rec_of N n)) = rne N n.
Proof.
  intros HN Hn. unfold rne, rec_of. destruct (Z.eqb_spec n 0) as [->|Hn0].
  { simpl. by rewrite Z.div_1_r, Z.mod_1_r. }
  assert (2 ^ n = 2 ^ (n - 1) * 2) as Hpow by (apply pow_pred; lia).
  assert (0 < 2 ^ (n - 1)) as Hpos by (apply Z.pow_pos_nonneg; lia).
  assert (N mod 2 ^ n = N mod 2 ^ (n - 1) + 2 ^ (n - 1) * Z.b2z (Z.odd (N / 2 ^ (n - 1)))) as ->.
  { rewrite Hpow, Z.rem_mul_r, Zmod_odd by lia. by destruct (Z.odd _). }
  pose proof (Z.mod_pos_bound N (2 ^ (n - 1)) ltac:(lia)) as Hb. rewrite Hpow. cbn [shr_m].
  destruct (Z.odd _), (Z.eqb_spec (N mod 2 ^ (n - 1)) 0) as [Hz|Hz]; cbn [Z.b2z negb loc_of_shr_record round_nearest_even].
  - rewrite Hz. replace (2 * _) with (2 ^ (n - 1) * 2) by lia. by rewrite Z.compare_refl.
  - match goal with |- context [?a ?= ?b] => assert (a > b) as Hc by lia end. by rewrite Hc.
  - match goal with |- context [?a ?= ?b] => assert (a < b) as Hc by lia end. by rewrite Hc.
  - match goal with |- context [?a ?= ?b] => assert (a < b) as Hc by lia end. by rewrite Hc.
Qed.

Lemma pow_pos n : 0 <= n -> 0 < 2 ^ n.
Proof. intros Hn. by apply Z.pow_pos_nonneg. Qed.

Lemma rne_exact c n : 0 <= n -> rne (c * 2 ^ n) n = c.
Proof.
  intros Hn. pose proof (pow_pos n Hn). unfold rne. rewrite Z.div_mul, Z.mod_mul by lia.
  destruct (Z.compare_spec (2 * 0) (2 ^ n)); [lia|done|lia].
Qed.

Lemma rne_mono a b n : 0 <= n -> 0 <= a <= b -> rne a n <= rne b n.
Proof.
  intros Hn [Ha Hab]. pose proof (pow_pos n Hn) as Hp.
  pose proof (Z.div_mod a (2 ^ n) ltac:(lia)) as H1. pose proof (Z.div_mod b (2 ^ n) ltac:(lia)) as H2.
  pose proof (Z.mod_pos_bound a (2 ^ n) Hp). pose proof (Z.mod_pos_bound b (2 ^ n) Hp).
  pose proof (Z.div_le_mono a b (2 ^ n) Hp Hab) as Hq. unfold rne.
  destruct (Z.compare_spec (2 * (a mod 2 ^ n)) (2 ^ n)), (Z.compare_spec (2 * (b mod 2 ^ n)) (2 ^ n));
    try destruct (Z.even (a / 2 ^ n)) eqn:Ea; try destruct (Z.even (b / 2 ^ n)) eqn:Eb; try lia;
    (destruct (Z.eq_dec (a / 2 ^ n) (b / 2 ^ n)) as [He|]; [|lia]; rewrite ?He in *; try congruence; nia).
Qed.

Lemma rne_scale N n k : 0 <= n -> 0 <= k -> rne (N * 2 ^ k) (n + k) = rne N n.
Proof.
  intros Hn Hk. pose proof (pow_pos n Hn). pose proof (pow_pos k Hk). unfold rne.
  rewrite Z.pow_add_r by lia. rewrite Z.div_mul_cancel_r, Z.mul_mod_distr_r by lia.
  rewrite Z.mul_assoc, <- (Zmult_compare_compat_r _ (2 ^ n) (2 ^ k)) by lia. done.
Qed.

(** ** Rounding at the common scale *)
Definition scale : Z := 4000.
Definition ONE : Z := 2 ^ scale.
(** How far a number at the common scale is shifted: to 53 digits, or to the least exponent. *)
Definition sh (K : Z) : Z := Z.max (Zdigits2 K - 53) 2926.
Definition R (K : Z) : Z := rne K (sh K) * 2 ^ sh K.

Lemma sh_bound K : 2926 <= sh K /\ Zdigits2 K <= 53 + sh K.
Proof. unfold sh. lia. Qed.

Lemma below_digits K : 0 <= K -> K < 2 ^ Zdigits2 K.
Proof. intros HK. destruct (Z.eq_dec K 0) as [->|]; [done|]. apply digits_spec. lia. Qed.

Lemma R_mono a b : 0 <= a <= b -> R a <= R b.
Proof.
  intros [Ha Hab]. unfold R. pose proof (sh_bound a) as [Ha0 Ha1]. pose proof (sh_bound b) as [Hb0 Hb1].
  assert (sh a <= sh b) as Hsh by (unfold sh; pose proof (digits_mono a b); lia).
  destruct (Z.eq_dec (sh a) (sh b)) as [Heq|Hne].
  { rewrite Heq. apply Z.mul_le_mono_nonneg_r; [pose proof (pow_pos (sh b)); lia|]. apply rne_mono; lia. }
  assert (sh b = Zdigits2 b - 53) as Hb by (unfold sh in *; lia).
  destruct (digits_spec b) as [Hblow _]. { destruct (Z.eq_dec b 0) as [->|]; [simpl in *; lia|lia]. }
  assert (2 ^ 52 <= rne b (sh b)) as Hlow.
  { rewrite <- (rne_exact (2 ^ 52) (sh b)) by lia. apply rne_mono; [lia|].
    rewrite <- Z.pow_add_r by lia. split; [apply Z.pow_nonneg; lia|].
    etrans; [|exact Hblow]. apply Z.pow_le_mono_r; lia. }
  assert (rne a (sh a) <= 2 ^ 53) as Hup.
  { rewrite <- (rne_exact (2 ^ 53) (sh a)) by lia. apply rne_mono; [lia|]. split; [done|].
    rewrite <- Z.pow_add_r by lia. pose proof (below_digits a Ha). etrans; [apply Z.lt_le_incl; done|].
    apply Z.pow_le_mono_r; lia. }
  transitivity (2 ^ 53 * 2 ^ sh a).
  { apply Z.mul_le_mono_nonneg_r; [apply Z.pow_nonneg; lia|done]. }
  transitivity (2 ^ 52 * 2 ^ sh b).
  { rewrite <- !Z.pow_add_r by lia. apply Z.pow_le_mono_r; lia. }
  apply Z.mul_le_mono_nonneg_r; [apply Z.pow_nonneg; lia|done].
Qed.

(** Multiples of the shift are not rounded. *)
Lemma R_exact c k : 0 <= c -> sh (c * 2 ^ k) <= k -> R (c * 2 ^ k) = c * 2 ^ k.
Proof.
  intros Hc Hk. unfold R. pose proof (sh_bound (c * 2 ^ k)) as [H0 _]. set (n := sh (c * 2 ^ k)) in *.
  replace (c * 2 ^ k) with (c * 2 ^ (k - n) * 2 ^ n) by (rewrite <- Z.mul_assoc, <- Z.pow_add_r by lia; do 2 f_equal; lia).
  rewrite rne_exact by lia. done.
Qed.

(** ** Floats *)

(** A non-negative finite number in canonical form, and its value at the common scale. *)
Definition nonneg (x : f64) : Prop :=
  match x with
  | S754_zero false => True
  | S754_finite false m e => bounded 53 1024 m e = true
  | _ => False
  end.
Definition val (x : f64) : Z :=
  match x with S754_finite _ m e => Z.pos m * 2 ^ (e + scale) | _ => 0 end.

Lemma fexp_eq d : fexp 53 1024 d = Z.max (d - 53) (-1074).
Proof. reflexivity. Qed.

Lemma bounded_iff m e :
  bounded 53 1024 m e = true <-> Z.max (Zdigits2 (Z.pos m) + e - 53) (-1074) = e /\ e <= 971.
Proof.
  unfold bounded, canonical_mantissa. rewrite fexp_eq. change (Z.pos (digits2_pos m)) with (Zdigits2 (Z.pos m)).
  destruct (Z.eqb_spec (Z.max (Zdigits2 (Z.pos m) + e - 53) (-1074)) e), (Z.leb_spec e (1024 - 53));
    simpl; intuition (lia || discriminate).
Qed.

Lemma val_nonneg x : 0 <= val x.
Proof. destruct x; cbn [val]; lia. Qed.

Lemma R_val x : nonneg x -> R (val x) = val x.
Proof.
  destruct x as [[]|[]| |[] m e]; cbn [val nonneg]; try done. intros [Hc He]%bounded_iff.
  apply R_exact; [lia|]. unfold scale, sh. rewrite digits_scale by lia. lia.
Qed.

(** The second pass of the rounding only renormalises. *)
Lemma round_tail M e :
  0 <= M <= 2 ^ 53 -> -1074 <= e <= 970 ->
  (M < 2 ^ 53 -> 0 < M -> Z.max (Zdigits2 M + e - 53) (-1074) = e) ->
  let '(mrs, e'') := shr_fexp 53 1024 M e loc_Exact in
  let x := match shr_m mrs with
           | Z0 => S754_zero false
           | Z.pos m => if Z.leb e'' (1024 - 53) then S754_finite false m e'' else S754_infinity false
           | _ => S754_nan
           end in
  nonneg x /\ val x = M * 2 ^ (e + scale).
Proof.
  intros HM He Hcanon. unfold shr_fexp. rewrite fexp_eq.
  destruct (Z.eq_dec M (2 ^ 53)) as [->|Hne].
  - assert (Zdigits2 (2 ^ 53) = 54) as -> by reflexivity.
    replace (Z.max (54 + e - 53) (-1074) - e) with 1 by lia.
    change (shr_record_of_loc (2 ^ 53) loc_Exact) with (rec_of (2 ^ 53) 0).
    rewrite shr_rec by lia. cbv zeta. change (shr_m (rec_of (2 ^ 53) (0 + 1))) with (Z.pos (2 ^ 52)).
    cbv iota. destruct (Z.leb_spec (e + 1) (1024 - 53)); [|lia]. split.
    + apply bounded_iff. change (Zdigits2 (Z.pos (2 ^ 52))) with 53. lia.
    + cbn [val]. change (Z.pos (2 ^ 52)) with (2 ^ 52). change (2 ^ 53) with (2 ^ 52 * 2 ^ 1).
      rewrite <- !Z.pow_add_r by (unfold scale; lia). f_equal. lia.
  - assert (Z.max (Zdigits2 M + e - 53) (-1074) - e <= 0) as Hle.
    { destruct (Z.eq_dec M 0) as [->|]; [simpl; lia|]. rewrite Hcanon by lia. lia. }
    assert (shr (shr_record_of_loc M loc_Exact) e (Z.max (Zdigits2 M + e - 53) (-1074) - e)
            = (Build_shr_record M false false, e)) as ->.
    { unfold shr. destruct (Z.max (Zdigits2 M + e - 53) (-1074) - e); [done|lia|done]. }
    cbn [shr_m]. destruct M as [|m|]; [done| |lia].
    destruct (Z.leb_spec e (1024 - 53)); [|lia]. split; [|done]. apply bounded_iff. rewrite Hcanon by lia. lia.
Qed.

Lemma rne_bounds N n : 0 <= N -> 0 <= n -> Zdigits2 N <= 53 + n ->
  0 <= rne N n <= 2 ^ 53 /\ (53 + n = Zdigits2 N -> 2 ^ 52 <= rne N n).
Proof.
  intros HN Hn Hd. pose proof (below_digits N HN) as Hlt. split; [split|].
  - rewrite <- (rne_exact 0 n) by done. apply rne_mono; lia.
  - rewrite <- (rne_exact (2 ^ 53) n) by done. apply rne_mono; [done|]. split; [done|].
    rewrite <- Z.pow_add_r by lia. etrans; [apply Z.lt_le_incl, Hlt|]. apply Z.pow_le_mono_r; lia.
  - intros Heq. rewrite <- (rne_exact (2 ^ 52) n) by done. apply rne_mono; [done|].
    rewrite <- Z.pow_add_r by lia. split; [apply Z.pow_nonneg; lia|].
    destruct (digits_spec N) as [Hlow _].
    { destruct (Z.eq_dec N 0) as [->|]; [change (Zdigits2 0) with 0 in Heq; lia|lia]. }
    etrans; [|exact Hlow]. apply Z.pow_le_mono_r; lia.
Qed.

Lemma digits_of_range M : 2 ^ 52 <= M < 2 ^ 53 -> Zdigits2 M = 53.
Proof. intros HM. apply digits_unique; [lia|]. exact HM. Qed.

(** The rounding of an exact number [N * 2 ^ E] that is at most [2 ^ 64]. *)
Lemma round_value N E :
  0 <= N -> -3000 <= E -> E <= fexp 53 1024 (Zdigits2 N + E) -> N * 2 ^ (E + scale) <= 2 ^ (scale + 64) ->
  let x := binary_round_aux 53 1024 false N E loc_Exact in
  nonneg x /\ val x = R (N * 2 ^ (E + scale)).
Proof.
  intros HN HE Hcanon Hsmall. rewrite fexp_eq in *.
  remember (Z.max (Zdigits2 N + E - 53) (-1074) - E) as n eqn:Hndef. assert (0 <= n) by lia.
  assert (shr_fexp 53 1024 N E loc_Exact = (rec_of N n, E + n)) as Hfirst.
  { unfold shr_fexp. rewrite fexp_eq, <- Hndef. change (shr_record_of_loc N loc_Exact) with (rec_of N 0).
    by rewrite shr_rec, Z.add_0_l by lia. }
  intros x. subst x. unfold binary_round_aux. rewrite Hfirst, rne_rec by lia.
  destruct (rne_bounds N n) as [HM Hbig]; [lia..|].
  assert (Zdigits2 N + E <= 65) as Htop.
  { destruct (Z.eq_dec N 0) as [->|]; [simpl in *; lia|]. destruct (digits_spec N) as [Hlow _]; [lia|].
    assert (2 ^ (Zdigits2 N - 1 + (E + scale)) <= 2 ^ (scale + 64)) as Hp.
    { etrans; [|exact Hsmall]. pose proof (digits_nonneg N). assert (Zdigits2 N <> 0) by (destruct N; simpl; lia).
      rewrite Z.pow_add_r by (unfold scale; lia). apply Z.mul_le_mono_nonneg_r; [apply Z.pow_nonneg; lia|done]. }
    apply Z.pow_le_mono_r_iff in Hp; unfold scale in *; lia. }
  pose proof (round_tail (rne N n) (E + n) HM ltac:(lia)) as Htail.
  assert (R (N * 2 ^ (E + scale)) = rne N n * 2 ^ (E + n + scale)) as ->.
  { destruct (Z.eq_dec N 0) as [->|HN0].
    { rewrite Z.mul_0_l. unfold rne. rewrite Z.div_0_l, Z.mod_0_l by (pose proof (pow_pos n); lia).
      destruct (Z.compare_spec (2 * 0) (2 ^ n)); pose proof (pow_pos n); try lia. reflexivity. }
    unfold R. assert (sh (N * 2 ^ (E + scale)) = n + (E + scale)) as ->.
    { unfold sh. rewrite digits_scale by (unfold scale; lia). unfold scale in *. lia. }
    rewrite rne_scale by (unfold scale; lia). do 2 f_equal. lia. }
  destruct (shr_fexp 53 1024 (rne N n) (E + n) loc_Exact) as [mrs e'']. apply Htail. intros Hlt Hpos.
  destruct (Z.le_gt_cases (-1074) (Zdigits2 N + E - 53)) as [Hn|Hsub].
  - assert (Zdigits2 (rne N n) = 53) as ->; [|lia]. apply digits_of_range. split; [|done]. apply Hbig. lia.
  - pose proof (digits_mono (rne N n) (2 ^ 53 - 1) ltac:(lia)) as Hd. change (Zdigits2 (2 ^ 53 - 1)) with 53 in Hd. lia.
Qed.

(** Aligning to a smaller exponent changes nothing. *)
Lemma shl_align_value m e e' :
  e' <= e -> shl_align m e e' = (Z.to_pos (Z.pos m * 2 ^ (e - e')), e').
Proof.
  intros Hle. unfold shl_align. destruct (e' - e) as [|d|d] eqn:Hd; [|lia|].
  - replace e' with e by lia. by rewrite Z.sub_diag, Z.mul_1_r.
  - f_equal. replace (e - e') with (Z.pos d) by lia.
    clear Hd Hle. apply Pos2Z.inj.
    change (Pos.iter xO m d) with (shift_pos d m). rewrite shift_pos_correct, Z2Pos.id by lia. lia.
Qed.

(** ** The operations *)
Definition unit_interval (x : f64) : Prop := nonneg x /\ val x <= ONE.

(** Canonical numbers above the least exponent have all their digits. *)
Lemma canonical_digits m e :
  bounded 53 1024 m e = true -> -1074 <= e <= 971 /\ Zdigits2 (Z.pos m) <= 53 /\ (e = -1074 \/ 2 ^ 52 <= Z.pos m).
Proof.
  intros [Hc He]%bounded_iff. split_and!; [lia|lia|lia|].
  destruct (Z.eq_dec e (-1074)); [by left|right].
  destruct (digits_spec (Z.pos m)) as [Hlow _]; [lia|]. etrans; [|exact Hlow]. apply Z.pow_le_mono_r; lia.
Qed.

Lemma mul_unit x y :
  unit_interval x -> unit_interval y -> unit_interval (f64_mul x y) /\ val (f64_mul x y) <= val x.
Proof.
  intros [Hx Hx1] [Hy Hy1].
  pose proof (val_nonneg x) as Hx0.
  destruct x as [[]|[]| |[] m1 e1]; try done; [destruct y as [[]|[]| |[] m2 e2]; done|].
  destruct y as [[]|[]| |[] m2 e2]; try done.
  pose proof (canonical_digits _ _ Hx) as (He1 & _ & Hm1). pose proof (canonical_digits _ _ Hy) as (He2 & _ & Hm2).
  assert (Z.pos (m1 * m2) * 2 ^ (e1 + e2 + scale) <= val (S754_finite false m1 e1)) as Hle.
  { cbn [val] in *. apply (Z.mul_le_mono_pos_r _ _ (2 ^ scale)); [done|].
    replace (Z.pos (m1 * m2) * 2 ^ (e1 + e2 + scale) * 2 ^ scale)
      with ((Z.pos m1 * 2 ^ (e1 + scale)) * (Z.pos m2 * 2 ^ (e2 + scale))).
    - apply Z.mul_le_mono_nonneg_l; [|exact Hy1]. pose proof (pow_pos (e1 + scale) ltac:(unfold scale; lia)). lia.
    - assert (2 ^ (e1 + scale) * 2 ^ (e2 + scale) = 2 ^ (e1 + e2 + scale) * 2 ^ scale) as Hpow.
      { rewrite <- !Z.pow_add_r by (unfold scale; lia). f_equal. lia. }
      rewrite Pos2Z.inj_mul, <- (Z.mul_assoc (Z.pos m1 * Z.pos m2)), <- Hpow.
      generalize (2 ^ (e1 + scale)), (2 ^ (e2 + scale)). intros. ring. }
  destruct (round_value (Z.pos (m1 * m2)) (e1 + e2)) as [Hn Hv]; [lia|lia| | |].
  - rewrite fexp_eq. destruct (Z.le_gt_cases (e1 + e2) (-1074)); [lia|].
    assert (53 <= Zdigits2 (Z.pos (m1 * m2))); [|lia].
    change 53 with (Zdigits2 (2 ^ 52)). apply digits_mono. split; [done|]. rewrite Pos2Z.inj_mul.
    destruct Hm1, Hm2; nia.
  - etrans; [exact Hle|]. etrans; [exact Hx1|]. unfold ONE. apply Z.pow_le_mono_r; unfold scale; lia.
  - change (f64_mul (S754_finite false m1 e1) (S754_finite false m2 e2))
      with (binary_round_aux 53 1024 false (Z.pos (m1 * m2)) (e1 + e2) loc_Exact).
    assert (val (binary_round_aux 53 1024 false (Z.pos (m1 * m2)) (e1 + e2) loc_Exact)
            <= val (S754_finite false m1 e1)) as Hmono.
    { rewrite Hv, <- (R_val (S754_finite false m1 e1)) by done. apply R_mono. split; [|exact Hle].
      pose proof (pow_pos (e1 + e2 + scale) ltac:(unfold scale; lia)). lia. }
    split; [split; [exact Hn|]|]; lia.
Qed.

Lemma round_normal N E :
  0 < N -> -1074 <= E -> N * 2 ^ (E + scale) <= 2 ^ (scale + 64) ->
  let x := binary_normalize 53 1024 N E false in nonneg x /\ val x = R (N * 2 ^ (E + scale)).
Proof.
  intros HN HE Hsmall. destruct N as [|p|]; [lia| |lia]. cbn [binary_normalize]. unfold binary_round.
  change (Z.pos (digits2_pos p)) with (Zdigits2 (Z.pos p)). rewrite fexp_eq.
  set (t := Z.max (Zdigits2 (Z.pos p) + E - 53) (-1074)).
  destruct (Z.le_gt_cases E t) as [Hle|Hgt].
  - assert (shl_align p E t = (p, E)) as ->.
    { unfold shl_align. by destruct (t - E) eqn:Ht; [| |lia]. }
    by apply round_value; rewrite ?fexp_eq; lia.
  - rewrite shl_align_value by lia.
    assert (Z.pos p * 2 ^ (E - t) * 2 ^ (t + scale) = Z.pos p * 2 ^ (E + scale)) as Hsame.
    { rewrite <- Z.mul_assoc, <- Z.pow_add_r by (unfold scale; lia). do 2 f_equal. lia. }
    pose proof (pow_pos (E - t) ltac:(lia)). rewrite Z2Pos.id by lia.
    rewrite <- Hsame in *. apply round_value; [lia|lia| |done].
    rewrite fexp_eq, digits_scale by lia. lia.
Qed.

Lemma add_value x y :
  nonneg x -> nonneg y -> val x + val y <= 2 ^ (scale + 64) ->
  nonneg (f64_add x y) /\ val (f64_add x y) = R (val x + val y).
Proof.
  intros Hx Hy Hsum.
  destruct x as [[]|[]| |[] m1 e1]; try done.
  { assert (f64_add (S754_zero false) y = y) as -> by (by destruct y as [[]|[]| |[] m2 e2]).
    cbn [val]. rewrite Z.add_0_l. split; [done|]. by rewrite R_val. }
  destruct y as [[]|[]| |[] m2 e2]; try done.
  { change (val (S754_zero false)) with 0. rewrite Z.add_0_r. split; [done|]. by rewrite R_val. }
  pose proof (canonical_digits _ _ Hx) as (He1 & _). pose proof (canonical_digits _ _ Hy) as (He2 & _).
  set (ez := Z.min e1 e2). unfold f64_add, SFadd. fold ez. rewrite !shl_align_value by lia. cbn [fst cond_Zopp].
  pose proof (pow_pos (e1 - ez) ltac:(lia)). pose proof (pow_pos (e2 - ez) ltac:(lia)).
  rewrite !Z2Pos.id by lia. cbn [val] in *.
  assert ((Z.pos m1 * 2 ^ (e1 - ez) + Z.pos m2 * 2 ^ (e2 - ez)) * 2 ^ (ez + scale)
          = Z.pos m1 * 2 ^ (e1 + scale) + Z.pos m2 * 2 ^ (e2 + scale)) as Heq.
  { rewrite Z.mul_add_distr_r, <- !Z.mul_assoc, <- !Z.pow_add_r by (unfold scale; lia).
    f_equal; do 2 f_equal; lia. }
  rewrite <- Heq in *. apply round_normal; [lia|lia|done].
Qed.

Lemma ONE_small : ONE + ONE <= 2 ^ (scale + 64).
Proof. unfold ONE. rewrite Z.pow_add_r by (unfold scale; lia). pose proof (pow_pos scale ltac:(unfold scale; lia)). nia. Qed.

(** Addition is monotone on the unit interval. *)
Lemma add_mono a b x y :
  unit_interval a -> unit_interval b -> nonneg x -> nonneg y -> val x <= val a -> val y <= val b ->
  nonneg (f64_add x y) /\ val (f64_add x y) <= val (f64_add a b).
Proof.
  intros [Ha Ha1] [Hb Hb1] Hx Hy Hxa Hyb. pose proof ONE_small.
  pose proof (val_nonneg x). pose proof (val_nonneg y).
  destruct (add_value x y Hx Hy ltac:(lia)) as [Hn ->].
  destruct (add_value a b Ha Hb ltac:(lia)) as [_ ->]. split; [done|]. apply R_mono. lia.
Qed.

Lemma int_value a :
  0 < a < 2 ^ 53 -> exists m e, f64_of_int a = S754_finite false m e /\ bounded 53 1024 m e = true
    /\ Z.pos m * 2 ^ (e + scale) = a * 2 ^ scale /\ Zdigits2 (Z.pos m) + e = Zdigits2 a.
Proof.
  intros Ha. pose proof (digits_mono a (2 ^ 53 - 1) ltac:(lia)) as Hd. change (Zdigits2 (2 ^ 53 - 1)) with 53 in Hd.
  pose proof (digits_nonneg a). assert (0 < 2 ^ scale) as Hs by (apply pow_pos; done).
  destruct (round_normal a 0) as [Hn Hv]; [lia|lia| |].
  { rewrite Z.add_0_l, Z.pow_add_r by (unfold scale; lia). nia. }
  rewrite Z.add_0_l, R_exact in Hv; [|lia|unfold sh; rewrite digits_scale by (unfold scale; lia); unfold scale; lia].
  fold (f64_of_int a) in Hn, Hv. destruct (f64_of_int a) as [[]|[]| |[] m e]; try done; cbn [val] in Hv; [lia|].
  exists m, e. split_and!; [done|done|done|].
  pose proof (canonical_digits _ _ Hn) as (He & _). apply (f_equal Zdigits2) in Hv.
  rewrite !digits_scale in Hv by (unfold scale; lia). lia.
Qed.

(** A quotient with its remainder bits, as an exact number two digits longer. *)
Definition loc_bits (l : location) : Z :=
  match l with loc_Exact => 0 | loc_Inexact Lt => 1 | loc_Inexact Eq => 2 | loc_Inexact Gt => 3 end.

Lemma record_bits q l : 0 <= q -> shr_record_of_loc q l = rec_of (4 * q + loc_bits l) 2.
Proof.
  intros Hq. unfold rec_of. change (2 =? 0) with false. change (2 ^ 2) with 4. change (2 ^ (2 - 1)) with 2.
  cbv iota. set (k := loc_bits l).
  assert (0 <= k < 4) as Hk by (subst k; destruct l as [|[]]; cbn; lia).
  assert ((4 * q + k) / 4 = q) as -> by (symmetry; apply (Z.div_unique _ 4 q k); lia).
  pose proof (Z.div_mod k 2 ltac:(lia)) as Hdm. pose proof (Z.mod_pos_bound k 2 ltac:(lia)).
  assert ((4 * q + k) / 2 = 2 * q + k / 2) as -> by (symmetry; apply (Z.div_unique _ 2 _ (k mod 2)); lia).
  assert ((4 * q + k) mod 2 = k mod 2) as -> by (symmetry; apply (Z.mod_unique _ 2 (2 * q + k / 2)); lia).
  rewrite Z.odd_add, Z.odd_mul. by destruct l as [|[]].
Qed.

(** The rounding of an inexact quotient is that of the longer exact number. *)
Lemma round_aux_loc q E l :
  0 < q -> E <= fexp 53 1024 (Zdigits2 q + E) ->
  binary_round_aux 53 1024 false q E l
  = binary_round_aux 53 1024 false (4 * q + loc_bits l) (E - 2) loc_Exact.
Proof.
  intros Hq Hcanon. rewrite fexp_eq in Hcanon.
  assert (0 <= loc_bits l < 4) as Hk by (destruct l as [|[]]; cbn; lia).
  assert (Zdigits2 (4 * q + loc_bits l) = Zdigits2 q + 2) as Hd.
  { destruct (digits_spec q Hq) as [H1 H2]. pose proof (digits_nonneg q).
    assert (Zdigits2 q <> 0) by (destruct q; simpl; lia).
    apply digits_unique; [lia|]. replace (Zdigits2 q + 2 - 1) with (Zdigits2 q - 1 + 2) by lia.
    rewrite !Z.pow_add_r by lia. change (2 ^ 2) with 4. lia. }
  assert (shr_fexp 53 1024 q E l = shr_fexp 53 1024 (4 * q + loc_bits l) (E - 2) loc_Exact) as Hsame.
  { unfold shr_fexp. rewrite Hd, !fexp_eq, record_bits by lia.
    change (shr_record_of_loc (4 * q + loc_bits l) loc_Exact) with (rec_of (4 * q + loc_bits l) 0).
    replace (Zdigits2 q + 2 + (E - 2) - 53) with (Zdigits2 q + E - 53) by lia.
    rewrite !shr_rec by lia. f_equal; [f_equal|]; lia. }
  unfold binary_round_aux. by rewrite Hsame.
Qed.

Lemma R_ONE : R ONE = ONE.
Proof. unfold ONE. rewrite <- (Z.mul_1_l (2 ^ scale)). apply R_exact; [lia|]. vm_compute. discriminate. Qed.

(** What the long division of two normal mantissas gives. *)
Lemma quotient_bounds m1 m2 s :
  2 ^ 52 <= m1 -> 0 < m2 < 2 ^ 53 -> 0 <= s -> m1 <= m2 * 2 ^ s ->
  let q := m1 * 2 ^ 53 / m2 in
  let k := loc_bits (new_location m2 (m1 * 2 ^ 53 mod m2)) in
  2 ^ 52 <= q /\ 4 * q + k <= 4 * 2 ^ (53 + s).
Proof.
  intros H1 H2 Hs Hle. pose proof (pow_pos s Hs). rewrite Z.pow_add_r by lia.
  pose proof (Z.div_mod (m1 * 2 ^ 53) m2 ltac:(lia)) as Hdm. pose proof (Z.mod_pos_bound (m1 * 2 ^ 53) m2 ltac:(lia)) as Hr.
  cbv zeta. set (q := m1 * 2 ^ 53 / m2) in *. set (r := (m1 * 2 ^ 53) mod m2) in *.
  assert (2 ^ 52 <= q) as Hq by (apply Z.div_le_lower_bound; [lia|]; nia). split; [done|].
  assert (0 <= loc_bits (new_location m2 r) < 4) as Hk by (destruct (new_location m2 r) as [|[]]; cbn; lia).
  destruct (Z.eq_dec r 0) as [Hr0|Hr0].
  - assert (loc_bits (new_location m2 r) = 0) as ->.
    { rewrite Hr0. unfold new_location, new_location_even, new_location_odd. by destruct (Z.even m2). }
    nia.
  - assert (q < 2 ^ 53 * 2 ^ s); [nia|lia].
Qed.

(** The quotient of two positive integers, the first not greater, is a score. *)
Lemma div_unit a b :
  0 < a <= b -> b < 2 ^ 53 -> unit_interval (f64_div (f64_of_int a) (f64_of_int b)).
Proof.
  intros Ha Hb. destruct (int_value a ltac:(lia)) as (m1 & e1 & -> & Hc1 & Hv1 & Hd1).
  destruct (int_value b ltac:(lia)) as (m2 & e2 & -> & Hc2 & Hv2 & Hd2).
  pose proof (digits_mono a b ltac:(lia)) as Hab. pose proof (digits_mono b (2 ^ 53 - 1) ltac:(lia)) as Hb53.
  change (Zdigits2 (2 ^ 53 - 1)) with 53 in Hb53.
  assert (0 < Zdigits2 a) by (destruct a; simpl; lia).
  pose proof (proj1 (bounded_iff _ _) Hc1). pose proof (proj1 (bounded_iff _ _) Hc2).
  destruct (canonical_digits _ _ Hc1) as (_ & _ & [?|Hm1]); [lia|].
  assert (Zdigits2 (Z.pos m1) = 53 /\ Zdigits2 (Z.pos m2) = 53) as [Hdm1 Hdm2] by lia.
  pose proof (proj2 (digits_spec (Z.pos m2) ltac:(lia))) as Hm2. rewrite Hdm2 in Hm2.
  assert (Z.pos m1 <= Z.pos m2 * 2 ^ (e2 - e1)) as Hle.
  { assert (Z.pos m1 * 2 ^ (e1 + scale) <= Z.pos m2 * 2 ^ (e2 + scale)) as Hsc.
    { rewrite Hv1, Hv2. apply Z.mul_le_mono_nonneg_r; [by apply Z.pow_nonneg|lia]. }
    replace (e2 + scale) with (e2 - e1 + (e1 + scale)) in Hsc by lia.
    rewrite (Z.pow_add_r 2 (e2 - e1)), Z.mul_assoc in Hsc by (unfold scale; lia).
    apply Z.mul_le_mono_pos_r in Hsc; [done|]. apply pow_pos. unfold scale. lia. }
  destruct (quotient_bounds (Z.pos m1) (Z.pos m2) (e2 - e1) Hm1 ltac:(lia) ltac:(lia) Hle) as [Hq Hup].
  unfold f64_div, SFdiv, SFdiv_core_binary. rewrite Hdm1, Hdm2, fexp_eq.
  replace (Z.min (Z.max (53 + e1 - (53 + e2) - 53) (-1074)) (e1 - e2)) with (e1 - e2 - 53) by lia.
  replace (e1 - e2 - (e1 - e2 - 53)) with 53 by lia. rewrite Z.shiftl_mul_pow2 by lia.
  unfold Z.div, Z.modulo in Hq, Hup. destruct (Z.div_eucl (Z.pos m1 * 2 ^ 53) (Z.pos m2)) as [q r]. cbn [xorb].
  set (k := loc_bits (new_location (Z.pos m2) r)) in *. set (E := e1 - e2 - 53) in *.
  assert (53 <= Zdigits2 q) as Hdq.
  { change 53 with (Zdigits2 (2 ^ 52)). apply digits_mono. lia. }
  assert (0 <= k < 4) as Hk by (subst k; destruct (new_location (Z.pos m2) r) as [|[]]; cbn; lia).
  rewrite round_aux_loc by (rewrite ?fexp_eq; lia). fold k.
  assert ((4 * q + k) * 2 ^ (E - 2 + scale) <= ONE) as Hone.
  { etrans; [apply Z.mul_le_mono_nonneg_r; [apply Z.pow_nonneg; lia|exact Hup]|].
    change 4 with (2 ^ 2). rewrite <- !Z.pow_add_r by (unfold scale; lia). unfold ONE.
    apply Z.pow_le_mono_r; lia. }
  assert (53 <= Zdigits2 (4 * q + k)) by (etrans; [exact Hdq|]; apply digits_mono; lia).
  pose proof (val_nonneg (S754_zero false)). pose proof ONE_small as Hsmall. assert (0 < ONE) by (by apply pow_pos).
  destruct (round_value (4 * q + k) (E - 2)) as [Hn Hv]; [lia|lia|rewrite fexp_eq; lia|lia|].
  split; [exact Hn|]. rewrite Hv, <- R_ONE. apply R_mono. split; [|done].
  pose proof (pow_pos (E - 2 + scale) ltac:(unfold scale; lia)). lia.
Qed.

(** ** Comparisons *)
Lemma mul_comm x y : nonneg x -> nonneg y -> f64_mul x y = f64_mul y x.
Proof.
  destruct x as [[]|[]| |[] m1 e1], y as [[]|[]| |[] m2 e2]; try done. intros _ _.
  unfold f64_mul, SFmul. by rewrite Pos.mul_comm, Z.add_comm.
Qed.

Lemma mul_unit_r x y :
  unit_interval x -> unit_interval y -> unit_interval (f64_mul x y) /\ val (f64_mul x y) <= val y.
Proof. intros Hx Hy. rewrite mul_comm by (apply Hx || apply Hy). by apply mul_unit. Qed.

(** Membership in the unit interval, decided. *)
Definition unitb (x : f64) : bool :=
  match x with
  | S754_zero false => true
  | S754_finite false m e => bounded 53 1024 m e && (val x <=? ONE)
  | _ => false
  end.
Lemma unitb_ok x : unitb x = true -> unit_interval x.
Proof.
  destruct x as [[]|[]| |[] m e]; try done.
  - intros [Hb Hv]%andb_true_iff. apply Z.leb_le in Hv. by split.
Qed.

(** Larger exponents mean larger numbers. *)
Lemma exponent_order m1 e1 m2 e2 :
  bounded 53 1024 m1 e1 = true -> bounded 53 1024 m2 e2 = true -> e1 < e2 ->
  Z.pos m1 * 2 ^ (e1 + scale) < Z.pos m2 * 2 ^ (e2 + scale)
  /\ (e1 + 1074) * 2 ^ 52 + Z.pos m1 < (e2 + 1074) * 2 ^ 52 + Z.pos m2.
Proof.
  intros H1 H2 Hlt. destruct (canonical_digits _ _ H1) as (He1 & Hd1 & _).
  destruct (canonical_digits _ _ H2) as (He2 & Hd2 & [?|Hm2]); [lia|].
  destruct (digits_spec (Z.pos m1)) as [_ Hm1]; [lia|].
  assert (Z.pos m1 < 2 ^ 53) as Hm53.
  { eapply Z.lt_le_trans; [exact Hm1|]. apply Z.pow_le_mono_r; lia. }
  split; [|nia]. replace (e2 + scale) with ((e2 - e1 - 1) + (1 + (e1 + scale))) by lia.
  rewrite (Z.pow_add_r 2 (e2 - e1 - 1)), (Z.pow_add_r 2 1) by (unfold scale; lia).
  pose proof (pow_pos (e2 - e1 - 1) ltac:(lia)) as HA. pose proof (pow_pos (e1 + scale) ltac:(unfold scale; lia)) as HP.
  revert HA HP. generalize (2 ^ (e2 - e1 - 1)), (2 ^ (e1 + scale)). intros A P HA HP. change (2 ^ 1) with 2.
  replace (Z.pos m2 * (A * (2 * P))) with (Z.pos m2 * (2 * A) * P) by ring.
  apply Z.mul_lt_mono_pos_r; [done|]. change (2 ^ 53) with (2 ^ 52 * 2) in Hm53. nia.
Qed.

(** [total_cmp] compares the numbers that non-negative floats denote. *)
Lemma key_order x y : nonneg x -> nonneg y -> (f64_key x < f64_key y <-> val x < val y).
Proof.
  intros Hx Hy.
  assert (forall m e, bounded 53 1024 m e = true -> 0 < Z.pos m * 2 ^ (e + scale) /\ 0 < (e + 1074) * 2 ^ 52 + Z.pos m) as Hpos.
  { intros m e Hb. destruct (canonical_digits _ _ Hb) as (He & _). pose proof (pow_pos (e + scale) ltac:(unfold scale; lia)). lia. }
  destruct x as [[]|[]| |[] m1 e1]; try done; destruct y as [[]|[]| |[] m2 e2]; try done; unfold f64_key;
    cbn [f64_sign f64_magnitude val].
  - specialize (Hpos _ _ Hy). lia.
  - specialize (Hpos _ _ Hx). lia.
  - destruct (Z.lt_trichotomy e1 e2) as [Hlt|[->|Hgt]].
    + destruct (exponent_order _ _ _ _ Hx Hy Hlt). lia.
    + destruct (canonical_digits _ _ Hx) as (He & _). pose proof (pow_pos (e2 + scale) ltac:(unfold scale; lia)). nia.
    + destruct (exponent_order _ _ _ _ Hy Hx Hgt). lia.
Qed.

Lemma leb_zero x : nonneg x -> SFleb (S754_zero false) x = true.
Proof. by destruct x as [[]|[]| |[] m e]. Qed.

Lemma one_eq : exists m, f64_of_int 1 = S754_finite false m (-52) /\ bounded 53 1024 m (-52) = true
  /\ Z.pos m * 2 ^ (-52 + scale) = ONE.
Proof.
  exists (2 ^ 52)%positive. split; [vm_compute; reflexivity|]. split; [reflexivity|].
  rewrite Pos2Z.inj_pow, <- Z.pow_add_r by (unfold scale; lia). reflexivity.
Qed.

Lemma leb_one x : unit_interval x -> SFleb x (f64_of_int 1) = true.
Proof.
  destruct one_eq as (m1 & -> & H1 & Hone). intros [Hn Hv].
  destruct x as [[]|[]| |[] m e]; try done. unfold SFleb, SFcompare. cbn [val] in Hv.
  destruct (Z.compare_spec e (-52)) as [->|Hlt|Hgt]; [|done|].
  - change (Pos.compare_cont Eq m m1) with (m ?= m1)%positive.
    assert (m <= m1)%positive as Hm.
    { rewrite <- Hone in Hv. apply Z.mul_le_mono_pos_r in Hv; [lia|]. by apply pow_pos. }
    unfold Pos.le in Hm. by destruct (m ?= m1)%positive.
  - destruct (exponent_order m1 (-52) m e H1 Hn Hgt) as [Hbig _]. lia.
Qed.
End Rounding.
