(* ===== verification/Circuit.v ===== *)
(** * Provider circuit breakers (src/extensions/bot/src/provider/circuit.rs)

    A circuit counts the recent transient failures of one provider, opens when
    they accumulate, lets one probe through after the delay and blocks for good on
    a failure of identity.  Times are milliseconds of a monotone clock, supplied by
    the caller; all of them are [u64]. *)
From stdpp Require Import base list gmap.
From Stdlib Require Import ZArith Lia.
From S2P Require Import Prelude.

Open Scope Z_scope.
Open Scope rust_scope.

Module Circuits.

Inductive ProviderFailureKind :=
| Success | TransportUnavailable | Timeout | Http5xx | RateLimited
| Authentication | Authorization | Configuration | ExecutableIdentity | ModelIdentity
| SandboxIdentity | ToolSchema | ResponseSchema | ProtocolDrift
| Cancelled | InvalidRequest | Busy.
#[export] Instance ProviderFailureKind_eq_dec : EqDecision ProviderFailureKind.
Proof. solve_decision. Defined.

Definition is_transient (k : ProviderFailureKind) : bool :=
  match k with TransportUnavailable | Timeout | Http5xx | RateLimited => true | _ => false end.
Definition is_blocked (k : ProviderFailureKind) : bool :=
  match k with
  | Authentication | Authorization | Configuration | ExecutableIdentity | ModelIdentity
  | SandboxIdentity | ToolSchema | ResponseSchema | ProtocolDrift => true
  | _ => false
  end.
Definition is_neutral (k : ProviderFailureKind) : bool :=
  match k with Cancelled | InvalidRequest | Busy => true | _ => false end.

(** A [Duration] is its number of nanoseconds. *)
Inductive RetryAfter := Absent | Valid (value : Z) | Invalid.

Definition secs (n : Z) : Z := n * 1000000000.

(** [RetryAfter::from_duration] *)
Definition from_duration (value : Z) : RetryAfter :=
  if (secs 1 <=? value) && (value <=? secs 900) then Valid value else Invalid.

Definition classify (retry : RetryAfter) (kind : ProviderFailureKind) : ProviderFailureKind :=
  match retry with
  | Absent => kind
  | Valid delay =>
      if bool_decide (kind = Http5xx \/ kind = RateLimited)
         && match from_duration delay with Valid _ => true | _ => false end
      then kind else ProtocolDrift
  | Invalid => ProtocolDrift
  end.

(** [d.as_nanos().div_ceil(1_000_000)], when it fits in 64 bits. *)
Definition millis (retry : RetryAfter) : option Z :=
  match retry with
  | Valid d => let ms := (d + 999999) / 1000000 in if ms <=? u64_max then Some ms else None
  | _ => None
  end.

Inductive CircuitPhase := Closed | Open | HalfOpen | Blocked.
#[export] Instance CircuitPhase_eq_dec : EqDecision CircuitPhase.
Proof. solve_decision. Defined.

Record CircuitSnapshot := mkSnapshot {
  phase : CircuitPhase;
  reason : option ProviderFailureKind;
  opening_level : Z;
  open_until_ms : option Z;
  probe_reserved : bool;
}.

Inductive CircuitUnavailable := UOpen | UBlocked | UBusy.

Record Circuit := mkCircuit {
  snapshot : CircuitSnapshot;
  recent : list Z;
  outstanding : gset Z;
  probe : option Z;
  next_permit : Z;
}.

(** [u64::saturating_add] and [u64::saturating_sub] *)
Definition saturating_add (a b : Z) : Z := Z.min u64_max (a + b).
Definition saturating_sub (a b : Z) : Z := Z.max 0 (a - b).

Definition closed_snapshot : CircuitSnapshot := mkSnapshot Closed None 0 None false.

(** [Circuit::new] *)
Definition new : Circuit := mkCircuit closed_snapshot [] ∅ None 0.

Definition block (c : Circuit) (r : ProviderFailureKind) : Circuit :=
  mkCircuit (mkSnapshot Blocked (Some r) (opening_level (snapshot c)) None false)
    [] ∅ None (next_permit c).

Definition restore_blocked (r : ProviderFailureKind) : option Circuit :=
  if negb (is_blocked r) then None else Some (block new r).

(** [Circuit::open] *)
Definition open (c : Circuit) (now_ms delay_ms level : Z) (r : ProviderFailureKind) : Circuit :=
  mkCircuit (mkSnapshot Open (Some r) level (Some (saturating_add now_ms delay_ms)) false)
    [] (outstanding c) None (next_permit c).

Definition availability (c : Circuit) (now_ms : Z) : result CircuitUnavailable unit :=
  let exhausted := if next_permit c =? u64_max then Err UBusy else Ok tt in
  match phase (snapshot c) with
  | Blocked => Err UBlocked
  | Open => if now_ms <? default u64_max (open_until_ms (snapshot c)) then Err UOpen else exhausted
  | HalfOpen => match probe c with Some _ => Err UBusy | None => exhausted end
  | Closed => exhausted
  end.

(** [reserve]: an open circuit whose delay is over becomes half open, and the
    permit it gives out is the probe. *)
Definition reserve (c : Circuit) (now_ms : Z) : result CircuitUnavailable Z * Circuit :=
  match availability c now_ms with
  | Err e => (Err e, c)
  | Ok _ =>
      let permit := next_permit c + 1 in
      let s := snapshot c in
      let s := if bool_decide (phase s = Open)
               then mkSnapshot HalfOpen (reason s) (opening_level s) None (probe_reserved s) else s in
      let half := bool_decide (phase s = HalfOpen) in
      let s := if half then mkSnapshot (phase s) (reason s) (opening_level s) (open_until_ms s) true
               else s in
      (Ok permit, mkCircuit s (recent c) ({[permit]} ∪ outstanding c)
                    (if half then Some permit else probe c) permit)
  end.

Definition set_probe (c : Circuit) (p : option Z) (reserved : bool) : Circuit :=
  let s := snapshot c in
  mkCircuit (mkSnapshot (phase s) (reason s) (opening_level s) (open_until_ms s) reserved)
    (recent c) (outstanding c) p (next_permit c).
Definition set_recent (c : Circuit) (r : list Z) : Circuit :=
  mkCircuit (snapshot c) r (outstanding c) (probe c) (next_permit c).
Definition set_outstanding (c : Circuit) (o : gset Z) : Circuit :=
  mkCircuit (snapshot c) (recent c) o (probe c) (next_permit c).
Definition set_until (c : Circuit) (until : Z) : Circuit :=
  let s := snapshot c in
  mkCircuit (mkSnapshot (phase s) (reason s) (opening_level s) (Some until) (probe_reserved s))
    (recent c) (outstanding c) (probe c) (next_permit c).

(** The failures within five minutes of [now_ms]. *)
Definition retain_recent (times : list Z) (now_ms : Z) : list Z :=
  filter (fun time => saturating_sub now_ms time <= 300000) times.

(** [complete]'s match on the phase, once the outcome is neither blocking nor neutral. *)
Definition settle (c : Circuit) (owns_probe : bool) (kind : ProviderFailureKind)
    (retry : RetryAfter) (now_ms : Z) : Circuit :=
  match phase (snapshot c) with
  | Closed =>
      let kept := retain_recent (recent c) now_ms in
      if is_transient kind
      then
        let c := set_recent c (kept ++ [now_ms]) in
        let normal := if (3 <=? length (recent c))%nat then 60000 else 0 in
        if negb (normal =? 0) || bool_decide (is_Some (millis retry))
        then open c now_ms (Z.max normal (default 0 (millis retry))) 0 kind
        else c
      else set_recent c kept
  | Open =>
      match millis retry with
      | Some delay =>
          if is_transient kind
          then set_until c (Z.max (default 0 (open_until_ms (snapshot c))) (saturating_add now_ms delay))
          else c
      | None => c
      end
  | HalfOpen =>
      if owns_probe
      then if bool_decide (kind = Success)
           then mkCircuit closed_snapshot [] (outstanding c) (probe c) (next_permit c)
           else if is_transient kind
           then
             let normal := if opening_level (snapshot c) =? 0 then 300000 else 900000 in
             open c now_ms (Z.min (Z.max normal (default 0 (millis retry))) 900000)
               (Z.min (opening_level (snapshot c) + 1) 2) kind
           else c
      else c
  | Blocked => c
  end.

(** [complete]: one accepted outcome, or [None] for stale, repeated or blocked work. *)
Definition complete (c : Circuit) (permit : Z) (kind : ProviderFailureKind) (retry : RetryAfter)
    (now_ms : Z) : option ProviderFailureKind * Circuit :=
  let removed := bool_decide (permit ∈ outstanding c) in
  let c := set_outstanding c (outstanding c ∖ {[permit]}) in
  if negb removed || bool_decide (phase (snapshot c) = Blocked) then (None, c)
  else
    let kind := classify retry kind in
    if is_blocked kind then (Some kind, block c kind)
    else
      let owns_probe := bool_decide (probe c = Some permit) in
      let c := if owns_probe then set_probe c None false else c in
      if is_neutral kind then (Some kind, c)
      else (Some kind, settle c owns_probe kind retry now_ms).

End Circuits.
