(* ===== verification/CircuitProps.v ===== *)
(** * What a circuit breaker guarantees

    [history c t fs log]: some sequence of calls under a clock that does not go
    back, last read at [t], led to the circuit [c]; [log] are the answers given,
    and [fs] the times of the transient failures accepted since the circuit was
    last closed. *)
From stdpp Require Import base list gmap.
From Stdlib Require Import ZArith Lia.
From S2P Require Import Prelude Circuit.

Open Scope Z_scope.
Open Scope rust_scope.

Module CircuitProps.
Import Circuits.

Inductive answer :=
| Granted (permit : Z)
| Refused (e : CircuitUnavailable)
| Accepted (permit : Z) (kind : ProviderFailureKind)
| Ignored (permit : Z).

Definition granted (log : list answer) : list Z :=
  omap (fun a => match a with Granted p => Some p | _ => None end) log.
Definition accepted (log : list answer) : list Z :=
  omap (fun a => match a with Accepted p _ => Some p | _ => None end) log.

Definition reserve_answer (r : result CircuitUnavailable Z) : answer :=
  match r with Ok p => Granted p | Err e => Refused e end.
Definition complete_answer (p : Z) (r : option ProviderFailureKind) : answer :=
  match r with Some k => Accepted p k | None => Ignored p end.

(** The failures counted after a completion that took [c] to [c']. *)
Definition failures_after (c c' : Circuit) (fs : list Z) (r : option ProviderFailureKind) (now : Z)
    : list Z :=
  if bool_decide (phase (snapshot c) = Closed /\ phase (snapshot c') = Closed)
  then match r with Some k => if is_transient k then fs ++ [now] else fs | None => fs end
  else [].

Inductive history : Circuit -> Z -> list Z -> list answer -> Prop :=
| history_new t : 0 <= t <= u64_max -> history new t [] []
| history_restored r c t : 0 <= t <= u64_max -> restore_blocked r = Some c -> history c t [] []
| history_reserve c t fs log now r c' :
    history c t fs log -> t <= now <= u64_max -> reserve c now = (r, c') ->
    history c' now fs (log ++ [reserve_answer r])
| history_complete c t fs log p k retry now r c' :
    history c t fs log -> t <= now <= u64_max -> complete c p k retry now = (r, c') ->
    history c' now (failures_after c c' fs r now) (log ++ [complete_answer p r]).

(** ** The invariant *)
Record circuit_ok (c : Circuit) (t : Z) (fs : list Z) : Prop := {
  ok_time : 0 <= t <= u64_max;
  ok_permits : 0 <= next_permit c <= u64_max;
  ok_outstanding : forall p, p ∈ outstanding c -> 1 <= p <= next_permit c;
  ok_probe : forall p, probe c = Some p -> phase (snapshot c) = HalfOpen /\ p ∈ outstanding c;
  ok_reserved : probe_reserved (snapshot c) = bool_decide (is_Some (probe c));
  ok_until : forall u, open_until_ms (snapshot c) = Some u ->
    phase (snapshot c) = Open /\ 0 <= u <= u64_max /\ u <= t + 900000;
  ok_open : phase (snapshot c) = Open -> is_Some (open_until_ms (snapshot c));
  ok_level : 0 <= opening_level (snapshot c) <= 2;
  ok_reason : match phase (snapshot c), reason (snapshot c) with
    | Closed, None => True
    | (Open | HalfOpen), Some k => is_transient k = true
    | Blocked, Some k => is_blocked k = true
    | _, _ => False
    end;
  ok_closed : phase (snapshot c) = Closed -> opening_level (snapshot c) = 0;
  ok_blocked : phase (snapshot c) = Blocked -> outstanding c = ∅;
  ok_recent : phase (snapshot c) <> Closed -> recent c = [];
  ok_few : (length (recent c) <= 2)%nat;
  ok_failures : phase (snapshot c) <> Closed -> fs = [];
  ok_past : Forall (fun x => 0 <= x <= t) fs;
  ok_counted : forall now, t <= now -> retain_recent (recent c) now = retain_recent fs now;
}.

Lemma new_ok t : 0 <= t <= u64_max -> circuit_ok new t [].
Proof. intros Ht. split; simpl; intros; first [done|lia|set_solver]. Qed.

Lemma block_ok c t fs now k :
  circuit_ok c t fs -> t <= now <= u64_max -> is_blocked k = true -> circuit_ok (block c k) now [].
Proof.
  intros Hc Hnow Hk. pose proof (ok_time _ _ _ Hc). pose proof (ok_permits _ _ _ Hc).
  pose proof (ok_level _ _ _ Hc). split; simpl; intros; first [done|lia|set_solver].
Qed.

Lemma retain_recent_app a b now : retain_recent (a ++ b) now = retain_recent a now ++ retain_recent b now.
Proof. apply filter_app. Qed.

Lemma retain_recent_twice l now later :
  now <= later -> retain_recent (retain_recent l now) later = retain_recent l later.
Proof.
  intros Hle. unfold retain_recent, saturating_sub. rewrite list_filter_filter.
  apply list_filter_iff. intros x. lia.
Qed.

Lemma retain_recent_now now : retain_recent [now] now = [now].
Proof. unfold retain_recent, saturating_sub. rewrite filter_cons_True; [done|lia]. Qed.

Lemma Forall_past t now (fs : list Z) :
  t <= now -> Forall (fun x => 0 <= x <= t) fs -> Forall (fun x => 0 <= x <= now) fs.
Proof. intros Hle Hfs. eapply Forall_impl; [exact Hfs|]. simpl. lia. Qed.

(** A classified outcome is transient only with an acceptable delay. *)
Lemma classify_transient retry k :
  is_blocked (classify retry k) = false ->
  match retry with
  | Absent => millis retry = None
  | Valid d => exists ms, millis retry = Some ms /\ 1000 <= ms <= 900000
                 /\ (k = Http5xx \/ k = RateLimited)
  | Invalid => False
  end /\ classify retry k = k.
Proof.
  unfold classify, from_duration, secs, millis. destruct retry as [|d|]; [done| |done].
  destruct (bool_decide_reflect (k = Http5xx \/ k = RateLimited)) as [Hk|]; [|done].
  destruct (Z.leb_spec (1 * 1000000000) d); [|done].
  destruct (Z.leb_spec d (900 * 1000000000)); [|done]. intros _. simpl. split; [|done].
  assert (1000 <= (d + 999999) / 1000000 <= 900000) as Hms.
  { split; [apply Z.div_le_lower_bound; lia|]. apply Z.lt_succ_r, Z.div_lt_upper_bound; lia. }
  destruct (Z.leb_spec ((d + 999999) / 1000000) u64_max); [|unfold u64_max in *; lia]. eauto.
Qed.

Lemma ok_later c t fs now : circuit_ok c t fs -> t <= now <= u64_max -> circuit_ok c now fs.
Proof.
  intros Hc Hnow. destruct Hc. split; try done; try lia.
  - intros u Hu. destruct (ok_until0 u Hu) as (? & ? & ?). split_and!; [done|lia|lia|lia].
  - by apply (Forall_past t); [lia|].
  - intros later Hl. apply ok_counted0. lia.
Qed.

(** A permit is taken back, and with it the probe when it was the probe. *)
Definition freed (c : Circuit) (p : Z) : Circuit :=
  let c' := set_outstanding c (outstanding c ∖ {[p]}) in
  if bool_decide (probe c' = Some p) then set_probe c' None false else c'.

Lemma freed_ok c t fs p : circuit_ok c t fs -> circuit_ok (freed c p) t fs.
Proof.
  intros []. unfold freed. simpl.
  destruct (bool_decide_reflect (probe c = Some p)) as [Hp|Hp]; split; simpl; first [done|set_solver].
Qed.

Lemma freed_phase c p : phase (snapshot (freed c p)) = phase (snapshot c).
Proof. unfold freed. by destruct (bool_decide _). Qed.

Lemma freed_recent c p : recent (freed c p) = recent c.
Proof. unfold freed. by destruct (bool_decide _). Qed.

Lemma open_ok c t fs delay level k :
  circuit_ok c t fs -> phase (snapshot c) <> Blocked -> 0 <= delay <= 900000 -> 0 <= level <= 2 ->
  is_transient k = true -> circuit_ok (open c t delay level k) t [].
Proof.
  intros [] Hp Hd Hl Hk. split; simpl; try (done || lia).
  - intros u [= <-]. unfold saturating_add, u64_max in *. split_and!; [done|lia|lia|lia].
Qed.

(** What a granted permit leaves, phase by phase. *)
Definition with_permit (c : Circuit) : Circuit :=
  let s := snapshot c in
  let permit := next_permit c + 1 in
  let probing until := mkSnapshot HalfOpen (reason s) (opening_level s) until true in
  match phase s with
  | Open => mkCircuit (probing None) (recent c) ({[permit]} ∪ outstanding c) (Some permit) permit
  | HalfOpen =>
      mkCircuit (probing (open_until_ms s)) (recent c) ({[permit]} ∪ outstanding c) (Some permit) permit
  | _ => mkCircuit s (recent c) ({[permit]} ∪ outstanding c) (probe c) permit
  end.

Lemma reserve_eq c now :
  reserve c now = match availability c now with
                  | Ok _ => (Ok (next_permit c + 1), with_permit c)
                  | Err e => (Err e, c)
                  end.
Proof.
  unfold reserve, with_permit. destruct (availability c now) as [[]|]; [|done].
  by destruct c as [[[] ????] ????].
Qed.

Lemma availability_ok c now :
  availability c now = Ok tt <->
  next_permit c <> u64_max
  /\ match phase (snapshot c) with
     | Closed => True
     | Open => default u64_max (open_until_ms (snapshot c)) <= now
     | HalfOpen => probe c = None
     | Blocked => False
     end.
Proof.
  unfold availability.
  destruct (phase (snapshot c)), (Z.eqb_spec (next_permit c) u64_max), (probe c),
    (Z.ltb_spec now (default u64_max (open_until_ms (snapshot c)))); intuition (congruence || lia).
Qed.

Lemma with_permit_ok c t fs :
  circuit_ok c t fs -> availability c t = Ok tt -> circuit_ok (with_permit c) t fs.
Proof.
  intros [] [Hnext Hphase]%availability_ok. unfold with_permit.
  assert (forall p, p ∈ {[next_permit c + 1]} ∪ outstanding c -> 1 <= p <= next_permit c + 1) as Hout.
  { intros p [->%elem_of_singleton|Hp]%elem_of_union; [lia|]. specialize (ok_outstanding0 p Hp). lia. }
  destruct (phase (snapshot c)) eqn:Hp; [| | |done]; split; simpl; rewrite ?Hp in *; try (done || lia).
  - intros p Hpr. by destruct (ok_probe0 p Hpr).
  - intros p [= <-]. split; [done|]. by apply elem_of_union_l, elem_of_singleton_2.
  - intros _. by apply ok_recent0.
  - intros _. by apply ok_failures0.
  - intros p [= <-]. split; [done|]. by apply elem_of_union_l, elem_of_singleton_2.
Qed.

Lemma reserve_ok c t fs r c' :
  circuit_ok c t fs -> reserve c t = (r, c') -> circuit_ok c' t fs.
Proof.
  intros Hc. rewrite reserve_eq. destruct (availability c t) as [[]|] eqn:Ha; intros [= _ <-]; [|done].
  by apply with_permit_ok.
Qed.

Lemma failures_closed c c' fs k now :
  phase (snapshot c) = Closed -> phase (snapshot c') = Closed ->
  failures_after c c' fs (Some k) now = if is_transient k then fs ++ [now] else fs.
Proof. intros Hc Hc'. unfold failures_after. by rewrite bool_decide_eq_true_2. Qed.

Lemma failures_other c c' fs r now :
  phase (snapshot c) <> Closed \/ phase (snapshot c') <> Closed -> failures_after c c' fs r now = [].
Proof. intros Hc. unfold failures_after. rewrite bool_decide_eq_false_2; [done|]. tauto. Qed.

(** New contents of the window of a closed circuit. *)
Lemma set_recent_ok c t fs l fs' :
  circuit_ok c t fs -> phase (snapshot c) = Closed -> (length l <= 2)%nat ->
  Forall (fun x => 0 <= x <= t) fs' ->
  (forall now, t <= now -> retain_recent l now = retain_recent fs' now) ->
  circuit_ok (set_recent c l) t fs'.
Proof. intros [] Hp Hl Hpast Hcount. by split; simpl. Qed.

Lemma retain_length l now : (length (retain_recent l now) <= length l)%nat.
Proof. apply length_filter. Qed.

(** The window after the failures up to [t]. *)
Lemma kept_counted c t fs now :
  circuit_ok c t fs -> t <= now -> retain_recent (retain_recent (recent c) t) now = retain_recent fs now.
Proof. intros Hc Hle. rewrite retain_recent_twice by done. by apply (ok_counted _ _ _ Hc). Qed.

Definition retry_bounded (retry : RetryAfter) : Prop :=
  millis retry = None \/ exists ms, millis retry = Some ms /\ 1000 <= ms <= 900000.

Lemma retry_default retry : retry_bounded retry -> 0 <= default 0 (millis retry) <= 900000.
Proof. intros [->|(ms & -> & ?)]; simpl; lia. Qed.

Lemma settle_closed_ok c t fs owns k retry :
  circuit_ok c t fs -> phase (snapshot c) = Closed -> retry_bounded retry ->
  circuit_ok (settle c owns k retry t) t (failures_after c (settle c owns k retry t) fs (Some k) t).
Proof.
  intros Hc Hp Hr. pose proof (retry_default _ Hr) as Hd.
  pose proof (retain_length (recent c) t) as Hlen. pose proof (ok_few _ _ _ Hc) as Hfew.
  unfold settle. rewrite Hp. destruct (is_transient k) eqn:Ht; cbv zeta.
  - simpl recent. set (three := (3 <=? _)%nat).
    match goal with |- context [if ?b then open _ _ _ _ _ else _] => destruct b eqn:Hb end.
    + rewrite failures_other by (by right). change (open (set_recent c _)) with (open c).
      apply (open_ok _ _ fs); [done|congruence| |lia|done]. destruct three; lia.
    + rewrite failures_closed, Ht by done. apply orb_false_iff in Hb as [H3 _].
      assert (three = false) as Hthree by (by destruct three).
      apply Nat.leb_gt in Hthree. apply (set_recent_ok _ _ fs); [done..|lia| |].
      * apply Forall_app. split; [apply Hc|]. apply Forall_singleton. pose proof (ok_time _ _ _ Hc). lia.
      * intros now Hnow. rewrite !retain_recent_app. f_equal. by apply (kept_counted _ _ fs).
  - rewrite failures_closed, Ht by done. apply (set_recent_ok _ _ fs); [done..|lia|apply Hc|].
    intros now. by apply kept_counted.
Qed.

Lemma settle_ok c t fs owns k retry :
  circuit_ok c t fs -> phase (snapshot c) <> Blocked -> retry_bounded retry ->
  (owns = true -> probe c = None) ->
  circuit_ok (settle c owns k retry t) t (failures_after c (settle c owns k retry t) fs (Some k) t).
Proof.
  intros Hc Hb Hr Hprobe. pose proof (retry_default _ Hr) as Hd. pose proof Hc as [].
  destruct (decide (phase (snapshot c) = Closed)) as [|Hnc]; [by apply settle_closed_ok|].
  rewrite failures_other by (by left). specialize (ok_failures0 Hnc) as ->.
  unfold settle. destruct (phase (snapshot c)) eqn:Hp; [done| | |done].
  - destruct (millis retry) as [ms|] eqn:Hms; [|done]. destruct (is_transient k); [|done]. simpl in Hd.
    destruct (ok_open0 eq_refl) as [u Hu]. destruct (ok_until0 u Hu) as (_ & ? & ?). rewrite Hu.
    split; simpl; rewrite ?Hp in *; try (done || lia).
    intros u' [= <-]. unfold saturating_add, u64_max in *. split_and!; [done|lia..].
  - destruct owns; [|done]. specialize (Hprobe eq_refl).
    destruct (bool_decide_reflect (k = Success)); [|destruct (is_transient k) eqn:Ht; [|done]].
    + split; simpl; rewrite ?Hprobe; try (done || lia).
    + apply (open_ok _ _ []); [done|congruence| |lia|done]. destruct (_ =? 0); lia.
Qed.

(** The completion of a permit in circulation, in terms of [freed]. *)
Lemma complete_eq c p k retry now :
  complete c p k retry now =
  if negb (bool_decide (p ∈ outstanding c)) || bool_decide (phase (snapshot c) = Blocked)
  then (None, set_outstanding c (outstanding c ∖ {[p]}))
  else
    let k := classify retry k in
    (Some k, if is_blocked k then block c k
             else if is_neutral k then freed c p
             else settle (freed c p) (bool_decide (probe c = Some p)) k retry now).
Proof.
  unfold complete, freed. simpl. destruct (negb _ || _); [done|].
  destruct (is_blocked _); [done|]. by destruct (is_neutral _).
Qed.

Lemma classified_retry retry k : is_blocked (classify retry k) = false -> retry_bounded retry.
Proof.
  intros Hb. destruct (classify_transient retry k Hb) as [Hr _].
  destruct retry; [by left| |done]. destruct Hr as (ms & ? & ? & _). right. by exists ms.
Qed.

Lemma unknown_permit c t fs p :
  circuit_ok c t fs -> negb (bool_decide (p ∈ outstanding c)) || bool_decide (phase (snapshot c) = Blocked) = true ->
  set_outstanding c (outstanding c ∖ {[p]}) = c.
Proof.
  intros [] [Hp%negb_true_iff|Hp]%orb_true_iff; bools; unfold set_outstanding; destruct c; simpl in *; f_equal.
  - apply leibniz_equiv. set_solver.
  - rewrite ok_blocked0 by done. apply leibniz_equiv. set_solver.
Qed.

Lemma circuit_complete_ok c t fs p k retry r c' :
  circuit_ok c t fs -> complete c p k retry t = (r, c') ->
  circuit_ok c' t (failures_after c c' fs r t).
Proof.
  intros Hc. rewrite complete_eq. destruct (negb _ || _) eqn:Hknown; intros [= <- <-].
  { rewrite (unknown_permit c t fs p Hc Hknown). unfold failures_after.
    destruct (bool_decide_reflect (phase (snapshot c) = Closed /\ phase (snapshot c) = Closed)) as [|Hn]; [done|].
    by rewrite <- (ok_failures _ _ _ Hc) by tauto. }
  apply orb_false_iff in Hknown as [_ Hnb]. bools.
  destruct (is_blocked (classify retry k)) eqn:Hb.
  { rewrite failures_other by (by right). apply (block_ok c t fs); [done| |done].
    pose proof (ok_time _ _ _ Hc). lia. }
  pose proof (freed_ok c t fs p Hc) as Hf. pose proof (freed_phase c p) as Hph.
  destruct (is_neutral (classify retry k)) eqn:Hn.
  { destruct (decide (phase (snapshot c) = Closed)) as [Hcl|Hcl].
    - rewrite failures_closed by congruence. destruct (is_transient (classify retry k)) eqn:Ht; [|done].
      by destruct (classify retry k).
    - rewrite failures_other by (by left). by rewrite <- (ok_failures _ _ _ Hc Hcl). }
  assert (failures_after c = failures_after (freed c p)) as ->.
  { unfold failures_after. by rewrite Hph. }
  apply settle_ok; [done|congruence|by eapply classified_retry|].
  unfold freed. simpl. intros Hp. by rewrite Hp.
Qed.

Lemma history_ok c t fs log : history c t fs log -> circuit_ok c t fs.
Proof.
  induction 1 as [t Ht|r c t Ht Hr|c t fs log now r c' H IH Hnow Hr|c t fs log p k retry now r c' H IH Hnow Hr].
  - by apply new_ok.
  - unfold restore_blocked in Hr. destruct (is_blocked r) eqn:Hb; [|done]. injection Hr as <-.
    by apply (block_ok new t []); [apply new_ok|lia|].
  - by eapply reserve_ok; [apply (ok_later _ t)|].
  - by eapply circuit_complete_ok; [apply (ok_later _ t)|].
Qed.

(** ** Permits *)
Record permits_ok (c : Circuit) (log : list answer) : Prop := {
  po_issued : forall p, p ∈ granted log -> 1 <= p <= next_permit c;
  po_granted : NoDup (granted log);
  po_accepted : NoDup (accepted log);
  po_outstanding : forall p, p ∈ outstanding c -> p ∈ granted log /\ p ∉ accepted log;
  po_from : forall p, p ∈ accepted log -> p ∈ granted log;
}.

Lemma granted_app a b : granted (a ++ b) = granted a ++ granted b.
Proof. apply omap_app. Qed.
Lemma accepted_app a b : accepted (a ++ b) = accepted a ++ accepted b.
Proof. apply omap_app. Qed.

Lemma NoDup_snoc {A} (l : list A) x : NoDup l -> x ∉ l -> NoDup (l ++ [x]).
Proof.
  intros Hl Hx. apply NoDup_app. split_and!; [done| |apply NoDup_singleton].
  intros y Hy ->%list_elem_of_singleton. done.
Qed.

Lemma permits_empty c : outstanding c = ∅ -> permits_ok c [].
Proof.
  intros Ho. split; rewrite ?Ho; try apply NoDup_nil_2; intros p; change (granted []) with (@nil Z);
    change (accepted []) with (@nil Z); set_solver.
Qed.

Lemma permits_granted c c' log :
  permits_ok c log -> 0 <= next_permit c -> next_permit c' = next_permit c + 1 ->
  outstanding c' = {[next_permit c + 1]} ∪ outstanding c ->
  permits_ok c' (log ++ [Granted (next_permit c + 1)]).
Proof.
  intros [] Hn Hnext Hout.
  assert (next_permit c + 1 ∉ granted log) as Hfresh.
  { intros Hin. specialize (po_issued0 _ Hin). lia. }
  split; rewrite ?granted_app, ?accepted_app, ?Hout, ?Hnext;
    change (granted [Granted (next_permit c + 1)]) with [next_permit c + 1];
    change (accepted [Granted (next_permit c + 1)]) with (@nil Z).
  - intros p [Hp| ->%list_elem_of_singleton]%elem_of_app; [specialize (po_issued0 _ Hp)|]; lia.
  - by apply NoDup_snoc.
  - by rewrite app_nil_r.
  - intros p [->%elem_of_singleton|Hp]%elem_of_union; rewrite app_nil_r, elem_of_app.
    + split; [right; by apply list_elem_of_singleton|]. intros Hacc. apply Hfresh, po_from0, Hacc.
    + destruct (po_outstanding0 p Hp). auto.
  - intros p. rewrite app_nil_r, elem_of_app. auto.
Qed.

(** A call that grants nothing: what it accepts was in circulation, and is not any more. *)
Lemma permits_ended c c' log a :
  permits_ok c log -> granted [a] = [] -> next_permit c' = next_permit c ->
  outstanding c' ⊆ outstanding c ->
  (forall p, p ∈ accepted [a] -> p ∈ outstanding c /\ p ∉ outstanding c') ->
  permits_ok c' (log ++ [a]).
Proof.
  intros [] Hg Hnext Hout Hacc. split; rewrite ?granted_app, ?accepted_app, ?Hg, ?app_nil_r, ?Hnext; try done.
  - destruct a as [| |p k|]; simpl; rewrite ?app_nil_r; try done. apply NoDup_snoc; [done|].
    destruct (Hacc p) as [Hp _]; [by apply list_elem_of_singleton|]. by destruct (po_outstanding0 p Hp).
  - intros p Hp. destruct (po_outstanding0 p (Hout p Hp)) as [Hgr Hna]. split; [done|].
    intros [|Hpa]%elem_of_app; [done|]. by destruct (Hacc p Hpa).
  - intros p [Hp|Hp]%elem_of_app; [auto|]. destruct (Hacc p Hp) as [Ho _]. by destruct (po_outstanding0 p Ho).
Qed.

Lemma settle_permits c owns k retry now :
  outstanding (settle c owns k retry now) = outstanding c
  /\ next_permit (settle c owns k retry now) = next_permit c.
Proof.
  unfold settle. destruct (phase (snapshot c)); [| | |done].
  - destruct (is_transient k); [|done]. cbv zeta. by destruct (negb _ || _).
  - destruct (millis retry); [|done]. by destruct (is_transient k).
  - destruct owns; [|done]. destruct (bool_decide _); [done|]. by destruct (is_transient k).
Qed.

Lemma freed_permits c p :
  outstanding (freed c p) = outstanding c ∖ {[p]} /\ next_permit (freed c p) = next_permit c.
Proof. unfold freed. by destruct (bool_decide _). Qed.

Lemma complete_permits c p k retry now r c' :
  complete c p k retry now = (r, c') ->
  next_permit c' = next_permit c /\ outstanding c' ⊆ outstanding c ∖ {[p]}
  /\ (is_Some r -> p ∈ outstanding c).
Proof.
  rewrite complete_eq. destruct (negb _ || _) eqn:Hk; intros [= <- <-].
  { simpl. split_and!; [done|done|]. by intros [? ?]. }
  apply orb_false_iff in Hk as [Hin _]. bools.
  destruct (freed_permits c p) as [Hfo Hfn].
  set (k' := classify retry k). set (owns := bool_decide (probe c = Some p)).
  destruct (settle_permits (freed c p) owns k' retry now) as [Hso Hsn].
  destruct (is_blocked k'); [split_and!; [done|simpl; set_solver|done]|].
  destruct (is_neutral k'); [by rewrite Hfo, Hfn|by rewrite Hso, Hsn, Hfo, Hfn].
Qed.

Lemma history_permits c t fs log : history c t fs log -> permits_ok c log.
Proof.
  induction 1 as [t Ht|r c t Ht Hr|c t fs log now r c' H IH Hnow Hr|c t fs log p k retry now r c' H IH Hnow Hr].
  - by apply permits_empty.
  - unfold restore_blocked in Hr. destruct (negb _); [done|]. injection Hr as <-.
    by apply permits_empty.
  - pose proof (ok_permits _ _ _ (history_ok _ _ _ _ H)). rewrite reserve_eq in Hr.
    destruct (availability c now) as [[]|e]; injection Hr as <- <-; simpl.
    + apply permits_granted; [done|lia|..]; unfold with_permit; by destruct (phase (snapshot c)).
    + apply (permits_ended c); [done..|]. intros p' Hp'. by apply not_elem_of_nil in Hp'.
  - destruct (complete_permits _ _ _ _ _ _ _ Hr) as (Hn & Ho & Hin).
    apply (permits_ended c); [done|by destruct r|done|set_solver|].
    destruct r as [k'|]; simpl; [|intros p' Hp'; by apply not_elem_of_nil in Hp'].
    intros p' ->%list_elem_of_singleton. split; [by apply Hin|set_solver].
Qed.

(** ** Properties *)

(** The transient failures counted at [now], the present one included. *)
Definition window (fs : list Z) (now : Z) : list Z := filter (fun x => now - x <= 300000) (fs ++ [now]).

Lemma retain_window c t fs now :
  circuit_ok c t fs -> t <= now -> retain_recent (recent c) now ++ [now] = window fs now.
Proof.
  intros Hc Hle. rewrite (ok_counted _ _ _ Hc) by done.
  rewrite <- (retain_recent_now now), <- retain_recent_app. unfold retain_recent, window.
  pose proof (Forall_past t now fs Hle (ok_past _ _ _ Hc)) as Hpast.
  assert (Forall (fun x => 0 <= x <= now) (fs ++ [now])) as Hall.
  { apply Forall_app. split; [done|]. apply Forall_singleton. pose proof (ok_time _ _ _ Hc). lia. }
  clear Hpast. induction (fs ++ [now]) as [|x l IH]; [done|]. apply Forall_cons in Hall as [Hx Hl].
  rewrite !filter_cons, IH by done. unfold saturating_sub.
  repeat case_decide; try done; lia.
Qed.

(** What an accepted outcome does to a closed circuit, exactly: a failure of
    identity blocks it; any other outcome that is not a transient failure leaves it
    closed; a transient failure opens it precisely when the provider asked for a
    delay or this is the third transient failure within five minutes since the
    circuit was last closed, and the delay is the larger of the provider's and one
    minute. *)
Theorem closed_circuit_opens_exactly (c : Circuit) (t : Z) (fs : list Z) (log : list answer)
    (p : Z) (kind effective : ProviderFailureKind) (retry : RetryAfter) (now : Z) (c' : Circuit)
    (Hrun : history c t fs log) (Hclosed : phase (snapshot c) = Closed) (Hnow : t <= now <= u64_max)
    (Hdone : complete c p kind retry now = (Some effective, c')) :
  let three := (3 <=? length (window fs now))%nat in
  let opens := three || bool_decide (is_Some (millis retry)) in
  effective = classify retry kind
  /\ (if is_blocked effective then phase (snapshot c') = Blocked
      else if is_transient effective && opens
      then phase (snapshot c') = Open
           /\ open_until_ms (snapshot c')
              = Some (Z.min u64_max (now + Z.max (if three then 60000 else 0) (default 0 (millis retry))))
      else phase (snapshot c') = Closed).
Proof.
  intros three opens. pose proof (ok_later _ _ _ now (history_ok _ _ _ _ Hrun) Hnow) as Hc.
  rewrite complete_eq in Hdone. destruct (negb _ || _); [done|]. injection Hdone as <- <-.
  split; [done|]. destruct (is_blocked (classify retry kind)); [done|].
  pose proof (freed_phase c p) as Hph. rewrite Hclosed in Hph.
  destruct (is_neutral (classify retry kind)) eqn:Hn.
  { destruct (classify retry kind); try done; by simpl. }
  unfold settle. rewrite Hph. destruct (is_transient (classify retry kind)); [|done].
  rewrite freed_recent.
  simpl recent. rewrite (retain_window c now fs now) by (done || lia). fold three. subst opens.
  destruct three; [done|]. simpl. by destruct (bool_decide _).
Qed.

(** An open circuit refuses every attempt until its delay is over, which is never
    more than fifteen minutes after the last call; from then on it admits exactly
    one attempt, the probe, and every further attempt is refused until that one
    completes. *)
Theorem open_circuit_admits_one_probe (c : Circuit) (t : Z) (fs : list Z) (log : list answer) (now : Z)
    (Hrun : history c t fs log) (Hopen : phase (snapshot c) = Open) (Hnow : t <= now <= u64_max)
    (Hleft : next_permit c <> u64_max) :
  exists until : Z, open_until_ms (snapshot c) = Some until /\ until <= t + 900000
  /\ (now < until -> reserve c now = (Err UOpen, c))
  /\ (until <= now -> exists c', reserve c now = (Ok (next_permit c + 1), c')
        /\ phase (snapshot c') = HalfOpen /\ probe c' = Some (next_permit c + 1)
        /\ probe_reserved (snapshot c') = true
        /\ (forall later, reserve c' later = (Err UBusy, c'))
        /\ (forall p kind retry later r c'', p <> next_permit c + 1 ->
             is_blocked (classify retry kind) = false ->
             complete c' p kind retry later = (r, c'') ->
             phase (snapshot c'') = HalfOpen /\ probe c'' = Some (next_permit c + 1))).
Proof.
  pose proof (history_ok _ _ _ _ Hrun) as []. destruct (ok_open0 Hopen) as [u Hu].
  destruct (ok_until0 u Hu) as (_ & _ & Hle). exists u. split_and!; [done|done| |].
  - intros Hlt. rewrite reserve_eq. unfold availability. rewrite Hopen, Hu. simpl.
    by destruct (Z.ltb_spec now u); [|lia].
  - intros Hge. assert (availability c now = Ok tt) as Ha.
    { apply availability_ok. by rewrite Hopen, Hu. }
    exists (with_permit c). rewrite reserve_eq, Ha. unfold with_permit. rewrite Hopen. split_and!; try done.
    intros p k retry later r c'' Hne Hb. rewrite complete_eq. destruct (negb _ || _); intros [= <- <-]; [done|].
    simpl probe. rewrite Hb, (bool_decide_eq_false_2 (Some _ = Some p)) by congruence.
    unfold freed. simpl probe. rewrite (bool_decide_eq_false_2 (Some _ = Some p)) by congruence.
    by destruct (is_neutral _).
Qed.

(** C28: Only a successful probe closes a circuit, and what it leaves is a circuit
    that counts nothing; a blocked circuit stays blocked, grants nothing and
    accepts nothing. *)
Theorem only_a_probe_closes_a_circuit (c : Circuit) (t : Z) (fs : list Z) (log : list answer)
    (Hrun : history c t fs log) (Hphase : phase (snapshot c) <> Closed) :
  (forall now r c', reserve c now = (r, c') -> phase (snapshot c') <> Closed)
  /\ (forall p kind retry now r c', complete c p kind retry now = (r, c') ->
        phase (snapshot c') = Closed ->
        phase (snapshot c) = HalfOpen /\ probe c = Some p /\ kind = Success /\ retry = Absent
        /\ r = Some Success /\ snapshot c' = snapshot new /\ recent c' = [] /\ probe c' = None)
  /\ (phase (snapshot c) = Blocked ->
        (forall now, reserve c now = (Err UBlocked, c))
        /\ (forall p kind retry now, complete c p kind retry now = (None, c))).
Proof.
  pose proof (history_ok _ _ _ _ Hrun) as Hc. split_and!.
  - intros now r c'. rewrite reserve_eq. destruct (availability c now) as [[]|]; intros [= _ <-]; [|done].
    unfold with_permit. destruct (phase (snapshot c)) eqn:Hp; simpl; congruence.
  - intros p k retry now r c'. rewrite complete_eq. destruct (negb _ || _); intros [= <- <-]; [done|].
    destruct (is_blocked (classify retry k)) eqn:Hb; [done|]. pose proof (freed_phase c p) as Hph.
    destruct (is_neutral _); [congruence|]. unfold settle. rewrite Hph.
    destruct (phase (snapshot c)) eqn:Hp; [congruence| | |congruence].
    + destruct (millis retry); [|congruence]. destruct (is_transient _); simpl; congruence.
    + destruct (bool_decide_reflect (probe c = Some p)) as [Hpr|]; [|congruence].
      destruct (bool_decide_reflect (classify retry k = Success)) as [Hk|].
      2:{ destruct (is_transient _); [done|congruence]. }
      intros _. destruct (classify_transient retry k Hb) as [Hr Heq]. rewrite Heq in Hk. subst k.
      destruct retry; [|by destruct Hr as (? & ? & ? & [|])|done].
      unfold freed. simpl. by rewrite bool_decide_eq_true_2.
  - intros Hb. split; [by intros now; rewrite reserve_eq; unfold availability; rewrite Hb|].
    intros p k retry now. rewrite complete_eq. rewrite Hb, orb_true_r.
    f_equal. apply (unknown_permit c t fs); [done|]. by rewrite Hb, orb_true_r.
Qed.

(** Permits are unique and their outcomes are accepted at most once: no two
    attempts share a permit, every accepted outcome belongs to a permit given out
    before it, and no permit has two accepted outcomes. *)
Theorem outcomes_are_accepted_once (c : Circuit) (t : Z) (fs : list Z) (log : list answer)
    (Hrun : history c t fs log) :
  NoDup (granted log) /\ NoDup (accepted log)
  /\ (forall before p kind after, log = before ++ Accepted p kind :: after ->
        p ∈ granted before /\ p ∉ accepted before).
Proof.
  pose proof (history_permits _ _ _ _ Hrun) as [_ Hg Ha _ _]. split_and!; [done|done|].
  clear Hg Ha. induction Hrun as [| |c t fs log now r c' H IH Hnow Hr|c t fs log p k retry now r c' H IH Hnow Hr];
    intros before p' kind after Hlog; try by destruct before.
  - destruct after as [|x after _] using rev_ind.
    { apply app_inj_tail in Hlog as [_ Hlog]. by destruct r. }
    rewrite app_comm_cons, app_assoc in Hlog. apply app_inj_tail in Hlog as [-> _]. by eapply IH.
  - destruct after as [|x after _] using rev_ind.
    { apply app_inj_tail in Hlog as [<- Hlog]. destruct r as [k'|]; [|done]. injection Hlog as <- _.
      destruct (complete_permits _ _ _ _ _ _ _ Hr) as (_ & _ & Hin).
      apply (po_outstanding _ _ (history_permits _ _ _ _ H)), Hin. by eexists. }
    rewrite app_comm_cons, app_assoc in Hlog. apply app_inj_tail in Hlog as [-> _]. by eapply IH.
Qed.

(** ** Examples *)
Inductive call := CReserve (now : Z) | CComplete (p : Z) (kind : ProviderFailureKind) (retry : RetryAfter) (now : Z).

Definition call_time (x : call) : Z := match x with CReserve now => now | CComplete _ _ _ now => now end.

(** One call, with the failures counted and the answers so far. *)
Definition play (st : Circuit * list Z * list answer) (x : call) : Circuit * list Z * list answer :=
  let '(c, fs, log) := st in
  match x with
  | CReserve now => let '(r, c') := reserve c now in (c', fs, log ++ [reserve_answer r])
  | CComplete p k retry now =>
      let '(r, c') := complete c p k retry now in
      (c', failures_after c c' fs r now, log ++ [complete_answer p r])
  end.

Fixpoint in_order (t : Z) (xs : list call) : bool :=
  match xs with
  | [] => true
  | x :: xs => (t <=? call_time x) && (call_time x <=? u64_max) && in_order (call_time x) xs
  end.

Lemma play_history xs c t fs log c' fs' log' :
  history c t fs log -> in_order t xs = true -> foldl play (c, fs, log) xs = (c', fs', log') ->
  history c' (foldl (fun _ x => call_time x) t xs) fs' log'.
Proof.
  revert c t fs log. induction xs as [|x xs IH]; intros c t fs log Hc; simpl.
  { by intros _ [= <- <- <-]. }
  intros [[Ht Hmax]%andb_true_iff Hxs]%andb_true_iff. bools.
  destruct x as [now|p k retry now]; simpl in *.
  - destruct (reserve c now) as [r c1] eqn:Hr. apply IH; [|done]. by eapply history_reserve.
  - destruct (complete c p k retry now) as [r c1] eqn:Hr. apply IH; [|done]. by eapply history_complete.
Qed.

Definition played (xs : list call) : Circuit * list Z * list answer := foldl play (new, [], []) xs.

Definition end_time (xs : list call) : Z := foldl (fun _ x => call_time x) 0 xs.

Lemma played_history xs :
  in_order 0 xs = true ->
  history (fst (fst (played xs))) (end_time xs) (snd (fst (played xs))) (snd (played xs)).
Proof.
  intros Hxs. apply (play_history xs new 0 [] []); [|done|].
  - apply history_new. unfold u64_max. lia.
  - unfold played. by destruct (foldl play _ xs) as [[] ?].
Qed.

Definition two_failures : list call :=
  [CReserve 0; CComplete 1 Timeout Absent 10; CReserve 12; CReserve 15; CComplete 2 Http5xx Absent 200000;
   CReserve 200001].
Definition opened : list call := two_failures ++ [CComplete 3 TransportUnavailable Absent 250000].
Definition probing : list call := opened ++ [CReserve 310000].

(** The third failure within five minutes opens the circuit for a minute. *)
Lemma closed_circuit_opens_exactly_witness :
  let c := fst (fst (played two_failures)) in
  let c' := snd (complete c 3 TransportUnavailable Absent 250000) in
  window (snd (fst (played two_failures))) 250000 = [10; 200000; 250000]
  /\ phase (snapshot c') = Open /\ open_until_ms (snapshot c') = Some 310000.
Proof.
  assert (fst (complete (fst (fst (played two_failures))) 3 TransportUnavailable Absent 250000)
          = Some TransportUnavailable) as Hr by (vm_compute; reflexivity).
  pose proof (closed_circuit_opens_exactly _ _ _ _ 3 TransportUnavailable TransportUnavailable Absent 250000
    (snd (complete (fst (fst (played two_failures))) 3 TransportUnavailable Absent 250000))
    (played_history two_failures eq_refl) ltac:(vm_compute; reflexivity)
    ltac:(vm_compute; intuition discriminate) ltac:(rewrite <- Hr; apply surjective_pairing)) as [_ H].
  split; [vm_compute; reflexivity|]. vm_compute in H. vm_compute. exact H.
Defined.

Lemma open_circuit_admits_one_probe_witness :
  let c := fst (fst (played opened)) in
  phase (snapshot c) = Open
  /\ exists until : Z, open_until_ms (snapshot c) = Some until /\ until <= 250000 + 900000.
Proof.
  pose proof (played_history opened eq_refl) as Hrun.
  destruct (open_circuit_admits_one_probe _ _ _ _ 310000 Hrun ltac:(vm_compute; reflexivity)
    ltac:(vm_compute; intuition discriminate) ltac:(vm_compute; discriminate)) as (u & Hu & Hle & _).
  split; [vm_compute; reflexivity|]. exists u. split; [exact Hu|exact Hle].
Defined.

Lemma only_a_probe_closes_a_circuit_witness :
  let c := fst (fst (played probing)) in
  let c' := snd (complete c 5 Success Absent 320000) in
  phase (snapshot c) = HalfOpen /\ phase (snapshot c') = Closed /\ probe c = Some 5.
Proof.
  pose proof (played_history probing eq_refl) as Hrun.
  destruct (only_a_probe_closes_a_circuit _ _ _ _ Hrun ltac:(vm_compute; discriminate)) as (_ & H & _).
  destruct (H 5 Success Absent 320000 _ _ (surjective_pairing _) ltac:(vm_compute; reflexivity))
    as (Hp & Hprobe & _).
  split; [exact Hp|]. split; [vm_compute; reflexivity|exact Hprobe].
Defined.

Lemma outcomes_are_accepted_once_witness :
  let log := snd (played (probing ++ [CComplete 3 Success Absent 310500; CComplete 4 Success Absent 320000])) in
  NoDup (accepted log) /\ accepted log = [1; 2; 3; 4].
Proof.
  pose proof (played_history (probing ++ [CComplete 3 Success Absent 310500; CComplete 4 Success Absent 320000])
    eq_refl) as Hrun.
  destruct (outcomes_are_accepted_once _ _ _ _ Hrun) as (_ & Ha & _).
  split; [exact Ha|vm_compute; reflexivity].
Defined.
End CircuitProps.
