(* ===== verification/Scoring.v ===== *)
(** * Provider scores (src/extensions/bot/src/provider/scoring.rs)

    Scores are [f64] in the unit interval: a baseline from qualification, blended
    with an exponentially weighted average of live outcomes. *)
From stdpp Require Import base list countable sorting.
From Stdlib Require Import ZArith Lia SpecFloat.
From S2P Require Import Prelude RustFloat StdNet Circuit.

Open Scope Z_scope.
Open Scope rust_scope.

Module Scores.
Import Circuits.

Inductive ScoreError := InvalidNumber | InvalidDuration | InvalidQualification | CapabilityMismatch.

Record NormalizedScore := mkScore { score : f64 }.

Definition one : f64 := f64_of_int 1.
Definition zero : f64 := S754_zero false.

(** [NormalizedScore::new] *)
Definition normalized (value : f64) : result ScoreError NormalizedScore :=
  if f64_is_finite value && SFleb zero value && SFleb value one
  then Ok (mkScore (if SFeqb value zero then zero else value))
  else Err InvalidNumber.

Inductive RequestClass := TextReadOnly | TextWithTools | VisionDescribe | VisionOcr.
#[export] Instance RequestClass_eq_dec : EqDecision RequestClass.
Proof. solve_decision. Defined.
#[export] Instance RequestClass_countable : Countable RequestClass.
Proof.
  refine (inj_countable'
    (fun c => match c with TextReadOnly => 0 | TextWithTools => 1 | VisionDescribe => 2 | VisionOcr => 3 end)
    (fun n => if n =? 0 then TextReadOnly else if n =? 1 then TextWithTools
              else if n =? 2 then VisionDescribe else VisionOcr) _).
  by intros [].
Defined.

Definition class_text (with_tools : bool) : RequestClass := if with_tools then TextWithTools else TextReadOnly.
Definition class_image (ocr : bool) : RequestClass := if ocr then VisionOcr else VisionDescribe.

Definition mandatory_mask (c : RequestClass) : Z :=
  match c with TextReadOnly => 7 | TextWithTools => 15 | VisionDescribe | VisionOcr => 3 end.
Definition latency_bounds (c : RequestClass) : Z * Z :=
  match c with
  | TextReadOnly => (1000, 30000)
  | TextWithTools => (1500, 45000)
  | VisionDescribe | VisionOcr => (2000, 60000)
  end.

(** [ProviderCapabilities] of provider.rs. *)
Record ProviderCapabilities := mkCapabilities {
  pc_text : bool; pc_streaming : bool; pc_structured_output : bool;
  pc_tools : bool; pc_vision : bool; pc_ocr : bool;
}.

Definition satisfies (have required : ProviderCapabilities) : bool :=
  (negb (pc_text required) || pc_text have)
  && (negb (pc_streaming required) || pc_streaming have)
  && (negb (pc_structured_output required) || pc_structured_output have)
  && (negb (pc_tools required) || pc_tools have)
  && (negb (pc_vision required) || pc_vision have)
  && (negb (pc_ocr required) || pc_ocr have).

Definition supported_by (c : RequestClass) (caps : ProviderCapabilities) : bool :=
  match c with
  | TextReadOnly => pc_text caps
  | TextWithTools => pc_text caps && pc_tools caps
  | VisionDescribe => pc_vision caps
  | VisionOcr => pc_ocr caps
  end.

Inductive ExecutionLocality := SameHost | PrivateNetwork | PublicRemote.
#[export] Instance ExecutionLocality_eq_dec : EqDecision ExecutionLocality.
Proof. solve_decision. Defined.

(** [ExecutionLocality::address] *)
Definition locality_of_address (address : IpAddr) : ExecutionLocality :=
  match address with
  | V4 a b _ _ =>
      if is_loopback address then SameHost
      else if v4_is_private a b then PrivateNetwork else PublicRemote
  | V6 segments =>
      if is_loopback address then SameHost
      else if Z.land (nth 0 segments 0) 65024 =? 64512 then PrivateNetwork else PublicRemote
  end.

(** The derived order of the enumeration. *)
Definition locality_rank (l : ExecutionLocality) : Z :=
  match l with SameHost => 0 | PrivateNetwork => 1 | PublicRemote => 2 end.
Definition locality_max (a b : ExecutionLocality) : ExecutionLocality :=
  if locality_rank b <? locality_rank a then a else b.

(** [hops.into_iter().max().unwrap_or(PublicRemote)] *)
Definition least_local (hops : list ExecutionLocality) : ExecutionLocality :=
  match hops with [] => PublicRemote | h :: rest => foldl locality_max h rest end.

Record QualificationScoreEvidence := mkEvidence {
  ev_request_class : RequestClass;
  ev_successful_attempts : Z;
  ev_mandatory_check_mask : Z;
  ev_successful_duration_ms : list Z;
  ev_locality : ExecutionLocality;
}.

Record ScoreComponents := mkComponents {
  sc_quality : NormalizedScore;
  sc_reliability : NormalizedScore;
  sc_latency : NormalizedScore;
  sc_locality : NormalizedScore;
}.

(** [0.40 * quality + 0.30 * reliability + 0.25 * latency + 0.05 * locality] *)
Definition weighted (c : ScoreComponents) : NormalizedScore :=
  mkScore
    (f64_add
      (f64_add
        (f64_add (f64_mul (f64_lit 40 100) (score (sc_quality c)))
                 (f64_mul (f64_lit 30 100) (score (sc_reliability c))))
        (f64_mul (f64_lit 25 100) (score (sc_latency c))))
      (f64_mul (f64_lit 5 100) (score (sc_locality c)))).

Record LiveComponent := mkLive { ewma : option NormalizedScore; count : Z }.

Definition live_new : LiveComponent := mkLive None 0.

(** [LiveComponent::observe] *)
Definition live_observe (l : LiveComponent) (value : NormalizedScore) : LiveComponent :=
  mkLive
    (Some (match ewma l with
           | None => value
           | Some old => mkScore (f64_add (f64_mul (f64_lit 2 10) (score value))
                                          (f64_mul (f64_lit 8 10) (score old)))
           end))
    (saturating_add (count l) 1).

Definition blended (l : LiveComponent) (baseline : NormalizedScore) : NormalizedScore :=
  match ewma l with
  | None => baseline
  | Some live =>
      let n := f64_div (f64_of_int (Z.min (count l) 20)) (f64_of_int 20) in
      mkScore (f64_add (f64_mul (score baseline) (f64_sub one n)) (f64_mul (score live) n))
  end.

Record ProviderScoreProfile := mkProfile {
  pf_request_class : RequestClass;
  pf_baseline : ScoreComponents;
  pf_quality : LiveComponent;
  pf_reliability : LiveComponent;
  pf_latency : LiveComponent;
}.

(** [ProviderScoreProfile::new] *)
Definition profile_new (c : RequestClass) (baseline : ScoreComponents) : ProviderScoreProfile :=
  mkProfile c baseline live_new live_new live_new.

Definition components (p : ProviderScoreProfile) : ScoreComponents :=
  mkComponents (blended (pf_quality p) (sc_quality (pf_baseline p)))
    (blended (pf_reliability p) (sc_reliability (pf_baseline p)))
    (blended (pf_latency p) (sc_latency (pf_baseline p)))
    (sc_locality (pf_baseline p)).

(** [ScoreProducerPolicy::latency] *)
Definition latency_score (class : RequestClass) (duration_ms : Z) : result ScoreError NormalizedScore :=
  let '(fast, slow) := latency_bounds class in
  let? value :=
    if duration_ms <=? fast then Ok one
    else if slow <=? duration_ms then Ok zero
    else
      let? ahead := ok_or (u64_checked_sub slow duration_ms) InvalidDuration in
      let? span := ok_or (u64_checked_sub slow fast) InvalidDuration in
      Ok (f64_div (f64_of_int ahead) (f64_of_int span)) in
  normalized value.

(** [ScoreProducerPolicy::locality] *)
Definition locality_score (l : ExecutionLocality) : NormalizedScore :=
  mkScore (match l with
           | SameHost => one
           | PrivateNetwork => f64_lit 5 10
           | PublicRemote => zero
           end).

(** [nearest_rank_p95] *)
Definition nearest_rank_p95 (durations : list Z) : option Z :=
  match durations with
  | [] => None
  | _ =>
      let sorted := merge_sort Z.le durations in
      let n := Z.of_nat (length sorted) in
      if n * 95 <=? u64_max
      then
        let rank := (n * 95 + 99) / 100 in
        if rank =? 0 then None else sorted !! Z.to_nat (rank - 1)
      else None
  end.

(** [ScoreProducerPolicy::qualification] *)
Definition qualification (e : QualificationScoreEvidence) : result ScoreError ProviderScoreProfile :=
  fail? negb ((4 <=? ev_successful_attempts e) && (ev_successful_attempts e <=? 5))
        || negb (Z.of_nat (length (ev_successful_duration_ms e)) =? ev_successful_attempts e)
        || negb (ev_mandatory_check_mask e =? mandatory_mask (ev_request_class e))
        || existsb (fun d => 900000 <? d) (ev_successful_duration_ms e)
  with InvalidQualification in
  let? p95 := ok_or (nearest_rank_p95 (ev_successful_duration_ms e)) InvalidQualification in
  let? latency := latency_score (ev_request_class e) p95 in
  Ok (profile_new (ev_request_class e)
        (mkComponents (mkScore one)
           (mkScore (f64_div (f64_of_int (ev_successful_attempts e)) (f64_of_int 5)))
           latency (locality_score (ev_locality e)))).

(** [ScoreProducerPolicy::compatibility] *)
Definition compatibility (class : RequestClass) (caps : ProviderCapabilities) (l : ExecutionLocality)
    : result ScoreError ProviderScoreProfile :=
  fail? negb (supported_by class caps) with CapabilityMismatch in
  Ok (profile_new class
        (mkComponents (mkScore one) (mkScore one) (mkScore (f64_lit 5 10)) (locality_score l))).

(** [ScoreProducerPolicy::observe]: the profile is updated only when nothing failed before. *)
Definition observe (p : ProviderScoreProfile) (outcome : ProviderFailureKind) (duration_ms : option Z)
    : result ScoreError ProviderScoreProfile :=
  if bool_decide (outcome = Success)
  then
    let valid := match duration_ms with Some d => if d <=? 900000 then Some d else None | None => None end in
    let? duration := ok_or valid InvalidDuration in
    let? latency := latency_score (pf_request_class p) duration in
    Ok (mkProfile (pf_request_class p) (pf_baseline p)
          (live_observe (pf_quality p) (mkScore one))
          (live_observe (pf_reliability p) (mkScore one))
          (live_observe (pf_latency p) latency))
  else if is_transient outcome || is_blocked outcome
  then Ok (mkProfile (pf_request_class p) (pf_baseline p) (pf_quality p)
             (live_observe (pf_reliability p) (mkScore zero)) (pf_latency p))
  else Ok p.

End Scores.
