(* ===== verification/Routing.v ===== *)
(** * Adaptive provider routing (src/extensions/bot/src/provider/routing.rs, domain.rs)

    The router owns, per provider, an identity, score profiles and a circuit; a
    selection ranks the providers that pass every gate and reserves an attempt of
    the best one.  [None] stands for a panic of the code ([expect], indexing). *)
From stdpp Require Import base list gmap strings sorting.
From Stdlib Require Import ZArith Lia.
From S2P Require Import Prelude RustStr RustFloat Circuit Scoring.

Open Scope Z_scope.
Open Scope rust_scope.

Module Routes.
Import Circuits Scores.

(** ** Provider identifiers (domain.rs) *)
Definition MAX_PROVIDER_ID_BYTES : Z := 64.

Inductive ProviderIdError := IdEmpty | TooLong | InvalidCharacter | InvalidSeparator.

(** [u8::to_ascii_lowercase] and [u8::to_ascii_uppercase] *)
Definition byte_to_lower (b : Z) : Z := if is_ascii_upper b then b + 32 else b.
Definition byte_to_upper (b : Z) : Z := if is_ascii_lower b then b - 32 else b.

(** The loop of [ProviderId::parse] over the bytes; [separator_ok] is false at the
    first byte and after a separator. *)
Fixpoint parse_id_bytes (raw : list Z) (separator_ok : bool) : result ProviderIdError (list Z) :=
  match raw with
  | [] => Ok []
  | b :: rest =>
      if (b =? 45) || (b =? 95)
      then
        fail? negb separator_ok with InvalidSeparator in
        let? r := parse_id_bytes rest false in Ok (45 :: r)
      else if is_ascii_alphanumeric b
      then let? r := parse_id_bytes rest true in Ok (byte_to_lower b :: r)
      else Err InvalidCharacter
  end.

(** [raw.trim()], as bytes. *)
Definition trimmed (raw : string) : list Z := concat (map encode_char (trim (chars raw))).

(** [ProviderId::parse] of the trimmed text.  Identifiers are kept as their bytes:
    the canonical form is ASCII. *)
Definition parse_trimmed (raw : list Z) : result ProviderIdError (list Z) :=
  fail? bool_decide (raw = []) with IdEmpty in
  fail? MAX_PROVIDER_ID_BYTES <? Z.of_nat (length raw) with TooLong in
  let? normalized := parse_id_bytes raw false in
  fail? bool_decide (last raw = Some 45 \/ last raw = Some 95) with InvalidSeparator in
  Ok normalized.

Definition parse_id (raw : string) : result ProviderIdError (list Z) := parse_trimmed (trimmed raw).

(** [env_segment] *)
Definition env_segment (id : list Z) : list Z :=
  map (fun b => byte_to_upper (if b =? 45 then 95 else b)) id.

(** The order of [ProviderId]: the strings' bytes. *)
Definition ProviderId := list Z.
Definition id_cmp (a b : ProviderId) : comparison :=
  if bytes_ltb a b then Lt else if bytes_ltb b a then Gt else Eq.
Definition id_le (a b : ProviderId) : Prop := bytes_ltb b a = false.

(** ** Router state *)
Inductive RouteUnavailableReason :=
| NoConfiguredProvider | CapabilityUnavailable | PolicyDenied | AllOpen
| BlockedPendingRequalification | RouteBusy | BudgetExhausted.

(** The derived order of the reasons. *)
Definition reason_rank (r : RouteUnavailableReason) : Z :=
  match r with
  | NoConfiguredProvider => 0 | CapabilityUnavailable => 1 | PolicyDenied => 2 | AllOpen => 3
  | BlockedPendingRequalification => 4 | RouteBusy => 5 | BudgetExhausted => 6
  end.

Record RouteAdmission := mkAdmission {
  configured : bool; identity_current : bool; capability_allowed : bool;
  policy_allowed : bool; budget_available : bool; capacity_available : bool;
}.
Definition QUALIFIED : RouteAdmission := mkAdmission true true true true true true.

(** [RouteAdmission::check] *)
Definition admission_check (a : RouteAdmission) : result RouteUnavailableReason unit :=
  fail? negb (configured a) with NoConfiguredProvider in
  fail? negb (identity_current a) with BlockedPendingRequalification in
  fail? negb (capability_allowed a) with CapabilityUnavailable in
  fail? negb (policy_allowed a) with PolicyDenied in
  fail? negb (budget_available a) with BudgetExhausted in
  fail? negb (capacity_available a) with RouteBusy in
  Ok tt.

Record ProviderIdentityHashes := mkIdentity {
  abbey_binary_sha256 : string; provider_binary_sha256 : option string; model_sha256 : option string;
  os_sha256 : option string; tool_schema_sha256 : string; sandbox_sha256 : option string;
}.
#[export] Instance ProviderIdentityHashes_eq_dec : EqDecision ProviderIdentityHashes.
Proof. solve_decision. Defined.

Record RouteDecision := mkDecision {
  rd_provider_id : ProviderId;
  rd_components : ScoreComponents;
  rd_weighted_score : NormalizedScore;
  rd_tie_position : Z;
}.

Record RouteAttempt := mkAttempt {
  ra_provider_id : ProviderId; ra_generation : Z; ra_class : RequestClass; ra_permit : Z;
}.

Record ProviderState := mkState {
  ps_identity : ProviderIdentityHashes;
  ps_generation : Z;
  ps_profiles : gmap RequestClass ProviderScoreProfile;
  ps_circuit : Circuit;
  ps_admission : RouteAdmission;
}.

Record AdaptiveRouter := mkRouter {
  providers : gmap ProviderId ProviderState;
  configured_order : list ProviderId;
  next_generation : Z;
}.

Definition router_new (order : list ProviderId) : AdaptiveRouter := mkRouter ∅ order 0.
Definition set_order (r : AdaptiveRouter) (order : list ProviderId) : AdaptiveRouter :=
  mkRouter (providers r) order (next_generation r).
Definition set_state (r : AdaptiveRouter) (id : ProviderId) (st : ProviderState) : AdaptiveRouter :=
  mkRouter (<[id:=st]> (providers r)) (configured_order r) (next_generation r).
Definition set_circuit (st : ProviderState) (c : Circuit) : ProviderState :=
  mkState (ps_identity st) (ps_generation st) (ps_profiles st) c (ps_admission st).
Definition set_profile (st : ProviderState) (class : RequestClass) (p : ProviderScoreProfile) : ProviderState :=
  mkState (ps_identity st) (ps_generation st) (<[class:=p]> (ps_profiles st)) (ps_circuit st) (ps_admission st).

Definition circuit_reason (r : CircuitUnavailable) : RouteUnavailableReason :=
  match r with UOpen => AllOpen | UBlocked => BlockedPendingRequalification | UBusy => RouteBusy end.

(** [ProviderState::assess] *)
Definition state_assess (st : ProviderState) (class : RequestClass) (now_ms : Z) (a : RouteAdmission)
    : result RouteUnavailableReason unit :=
  let? _ := admission_check a in
  fail? negb (bool_decide (is_Some (ps_profiles st !! class))) with CapabilityUnavailable in
  map_err circuit_reason (availability (ps_circuit st) now_ms).

(** The map of [requalify]: [None] when a class occurs twice. *)
Definition profiles_by_class (profiles : list ProviderScoreProfile)
    : option (gmap RequestClass ProviderScoreProfile) :=
  foldl (fun acc p =>
    match acc with
    | Some m => match m !! pf_request_class p with
                | Some _ => None
                | None => Some (<[pf_request_class p := p]> m)
                end
    | None => None
    end) (Some ∅) profiles.

Definition requalify (r : AdaptiveRouter) (id : ProviderId) (identity : ProviderIdentityHashes)
    (profiles : list ProviderScoreProfile) (admission : RouteAdmission) : bool * AdaptiveRouter :=
  match u64_checked_add (next_generation r) 1 with
  | None => (false, r)
  | Some generation =>
      match profiles_by_class profiles with
      | None => (false, r)
      | Some by_class =>
          (true, mkRouter (<[id := mkState identity generation by_class new admission]> (providers r))
                   (configured_order r) generation)
      end
  end.

(** [AdaptiveRouter::restore_blocked] *)
Definition router_restore_blocked (r : AdaptiveRouter) (id : ProviderId) (identity : ProviderIdentityHashes)
    (reason : ProviderFailureKind) : bool * AdaptiveRouter :=
  match providers r !! id with
  | Some st =>
      if bool_decide (ps_identity st = identity)
      then match restore_blocked reason with
           | Some c => (true, set_state r id (set_circuit st c))
           | None => (false, r)
           end
      else (false, r)
  | None => (false, r)
  end.

Definition set_admission (r : AdaptiveRouter) (id : ProviderId) (a : RouteAdmission) : AdaptiveRouter :=
  match providers r !! id with
  | Some st => set_state r id (mkState (ps_identity st) (ps_generation st) (ps_profiles st) (ps_circuit st) a)
  | None => r
  end.

Definition profile_of (r : AdaptiveRouter) (id : ProviderId) (class : RequestClass)
    : option ProviderScoreProfile :=
  match providers r !! id with Some st => ps_profiles st !! class | None => None end.

(** The walk of the BTree map, in the order of identifiers. *)
Definition entry_le (a b : ProviderId * ProviderState) : Prop := id_le (fst a) (fst b).
#[export] Instance entry_le_dec : RelDecision entry_le.
Proof. intros a b. unfold entry_le, id_le. apply _. Defined.
Definition in_id_order (m : gmap ProviderId ProviderState) : list (ProviderId * ProviderState) :=
  merge_sort entry_le (map_to_list m).

(** [AdaptiveRouter::snapshot] *)
Definition router_snapshot (r : AdaptiveRouter) : list (ProviderId * CircuitSnapshot) :=
  map (fun e => (fst e, snapshot (ps_circuit (snd e)))) (in_id_order (providers r)).

Definition router_assess (r : AdaptiveRouter) (id : ProviderId) (class : RequestClass) (now_ms : Z)
    (a : RouteAdmission) : result RouteUnavailableReason unit :=
  let? st := ok_or (providers r !! id) NoConfiguredProvider in
  state_assess st class now_ms a.

(** ** Selection *)

(** [iter().position(|p| p == id)] *)
Fixpoint position (id : ProviderId) (l : list ProviderId) : option Z :=
  match l with
  | [] => None
  | x :: r => if bool_decide (x = id) then Some 0
              else match position id r with Some n => Some (n + 1) | None => None end
  end.

(** [self.configured_order.iter().position(..).unwrap_or(usize::MAX)] *)
Definition tie_position (r : AdaptiveRouter) (id : ProviderId) : Z :=
  default u64_max (position id (configured_order r)).

Definition skipped (pinned : option ProviderId) (excluded : gset ProviderId) (id : ProviderId) : bool :=
  bool_decide (id ∈ excluded)
  || match pinned with Some pin => negb (bool_decide (pin = id)) | None => false end.

(** The loop of [select]: candidates and failures so far. *)
Fixpoint gather (r : AdaptiveRouter) (class : RequestClass) (now_ms : Z) (pinned : option ProviderId)
    (excluded : gset ProviderId) (entries : list (ProviderId * ProviderState))
    (candidates : list RouteDecision) (failures : list RouteUnavailableReason)
    : option (list RouteDecision * list RouteUnavailableReason) :=
  match entries with
  | [] => Some (candidates, failures)
  | (id, st) :: rest =>
      if skipped pinned excluded id then gather r class now_ms pinned excluded rest candidates failures
      else match state_assess st class now_ms (ps_admission st) with
           | Err reason => gather r class now_ms pinned excluded rest candidates (reason :: failures)
           | Ok _ =>
               match ps_profiles st !! class with
               | None => None
               | Some p =>
                   let c := components p in
                   gather r class now_ms pinned excluded rest
                     (candidates ++ [mkDecision id c (weighted c) (tie_position r id)]) failures
               end
           end
  end.

(** [Ordering::then] *)
Definition cmp_then (a b : comparison) : comparison := match a with Eq => b | _ => a end.

(** The comparator of [sort_by]: higher score first, then the configured position,
    then the identifier. *)
Definition decision_cmp (a b : RouteDecision) : comparison :=
  cmp_then (cmp_then (total_cmp (score (rd_weighted_score b)) (score (rd_weighted_score a)))
                     (rd_tie_position a ?= rd_tie_position b))
           (id_cmp (rd_provider_id a) (rd_provider_id b)).
Definition decision_le (a b : RouteDecision) : Prop := decision_cmp a b <> Gt.
#[export] Instance decision_le_dec : RelDecision decision_le.
Proof. intros a b. unfold decision_le. destruct (decision_cmp a b); [left|left|right]; congruence. Defined.

(** [failures.last()]: the greatest reason. *)
Definition last_failure (failures : list RouteUnavailableReason) : option RouteUnavailableReason :=
  match failures with
  | [] => None
  | f :: rest => Some (foldl (fun a b => if reason_rank a <? reason_rank b then b else a) f rest)
  end.

Definition select (r : AdaptiveRouter) (class : RequestClass) (now_ms : Z) (pinned : option ProviderId)
    (excluded : gset ProviderId)
    : option (result RouteUnavailableReason (RouteDecision * RouteAttempt) * AdaptiveRouter) :=
  match gather r class now_ms pinned excluded (in_id_order (providers r)) [] [] with
  | None => None
  | Some (candidates, failures) =>
      match merge_sort decision_le candidates with
      | [] => Some (Err (default NoConfiguredProvider (last_failure failures)), r)
      | decision :: _ =>
          match providers r !! rd_provider_id decision with
          | None => None
          | Some st =>
              match reserve (ps_circuit st) now_ms with
              | (Err e, _) => Some (Err (circuit_reason e), r)
              | (Ok permit, c) =>
                  Some (Ok (decision, mkAttempt (rd_provider_id decision) (ps_generation st) class permit),
                        set_state r (rd_provider_id decision) (set_circuit st c))
              end
          end
      end
  end.

(** A success without an acceptable duration is protocol drift. *)
Definition drifted (kind : ProviderFailureKind) (duration_ms : option Z) : ProviderFailureKind :=
  if bool_decide (kind = Success)
     && match duration_ms with Some d => 900000 <? d | None => true end
  then ProtocolDrift else kind.

(** [AdaptiveRouter::complete] *)
Definition router_complete (r : AdaptiveRouter) (attempt : RouteAttempt) (kind : ProviderFailureKind)
    (retry : RetryAfter) (duration_ms : option Z) (now_ms : Z)
    : option (option ProviderFailureKind * AdaptiveRouter) :=
  match providers r !! ra_provider_id attempt with
  | None => Some (None, r)
  | Some st =>
      if negb (ps_generation st =? ra_generation attempt) then Some (None, r)
      else
        match complete (ps_circuit st) (ra_permit attempt) (drifted kind duration_ms) retry now_ms with
        | (None, c) => Some (None, set_state r (ra_provider_id attempt) (set_circuit st c))
        | (Some effective, c) =>
            let st := set_circuit st c in
            match ps_profiles st !! ra_class attempt with
            | None => Some (None, set_state r (ra_provider_id attempt) st)
            | Some p =>
                match observe p effective duration_ms with
                | Err _ => None
                | Ok p' => Some (Some effective,
                                 set_state r (ra_provider_id attempt) (set_profile st (ra_class attempt) p'))
                end
            end
        end
  end.

(** ** The route of one conversation *)
Record ConversationRoute := mkRoute {
  selected : option ProviderId;
  failed : gset ProviderId;
  fallback_used : bool;
  visible_output_posted : bool;
  tool_dispatched : bool;
  image_submitted : bool;
}.
Definition route_new : ConversationRoute := mkRoute None ∅ false false false false.

Definition accept_selection (c : ConversationRoute) (d : RouteDecision) : ConversationRoute :=
  mkRoute (Some (rd_provider_id d)) (failed c) (fallback_used c) (visible_output_posted c)
    (tool_dispatched c) (image_submitted c).
Definition mark_visible_output (c : ConversationRoute) : ConversationRoute :=
  mkRoute (selected c) (failed c) (fallback_used c) true (tool_dispatched c) (image_submitted c).
Definition mark_tool_dispatched (c : ConversationRoute) : ConversationRoute :=
  mkRoute (selected c) (failed c) (fallback_used c) (visible_output_posted c) true (image_submitted c).
Definition mark_image_submitted (c : ConversationRoute) : ConversationRoute :=
  mkRoute (selected c) (failed c) (fallback_used c) (visible_output_posted c) (tool_dispatched c) true.

Definition can_fallback (c : ConversationRoute) (kind : ProviderFailureKind) : bool :=
  bool_decide (is_Some (selected c)) && negb (fallback_used c) && negb (visible_output_posted c)
  && negb (tool_dispatched c) && negb (image_submitted c)
  && (is_transient kind || is_blocked kind || bool_decide (kind = Busy)).

Definition begin_fallback (c : ConversationRoute) (kind : ProviderFailureKind) : bool * ConversationRoute :=
  if negb (can_fallback c kind) then (false, c)
  else (true, mkRoute None (match selected c with Some id => {[id]} ∪ failed c | None => failed c end)
                true (visible_output_posted c) (tool_dispatched c) (image_submitted c)).

End Routes.
