(* ===== verification/ScoringProps.v ===== *)
(** * Scores stay in the unit interval

    [NormalizedScore::new] checks the interval, but most scores are made by
    arithmetic on the fields.  The invariant below is what the type means, and
    every operation keeps it, rounding included. *)
From stdpp Require Import base list countable sorting.
From Stdlib Require Import ZArith Lia SpecFloat.
From S2P Require Import Prelude RustFloat RustFloatProps StdNet Circuit Scoring.

Open Scope Z_scope.
Open Scope rust_scope.

Module ScoringProps.
Import Circuits Scores Rounding.

Definition score_ok (s : NormalizedScore) : Prop := unit_interval (score s).
Definition components_ok (c : ScoreComponents) : Prop :=
  score_ok (sc_quality c) /\ score_ok (sc_reliability c) /\ score_ok (sc_latency c) /\ score_ok (sc_locality c).
Definition live_ok (l : LiveComponent) : Prop :=
  0 <= count l <= u64_max /\ match ewma l with Some s => score_ok s | None => True end.
Definition profile_ok (p : ProviderScoreProfile) : Prop :=
  components_ok (pf_baseline p) /\ live_ok (pf_quality p) /\ live_ok (pf_reliability p) /\ live_ok (pf_latency p).

Lemma one_unit : unit_interval one.
Proof. apply unitb_ok. vm_compute. reflexivity. Qed.
Lemma zero_unit : unit_interval zero.
Proof. by apply unitb_ok. Qed.
Lemma half_unit : unit_interval (f64_lit 5 10).
Proof. apply unitb_ok. vm_compute. reflexivity. Qed.
#[local] Hint Resolve one_unit zero_unit half_unit : core.

Lemma val_one : val one = ONE.
Proof. vm_compute. reflexivity. Qed.

(** A convex combination whose weights add up to at most one. *)
Lemma mix_ok a b x y :
  unit_interval a -> unit_interval b -> val (f64_add a b) <= ONE ->
  unit_interval x -> unit_interval y ->
  unit_interval (f64_add (f64_mul a x) (f64_mul b y)).
Proof.
  intros Ha Hb Hsum Hx Hy. destruct (mul_unit a x Ha Hx) as [[Hn1 _] Hv1]. destruct (mul_unit b y Hb Hy) as [[Hn2 _] Hv2].
  destruct (add_mono a b _ _ Ha Hb Hn1 Hn2 Hv1 Hv2) as [Hn Hv]. split; [done|lia].
Qed.

Lemma weighted_ok c : components_ok c -> score_ok (weighted c).
Proof.
  intros (Hq & Hr & Hl & Ho). unfold score_ok, weighted. cbn [score].
  assert (unit_interval (f64_lit 40 100) /\ unit_interval (f64_lit 30 100) /\ unit_interval (f64_lit 25 100)
    /\ unit_interval (f64_lit 5 100) /\ unit_interval (f64_add (f64_lit 40 100) (f64_lit 30 100))
    /\ unit_interval (f64_add (f64_add (f64_lit 40 100) (f64_lit 30 100)) (f64_lit 25 100))
    /\ unit_interval (f64_add (f64_add (f64_add (f64_lit 40 100) (f64_lit 30 100)) (f64_lit 25 100)) (f64_lit 5 100)))
    as (H40 & H30 & H25 & H5 & H70 & H95 & H100).
  { split_and!; apply unitb_ok; vm_compute; reflexivity. }
  destruct (mul_unit _ _ H40 Hq) as [[N1 _] V1]. destruct (mul_unit _ _ H30 Hr) as [[N2 _] V2].
  destruct (mul_unit _ _ H25 Hl) as [[N3 _] V3]. destruct (mul_unit _ _ H5 Ho) as [[N4 _] V4].
  destruct (add_mono _ _ _ _ H40 H30 N1 N2 V1 V2) as [N12 V12].
  destruct (add_mono _ _ _ _ H70 H25 N12 N3 V12 V3) as [N123 V123].
  destruct (add_mono _ _ _ _ H95 H5 N123 N4 V123 V4) as [N V]. destruct H100 as [_ H100].
  split; [exact N|]. etrans; [exact V|exact H100].
Qed.

Lemma observe_live_ok l s : live_ok l -> score_ok s -> live_ok (live_observe l s).
Proof.
  intros [Hc Hl] Hs. split; cbn [count ewma live_observe].
  { unfold saturating_add, u64_max in *. lia. }
  destruct (ewma l) as [old|]; [|done]. unfold score_ok. cbn [score]. apply mix_ok; [| | |done|done].
  - apply unitb_ok. vm_compute. reflexivity.
  - apply unitb_ok. vm_compute. reflexivity.
  - vm_compute. discriminate.
Qed.

(** The weights of the blend, for each number of observations. *)
Definition weight (c : Z) : f64 := f64_div (f64_of_int c) (f64_of_int 20).
Definition weights_ok (c : Z) : bool :=
  unitb (weight c) && unitb (f64_sub one (weight c)) && (val (f64_add (f64_sub one (weight c)) (weight c)) <=? ONE).

Lemma all_weights_ok : forallb weights_ok (map Z.of_nat (seq 0 21)) = true.
Proof. vm_compute. reflexivity. Qed.

Lemma weight_ok c :
  0 <= c <= 20 ->
  unit_interval (weight c) /\ unit_interval (f64_sub one (weight c))
  /\ val (f64_add (f64_sub one (weight c)) (weight c)) <= ONE.
Proof.
  intros Hc. pose proof all_weights_ok as Hall. rewrite forallb_forall in Hall.
  specialize (Hall c). unfold weights_ok in Hall. rewrite !andb_true_iff, Z.leb_le in Hall.
  destruct Hall as [[H1 H2] H3]; [|split_and!; [by apply unitb_ok|by apply unitb_ok|done]].
  apply in_map_iff. exists (Z.to_nat c). split; [lia|]. apply in_seq. lia.
Qed.

Lemma blended_ok l s : live_ok l -> score_ok s -> score_ok (blended l s).
Proof.
  intros [Hc Hl] Hs. unfold blended. destruct (ewma l) as [live|]; [|done]. cbv zeta. fold (weight (Z.min (count l) 20)).
  destruct (weight_ok (Z.min (count l) 20) ltac:(lia)) as (Hn & H1 & Hsum). unfold score_ok. cbn [score].
  destruct (mul_unit_r _ _ Hs H1) as [[N1 _] V1]. destruct (mul_unit_r _ _ Hl Hn) as [[N2 _] V2].
  destruct (add_mono _ _ _ _ H1 Hn N1 N2 V1 V2) as [N V]. split; [exact N|lia].
Qed.

Lemma components_of_ok p : profile_ok p -> components_ok (components p).
Proof.
  intros ((Hq & Hr & Hl & Ho) & H1 & H2 & H3). unfold components_ok. cbn [components sc_quality sc_reliability sc_latency sc_locality].
  split_and!; [by apply blended_ok..|done].
Qed.

Lemma normalized_ok v : unit_interval v -> exists s, normalized v = Ok s /\ score_ok s.
Proof.
  intros Hv. unfold normalized. pose proof Hv as [Hn _].
  assert (f64_is_finite v = true) as -> by (by destruct v as [[]|[]| |[] m e]).
  change zero with (S754_zero false). rewrite leb_zero by done. change one with (f64_of_int 1). rewrite leb_one by done.
  simpl. eexists. split; [done|]. unfold score_ok. cbn [score]. by destruct (SFeqb v (S754_zero false)).
Qed.

(** Every duration has a latency score. *)
Lemma latency_ok class d : 0 <= d -> exists s, latency_score class d = Ok s /\ score_ok s.
Proof.
  intros Hd. unfold latency_score. destruct (latency_bounds class) as [fast slow] eqn:Hb.
  assert (0 < fast /\ fast < slow /\ slow < 2 ^ 53) as Hr by (destruct class; injection Hb as <- <-; lia).
  destruct (Z.leb_spec d fast); [by apply normalized_ok|]. destruct (Z.leb_spec slow d); [by apply normalized_ok|].
  unfold u64_checked_sub. destruct (Z.leb_spec d slow); [|lia]. destruct (Z.leb_spec fast slow); [|lia]. cbn [ok_or].
  apply normalized_ok, div_unit; lia.
Qed.

Lemma locality_score_ok l : score_ok (locality_score l).
Proof. destruct l; unfold score_ok; simpl; auto. Qed.

Lemma live_new_ok : live_ok live_new.
Proof. split; [|done]. unfold u64_max. simpl. lia. Qed.

Lemma profile_new_ok class c : components_ok c -> profile_ok (profile_new class c).
Proof. intros Hc. split_and!; [done|apply live_new_ok..]. Qed.

Lemma observe_ok p k d :
  profile_ok p -> (match d with Some d => 0 <= d | None => True end) ->
  (k = Success -> exists d', d = Some d' /\ d' <= 900000) ->
  exists p', observe p k d = Ok p' /\ profile_ok p' /\ pf_request_class p' = pf_request_class p.
Proof.
  intros (Hb & Hq & Hr & Hl) Hd Hs. unfold observe. destruct (bool_decide_reflect (k = Success)) as [Hk|_].
  - destruct (Hs Hk) as (d' & -> & Hle). destruct (Z.leb_spec d' 900000); [|lia]. cbn [ok_or].
    destruct (latency_ok (pf_request_class p) d' Hd) as (s & -> & Hsok). eexists. split; [done|]. split; [|done].
    split_and!; [done|by apply observe_live_ok..].
  - destruct (is_transient k || is_blocked k); eexists; (split; [done|]); (split; [|done]); [|done].
    split_and!; [done|done|by apply observe_live_ok|done].
Qed.
End ScoringProps.
