(* ===== verification/RoutingProps.v ===== *)
(** * What routing guarantees *)
From stdpp Require Import base list gmap strings sorting.
From Stdlib Require Import ZArith Lia.
From S2P Require Import Prelude RustStr RustFloat Circuit CircuitProps Scoring Routing.

Open Scope Z_scope.
Open Scope rust_scope.

Module RoutingProps.
Import Circuits CircuitProps Scores Routes.

(** ** Orders *)
Lemma id_cmp_eq a b : id_cmp a b = Eq <-> a = b.
Proof.
  unfold id_cmp. destruct (bytes_ltb a b) eqn:Hab, (bytes_ltb b a) eqn:Hba; split; try done.
  - intros ->. by rewrite bytes_ltb_irrefl in Hab.
  - intros ->. by rewrite bytes_ltb_irrefl in Hab.
  - intros ->. by rewrite bytes_ltb_irrefl in Hba.
  - intros _. by apply bytes_ltb_total.
Qed.

Lemma id_cmp_lt a b : id_cmp a b = Lt -> bytes_ltb a b = true.
Proof. unfold id_cmp. destruct (bytes_ltb a b); [done|]. by destruct (bytes_ltb b a). Qed.
Lemma id_cmp_gt a b : id_cmp a b = Gt -> bytes_ltb b a = true.
Proof. unfold id_cmp. destruct (bytes_ltb a b); [done|]. by destruct (bytes_ltb b a). Qed.

(** The rank of a decision: numbers to be compared one after the other, then the
    identifier. *)
Definition rank (d : RouteDecision) : Z * Z * ProviderId :=
  (- f64_key (score (rd_weighted_score d)), rd_tie_position d, rd_provider_id d).

(** [a] ranks before [b]. *)
Definition ranks_before (a b : Z * Z * ProviderId) : Prop :=
  let '(ka, ta, ia) := a in let '(kb, tb, ib) := b in
  ka < kb \/ (ka = kb /\ (ta < tb \/ (ta = tb /\ bytes_ltb ia ib = true))).

Lemma decision_cmp_spec a b :
  match decision_cmp a b with
  | Lt => ranks_before (rank a) (rank b)
  | Eq => rank a = rank b
  | Gt => ranks_before (rank b) (rank a)
  end.
Proof.
  unfold decision_cmp, total_cmp, rank, ranks_before.
  destruct (Z.compare_spec (f64_key (score (rd_weighted_score b))) (f64_key (score (rd_weighted_score a)))) as [Hk|Hk|Hk];
    simpl; [|left; lia|left; lia].
  destruct (Z.compare_spec (rd_tie_position a) (rd_tie_position b)) as [Ht|Ht|Ht];
    simpl; [|right; split; [lia|by left]|right; split; [lia|by left]].
  destruct (id_cmp (rd_provider_id a) (rd_provider_id b)) eqn:Hi.
  - apply id_cmp_eq in Hi. by rewrite Hk, Ht, Hi.
  - right. split; [lia|]. right. split; [lia|]. by apply id_cmp_lt.
  - right. split; [lia|]. right. split; [lia|]. by apply id_cmp_gt.
Qed.

Lemma ranks_before_irrefl a : ~ ranks_before a a.
Proof. destruct a as [[k t] i]. unfold ranks_before. rewrite bytes_ltb_irrefl. intuition (lia || congruence). Qed.

Lemma ranks_before_trans a b c : ranks_before a b -> ranks_before b c -> ranks_before a c.
Proof.
  destruct a as [[ka ta] ia], b as [[kb tb] ib], c as [[kc tc] ic]. unfold ranks_before.
  intros [H1|[-> [H1|[-> H1]]]] [H2|[-> [H2|[-> H2]]]]; [lia..|].
  right. split; [done|]. right. split; [done|]. by eapply bytes_ltb_trans.
Qed.

Lemma decision_le_iff a b : decision_le a b <-> ranks_before (rank a) (rank b) \/ rank a = rank b.
Proof.
  unfold decision_le. pose proof (decision_cmp_spec a b) as H. destruct (decision_cmp a b); split; try done.
  - by right.
  - by left.
  - intros [H'|H'].
    + by destruct (ranks_before_irrefl _ (ranks_before_trans _ _ _ H H')).
    + rewrite H' in H. by destruct (ranks_before_irrefl _ H).
Qed.

#[export] Instance decision_le_total : Total decision_le.
Proof.
  intros a b. rewrite !decision_le_iff. pose proof (decision_cmp_spec a b) as H.
  destruct (decision_cmp a b); auto.
Qed.
#[export] Instance decision_le_transitive : Transitive decision_le.
Proof.
  intros a b c. rewrite !decision_le_iff. intros [H1|H1] [H2|H2]; [left|left; by rewrite <- H2|left; by rewrite H1|right; congruence].
  by eapply ranks_before_trans.
Qed.

(** ** The loop of a selection *)
Section Selection.
Context (r : AdaptiveRouter) (class : RequestClass) (now : Z) (pinned : option ProviderId)
  (excluded : gset ProviderId).

(** A registered provider the call is allowed to consider. *)
Definition considered (id : ProviderId) (st : ProviderState) : Prop :=
  providers r !! id = Some st /\ (id ∉ excluded) /\ (forall pin, pinned = Some pin -> pin = id).

(** It passes every gate. *)
Definition eligible (id : ProviderId) (st : ProviderState) : Prop :=
  considered id st /\ state_assess st class now (ps_admission st) = Ok tt.

(** What a selection ranks it by. *)
Definition standing (id : ProviderId) (st : ProviderState) : option RouteDecision :=
  match ps_profiles st !! class with
  | Some p => Some (mkDecision id (components p) (weighted (components p)) (tie_position r id))
  | None => None
  end.

Definition candidate (e : ProviderId * ProviderState) : option RouteDecision :=
  if skipped pinned excluded (fst e) then None
  else match state_assess (snd e) class now (ps_admission (snd e)) with
       | Ok _ => standing (fst e) (snd e)
       | Err _ => None
       end.
Definition failure (e : ProviderId * ProviderState) : option RouteUnavailableReason :=
  if skipped pinned excluded (fst e) then None
  else match state_assess (snd e) class now (ps_admission (snd e)) with
       | Ok _ => None
       | Err reason => Some reason
       end.

Lemma skipped_false id :
  skipped pinned excluded id = false <-> (id ∉ excluded) /\ (forall pin, pinned = Some pin -> pin = id).
Proof.
  unfold skipped. rewrite orb_false_iff, bool_decide_eq_false. destruct pinned as [pin|].
  - rewrite negb_false_iff, bool_decide_eq_true. split; [intros [? ->]; split; [done|]; congruence|].
    intros [? H]. split; [done|]. by apply H.
  - split; intros [? _]; split; done.
Qed.

Lemma assess_profile st a :
  state_assess st class now a = Ok tt ->
  is_Some (ps_profiles st !! class) /\ availability (ps_circuit st) now = Ok tt.
Proof.
  unfold state_assess. destruct (admission_check a) as [[]|]; [|done].
  destruct (bool_decide_reflect (is_Some (ps_profiles st !! class))); [|done]. simpl.
  destruct (availability (ps_circuit st) now) as [[]|]; [done|done].
Qed.

Lemma gather_spec entries cands fails :
  gather r class now pinned excluded entries cands fails
  = Some (cands ++ omap candidate entries, rev (omap failure entries) ++ fails).
Proof.
  revert cands fails. induction entries as [|[id st] entries IH]; intros cands fails; simpl.
  { by rewrite app_nil_r. }
  unfold candidate at 1, failure at 1. simpl.
  destruct (skipped pinned excluded id); [apply IH|].
  destruct (state_assess st class now (ps_admission st)) as [[]|e] eqn:Ha.
  - destruct (assess_profile _ _ Ha) as [[p Hp] _]. unfold standing. rewrite Hp, IH. by rewrite <- app_assoc.
  - rewrite IH. simpl. by rewrite <- app_assoc.
Qed.

Lemma in_id_order_elem id st : (id, st) ∈ in_id_order (providers r) <-> providers r !! id = Some st.
Proof. unfold in_id_order. by rewrite merge_sort_Permutation, elem_of_map_to_list. Qed.

Lemma candidate_elem d :
  d ∈ omap candidate (in_id_order (providers r)) <->
  exists id st, eligible id st /\ standing id st = Some d.
Proof.
  rewrite list_elem_of_omap. split.
  - intros ([id st] & Hin & Hc). apply in_id_order_elem in Hin. exists id, st.
    unfold candidate in Hc. simpl in Hc. destruct (skipped pinned excluded id) eqn:Hs; [done|].
    apply skipped_false in Hs. destruct (state_assess _ _ _ _) as [[]|] eqn:Ha; [|done]. done.
  - intros (id & st & ((Hin & Hs) & Ha) & Hd). exists (id, st). split; [by apply in_id_order_elem|].
    unfold candidate. simpl. apply skipped_false in Hs. by rewrite Hs, Ha.
Qed.

Lemma failure_elem e :
  e ∈ omap failure (in_id_order (providers r)) <->
  exists id st, considered id st /\ state_assess st class now (ps_admission st) = Err e.
Proof.
  rewrite list_elem_of_omap. split.
  - intros ([id st] & Hin & Hc). apply in_id_order_elem in Hin. exists id, st.
    unfold failure in Hc. simpl in Hc. destruct (skipped pinned excluded id) eqn:Hs; [done|].
    apply skipped_false in Hs. destruct (state_assess _ _ _ _) as [[]|] eqn:Ha; [done|]. by injection Hc as ->.
  - intros (id & st & (Hin & Hs) & Ha). exists (id, st). split; [by apply in_id_order_elem|].
    unfold failure. simpl. apply skipped_false in Hs. by rewrite Hs, Ha.
Qed.

Lemma standing_id id st d : standing id st = Some d -> rd_provider_id d = id.
Proof. unfold standing. destruct (ps_profiles st !! class); [|done]. by intros [= <-]. Qed.
End Selection.

Lemma max_reason l f :
  let m := foldl (fun a b => if reason_rank a <? reason_rank b then b else a) f l in
  m ∈ f :: l /\ Forall (fun x => reason_rank x <= reason_rank m) (f :: l).
Proof.
  revert f. induction l as [|b l IH]; intros f; simpl.
  { split; [left|]. by apply Forall_singleton. }
  specialize (IH (if reason_rank f <? reason_rank b then b else f)). simpl in IH.
  destruct IH as [Hin Hall]. apply Forall_cons in Hall as [Hm Hall].
  destruct (Z.ltb_spec (reason_rank f) (reason_rank b)).
  - split; [by right|]. apply Forall_cons. split; [lia|]. by apply Forall_cons.
  - split.
    + apply elem_of_cons in Hin as [->|Hin]; [left|right; by right].
    + apply Forall_cons. split; [done|]. apply Forall_cons. split; [lia|done].
Qed.

Lemma last_failure_spec l :
  match last_failure l with
  | None => l = []
  | Some m => m ∈ l /\ forall x, x ∈ l -> reason_rank x <= reason_rank m
  end.
Proof.
  destruct l as [|f l]; [done|]. simpl. destruct (max_reason l f) as [Hin Hall]. split; [done|].
  by apply Forall_forall.
Qed.

Lemma elem_of_rev {A} (x : A) l : x ∈ rev l <-> x ∈ l.
Proof. rewrite !list_elem_of_In. symmetry. apply in_rev. Qed.

(** No candidate: the answer is the most advanced reason. *)
Lemma selection_refused r class now pinned excluded :
  let entries := in_id_order (providers r) in
  let e := default NoConfiguredProvider (last_failure (rev (omap (failure class now pinned excluded) entries))) in
  omap (candidate r class now pinned excluded) entries = [] ->
  (forall id st, ~ eligible r class now pinned excluded id st)
  /\ ((e = NoConfiguredProvider /\ forall id st, ~ considered r pinned excluded id st)
      \/ ((exists id st, considered r pinned excluded id st
             /\ state_assess st class now (ps_admission st) = Err e)
          /\ (forall id st e', considered r pinned excluded id st ->
               state_assess st class now (ps_admission st) = Err e' -> reason_rank e' <= reason_rank e))).
Proof.
  intros entries e Hempty.
  assert (forall id st, ~ eligible r class now pinned excluded id st) as Hnone.
  { intros id st He. pose proof He as [_ Ha]. destruct (assess_profile _ _ _ _ Ha) as [[p Hp] _].
    assert (standing r class id st <> None) as Hst by (unfold standing; by rewrite Hp).
    destruct (standing r class id st) as [d|] eqn:Hd; [|done].
    assert (d ∈ omap (candidate r class now pinned excluded) entries) as Hin by (apply candidate_elem; eauto).
    rewrite Hempty in Hin. by apply not_elem_of_nil in Hin. }
  split; [done|]. pose proof (last_failure_spec (rev (omap (failure class now pinned excluded) entries))) as Hlast.
  subst e. destruct (last_failure _) as [e|]; simpl.
  - right. destruct Hlast as [Hin Hmax].
    apply elem_of_rev, (failure_elem r) in Hin as (id & st & Hc & Ha). split; [eauto|].
    intros id' st' e' Hc' Ha'. apply Hmax, elem_of_rev, (failure_elem r). eauto.
  - left. split; [done|]. intros id st Hc.
    destruct (state_assess st class now (ps_admission st)) as [[]|e] eqn:Ha; [by apply (Hnone id st)|].
    assert (e ∈ rev (omap (failure class now pinned excluded) entries)) as Hin.
    { apply elem_of_rev, (failure_elem r). eauto. }
    rewrite Hlast in Hin. by apply not_elem_of_nil in Hin.
Qed.

(** The first candidate in order ranks before the standing of every other provider. *)
Lemma selection_best r class now pinned excluded d rest :
  merge_sort decision_le (omap (candidate r class now pinned excluded) (in_id_order (providers r))) = d :: rest ->
  (exists st, eligible r class now pinned excluded (rd_provider_id d) st
     /\ standing r class (rd_provider_id d) st = Some d)
  /\ (forall id' st' d', eligible r class now pinned excluded id' st' ->
       standing r class id' st' = Some d' -> id' <> rd_provider_id d -> ranks_before (rank d) (rank d')).
Proof.
  intros Hsort. set (cands := omap _ _) in *.
  pose proof (merge_sort_Permutation decision_le cands) as Hperm.
  pose proof (StronglySorted_merge_sort decision_le cands) as Hsorted. rewrite Hsort in Hperm, Hsorted.
  split.
  - assert (d ∈ cands) as Hd by (rewrite <- Hperm; left).
    apply candidate_elem in Hd as (id & st & He & Hst). pose proof (standing_id _ _ _ _ _ Hst) as <-. eauto.
  - intros id' st' d' He' Hst' Hne. pose proof (standing_id _ _ _ _ _ Hst') as Hid'.
    assert (d' ∈ d :: rest) as Hin by (rewrite Hperm; apply candidate_elem; eauto).
    apply elem_of_cons in Hin as [->|Hin]; [congruence|].
    apply StronglySorted_inv in Hsorted as [_ Hall]. rewrite Forall_forall in Hall.
    specialize (Hall d' Hin). apply decision_le_iff in Hall as [|Heq]; [done|]. unfold rank in Heq. congruence.
Qed.

Lemma select_considered r class now pinned excluded d a r' :
  select r class now pinned excluded = Some (Ok (d, a), r') ->
  exists st, considered r pinned excluded (rd_provider_id d) st.
Proof.
  unfold select. rewrite gather_spec. simpl. destruct (merge_sort decision_le _) as [|d' rest] eqn:Hsort; [done|].
  apply selection_best in Hsort as [(st & [Hc _] & _) _]. pose proof Hc as [Hp _]. rewrite Hp.
  destruct (reserve _ now) as [[permit|e] c]; [|done]. intros [= <- _ _]. by exists st.
Qed.

(** ** Conversations

    A conversation selects under its pin and exclusions, marks its effects and may
    fall back; the log keeps the order of these events. *)
Inductive route_event := Selected (id : ProviderId) | Effect | FellBack.

Inductive conversation : ConversationRoute -> list route_event -> Prop :=
| conv_new : conversation route_new []
| conv_select c log r class now pinned d a r' :
    conversation c log -> (forall id, selected c = Some id -> pinned = Some id) ->
    select r class now pinned (failed c) = Some (Ok (d, a), r') ->
    conversation (accept_selection c d) (log ++ [Selected (rd_provider_id d)])
| conv_visible c log : conversation c log -> conversation (mark_visible_output c) (log ++ [Effect])
| conv_tool c log : conversation c log -> conversation (mark_tool_dispatched c) (log ++ [Effect])
| conv_image c log : conversation c log -> conversation (mark_image_submitted c) (log ++ [Effect])
| conv_fallback c log kind b c' :
    conversation c log -> begin_fallback c kind = (b, c') ->
    conversation c' (if b then log ++ [FellBack] else log).

(** One provider at most, and it is [who]. *)
Definition only (who : option ProviderId) (log : list route_event) : Prop :=
  (FellBack ∉ log) /\ forall id, Selected id ∈ log -> who = Some id.

Record conversation_ok (c : ConversationRoute) (log : list route_event) : Prop := {
  co_fresh : forall id, selected c = Some id -> id ∉ failed c;
  co_effects : (FellBack ∉ log) -> Effect ∈ log ->
    visible_output_posted c || tool_dispatched c || image_submitted c = true;
  co_before : fallback_used c = false -> failed c = ∅ /\ only (selected c) log;
  co_after : fallback_used c = true -> exists before after id,
    log = before ++ FellBack :: after /\ failed c = {[id]} /\ (Effect ∉ before)
    /\ only (Some id) before /\ only (selected c) after;
}.

Lemma only_snoc who log e :
  only who log -> e <> FellBack -> (forall id, e = Selected id -> who = Some id) -> only who (log ++ [e]).
Proof.
  intros [Hf Hs] He Hid. split.
  - intros [?|Hin%list_elem_of_singleton]%elem_of_app; [done|congruence].
  - intros id [?|Hin%list_elem_of_singleton]%elem_of_app; [by apply Hs|by apply Hid].
Qed.

(** Any event but a fallback, when the selection agrees with the log. *)
Lemma conversation_event c c' log e :
  conversation_ok c log -> e <> FellBack -> fallback_used c' = fallback_used c -> failed c' = failed c ->
  (forall id, selected c = Some id -> selected c' = Some id) ->
  (forall id, selected c' = Some id -> id ∉ failed c) ->
  (forall id, e = Selected id -> selected c' = Some id) ->
  (visible_output_posted c || tool_dispatched c || image_submitted c = true \/ e = Effect ->
     visible_output_posted c' || tool_dispatched c' || image_submitted c' = true) ->
  conversation_ok c' (log ++ [e]).
Proof.
  intros [_ Heff Hb Ha] He Hu Hf Hs Hfresh Hid Hm. split; [by rewrite Hf| | |].
  - intros Hn Hin. apply Hm. apply elem_of_app in Hin as [Hin|Hin%list_elem_of_singleton]; [left|by right].
    apply Heff; [|done]. intros H. apply Hn, elem_of_app. by left.
  - rewrite Hu, Hf. intros Hfalse. destruct (Hb Hfalse) as [-> [Hn Ho]]. split; [done|].
    apply only_snoc; [split; [done|]|done|done]. intros id Hin. by apply Hs, Ho.
  - rewrite Hu, Hf. intros Htrue. destruct (Ha Htrue) as (before & after & id & -> & -> & ? & ? & Hn & Ho).
    exists before, (after ++ [e]), id. rewrite <- app_assoc. split_and!; [done..|].
    apply only_snoc; [split; [done|]|done|done]. intros id' Hin. by apply Hs, Ho.
Qed.

Lemma conversation_inv c log : conversation c log -> conversation_ok c log.
Proof.
  induction 1 as [|c log r class now pinned d a r' _ IH Hpin Hsel|c log _ IH|c log _ IH|c log _ IH
                 |c log kind b c' _ IH Hfb].
  - split; [done| |intros _|done].
    + intros _ Hin. by apply not_elem_of_nil in Hin.
    + split; [done|]. split; [apply not_elem_of_nil|]. intros id Hin. by apply not_elem_of_nil in Hin.
  - destruct (select_considered _ _ _ _ _ _ _ _ Hsel) as (st & _ & Hnew & Hp).
    apply (conversation_event c); simpl; try done.
    + intros id Hs. rewrite (Hp id); [done|by apply Hpin].
    + by intros id [= <-].
    + by intros id [= ->].
    + by intros [|].
  - pose proof (co_fresh _ _ IH). by apply (conversation_event c).
  - pose proof (co_fresh _ _ IH). apply (conversation_event c); try done. intros _. simpl. by rewrite orb_true_r.
  - pose proof (co_fresh _ _ IH). apply (conversation_event c); try done. intros _. simpl. by rewrite orb_true_r.
  - unfold begin_fallback in Hfb. destruct (can_fallback c kind) eqn:Hcan; simpl in Hfb; [|by injection Hfb as <- <-].
    injection Hfb as <- <-. destruct IH as [_ Heff Hb Ha]. unfold can_fallback in Hcan.
    rewrite !andb_true_iff, !negb_true_iff, bool_decide_eq_true in Hcan. destruct Hcan as (((((Hsome & Hnf) & Hv) & Ht) & Hi) & _).
    destruct (Hb Hnf) as [Hfail [Hn Ho]]. destruct Hsome as [id Hsel]. rewrite Hsel in *.
    split; simpl; [done| | |].
    + intros Hn'. destruct Hn'. apply elem_of_app. right. by apply list_elem_of_singleton.
    + done.
    + intros _. exists log, [], id. rewrite Hfail. split_and!; [done|set_solver| |done|].
      * intros Hin. specialize (Heff Hn Hin). by rewrite Hv, Ht, Hi in Heff.
      * split; [apply not_elem_of_nil|]. intros id' Hin. by apply not_elem_of_nil in Hin.
Qed.

(** ** Identifiers *)
Lemma parse_bytes_env raw sep id :
  parse_id_bytes raw sep = Ok id ->
  parse_id_bytes (env_segment id) sep = Ok id /\ length id = length raw
  /\ Forall (fun b => 45 <= b < 123) (env_segment id)
  /\ (last (env_segment id) = Some 45 \/ last (env_segment id) = Some 95 ->
      last raw = Some 45 \/ last raw = Some 95).
Proof.
  revert sep id. induction raw as [|b raw IH]; intros sep id; simpl.
  { intros [= <-]. by repeat split. }
  destruct ((b =? 45) || (b =? 95)) eqn:Hsep.
  - destruct sep; [|done]. destruct (parse_id_bytes raw false) as [r|] eqn:Hr; [|done]. intros [= <-].
    destruct (IH _ _ Hr) as (Hp & Hl & Hb & Hlast). simpl. rewrite Hp, Hl.
    split_and!; [done|done|by constructor|]. apply orb_true_iff in Hsep.
    destruct raw as [|b' raw]; [|destruct r; [done|exact Hlast]].
    intros _. simpl. destruct Hsep; bools; [left|right]; congruence.
  - destruct (is_ascii_alphanumeric b) eqn:Hb; [|done].
    destruct (parse_id_bytes raw true) as [r|] eqn:Hr; [|done]. intros [= <-].
    destruct (IH _ _ Hr) as (Hp & Hl & Hall & Hlast). simpl.
    set (u := byte_to_upper (if byte_to_lower b =? 45 then 95 else byte_to_lower b)).
    assert (48 <= u < 91 /\ is_ascii_alphanumeric u = true /\ byte_to_lower u = byte_to_lower b) as (Hu & Hua & Hul).
    { subst u. unfold byte_to_upper, byte_to_lower, is_ascii_alphanumeric, is_ascii_digit, is_ascii_upper, is_ascii_lower in *.
      repeat match goal with |- context [?a <=? ?b] => destruct (Z.leb_spec a b) end; simpl in *;
      repeat match goal with |- context [?a =? ?b] => destruct (Z.eqb_spec a b) end; simpl in *;
      repeat match goal with |- context [?a <=? ?b] => destruct (Z.leb_spec a b) end; simpl in *; try lia; try done. }
    assert ((u =? 45) || (u =? 95) = false) as -> by (apply orb_false_iff; split; apply Z.eqb_neq; lia).
    rewrite Hua, Hp, Hul, Hl. split_and!; [done|done|constructor; [lia|done]|].
    destruct raw as [|b' raw]; [destruct r; [|done]|destruct r; [done|exact Hlast]].
    simpl. intros [[= Hx]|[= Hx]]; lia.
Qed.

Lemma drop_while_keep p l : Forall (fun x => p x = false) l -> drop_while p l = l.
Proof. destruct 1 as [|x l Hx _]; [done|]. simpl. by rewrite Hx. Qed.

(** Text of printable ASCII without blanks is left alone by [trim]. *)
Lemma trimmed_printable s : Forall (fun b => 45 <= b < 123) (bytes s) -> trimmed s = bytes s.
Proof.
  intros Hs. assert (Forall (fun x => is_whitespace x = false) (bytes s)) as Hw.
  { eapply Forall_impl; [exact Hs|]. intros b Hb. unfold is_whitespace. simpl in Hb.
    repeat match goal with
           | |- context [?a <=? ?b] => destruct (Z.leb_spec a b); try lia
           | |- context [?a =? ?b] => destruct (Z.eqb_spec a b); try lia
           end; done. }
  unfold trimmed, chars, trim. rewrite decode_ascii.
  2:{ eapply Forall_impl; [exact Hs|]. simpl. lia. }
  rewrite (drop_while_keep _ (bytes s)) by done. rewrite drop_while_keep, rev_involutive.
  2:{ apply Forall_forall. intros x Hx. rewrite elem_of_rev in Hx. by rewrite Forall_forall in Hw; apply Hw. }
  clear Hw. induction Hs as [|b l Hb _ IH]; [done|]. simpl. rewrite IH.
  unfold encode_char. by destruct (Z.ltb_spec b 128); [|lia].
Qed.

(** ** Properties *)

(** C26: A selection never panics and is exact.  When no provider that may be
    considered passes its gates, it answers the most advanced reason of a considered
    provider and changes nothing; otherwise it answers the eligible provider that
    ranks before every other eligible one (higher weighted score by IEEE total
    order, then configured position, then identifier), reserves one attempt on that
    provider's circuit and changes nothing else. *)
Theorem selection_takes_the_best (r : AdaptiveRouter) (class : RequestClass) (now : Z)
    (pinned : option ProviderId) (excluded : gset ProviderId) :
  exists res r', select r class now pinned excluded = Some (res, r')
  /\ match res with
     | Err e =>
         r' = r
         /\ (forall id st, ~ eligible r class now pinned excluded id st)
         /\ ((e = NoConfiguredProvider /\ forall id st, ~ considered r pinned excluded id st)
             \/ ((exists id st, considered r pinned excluded id st
                    /\ state_assess st class now (ps_admission st) = Err e)
                 /\ (forall id st e', considered r pinned excluded id st ->
                      state_assess st class now (ps_admission st) = Err e' ->
                      reason_rank e' <= reason_rank e)))
     | Ok (d, a) =>
         exists st c', eligible r class now pinned excluded (rd_provider_id d) st
         /\ standing r class (rd_provider_id d) st = Some d
         /\ (forall id' st' d', eligible r class now pinned excluded id' st' ->
              standing r class id' st' = Some d' -> id' <> rd_provider_id d ->
              ranks_before (rank d) (rank d'))
         /\ reserve (ps_circuit st) now = (Ok (ra_permit a), c')
         /\ a = mkAttempt (rd_provider_id d) (ps_generation st) class (ra_permit a)
         /\ r' = set_state r (rd_provider_id d) (set_circuit st c')
     end.
Proof.
  unfold select. rewrite gather_spec. simpl. rewrite app_nil_r.
  destruct (merge_sort decision_le _) as [|d rest] eqn:Hsort.
  - eexists _, r. do 2 (split; [done|]). apply selection_refused. apply Permutation_nil_r.
    by rewrite <- Hsort, merge_sort_Permutation.
  - apply selection_best in Hsort as [(st & He & Hst) Hbest]. pose proof He as [(Hp & _) Ha].
    destruct (assess_profile _ _ _ _ Ha) as [_ Hav]. rewrite Hp, reserve_eq, Hav.
    do 2 eexists. split; [done|]. exists st, (with_permit (ps_circuit st)).
    split_and!; [done|done|done|by rewrite reserve_eq, Hav|done|done].
Qed.

(** C27: A conversation changes its provider at most once, never once it has had an
    effect the user or a tool could see, and never back: its selections are all of
    one provider, or there is exactly one fallback, before any effect, with one
    provider before it and one different provider after it. *)
Theorem conversations_fall_back_once (c : ConversationRoute) (log : list route_event)
    (Hrun : conversation c log) :
  (exists who, only who log)
  \/ (exists before after id who, log = before ++ FellBack :: after /\ (Effect ∉ before)
      /\ only (Some id) before /\ only who after /\ who <> Some id).
Proof.
  destruct (conversation_inv _ _ Hrun) as [Hfresh _ Hb Ha]. destruct (fallback_used c).
  - right. destruct (Ha eq_refl) as (before & after & id & ? & Hf & ? & ? & ?).
    exists before, after, id, (selected c). split_and!; [done..|]. intros Hs. specialize (Hfresh _ Hs). set_solver.
  - left. destruct (Hb eq_refl) as [_ Ho]. eauto.
Qed.

(** Provider identifiers survive environment variable names: the segment that an
    accepted identifier contributes to a variable name is accepted again and denotes
    the same identifier, so two different providers never share a segment. *)
Theorem provider_ids_survive_environment_names (raw segment : string) (id : ProviderId)
    (Hraw : parse_id raw = Ok id) (Hsegment : bytes segment = env_segment id) :
  parse_id segment = Ok id.
Proof.
  unfold parse_id, parse_trimmed in *.
  destruct (bool_decide_reflect (trimmed raw = [])); [done|].
  destruct (Z.ltb_spec MAX_PROVIDER_ID_BYTES (Z.of_nat (length (trimmed raw)))); [done|].
  destruct (parse_id_bytes (trimmed raw) false) as [norm|] eqn:Hp; [|done].
  destruct (bool_decide_reflect (last (trimmed raw) = Some 45 \/ last (trimmed raw) = Some 95)) as [|Hl]; [done|].
  injection Hraw as ->. destruct (parse_bytes_env _ _ _ Hp) as (He & Hlen & Hb & Hlast).
  rewrite (trimmed_printable segment) by (by rewrite Hsegment). rewrite Hsegment, He.
  assert (length (env_segment id) = length id) as Hle by apply length_map.
  rewrite !bool_decide_eq_false_2, Hle, Hlen by (try tauto; intros Hnil; apply (f_equal length) in Hnil;
    rewrite Hle, Hlen in Hnil; by destruct (trimmed raw)).
  by destruct (Z.ltb_spec MAX_PROVIDER_ID_BYTES (Z.of_nat (length (trimmed raw)))); [lia|].
Qed.

Lemma provider_ids_survive_environment_names_witness :
  parse_id " Foundation_Models " = parse_id "foundation-models" /\ parse_id "FOUNDATION_MODELS" = parse_id "foundation-models".
Proof.
  split; [vm_compute; reflexivity|].
  exact (provider_ids_survive_environment_names " Foundation_Models " "FOUNDATION_MODELS" (bytes "foundation-models")
    ltac:(vm_compute; reflexivity) ltac:(vm_compute; reflexivity)).
Defined.

(** ** Examples *)
Definition fm : ProviderId := bytes "foundation-models".
Definition remote : ProviderId := bytes "remote".
Definition some_identity : ProviderIdentityHashes := mkIdentity "" None None None "" None.
Definition all_caps : ProviderCapabilities := mkCapabilities true true true true true true.
Definition profile_at (l : ExecutionLocality) : list ProviderScoreProfile :=
  match compatibility TextReadOnly all_caps l with Ok p => [p] | Err _ => [] end.

(** Two providers: one on this host, one remote. *)
Definition two_providers : AdaptiveRouter :=
  snd (requalify (snd (requalify (router_new [remote; fm]) remote some_identity (profile_at PublicRemote) QUALIFIED))
         fm some_identity (profile_at SameHost) QUALIFIED).

Definition chosen (x : option (result RouteUnavailableReason (RouteDecision * RouteAttempt) * AdaptiveRouter))
    : option ProviderId :=
  match x with Some (Ok (d, _), _) => Some (rd_provider_id d) | _ => None end.

(** Locality outweighs the configured order; the pin and the exclusions are obeyed. *)
Example selection_example :
  chosen (select two_providers TextReadOnly 0 None ∅) = Some fm
  /\ chosen (select two_providers TextReadOnly 0 (Some remote) ∅) = Some remote
  /\ chosen (select two_providers TextReadOnly 0 None {[fm]}) = Some remote
  /\ chosen (select two_providers TextWithTools 0 None ∅) = None.
Proof. vm_compute. done. Qed.

Lemma conversations_fall_back_once_witness :
  exists c, conversation c [Selected fm; FellBack; Selected remote; Effect]
  /\ ((exists who, only who [Selected fm; FellBack; Selected remote; Effect])
      \/ (exists before after id who, [Selected fm; FellBack; Selected remote; Effect] = before ++ FellBack :: after
           /\ (Effect ∉ before) /\ only (Some id) before /\ only who after /\ who <> Some id)).
Proof.
  destruct (select two_providers TextReadOnly 0 None ∅) as [[[[d1 a1]|e1] r1]|] eqn:H1;
    [|vm_compute in H1; discriminate..].
  destruct (select two_providers TextReadOnly 0 None {[fm]}) as [[[[d2 a2]|e2] r2]|] eqn:H2;
    [|vm_compute in H2; discriminate..].
  assert (chosen (select two_providers TextReadOnly 0 None ∅) = Some fm) as Hd1 by (vm_compute; reflexivity).
  rewrite H1 in Hd1. apply (inj Some) in Hd1. change (rd_provider_id d1 = fm) in Hd1.
  assert (chosen (select two_providers TextReadOnly 0 None {[fm]}) = Some remote) as Hd2 by (vm_compute; reflexivity).
  rewrite H2 in Hd2. apply (inj Some) in Hd2. change (rd_provider_id d2 = remote) in Hd2.
  assert (conversation (mark_visible_output (accept_selection (mkRoute None {[fm]} true false false false) d2))
           [Selected fm; FellBack; Selected remote; Effect]) as Hc.
  { apply (conv_visible _ [Selected fm; FellBack; Selected remote]). rewrite <- Hd2.
    apply (conv_select _ [Selected fm; FellBack] two_providers TextReadOnly 0 None d2 a2 r2); [|done|exact H2].
    apply (conv_fallback (accept_selection route_new d1) [Selected fm] Timeout true).
    - rewrite <- Hd1. apply (conv_select _ [] two_providers TextReadOnly 0 None d1 a1 r1); [apply conv_new|done|exact H1].
    - unfold begin_fallback. simpl. rewrite Hd1. reflexivity. }
  eexists. split; [exact Hc|]. exact (conversations_fall_back_once _ _ Hc).
Defined.
End RoutingProps.
