(* ===== verification/RouterProps.v ===== *)
(** * The state of the router

    [routed t r]: some sequence of calls under a clock that does not go back, last
    read at [t], led to the router [r].  Profiles enter the router only as the score
    policy produces them, and durations are those of a clock. *)
From stdpp Require Import base list gmap strings sorting.
From Stdlib Require Import ZArith Lia SpecFloat.
From S2P Require Import Prelude RustStr RustFloat RustFloatProps StdNet Circuit CircuitProps Scoring Routing RoutingProps ScoringProps.

Open Scope Z_scope.
Open Scope rust_scope.

Module RouterProps.
Import Circuits CircuitProps Scores Routes RoutingProps ScoringProps Rounding.

(** A profile of the score policy. *)
Definition produced (p : ProviderScoreProfile) : Prop :=
  (exists e, Forall (fun d => 0 <= d) (ev_successful_duration_ms e) /\ qualification e = Ok p)
  \/ (exists class caps l, compatibility class caps l = Ok p).

Definition clock_duration (d : option Z) : Prop := match d with Some d => 0 <= d | None => True end.

Inductive routed : Z -> AdaptiveRouter -> Prop :=
| routed_new order t : 0 <= t <= u64_max -> routed t (router_new order)
| routed_order t r order : routed t r -> routed t (set_order r order)
| routed_requalify t r id identity profiles admission b r' :
    routed t r -> Forall produced profiles -> requalify r id identity profiles admission = (b, r') -> routed t r'
| routed_restore t r id identity reason b r' :
    routed t r -> router_restore_blocked r id identity reason = (b, r') -> routed t r'
| routed_admission t r id a : routed t r -> routed t (set_admission r id a)
| routed_select t r class now pinned excluded res r' :
    routed t r -> t <= now <= u64_max -> select r class now pinned excluded = Some (res, r') -> routed now r'
| routed_complete t r attempt kind retry d now res r' :
    routed t r -> t <= now <= u64_max -> clock_duration d ->
    router_complete r attempt kind retry d now = Some (res, r') -> routed now r'.

(** ** The invariant *)
Record state_ok (t generation : Z) (st : ProviderState) : Prop := {
  so_circuit : exists t0 fs log, t0 <= t /\ history (ps_circuit st) t0 fs log;
  so_profiles : forall class p, ps_profiles st !! class = Some p -> profile_ok p /\ pf_request_class p = class;
  so_generation : ps_generation st <= generation;
}.
Definition router_ok (t : Z) (r : AdaptiveRouter) : Prop :=
  0 <= t <= u64_max /\ forall id st, providers r !! id = Some st -> state_ok t (next_generation r) st.

Lemma state_ok_later t t' g g' st : state_ok t g st -> t <= t' -> g <= g' -> state_ok t' g' st.
Proof.
  intros [(t0 & fs & log & Ht & Hh) Hp Hg] Hle Hgg. split; [|done|lia]. exists t0, fs, log. split; [lia|done].
Qed.

Lemma set_state_ok t t' r id st :
  router_ok t r -> t <= t' <= u64_max -> state_ok t' (next_generation r) st -> router_ok t' (set_state r id st).
Proof.
  intros [Ht Hr] Hle Hst. split; [lia|]. cbn [set_state providers next_generation].
  intros id' st' [[<- <-]|[_ Hin]]%lookup_insert_Some; [done|]. eapply state_ok_later; [by eapply Hr|lia|lia].
Qed.

Lemma router_ok_later t t' r : router_ok t r -> t <= t' <= u64_max -> router_ok t' r.
Proof.
  intros [Ht Hr] Hle. split; [lia|]. intros id st Hin. eapply state_ok_later; [by eapply Hr|lia|lia].
Qed.

Lemma p95_in durations p : nearest_rank_p95 durations = Some p -> p ∈ durations.
Proof.
  unfold nearest_rank_p95. destruct durations as [|d ds]; [done|]. destruct (_ <=? _); [|done].
  destruct (_ =? _); [done|]. intros Hl. apply list_elem_of_lookup_2 in Hl. by rewrite merge_sort_Permutation in Hl.
Qed.

Lemma produced_ok p : produced p -> profile_ok p.
Proof.
  intros [(e & Hd & Hq)|(class & caps & l & Hc)].
  - unfold qualification in Hq.
    destruct (Z.leb_spec 4 (ev_successful_attempts e)) as [H4|]; [|done].
    destruct (Z.leb_spec (ev_successful_attempts e) 5) as [H5|]; [|done]. cbn [negb andb orb] in Hq.
    destruct (_ || _); [done|]. destruct (nearest_rank_p95 _) as [p95|] eqn:Hp; [|done]. cbn [ok_or] in Hq.
    rewrite Forall_forall in Hd. destruct (latency_ok (ev_request_class e) p95 (Hd _ (p95_in _ _ Hp))) as (s & Hs & Hsok).
    rewrite Hs in Hq. injection Hq as <-. apply profile_new_ok. split_and!; [apply one_unit| |done|apply locality_score_ok].
    change (unit_interval (f64_div (f64_of_int (ev_successful_attempts e)) (f64_of_int 5))). apply div_unit; lia.
  - unfold compatibility in Hc. destruct (negb _); [done|]. injection Hc as <-. apply profile_new_ok.
    split_and!; [apply one_unit|apply one_unit|apply half_unit|apply locality_score_ok].
Qed.

Lemma by_class_ok profiles m :
  Forall produced profiles -> profiles_by_class profiles = Some m ->
  forall class p, m !! class = Some p -> profile_ok p /\ pf_request_class p = class.
Proof.
  unfold profiles_by_class.
  assert (forall class p, (∅ : gmap RequestClass ProviderScoreProfile) !! class = Some p ->
    profile_ok p /\ pf_request_class p = class) as Hacc by (intros class p Hc; by rewrite lookup_empty in Hc).
  revert Hacc. generalize (∅ : gmap RequestClass ProviderScoreProfile) as acc.
  induction profiles as [|x profiles IH]; intros acc Hacc Hall; simpl; [by intros [= <-]|].
  apply Forall_cons in Hall as [Hx Hall]. destruct (acc !! pf_request_class x).
  { intros Hnone. exfalso. clear -Hnone. by induction profiles as [|y profiles IH]. }
  apply IH; [|done]. intros class p [[<- <-]|[_ Hin]]%lookup_insert_Some; [|by apply Hacc].
  split; [by apply produced_ok|done].
Qed.

(** ** The calls *)
Lemma select_reserves r class now pinned excluded d a r' :
  select r class now pinned excluded = Some (Ok (d, a), r') ->
  exists st c, providers r !! rd_provider_id d = Some st /\ reserve (ps_circuit st) now = (Ok (ra_permit a), c)
    /\ r' = set_state r (rd_provider_id d) (set_circuit st c).
Proof.
  unfold select. destruct (gather _ _ _ _ _ _ _ _) as [[cands fails]|]; [|done].
  destruct (merge_sort _ _) as [|d' rest]; [done|]. destruct (providers r !! rd_provider_id d') as [st|] eqn:Hst; [|done].
  destruct (reserve _ _) as [[p|e] c] eqn:Hr; [|done]. intros [= <- <- <-]. eauto.
Qed.

Lemma select_refuses r class now pinned excluded e r' :
  select r class now pinned excluded = Some (Err e, r') -> r' = r.
Proof.
  unfold select. destruct (gather _ _ _ _ _ _ _ _) as [[cands fails]|]; [|done].
  destruct (merge_sort _ _) as [|d' rest]; [by intros [= _ <-]|].
  destruct (providers r !! rd_provider_id d') as [st|]; [|done].
  by destruct (reserve _ _) as [[p|e'] c]; intros [= _ <-].
Qed.

(** An accepted success had an acceptable duration. *)
Lemma accepted_success c p kind retry d now effective c' :
  complete c p (drifted kind d) retry now = (Some effective, c') -> effective = Success ->
  exists d', d = Some d' /\ d' <= 900000.
Proof.
  rewrite complete_eq. destruct (negb _ || _); [done|]. intros [= <- _] Hs.
  assert (drifted kind d = Success) as Hd.
  { unfold classify in Hs. destruct retry as [|x|]; [done| |done]. by destruct (_ && _). }
  unfold drifted in Hd. destruct (bool_decide_reflect (kind = Success)) as [_|Hk]; [|done].
  destruct d as [d'|]; [|done]. exists d'. split; [done|]. by destruct (Z.ltb_spec 900000 d').
Qed.

Lemma circuit_state_ok t now g st c :
  state_ok t g st -> t <= now ->
  (forall t0 fs log, t0 <= t -> history (ps_circuit st) t0 fs log -> exists fs' log', history c now fs' log') ->
  state_ok now g (set_circuit st c).
Proof.
  intros [(t0 & fs & log & Ht & Hh) Hp Hg] Hle Hc. split; [|done|done].
  destruct (Hc _ _ _ Ht Hh) as (fs' & log' & Hh'). exists now, fs', log'. split; [lia|done].
Qed.

Lemma router_complete_ok t r attempt kind retry d now :
  router_ok t r -> t <= now <= u64_max -> clock_duration d ->
  exists res r', router_complete r attempt kind retry d now = Some (res, r') /\ router_ok now r'.
Proof.
  intros Hr Hnow Hd. unfold router_complete. destruct (providers r !! ra_provider_id attempt) as [st|] eqn:Hst.
  2:{ do 2 eexists. split; [done|]. by eapply router_ok_later. }
  destruct (negb _). { do 2 eexists. split; [done|]. by eapply router_ok_later. }
  destruct (complete _ _ _ _ _) as [res c] eqn:Hc. pose proof (proj2 Hr _ _ Hst) as Hok.
  assert (state_ok now (next_generation r) (set_circuit st c)) as Hok'.
  { apply (circuit_state_ok t); [done|lia|]. intros t0 fs log Ht0 Hh.
    do 2 eexists. eapply history_complete; [exact Hh|lia|exact Hc]. }
  destruct res as [effective|]; [|do 2 eexists; split; [done|]; by apply (set_state_ok t)].
  cbn [set_circuit ps_profiles]. destruct (ps_profiles st !! ra_class attempt) as [p|] eqn:Hp.
  2:{ do 2 eexists. split; [done|]. by apply (set_state_ok t). }
  destruct (so_profiles _ _ _ Hok _ _ Hp) as [Hpok Hclass].
  destruct (observe_ok p effective d Hpok Hd ltac:(by eapply accepted_success)) as (p' & -> & Hp' & Hclass').
  do 2 eexists. split; [done|]. apply (set_state_ok t); [done|done|]. destruct Hok' as [Hcirc Hprof Hgen].
  split; [done| |done]. cbn [set_profile ps_profiles set_circuit].
  intros class q [[<- <-]|[_ Hin]]%lookup_insert_Some; [|by apply Hprof]. split; [done|congruence].
Qed.

Lemma routed_ok t r : routed t r -> router_ok t r.
Proof.
  induction 1 as [order t Ht|t r order _ IH|t r id identity profiles admission b r' _ IH Hall Hq
    |t r id identity reason b r' _ IH Hb|t r id a _ IH|t r class now pinned excluded res r' _ IH Hnow Hs
    |t r attempt kind retry d now res r' _ IH Hnow Hd Hc].
  - split; [done|]. intros id st Hin. cbn [router_new providers] in Hin. by rewrite lookup_empty in Hin.
  - exact IH.
  - unfold requalify in Hq. unfold u64_checked_add in Hq. destruct (_ <=? _); [|by injection Hq as _ <-].
    destruct (profiles_by_class profiles) as [m|] eqn:Hm; [|by injection Hq as _ <-]. injection Hq as _ <-.
    destruct IH as [Ht Hr]. split; [done|]. cbn [providers next_generation].
    intros id' st [[<- <-]|[_ Hin]]%lookup_insert_Some; [|eapply state_ok_later; [by eapply Hr|lia|lia]].
    split; [|by apply (by_class_ok profiles)|simpl; lia]. exists t, [], []. split; [lia|by apply history_new].
  - unfold router_restore_blocked in Hb. destruct (providers r !! id) as [st|] eqn:Hst; [|by injection Hb as _ <-].
    destruct (bool_decide _); [|by injection Hb as _ <-].
    destruct (restore_blocked reason) as [c|] eqn:Hc; [|by injection Hb as _ <-]. injection Hb as _ <-.
    pose proof IH as [Ht Hr]. apply (set_state_ok t); [done|lia|]. apply (circuit_state_ok t); [by eapply Hr|lia|].
    intros _ _ _ _ _. exists [], []. by eapply history_restored.
  - unfold set_admission. destruct (providers r !! id) as [st|] eqn:Hst; [|done]. pose proof IH as [Ht Hr].
    apply (set_state_ok t); [done|lia|]. by destruct (Hr _ _ Hst).
  - destruct res as [[d a]|e].
    + destruct (select_reserves _ _ _ _ _ _ _ _ Hs) as (st & c & Hst & Hres & ->). apply (set_state_ok t); [done|lia|].
      apply (circuit_state_ok t); [by eapply IH|lia|]. intros t0 fs log Ht0 Hh.
      do 2 eexists. eapply history_reserve; [exact Hh|lia|exact Hres].
    + apply select_refuses in Hs as ->. by eapply router_ok_later.
  - destruct (router_complete_ok t r attempt kind retry d now IH Hnow Hd) as (res' & r1 & Hc' & Hok). congruence.
Qed.

Lemma total_cmp_val x y : nonneg x -> nonneg y -> total_cmp x y = (val x ?= val y).
Proof.
  intros Hx Hy. pose proof (key_order x y Hx Hy) as H1. pose proof (key_order y x Hy Hx) as H2. unfold total_cmp.
  destruct (Z.compare_spec (f64_key x) (f64_key y)), (Z.compare_spec (val x) (val y)); try done; lia.
Qed.

Lemma standing_ok t r class id st d :
  router_ok t r -> providers r !! id = Some st -> standing r class id st = Some d -> score_ok (rd_weighted_score d).
Proof.
  intros [_ Hr] Hin. unfold standing. destruct (ps_profiles st !! class) as [p|] eqn:Hp; [|done]. intros [= <-].
  apply weighted_ok, components_of_ok. by destruct (so_profiles _ _ _ (Hr _ _ Hin) _ _ Hp).
Qed.

(** ** Properties *)

(** C29: Whatever has been observed, every score the router can be asked for is a
    binary64 number between zero and one, although the arithmetic that makes it
    rounds and bypasses the checked constructor; profiles are filed under their own
    class; and the order in which two candidates are ranked is the order of the
    numbers their weighted scores denote. *)
Theorem router_keeps_scores_normalized (t : Z) (r : AdaptiveRouter) (Hrun : routed t r) :
  (forall id st class p, providers r !! id = Some st -> ps_profiles st !! class = Some p ->
    pf_request_class p = class /\ components_ok (components p) /\ score_ok (weighted (components p)))
  /\ (forall class id1 st1 d1 id2 st2 d2,
        providers r !! id1 = Some st1 -> standing r class id1 st1 = Some d1 ->
        providers r !! id2 = Some st2 -> standing r class id2 st2 = Some d2 ->
        total_cmp (score (rd_weighted_score d1)) (score (rd_weighted_score d2))
        = (val (score (rd_weighted_score d1)) ?= val (score (rd_weighted_score d2)))).
Proof.
  pose proof (routed_ok _ _ Hrun) as Hr. split.
  - intros id st class p Hin Hp. destruct (so_profiles _ _ _ (proj2 Hr _ _ Hin) _ _ Hp) as [Hok Hc].
    pose proof (components_of_ok _ Hok). split_and!; [done|done|by apply weighted_ok].
  - intros class id1 st1 d1 id2 st2 d2 H1 Hd1 H2 Hd2.
    apply total_cmp_val; [apply (standing_ok _ _ _ _ _ _ Hr H1 Hd1)|apply (standing_ok _ _ _ _ _ _ Hr H2 Hd2)].
Qed.

(** C25: The router never panics: every selection and every completion returns, with
    any arguments and whatever has happened before.  Each provider's circuit is a
    circuit that its own sequence of attempts produced, and the outcome of an
    attempt from before a requalification changes nothing. *)
Theorem router_never_panics (t : Z) (r : AdaptiveRouter) (now : Z) (Hrun : routed t r) (Hnow : t <= now <= u64_max) :
  (forall class pinned excluded, is_Some (select r class now pinned excluded))
  /\ (forall attempt kind retry d, clock_duration d -> is_Some (router_complete r attempt kind retry d now))
  /\ (forall id st, providers r !! id = Some st ->
        exists t0 fs log, t0 <= t /\ history (ps_circuit st) t0 fs log)
  /\ (forall attempt kind retry d st, providers r !! ra_provider_id attempt = Some st ->
        ps_generation st <> ra_generation attempt -> router_complete r attempt kind retry d now = Some (None, r)).
Proof.
  pose proof (routed_ok _ _ Hrun) as Hr. split_and!.
  - intros class pinned excluded. unfold select. rewrite gather_spec. simpl.
    destruct (merge_sort _ _) as [|d rest] eqn:Hs; [by eexists|].
    apply selection_best in Hs as [(st & [[Hp _] _] & _) _]. rewrite Hp. by destruct (reserve _ _) as [[]].
  - intros attempt kind retry d Hd.
    destruct (router_complete_ok t r attempt kind retry d now Hr Hnow Hd) as (res & r' & -> & _). by eexists.
  - intros id st Hin. exact (so_circuit _ _ _ (proj2 Hr _ _ Hin)).
  - intros attempt kind retry d st Hst Hg. unfold router_complete. rewrite Hst.
    by rewrite (proj2 (Z.eqb_neq _ _) Hg).
Qed.

(** ** Example: two providers, an attempt that succeeds and one that fails *)
Lemma two_providers_routed : routed 0 two_providers.
Proof.
  assert (forall l, Forall produced (profile_at l)) as Hprod.
  { intros l. unfold profile_at. destruct (compatibility TextReadOnly all_caps l) as [p|] eqn:Hc; [|constructor].
    apply Forall_singleton. right. eauto. }
  eapply routed_requalify; [|apply (Hprod SameHost)|apply surjective_pairing].
  eapply routed_requalify; [|apply (Hprod PublicRemote)|apply surjective_pairing].
  apply routed_new. unfold u64_max. lia.
Qed.

(** The router after a success of [fm] in three seconds. *)
Definition after_success : AdaptiveRouter :=
  match select two_providers TextReadOnly 5 None ∅ with
  | Some (Ok (_, a), r) =>
      match router_complete r a Success Absent (Some 3000) 3005 with Some (_, r') => r' | None => two_providers end
  | _ => two_providers
  end.

Lemma after_success_routed : routed 3005 after_success.
Proof.
  unfold after_success. pose proof two_providers_routed as H0.
  destruct (select two_providers TextReadOnly 5 None ∅) as [[[[d a]|e] r]|] eqn:Hs; [|vm_compute in Hs; discriminate..].
  assert (routed 5 r) as H1 by (eapply routed_select; [exact H0|unfold u64_max; lia|exact Hs]).
  destruct (router_complete r a Success Absent (Some 3000) 3005) as [[res r']|] eqn:Hc.
  - eapply routed_complete; [exact H1|unfold u64_max; lia| |exact Hc]. simpl. lia.
  - destruct (router_complete_ok 5 r a Success Absent (Some 3000) 3005 (routed_ok _ _ H1)) as (x & y & Hx & _);
      [unfold u64_max; lia|simpl; lia|congruence].
Qed.

Lemma router_keeps_scores_normalized_witness :
  match providers after_success !! fm with
  | Some st => match ps_profiles st !! TextReadOnly with
               | Some p => count (pf_latency p) = 1 /\ score_ok (weighted (components p))
               | None => False
               end
  | None => False
  end.
Proof.
  destruct (providers after_success !! fm) as [st|] eqn:Hst; [|vm_compute in Hst; discriminate].
  destruct (ps_profiles st !! TextReadOnly) as [p|] eqn:Hp.
  - destruct (router_keeps_scores_normalized 3005 after_success after_success_routed) as [H _].
    destruct (H _ _ _ _ Hst Hp) as (_ & _ & Hw). split; [|exact Hw].
    assert (option_map (fun st => option_map (fun p => count (pf_latency p)) (ps_profiles st !! TextReadOnly))
      (providers after_success !! fm) = Some (Some 1)) as Hc by (vm_compute; reflexivity).
    rewrite Hst in Hc. simpl in Hc. rewrite Hp in Hc. simpl in Hc. congruence.
  - assert (option_map (fun st => bool_decide (is_Some (ps_profiles st !! TextReadOnly)))
      (providers after_success !! fm) = Some true) as Hc by (vm_compute; reflexivity).
    rewrite Hst in Hc. simpl in Hc. rewrite Hp in Hc. discriminate Hc.
Defined.

Lemma router_never_panics_witness :
  is_Some (select after_success TextReadOnly 4000 (Some remote) ∅)
  /\ is_Some (router_complete after_success (mkAttempt fm 2 TextReadOnly 1) Timeout Absent None 4000).
Proof.
  destruct (router_never_panics 3005 after_success 4000 after_success_routed) as (H1 & H2 & _);
    [unfold u64_max; lia|]. split; [exact (H1 TextReadOnly (Some remote) ∅)|].
  exact (H2 (mkAttempt fm 2 TextReadOnly 1) Timeout Absent None I).
Defined.
End RouterProps.
