(* ===== verification/McpRpc.v ===== *)
(** * MCP messages (src/src/mcp_host/jsonrpc.rs, limits.rs and redact.rs)

    JSON documents, the JSON-RPC messages read from them, the bound on nesting and
    the removal of secrets from responses.  serde_json is a parameter: what a
    number is, and how documents are read from and written as text. *)
From stdpp Require Import base list strings sorting.
From Stdlib Require Import ZArith Lia.
From S2P Require Import Prelude RustStr StdText.

Open Scope Z_scope.
Open Scope rust_scope.

(** ** JSON documents *)

(** [serde_json::Number], and [Number::from(i64)]. *)
Class JsonNumbers := { Number : Type; number_of : Z -> Number }.

Module Rpc.
Section Documents.
Context `{JsonNumbers}.

(** [serde_json::Value]; an object lists its entries in the order of its map. *)
#[warnings="-register-all"]
Inductive Value :=
| Null
| Bool (b : bool)
| Num (n : Number)
| Str (s : string)
| Arr (items : list Value)
| Obj (entries : list (string * Value)).

Definition is_array (v : Value) : bool := match v with Arr _ => true | _ => false end.
Definition is_string (v : Value) : bool := match v with Str _ => true | _ => false end.
Definition as_object (v : Value) : option (list (string * Value)) :=
  match v with Obj entries => Some entries | _ => None end.

(** [Map::get] *)
Fixpoint entry (key : string) (entries : list (string * Value)) : option Value :=
  match entries with
  | [] => None
  | (k, v) :: r => if bool_decide (k = key) then Some v else entry key r
  end.

(** [Value::get] *)
Definition get (v : Value) (key : string) : option Value :=
  match v with Obj entries => entry key entries | _ => None end.

End Documents.
End Rpc.

(** [serde_json::from_slice] into a [Value] (the error is its text) and into
    [MethodPeek] (the derived reader of http/mod.rs, whose result is its [method]),
    [to_string] and [to_string_pretty]. *)
Class JsonText `{JsonNumbers} := {
  from_slice : list Z -> result string Rpc.Value;
  peek : list Z -> option (option string);
  to_string : Rpc.Value -> option string;
  to_string_pretty : Rpc.Value -> option string;
}.

(** Writing a document does not fail, and its compact text has no line break:
    control characters are escaped. *)
Class JsonTextLaws `{JsonText} := {
  to_string_some : forall v, is_Some (to_string v);
  to_string_line : forall v text, to_string v = Some text -> 10 ∉ bytes text;
}.

Module RpcMessages.
Import Rpc.

(** ** limits.rs *)
Definition MAX_REQUEST_BYTES : Z := 256 * 1024.
Definition MAX_RESPONSE_BYTES : Z := 1024 * 1024.
Definition MAX_JSON_DEPTH : Z := 16.
Definition MAX_BATCH_SIZE : Z := 1.
(** Milliseconds. *)
Definition MAX_REQUEST_TIMEOUT : Z := 5000.
Definition MAX_TOOL_NAME_BYTES : Z := 64.
Definition MAX_PROTOCOL_VERSION_BYTES : Z := 32.

(** ** jsonrpc.rs *)
Definition PARSE_ERROR : Z := -32700.
Definition INVALID_REQUEST : Z := -32600.
Definition METHOD_NOT_FOUND : Z := -32601.
Definition INVALID_PARAMS : Z := -32602.
Definition INTERNAL_ERROR : Z := -32603.
Definition REQUEST_TOO_LARGE : Z := -32001.
Definition REQUEST_TIMEOUT : Z := -32002.

(** The character U+0022. *)
Definition quote : string := String (Ascii.ascii_of_N 34) EmptyString.

Section Messages.
Context `{JsonNumbers}.

Record Message := mkMessage { id : option Value; method : string; params : Value }.
Record ParseFailure := mkParseFailure {
  pf_code : Z; pf_message : string; pf_id : option Value;
}.

Definition is_valid_id (value : Value) : bool :=
  match value with Str _ | Num _ | Null => true | _ => false end.

Definition parse_message (document : Value) : result ParseFailure Message :=
  fail? is_array document
    with mkParseFailure INVALID_REQUEST
           ("JSON-RPC batching is not accepted (max batch size " +:+ decimal MAX_BATCH_SIZE +:+ ")") None in
  let? object := ok_or (as_object document)
                   (mkParseFailure INVALID_REQUEST "request must be a JSON object" None) in
  let? id := match entry "id" object with
             | None => Ok None
             | Some Null => Ok None
             | Some value =>
                 if is_valid_id value then Ok (Some value)
                 else Err (mkParseFailure INVALID_REQUEST "id must be a string, number, or null" None)
             end in
  fail? match entry "jsonrpc" object with
        | Some (Str version) => negb (bool_decide (version = "2.0"))
        | _ => true
        end
    with mkParseFailure INVALID_REQUEST
           ("missing or unsupported `jsonrpc` version (expected " +:+ quote +:+ "2.0" +:+ quote +:+ ")") id in
  let? method := match entry "method" object with
                 | Some (Str method) => Ok method
                 | _ => Err (mkParseFailure INVALID_REQUEST "missing or non-string `method`" id)
                 end in
  let? params := match entry "params" object with
                 | None | Some Null => Ok (Obj [])
                 | Some (Obj entries) => Ok (Obj entries)
                 | Some _ => Err (mkParseFailure INVALID_PARAMS "`params` must be an object when present" id)
                 end in
  Ok (mkMessage id method params).

(** What the loop of [json_depth] pushes for a node. *)
Definition children (node : Value) : list Value :=
  match node with Arr items => items | Obj entries => map snd entries | _ => [] end.

(** The loop of [json_depth]; the end of the vector is the head of the list. *)
Fixpoint depth_loop (fuel : nat) (stack : list (Value * Z)) (deepest : Z) : Z :=
  match fuel, stack with
  | S fuel, (node, depth) :: stack =>
      let deepest := Z.max deepest depth in
      if MAX_JSON_DEPTH <? deepest then deepest
      else depth_loop fuel (rev (map (fun child => (child, depth + 1)) (children node)) ++ stack) deepest
  | _, _ => deepest
  end.

(** The nodes of a document: each is pushed once. *)
Fixpoint nodes (v : Value) : nat :=
  match v with
  | Arr items => S (list_sum (map nodes items))
  | Obj entries => S (list_sum (map (fun e => nodes (snd e)) entries))
  | _ => 1
  end.

Definition json_depth (value : Value) : Z := depth_loop (nodes value) [(value, 1)] 0.

Definition success (id : Value) (result : Value) : Value :=
  Obj [("jsonrpc", Str "2.0"); ("id", id); ("result", result)].
Definition error (id : option Value) (code : Z) (message : string) : Value :=
  Obj [("jsonrpc", Str "2.0"); ("id", default Null id);
       ("error", Obj [("code", Num (number_of code)); ("message", Str message)])].

End Messages.
End RpcMessages.

(** ** redact.rs *)
Module Redact.

Definition REDACTION_PLACEHOLDER : string := "[REDACTED]".
Definition MIN_REDACTABLE_SECRET_BYTES : Z := 8.
Definition SENSITIVE_NAME_FRAGMENTS : list string :=
  ["TOKEN"; "SECRET"; "PASSWORD"; "PASSWD"; "APIKEY"; "API_KEY"; "_KEY"; "KEY_"; "CREDENTIAL";
   "AUTH"; "BEARER"; "SESSION"; "COOKIE"; "PRIVATE"; "SIGNATURE"].


Definition name_is_sensitive (name : string) : bool :=
  let upper := map ascii_upper (bytes name) in
  existsb (fun fragment => contains (bytes fragment) upper) SENSITIVE_NAME_FRAGMENTS.

(** [str::replace] of a pattern that is not empty: the leftmost occurrences that
    do not overlap. *)
Fixpoint replace_go (fuel : nat) (p r s : list Z) : list Z :=
  match fuel, s with
  | S fuel, b :: rest =>
      if prefix_of p s then r ++ replace_go fuel p r (drop (length p) s)
      else b :: replace_go fuel p r rest
  | _, _ => []
  end.
Definition replace (p r s : list Z) : list Z := replace_go (length s) p r s.

(** [redact_with], on the bytes of the text. *)
Fixpoint redact_with (text : list Z) (secrets : list string) : list Z :=
  match secrets with
  | [] => text
  | secret :: rest =>
      if slen secret <? MIN_REDACTABLE_SECRET_BYTES then redact_with text rest
      else if contains (bytes secret) text
      then redact_with (replace (bytes secret) (bytes REDACTION_PLACEHOLDER) text) rest
      else redact_with text rest
  end.

(** Longer first, then in byte order. *)
Definition secret_le (a b : string) : Prop :=
  slen b < slen a \/ (slen a = slen b /\ str_le a b).
#[export] Instance secret_le_dec : RelDecision secret_le.
Proof. intros a b. unfold secret_le, str_le. apply _. Defined.

(** [sensitive_env_values], given the variables of the process: a name or a value
    that is not Unicode is [None]. *)
Definition sensitive_env_values (vars : list (option string * option string)) : list string :=
  merge_sort secret_le (remove_dups (omap (fun v =>
    match v with
    | (Some name, Some value) =>
        if negb (name_is_sensitive name) then None
        else
          let value := str_trim value in
          if MIN_REDACTABLE_SECRET_BYTES <=? slen value then Some value else None
    | _ => None
    end) vars)).

End Redact.
