(* ===== verification/McpServer.v ===== *)
(** * The MCP server (src/src/mcp_host/serve.rs and tools.rs)

    One session: the lifecycle handshake, the routing of requests, tool calls on
    worker threads with a deadline, the encoding of responses, and the transport
    over lines of standard input and output.  The registry of tools is an argument,
    as it is in the code. *)
From stdpp Require Import base list strings.
From Stdlib Require Import ZArith Lia.
From S2P Require Import Prelude RustStr StdText StdIo Framing McpRpc.

Open Scope Z_scope.
Open Scope rust_scope.

Module Mcp.
Import Rpc RpcMessages Redact.

Definition LATEST_PROTOCOL_VERSION : string := "2025-06-18".
Definition SUPPORTED_PROTOCOL_VERSIONS : list string := ["2025-06-18"; "2025-03-26"; "2024-11-05"].

(** What becomes of the worker thread of a tool call: it cannot be started, it
    answers after the deadline (or never), or it answers in time. *)
Inductive Worker := SpawnFailed (error : string) | Late | InTime.

Section Server.
Context `{JsonText}.

(** ** tools.rs *)
Inductive EffectClass := ReadOnly.

Record SafeTool := mkTool {
  t_name : string;
  t_title : string;
  t_description : string;
  t_effect : EffectClass;
  t_schema : Value;
  t_handler : Value -> result string Value;
}.

Definition descriptor (tool : SafeTool) : Value :=
  Obj [("name", Str (t_name tool)); ("title", Str (t_title tool));
       ("description", Str (t_description tool)); ("inputSchema", t_schema tool);
       ("annotations",
        Obj [("readOnlyHint", Bool (match t_effect tool with ReadOnly => true end));
             ("destructiveHint", Bool false); ("idempotentHint", Bool true);
             ("openWorldHint", Bool false)])].

Definition list_payload (tools : list SafeTool) : Value :=
  Obj [("tools", Arr (map descriptor tools))].

(** [Value::to_string] is the compact text. *)
Definition call_result (outcome : result string Value) : Value :=
  match outcome with
  | Ok structured =>
      let rendered := match to_string_pretty structured with
                      | Some text => text
                      | None => default EmptyString (to_string structured)
                      end in
      Obj [("content", Arr [Obj [("type", Str "text"); ("text", Str rendered)]]);
           ("structuredContent", structured); ("isError", Bool false)]
  | Err message =>
      Obj [("content", Arr [Obj [("type", Str "text"); ("text", Str message)]]); ("isError", Bool true)]
  end.

(** ** serve.rs *)
Record Server := mkServer {
  tools : list SafeTool;
  call_timeout : Z;
  initialized : bool;
  secrets : list string;
}.

(** [Server::new], with the registry [SAFE_TOOLS] and the variables of the process. *)
Definition server_new (SAFE_TOOLS : list SafeTool) (vars : list (option string * option string)) : Server :=
  mkServer SAFE_TOOLS MAX_REQUEST_TIMEOUT false (sensitive_env_values vars).

Record Failure := mkFailure { f_code : Z; f_message : string }.

(** A server, how many times it has tried to start a worker, and the calls it has
    started one for. *)
Record Session := mkSession { server : Server; attempts : nat; started : list (string * Value) }.

(** The version of the build, and the fate of the n-th attempt to start a worker. *)
Context (VERSION : string) (worker : nat -> Worker).

Definition require_initialized (s : Session) : result Failure unit :=
  if initialized (server s) then Ok tt
  else Err (mkFailure INVALID_REQUEST "server is not initialized — send `initialize` first").

Definition set_initialized (s : Session) : Session :=
  mkSession (mkServer (tools (server s)) (call_timeout (server s)) true (secrets (server s)))
    (attempts s) (started s).

Definition initialize (s : Session) (params : Value) : result Failure Value * Session :=
  let requested :=
    match get params "protocolVersion" with
    | None | Some Null => Ok None
    | Some (Str version) =>
        if slen version <=? MAX_PROTOCOL_VERSION_BYTES then Ok (Some version)
        else Err (mkFailure INVALID_PARAMS
                    ("`protocolVersion` exceeds " +:+ decimal MAX_PROTOCOL_VERSION_BYTES +:+ " bytes"))
    | Some _ => Err (mkFailure INVALID_PARAMS "`protocolVersion` must be a string")
    end in
  match requested with
  | Err failure => (Err failure, s)
  | Ok requested =>
      let negotiated :=
        match requested with
        | Some version => if bool_decide (version ∈ SUPPORTED_PROTOCOL_VERSIONS) then version
                          else LATEST_PROTOCOL_VERSION
        | None => LATEST_PROTOCOL_VERSION
        end in
      (Ok (Obj [("protocolVersion", Str negotiated);
                ("capabilities", Obj [("tools", Obj [("listChanged", Bool false)])]);
                ("serverInfo", Obj [("name", Str "abbey"); ("title", Str "Abbey read-only tools");
                                    ("version", Str VERSION)]);
                ("instructions", Str ("Read-only Abbey introspection. Every tool is "
                   +:+ "non-mutating: there is no shell, filesystem, or command-execution "
                   +:+ "tool in this registry, and none can be added without changing the "
                   +:+ "registry's effect type."))]),
       set_initialized s)
  end.

(** The call is started unless the thread cannot be; a call that is abandoned at
    its deadline has been started. *)
Definition run_with_timeout (s : Session) (tool : SafeTool) (arguments : Value)
    : result Failure (result string Value) * Session :=
  match worker (attempts s) with
  | SpawnFailed error =>
      (Err (mkFailure INTERNAL_ERROR ("cannot start tool worker: " +:+ error)),
       mkSession (server s) (S (attempts s)) (started s))
  | fate =>
      let s' := mkSession (server s) (S (attempts s)) (started s ++ [(t_name tool, arguments)]) in
      match fate with
      | InTime => (Ok (t_handler tool arguments), s')
      | _ => (Err (mkFailure REQUEST_TIMEOUT
                     ("tool `" +:+ t_name tool +:+ "` exceeded the " +:+ decimal (call_timeout (server s))
                      +:+ " ms request deadline")), s')
      end
  end.

(** The checks of [call_tool]: the tool and the arguments of the call. *)
Definition requested_call (s : Session) (params : Value) : result Failure (SafeTool * Value) :=
  let? name := match get params "name" with
               | Some (Str name) => Ok name
               | _ => Err (mkFailure INVALID_PARAMS "`name` is required and must be a string")
               end in
  fail? MAX_TOOL_NAME_BYTES <? slen name
    with mkFailure INVALID_PARAMS ("tool name exceeds " +:+ decimal MAX_TOOL_NAME_BYTES +:+ " bytes") in
  let? tool := ok_or (find (fun tool => bool_decide (t_name tool = name)) (tools (server s)))
                 (mkFailure INVALID_PARAMS ("unknown tool `" +:+ name +:+ "`")) in
  let? arguments := match get params "arguments" with
                    | None | Some Null => Ok (Obj [])
                    | Some (Obj entries) => Ok (Obj entries)
                    | Some _ => Err (mkFailure INVALID_PARAMS "`arguments` must be an object when present")
                    end in
  Ok (tool, arguments).

Definition call_tool (s : Session) (params : Value) : result Failure Value * Session :=
  match requested_call s params with
  | Err failure => (Err failure, s)
  | Ok (tool, arguments) =>
      match run_with_timeout s tool arguments with
      | (Ok outcome, s') => (Ok (call_result outcome), s')
      | (Err failure, s') => (Err failure, s')
      end
  end.

(** The match on the method. *)
Definition route (s : Session) (method : string) (params : Value) : result Failure Value * Session :=
  if bool_decide (method = "initialize") then initialize s params
  else if bool_decide (method = "ping") then (Ok (Obj []), s)
  else if bool_decide (method = "tools/list")
  then (let? _ := require_initialized s in Ok (list_payload (tools (server s))), s)
  else if bool_decide (method = "tools/call")
  then match require_initialized s with
       | Err failure => (Err failure, s)
       | Ok _ => call_tool s params
       end
  else (Err (mkFailure METHOD_NOT_FOUND ("unknown method `" +:+ method +:+ "`")), s).

Definition handle_message (s : Session) (m : Message) : option Value * Session :=
  match id m with
  | None => (None, s)
  | Some id =>
      let '(outcome, s') := route s (method m) (params m) in
      (Some (match outcome with
             | Ok value => success id value
             | Err failure => error (Some id) (f_code failure) (f_message failure)
             end), s')
  end.

Definition is_notification (document : Value) : bool :=
  match as_object document with
  | Some object =>
      negb (bool_decide (is_Some (entry "id" object)))
      && match entry "method" object with Some v => is_string v | None => false end
  | None => false
  end.

Definition handle_frame (s : Session) (frame : list Z) : option Value * Session :=
  match from_slice frame with
  | Err e => (Some (error None PARSE_ERROR ("frame is not valid JSON: " +:+ e)), s)
  | Ok document =>
      if MAX_JSON_DEPTH <? json_depth document
      then ((if is_notification document then None
             else Some (error None INVALID_REQUEST
                          ("request nesting exceeds the maximum depth of " +:+ decimal MAX_JSON_DEPTH))), s)
      else
        match parse_message document with
        | Err failure =>
            ((if is_notification document then None
              else Some (error (pf_id failure) (pf_code failure) (pf_message failure))), s)
        | Ok message => handle_message s message
        end
  end.

Definition quoted (s : string) : string := quote +:+ s +:+ quote.
(** The literal of [encode_frame]. *)
Definition not_serializable : string :=
  "{" +:+ quoted "jsonrpc" +:+ ":" +:+ quoted "2.0" +:+ "," +:+ quoted "id" +:+ ":null,"
  +:+ quoted "error" +:+ ":{" +:+ quoted "code" +:+ ":-32603," +:+ quoted "message" +:+ ":"
  +:+ quoted "response is not serializable" +:+ "}}".

(** [encode_frame]; [None] is the panic of [expect]. *)
Definition encode_frame (s : Server) (response : Value) : option (list Z) :=
  let line := bytes (default not_serializable (to_string response)) in
  let line := redact_with line (secrets s) in
  if MAX_RESPONSE_BYTES <? Z.of_nat (length line)
  then
    let id := default Null (get response "id") in
    option_map bytes (to_string (error (Some id) INTERNAL_ERROR
      ("response exceeds " +:+ decimal MAX_RESPONSE_BYTES +:+ " bytes")))
  else Some line.

(** ** The transport over lines *)
Definition NEWLINE : Z := 10.
Definition RETURN : Z := 13.

(** [drain_line]: [None] when the fuel runs out. *)
Fixpoint drain_line (fuel : nat) (r : Reader) : option (result ReadError unit * Reader) :=
  match fuel with
  | O => None
  | S fuel =>
      match read_until NEWLINE MAX_REQUEST_BYTES r with
      | (Err e, r) => Some (Err e, r)
      | (Ok discard, r) =>
          if bool_decide (discard = []) || bool_decide (last discard = Some NEWLINE)
          then Some (Ok tt, r)
          else drain_line fuel r
      end
  end.

(** The end of a session over a transport. *)
Inductive ServeEnd := EndOfInput | ReadFailed (e : ReadError) | WriteError (e : IoError) | Panicked | OutOfFuel.

Context {W : Type} `{!Write W}.

Definition write_frame (s : Server) (w : W) (response : Value) : option (result IoError unit) * W :=
  match encode_frame s response with
  | None => (None, w)
  | Some line =>
      let '(r, w) := ((fun w => write_all w line) ;; (fun w => write_all w [NEWLINE]) ;; (fun w => flush w)) w in
      (Some r, w)
  end.

(** The trailing newlines and returns removed. *)
Definition strip_line (frame : list Z) : list Z :=
  rev (drop_while (fun b => (b =? NEWLINE) || (b =? RETURN)) (rev frame)).

Definition too_large : Value :=
  error None REQUEST_TOO_LARGE ("request frame exceeds " +:+ decimal MAX_REQUEST_BYTES +:+ " bytes").

(** Bytes and reads that are left. *)
Definition serve_fuel (r : Reader) : nat := S (left_over r).

Fixpoint serve_go (fuel : nat) (s : Session) (r : Reader) (w : W) : ServeEnd * (Session * Reader * W) :=
  match fuel with
  | O => (OutOfFuel, (s, r, w))
  | S fuel =>
      let respond (response : Value) (s : Session) (r : Reader) :=
        match write_frame (server s) w response with
        | (Some (Ok _), w) => serve_go fuel s r w
        | (Some (Err e), w) => (WriteError e, (s, r, w))
        | (None, w) => (Panicked, (s, r, w))
        end in
      match read_until NEWLINE (MAX_REQUEST_BYTES + 1) r with
      | (Err e, r) => (ReadFailed e, (s, r, w))
      | (Ok [], r) => (EndOfInput, (s, r, w))
      | (Ok frame, r) =>
          if MAX_REQUEST_BYTES <? Z.of_nat (length frame)
          then
            if bool_decide (last frame = Some NEWLINE) then respond too_large s r
            else match drain_line (serve_fuel r) r with
                 | Some (Ok _, r) => respond too_large s r
                 | Some (Err e, r) => (ReadFailed e, (s, r, w))
                 | None => (OutOfFuel, (s, r, w))
                 end
          else
            match strip_line frame with
            | [] => serve_go fuel s r w
            | frame =>
                match handle_frame s frame with
                | (Some response, s) => respond response s r
                | (None, s) => serve_go fuel s r w
                end
            end
      end
  end.

(** [Server::serve] *)
Definition serve (s : Session) (r : Reader) (w : W) : ServeEnd * (Session * Reader * W) :=
  serve_go (serve_fuel r) s r w.

End Server.
End Mcp.
