(* ===== verification/McpProps.v ===== *)
(** * Properties of MCP sessions

    The bound on nesting, answers and notifications, tool calls, the redaction of
    secrets and the transport over lines. *)
From stdpp Require Import base list strings.
From Stdlib Require Import ZArith Lia.
From S2P Require Import Prelude RustStr StdText StdIo Framing McpRpc McpServer.

Open Scope Z_scope.
Open Scope rust_scope.

Module McpProps.
Import Rpc RpcMessages Redact Mcp.

(** ** Nesting *)
Section Depth.
Context `{JsonNumbers}.

(** The structural depth of a document. *)
Fixpoint depth (v : Value) : Z :=
  match v with
  | Arr items => 1 + foldr (fun i m => Z.max (depth i) m) 0 items
  | Obj entries => 1 + foldr (fun e m => Z.max (depth (snd e)) m) 0 entries
  | _ => 1
  end.

Lemma depth_children v : depth v = 1 + foldr Z.max 0 (map depth (children v)).
Proof.
  destruct v as [| | | |items|entries]; simpl; [done..| |].
  - f_equal. induction items as [|i items IH]; simpl; congruence.
  - f_equal. induction entries as [|e entries IH]; simpl; congruence.
Qed.

Lemma nodes_children v : nodes v = S (list_sum (map nodes (children v))).
Proof.
  destruct v as [| | | |items|entries]; simpl; [done..|].
  f_equal. induction entries as [|e entries IH]; simpl; congruence.
Qed.

(** The deepest node reachable from a stack. *)
Definition reach (stack : list (Value * Z)) : Z :=
  foldr Z.max 0 (map (fun e => snd e - 1 + depth (fst e)) stack).

Lemma foldr_max_app l1 l2 : Forall (fun x => 0 <= x) l1 ->
  foldr Z.max 0 (l1 ++ l2) = Z.max (foldr Z.max 0 l1) (foldr Z.max 0 l2).
Proof.
  intros H1. assert (forall l, 0 <= foldr Z.max 0 l) as Hnn by (induction l; simpl; lia).
  induction H1 as [|x l1 Hx _ IH]; simpl; [specialize (Hnn l2); lia|]. rewrite IH. lia.
Qed.

Lemma depth_pos v : 1 <= depth v.
Proof.
  rewrite depth_children. induction (map depth (children v)); simpl; lia.
Qed.

Lemma reach_nonneg stack : Forall (fun e => 1 <= snd e) stack ->
  Forall (fun x => 0 <= x) (map (fun e : Value * Z => snd e - 1 + depth (fst e)) stack).
Proof.
  intros Hs. apply Forall_map. eapply Forall_impl; [done|]. intros [v d]. simpl.
  pose proof (depth_pos v). lia.
Qed.

(** The children of a node reach as deep as the node. *)
Lemma reach_pushed v d :
  1 <= d -> Z.max d (foldr Z.max 0 (map (fun e => snd e - 1 + depth (fst e))
                       (rev (map (fun child => (child, d + 1)) (children v))))) = d - 1 + depth v.
Proof.
  intros Hd. rewrite depth_children. induction (children v) as [|c l IH]; simpl; [lia|].
  rewrite map_app, foldr_max_app; simpl.
  - pose proof (depth_pos c). lia.
  - apply reach_nonneg, Forall_rev, Forall_map, Forall_true. simpl. lia.
Qed.

Lemma list_sum_rev l : list_sum (rev l) = list_sum l.
Proof. induction l as [|x l IH]; [done|]. simpl. rewrite list_sum_app, IH. simpl. lia. Qed.

Lemma depth_loop_spec fuel stack deepest :
  (list_sum (map (fun e => nodes (fst e)) stack) <= fuel)%nat ->
  Forall (fun e => 1 <= snd e <= 17) stack -> 0 <= deepest <= 16 ->
  depth_loop fuel stack deepest = Z.min 17 (Z.max deepest (reach stack)).
Proof.
  revert stack deepest. induction fuel as [|fuel IH]; intros stack deepest Hf Hs Hd.
  - destruct stack as [|[v d] stack]; [unfold reach; simpl; lia|].
    exfalso. simpl in Hf. rewrite nodes_children in Hf. lia.
  - destruct stack as [|[v d] stack]; [unfold reach; simpl; lia|].
    apply Forall_cons in Hs as [Hvd Hs]. simpl in Hvd. cbn [depth_loop]. cbv zeta.
    assert (Forall (fun x => 0 <= x) (map (fun e => snd e - 1 + depth (fst e))
              (rev (map (fun child => (child, d + 1)) (children v))))) as Hnn.
    { apply reach_nonneg, Forall_rev, Forall_map, Forall_true. simpl. lia. }
    pose proof (reach_pushed v d ltac:(lia)) as Hp. unfold MAX_JSON_DEPTH.
    unfold reach at 1. simpl map. simpl foldr. fold (reach stack).
    destruct (Z.ltb_spec 16 (Z.max deepest d)) as [Hlt|Hle].
    + pose proof (depth_pos v). lia.
    + rewrite IH.
      * unfold reach at 1. rewrite map_app, foldr_max_app by done. fold (reach stack). lia.
      * rewrite map_app, list_sum_app. simpl in Hf. rewrite nodes_children in Hf.
        rewrite map_rev, map_map, list_sum_rev.
        change (list_sum (map nodes (children v)) + list_sum (map (fun e => nodes (fst e)) stack) <= fuel)%nat. lia.
      * apply Forall_app. split; [|done]. apply Forall_rev, Forall_map, Forall_true. simpl. lia.
      * lia.
Qed.

(** The early exit of [json_depth] never hides an acceptable depth. *)
Lemma json_depth_spec v : json_depth v = Z.min 17 (depth v).
Proof.
  unfold json_depth. rewrite depth_loop_spec.
  - unfold reach. simpl. pose proof (depth_pos v). lia.
  - simpl. lia.
  - by repeat constructor.
  - lia.
Qed.
End Depth.
(** ** Redaction *)

(** Pieces of text with a separator between them. *)
Fixpoint joined (sep : list Z) (pieces : list (list Z)) : list Z :=
  match pieces with
  | [] => []
  | [x] => x
  | x :: rest => x ++ sep ++ joined sep rest
  end.

Lemma joined_cons sep x rest :
  joined sep (x :: rest) = x ++ match rest with [] => [] | _ => sep ++ joined sep rest end.
Proof. destruct rest; simpl; by rewrite ?app_nil_r. Qed.

(** [replace] changes the separators of a cut of the text whose pieces do not
    contain the pattern. *)
Lemma replace_pieces fuel p r s :
  p <> [] -> (length s <= fuel)%nat ->
  exists x rest, s = joined p (x :: rest) /\ replace_go fuel p r s = joined r (x :: rest)
    /\ Forall (fun piece => contains p piece = false) (x :: rest).
Proof.
  intros Hp. revert s. induction fuel as [|fuel IH]; intros s Hs.
  - destruct s; [|simpl in Hs; lia]. exists [], []. split_and!; [done|done|].
    constructor; [|done]. by destruct p.
  - destruct s as [|b s].
    { exists [], []. split_and!; [done|done|]. constructor; [|done]. by destruct p. }
    cbn [replace_go]. destruct (prefix_of p (b :: s)) eqn:Hpre.
    + apply prefix_of_spec in Hpre as [z Hz]. rewrite Hz, drop_app_length.
      destruct (IH z) as (x & rest & Hx & Hr & Hf).
      { apply (f_equal length) in Hz. rewrite length_app in Hz. simpl in *.
        assert (0 < length p)%nat by (destruct p; [done|simpl; lia]). lia. }
      exists [], (x :: rest). change (joined p ([] :: x :: rest)) with (p ++ joined p (x :: rest)).
      rewrite Hr, <-Hx. split_and!; [done|done|]. constructor; [|done]. by destruct p.
    + destruct (IH s) as (x & rest & Hx & Hr & Hf); [simpl in Hs; lia|].
      exists (b :: x), rest. rewrite !joined_cons in *. rewrite Hr, Hx. split_and!; [done|done|].
      apply Forall_cons in Hf as [Hx' Hf]. constructor; [|done]. simpl.
      rewrite Hx'. apply orb_false_iff. split; [|done].
      apply not_true_iff_false. intros [z Hz]%prefix_of_spec. apply not_true_iff_false in Hpre. apply Hpre.
      apply prefix_of_spec. rewrite Hx. exists (z ++ match rest with [] => [] | _ => p ++ joined p rest end).
      by rewrite app_assoc, <-Hz.
Qed.

Lemma contains_bracket (c : Z) q a b :
  (c ∉ q) -> contains q (a ++ c :: b) = true -> contains q a = true \/ contains q b = true.
Proof.
  intros Hc (l & r & Hl)%contains_spec. rewrite !contains_spec.
  apply app_eq_app in Hl as (k & [[-> Hk]|[-> Hk]]).
  - left. apply app_eq_app in Hk as (k' & [[-> Hk']|[-> Hk']]); [|by exists l, k'].
    destruct k' as [|k0 k']; [exists l, []; by rewrite !app_nil_r|].
    injection Hk' as <- _. destruct Hc. apply elem_of_app. right. left.
  - right. destruct k as [|k0 k]; [|injection Hk as <- ->; by exists k, r].
    destruct q as [|q0 q]; [by exists [], b|]. injection Hk as <- _. destruct Hc. left.
Qed.

Lemma contains_nil q : q <> [] -> contains q [] = false.
Proof. by destruct q. Qed.

(** A secret that the placeholder does not resemble: it has no bracket and is no
    part of the word between them. *)
Definition distinct_from_placeholder (secret : string) : Prop :=
  (91 ∉ bytes secret) /\ (93 ∉ bytes secret) /\ contains (bytes secret) (bytes "REDACTED") = false.

Lemma joined_placeholder q pieces :
  distinct_from_placeholder q ->
  contains (bytes q) (joined (bytes REDACTION_PLACEHOLDER) pieces) = true ->
  pieces = [] \/ exists piece, piece ∈ pieces /\ contains (bytes q) piece = true.
Proof.
  intros (H1 & H2 & Hw). induction pieces as [|x rest IH]; [by left|].
  rewrite joined_cons. destruct rest as [|y rest].
  - rewrite app_nil_r. right. exists x. split; [left|done].
  - set (tl := y :: rest) in *. change (bytes REDACTION_PLACEHOLDER) with (91 :: bytes "REDACTED" ++ [93]) at 1.
    rewrite <-app_comm_cons, <-app_assoc. simpl ([93] ++ _).
    intros [Hq|[Hq|Hq]%contains_bracket]%contains_bracket; [|congruence| |done|done].
    + right. exists x. split; [left|done].
    + right. destruct (IH Hq) as [|(piece & Hin & Hc)]; [done|]. exists piece. split; [by right|done].
Qed.

Lemma contains_joined q sep pieces piece :
  piece ∈ pieces -> contains q piece = true -> contains q (joined sep pieces) = true.
Proof.
  intros Hin (l & r & ->)%contains_spec. apply contains_spec.
  induction pieces as [|x rest IH]; [by apply elem_of_nil in Hin|].
  rewrite joined_cons. apply elem_of_cons in Hin as [<-|Hin].
  - exists l. rewrite <-!app_assoc. eauto.
  - destruct (IH Hin) as (l' & r' & Hl). destruct rest as [|y rest]; [by apply elem_of_nil in Hin|].
    rewrite Hl. exists (x ++ sep ++ l'), r'. by rewrite <-!app_assoc.
Qed.

Lemma redact_removes text secrets secret :
  distinct_from_placeholder secret ->
  contains (bytes secret) text = false \/ (secret ∈ secrets /\ MIN_REDACTABLE_SECRET_BYTES <= slen secret) ->
  contains (bytes secret) (redact_with text secrets) = false.
Proof.
  intros Hd. revert text. induction secrets as [|other rest IH]; intros text Hs.
  { destruct Hs as [|[Hin _]]; [done|]. by apply elem_of_nil in Hin. }
  cbn [redact_with]. destruct (Z.ltb_spec (slen other) MIN_REDACTABLE_SECRET_BYTES) as [Hlt|Hge].
  - apply IH. destruct Hs as [|[[->|Hin]%elem_of_cons Hlen]]; [by left|lia|by right].
  - destruct (contains (bytes other) text) eqn:Hc.
    + apply IH.
      assert (bytes other <> []) as Hne.
      { intros Hn. rewrite slen_bytes, Hn in Hge. done. }
      destruct (replace_pieces (length text) (bytes other) (bytes REDACTION_PLACEHOLDER) text Hne ltac:(lia))
        as (x & pieces & Ht & Hr & Hf). unfold replace. rewrite Hr.
      destruct Hs as [Hs|[[->|Hin]%elem_of_cons Hlen]]; [left|left|by right].
      * apply not_true_iff_false. intros [|(piece & Hin & Hp)]%joined_placeholder; [done| |done].
        apply (contains_joined _ (bytes other)) with (1 := Hin) in Hp. congruence.
      * apply not_true_iff_false. intros [|(piece & Hin & Hp)]%joined_placeholder; [done| |done].
        rewrite Forall_forall in Hf. apply Hf in Hin. congruence.
    + apply IH. destruct Hs as [Hs|[[->|Hin]%elem_of_cons Hlen]]; [by left|by left|by right].
Qed.

Lemma replaced_bytes fuel p r s x : x ∈ replace_go fuel p r s -> x ∈ r \/ x ∈ s.
Proof.
  revert s. induction fuel as [|fuel IH]; intros s; [intros []%elem_of_nil|]. cbn [replace_go].
  destruct s as [|b s]; [intros []%elem_of_nil|]. destruct (prefix_of p (b :: s)).
  - intros [Hx|[Hx|Hx]%IH]%elem_of_app; [by left|by left|]. right.
    rewrite <-(take_drop (length p) (b :: s)). apply elem_of_app. by right.
  - intros [->|[Hx|Hx]%IH]%elem_of_cons; [right; left|by left|right; by right].
Qed.

Lemma redacted_bytes secrets text x :
  x ∈ redact_with text secrets -> x ∈ bytes REDACTION_PLACEHOLDER \/ x ∈ text.
Proof.
  revert text. induction secrets as [|secret rest IH]; intros text; [by right|]. cbn [redact_with].
  destruct (slen secret <? _); [apply IH|]. destruct (contains (bytes secret) text); [|apply IH].
  intros [Hx|Hx]%IH; [by left|]. by apply replaced_bytes in Hx.
Qed.

(** ** Messages *)
Section Sessions.
Context `{JsonText} (VERSION : string) (worker : nat -> Worker).
Local Abbreviation handle := (handle_frame VERSION worker).

(** What [parse_message] accepts. *)
Lemma parse_message_ok document m :
  parse_message document = Ok m ->
  exists object, document = Obj object
    /\ (id m = None /\ (entry "id" object = None \/ entry "id" object = Some Null)
        \/ exists i, id m = Some i /\ entry "id" object = Some i /\ i <> Null /\ is_valid_id i = true)
    /\ entry "method" object = Some (Str (method m))
    /\ ((exists entries, entry "params" object = Some (Obj entries) /\ params m = Obj entries)
        \/ params m = Obj []).
Proof.
  unfold parse_message. destruct document as [| | | | |object]; simpl; try done.
  destruct (match entry "id" object with Some _ => _ | None => _ end) as [i|] eqn:Hid; [|done].
  destruct (match entry "jsonrpc" object with Some _ => _ | None => _ end); [done|].
  destruct (entry "method" object) as [[| | |method| |]|] eqn:Hm; try done.
  destruct (match entry "params" object with Some _ => _ | None => _ end) as [ps|] eqn:Hp; [|done].
  intros [= <-]. exists object. split_and!; simpl; [done| |done|].
  - destruct (entry "id" object) as [[]|]; simpl in Hid; simplify_eq; eauto 10.
  - destruct (entry "params" object) as [[]|]; simplify_eq; eauto.
Qed.

Lemma parse_message_err document failure :
  parse_message document = Err failure ->
  pf_id failure = None
  \/ exists object i, document = Obj object /\ entry "id" object = Some i /\ i <> Null
       /\ pf_id failure = Some i.
Proof.
  unfold parse_message. destruct document as [| | | | |object]; simpl; try (intros [= <-]; by left).
  destruct (match entry "id" object with Some _ => _ | None => _ end) as [i|e] eqn:Hid.
  - assert (i = None \/ exists v, i = Some v /\ entry "id" object = Some v /\ v <> Null) as Hi.
    { destruct (entry "id" object) as [[]|]; simpl in Hid; simplify_eq; eauto 10. }
    intros Hf. assert (pf_id failure = i) as ->.
    { destruct (match entry "jsonrpc" object with Some _ => _ | None => _ end); [by simplify_eq|].
      destruct (entry "method" object) as [[]|]; try (by simplify_eq).
      destruct (entry "params" object) as [[]|]; by simplify_eq. }
    destruct Hi as [->|(v & -> & ? & ?)]; eauto 10.
  - intros [= <-]. left. destruct (entry "id" object) as [[]|]; simpl in Hid; by simplify_eq.
Qed.

Lemma requested_call_ok s ps tool arguments :
  requested_call s ps = Ok (tool, arguments) ->
  tool ∈ tools (server s) /\ slen (t_name tool) <= MAX_TOOL_NAME_BYTES
  /\ get ps "name" = Some (Str (t_name tool))
  /\ exists entries, arguments = Obj entries
      /\ (get ps "arguments" = Some (Obj entries) \/ entries = []).
Proof.
  unfold requested_call. destruct (get ps "name") as [[| | |name| |]|]; simpl; try done.
  destruct (Z.ltb_spec MAX_TOOL_NAME_BYTES (slen name)); [done|].
  destruct (find _ _) as [t|] eqn:Ht; simpl; [|done].
  apply find_some in Ht as [Hin Hname]. apply bool_decide_eq_true in Hname. apply list_elem_of_In in Hin.
  destruct (get ps "arguments") as [[]|]; intros Hr; simplify_eq/=; split_and!; eauto.
Qed.

(** The message of a frame that is answered by its method. *)
Definition request_of (frame : list Z) : option Message :=
  match from_slice frame with
  | Ok document =>
      if MAX_JSON_DEPTH <? json_depth document then None
      else match parse_message document with
           | Ok m => match id m with Some _ => Some m | None => None end
           | Err _ => None
           end
  | Err _ => None
  end.

Lemma handle_frame_state s frame :
  snd (handle s frame)
  = match request_of frame with
    | Some m => snd (route VERSION worker s (method m) (params m))
    | None => s
    end.
Proof.
  unfold handle_frame, request_of. destruct (from_slice frame) as [document|]; [|done].
  destruct (MAX_JSON_DEPTH <? json_depth document); [done|].
  destruct (parse_message document) as [m|]; [|done].
  unfold handle_message. destruct (id m); [|done]. by destruct (route _ _ _ _ _).
Qed.

(** The handshake: [initialize] with acceptable parameters. *)
Definition handshake (frame : list Z) : Prop :=
  exists m, request_of frame = Some m /\ method m = "initialize"
    /\ match get (params m) "protocolVersion" with
       | None | Some Null => True
       | Some (Str version) => slen version <= MAX_PROTOCOL_VERSION_BYTES
       | _ => False
       end.

(** A frame that asks for a registered tool with these arguments. *)
Definition asks_for (registry : list SafeTool) (frame : list Z) (name : string) (arguments : Value) : Prop :=
  exists m, request_of frame = Some m /\ method m = "tools/call"
    /\ get (params m) "name" = Some (Str name)
    /\ slen name <= MAX_TOOL_NAME_BYTES
    /\ (exists tool, tool ∈ registry /\ t_name tool = name)
    /\ (exists entries, arguments = Obj entries
         /\ (get (params m) "arguments" = Some arguments \/ entries = []))
    /\ depth arguments <= MAX_JSON_DEPTH - 2.

Lemma depth_entry key entries v : entry key entries = Some v -> depth v <= depth (Obj entries) - 1.
Proof.
  rewrite (depth_children (Obj entries)). simpl.
  induction entries as [|[k w] entries IH]; simpl; [done|].
  case_bool_decide; [intros [= ->]; lia|]. intros Hv%IH. lia.
Qed.

Lemma request_depth frame m :
  request_of frame = Some m -> depth (params m) <= MAX_JSON_DEPTH - 1.
Proof.
  unfold request_of. destruct (from_slice frame) as [document|]; [|done].
  destruct (Z.ltb_spec MAX_JSON_DEPTH (json_depth document)) as [|Hd]; [done|].
  destruct (parse_message document) as [m'|] eqn:Hm; [|done]. destruct (id m'); [|done].
  intros [= ->]. apply parse_message_ok in Hm as (object & -> & _ & _ & Hp).
  rewrite json_depth_spec in Hd. unfold MAX_JSON_DEPTH in *.
  destruct Hp as [(entries & He & ->)| ->]; [|simpl; lia].
  apply depth_entry in He. lia.
Qed.

Lemma call_depth ps tool s arguments :
  depth ps <= MAX_JSON_DEPTH - 1 -> requested_call s ps = Ok (tool, arguments) ->
  depth arguments <= MAX_JSON_DEPTH - 2.
Proof.
  intros Hd (_ & _ & _ & entries & -> & [Ha| ->])%requested_call_ok; [|simpl; unfold MAX_JSON_DEPTH; lia].
  destruct ps; try done. simpl in Ha. apply depth_entry in Ha. lia.
Qed.

(** What one frame does to a session. *)
Lemma frame_effect s frame :
  let s' := snd (handle s frame) in
  tools (server s') = tools (server s)
  /\ (initialized (server s') = true -> initialized (server s) = true \/ handshake frame)
  /\ (started s' = started s
      \/ exists name arguments, started s' = started s ++ [(name, arguments)]
           /\ initialized (server s) = true /\ asks_for (tools (server s)) frame name arguments).
Proof.
  rewrite handle_frame_state. destruct (request_of frame) as [m|] eqn:Hm; [|by eauto].
  unfold route. repeat case_bool_decide; simpl; eauto.
  - unfold initialize. destruct (match get _ _ with Some _ => _ | None => _ end) as [v|] eqn:Hv; simpl; eauto.
    split_and!; [done| |by left]. intros _. right. exists m. split_and!; [done|done|].
    destruct (get (params m) "protocolVersion") as [[]|]; simplify_eq; try done.
    by destruct (Z.leb_spec (slen s0) MAX_PROTOCOL_VERSION_BYTES).
  - unfold require_initialized. destruct (initialized (server s)) eqn:Hi; simpl; [|rewrite Hi; by eauto].
    unfold call_tool. destruct (requested_call s (params m)) as [[tool arguments]|] eqn:Hc; simpl; [|by eauto].
    pose proof (call_depth _ _ _ _ (request_depth _ _ Hm) Hc) as Hd.
    apply requested_call_ok in Hc as (Hin & Hlen & Hname & entries & -> & Ha).
    assert (asks_for (tools (server s)) frame (t_name tool) (Obj entries)) as Hasks.
    { exists m. split_and!; eauto. }
    unfold run_with_timeout. destruct (worker (attempts s)); simpl; split_and!; eauto 10.
Qed.

(** The session after a list of frames. *)
Definition after_frames (s : Session) (frames : list (list Z)) : Session :=
  foldl (fun s frame => snd (handle s frame)) s frames.

Lemma after_frames_inv s frames :
  initialized (server s) = false -> started s = [] ->
  let s' := after_frames s frames in
  tools (server s') = tools (server s)
  /\ (initialized (server s') = true -> exists before f after, frames = before ++ f :: after /\ handshake f)
  /\ (forall name arguments, (name, arguments) ∈ started s' ->
       exists before f between g after, frames = before ++ f :: between ++ g :: after
         /\ handshake f /\ asks_for (tools (server s)) g name arguments).
Proof.
  intros Hi Hs. induction frames as [|g frames IH] using rev_ind.
  - simpl. split_and!; [done|congruence|]. intros name arguments. by rewrite Hs, elem_of_nil.
  - simpl in IH. unfold after_frames in *. rewrite foldl_app. simpl.
    set (s1 := foldl _ s frames) in *. destruct IH as (Ht & IHi & IHs).
    destruct (frame_effect s1 g) as (Ht' & Hi' & Hs'). simpl in *. split_and!; [congruence| |].
    + intros [(before & f & after & -> & Hf)%IHi|Hg]%Hi'.
      * exists before, f, (after ++ [g]). by rewrite <-app_assoc.
      * by exists frames, g, [].
    + assert (forall name arguments, (name, arguments) ∈ started s1 ->
        exists before f between g0 after, frames ++ [g] = before ++ f :: between ++ g0 :: after
          /\ handshake f /\ asks_for (tools (server s)) g0 name arguments) as Hold.
      { intros name arguments (before & f & between & g0 & after & -> & ? & ?)%IHs.
        exists before, f, between, g0, (after ++ [g]). split; [|done].
        rewrite <-!app_assoc. simpl. by rewrite <-app_assoc. }
      destruct Hs' as [->|(name & arguments & -> & Hinit & Hasks)]; [done|].
      intros name' arguments' [Hin|Hin]%elem_of_app; [by apply Hold|].
      apply list_elem_of_singleton in Hin as [= -> ->].
      apply IHi in Hinit as (before & f & after & -> & Hf).
      exists before, f, after, g, []. rewrite <-app_assoc. simpl. rewrite Ht in Hasks. done.
Qed.
End Sessions.

(** ** Properties *)

(** The depth the server enforces is the structural one: [json_depth], which
    walks with an explicit stack and stops at the first node past the limit,
    answers the depth of the document up to the limit and the limit plus one for
    every deeper document. *)
Theorem json_depth_is_exact `{JsonNumbers} (v : Value) :
  json_depth v = (if depth v <=? MAX_JSON_DEPTH then depth v else MAX_JSON_DEPTH + 1)
  /\ (MAX_JSON_DEPTH <? json_depth v) = (MAX_JSON_DEPTH <? depth v).
Proof.
  rewrite json_depth_spec. unfold MAX_JSON_DEPTH. destruct (Z.leb_spec (depth v) 16), (Z.ltb_spec 16 (depth v)), (Z.ltb_spec 16 (Z.min 17 (depth v))); lia.
Qed.

(** C31: Answers match requests.  A frame gets no answer exactly when it is an object
    with a method and no id, or a well-formed message whose id is null; then it
    changes nothing and starts nothing.  Every other frame gets one JSON-RPC 2.0
    answer, a result or an error; it carries the id of the request, and a null id
    only when it is an error. *)
Theorem answers_match_requests `{JsonText} (VERSION : string) (worker : nat -> Worker) (s : Session) (frame : list Z) :
  let '(answer, s') := handle_frame VERSION worker s frame in
  (answer = None <->
   exists object, from_slice frame = Ok (Obj object)
     /\ ((entry "id" object = None /\ exists method, entry "method" object = Some (Str method))
         \/ (entry "id" object = Some Null /\ depth (Obj object) <= MAX_JSON_DEPTH
             /\ is_ok (parse_message (Obj object)) = true)))
  /\ match answer with
     | None => s' = s
     | Some response =>
         (exists object i, from_slice frame = Ok (Obj object) /\ entry "id" object = Some i /\ i <> Null
            /\ ((exists value, response = success i value)
                \/ exists code message, response = error (Some i) code message))
         \/ exists code message, response = error None code message /\ s' = s
     end.
Proof.
  unfold handle_frame. destruct (from_slice frame) as [document|e] eqn:Hframe.
  2:{ split; [|eauto 10]. split; [done|]. by intros (object & ? & _). }
  assert (is_notification document = true <-> exists object, document = Obj object
    /\ entry "id" object = None /\ exists method, entry "method" object = Some (Str method)) as Hnote.
  { unfold is_notification. destruct document as [| | | | |object]; simpl; try (by split; [|intros (? & ? & _)]).
    rewrite andb_true_iff, negb_true_iff, bool_decide_eq_false, <-eq_None_not_Some. split.
    - intros [? Hm]. destruct (entry "method" object) as [[]|] eqn:?; try done. eauto 10.
    - intros (? & [= <-] & ? & ? & ->). done. }
  pose proof (json_depth_spec document) as Hdepth. unfold MAX_JSON_DEPTH in *.
  destruct (Z.ltb_spec 16 (json_depth document)) as [Hdeep|Hflat].
  - split.
    + destruct (is_notification document).
      * split; [|done]. intros _. destruct (proj1 Hnote eq_refl) as (object & -> & ? & ?). eauto 10.
      * split; [done|]. intros (object & [= ->] & [[? ?]|(_ & ? & _)]); [|lia].
        assert (false = true); [|done]. apply Hnote. eauto 10.
    + destruct (is_notification document); eauto 10.
  - destruct (parse_message document) as [m|failure] eqn:Hm.
    + destruct (parse_message_ok _ _ Hm) as (object & -> & Hid & Hmethod & _). unfold handle_message.
      destruct Hid as [[-> Hid]|(i & -> & Hid & Hnull & _)].
      * split; [|done]. split; [|done]. intros _. exists object. split; [done|].
        destruct Hid as [Hid|Hid]; [left; eauto|right]. rewrite Hm. split_and!; [done|lia|done].
      * destruct (route VERSION worker s (method m) (params m)) as [outcome s'].
        split; [|left; exists object, i; destruct outcome; eauto 10].
        split; [done|]. intros (object' & [= <-] & [[? _]|(? & _)]); congruence.
    + split.
      * destruct (is_notification document).
        -- split; [|done]. intros _. destruct (proj1 Hnote eq_refl) as (object & -> & ? & ?). eauto 10.
        -- split; [done|]. intros (object & [= ->] & [[? ?]|(_ & _ & Hok)]); [|by rewrite Hm in Hok].
           assert (false = true); [|done]. apply Hnote. eauto 10.
      * destruct (is_notification document); [done|].
        destruct (parse_message_err _ _ Hm) as [->|(object & i & -> & ? & ? & ->)]; eauto 10.
Qed.

(** C21: Tools run only after the handshake.  Whatever frames a new session receives,
    each call it has started a worker for was asked for by a frame, after an
    earlier frame completed the handshake; the tool is in the registry, its name
    is at most 64 bytes, and the arguments are an object within the depth that is
    left for them. *)
Theorem tools_run_only_after_handshake `{JsonText} (VERSION : string) (worker : nat -> Worker) (s : Session)
    (frames : list (list Z)) (name : string) (arguments : Value)
    (Hfresh : initialized (server s) = false) (Hidle : started s = [])
    (Hcall : (name, arguments) ∈ started (after_frames VERSION worker s frames)) :
  exists before f between g after, frames = before ++ f :: between ++ g :: after
    /\ handshake f /\ asks_for (tools (server s)) g name arguments.
Proof. by apply (after_frames_inv VERSION worker s frames Hfresh Hidle). Qed.

Lemma encode_frame_line `{JsonTextLaws} (s : Server) (response : Value) (line : list Z) :
  encode_frame s response = Some line -> 10 ∉ line.
Proof.
  unfold encode_frame. destruct (to_string_some response) as [text Htext]. rewrite Htext. simpl.
  destruct (MAX_RESPONSE_BYTES <? _).
  - intros (text' & Ht' & ->)%fmap_Some. by eapply to_string_line.
  - intros [= <-] [Hx|Hx]%redacted_bytes; [|by apply to_string_line in Htext].
    revert Hx. apply (bool_decide_eq_true_1 (10 ∉ bytes REDACTION_PLACEHOLDER)). reflexivity.
Qed.

(** C32: What leaves the server is bounded and redacted: a response becomes one line
    of at most 1 MiB in which no secret occurs that is long enough to be masked
    and does not itself look like the mask; a longer one is replaced by an error
    that carries the id of the response. *)
Theorem responses_are_redacted `{JsonTextLaws} (s : Server) (response : Value) (line : list Z)
    (Hline : encode_frame s response = Some line) :
  (10 ∉ line)
  /\ ((Z.of_nat (length line) <= MAX_RESPONSE_BYTES
       /\ forall secret, secret ∈ secrets s -> MIN_REDACTABLE_SECRET_BYTES <= slen secret ->
            distinct_from_placeholder secret -> contains (bytes secret) line = false)
      \/ exists text, line = bytes text
           /\ to_string (error (Some (default Null (get response "id"))) INTERNAL_ERROR
                ("response exceeds " +:+ decimal MAX_RESPONSE_BYTES +:+ " bytes")) = Some text).
Proof.
  split; [by eapply encode_frame_line|].
  unfold encode_frame in Hline. destruct (to_string_some response) as [text Htext]. rewrite Htext in Hline.
  simpl in Hline. destruct (Z.ltb_spec MAX_RESPONSE_BYTES (Z.of_nat (length (redact_with (bytes text) (secrets s)))))
    as [Hbig|Hsmall].
  - apply fmap_Some in Hline as (text' & Ht' & ->). eauto.
  - simplify_eq. left. split; [done|]. intros secret Hin Hlen Hd. apply redact_removes; [done|by right].
Qed.
End McpProps.

(** * The MCP transport over lines as a function of the input

    [serve] reads bounded pieces of a source that may deliver its bytes in any
    way; the reference definition [transcript] cuts the whole input into lines and
    answers them one by one. *)

Module McpStdio.
Import Rpc RpcMessages Redact Mcp.

(** ** Lines *)

(** The lines of an input, each with its newline; the last may have none. *)
Fixpoint lines (bs : list Z) : list (list Z) :=
  match bs with
  | [] => []
  | b :: r => if b =? NEWLINE then [b] :: lines r
              else match lines r with [] => [[b]] | l :: ls => (b :: l) :: ls end
  end.

Lemma lines_cons bs : bs <> [] ->
  lines bs = match through NEWLINE bs with
             | Some l => l :: lines (drop (length l) bs)
             | None => [bs]
             end.
Proof.
  induction bs as [|b bs IH]; [done|]. intros _. simpl. destruct (b =? NEWLINE); [done|].
  destruct bs as [|b' bs]; [done|]. rewrite IH by done. by destruct (through NEWLINE (b' :: bs)).
Qed.

(** The first line and the rest of a non-empty input. *)
Definition first_line (bs : list Z) : list Z := default bs (through NEWLINE bs).

Lemma lines_first bs : bs <> [] -> lines bs = first_line bs :: lines (drop (length (first_line bs)) bs).
Proof.
  intros Hbs. rewrite lines_cons at 1 by done. unfold first_line.
  destruct (through NEWLINE bs); [done|]. simpl. by rewrite drop_all.
Qed.

Lemma through_take d n bs l : through d (take n bs) = Some l -> through d bs = Some l.
Proof.
  intros Hl. rewrite <-(take_drop n bs), through_app, Hl. done.
Qed.

(** The shape of the first line. *)
Lemma first_line_spec bs :
  exists x, (NEWLINE ∉ x)
    /\ ((exists y, bs = x ++ NEWLINE :: y /\ first_line bs = x ++ [NEWLINE])
        \/ (bs = x /\ first_line bs = x)).
Proof.
  unfold first_line. destruct (through NEWLINE bs) as [l|] eqn:Hl; simpl.
  - apply through_some in Hl as (x & y & -> & Hx & ->). exists x. eauto.
  - apply through_none in Hl. exists bs. eauto.
Qed.

Lemma not_in_take (d : Z) n l : (d ∉ l) -> (d ∉ take n l).
Proof. intros Hl Hin. apply Hl. rewrite <-(take_drop n l). apply elem_of_app. by left. Qed.

(** What a bounded read of a line returns. *)
Lemma line_of_first n bs : line_of NEWLINE n bs = take n (first_line bs).
Proof.
  destruct (first_line_spec bs) as (x & Hx & [(y & -> & ->)|(-> & ->)]); unfold line_of.
  - destruct (decide (n <= length x)%nat).
    + rewrite !take_app_le by done. by rewrite (proj2 (through_none _ _)) by (by apply not_in_take).
    + rewrite !take_app, !(take_ge x) by lia.
      destruct (n - length x)%nat as [|k] eqn:Hk; [lia|]. rewrite !firstn_cons, take_nil.
      by rewrite through_here.
  - by rewrite (proj2 (through_none _ _)) by (by apply not_in_take).
Qed.

(** The rest of a line that was read in part. *)
Lemma first_line_rest n bs :
  (n < length (first_line bs))%nat ->
  first_line (drop n bs) = drop n (first_line bs).
Proof.
  destruct (first_line_spec bs) as (x & Hx & [(y & -> & ->)|(-> & ->)]); intros Hn.
  - rewrite length_app in Hn. simpl in Hn. rewrite !drop_app_le by lia.
    unfold first_line. rewrite through_here; [done|]. intros Hin. apply Hx.
    rewrite <-(take_drop n x). apply elem_of_app. by right.
  - unfold first_line. rewrite (proj2 (through_none _ _)); [done|]. intros Hin. apply Hx.
    rewrite <-(take_drop n x). apply elem_of_app. by right.
Qed.

Lemma first_line_take bs : bs = first_line bs ++ drop (length (first_line bs)) bs.
Proof.
  destruct (first_line_spec bs) as (x & Hx & [(y & -> & ->)|(-> & ->)]).
  - change (x ++ NEWLINE :: y) with (x ++ [NEWLINE] ++ y). rewrite app_assoc. by rewrite drop_app_length.
  - by rewrite drop_all, app_nil_r.
Qed.

(** A bounded read ends a line exactly when it returns its newline. *)
Lemma last_newline n bs :
  last (take n (first_line bs)) = Some NEWLINE -> take n (first_line bs) = first_line bs.
Proof.
  destruct (first_line_spec bs) as (x & Hx & [(y & -> & ->)|(-> & ->)]).
  - destruct (decide (n <= length x)%nat); [|by rewrite take_ge by (rewrite length_app; simpl; lia)].
    rewrite take_app_le by done. intros Hl%last_Some_elem_of. by destruct (not_in_take _ n x Hx).
  - intros Hl%last_Some_elem_of. by destruct (not_in_take _ n x Hx).
Qed.

Lemma first_line_end bs :
  first_line bs = bs \/ last (first_line bs) = Some NEWLINE.
Proof.
  destruct (first_line_spec bs) as (x & Hx & [(y & -> & ->)|(-> & ->)]); [right|by left].
  by rewrite last_app.
Qed.

(** What is left of a line after a piece that does not end it. *)
Lemma rest_of_line bs n :
  let piece := take n (first_line bs) in
  last piece <> Some NEWLINE ->
  drop (length (first_line (drop (length piece) bs))) (drop (length piece) bs) = drop (length (first_line bs)) bs.
Proof.
  intros piece Hl. assert (length piece <= length (first_line bs))%nat as Hle by (subst piece; rewrite length_take; lia).
  destruct (decide (length piece < length (first_line bs))%nat) as [Hlt|Hge].
  - rewrite first_line_rest, length_drop, drop_drop by done. f_equal. lia.
  - assert (piece = first_line bs) as Hpe.
    { subst piece. rewrite length_take in Hge. apply take_ge. lia. }
    rewrite Hpe in *. destruct (first_line_end bs) as [He|He]; [|congruence].
    rewrite He. by rewrite !drop_ge by (rewrite ?length_drop; lia).
Qed.

(** ** Draining *)
Lemma read_until_first r n :
  steady r -> 0 <= n ->
  exists r', read_until NEWLINE n r = (Ok (take (Z.to_nat n) (first_line (data r))), r')
    /\ steady r' /\ data r = take (Z.to_nat n) (first_line (data r)) ++ data r'.
Proof.
  intros Hs Hn. destruct (read_until_steady NEWLINE (Z.to_nat n) [] (clock r) (inputs r) Hs) as (r' & Hr & Hs' & Hd).
  fold (data r) in *. rewrite line_of_first in Hr, Hd. exists r'. split_and!; [exact Hr|done|done].
Qed.

Lemma first_line_nonempty bs : bs <> [] -> first_line bs <> [].
Proof.
  intros Hbs. destruct (first_line_spec bs) as (x & _ & [(y & _ & ->)|(-> & ->)]); [|done].
  by destruct x.
Qed.

Lemma drain_line_steady fuel r :
  steady r -> (length (data r) < fuel)%nat ->
  exists r', drain_line fuel r = Some (Ok tt, r') /\ steady r'
    /\ data r' = drop (length (first_line (data r))) (data r).
Proof.
  revert r. induction fuel as [|fuel IH]; intros r Hs Hf; [lia|]. cbn [drain_line].
  destruct (read_until_first r MAX_REQUEST_BYTES Hs ltac:(unfold MAX_REQUEST_BYTES; lia)) as (r' & -> & Hs' & Hd).
  assert (0 < Z.to_nat MAX_REQUEST_BYTES)%nat as Hn by (unfold MAX_REQUEST_BYTES; lia).
  revert Hn Hd. generalize (Z.to_nat MAX_REQUEST_BYTES) as n. intros n Hn Hd.
  set (piece := take n (first_line (data r))) in *.
  assert (data r' = drop (length piece) (data r)) as Hd' by (rewrite Hd at 1; by rewrite drop_app_length).
  destruct (bool_decide_reflect (piece = [])) as [Hp|Hp].
  { exists r'. split_and!; [done|done|]. assert (data r = []) as Hnil; [|by rewrite Hd', Hnil, !drop_nil].
    destruct (data r) eqn:Hr; [done|]. exfalso. pose proof (first_line_nonempty (data r)) as Hne.
    rewrite Hr in Hne. subst piece. destruct (first_line _); [by apply Hne|]. by destruct n; [lia|]. }
  destruct (bool_decide_reflect (last piece = Some NEWLINE)) as [Hl|Hl].
  { exists r'. split_and!; [done|done|]. subst piece. apply last_newline in Hl. by rewrite Hl in Hd'. }
  simpl. assert (0 < length piece)%nat by (destruct piece; [done|simpl; lia]).
  destruct (IH r' Hs') as (r'' & -> & Hs'' & Hd'').
  { rewrite Hd', length_drop. rewrite Hd, length_app in Hf. rewrite Hd, length_app. lia. }
  exists r''. split_and!; [done|done|]. rewrite Hd'', Hd'. by apply rest_of_line.
Qed.

(** ** The session *)
Section Transport.
Context `{JsonTextLaws} (VERSION : string) (worker : nat -> Worker).
Local Abbreviation handle := (handle_frame VERSION worker).

(** The answer to one line. *)
Definition answer_line (s : Session) (line : list Z) : option Value * Session :=
  if MAX_REQUEST_BYTES <? Z.of_nat (length line) then (Some too_large, s)
  else match strip_line line with
       | [] => (None, s)
       | frame => handle s frame
       end.

(** The frames written for a list of lines, and the session after them. *)
Fixpoint transcript (s : Session) (ls : list (list Z)) : list (list Z) * Session :=
  match ls with
  | [] => ([], s)
  | l :: ls =>
      let '(answer, s) := answer_line s l in
      let '(frames, s') := transcript s ls in
      (match answer with
       | Some response => default [] (encode_frame (server s) response) :: frames
       | None => frames
       end, s')
  end.

Lemma encode_frame_some s response : is_Some (encode_frame s response).
Proof.
  unfold encode_frame. destruct (MAX_RESPONSE_BYTES <? _); [|done].
  destruct (to_string_some (error (Some (default Null (get response "id"))) INTERNAL_ERROR
    ("response exceeds " +:+ decimal MAX_RESPONSE_BYTES +:+ " bytes"))) as [text ->]. by eexists.
Qed.

Lemma write_response_vec s (w : list Z) response :
  write_frame s w response = (Some (Ok tt), w ++ default [] (encode_frame s response) ++ [NEWLINE]).
Proof.
  unfold write_frame. destruct (encode_frame_some s response) as [line ->]. simpl.
  by rewrite <-app_assoc.
Qed.

Definition framed (frames : list (list Z)) : list Z := concat (map (fun f => f ++ [NEWLINE]) frames).

(** One round of the loop of [serve], for the next line. *)
Lemma serve_line fuel s r (w : list Z) :
  steady r -> data r <> [] ->
  let line := first_line (data r) in
  exists r', steady r' /\ data r' = drop (length line) (data r)
    /\ serve_go VERSION worker (S fuel) s r w
       = let '(answer, s') := answer_line s line in
         serve_go VERSION worker fuel s' r'
           (match answer with
            | Some response => w ++ default [] (encode_frame (server s') response) ++ [NEWLINE]
            | None => w
            end).
Proof.
  intros Hs Hbs line. cbn [serve_go].
  destruct (read_until_first r (MAX_REQUEST_BYTES + 1) Hs ltac:(unfold MAX_REQUEST_BYTES; lia))
    as (r1 & -> & Hs1 & Hd1). fold line in Hd1 |- *.
  set (n := Z.to_nat (MAX_REQUEST_BYTES + 1)) in *.
  assert (Z.of_nat n = MAX_REQUEST_BYTES + 1) as Hn by (subst n; unfold MAX_REQUEST_BYTES; lia).
  assert (0 < n)%nat by (subst n; unfold MAX_REQUEST_BYTES; lia).
  clearbody n. pose proof (first_line_nonempty _ Hbs) as Hline. fold line in Hline.
  assert (data r1 = drop (length (take n line)) (data r)) as Hd1'.
  { rewrite Hd1 at 1. by rewrite drop_app_length. }
  assert (length (take n line) = n `min` length line)%nat as Hlen by apply length_take.
  pose proof (last_newline n (data r)) as Hlast. fold line in Hlast.
  assert (Z.of_nat (length line) <= MAX_REQUEST_BYTES -> take n line = line) as Hall
    by (intros; apply take_ge; lia).
  pose proof (rest_of_line (data r) n) as Hrest. fold line in Hrest.
  revert Hd1' Hlen Hlast Hall Hrest. clear Hd1. generalize (take n line). intros piece Hd1 Hlen Hlast Hall Hrest.
  destruct piece as [|b piece].
  { exfalso. apply Hline, length_zero_iff_nil. simpl in Hlen. lia. }
  unfold answer_line.
  destruct (Z.ltb_spec MAX_REQUEST_BYTES (Z.of_nat (length line))) as [Hbig|Hsmall].
  - destruct (Z.ltb_spec MAX_REQUEST_BYTES (Z.of_nat (length (b :: piece)))); [|lia].
    destruct (bool_decide_reflect (last (b :: piece) = Some NEWLINE)) as [Hl|Hl].
    + rewrite Hlast in Hd1 by done. exists r1. by rewrite write_response_vec.
    + destruct (drain_line_steady (serve_fuel r1) r1 Hs1) as (r2 & -> & Hs2 & Hd2).
      { unfold serve_fuel, left_over. lia. }
      rewrite write_response_vec. exists r2. split_and!; [done| |done].
      by rewrite Hd2, Hd1, Hrest.
  - rewrite Hall in * by done. destruct (Z.ltb_spec MAX_REQUEST_BYTES (Z.of_nat (length line))); [lia|].
    exists r1. split_and!; [done|done|].
    destruct (strip_line line) as [|c frame] eqn:Hstrip; [done|].
    destruct (handle s (c :: frame)) as [[response|] s']; [|done]. by rewrite write_response_vec.
Qed.

Lemma serve_steady fuel s r (w : list Z) :
  steady r -> (length (data r) < fuel)%nat ->
  exists r', serve_go VERSION worker fuel s r w
    = (EndOfInput, (snd (transcript s (lines (data r))), r', w ++ framed (fst (transcript s (lines (data r)))))).
Proof.
  revert s r w. induction fuel as [|fuel IH]; intros s r w Hs Hf; [lia|].
  destruct (decide (data r = [])) as [Hd|Hd].
  - destruct (read_until_first r (MAX_REQUEST_BYTES + 1) Hs ltac:(unfold MAX_REQUEST_BYTES; lia)) as (r1 & Hr & _).
    exists r1. cbn [serve_go]. rewrite Hr, Hd. change (first_line []) with (@nil Z). rewrite take_nil. simpl. by rewrite app_nil_r.
  - rewrite lines_first by done. cbn [transcript].
    destruct (serve_line fuel s r w Hs Hd) as (r1 & Hs1 & Hd1 & ->).
    destruct (answer_line s (first_line (data r))) as [answer s1].
    rewrite <-Hd1.
    assert (length (data r1) < fuel)%nat as Hf1.
    { rewrite Hd1, length_drop. pose proof (first_line_nonempty _ Hd).
      destruct (first_line (data r)); [done|]. simpl. destruct (data r); [done|]. simpl in *. lia. }
    destruct (IH s1 r1 (match answer with
      | Some response => w ++ default [] (encode_frame (server s1) response) ++ [NEWLINE] | None => w end) Hs1 Hf1)
      as (r2 & ->).
    exists r2. destruct (transcript s1 (lines (data r1))) as [frames s2]. simpl.
    destruct answer; [|done]. unfold framed. simpl. by rewrite <-!app_assoc.
Qed.
End Transport.

(** ** Termination *)
Section Termination.
Context `{JsonTextLaws} (VERSION : string) (worker : nat -> Worker) {W : Type} `{!Write W}.

Lemma drain_line_returns fuel r :
  (left_over r < fuel)%nat ->
  exists res r', drain_line fuel r = Some (res, r') /\ (res = Ok tt -> (left_over r' <= left_over r)%nat).
Proof.
  revert r. induction fuel as [|fuel IH]; intros r Hf; [lia|]. cbn [drain_line].
  destruct (read_until NEWLINE MAX_REQUEST_BYTES r) as [[piece|e] r'] eqn:Hr; [|by eexists _, _].
  apply read_until_uses in Hr. destruct (bool_decide_reflect (piece = [])) as [|Hne]; [eexists _, _; split; [done|lia]|].
  assert (0 < length piece)%nat by (destruct piece; [done|simpl; lia]).
  case_bool_decide; [eexists _, _; split; [done|lia]|]. simpl.
  destruct (IH r' ltac:(lia)) as (res & r'' & -> & Hl). eexists _, _. split; [done|]. intros ?%Hl. lia.
Qed.

Lemma serve_go_returns fuel s r (w : W) :
  (left_over r < fuel)%nat ->
  fst (serve_go VERSION worker fuel s r w) <> OutOfFuel
  /\ fst (serve_go VERSION worker fuel s r w) <> Panicked.
Proof.
  revert s r w. induction fuel as [|fuel IH]; intros s r w Hf; [lia|]. cbn [serve_go].
  destruct (read_until NEWLINE (MAX_REQUEST_BYTES + 1) r) as [[frame|e] r'] eqn:Hr; [|done].
  apply read_until_uses in Hr. destruct frame as [|b frame]; [done|].
  assert (forall response s1 r1, (left_over r1 < left_over r)%nat ->
    let out := match write_frame (server s1) w response with
               | (Some (Ok _), w) => serve_go VERSION worker fuel s1 r1 w
               | (Some (Err e), w) => (WriteError e, (s1, r1, w))
               | (None, w) => (Panicked, (s1, r1, w))
               end in fst out <> OutOfFuel /\ fst out <> Panicked) as Hrespond.
  { intros response s1 r1 Hr1. unfold write_frame. destruct (encode_frame_some (server s1) response) as [line ->].
    destruct (tbind _ _ _) as [[[]|e] w']; [apply IH; lia|done]. }
  destruct (Z.ltb_spec MAX_REQUEST_BYTES (Z.of_nat (length (b :: frame)))).
  - simpl in Hr. case_bool_decide; [apply Hrespond; lia|].
    destruct (drain_line_returns (serve_fuel r') r') as (res & r'' & -> & Hl); [unfold serve_fuel; lia|].
    destruct res as [[]|]; [|done]. specialize (Hl eq_refl). apply Hrespond. lia.
  - simpl in Hr. destruct (strip_line _); [apply IH; lia|].
    destruct (handle_frame _ _ _ _) as [[]]; [apply Hrespond; lia|apply IH; lia].
Qed.
End Termination.

Lemma lines_line l bs : (NEWLINE ∉ l) -> lines ((l ++ [NEWLINE]) ++ bs) = (l ++ [NEWLINE]) :: lines bs.
Proof.
  intros Hl. rewrite lines_first by (by destruct l). unfold first_line.
  rewrite <-app_assoc. simpl ([NEWLINE] ++ bs). rewrite through_here by done. simpl.
  change (NEWLINE :: bs) with ([NEWLINE] ++ bs). by rewrite app_assoc, drop_app_length.
Qed.

Lemma lines_framed frames : Forall (fun f => NEWLINE ∉ f) frames ->
  lines (framed frames) = map (fun f => f ++ [NEWLINE]) frames.
Proof.
  induction 1 as [|f frames Hf _ IH]; [done|]. unfold framed in *. simpl.
  rewrite lines_line by done. by rewrite IH.
Qed.

Lemma transcript_frames `{JsonTextLaws} VERSION worker s ls :
  Forall (fun f => NEWLINE ∉ f) (fst (transcript VERSION worker s ls)).
Proof.
  revert s. induction ls as [|l ls IH]; intros s; [constructor|]. simpl.
  destruct (answer_line _ _ s l) as [answer s1]. specialize (IH s1).
  destruct (transcript _ _ s1 ls) as [frames s2]. simpl in *. destruct answer as [response|]; [|done].
  constructor; [|done]. destruct (encode_frame_some (server s1) response) as [line Hline].
  rewrite Hline. by eapply McpProps.encode_frame_line.
Qed.

(** C20: A session over lines returns and is a function of its input.  With any source
    and any writer, failing or not, [serve] ends with the end of the input or the
    first error of either; it neither hangs nor panics.  When the source delivers
    its bytes without failing, in whatever pieces, the session reads to the end:
    it answers each line of the input in order as the reference definition does, a
    line over 256 KiB by one error and without touching the next, and what it
    writes is exactly one line for each answer. *)
Theorem stdio_session_is_its_transcript `{JsonTextLaws} (VERSION : string) (worker : nat -> Worker)
    {W : Type} `{!Write W} (s : Session) (r : Reader) :
  (forall w : W, match fst (serve VERSION worker s r w) with
                 | EndOfInput | ReadFailed _ | WriteError _ => True
                 | Panicked | OutOfFuel => False
                 end)
  /\ (steady r -> forall w : list Z,
       let '(frames, s') := transcript VERSION worker s (lines (data r)) in
       (exists r', serve VERSION worker s r w = (EndOfInput, (s', r', w ++ framed frames)))
       /\ lines (framed frames) = map (fun f => f ++ [NEWLINE]) frames).
Proof.
  split.
  - intros w. destruct (serve_go_returns VERSION worker (serve_fuel r) s r w) as [H2 H3]; [unfold serve_fuel; lia|].
    unfold serve. by destruct (fst _).
  - intros Hs w. pose proof (transcript_frames VERSION worker s (lines (data r))) as Hf.
    destruct (serve_steady VERSION worker (serve_fuel r) s r w Hs) as [r' Hr]; [unfold serve_fuel, left_over; lia|].
    unfold serve. rewrite Hr. destruct (transcript _ _ s (lines (data r))) as [frames s']. simpl in *.
    split; [eauto|]. by apply lines_framed.
Qed.
End McpStdio.
