(* ===== verification/McpHttp.v ===== *)
(** * HTTP requests of the MCP server (src/src/mcp_host/http/wire.rs and origin.rs)

    Reading one bounded request before a deadline, writing one response, and the
    checks of the Host and Origin headers.  Times are milliseconds; url::Url is a
    parameter. *)
From stdpp Require Import base list strings.
From Stdlib Require Import ZArith Lia.
From S2P Require Import Prelude RustStr StdText StdIo StdNet McpRpc.

Open Scope Z_scope.
Open Scope rust_scope.

(** [url::Url::parse], with the scheme and host of the result. *)
Inductive UrlHost := Domain (name : string) | Address (ip : IpAddr).
Class Urls := { url_parse : string -> option (string * option UrlHost) }.

Module Http.
Import RpcMessages.

(** ** limits.rs *)
Definition MAX_HTTP_HEAD_BYTES : Z := 8 * 1024.
Definition MAX_HTTP_HEADERS : Z := 64.

(** ** wire.rs *)
Record HttpRequest := mkRequest {
  rq_method : string;
  rq_path : string;
  rq_headers : list (string * string);
  rq_body : list Z;
}.

(** The first value of a header, also the [lookup] of [read_request]. *)
Fixpoint lookup_header (name : string) (headers : list (string * string)) : option string :=
  match headers with
  | [] => None
  | (k, v) :: r => if bool_decide (k = name) then Some v else lookup_header name r
  end.
Definition header (rq : HttpRequest) (name : string) : option string := lookup_header name (rq_headers rq).

Record HttpError := mkHttpError { he_status : Z; he_message : string }.

Inductive ReadOutcome := Request (rq : HttpRequest) | Rejected (e : HttpError) | Disconnected.

Definition reason (status : Z) : string :=
  if status =? 200 then "OK" else if status =? 202 then "Accepted"
  else if status =? 204 then "No Content" else if status =? 400 then "Bad Request"
  else if status =? 403 then "Forbidden" else if status =? 404 then "Not Found"
  else if status =? 405 then "Method Not Allowed" else if status =? 408 then "Request Timeout"
  else if status =? 413 then "Payload Too Large" else if status =? 415 then "Unsupported Media Type"
  else if status =? 429 then "Too Many Requests" else if status =? 431 then "Request Header Fields Too Large"
  else if status =? 501 then "Not Implemented" else if status =? 503 then "Service Unavailable"
  else if status =? 505 then "HTTP Version Not Supported" else "Error".

Definition reject (status : Z) (message : string) : ReadOutcome := Rejected (mkHttpError status message).
Definition too_many_headers : ReadOutcome :=
  reject 431 ("more than " +:+ decimal MAX_HTTP_HEADERS +:+ " header lines").

Definition is_line_end (b : Z) : bool := (b =? 13) || (b =? 10).

(** The first loop of [read_request]: the lines of the head, or the outcome of
    the request.  [head] is the number of bytes read so far. *)
Fixpoint read_head (fuel : nat) (deadline head : Z) (lines : list string) (r : Reader)
    : option (result ReadOutcome (list string) * Reader) :=
  match fuel with
  | O => None
  | S fuel =>
      if deadline <=? clock r then Some (Err (reject 408 "timed out reading the request head"), r)
      else
        let remaining := usize_saturating_sub MAX_HTTP_HEAD_BYTES head + 1 in
        match read_until 10 remaining r with
        | (Err ReadTimeout, r) => Some (Err (reject 408 "timed out reading the request head"), r)
        | (Err ReadOther, r) => Some (Err Disconnected, r)
        | (Ok line, r) =>
            if bool_decide (line = [])
            then Some (Err (if bool_decide (lines = []) && (head =? 0) then Disconnected
                            else reject 400 "connection closed mid-request"), r)
            else
              let head := head + Z.of_nat (length line) in
              if MAX_HTTP_HEAD_BYTES <? head
              then Some (Err (reject 431 ("request head exceeds " +:+ decimal MAX_HTTP_HEAD_BYTES +:+ " bytes")), r)
              else if negb (bool_decide (last line = Some 10))
              then Some (Err (reject 400 "truncated request head"), r)
              else
                let text := trim_end_matches is_line_end (from_utf8_lossy line) in
                if is_empty text then Some (Ok lines, r)
                else if MAX_HTTP_HEADERS <? Z.of_nat (length lines) then Some (Err too_many_headers, r)
                else read_head fuel deadline head (lines ++ [text]) r
        end
  end.

Fixpoint parse_headers (lines : list string) : result ReadOutcome (list (string * string)) :=
  match lines with
  | [] => Ok []
  | line :: rest =>
      match split_once 58 line with
      | None => Err (reject 400 "malformed header line")
      | Some (name, value) =>
          let? headers := parse_headers rest in
          Ok ((to_ascii_lowercase (str_trim name), str_trim value) :: headers)
      end
  end.

(** The request line, the headers and the length of the body. *)
Definition parse_head (lines : list string)
    : result ReadOutcome (string * string * list (string * string) * Z) :=
  match lines with
  | [] => Err (reject 400 "empty request line")
  | request_line :: lines =>
      match split_whitespace request_line with
      | method :: target :: version :: _ =>
          fail? negb (starts_with version "HTTP/1.")
            with reject 505 ("unsupported HTTP version `" +:+ version +:+ "`") in
          let? headers := parse_headers lines in
          fail? MAX_HTTP_HEADERS <? Z.of_nat (length headers) with too_many_headers in
          let? _ := match lookup_header "transfer-encoding" headers with
                    | Some encoding =>
                        Err (reject 501 ("`Transfer-Encoding: " +:+ encoding
                                         +:+ "` is not implemented — send Content-Length"))
                    | None => Ok tt
                    end in
          let? len := match lookup_header "content-length" headers with
                      | None => Ok 0
                      | Some raw => ok_or (parse_unsigned u64_max (str_trim raw))
                                      (reject 400 "malformed Content-Length")
                      end in
          fail? MAX_REQUEST_BYTES <? len
            with reject 413 ("request body exceeds " +:+ decimal MAX_REQUEST_BYTES +:+ " bytes") in
          Ok (method, target, headers, len)
      | _ => Err (reject 400 "malformed request line")
      end
  end.

(** The loop that fills the body; [acc] is the part that is filled. *)
Fixpoint read_body (fuel : nat) (deadline len : Z) (acc : list Z) (r : Reader)
    : option (result ReadOutcome (list Z) * Reader) :=
  match fuel with
  | O => None
  | S fuel =>
      if len <=? Z.of_nat (length acc) then Some (Ok acc, r)
      else if deadline <=? clock r then Some (Err (reject 408 "timed out reading the request body"), r)
      else
        match read_some (Z.to_nat (len - Z.of_nat (length acc))) r with
        | (Ok [], r) => Some (Err (reject 400 "truncated request body"), r)
        | (Ok piece, r) => read_body fuel deadline len (acc ++ piece) r
        | (Err None, r) => read_body fuel deadline len acc r
        | (Err (Some ReadTimeout), r) => Some (Err (reject 408 "timed out reading the request body"), r)
        | (Err (Some ReadOther), r) => Some (Err Disconnected, r)
        end
  end.

Definition is_target_end (b : Z) : bool := (b =? 63) || (b =? 35).

(** [read_request]: the fuel of both loops is what the source still holds. *)
Definition read_request (r : Reader) (deadline : Z) : option (ReadOutcome * Reader) :=
  match read_head (S (left_over r)) deadline 0 [] r with
  | None => None
  | Some (Err outcome, r) => Some (outcome, r)
  | Some (Ok lines, r) =>
      match parse_head lines with
      | Err outcome => Some (outcome, r)
      | Ok (method, target, headers, len) =>
          match read_body (S (left_over r)) deadline len [] r with
          | None => None
          | Some (Err outcome, r) => Some (outcome, r)
          | Some (Ok body, r) =>
              Some (Request (mkRequest (to_ascii_uppercase method) (first_part is_target_end target) headers body), r)
          end
      end
  end.

Definition crlf : list Z := [13; 10].
Definition text_line (s : string) : list Z := bytes s ++ crlf.

Definition response_bytes (status : Z) (extra_headers : list (string * string)) (body : list Z) : list Z :=
  text_line ("HTTP/1.1 " +:+ decimal status +:+ " " +:+ reason status)
  ++ text_line "Content-Type: application/json"
  ++ text_line ("Content-Length: " +:+ decimal (Z.of_nat (length body)))
  ++ text_line "Cache-Control: no-store"
  ++ text_line "X-Content-Type-Options: nosniff"
  ++ text_line "Connection: close"
  ++ concat (map (fun h => text_line (fst h +:+ ": " +:+ snd h)) extra_headers)
  ++ crlf ++ body.

(** What one [write] of the socket does: it takes some bytes, or fails. *)
Inductive Output := Took (count : nat) | WriteInterrupted | WriteBlocked | WriteBroken.
Inductive WriteError := WriteTimedOut | WriteZero | WriteOther.

(** The loop of [write_all_deadline]: the times are those of the clock checks;
    what reaches the peer is returned in every case.  A write takes at most what
    it is given. *)
Fixpoint write_all_deadline (fuel : nat) (now : nat -> Z) (writes : nat -> Output) (deadline : Z)
    (round : nat) (bs sent : list Z) : option (result WriteError unit * list Z) :=
  match fuel with
  | O => None
  | S fuel =>
      match bs with
      | [] => Some (Ok tt, sent)
      | _ =>
          if deadline <=? now round then Some (Err WriteTimedOut, sent)
          else match writes round with
               | Took O => Some (Err WriteZero, sent)
               | Took n => write_all_deadline fuel now writes deadline (S round) (drop n bs) (sent ++ take n bs)
               | WriteInterrupted | WriteBlocked => write_all_deadline fuel now writes deadline (S round) bs sent
               | WriteBroken => Some (Err WriteOther, sent)
               end
      end
  end.

(** ** origin.rs *)
Inductive AuthorityRejection := MissingHost | NonLoopbackHost | CrossOrigin.

Definition rejection_message (r : AuthorityRejection) : string :=
  match r with
  | MissingHost => "missing Host header"
  | NonLoopbackHost => "Host header does not name a loopback address (DNS-rebinding defense)"
  | CrossOrigin => "Origin header is not a loopback origin (DNS-rebinding defense)"
  end.

Definition parsed_host_is_loopback (host : UrlHost) : bool :=
  match host with
  | Domain name => eq_ignore_ascii_case name "localhost"
  | Address ip => is_loopback ip
  end.

Definition names_loopback_address (s : string) : bool :=
  match parse_ip s with Some ip => is_loopback ip | None => false end.

Definition host_header_is_loopback (value : string) : bool :=
  let value := str_trim value in
  match value with
  | EmptyString => false
  | String c rest =>
      if byte_val c =? 91
      then
        match split_once 93 rest with
        | None => false
        | Some (inside, tail) =>
            if match bytes tail with
               | [] => false
               | b :: digits => negb ((b =? 58) && forallb is_ascii_digit digits)
               end
            then false
            else names_loopback_address inside
        end
      else
        let by_name (authority : string) :=
          eq_ignore_ascii_case authority "localhost" || names_loopback_address authority in
        match rsplit_once 58 value with
        | Some (name, port) =>
            if is_empty port || negb (forallb is_ascii_digit (bytes port)) then false
            else by_name name
        | None => by_name value
        end
  end.

Section Origin.
Context `{Urls}.

Definition origin_is_loopback (value : string) : bool :=
  let value := str_trim value in
  if is_empty value || eq_ignore_ascii_case value "null" then false
  else match url_parse value with
       | None => false
       | Some (scheme, host) =>
           if negb (bool_decide (scheme = "http")) then false
           else match host with Some host => parsed_host_is_loopback host | None => false end
       end.

Definition check (host origin : option string) : result AuthorityRejection unit :=
  match host with
  | None => Err MissingHost
  | Some host =>
      if negb (host_header_is_loopback host) then Err NonLoopbackHost
      else match origin with
           | Some origin => if negb (origin_is_loopback origin) then Err CrossOrigin else Ok tt
           | None => Ok tt
           end
  end.
End Origin.
End Http.
