(* ===== verification/McpHttpProps.v ===== *)
(** * Properties of HTTP requests and responses

    Reading back what a client wrote, the bounds on what is read, the framing of
    responses and the check of the Host header. *)
From stdpp Require Import base list strings.
From Stdlib Require Import ZArith Lia.
From S2P Require Import Prelude RustStr StdText StdIo StdNet McpRpc McpHttp.

Open Scope Z_scope.
Open Scope rust_scope.

Module HttpProps.
Import RpcMessages Http.

(** ** Reading back a request *)

(** Printable ASCII. *)
Definition printable (bs : list Z) : Prop := Forall (fun b => 32 <= b < 127) bs.

Lemma printable_ascii bs : printable bs -> ascii bs.
Proof. intros Hb. eapply Forall_impl; [exact Hb|]. simpl. lia. Qed.
Lemma graphic_printable bs : graphic bs -> printable bs.
Proof. intros Hb. eapply Forall_impl; [exact Hb|]. simpl. lia. Qed.
Lemma printable_app a b : printable (a ++ b) <-> printable a /\ printable b.
Proof. apply Forall_app. Qed.
Lemma printable_not (c : Z) bs : c < 32 -> printable bs -> (c ∉ bs).
Proof. intros Hc Hb Hin. unfold printable in Hb; rewrite Forall_forall in Hb. specialize (Hb _ Hin). simpl in Hb. lia. Qed.

Lemma line_text l : printable l ->
  trim_end_matches is_line_end (from_utf8_lossy (l ++ [13; 10])) = string_of_bytes l.
Proof.
  intros Hl. assert (ascii (l ++ [13; 10])) as Ha.
  { apply ascii_app. split; [by apply printable_ascii|]. repeat constructor; lia. }
  rewrite from_utf8_lossy_ascii by done. apply ascii_app in Ha as [Ha1 Ha2].
  apply trim_end_matches_spec; [done|done|by repeat constructor|].
  assert (printable (rev l)) as Hr by (by apply Forall_rev). destruct Hr as [|c r Hc _]; [done|].
  unfold is_line_end. apply orb_false_iff. split; apply Z.eqb_neq; lia.
Qed.

Definition wire_lines (ls : list (list Z)) : list Z := concat (map (fun l => l ++ crlf) ls).

Lemma wire_lines_length ls : (length ls <= length (wire_lines ls))%nat.
Proof.
  induction ls as [|l ls IH]; [done|]. unfold wire_lines in *. simpl. rewrite !length_app. simpl. lia.
Qed.

Lemma read_head_lines deadline ls : forall fuel head acc r rest,
  prompt deadline r -> data r = wire_lines ls ++ crlf ++ rest ->
  Forall (fun l => printable l /\ l <> []) ls ->
  0 <= head -> head + Z.of_nat (length (wire_lines ls ++ crlf)) <= MAX_HTTP_HEAD_BYTES ->
  (length acc + length ls <= 65)%nat -> (length ls < fuel)%nat ->
  exists r', read_head fuel deadline head acc r = Some (Ok (acc ++ map string_of_bytes ls), r')
    /\ prompt deadline r' /\ data r' = rest.
Proof.
  induction ls as [|l ls IH]; intros fuel head acc r rest Hp Hd Hls Hh0 Hh Hacc Hfuel.
  - destruct fuel as [|fuel]; [lia|]. cbn [read_head].
    rewrite (proj2 (Z.leb_gt _ _)) by (by apply prompt_clock).
    destruct (read_line deadline 10 (usize_saturating_sub MAX_HTTP_HEAD_BYTES head + 1) r [13] rest)
      as (r' & -> & Hp' & Hd'); [done|done|by apply (bool_decide_eq_true_1 _)| |].
    { unfold usize_saturating_sub. simpl in *. lia. }
    simpl. exists r'. rewrite (proj2 (Z.ltb_ge _ _)) by (simpl in Hh; lia). by rewrite app_nil_r.
  - destruct fuel as [|fuel]; [simpl in Hfuel; lia|]. cbn [read_head].
    apply Forall_cons in Hls as [[Hl Hne] Hls]. unfold wire_lines in Hd, Hh. simpl in Hd, Hh.
    fold (wire_lines ls) in Hd, Hh. rewrite !length_app in Hh. simpl in Hh.
    rewrite (proj2 (Z.leb_gt _ _)) by (by apply prompt_clock).
    destruct (read_line deadline 10 (usize_saturating_sub MAX_HTTP_HEAD_BYTES head + 1) r (l ++ [13])
      (wire_lines ls ++ crlf ++ rest)) as (r' & -> & Hp' & Hd').
    { done. }
    { rewrite Hd. unfold crlf. by rewrite <-!app_assoc. }
    { intros [Hin|Hin]%elem_of_app; [by eapply (printable_not 10); [| |exact Hin]|].
      by apply list_elem_of_singleton in Hin. }
    { unfold usize_saturating_sub. rewrite length_app. simpl. lia. }
    rewrite <-app_assoc. simpl ([13] ++ [10]). rewrite line_text by done.
    destruct (bool_decide_reflect (l ++ [13; 10] = [])) as [He|_]; [by destruct l|].
    rewrite length_app. simpl length.
    rewrite (proj2 (Z.ltb_ge _ _)) by lia.
    rewrite last_app. simpl last. rewrite bool_decide_eq_true_2 by done. simpl negb. cbv iota.
    assert (is_empty (string_of_bytes l) = false) as -> by (by destruct l).
    rewrite (proj2 (Z.ltb_ge _ _)) by (unfold MAX_HTTP_HEADERS; simpl in Hacc; lia).
    destruct (IH fuel (head + Z.of_nat (length l + 2)) (acc ++ [string_of_bytes l]) r' rest)
      as (r'' & Hr & Hp'' & Hd''); try done.
    { lia. } { rewrite length_app. unfold crlf. simpl length. lia. }
    { rewrite length_app. simpl in *. lia. } { simpl in Hfuel. lia. }
    exists r''. rewrite Hr, <-app_assoc. done.
Qed.

(** A header a client may send. *)
Definition header_ok (h : string * string) : Prop :=
  graphic (bytes (fst h)) /\ fst h <> EmptyString /\ (58 ∉ bytes (fst h))
  /\ printable (bytes (snd h)) /\ bounded_by is_whitespace (bytes (snd h)).
Definition header_line (h : string * string) : list Z := bytes (fst h) ++ 58 :: 32 :: bytes (snd h).
Definition lowered (h : string * string) : string * string := (to_ascii_lowercase (fst h), snd h).

Lemma trim_graphic l : graphic l -> str_trim (string_of_bytes l) = string_of_bytes l.
Proof.
  intros Hl. rewrite <-(app_nil_r l) at 1. rewrite <-(app_nil_l (l ++ [])).
  apply str_trim_ascii; [|constructor|constructor|by apply graphic_bounded].
  rewrite app_nil_l, app_nil_r. by apply graphic_ascii.
Qed.

Lemma parse_header_lines hs :
  Forall header_ok hs ->
  parse_headers (map (fun h => string_of_bytes (header_line h)) hs) = Ok (map lowered hs).
Proof.
  induction 1 as [|[k v] hs (Hk & Hne & Hc & Hv & Hb) _ IH]; [done|]. simpl map. cbn [parse_headers].
  simpl in Hk, Hc, Hv, Hb. unfold header_line at 1. simpl fst. simpl snd.
  assert (ascii (bytes k ++ 58 :: 32 :: bytes v)) as Ha.
  { apply ascii_app. split; [by apply graphic_ascii|].
    constructor; [lia|]. constructor; [lia|]. by apply printable_ascii. }
  rewrite split_once_here by done. rewrite IH. unfold lowered. simpl. f_equal. f_equal. f_equal.
  - by rewrite trim_graphic, string_of_bytes_of by done.
  - pose proof (str_trim_ascii [32] (bytes v) []) as Htrim. rewrite app_nil_r, string_of_bytes_of in Htrim.
    apply Htrim; [|by repeat constructor|constructor|done].
    constructor; [lia|]. by apply printable_ascii.
Qed.

Lemma header_line_ok h : header_ok h -> printable (header_line h) /\ header_line h <> [].
Proof.
  intros (Hk & Hne & _ & Hv & _). unfold header_line. split.
  - apply printable_app. split; [by apply graphic_printable|]. constructor; [lia|]. by constructor; [lia|].
  - by destruct (bytes (fst h)).
Qed.

Lemma read_body_all fuel deadline len acc r body rest :
  prompt deadline r -> data r = body ++ rest -> len = Z.of_nat (length (acc ++ body)) ->
  (left_over r < fuel)%nat ->
  exists r', read_body fuel deadline len acc r = Some (Ok (acc ++ body), r') /\ data r' = rest.
Proof.
  revert acc r body. induction fuel as [|fuel IH]; intros acc r body Hp Hd Hlen Hf; [lia|].
  cbn [read_body]. rewrite length_app in Hlen. destruct body as [|b body].
  - rewrite (proj2 (Z.leb_le _ _)) by (simpl in Hlen; lia). exists r. by rewrite app_nil_r.
  - rewrite (proj2 (Z.leb_gt _ _)) by (simpl in Hlen; lia).
    rewrite (proj2 (Z.leb_gt _ _)) by (by apply prompt_clock).
    destruct (read_piece deadline (Z.to_nat (len - Z.of_nat (length acc))) r Hp) as (r' & Hp' & Hl & Hr).
    { simpl in Hlen. lia. } { by rewrite Hd. }
    destruct Hr as [[-> Hd']|(piece & -> & Hne & Hpl & Hd')].
    + apply IH; [done|congruence|rewrite length_app; lia|lia].
    + destruct piece as [|x piece]; [done|].
      assert (exists tl, b :: body = (x :: piece) ++ tl) as [tl Htl].
      { rewrite Hd in Hd'. apply app_eq_app in Hd' as (k & [[Hk _]|[Hk _]]); [by exists k|].
        exists []. rewrite app_nil_r. apply (f_equal length) in Hk as Hkl. rewrite length_app in Hkl.
        assert (k = []) as -> by (destruct k; [done|simpl in *; lia]). by rewrite app_nil_r in Hk. }
      rewrite Htl in Hd |- *. rewrite Hd, <-app_assoc in Hd'. apply app_inv_head in Hd'.
      destruct (IH (acc ++ x :: piece) r' tl Hp' (eq_sym Hd')) as (r'' & Hr & Hd'').
      { rewrite Hlen, Htl, !length_app. lia. } { lia. }
      exists r''. rewrite Hr, <-app_assoc. done.
Qed.

(** A request as a client writes it. *)
Definition request_line (method target : string) : list Z :=
  bytes method ++ 32 :: bytes target ++ 32 :: bytes "HTTP/1.1".
Definition request_head (method target : string) (headers : list (string * string)) : list Z :=
  wire_lines (request_line method target :: map header_line headers) ++ crlf.

(** What the server supports: visible words, headers without line breaks whose
    values are trimmed, the limits on their number and size, and a body whose
    length is announced. *)
Record supported (method target : string) (headers : list (string * string)) (body : list Z) : Prop := {
  sp_method : graphic (bytes method) /\ method <> EmptyString;
  sp_target : graphic (bytes target) /\ target <> EmptyString;
  sp_headers : Forall header_ok headers;
  sp_count : Z.of_nat (length headers) <= MAX_HTTP_HEADERS;
  sp_head : Z.of_nat (length (request_head method target headers)) <= MAX_HTTP_HEAD_BYTES;
  sp_encoding : lookup_header "transfer-encoding" (map lowered headers) = None;
  sp_length : match lookup_header "content-length" (map lowered headers) with
              | Some value => value = decimal (Z.of_nat (length body))
              | None => body = []
              end;
  sp_body : Z.of_nat (length body) <= MAX_REQUEST_BYTES;
}.

Lemma parse_head_supported method target headers body :
  supported method target headers body ->
  parse_head (map string_of_bytes (request_line method target :: map header_line headers))
  = Ok (method, target, map lowered headers, Z.of_nat (length body)).
Proof.
  intros []. destruct sp_method0 as [Hm Hm0], sp_target0 as [Ht Ht0]. simpl map. cbn [parse_head].
  unfold request_line. rewrite split_whitespace_three; try done.
  2:{ apply Forall_forall. intros b Hb. revert b Hb. apply Forall_forall. by repeat constructor. }
  2:{ by destruct method. } 2:{ by destruct target. }
  rewrite !string_of_bytes_of. change (negb (starts_with "HTTP/1.1" "HTTP/1.")) with false. cbv iota.
  rewrite map_map, parse_header_lines by done. rewrite length_map.
  rewrite (proj2 (Z.ltb_ge _ _)) by done. rewrite sp_encoding0.
  destruct (lookup_header "content-length" (map lowered headers)) as [value|].
  - subst value. assert (is_u64 (Z.of_nat (length body))) as Hu
      by (unfold MAX_REQUEST_BYTES, is_u64, u64_max in *; lia).
    assert (str_trim (decimal (Z.of_nat (length body))) = decimal (Z.of_nat (length body))) as ->.
    { pose proof (trim_graphic (bytes (decimal (Z.of_nat (length body))))) as Htrim.
      rewrite string_of_bytes_of in Htrim. apply Htrim.
      eapply Forall_impl; [apply decimal_digits; lia|]. intros b Hb. unfold is_ascii_digit in Hb. bools. lia. }
    rewrite parse_unsigned_decimal by (done || unfold is_u64 in Hu; lia). simpl.
    by rewrite (proj2 (Z.ltb_ge _ _)) by done.
  - by subst body.
Qed.

(** ** Bounds *)

(** How many bytes a read takes from a source, whatever the source does. *)
Lemma read_until_takes d limit acc now ins :
  let '(res, r) := read_until_go d limit acc now ins in
  (length (concat (map input_bytes ins)) <= length (data r) + limit)%nat
  /\ match res with
     | Ok bs => (length (concat (map input_bytes ins)) + length acc = length bs + length (data r))%nat
     | Err _ => True
     end.
Proof.
  revert limit acc now. induction ins as [|[wait i] ins IH]; intros limit acc now.
  { destruct limit; simpl; unfold data; simpl; lia. }
  destruct limit as [|limit]; [simpl; unfold data; simpl; lia|].
  destruct i as [[|b bs]| | |]; cbn [read_until_go].
  - unfold data; simpl. lia.
  - cbv zeta. change (concat (map input_bytes ((wait, Bytes (b :: bs)) :: ins)))
      with ((b :: bs) ++ concat (map input_bytes ins)).
    set (piece := b :: bs). clearbody piece. clear b bs. rewrite length_app.
    destruct (through d (take (S limit) piece)) as [l|] eqn:Hl; [|destruct (Nat.leb_spec (length piece) (S limit))].
    + apply through_length in Hl. rewrite length_take in Hl. rewrite data_unread, !length_app, length_drop. lia.
    + specialize (IH (S limit - length piece)%nat (acc ++ piece) (now + wait)).
      destruct (read_until_go _ _ _ _ _) as [[out|] r]; rewrite ?length_app in IH; lia.
    + rewrite data_unread, !length_app, length_drop, length_take. lia.
  - specialize (IH (S limit) acc (now + wait)). simpl. by destruct (read_until_go _ _ _ _ _) as [[]].
  - unfold data; simpl. lia.
  - unfold data; simpl. lia.
Qed.

Lemma read_until_bound d n r res r' :
  0 <= n -> read_until d n r = (res, r') ->
  Z.of_nat (length (data r)) <= Z.of_nat (length (data r')) + n
  /\ match res with Ok bs => length (data r) = (length bs + length (data r'))%nat | Err _ => True end
  /\ (left_over r' <= left_over r)%nat.
Proof.
  intros Hn. unfold read_until. pose proof (read_until_takes d (Z.to_nat n) [] (clock r) (inputs r)) as Ht.
  pose proof (read_until_left d (Z.to_nat n) [] (clock r) (inputs r)) as Hl.
  destruct (read_until_go _ _ _ _ _) as [res1 r1]. intros [= -> ->]. fold (data r) in *.
  destruct Hl as [Hl _], Ht as [Ht1 Ht2]. split_and!; [lia|destruct res; [simpl in Ht2; lia|done]|].
  change (left_over r) with (length (inputs r) + length (data r))%nat. lia.
Qed.

Definition refused (o : ReadOutcome) : Prop :=
  match o with
  | Request _ => False
  | Rejected e => he_status e ∈ [400; 408; 413; 431; 501; 505]
  | Disconnected => True
  end.

Ltac refuse := first [done | apply (bool_decide_eq_true_1 _); reflexivity].

(** The head takes at most its limit and one byte, and has at most 65 lines. *)
Lemma read_head_bounds fuel deadline hd ls r :
  (left_over r < fuel)%nat -> 0 <= hd <= MAX_HTTP_HEAD_BYTES -> Z.of_nat (length ls) <= 65 ->
  exists res r', read_head fuel deadline hd ls r = Some (res, r')
    /\ (left_over r' <= left_over r)%nat
    /\ Z.of_nat (length (data r)) + hd <= Z.of_nat (length (data r')) + MAX_HTTP_HEAD_BYTES + 1
    /\ match res with Ok ls' => Z.of_nat (length ls') <= 65 | Err o => refused o end.
Proof.
  revert hd ls r. induction fuel as [|fuel IH]; intros hd ls r Hf Hhd Hls; [lia|]. cbn [read_head].
  destruct (deadline <=? clock r). { eexists _, _. split; [done|]. split_and!; [lia|lia|refuse]. }
  destruct (read_until 10 (usize_saturating_sub MAX_HTTP_HEAD_BYTES hd + 1) r) as [res r'] eqn:Hr.
  assert (0 <= usize_saturating_sub MAX_HTTP_HEAD_BYTES hd + 1) as Hn by (unfold usize_saturating_sub; lia).
  pose proof (read_until_bound _ _ _ _ _ Hn Hr) as (Ht & Hl & Hlo).
  unfold usize_saturating_sub in Ht. destruct res as [line|[]].
  2,3: eexists _, _; split; [done|]; split_and!; [lia|lia|refuse].
  apply read_until_uses in Hr.
  destruct (bool_decide_reflect (line = [])) as [->|Hne].
  { eexists _, _. split; [done|]. split_and!; [lia|lia|]. destruct (_ && _); refuse. }
  assert (0 < length line)%nat by (destruct line; [done|simpl; lia]).
  destruct (Z.ltb_spec MAX_HTTP_HEAD_BYTES (hd + Z.of_nat (length line))).
  { eexists _, _. split; [done|]. split_and!; [lia|lia|refuse]. }
  destruct (negb _); [eexists _, _; split; [done|]; split_and!; [lia|lia|refuse]|].
  destruct (is_empty _); [eexists _, _; split; [done|]; split_and!; [lia|lia|done]|].
  destruct (Z.ltb_spec MAX_HTTP_HEADERS (Z.of_nat (length ls))) as [|Hfew].
  { eexists _, _; split; [done|]; split_and!; [lia|lia|refuse]. }
  destruct (IH (hd + Z.of_nat (length line)) (ls ++ [trim_end_matches is_line_end (from_utf8_lossy line)]) r')
    as (res & r'' & -> & ? & ? & ?); [lia|lia| |].
  { rewrite length_app. unfold MAX_HTTP_HEADERS in Hfew. simpl. lia. }
  eexists _, _. split; [done|]. split_and!; [lia|lia|done].
Qed.

Lemma parse_headers_bounds ls :
  match parse_headers ls with Ok hs => length hs = length ls | Err o => refused o end.
Proof.
  induction ls as [|l ls IH]; [done|]. cbn [parse_headers]. destruct (split_once 58 l) as [[]|]; [|refuse].
  destruct (parse_headers ls); [|done]. simpl. by rewrite IH.
Qed.

Lemma parse_unsigned_nonneg max s n : parse_unsigned max s = Some n -> 0 <= n.
Proof.
  assert (forall bs acc, 0 <= acc -> forall n, foldl (fun acc b =>
    match acc with
    | Some n => if is_ascii_digit b && (n * 10 + (b - 48) <=? max) then Some (n * 10 + (b - 48)) else None
    | None => None
    end) (Some acc) bs = Some n -> 0 <= n) as Hgo.
  { induction bs as [|b bs IH]; intros acc Hacc m; simpl; [by intros [= <-]|].
    destruct (is_ascii_digit b && _) eqn:Hb.
    - apply IH. apply andb_true_iff in Hb as [Hb _]. unfold is_ascii_digit in Hb. bools. lia.
    - intros Hn. exfalso. clear -Hn. induction bs; [done|by apply IHbs]. }
  unfold parse_unsigned, parse_digits. intros Hn.
  repeat match goal with H : context [match ?x with _ => _ end] |- _ => destruct x; try done end; by eapply Hgo, Hn.
Qed.

Lemma parse_head_bounds ls :
  Z.of_nat (length ls) <= 65 ->
  match parse_head ls with
  | Ok (_, _, hs, len) => Z.of_nat (length hs) <= MAX_HTTP_HEADERS /\ 0 <= len <= MAX_REQUEST_BYTES
  | Err o => refused o
  end.
Proof.
  intros Hls. unfold parse_head. destruct ls as [|l ls]; [refuse|].
  destruct (split_whitespace l) as [|m [|t [|v ws]]]; try refuse.
  destruct (negb _); [refuse|]. pose proof (parse_headers_bounds ls) as Hh.
  destruct (parse_headers ls) as [hs|]; [|done].
  destruct (Z.ltb_spec MAX_HTTP_HEADERS (Z.of_nat (length hs))) as [|Hfew]; [refuse|].
  destruct (lookup_header "transfer-encoding" hs); [refuse|].
  destruct (lookup_header "content-length" hs) as [raw|].
  - destruct (parse_unsigned u64_max (str_trim raw)) as [n|] eqn:Hn; [|refuse].
    apply parse_unsigned_nonneg in Hn. simpl. destruct (Z.ltb_spec MAX_REQUEST_BYTES n); [refuse|]. lia.
  - simpl. unfold MAX_REQUEST_BYTES. lia.
Qed.

Lemma read_some_bound n r res r' :
  read_some n r = (res, r') ->
  (left_over r' <= left_over r)%nat
  /\ match res with
     | Ok bs => (length bs <= n)%nat /\ length (data r) = (length bs + length (data r'))%nat
                /\ (bs <> [] -> (left_over r' < left_over r)%nat)
     | Err None => (left_over r' < left_over r)%nat /\ data r' = data r
     | Err (Some _) => data r' = data r
     end.
Proof.
  unfold read_some. destruct r as [now [|[wait i] ins]]; simpl.
  { intros [= <- <-]. split_and!; [lia|simpl; lia|done|done]. }
  destruct i as [bs| | |]; intros [= <- <-]; try (unfold left_over, data; simpl; split_and!; (lia || done)).
  pose proof (left_over_unread (drop n bs) ins (now + wait)) as Hu. rewrite length_drop in Hu.
  assert (left_over (mkReader now ((wait, Bytes bs) :: ins))
          = S (length ins) + (length bs + length (concat (map input_bytes ins))))%nat as ->.
  { change (S (length ins) + length (bs ++ concat (map input_bytes ins))
      = S (length ins) + (length bs + length (concat (map input_bytes ins))))%nat. rewrite length_app. lia. }
  change (data (mkReader now ((wait, Bytes bs) :: ins))) with (bs ++ concat (map input_bytes ins)).
  rewrite data_unread, !length_app, length_take, length_drop.
  split_and!; [|lia|lia|].
  - destruct (decide (n < length bs)%nat); [lia|]. rewrite drop_ge in Hu |- * by lia.
    unfold left_over, data. simpl. lia.
  - destruct bs as [|b bs]; [by rewrite take_nil|]. intros Hne. assert (0 < n)%nat by (destruct n; [done|lia]).
    simpl length in *. lia.
Qed.

Lemma read_body_bounds fuel deadline len acc r :
  (left_over r < fuel)%nat -> Z.of_nat (length acc) <= len ->
  exists res r', read_body fuel deadline len acc r = Some (res, r')
    /\ Z.of_nat (length (data r)) + Z.of_nat (length acc) <= Z.of_nat (length (data r')) + len
    /\ match res with Ok body => Z.of_nat (length body) = len | Err o => refused o end.
Proof.
  revert acc r. induction fuel as [|fuel IH]; intros acc r Hf Hacc; [lia|]. cbn [read_body].
  destruct (Z.leb_spec len (Z.of_nat (length acc))).
  { eexists _, _. split; [done|]. split; lia. }
  destruct (deadline <=? clock r). { eexists _, _. split; [done|]. split; [lia|refuse]. }
  destruct (read_some _ r) as [res r'] eqn:Hr. apply read_some_bound in Hr as [Hlo Hr].
  destruct res as [piece|[[]|]].
  - destruct Hr as (Hn & Hd & Hlt). destruct piece as [|b piece].
    { eexists _, _. split; [done|]. simpl in Hd. split; [lia|refuse]. }
    destruct (IH (acc ++ b :: piece) r') as (res & r'' & -> & ? & ?).
    { specialize (Hlt ltac:(done)). lia. } { rewrite length_app. lia. }
    eexists _, _. split; [done|]. rewrite length_app in *. split; [lia|done].
  - eexists _, _. split; [done|]. rewrite Hr. split; [lia|refuse].
  - eexists _, _. split; [done|]. rewrite Hr. split; [lia|refuse].
  - destruct Hr as [Hlt Hd]. destruct (IH acc r') as (res & r'' & -> & ? & ?); [lia|lia|].
    eexists _, _. split; [done|]. rewrite Hd in *. split; [lia|done].
Qed.

(** ** The Host header *)

(** The texts that name the loopback interface: localhost, an address of
    127.0.0.0/8 in its canonical text, or a text of the address ::1. *)
Definition loopback_address (name : string) : Prop :=
  (exists b c d, 0 <= b <= 255 /\ 0 <= c <= 255 /\ 0 <= d <= 255 /\ bytes name = v4_text 127 b c d)
  \/ parse_ip name = Some (V6 [0; 0; 0; 0; 0; 0; 0; 1]).
Definition localhost (name : string) : Prop := map ascii_lower (bytes name) = bytes "localhost".

Lemma loopback_address_iff name : names_loopback_address name = true <-> loopback_address name.
Proof.
  unfold names_loopback_address, loopback_address. split.
  - destruct (parse_ip name) as [[a b c d|segments]|] eqn:Hp; [| |done]; simpl.
    + intros ->%Z.eqb_eq. left. unfold parse_ip in Hp.
      destruct (read_ipv4 (bytes name)) as [[[[[a' b'] c'] d'] rest]|] eqn:H4.
      * case_bool_decide; [|done]. injection Hp as -> -> -> ->. subst rest.
        apply read_ipv4_spec in H4 as (Hn & ? & ? & ? & ?). rewrite app_nil_r in Hn. eauto 10.
      * destruct (read_ipv6 (bytes name)) as [[]|]; [|done]. by case_bool_decide.
    + intros ->%bool_decide_eq_true. by right.
  - intros [(b & c & d & Hb & Hc & Hd & Hn)| ->]; [|reflexivity].
    unfold parse_ip. rewrite Hn, read_ipv4_text by (done || lia). by rewrite bool_decide_eq_true_2.
Qed.

Lemma loopback_address_chars name : loopback_address name -> Forall address_char (bytes name).
Proof.
  intros [(b & c & d & Hb & Hc & Hd & ->)|Hp]; [apply v4_text_chars; lia|by eapply parse_ip_chars].
Qed.

Lemma address_char_not b : address_char b -> b <> 93 /\ b <> 91.
Proof.
  intros Hb. split; intros ->; destruct Hb as [[d Hd]|[|]]; try done; vm_compute in Hd; done.
Qed.

(** A name, a name with a port, or an address in brackets with or without one. *)
Definition digits (s : list Z) : Prop := Forall (fun b => is_ascii_digit b = true) s.
Definition loopback_authority (value : list Z) : Prop :=
  (exists name port, value = bytes name ++ port /\ (localhost name \/ loopback_address name)
     /\ ((port = [] /\ (58 ∉ bytes name)) \/ exists ds, port = 58 :: ds /\ ds <> [] /\ digits ds))
  \/ (exists name port, value = 91 :: bytes name ++ 93 :: port /\ loopback_address name
       /\ (port = [] \/ exists ds, port = 58 :: ds /\ digits ds)).

Lemma digits_forallb s : forallb is_ascii_digit s = true <-> digits s.
Proof. apply forallb_Forall. Qed.
Lemma digits_no_colon s : digits s -> (58 ∉ s).
Proof. intros Hs Hin. unfold digits in Hs. rewrite Forall_forall in Hs. by apply Hs in Hin. Qed.

Lemma split_once_some c s x y :
  split_once c s = Some (x, y) <-> bytes s = bytes x ++ c :: bytes y /\ (c ∉ bytes x).
Proof.
  unfold split_once. pose proof (bytes_range s) as Hr. split.
  - destruct (span_spec (Z.eqb c) (bytes s)) as (H1 & H2 & H3).
    destruct (span (Z.eqb c) (bytes s)) as [before [|b after]]; simpl in *; [done|]. intros [= <- <-].
    apply Z.eqb_eq in H3 as <-. rewrite <-H1 in Hr |- *. apply Forall_app in Hr as [Hr1 Hr2].
    apply Forall_cons in Hr2 as [_ Hr2]. rewrite !bytes_string_of by done. split; [done|].
    intros Hin. rewrite Forall_forall in H2. apply H2 in Hin. by rewrite Z.eqb_refl in Hin.
  - intros [Hs Hc]. rewrite Hs, span_app, !string_of_bytes_of; [done| |apply Z.eqb_refl].
    apply Forall_forall. intros b Hb. apply Z.eqb_neq. by intros ->.
Qed.

Lemma rsplit_once_some c s x y :
  rsplit_once c s = Some (x, y) <-> bytes s = bytes x ++ c :: bytes y /\ (c ∉ bytes y).
Proof.
  unfold rsplit_once. pose proof (bytes_range s) as Hr. split.
  - destruct (span_spec (Z.eqb c) (rev (bytes s))) as (H1 & H2 & H3).
    destruct (span (Z.eqb c) (rev (bytes s))) as [after [|b before]]; simpl in *; [done|]. intros [= <- <-].
    apply Z.eqb_eq in H3 as <-. apply (f_equal (@rev Z)) in H1. rewrite rev_involutive, rev_app_distr in H1.
    simpl in H1. rewrite <-app_assoc in H1. simpl in H1. rewrite <-H1 in Hr |- *.
    apply Forall_app in Hr as [Hr1 Hr2]. apply Forall_cons in Hr2 as [_ Hr2].
    rewrite !bytes_string_of by done. split; [done|].
    intros Hin%list_elem_of_In%in_rev%list_elem_of_In. rewrite Forall_forall in H2. apply H2 in Hin.
    by rewrite Z.eqb_refl in Hin.
  - intros [Hs Hc]. rewrite Hs, rev_app_distr. simpl. rewrite <-app_assoc. simpl.
    rewrite span_app, !rev_involutive, !string_of_bytes_of; [done| |apply Z.eqb_refl].
    apply Forall_forall. intros b Hb%list_elem_of_In%in_rev%list_elem_of_In. apply Z.eqb_neq. by intros ->.
Qed.

Lemma rsplit_once_none c s : rsplit_once c s = None <-> (c ∉ bytes s).
Proof.
  split.
  - intros Hn Hin. apply list_elem_of_split in Hin as (l1 & l2 & Hs).
    unfold rsplit_once in Hn. destruct (span_spec (Z.eqb c) (rev (bytes s))) as (H1 & H2 & _).
    destruct (span (Z.eqb c) (rev (bytes s))) as [after [|]]; [|done]. simpl in *. rewrite app_nil_r in H1. subst after.
    rewrite Forall_forall in H2. assert (c ∈ rev (bytes s)) as Hc%H2.
    { apply list_elem_of_In. rewrite <-in_rev, Hs. apply in_or_app. right. by left. }
    by rewrite Z.eqb_refl in Hc.
  - intros Hc. destruct (rsplit_once c s) as [[x y]|] eqn:Hs; [|done].
    apply rsplit_once_some in Hs as [Hs _]. destruct Hc. rewrite Hs. apply elem_of_app. right. left.
Qed.

Lemma localhost_iff name : eq_ignore_ascii_case name "localhost" = true <-> localhost name.
Proof. unfold eq_ignore_ascii_case, localhost. by rewrite bool_decide_eq_true. Qed.

Lemma localhost_first name : localhost name -> exists c s, name = String c s /\ byte_val c <> 91 /\ (58 ∉ bytes name).
Proof.
  unfold localhost. intros Hn. destruct name as [|c s]; [done|]. exists c, s. split; [done|]. split.
  - intros Hc. simpl in Hn. rewrite Hc in Hn. done.
  - intros Hin. assert (ascii_lower 58 ∈ map ascii_lower (bytes (String c s))) as Hm.
    { apply list_elem_of_In, in_map, list_elem_of_In, Hin. }
    rewrite Hn in Hm. revert Hm. apply (bool_decide_eq_true_1 (ascii_lower 58 ∉ bytes "localhost")). reflexivity.
Qed.

Lemma loopback_first name : loopback_address name -> exists c s, name = String c s /\ byte_val c <> 91.
Proof.
  intros Hn. pose proof (loopback_address_chars name Hn) as Hc. destruct name as [|c s].
  - destruct Hn as [(b & c & d & _ & _ & _ & Hn)|Hp]; [|done]. by destruct (decimal 127).
  - exists c, s. split; [done|]. apply Forall_cons in Hc as [Hc _]. by apply address_char_not in Hc as [_ Hc].
Qed.

Lemma host_header_accepts (value : string) :
  host_header_is_loopback value = true <-> loopback_authority (bytes (str_trim value)).
Proof.
  unfold host_header_is_loopback. generalize (str_trim value). clear value.
  intros value. split.
  - destruct value as [|c rest]; [done|]. destruct (Z.eqb_spec (byte_val c) 91) as [Hc|Hc].
    + destruct (split_once 93 rest) as [[inside tail]|] eqn:Hs; [|done].
      apply split_once_some in Hs as [Hs _]. destruct (match bytes tail with [] => _ | _ => _ end) eqn:Ht; [done|].
      intros Hn%loopback_address_iff. right. exists inside, (bytes tail). simpl. rewrite Hc, Hs. split_and!; [done|done|].
      destruct (bytes tail) as [|b ds]; [by left|right]. apply negb_false_iff, andb_true_iff in Ht as [->%Z.eqb_eq Ht].
      exists ds. split; [done|]. by apply digits_forallb.
    + destruct (rsplit_once 58 (String c rest)) as [[name port]|] eqn:Hs.
      * apply rsplit_once_some in Hs as [Hs _]. destruct (is_empty port) eqn:He; [done|]. simpl orb.
        destruct (forallb is_ascii_digit (bytes port)) eqn:Hd; [|done]. simpl negb. cbv iota. intros Hn.
        left. exists name, (58 :: bytes port). split; [done|]. split.
        -- apply orb_true_iff in Hn as [?|?]; [left; by apply localhost_iff|right; by apply loopback_address_iff].
        -- right. exists (bytes port). split_and!; [done|by destruct port|by apply digits_forallb].
      * apply rsplit_once_none in Hs. intros Hn. left. exists (String c rest), []. rewrite app_nil_r. split; [done|].
        split; [|by left]. apply orb_true_iff in Hn as [?|?]; [left; by apply localhost_iff|right; by apply loopback_address_iff].
  - intros [(name & port & Hv & Hn & Hp)|(name & port & Hv & Hn & Hp)].
    + assert (exists c s, name = String c s /\ byte_val c <> 91) as (c & s & -> & Hc).
      { destruct Hn as [Hn|Hn]; [|by apply loopback_first]. apply localhost_first in Hn as (c & s & -> & ? & _). eauto. }
      destruct value as [|c' rest]; [done|]. pose proof Hv as Hv'. injection Hv' as Hc' _.
      destruct (Z.eqb_spec (byte_val c') 91) as [|_]; [congruence|].
      assert (eq_ignore_ascii_case (String c s) "localhost" || names_loopback_address (String c s) = true) as Hok.
      { apply orb_true_iff. destruct Hn as [Hn|Hn]; [left; by apply localhost_iff|right; by apply loopback_address_iff]. }
      destruct Hp as [[-> Hnc]|(ds & -> & Hne & Hd)].
      * rewrite app_nil_r in Hv. rewrite (bytes_inj _ _ Hv) in *.
        by rewrite (proj2 (rsplit_once_none 58 (String c s)) Hnc).
      * assert (bytes (string_of_bytes ds) = ds) as Hds.
        { apply bytes_string_of. eapply Forall_impl; [exact Hd|]. intros b Hb. unfold is_ascii_digit in Hb. bools. lia. }
        assert (rsplit_once 58 (String c' rest) = Some (String c s, string_of_bytes ds)) as ->.
        { apply rsplit_once_some. rewrite Hds. split; [done|by apply digits_no_colon]. }
        rewrite Hds, (proj2 (digits_forallb ds) Hd). by destruct ds.
    + destruct value as [|c' rest]; [done|]. injection Hv as Hc' Hrest. rewrite Hc'. simpl Z.eqb. cbv iota.
      assert (forall x, digits x \/ (exists ds, x = 58 :: ds /\ digits ds) -> bytes (string_of_bytes x) = x) as Hb.
      { intros x Hx. apply bytes_string_of. assert (forall l, digits l -> Forall (fun b => 0 <= b < 256) l) as Hl.
        { intros l Hl. eapply Forall_impl; [exact Hl|]. intros b Hb. unfold is_ascii_digit in Hb. bools. lia. }
        destruct Hx as [Hx|(ds & -> & Hx)]; [by apply Hl|]. constructor; [lia|by apply Hl]. }
      assert (bytes (string_of_bytes port) = port) as Hport.
      { apply Hb. destruct Hp as [->|(ds & -> & Hd)]; [left; constructor|right; eauto]. }
      assert (split_once 93 rest = Some (name, string_of_bytes port)) as ->.
      { apply split_once_some. rewrite Hport. split; [done|]. intros Hin.
        pose proof (loopback_address_chars name Hn) as Hch. rewrite Forall_forall in Hch.
        by apply Hch, address_char_not in Hin as [? _]. }
      rewrite Hport, (proj2 (loopback_address_iff name) Hn).
      destruct Hp as [->|(ds & -> & Hd)]; [done|]. by rewrite (proj2 (digits_forallb ds) Hd).
Qed.

(** ** The deadline *)

(** A byte at a time. *)
Lemma read_until_trickle n w b limit : forall acc now,
  b <> 10 -> (n < limit)%nat ->
  read_until_go 10 limit acc now (replicate n (w, Bytes [b]))
  = (Ok (acc ++ replicate n b), mkReader (now + Z.of_nat n * w) []).
Proof.
  revert limit. induction n as [|n IH]; intros limit acc now Hb Hn.
  - destruct limit; [lia|]. simpl. rewrite app_nil_r. do 2 f_equal. lia.
  - destruct limit as [|limit]; [lia|]. simpl replicate. cbn [read_until_go]. cbv zeta. simpl take.
    cbn [through]. rewrite (proj2 (Z.eqb_neq _ _) Hb), take_nil. simpl through. cbn [option_map].
    cbn [length Nat.leb]. simpl (S limit - 1)%nat. rewrite Nat.sub_0_r, IH by (done || lia).
    rewrite <-app_assoc. do 2 f_equal. rewrite Nat2Z.inj_succ. lia.
Qed.

(** The deadline is checked once per line of the head: a peer that sends one byte
    in nine seconds and no line break is read for as long as it likes, up to the
    limit on the head. *)
Lemma slow_head_outlives_the_deadline (n : nat) :
  (0 < n)%nat -> Z.of_nat n <= MAX_HTTP_HEAD_BYTES ->
  exists outcome r', read_request (mkReader 0 (replicate n (9000, Bytes [65]))) 10000 = Some (outcome, r')
    /\ clock r' = 9000 * Z.of_nat n.
Proof.
  intros Hn Hmax. unfold read_request. cbn [read_head]. simpl clock. change (10000 <=? 0) with false. cbv iota.
  unfold read_until. simpl clock. simpl inputs.
  rewrite read_until_trickle by (done || (unfold usize_saturating_sub; lia)).
  rewrite app_nil_l. rewrite bool_decide_eq_false_2 by (destruct n; [lia|done]).
  rewrite length_replicate, (proj2 (Z.ltb_ge _ _)) by lia.
  rewrite bool_decide_eq_false_2.
  - simpl. eexists _, _. split; [done|]. simpl. lia.
  - intros Hl%last_Some_elem_of. by apply elem_of_replicate in Hl as [? _].
Qed.

(** ** Properties *)


(** C30: A supported request is read back, however its bytes arrive.  When a source
    delivers the head and the body a client wrote before the deadline, cut into any
    pieces and with interruptions, [read_request] returns the request: the method in
    upper case, the target without query and fragment, the header names in lower
    case with their values, and the body; whatever follows is left unread. *)
Theorem requests_are_read_back (deadline : Z) (r : Reader) (method target : string)
    (headers : list (string * string)) (body rest : list Z)
    (Hsup : supported method target headers body)
    (Hprompt : prompt deadline r) (Hdata : data r = request_head method target headers ++ body ++ rest) :
  exists r', read_request r deadline
    = Some (Request (mkRequest (to_ascii_uppercase method) (first_part is_target_end target)
                       (map lowered headers) body), r')
    /\ data r' = rest.
Proof.
  pose proof Hsup as [[Hm Hm0] [Ht Ht0] Hh Hc Hl _ _ _]. unfold read_request.
  set (ls := request_line method target :: map header_line headers) in *.
  destruct (read_head_lines deadline ls (S (left_over r)) 0 [] r (body ++ rest) Hprompt) as (r1 & -> & Hp1 & Hd1).
  - rewrite Hdata. unfold request_head. by rewrite <-app_assoc.
  - constructor.
    + split; [|by destruct method]. unfold request_line. apply printable_app. split; [by apply graphic_printable|].
      constructor; [lia|]. apply printable_app. split; [by apply graphic_printable|]. by repeat constructor.
    + apply Forall_map. eapply Forall_impl; [exact Hh|]. intros h. apply header_line_ok.
  - lia.
  - exact Hl.
  - subst ls. simpl. rewrite length_map. unfold MAX_HTTP_HEADERS in Hc. lia.
  - unfold left_over. rewrite Hdata, length_app. unfold request_head. fold ls. rewrite length_app.
    pose proof (wire_lines_length ls). lia.
  - rewrite app_nil_l. subst ls. rewrite (parse_head_supported _ _ _ body) by done.
    destruct (read_body_all (S (left_over r1)) deadline (Z.of_nat (length body)) [] r1 body rest Hp1 Hd1)
      as (r2 & -> & Hd2); [done|lia|]. eauto.
Qed.

(** C35: Reading a request is bounded, whatever the peer sends or however it fails: it
    returns, takes at most 8 KiB and one byte for the head and the announced length
    for the body, and answers a request of at most 64 headers and 256 KiB, one of
    six statuses, or nothing. *)
Theorem reading_is_bounded (r : Reader) (deadline : Z) :
  exists outcome r', read_request r deadline = Some (outcome, r')
    /\ Z.of_nat (length (data r))
       <= Z.of_nat (length (data r')) + MAX_HTTP_HEAD_BYTES + 1
          + match outcome with Request rq => Z.of_nat (length (rq_body rq)) | _ => MAX_REQUEST_BYTES end
    /\ match outcome with
       | Request rq => Z.of_nat (length (rq_headers rq)) <= MAX_HTTP_HEADERS
                       /\ Z.of_nat (length (rq_body rq)) <= MAX_REQUEST_BYTES
       | o => refused o
       end.
Proof.
  unfold read_request.
  destruct (read_head_bounds (S (left_over r)) deadline 0 [] r) as (res & r1 & -> & Hlo & Hd & Hres);
    [lia|unfold MAX_HTTP_HEAD_BYTES; lia|simpl; lia|].
  assert (0 <= MAX_REQUEST_BYTES) as Hpos by (unfold MAX_REQUEST_BYTES; lia).
  destruct res as [ls|o].
  2:{ eexists _, _. split; [done|]. destruct o; [done| |]; split; [lia|done|lia|done]. }
  pose proof (parse_head_bounds ls Hres) as Hp. destruct (parse_head ls) as [[[[m t] hs] len]|o].
  2:{ eexists _, _. split; [done|]. destruct o; [done| |]; split; [lia|done|lia|done]. }
  destruct Hp as [Hhs Hlen].
  destruct (read_body_bounds (S (left_over r1)) deadline len [] r1) as (res & r2 & -> & Hd2 & Hres2); [lia|simpl; lia|].
  simpl in Hd2. destruct res as [body|o].
  - eexists _, _. split; [done|]. simpl. split; [lia|]. lia.
  - eexists _, _. split; [done|]. destruct o; [done| |]; split; [lia|done|lia|done].
Qed.
End HttpProps.
