(* ===== verification/McpSessions.v ===== *)
(** * The HTTP endpoint of the MCP server (src/src/mcp_host/http/session.rs, mod.rs and gate.rs)

    Sessions with their capacity and idle time, the answer to one request, the
    admission of connections and the address a listener may bind.  A server of a
    session is shared by reference: a session is a number and the servers are a
    heap.  Times are milliseconds. *)
From stdpp Require Import base list gmap strings.
From Stdlib Require Import ZArith Lia.
From S2P Require Import Prelude RustStr StdText StdIo StdNet Framing McpRpc McpServer McpHttp.

Open Scope Z_scope.
Open Scope rust_scope.

Module Endpoint.
Import Rpc RpcMessages Mcp Http.

(** ** limits.rs *)
Definition MAX_CONCURRENT_REQUESTS : Z := 8.
Definition MAX_REQUESTS_PER_WINDOW : Z := 120.
Definition RATE_LIMIT_WINDOW : Z := 60000.
Definition HTTP_READ_TIMEOUT : Z := 10000.
Definition HTTP_WRITE_TIMEOUT : Z := 10000.
Definition MAX_HTTP_SESSIONS : Z := 16.
Definition HTTP_SESSION_IDLE_TIMEOUT : Z := 300000.
Definition DEFAULT_HTTP_PORT : Z := 8787.

(** ** session.rs *)
Record Entry := mkEntry { e_server : nat; last_seen : Z }.
Record SessionTable := mkTable { entries : gmap string Entry; capacity : Z; idle_timeout : Z }.

Definition table_new (capacity idle_timeout : Z) : SessionTable := mkTable ∅ capacity idle_timeout.
Definition set_entries (t : SessionTable) (m : gmap string Entry) : SessionTable :=
  mkTable m (capacity t) (idle_timeout t).

(** [checked_duration_since] is [None] for an instant in the future. *)
Definition still_live (idle_timeout now : Z) (e : Entry) : bool :=
  if last_seen e <=? now then now - last_seen e <? idle_timeout else true.
Definition sweep (m : gmap string Entry) (now idle_timeout : Z) : gmap string Entry :=
  filter (fun p => still_live idle_timeout now (snd p) = true) m.

(** [create_at]: [id] is the new UUID and [server] the new server. *)
Definition create_at (t : SessionTable) (now : Z) (id : string) (server : nat) : option (string * nat) * SessionTable :=
  let m := sweep (entries t) now (idle_timeout t) in
  if capacity t <=? Z.of_nat (size m) then (None, set_entries t m)
  else (Some (id, server), set_entries t (<[id := mkEntry server now]> m)).

Definition get_at (t : SessionTable) (id : string) (now : Z) : option nat * SessionTable :=
  let m := sweep (entries t) now (idle_timeout t) in
  match m !! id with
  | None => (None, set_entries t m)
  | Some e => (Some (e_server e), set_entries t (<[id := mkEntry (e_server e) now]> m))
  end.

Definition remove (t : SessionTable) (id : string) : bool * SessionTable :=
  (bool_decide (is_Some (entries t !! id)), set_entries t (delete id (entries t))).

(** ** gate.rs: the rate limiter *)
Record RateLimiter := mkLimiter { started_at : Z; used : Z; budget : Z; window : Z }.

Definition limiter_new (now budget window : Z) : RateLimiter := mkLimiter now 0 budget window.

(** [duration_since] is zero for an instant in the future. *)
Definition try_admit_at (l : RateLimiter) (now : Z) : bool * RateLimiter :=
  let l := if window l <=? Z.max 0 (now - started_at l) then mkLimiter now 0 (budget l) (window l) else l in
  if budget l <=? used l then (false, l)
  else (true, mkLimiter (started_at l) (used l + 1) (budget l) (window l)).

(** ** gate.rs: the concurrency gate

    A thread in [try_acquire] has read the count it compares with; the holder of a
    permit may drop it.  [in_flight] is shared. *)
Inductive GateThread := Outside | Loaded (current : Z) | Holding | Turned.
Record GateState := mkGate { in_flight : Z; gate_threads : list GateThread }.

Inductive gate_step (cap : Z) : GateState -> GateState -> Prop :=
| gate_load n ts i :
    ts !! i = Some Outside \/ ts !! i = Some Turned ->
    gate_step cap (mkGate n ts) (mkGate n (<[i := Loaded n]> ts))
| gate_refuse n ts i current :
    ts !! i = Some (Loaded current) -> cap <= current ->
    gate_step cap (mkGate n ts) (mkGate n (<[i := Turned]> ts))
| gate_exchange n ts i current :
    ts !! i = Some (Loaded current) -> current < cap -> n = current ->
    gate_step cap (mkGate n ts) (mkGate (current + 1) (<[i := Holding]> ts))
(** The weak exchange may also fail when the count is the expected one. *)
| gate_retry n ts i current :
    ts !! i = Some (Loaded current) -> current < cap ->
    gate_step cap (mkGate n ts) (mkGate n (<[i := Loaded n]> ts))
| gate_drop n ts i :
    ts !! i = Some Holding ->
    gate_step cap (mkGate n ts) (mkGate (n - 1) (<[i := Outside]> ts)).

(** ** mod.rs *)
Definition ENDPOINT_PATH : string := "/mcp".
Definition SESSION_HEADER : string := "Mcp-Session-Id".

(** [loopback_bind_addr]: the address and port, or the refusal. *)
Definition loopback_bind_addr (host : string) (port : Z) : option (IpAddr * Z) :=
  let raw := str_trim host in
  let candidate :=
    match bytes raw with
    | 91 :: rest => match rev rest with
                    | 93 :: inside => string_of_bytes (rev inside)
                    | _ => raw
                    end
    | _ => raw
    end in
  if eq_ignore_ascii_case candidate "localhost" then Some (V4 127 0 0 1, port)
  else match parse_ip candidate with
       | None => None
       | Some address => if negb (is_loopback address) then None else Some (address, port)
       end.

Record HttpResponse := mkResponse { rs_status : Z; rs_headers : list (string * string); rs_body : list Z }.

Section Endpoint.
Context `{JsonText} `{Urls}.
(** The version of the build, the fate of workers per server, the text of the n-th
    new UUID, and the server every session starts with. *)
Context (VERSION : string) (worker : nat -> nat -> Worker) (uuid : nat -> string) (new_server : Server).

Definition rpc_error (status code : Z) (message : string) : HttpResponse :=
  mkResponse status []
    (match to_string (error None code message) with Some text => bytes text | None => bytes "{}" end).

Definition from_http_error (e : HttpError) : HttpResponse :=
  rpc_error (he_status e) (if he_status e =? 413 then REQUEST_TOO_LARGE else INVALID_REQUEST) (he_message e).

Definition response_of (rs : HttpResponse) : list Z :=
  Http.response_bytes (rs_status rs) (rs_headers rs) (rs_body rs).

(** The sessions, the servers they refer to, and how many of either were made. *)
Record World := mkWorld { table : SessionTable; servers : gmap nat Session; made : nat }.

Definition set_table (w : World) (t : SessionTable) : World := mkWorld t (servers w) (made w).
(** A new server of a request, in the table or not. *)
Definition allocate (w : World) : nat * World :=
  (made w, mkWorld (table w) (<[made w := mkSession new_server 0 []]> (servers w)) (S (made w))).

(** Where a request goes: an answer at once, or a server and the session minted. *)
Definition post_session (w : World) (now : Z) (method supplied : option string)
    : result HttpResponse (nat * option string) * World :=
  if bool_decide (method = Some "initialize")
  then
    match create_at (table w) now (uuid (made w)) (made w) with
    | (Some (id, server), t) => let '(_, w) := allocate w in (Ok (server, Some id), set_table w t)
    | (None, t) =>
        (Err (rpc_error 503 INVALID_REQUEST
           ("no free MCP session slots (cap " +:+ decimal (capacity t) +:+ "); release one with DELETE "
            +:+ ENDPOINT_PATH)), set_table w t)
    end
  else
    match supplied with
    | Some id =>
        match get_at (table w) id now with
        | (Some server, t) => (Ok (server, None), set_table w t)
        | (None, t) =>
            (Err (rpc_error 404 INVALID_REQUEST
               "unknown or expired Mcp-Session-Id — send `initialize` again"), set_table w t)
        end
    | None =>
        match method with
        | None => let '(server, w) := allocate w in (Ok (server, None), w)
        | Some _ =>
            (Err (rpc_error 400 INVALID_REQUEST
               ("missing " +:+ SESSION_HEADER +:+ " — POST `initialize` first and echo the "
                +:+ SESSION_HEADER +:+ " it returns")), w)
        end
    end.

(** The dispatch under the lock of the server; [None] is the panic of
    [encode_frame]. *)
Definition post_dispatch (w : World) (server : nat) (minted : option string) (body : list Z)
    : option HttpResponse * World :=
  match servers w !! server with
  | None => (None, w)
  | Some s =>
      let '(dispatched, s) := handle_frame VERSION (worker server) s body in
      let headers := match minted with Some id => [(SESSION_HEADER, id)] | None => [] end in
      let w := mkWorld (table w) (<[server := s]> (servers w)) (made w) in
      match dispatched with
      | None => (Some (mkResponse 202 headers []), w)
      | Some response =>
          match encode_frame (Mcp.server s) response with
          | Some line => (Some (mkResponse 200 headers line), w)
          | None => (None, w)
          end
      end
  end.

Definition is_semicolon (b : Z) : bool := b =? 59.

Definition post (w : World) (now : Z) (rq : HttpRequest) : option HttpResponse * World :=
  let content_type := default EmptyString (header rq "content-type") in
  if negb (eq_ignore_ascii_case (str_trim (first_part is_semicolon content_type)) "application/json")
  then (Some (rpc_error 415 INVALID_REQUEST "Content-Type must be application/json"), w)
  else if bool_decide (rq_body rq = [])
  then (Some (rpc_error 400 INVALID_REQUEST "empty request body"), w)
  else if MAX_REQUEST_BYTES <? Z.of_nat (length (rq_body rq))
  then (Some (rpc_error 413 REQUEST_TOO_LARGE
          ("request body exceeds " +:+ decimal MAX_REQUEST_BYTES +:+ " bytes")), w)
  else
    let method := match peek (rq_body rq) with Some method => method | None => None end in
    match post_session w now method (header rq "mcp-session-id") with
    | (Err response, w) => (Some response, w)
    | (Ok (server, minted), w) => post_dispatch w server minted (rq_body rq)
    end.

Definition respond (w : World) (now : Z) (rq : HttpRequest) : option HttpResponse * World :=
  match check (header rq "host") (header rq "origin") with
  | Err rejection => (Some (rpc_error 403 INVALID_REQUEST (rejection_message rejection)), w)
  | Ok _ =>
      if negb (bool_decide (rq_path rq = ENDPOINT_PATH)) && negb (bool_decide (rq_path rq = "/"))
      then (Some (rpc_error 404 INVALID_REQUEST
              ("unknown path `" +:+ rq_path rq +:+ "` — the MCP endpoint is " +:+ ENDPOINT_PATH)), w)
      else if bool_decide (rq_method rq = "POST") then post w now rq
      else if bool_decide (rq_method rq = "DELETE")
      then
        match header rq "mcp-session-id" with
        | Some id =>
            match remove (table w) id with
            | (true, t) => (Some (mkResponse 204 [] []), set_table w t)
            | (false, t) =>
                (Some (rpc_error 404 INVALID_REQUEST "unknown or already-released Mcp-Session-Id"), set_table w t)
            end
        | None => (Some (rpc_error 404 INVALID_REQUEST "unknown or already-released Mcp-Session-Id"), w)
        end
      else if bool_decide (rq_method rq = "GET")
      then (Some (rpc_error 405 INVALID_REQUEST
              ("GET is not supported: this transport implements POST only. Server-Sent Events "
               +:+ "streaming and resumability are not implemented.")), w)
      else (Some (rpc_error 405 INVALID_REQUEST
              ("method `" +:+ rq_method rq +:+ "` is not supported — use POST " +:+ ENDPOINT_PATH)), w)
  end.

(** [serve_connection] up to the write: the bytes of the answer, if the peer gets one. *)
Definition serve_connection (w : World) (read_timeout : Z) (r : Reader) (now : Z) : option (option (list Z)) * World :=
  match read_request r (clock r + read_timeout) with
  | None => (None, w)
  | Some (Disconnected, _) => (Some None, w)
  | Some (Rejected e, _) => (Some (Some (response_of (from_http_error e))), w)
  | Some (Request rq, _) =>
      match respond w now rq with
      | (Some rs, w) => (Some (Some (response_of rs)), w)
      | (None, w) => (None, w)
      end
  end.

(** [accept_loop]: what admission control does with one connection. *)
Inductive Admission := Refused (bytes : list Z) | LetIn.
Definition admit_connection (l : RateLimiter) (now : Z) (permit : bool) (cap : Z) : Admission * RateLimiter :=
  match try_admit_at l now with
  | (false, l) =>
      (Refused (response_of (rpc_error 429 INVALID_REQUEST
         ("rate limit exceeded: at most " +:+ decimal (budget l) +:+ " requests per "
          +:+ decimal (window l / 1000) +:+ " s"))), l)
  | (true, l) =>
      if permit then (LetIn, l)
      else (Refused (response_of (rpc_error 503 INVALID_REQUEST
              ("server is at its concurrency cap of " +:+ decimal cap +:+ " in-flight requests"))), l)
  end.

End Endpoint.
End Endpoint.
