(* ===== verification/McpSessionProps.v ===== *)
(** * Properties of the MCP endpoint

    The session table against lazy expiry, the rate limiter, the concurrency gate,
    and the endpoint against the transport over lines. *)
From stdpp Require Import base list gmap strings.
From Stdlib Require Import ZArith Lia.
From S2P Require Import Prelude RustStr StdText StdIo StdNet Framing McpRpc McpServer McpProps McpHttp McpHttpProps McpSessions.

Open Scope Z_scope.
Open Scope rust_scope.

Module EndpointProps.
Import Rpc RpcMessages Mcp McpProps McpStdio Http HttpProps Endpoint.

(** ** Sessions *)

(** One call on the table. *)
Inductive TableOp := Create (id : string) (server : nat) | Get (id : string) | Remove (id : string).
Inductive TableResult := Created (r : option (string * nat)) | Found (r : option nat) | Removed (r : bool).

Definition call (t : SessionTable) (now : Z) (op : TableOp) : TableResult * SessionTable :=
  match op with
  | Create id server => let '(r, t) := create_at t now id server in (Created r, t)
  | Get id => let '(r, t) := get_at t id now in (Found r, t)
  | Remove id => let '(r, t) := remove t id in (Removed r, t)
  end.

(** The promise: a session lives from its creation or last use for the idle time,
    unless it is removed.  Nothing is swept; the time decides at each call. *)
Definition living (m : gmap string Entry) (now idle : Z) : gmap string Entry :=
  filter (fun p => now - last_seen (snd p) < idle) m.

(** What a call may answer, and the sessions after it.  Whether a session that has
    expired is still there to be removed is left open. *)
Definition promised (cap idle : Z) (m : gmap string Entry) (now : Z) (op : TableOp) (r : TableResult)
    (m' : gmap string Entry) : Prop :=
  match op with
  | Create id server =>
      if Z.of_nat (size (living m now idle)) <? cap
      then r = Created (Some (id, server)) /\ m' = <[id := mkEntry server now]> m
      else r = Created None /\ m' = m
  | Get id =>
      match living m now idle !! id with
      | Some e => r = Found (Some (e_server e)) /\ m' = <[id := mkEntry (e_server e) now]> m
      | None => r = Found None /\ m' = m
      end
  | Remove id =>
      m' = delete id m
      /\ match living m now idle !! id, m !! id with
         | Some _, _ => r = Removed true
         | None, None => r = Removed false
         | None, Some _ => exists b, r = Removed b
         end
  end.

(** The table shows the promise at [now]: it has every session that lives, and
    nothing that was not promised. *)
Definition shows (t : SessionTable) (m : gmap string Entry) (now idle : Z) : Prop :=
  entries t ⊆ m /\ forall id e, m !! id = Some e -> now - last_seen e < idle -> entries t !! id = Some e.

Lemma sweep_living (t : SessionTable) m now idle :
  shows t m now idle -> (forall id e, m !! id = Some e -> last_seen e <= now) ->
  sweep (entries t) now idle = living m now idle.
Proof.
  intros [Hsub Hall] Hpast. apply map_eq. intros id. apply option_eq. intros e.
  unfold sweep, living. rewrite !map_lookup_filter_Some. simpl. unfold still_live. split.
  - intros [He Hl]. pose proof (lookup_weaken _ _ _ _ He Hsub) as Hm. split; [done|].
    rewrite (proj2 (Z.leb_le _ _)) in Hl by (by eapply Hpast). by apply Z.ltb_lt.
  - intros [He Hl]. split; [by apply Hall|].
    rewrite (proj2 (Z.leb_le _ _)) by (by eapply Hpast). by apply Z.ltb_lt.
Qed.

Lemma shows_living t m now idle :
  (forall id e, m !! id = Some e -> last_seen e <= now) ->
  shows (set_entries t (living m now idle)) m now idle.
Proof.
  intros _. split; simpl.
  - unfold living. apply map_filter_subseteq.
  - intros id e He Hl. unfold living. rewrite map_lookup_filter_Some. done.
Qed.

Lemma shows_later t m now later idle : now <= later -> shows t m now idle -> shows t m later idle.
Proof. intros Hle [Hs Ha]. split; [done|]. intros id e He Hl. apply Ha; [done|lia]. Qed.

Lemma shows_insert t m now idle id e :
  shows t m now idle -> shows (set_entries t (<[id := e]> (entries t))) (<[id := e]> m) now idle.
Proof.
  intros [Hs Ha]. split; simpl; [by apply insert_mono|]. intros k x.
  destruct (decide (id = k)) as [->|Hk]; [by rewrite !lookup_insert_eq|]. rewrite !lookup_insert_ne by done. apply Ha.
Qed.

(** The times of a sequence of calls do not go back. *)
Fixpoint in_order (now : Z) (ops : list (Z * TableOp)) : Prop :=
  match ops with [] => True | (t, _) :: rest => now <= t /\ in_order t rest end.

Fixpoint table_run (t : SessionTable) (ops : list (Z * TableOp)) : list TableResult * SessionTable :=
  match ops with
  | [] => ([], t)
  | (now, op) :: rest =>
      let '(r, t) := call t now op in let '(rs, t) := table_run t rest in (r :: rs, t)
  end.
Fixpoint keeps_promise (cap idle : Z) (m : gmap string Entry) (ops : list (Z * TableOp)) (rs : list TableResult)
    : Prop :=
  match ops, rs with
  | [], [] => True
  | (now, op) :: ops, r :: rs =>
      exists m', promised cap idle m now op r m' /\ keeps_promise cap idle m' ops rs
  | _, _ => False
  end.

Definition past (m : gmap string Entry) (now : Z) : Prop := forall id e, m !! id = Some e -> last_seen e <= now.

Lemma past_insert m now id server : past m now -> past (<[id := mkEntry server now]> m) now.
Proof.
  intros Hp k e. destruct (decide (id = k)) as [->|Hk].
  - rewrite lookup_insert_eq. by intros [= <-].
  - rewrite lookup_insert_ne by done. apply Hp.
Qed.

Lemma call_promised t m now op :
  shows t m now (idle_timeout t) -> past m now -> Z.of_nat (size (entries t)) <= capacity t ->
  let '(r, t') := call t now op in
  exists m', promised (capacity t) (idle_timeout t) m now op r m'
    /\ shows t' m' now (idle_timeout t) /\ past m' now
    /\ Z.of_nat (size (entries t')) <= capacity t
    /\ capacity t' = capacity t /\ idle_timeout t' = idle_timeout t.
Proof.
  intros Hs Hp Hc. pose proof (sweep_living t m now (idle_timeout t) Hs Hp) as Hsw.
  pose proof (shows_living t m now (idle_timeout t) Hp) as Hl.
  assert (Z.of_nat (size (living m now (idle_timeout t))) <= capacity t) as Hlc.
  { rewrite <-Hsw. unfold sweep.
    pose proof (map_size_filter (fun p => still_live (idle_timeout t) now (snd p) = true) (entries t)). lia. }
  destruct op as [id server|id|id]; cbn [call promised].
  - unfold create_at. rewrite Hsw.
    destruct (Z.leb_spec (capacity t) (Z.of_nat (size (living m now (idle_timeout t))))) as [Hfull|Hroom].
    + rewrite (proj2 (Z.ltb_ge _ _)) by done. exists m. by split_and!.
    + rewrite (proj2 (Z.ltb_lt _ _)) by done. eexists. split; [done|]. split_and!; try done.
      * apply (shows_insert _ _ _ _ id (mkEntry server now)) in Hl. exact Hl.
      * by apply past_insert.
      * simpl. destruct (living m now (idle_timeout t) !! id) as [e|] eqn:He.
        -- rewrite map_size_insert_Some by (by eexists). lia.
        -- rewrite map_size_insert_None by done. lia.
  - unfold get_at. rewrite Hsw. destruct (living m now (idle_timeout t) !! id) as [e|] eqn:He.
    + eexists. split; [done|]. split_and!; try done.
      * apply (shows_insert _ _ _ _ id (mkEntry (e_server e) now)) in Hl. exact Hl.
      * by apply past_insert.
      * simpl. rewrite map_size_insert_Some by (by eexists). lia.
    + exists m. by split_and!.
  - unfold remove. eexists. split.
    { split; [done|]. unfold living. rewrite map_lookup_filter. destruct Hs as [Hsub Hall].
      destruct (m !! id) as [e|] eqn:He; simpl.
      - case_guard as Hlive; simpl; [|by eexists].
        rewrite (Hall id e He Hlive). by rewrite bool_decide_eq_true_2 by (by eexists).
      - rewrite bool_decide_eq_false_2; [done|]. intros [e Hx].
        pose proof (lookup_weaken _ _ _ _ Hx Hsub). congruence. }
    destruct Hs as [Hsub Hall]. split_and!; try done.
    + split; simpl; [by apply delete_mono|]. intros k e. rewrite !lookup_delete_Some. intros [? ?] ?.
      split; [done|]. by apply Hall.
    + intros k e. rewrite lookup_delete_Some. intros [_ ?]. by eapply Hp.
    + simpl. destruct (entries t !! id) as [e|] eqn:He.
      * rewrite map_size_delete_Some by (by eexists). lia.
      * rewrite map_size_delete_None by done. lia.
Qed.

Lemma run_promised t m now ops :
  shows t m now (idle_timeout t) -> past m now -> Z.of_nat (size (entries t)) <= capacity t -> in_order now ops ->
  let '(rs, t') := table_run t ops in
  keeps_promise (capacity t) (idle_timeout t) m ops rs /\ Z.of_nat (size (entries t')) <= capacity t.
Proof.
  revert t m now. induction ops as [|[later op] ops IH]; intros t m now Hs Hp Hc Hord; [done|].
  destruct Hord as [Hle Hord]. cbn [table_run]. apply (shows_later _ _ _ later) in Hs; [|done].
  assert (past m later) as Hp' by (intros id e He; specialize (Hp _ _ He); lia).
  pose proof (call_promised t m later op Hs Hp' Hc) as Hcall. destruct (call t later op) as [r t1].
  destruct Hcall as (m' & Hr & Hs' & Hp'' & Hc' & Hcap & Hidle). rewrite <-Hcap, <-Hidle in *.
  specialize (IH t1 m' later Hs' Hp'' Hc' Hord). destruct (table_run t1 ops) as [rs t2].
  destruct IH as [IH1 IH2]. split; [|done]. cbn [keeps_promise]. eauto.
Qed.

(** ** The rate limiter *)

Fixpoint limiter_run (l : RateLimiter) (times : list Z) : list bool * RateLimiter :=
  match times with
  | [] => ([], l)
  | now :: rest => let '(b, l) := try_admit_at l now in let '(bs, l) := limiter_run l rest in (b :: bs, l)
  end.
(** How many of the admitted requests fall into [from, from + len). *)
Definition admitted_within (from len : Z) (times : list Z) (admitted : list bool) : Z :=
  Z.of_nat (length (filter (fun p => (snd p = true) /\ from <= fst p < from + len) (zip times admitted))).

Fixpoint ascending (now : Z) (times : list Z) : Prop :=
  match times with [] => True | t :: rest => now <= t /\ ascending t rest end.

(** What may still be admitted into an interval of the length of a window. *)
Definition allowance (l : RateLimiter) (from now : Z) : Z :=
  if started_at l <? from then if now <? from then 2 * budget l else 2 * budget l - used l
  else if started_at l <? from + window l then budget l - used l
  else 0.

Definition limiter_ok (l : RateLimiter) (now : Z) : Prop :=
  started_at l <= now /\ 0 <= used l <= budget l /\ 0 <= window l.

Lemma admit_step l now t from :
  limiter_ok l now -> now <= t ->
  let '(b, l') := try_admit_at l t in
  limiter_ok l' t /\ budget l' = budget l /\ window l' = window l
  /\ allowance l' from t + (if (b : bool) && (from <=? t) && (t <? from + window l) then 1 else 0)
     <= allowance l from now.
Proof.
  intros (Hs & Hu & Hw) Ht. unfold try_admit_at.
  destruct (Z.leb_spec (window l) (Z.max 0 (t - started_at l))) as [Hnew|Hold]; simpl.
  - destruct (Z.leb_spec (budget l) 0); simpl; (split_and!; [unfold limiter_ok; simpl; lia|done|done|]);
      unfold allowance; simpl;
      repeat match goal with |- context [?a <? ?b] => destruct (Z.ltb_spec a b) end;
      repeat match goal with |- context [?a <=? ?b] => destruct (Z.leb_spec a b) end; simpl; lia.
  - destruct (Z.leb_spec (budget l) (used l)); simpl; (split_and!; [unfold limiter_ok; simpl; lia|done|done|]);
      unfold allowance; simpl;
      repeat match goal with |- context [?a <? ?b] => destruct (Z.ltb_spec a b) end;
      repeat match goal with |- context [?a <=? ?b] => destruct (Z.leb_spec a b) end; simpl; lia.
Qed.

Lemma admitted_allowance times l now from :
  limiter_ok l now -> ascending now times ->
  admitted_within from (window l) times (fst (limiter_run l times)) <= allowance l from now.
Proof.
  revert l now. induction times as [|t times IH]; intros l now Hl Ha.
  - unfold admitted_within, allowance. destruct Hl as (_ & ? & _). simpl.
    repeat match goal with |- context [?a <? ?b] => destruct (Z.ltb_spec a b) end; lia.
  - destruct Ha as [Ht Ha]. cbn [limiter_run].
    pose proof (admit_step l now t from Hl Ht) as Hstep. destruct (try_admit_at l t) as [b l'].
    destruct Hstep as (Hl' & _ & Hw & Hle). specialize (IH l' t Hl' Ha). rewrite Hw in IH.
    destruct (limiter_run l' times) as [bs l'']. simpl in *. unfold admitted_within in *. simpl.
    rewrite filter_cons. case_decide as Hin; simpl in *.
    + destruct Hin as (-> & H1 & H2). rewrite (proj2 (Z.leb_le _ _)), (proj2 (Z.ltb_lt _ _)) in Hle by done.
      simpl in Hle. lia.
    + destruct (_ && _); lia.
Qed.

(** ** The concurrency gate *)
Definition is_holding (t : GateThread) : bool := match t with Holding => true | _ => false end.
Definition holders (ts : list GateThread) : Z := Z.of_nat (length (filter (fun t => is_holding t = true) ts)).

Lemma holders_insert ts i t t' :
  ts !! i = Some t ->
  holders (<[i := t']> ts)
  = holders ts - (if is_holding t then 1 else 0) + (if is_holding t' then 1 else 0).
Proof.
  intros Hi. rewrite (insert_take_drop ts i t') by (by eapply lookup_lt_Some).
  rewrite <-(take_drop_middle ts i t Hi) at 3. unfold holders. rewrite !filter_app, !length_app, !filter_cons.
  destruct (is_holding t), (is_holding t'); repeat (case_decide; try done); simpl; lia.
Qed.

(** The states a gate passes through, from any number of threads outside. *)
Definition gate_reachable (cap : Z) (s : GateState) : Prop :=
  exists n, rtc (gate_step cap) (mkGate 0 (replicate n Outside)) s.

Lemma gate_invariant cap s :
  0 <= cap -> gate_reachable cap s -> in_flight s = holders (gate_threads s) /\ in_flight s <= cap.
Proof.
  intros Hcap [n Hs]. revert s Hs.
  apply (rtc_ind_r (fun s => in_flight s = holders (gate_threads s) /\ in_flight s <= cap)).
  - simpl. split; [|done]. unfold holders. induction n; [done|]. simpl replicate. rewrite filter_cons.
    case_decide; [done|]. exact IHn.
  - intros s1 s2 _ Hstep [IH1 IH2].
    destruct Hstep as [m ts i Hi|m ts i c Hi Hc|m ts i c Hi Hc ->|m ts i c Hi Hc|m ts i Hi]; simpl in *;
      try (rewrite (holders_insert _ _ _ _ Hi); simpl; lia).
    destruct Hi as [Hi|Hi]; rewrite (holders_insert _ _ _ _ Hi); simpl; lia.
Qed.

(** ** The endpoint *)
Section Connections.
Context `{JsonTextLaws} `{Urls}.
Context (VERSION : string) (worker : nat -> nat -> Worker) (uuid : nat -> string) (new_server : Server).

(** The requests that reach the session table. *)
Definition accepted (rq : HttpRequest) : Prop :=
  check (header rq "host") (header rq "origin") = Ok tt
  /\ (rq_path rq = ENDPOINT_PATH \/ rq_path rq = "/")
  /\ rq_method rq = "POST"
  /\ eq_ignore_ascii_case (str_trim (first_part is_semicolon (default EmptyString (header rq "content-type"))))
       "application/json" = true
  /\ rq_body rq <> [] /\ Z.of_nat (length (rq_body rq)) <= MAX_REQUEST_BYTES.

Definition method_of (body : list Z) : option string :=
  match peek body with Some method => method | None => None end.

Lemma respond_accepted w now rq :
  accepted rq ->
  respond VERSION worker uuid new_server w now rq
  = match post_session uuid new_server w now (method_of (rq_body rq)) (header rq "mcp-session-id") with
    | (Err response, w) => (Some response, w)
    | (Ok (server, minted), w) => post_dispatch VERSION worker w server minted (rq_body rq)
    end.
Proof.
  intros (Hc & Hp & Hm & Ht & Hb & Hl). unfold respond. rewrite Hc.
  assert (negb (bool_decide (rq_path rq = ENDPOINT_PATH)) && negb (bool_decide (rq_path rq = "/")) = false) as ->.
  { apply andb_false_iff. rewrite !negb_false_iff, !bool_decide_eq_true. tauto. }
  rewrite bool_decide_eq_true_2 by done. unfold post. rewrite Ht. simpl negb. cbv iota.
  rewrite bool_decide_eq_false_2 by done. by rewrite (proj2 (Z.ltb_ge _ _)).
Qed.

(** What a client addresses a frame to: a session identifier, the one the answer
    to its [initialize] carries or the one in its request, or nothing but the
    server made for that one request. *)
Inductive Address := Named (id : string) | Anonymous (request : nat).
#[local] Instance Address_eq_dec : EqDecision Address.
Proof. solve_decision. Defined.

Definition address_of (rq : HttpRequest) (minted : option string) (fresh : nat) : Address :=
  match minted with
  | Some id => Named id
  | None => match header rq "mcp-session-id" with Some id => Named id | None => Anonymous fresh end
  end.

(** A request between finding a server and its lock, and a frame that was
    dispatched, with its answer. *)
Record Pending := mkPending { pd_address : Address; pd_server : nat; pd_minted : option string; pd_body : list Z }.
Record Dispatch := mkDispatch {
  ds_address : Address; ds_minted : option string; ds_body : list Z; ds_answer : option HttpResponse }.

(** The world while connections are served: what the worker threads have between
    finding a server and its lock, and the frames dispatched so far. *)
Record Running := mkRunning { world : World; pending : list Pending; history : list Dispatch }.

(** One atomic section of one connection: a call on the table, which may find or
    mint a session, or the dispatch under the lock of its server. *)
Inductive endpoint_step : Running -> Running -> Prop :=
| step_session w w' ps h now rq n minted :
    accepted rq ->
    post_session uuid new_server w now (method_of (rq_body rq)) (header rq "mcp-session-id") = (Ok (n, minted), w') ->
    endpoint_step (mkRunning w ps h)
      (mkRunning w' (ps ++ [mkPending (address_of rq minted (made w)) n minted (rq_body rq)]) h)
| step_refused w w' ps h now rq response :
    accepted rq ->
    post_session uuid new_server w now (method_of (rq_body rq)) (header rq "mcp-session-id") = (Err response, w') ->
    endpoint_step (mkRunning w ps h) (mkRunning w' ps h)
| step_dispatch w w' ps1 ps2 h p response :
    post_dispatch VERSION worker w (pd_server p) (pd_minted p) (pd_body p) = (response, w') ->
    endpoint_step (mkRunning w (ps1 ++ p :: ps2) h)
      (mkRunning w' (ps1 ++ ps2) (h ++ [mkDispatch (pd_address p) (pd_minted p) (pd_body p) response]))
| step_remove w ps h id removed t :
    remove (table w) id = (removed, t) -> endpoint_step (mkRunning w ps h) (mkRunning (set_table w t) ps h).

(** The frames that were dispatched for an address, in the order of their dispatch. *)
Definition bodies (a : Address) (h : list Dispatch) : list (list Z) :=
  map ds_body (filter (fun d => ds_address d = a) h).

(** A request that is served alone takes these steps. *)
Lemma respond_steps w now rq ps response w' :
  respond VERSION worker uuid new_server w now rq = (response, w') ->
  forall h, exists h', rtc endpoint_step (mkRunning w ps h) (mkRunning w' ps h').
Proof.
  intros Hr h. unfold respond in Hr. assert (forall d, exists h', rtc endpoint_step (mkRunning d ps h) (mkRunning d ps h')) as Hnone by (by exists h).
  destruct (check _ _) as [[]|] eqn:Hc; [|by simplify_eq].
  destruct (negb _ && negb _) eqn:Hp; [by simplify_eq|].
  destruct (bool_decide_reflect (rq_method rq = "POST")) as [Hm|_].
  - unfold post in Hr. destruct (negb (eq_ignore_ascii_case _ _)) eqn:Ht; [by simplify_eq|].
    destruct (bool_decide_reflect (rq_body rq = [])) as [|Hb]; [by simplify_eq|].
    destruct (Z.ltb_spec MAX_REQUEST_BYTES (Z.of_nat (length (rq_body rq)))); [by simplify_eq|].
    assert (accepted rq) as Hok.
    { split_and!; try done.
      - apply andb_false_iff in Hp. rewrite !negb_false_iff, !bool_decide_eq_true in Hp. tauto.
      - by apply negb_false_iff in Ht. }
    destruct (post_session _ _ _ _ _ _) as [[[n minted]|e] w1] eqn:Hs.
    + set (p := mkPending (address_of rq minted (made w)) n minted (rq_body rq)).
      eexists. eapply rtc_l; [by eapply step_session|]. fold p. apply rtc_once. rewrite <-(app_nil_r ps) at 2.
      by apply step_dispatch.
    + simplify_eq. exists h. apply rtc_once. by eapply step_refused.
  - destruct (bool_decide (rq_method rq = "DELETE")).
    + destruct (header rq "mcp-session-id") as [id|]; [|by simplify_eq].
      destruct (remove (table w) id) as [[] t] eqn:Ht; simplify_eq; exists h; apply rtc_once; by eapply step_remove.
    + destruct (bool_decide (rq_method rq = "GET")); by simplify_eq.
Qed.

Definition session_new : Session := mkSession new_server 0 [].

(** The answer of server [n] to a frame, after it served others and nothing else. *)
Definition private_answer (n : nat) (minted : option string) (frames : list (list Z)) (body : list Z)
    : option HttpResponse :=
  let '(dispatched, s) := handle_frame VERSION (worker n) (after_frames VERSION (worker n) session_new frames) body in
  let headers := match minted with Some id => [(SESSION_HEADER, id)] | None => [] end in
  match dispatched with
  | None => Some (mkResponse 202 headers [])
  | Some response => mkResponse 200 headers <$> encode_frame (server s) response
  end.

(** The server an address stands for, as long as identifiers are unique. *)
Definition home (a : Address) (n : nat) : Prop :=
  match a with Named id => id = uuid n | Anonymous k => k = n end.

(** What holds between the sections, with the address each server was made for. *)
Record endpoint_ok (owner : nat -> Address) (r : Running) : Prop := {
  ep_history : forall n s, servers (world r) !! n = Some s ->
    s = after_frames VERSION (worker n) session_new (bodies (owner n) (history r));
  ep_made : forall n, (n < made (world r))%nat <-> is_Some (servers (world r) !! n);
  ep_home : forall n, (n < made (world r))%nat -> home (owner n) n;
  ep_pending : Forall (fun p => (pd_server p < made (world r))%nat /\ pd_address p = owner (pd_server p)) (pending r);
  ep_entries : forall id e, entries (table (world r)) !! id = Some e ->
    (e_server e < made (world r))%nat /\ owner (e_server e) = Named id;
  ep_addresses : Forall (fun d => exists n, (n < made (world r))%nat /\ ds_address d = owner n) (history r);
  ep_answers : forall h1 d h2, history r = h1 ++ d :: h2 -> exists n, home (ds_address d) n
    /\ ds_answer d = private_answer n (ds_minted d) (bodies (ds_address d) h1) (ds_body d);
}.

Lemma sweep_some m now idle id e : sweep m now idle !! id = Some e -> m !! id = Some e.
Proof. unfold sweep. rewrite map_lookup_filter_Some. by intros []. Qed.

Lemma post_dispatch_some w n minted body :
  is_Some (servers w !! n) -> is_Some (fst (post_dispatch VERSION worker w n minted body)).
Proof.
  intros [s Hs]. unfold post_dispatch. rewrite Hs. destruct (handle_frame _ _ s body) as [[response|] s']; [|done].
  destruct (encode_frame_some (server s') response) as [line ->]. done.
Qed.

Lemma post_dispatch_world w n minted body s :
  servers w !! n = Some s ->
  snd (post_dispatch VERSION worker w n minted body)
  = mkWorld (table w) (<[n := snd (handle_frame VERSION (worker n) s body)]> (servers w)) (made w).
Proof.
  intros Hs. unfold post_dispatch. rewrite Hs. destruct (handle_frame _ _ s body) as [[response|] s']; [|done].
  by destruct (encode_frame _ _).
Qed.

Lemma post_dispatch_answer w n minted body frames :
  servers w !! n = Some (after_frames VERSION (worker n) session_new frames) ->
  fst (post_dispatch VERSION worker w n minted body) = private_answer n minted frames body.
Proof.
  intros Hs. unfold post_dispatch, private_answer. rewrite Hs.
  destruct (handle_frame _ _ _ body) as [[response|] s']; [|done]. by destruct (encode_frame _ _).
Qed.

Lemma private_answer_some n minted frames body : is_Some (private_answer n minted frames body).
Proof.
  unfold private_answer. destruct (handle_frame _ _ _ body) as [[response|] s']; [|done].
  by destruct (encode_frame_some (server s') response) as [line ->].
Qed.

Lemma bodies_snoc a h d :
  bodies a (h ++ [d]) = bodies a h ++ (if decide (ds_address d = a) then [ds_body d] else []).
Proof. unfold bodies. rewrite filter_app, map_app. f_equal. rewrite filter_cons. by case_decide. Qed.

(** Calls that only forget sessions or mark them as used. *)
Lemma endpoint_ok_table o w ps h t :
  endpoint_ok o (mkRunning w ps h) ->
  (forall id e, entries t !! id = Some e ->
     exists e', entries (table w) !! id = Some e' /\ e_server e' = e_server e) ->
  endpoint_ok o (mkRunning (set_table w t) ps h).
Proof.
  intros [] Ht. split; simpl in *; try done. intros id e (e' & He' & <-)%Ht. by eapply ep_entries0.
Qed.

Lemma endpoint_ok_pending o w ps h p :
  endpoint_ok o (mkRunning w ps h) -> (pd_server p < made w)%nat -> pd_address p = o (pd_server p) ->
  endpoint_ok o (mkRunning w (ps ++ [p]) h).
Proof. intros [] Hn Ha. split; simpl in *; try done. apply Forall_app. split; [done|]. by constructor. Qed.

Hypothesis Hunique : forall i j, uuid i = uuid j -> i = j.

Lemma home_unique a n m : home a n -> home a m -> n = m.
Proof. destruct a; simpl; [|congruence]. intros -> Heq. by apply Hunique. Qed.

(** A new server belongs to an address nothing was sent to. *)
Definition owned (o : nat -> Address) (n : nat) (a : Address) (m : nat) : Address :=
  if decide (m = n) then a else o m.

Lemma fresh_bodies o r a :
  endpoint_ok o r -> home a (made (world r)) -> bodies a (history r) = [].
Proof.
  intros [] Ha. unfold bodies. clear ep_answers0 ep_history0.
  induction ep_addresses0 as [|d l (n & Hn & Hd) _ IH]; [done|]. rewrite filter_cons. case_decide as Heq; [exfalso|done].
  assert (n = made (world r)); [|lia]. apply (home_unique a); [|done]. rewrite <-Heq, Hd. by apply ep_home0.
Qed.

Lemma endpoint_ok_allocate o w ps h a :
  endpoint_ok o (mkRunning w ps h) -> home a (made w) ->
  endpoint_ok (owned o (made w) a) (mkRunning (snd (allocate new_server w)) ps h).
Proof.
  intros Hok Ha. pose proof (fresh_bodies _ _ _ Hok Ha) as Hfresh. destruct Hok. simpl in *.
  assert (forall m, (m < made w)%nat -> owned o (made w) a m = o m) as Hold.
  { intros m Hm. unfold owned. rewrite decide_False by lia. done. }
  assert (owned o (made w) a (made w) = a) as Hnew by (unfold owned; by rewrite decide_True).
  split; simpl.
  - intros n s. destruct (decide (made w = n)) as [<-|Hn].
    + rewrite lookup_insert_eq, Hnew, Hfresh. by intros [= <-].
    + rewrite lookup_insert_ne by done. intros Hs. rewrite Hold by (apply ep_made0; by eexists). by apply ep_history0.
  - intros n. destruct (decide (made w = n)) as [<-|Hn].
    + rewrite lookup_insert_eq. split; [by eexists|lia].
    + rewrite lookup_insert_ne by done. rewrite <-ep_made0. lia.
  - intros n Hn. destruct (decide (n = made w)) as [->|Hne]; [by rewrite Hnew|]. rewrite Hold by lia. apply ep_home0. lia.
  - eapply Forall_impl; [exact ep_pending0|]. intros p [Hp ->]. rewrite Hold by done. split; [lia|done].
  - intros id e [He ?]%ep_entries0. rewrite Hold by done. split; [lia|done].
  - eapply Forall_impl; [exact ep_addresses0|]. intros d (n & Hn & ->). exists n. rewrite Hold by done. split; [lia|done].
  - exact ep_answers0.
Qed.

Lemma create_entries t now id n r t' :
  create_at t now id n = (r, t') ->
  (r = None /\ forall k e, entries t' !! k = Some e -> entries t !! k = Some e)
  \/ (r = Some (id, n) /\ forall k e, entries t' !! k = Some e ->
       (k = id /\ e_server e = n) \/ entries t !! k = Some e).
Proof.
  unfold create_at. destruct (_ <=? _); intros [= <- <-]; simpl.
  - left. split; [done|]. intros k e. apply sweep_some.
  - right. split; [done|]. intros k e. destruct (decide (id = k)) as [->|Hk].
    + rewrite lookup_insert_eq. intros [= <-]. by left.
    + rewrite lookup_insert_ne by done. intros He%sweep_some. by right.
Qed.

Lemma get_entries t id now r t' :
  get_at t id now = (r, t') ->
  (forall k e, entries t' !! k = Some e -> exists e', entries t !! k = Some e' /\ e_server e' = e_server e)
  /\ (forall n, r = Some n -> exists e, entries t !! id = Some e /\ e_server e = n).
Proof.
  unfold get_at. destruct (sweep (entries t) now (idle_timeout t) !! id) as [e0|] eqn:He0; intros [= <- <-]; simpl; split.
  - intros k e. destruct (decide (id = k)) as [->|Hk].
    + rewrite lookup_insert_eq. intros [= <-]. apply sweep_some in He0. eauto.
    + rewrite lookup_insert_ne by done. intros He%sweep_some. eauto.
  - intros n [= <-]. apply sweep_some in He0. eauto.
  - intros k e He%sweep_some. eauto.
  - done.
Qed.

Lemma post_session_ok o w w' ps h now rq method res :
  endpoint_ok o (mkRunning w ps h) ->
  post_session uuid new_server w now method (header rq "mcp-session-id") = (res, w') ->
  exists o', endpoint_ok o' (mkRunning w' ps h)
    /\ match res with
       | Ok (n, minted) => (n < made w')%nat /\ address_of rq minted (made w) = o' n
       | Err _ => True
       end.
Proof.
  intros Hok Hpost. unfold post_session in Hpost. unfold address_of. destruct (bool_decide (method = Some "initialize")).
  - destruct (create_at (table w) now (uuid (made w)) (made w)) as [r t] eqn:Hc.
    apply create_entries in Hc as [[-> Ht]|[-> Ht]].
    + injection Hpost as <- <-. exists o. split; [|done]. apply endpoint_ok_table; [done|]. eauto.
    + simpl in Hpost. injection Hpost as <- <-.
      pose proof (endpoint_ok_allocate _ _ _ _ (Named (uuid (made w))) Hok eq_refl) as Hok'.
      assert (owned o (made w) (Named (uuid (made w))) (made w) = Named (uuid (made w))) as Hnew
        by (unfold owned; by rewrite decide_True).
      exists (owned o (made w) (Named (uuid (made w)))). split; [|split; [simpl; lia|done]].
      destruct Hok'. split; simpl in *; try done.
      intros id e [[-> ->]|He]%Ht; [split; [lia|done]|by eapply ep_entries0].
  - destruct (header rq "mcp-session-id") as [id|].
    + destruct (get_at (table w) id now) as [[n|] t] eqn:Hg; apply get_entries in Hg as [Ht Hn];
        injection Hpost as <- <-; exists o; (split; [by apply endpoint_ok_table|]); [|done].
      destruct (Hn n eq_refl) as (e & He & <-). by destruct (ep_entries _ _ Hok id e He).
    + destruct method; [injection Hpost as <- <-; by exists o|]. simpl in Hpost. injection Hpost as <- <-.
      exists (owned o (made w) (Anonymous (made w))). split; [by apply endpoint_ok_allocate|]. split; [simpl; lia|].
      unfold owned. by rewrite decide_True.
Qed.

Lemma after_frames_snoc v k s frames frame :
  after_frames v k s (frames ++ [frame]) = snd (handle_frame v k (after_frames v k s frames) frame).
Proof. unfold after_frames. by rewrite foldl_app. Qed.

Lemma dispatch_ok o w ps1 p ps2 h response w' :
  endpoint_ok o (mkRunning w (ps1 ++ p :: ps2) h) ->
  post_dispatch VERSION worker w (pd_server p) (pd_minted p) (pd_body p) = (response, w') ->
  endpoint_ok o (mkRunning w' (ps1 ++ ps2)
    (h ++ [mkDispatch (pd_address p) (pd_minted p) (pd_body p) response])).
Proof.
  intros [] Hd. simpl in *. apply Forall_app in ep_pending0 as [Hp1 [[Hn Ha] Hp2]%Forall_cons].
  set (n := pd_server p) in *. destruct (proj1 (ep_made0 n) Hn) as [s Hs].
  pose proof (post_dispatch_world w n (pd_minted p) (pd_body p) s Hs) as Hw. rewrite Hd in Hw. simpl in Hw. subst w'.
  pose proof (ep_history0 n s Hs) as ->. rewrite <-Ha in Hs.
  pose proof (post_dispatch_answer w n (pd_minted p) (pd_body p) _ Hs) as Hr. rewrite Hd in Hr. simpl in Hr.
  assert (forall m, (m < made w)%nat -> m <> n -> pd_address p <> o m) as Hother.
  { intros m Hm Hne Heq. apply Hne. apply (home_unique (o m)); [by apply ep_home0|]. rewrite <-Heq, Ha. by apply ep_home0. }
  split; simpl; try done.
  - intros m s'. destruct (decide (n = m)) as [<-|Hm].
    + rewrite lookup_insert_eq. intros [= <-]. rewrite bodies_snoc, <-Ha. simpl. rewrite decide_True by done.
      by rewrite after_frames_snoc.
    + rewrite lookup_insert_ne by done. intros Hm'. rewrite bodies_snoc. simpl.
      rewrite decide_False by (apply Hother; [apply ep_made0; by eexists|done]). rewrite app_nil_r. by apply ep_history0.
  - intros m. destruct (decide (n = m)) as [<-|Hm].
    + rewrite lookup_insert_eq. by split; [eexists|].
    + by rewrite lookup_insert_ne.
  - by apply Forall_app.
  - apply Forall_app. split; [done|]. constructor; [|done]. by exists n.
  - intros h1 d h2. destruct (decide (h2 = [])) as [->|[h3 [d' ->]]%exists_last].
    + intros [-> [= <-]]%app_inj_tail. simpl. exists n. split; [rewrite Ha; by apply ep_home0|done].
    + rewrite app_comm_cons, app_assoc. intros [Hh _]%app_inj_tail. by eapply ep_answers0.
Qed.

Lemma endpoint_step_ok r r' o : endpoint_step r r' -> endpoint_ok o r -> exists o', endpoint_ok o' r'.
Proof.
  destruct 1 as [w w' ps h now rq n minted _ Hp|w w' ps h now rq response _ Hp|w w' ps1 ps2 h p response Hd|w ps h id b t Ht];
    intros Hok.
  - destruct (post_session_ok _ _ _ _ _ _ _ _ _ Hok Hp) as (o' & Hok' & Hn & Ha). exists o'. by apply endpoint_ok_pending.
  - destruct (post_session_ok _ _ _ _ _ _ _ _ _ Hok Hp) as (o' & Hok' & _). by exists o'.
  - exists o. by eapply dispatch_ok.
  - exists o. apply endpoint_ok_table; [done|]. unfold remove in Ht. injection Ht as _ <-. simpl.
    intros k e [_ He]%lookup_delete_Some. eauto.
Qed.

Definition world_new (cap idle : Z) : World := mkWorld (table_new cap idle) ∅ 0.
Definition started_with (cap idle : Z) : Running := mkRunning (world_new cap idle) [] [].

Lemma endpoint_reachable cap idle r :
  rtc endpoint_step (started_with cap idle) r -> exists o, endpoint_ok o r.
Proof.
  assert (exists o, endpoint_ok o (started_with cap idle)) as Hinit.
  { exists Anonymous. split; simpl; try done.
    - intros n. rewrite lookup_empty. split; [lia|by intros []].
    - intros h1 d h2 Hh. by destruct h1. }
  intros Hr. revert Hinit. induction Hr as [|r1 r2 r3 Hs _ IH]; [done|]. intros [o Hok].
  by eapply IH, endpoint_step_ok.
Qed.

(** The answer to a posted body: what the server makes of it as one frame. *)
Lemma posted_frame w n s minted body :
  servers w !! n = Some s ->
  exists dispatched s' frames,
    handle_frame VERSION (worker n) s body = (dispatched, s')
    /\ match dispatched with
       | None => frames = []
       | Some response => exists line, encode_frame (server s') response = Some line /\ frames = [line]
       end
    /\ post_dispatch VERSION worker w n minted body
       = (Some (mkResponse (match frames with [] => 202 | _ => 200 end)
                  (match minted with Some id => [(SESSION_HEADER, id)] | None => [] end) (concat frames)),
          mkWorld (table w) (<[n := s']> (servers w)) (made w)).
Proof.
  intros Hs. unfold post_dispatch. rewrite Hs.
  destruct (handle_frame VERSION (worker n) s body) as [[response|] s'].
  - destruct (encode_frame_some (server s') response) as [line Hline]. rewrite Hline.
    exists (Some response), s', [line]. split; [done|]. split; [by exists line|]. simpl. by rewrite app_nil_r.
  - by exists None, s', [].
Qed.

(** The other transport reads a body that is one line as that frame. *)
Lemma line_transcript k s body dispatched s' frames :
  body <> [] -> Z.of_nat (length body) < MAX_REQUEST_BYTES -> (NEWLINE ∉ body) -> last body <> Some RETURN ->
  handle_frame VERSION k s body = (dispatched, s') ->
  match dispatched with
  | None => frames = []
  | Some response => exists line, encode_frame (server s') response = Some line /\ frames = [line]
  end ->
  transcript VERSION k s (lines (body ++ [NEWLINE])) = (frames, s').
Proof.
  intros Hb Hl Hn Hr Hh Hf. pose proof (lines_line body [] Hn) as Hlines. rewrite app_nil_r in Hlines. rewrite Hlines.
  cbn [transcript lines]. unfold answer_line.
  rewrite (proj2 (Z.ltb_ge _ _)) by (rewrite length_app; simpl; lia).
  assert (strip_line (body ++ [NEWLINE]) = body) as ->.
  { unfold strip_line. rewrite rev_app_distr. simpl.
    destruct (rev body) as [|c r] eqn:Hc; [by apply (f_equal (@rev Z)) in Hc; rewrite rev_involutive in Hc|].
    assert (body = rev r ++ [c]) as Hbody by (by rewrite <-(rev_involutive body), Hc). cbn [drop_while].
    assert (c <> NEWLINE /\ c <> RETURN) as [Hx1 Hx2].
    { split; intros ->; [apply Hn; rewrite Hbody; apply elem_of_app; right; left|apply Hr; rewrite Hbody; by rewrite last_app]. }
    rewrite (proj2 (Z.eqb_neq _ _) Hx1), (proj2 (Z.eqb_neq _ _) Hx2). cbn [orb]. by rewrite <-Hc, rev_involutive. }
  destruct body as [|b body]; [done|]. rewrite Hh. destruct dispatched as [response|]; [|by rewrite Hf].
  destruct Hf as (line & Hline & ->). by rewrite Hline.
Qed.
End Connections.

(** ** Properties *)

(** C23: The session table keeps its promise.  For any calls at times that do not go
    back, each answers as if sessions were never swept and time alone decided: a
    session is found exactly when less than the idle time has passed since it was
    created or last found and it was not removed; a new one is made exactly when
    fewer sessions than the capacity live.  The table never holds more. *)
Theorem sessions_live_as_promised (cap idle t0 : Z) (ops : list (Z * TableOp))
    (Hcap : 0 <= cap) (Hord : in_order t0 ops) :
  let '(rs, t) := table_run (table_new cap idle) ops in
  keeps_promise cap idle ∅ ops rs /\ Z.of_nat (size (entries t)) <= cap.
Proof.
  apply (run_promised (table_new cap idle) ∅ t0 ops); [by split|done|simpl; by rewrite map_size_empty|done].
Qed.

(** C36: The limiter admits at most its budget in the window it starts with and at most
    twice its budget in any interval of the length of a window. *)
Theorem admission_is_rate_limited (t0 share len : Z) (times : list Z)
    (Hbudget : 0 <= share) (Hwindow : 0 <= len) (Hord : ascending t0 times) :
  let admitted := fst (limiter_run (limiter_new t0 share len) times) in
  admitted_within t0 len times admitted <= share
  /\ forall from, admitted_within from len times admitted <= 2 * share.
Proof.
  assert (limiter_ok (limiter_new t0 share len) t0) as Hok by (unfold limiter_ok; simpl; lia).
  pose proof (fun from => admitted_allowance times _ t0 from Hok Hord) as Ha. simpl in Ha. split.
  - specialize (Ha t0). unfold allowance in Ha. simpl in Ha. rewrite Z.ltb_irrefl in Ha.
    destruct (t0 <? t0 + len); lia.
  - intros from. specialize (Ha from). unfold allowance in Ha. simpl in Ha.
    repeat match type of Ha with context [if ?b then _ else _] => destruct b end; lia.
Qed.

(** C33: The concurrency gate counts the permits exactly and never exceeds its
    capacity, under any interleaving of threads that take and drop permits and
    with spurious failures of the exchange. *)
Theorem permits_never_exceed_capacity (cap : Z) (s : GateState) (Hcap : 0 <= cap) (Hreach : gate_reachable cap s) :
  in_flight s = holders (gate_threads s) /\ 0 <= in_flight s <= cap.
Proof.
  destruct (gate_invariant cap s Hcap Hreach) as [H1 H2]. split; [done|]. split; [|done]. rewrite H1. unfold holders. lia.
Qed.

(** C22: Connections keep their sessions apart.  A frame is addressed to a session
    identifier (the one its [initialize] was answered with, or the one the request
    carries) or, without one, to nobody else.  Under any interleaving of the
    sections of concurrent connections, every answer is the answer of a server of
    its own that served exactly the frames addressed in the same way before it, in
    the order of their dispatch, and no others; the session an identifier in the
    table refers to is what those frames made of a new one, and the tools it ran
    were asked for after its own handshake; two identifiers never share a server;
    and a dispatch always finds its server and answers. *)
Theorem connections_keep_sessions_apart `{JsonTextLaws} `{Urls} (VERSION : string) (worker : nat -> nat -> Worker)
    (uuid : nat -> string) (new_server : Server) (cap idle : Z) (r : Running)
    (Hnew : initialized new_server = false) (Hunique : forall i j, uuid i = uuid j -> i = j)
    (Hreach : rtc (endpoint_step VERSION worker uuid new_server) (started_with cap idle) r) :
  (forall h1 d h2, history r = h1 ++ d :: h2 -> exists n, home uuid (ds_address d) n
     /\ ds_answer d = private_answer VERSION worker new_server n (ds_minted d) (bodies (ds_address d) h1) (ds_body d)
     /\ is_Some (ds_answer d))
  /\ (forall id e, entries (table (world r)) !! id = Some e -> id = uuid (e_server e)
       /\ servers (world r) !! e_server e
          = Some (after_frames VERSION (worker (e_server e)) (session_new new_server) (bodies (Named id) (history r))))
  /\ (forall n s name arguments, servers (world r) !! n = Some s -> (name, arguments) ∈ started s ->
       exists a before f between g after, home uuid a n
         /\ bodies a (history r) = before ++ f :: between ++ g :: after
         /\ handshake f /\ asks_for (tools new_server) g name arguments)
  /\ (forall id1 id2 e1 e2, entries (table (world r)) !! id1 = Some e1 -> entries (table (world r)) !! id2 = Some e2 ->
       e_server e1 = e_server e2 -> id1 = id2)
  /\ Forall (fun p => home uuid (pd_address p) (pd_server p)
       /\ is_Some (fst (post_dispatch VERSION worker (world r) (pd_server p) (pd_minted p) (pd_body p)))) (pending r).
Proof.
  destruct (endpoint_reachable _ _ _ _ Hunique _ _ _ Hreach) as [o []]. split_and!.
  - intros h1 d h2 Hh. destruct (ep_answers0 h1 d h2 Hh) as (n & Hn & Hd). exists n. split; [done|]. split; [done|].
    rewrite Hd. apply private_answer_some.
  - intros id e He. destruct (ep_entries0 id e He) as [Hn Ho]. pose proof (ep_home0 _ Hn) as Hh. rewrite Ho in Hh.
    split; [done|]. destruct (proj1 (ep_made0 _) Hn) as [s Hs]. rewrite Hs. f_equal.
    rewrite (ep_history0 _ _ Hs). by rewrite Ho.
  - intros n s name arguments Hs Hin.
    assert (n < made (world r))%nat as Hn by (apply ep_made0; by eexists).
    rewrite (ep_history0 _ _ Hs) in Hin.
    destruct (proj2 (proj2 (after_frames_inv VERSION (worker n) (session_new new_server) (bodies (o n) (history r)) Hnew eq_refl))
                name arguments Hin) as (before & f & between & g & after & Hb & Hf & Hg).
    exists (o n), before, f, between, g, after. split; [by apply ep_home0|]. split; [done|]. by split.
  - intros id1 id2 e1 e2 [_ E1]%ep_entries0 [_ E2]%ep_entries0 Heq. congruence.
  - eapply Forall_impl; [exact ep_pending0|]. intros p [Hn Ha]. split; [rewrite Ha; by apply ep_home0|].
    by apply post_dispatch_some, ep_made0.
Qed.

(** C24: The endpoint answers like the transport over lines.  A request it accepts for a
    session that lives, with any method but [initialize] (which mints another
    session), has its whole body handled as one frame by the server of that
    session: the answer is 200 with the frame the server encodes, or 202 with an
    empty body for a notification; that session changes as the frame makes it and
    no other does.  When the body is one line, that is, it holds no newline, does
    not end in a carriage return and is shorter than the bound of a line, the
    transport over lines, fed that line in the same state, writes the same frames
    and ends in the same state; a body of several lines is one frame here and
    several there. *)
Theorem http_answers_like_stdio `{JsonTextLaws} `{Urls} (VERSION : string) (worker : nat -> nat -> Worker)
    (uuid : nat -> string) (new_server : Server) (w : World) (now : Z) (rq : HttpRequest)
    (id : string) (n : nat) (t : SessionTable) (s : Session)
    (Haccepted : accepted rq) (Hmethod : method_of (rq_body rq) <> Some "initialize")
    (Hid : header rq "mcp-session-id" = Some id) (Hlive : get_at (table w) id now = (Some n, t))
    (Hserver : servers w !! n = Some s) :
  exists dispatched s' frames,
    handle_frame VERSION (worker n) s (rq_body rq) = (dispatched, s')
    /\ match dispatched with
       | None => frames = []
       | Some response => exists line, encode_frame (server s') response = Some line /\ frames = [line]
       end
    /\ respond VERSION worker uuid new_server w now rq
       = (Some (mkResponse (match frames with [] => 202 | _ => 200 end) [] (concat frames)),
          mkWorld t (<[n := s']> (servers w)) (made w))
    /\ (Z.of_nat (length (rq_body rq)) < MAX_REQUEST_BYTES -> NEWLINE ∉ rq_body rq -> last (rq_body rq) <> Some RETURN ->
        transcript VERSION (worker n) s (lines (rq_body rq ++ [NEWLINE])) = (frames, s')).
Proof.
  pose proof Haccepted as (_ & _ & _ & _ & Hne & _).
  destruct (posted_frame VERSION worker (set_table w t) n s None (rq_body rq) Hserver)
    as (dispatched & s' & frames & Hh & Hf & Hp).
  exists dispatched, s', frames. split; [done|]. split; [done|]. split.
  - rewrite respond_accepted by done. unfold post_session.
    rewrite bool_decide_eq_false_2, Hid, Hlive by done. exact Hp.
  - intros Hlen Hn Hr. by eapply line_transcript.
Qed.

(** Only requests that name the loopback interface are served: every other request
    is answered 403 and changes nothing. *)
Theorem only_loopback_requests_are_served `{JsonText} `{Urls} (VERSION : string) (worker : nat -> nat -> Worker)
    (uuid : nat -> string) (new_server : Server) (w : World) (now : Z) (rq : HttpRequest) :
  (exists host, header rq "host" = Some host /\ loopback_authority (bytes (str_trim host))
     /\ match header rq "origin" with Some origin => origin_is_loopback origin = true | None => True end)
  \/ (exists rejection, respond VERSION worker uuid new_server w now rq
       = (Some (rpc_error 403 INVALID_REQUEST (rejection_message rejection)), w)).
Proof.
  unfold respond, check. destruct (header rq "host") as [host|]; [|right; by exists MissingHost].
  destruct (host_header_is_loopback host) eqn:Hh; simpl; [|right; by exists NonLoopbackHost].
  destruct (header rq "origin") as [origin|].
  - destruct (origin_is_loopback origin) eqn:Ho; simpl; [left|right; by exists CrossOrigin].
    exists host. split_and!; [done| |done]. by apply host_header_accepts.
  - left. exists host. split_and!; [done| |done]. by apply host_header_accepts.
Qed.
End EndpointProps.
