(* ===== verification/McpExample.v ===== *)
(** * Examples for the MCP server and its endpoint

    A concrete reader and writer of JSON documents, and the sessions and requests
    that show the properties' hypotheses can hold. *)
From stdpp Require Import base list strings gmap pretty.
From Stdlib Require Import ZArith Lia.
From S2P Require Import Prelude RustStr StdText StdIo StdNet Framing McpRpc McpServer McpProps McpHttp McpHttpProps McpSessions McpSessionProps.

Open Scope Z_scope.
Open Scope rust_scope.

Module McpFixture.
Import Rpc RpcMessages Redact Mcp McpProps McpStdio.

#[export] Instance fixture_numbers : JsonNumbers := {| Number := Z; number_of n := n |}.

(** ** Compact JSON *)
Definition hex (d : Z) : Z := if d <? 10 then 48 + d else 87 + d.
Definition escape (b : Z) : list Z :=
  if b <? 32 then bytes "\u00" ++ [hex (b / 16); hex (b mod 16)]
  else if (b =? 34) || (b =? 92) then [92; b] else [b].
Definition print_string (s : string) : list Z := [34] ++ concat (map escape (bytes s)) ++ [34].

Fixpoint print (v : Value) : list Z :=
  match v with
  | Null => bytes "null"
  | Bool b => bytes (if b then "true" else "false")
  | Num n => (if n <? 0 then [45] else []) ++ bytes (decimal (Z.abs n))
  | Str s => print_string s
  | Arr items => [91] ++ joined [44] (map print items) ++ [93]
  | Obj entries => [123] ++ joined [44] (map (fun e => print_string (fst e) ++ [58] ++ print (snd e)) entries) ++ [125]
  end.

Definition printable (b : Z) : Prop := 32 <= b < 256.

Lemma Forall_concat {A} (P : A -> Prop) ls : Forall (Forall P) ls -> Forall P (concat ls).
Proof. induction 1; simpl; [constructor|]. by apply Forall_app. Qed.

Lemma Forall_joined {A} (P : Z -> Prop) sep (f : A -> list Z) l :
  Forall P sep -> Forall (fun x => Forall P (f x)) l -> Forall P (joined sep (map f l)).
Proof.
  intros Hsep. induction 1 as [|x l Hx Hl IH]; [constructor|]. rewrite map_cons, joined_cons.
  apply Forall_app. split; [done|]. destruct (map f l); [constructor|]. by apply Forall_app.
Qed.

Lemma ascii_printable s : forallb (fun b => (32 <=? b) && (b <? 256)) (bytes s) = true -> Forall printable (bytes s).
Proof.
  intros Hs. apply forallb_Forall in Hs. eapply Forall_impl; [done|]. intros b Hb. simpl in Hb. bools. unfold printable. lia.
Qed.

Lemma escape_printable b : 0 <= b < 256 -> Forall printable (escape b).
Proof.
  intros Hb. unfold escape, hex.
  assert (0 <= b / 16 < 16) by (split; [apply Z.div_pos; lia|apply Z.div_lt_upper_bound; lia]).
  pose proof (Z.mod_pos_bound b 16 ltac:(lia)).
  destruct (Z.ltb_spec b 32).
  - apply Forall_app. split; [by apply ascii_printable|]. rewrite !Forall_cons, Forall_nil. unfold printable.
    destruct (Z.ltb_spec (b / 16) 10), (Z.ltb_spec (b mod 16) 10); lia.
  - destruct (_ || _); rewrite !Forall_cons, Forall_nil; unfold printable; lia.
Qed.

Lemma print_string_printable s : Forall printable (print_string s).
Proof.
  unfold print_string. apply Forall_app. split; [by repeat constructor|]. apply Forall_app. split; [|by repeat constructor].
  apply Forall_concat, Forall_map. eapply Forall_impl; [apply bytes_range|]. intros b. apply escape_printable.
Qed.

Fixpoint print_printable (v : Value) : Forall printable (print v).
Proof.
  destruct v as [|b|n|s|items|entries]; cbn [print].
  - by apply ascii_printable.
  - by destruct b; apply ascii_printable.
  - apply Forall_app. split; [destruct (n <? 0); by repeat constructor|].
    eapply Forall_impl; [apply (decimal_digits (Z.abs n)); lia|]. intros b Hb. unfold is_ascii_digit in Hb. bools. unfold printable. lia.
  - apply print_string_printable.
  - repeat (apply Forall_app; split); try by repeat constructor.
    apply Forall_joined; [by repeat constructor|].
    induction items as [|i items IH]; constructor; [apply print_printable|exact IH].
  - repeat (apply Forall_app; split); try by repeat constructor.
    apply Forall_joined; [by repeat constructor|].
    induction entries as [|[k w] entries IH]; constructor; [|exact IH].
    apply Forall_app. split; [apply print_string_printable|].
    apply Forall_app. split; [by repeat constructor|apply print_printable].
Qed.

(** Frames are read by looking them up among the documents of an example. *)
Section Fixture.
Context (documents : list Value).

Definition parse (frame : list Z) : result string Value :=
  match find (fun d => bool_decide (print d = frame)) documents with
  | Some d => Ok d
  | None => Err "expected value at line 1 column 1"
  end.

#[export] Instance fixture_text : JsonText := {|
  from_slice := parse;
  peek frame := match parse frame with
                | Ok (Obj o) => Some (match entry "method" o with Some (Str m) => Some m | _ => None end)
                | _ => None
                end;
  to_string v := Some (string_of_bytes (print v));
  to_string_pretty v := Some (string_of_bytes (print v));
|}.

#[export] Instance fixture_laws : JsonTextLaws.
Proof.
  split; [by eexists|]. intros v text [= <-] Hin. pose proof (print_printable v) as Hp.
  rewrite bytes_string_of in Hin by (eapply Forall_impl; [exact Hp|]; unfold printable; lia).
  rewrite Forall_forall in Hp. apply Hp in Hin. unfold printable in Hin. lia.
Qed.
End Fixture.

(** ** A session with one tool *)
Definition echo : SafeTool := mkTool "echo" "Echo" "Returns its arguments." ReadOnly (Obj []) Ok.
Definition request (i : Z) (method : string) (params : Value) : Value :=
  Obj [("jsonrpc", Str "2.0"); ("id", Num i); ("method", Str method); ("params", params)].
Definition init_request : Value := request 1 "initialize" (Obj [("protocolVersion", Str "2025-03-26")]).
Definition echo_arguments : Value := Obj [("text", Str "hunter2-hunter2")].
Definition call_request : Value := request 2 "tools/call" (Obj [("name", Str "echo"); ("arguments", echo_arguments)]).
Definition documents : list Value := [init_request; call_request].
#[local] Existing Instance fixture_text.

Definition fresh : Session := mkSession (mkServer [echo] 5000 false ["hunter2-hunter2"]) 0 [].
Definition in_time : nat -> Worker := fun _ => InTime.

Lemma tools_run_only_after_handshake_witness :
  exists before f between g after,
    [print init_request; print call_request] = before ++ f :: between ++ g :: after
    /\ @handshake _ (fixture_text documents) f
    /\ @asks_for _ (fixture_text documents) [echo] g "echo" echo_arguments.
Proof.
  apply (@tools_run_only_after_handshake _ (fixture_text documents) "1.0" in_time fresh
    [print init_request; print call_request] "echo" echo_arguments).
  - reflexivity.
  - reflexivity.
  - assert (started (@after_frames _ (fixture_text documents) "1.0" in_time fresh
      [print init_request; print call_request]) = [("echo", echo_arguments)]) as -> by (vm_compute; reflexivity).
    left.
Defined.

(** The answer to the call carries the secret, and the line that is written does not. *)
Definition echo_answer : Value := success (Num 2) (call_result (H0 := fixture_text []) (Ok echo_arguments)).
Definition echo_line : list Z :=
  default [] (@encode_frame _ (fixture_text []) (server fresh) echo_answer).

Lemma responses_are_redacted_witness :
  contains (bytes "hunter2-hunter2") (print echo_answer) = true
  /\ contains (bytes "hunter2-hunter2") echo_line = false.
Proof.
  split; [vm_compute; reflexivity|].
  destruct (@responses_are_redacted _ (fixture_text []) (fixture_laws []) (server fresh) echo_answer echo_line)
    as [_ [[_ Hall]|(text & Hl & [= <-])]]; [vm_compute; reflexivity| |].
  - apply (Hall "hunter2-hunter2"); [left|vm_compute; done|].
    split_and!; [apply (bool_decide_eq_true_1 _); reflexivity..|reflexivity].
  - exfalso. vm_compute in Hl. discriminate Hl.
Defined.

(** Two requests in three pieces, one of which ends inside a line. *)
Definition cut_input : Reader :=
  let bs := print init_request ++ [13; 10; 10] ++ print call_request ++ [10] in
  mkReader 0 [(0, Bytes (take 20 bs)); (5, Interrupted); (1, Bytes (take 80 (drop 20 bs))); (9, Bytes (drop 100 bs))].

Lemma stdio_session_is_its_transcript_witness :
  exists r' out, @serve _ (fixture_text documents) "1.0" in_time _ _ fresh cut_input []
    = (EndOfInput, (snd (@transcript _ (fixture_text documents) "1.0" in_time fresh (lines (data cut_input))), r', out))
    /\ length (lines out) = 2%nat.
Proof.
  destruct (@stdio_session_is_its_transcript _ (fixture_text documents) (fixture_laws documents) "1.0" in_time
    (list Z) _ fresh cut_input) as [_ Hs].
  assert (steady cut_input) as Hst by (repeat constructor; vm_compute; discriminate).
  specialize (Hs Hst []).
  assert (length (fst (@transcript _ (fixture_text documents) "1.0" in_time fresh (lines (data cut_input)))) = 2%nat)
    as Hlen by (vm_compute; reflexivity).
  destruct (transcript _ _ _ _) as [frames s']. destruct Hs as [[r' Hr] Hl].
  exists r', ([] ++ framed frames). split; [exact Hr|]. simpl in *. rewrite Hl, length_map. exact Hlen.
Defined.
End McpFixture.

(** * Examples for the MCP endpoint *)

Module HttpFixture.
Import Rpc RpcMessages Mcp McpProps McpStdio McpFixture Http HttpProps Endpoint EndpointProps.

#[export] Instance fixture_urls : Urls := {|
  url_parse s := if bool_decide (s = "http://localhost:3000") then Some ("http", Some (Domain "localhost")) else None
|}.

Example hosts :
  map host_header_is_loopback
    ["localhost:8787"; "LocalHost"; "127.0.0.1:1"; "[::1]:8787"; "[::1]"; "::1:8787";
     "127.0.0.1.evil.com"; "localhost.evil.com:80"; "127.0.0.01"; "localhost:"; ""]
  = [true; true; true; true; true; true; false; false; false; false; false].
Proof. vm_compute. reflexivity. Qed.


(** ** A request in three pieces *)
Definition some_headers (body : list Z) : list (string * string) :=
  [("Host", "localhost:8787"); ("Content-Type", "application/json; charset=utf-8");
   ("Mcp-Session-Id", "id-0"); ("Content-Length", decimal (Z.of_nat (length body)))].
Definition ping : Value := request 3 "ping" (Obj []).
Definition ping_body : list Z := print ping.
Definition ping_bytes : list Z := request_head "post" "/mcp?x=1" (some_headers ping_body) ++ ping_body.
Definition ping_reader : Reader :=
  mkReader 0 [(100, Bytes (take 30 ping_bytes)); (0, Interrupted); (7, Bytes (drop 30 (take 90 ping_bytes)));
              (50, Bytes (drop 90 ping_bytes))].

Lemma supported_ping : supported "post" "/mcp?x=1" (some_headers ping_body) ping_body.
Proof.
  assert (forall bs, forallb (fun b => (33 <=? b) && (b <? 127)) bs = true -> graphic bs) as Hg.
  { intros bs Hb. apply forallb_Forall in Hb. eapply Forall_impl; [exact Hb|]. intros b Hx. simpl in Hx. bools. lia. }
  assert (forall bs, forallb (fun b => (32 <=? b) && (b <? 127)) bs = true -> HttpProps.printable bs) as Hp.
  { intros bs Hb. apply forallb_Forall in Hb. eapply Forall_impl; [exact Hb|]. intros b Hx. simpl in Hx. bools. lia. }
  split.
  - split; [by apply Hg|done].
  - split; [by apply Hg|done].
  - unfold some_headers. repeat (apply Forall_cons; split); [..|constructor];
      (split; [by apply Hg|]; split; [done|]; split; [by apply (bool_decide_eq_true_1 _)|];
       split; [by apply Hp; vm_compute|by vm_compute]).
  - vm_compute. discriminate.
  - vm_compute. discriminate.
  - vm_compute. reflexivity.
  - vm_compute. reflexivity.
  - vm_compute. discriminate.
Qed.

Lemma requests_are_read_back_witness :
  exists rq r', read_request ping_reader 10000 = Some (Request rq, r') /\ rq_path rq = "/mcp" /\ rq_method rq = "POST".
Proof.
  destruct (requests_are_read_back 10000 ping_reader "post" "/mcp?x=1" (some_headers ping_body) ping_body []
    supported_ping) as (r' & Hr & _).
  - split_and!; [repeat constructor; vm_compute; discriminate|repeat constructor; vm_compute; discriminate|].
    vm_compute. reflexivity.
  - vm_compute. reflexivity.
  - eexists _, r'. split; [exact Hr|]. split; vm_compute; reflexivity.
Defined.

(** ** Sessions *)
Definition session_calls : list (Z * TableOp) :=
  [(0, Create "a" 0); (10, Create "b" 1); (20, Create "c" 2); (90, Get "a"); (115, Get "b"); (120, Create "c" 2)].

Lemma sessions_live_as_promised_witness :
  fst (table_run (table_new 2 100) session_calls)
  = [Created (Some ("a", 0%nat)); Created (Some ("b", 1%nat)); Created None; Found (Some 0%nat); Found None;
     Created (Some ("c", 2%nat))]
  /\ keeps_promise 2 100 ∅ session_calls (fst (table_run (table_new 2 100) session_calls)).
Proof.
  split; [vm_compute; reflexivity|].
  pose proof (sessions_live_as_promised 2 100 0 session_calls ltac:(lia) ltac:(simpl; lia)) as Hs.
  destruct (table_run (table_new 2 100) session_calls) as [rs t]. exact (proj1 Hs).
Defined.

Lemma admission_is_rate_limited_witness :
  fst (limiter_run (limiter_new 0 2 10) [1; 8; 9; 10; 11; 12]) = [true; true; false; true; true; false]
  /\ admitted_within 5 10 [1; 8; 9; 10; 11; 12] (fst (limiter_run (limiter_new 0 2 10) [1; 8; 9; 10; 11; 12])) <= 4.
Proof.
  split; [vm_compute; reflexivity|].
  apply (admission_is_rate_limited 0 2 10 [1; 8; 9; 10; 11; 12] ltac:(lia) ltac:(lia) ltac:(simpl; lia)).
Defined.

Lemma permits_never_exceed_capacity_witness :
  0 <= in_flight (mkGate 1 [Holding; Loaded 1]) <= 1.
Proof.
  apply (permits_never_exceed_capacity 1 (mkGate 1 [Holding; Loaded 1])); [lia|]. exists 2%nat.
  apply (rtc_l _ _ (mkGate 0 [Loaded 0; Outside])); [apply (gate_load 1 0 [Outside; Outside] 0); by left|].
  apply (rtc_l _ _ (mkGate 0 [Loaded 0; Loaded 0])); [apply (gate_load 1 0 [Loaded 0; Outside] 1); by left|].
  apply (rtc_l _ _ (mkGate 1 [Holding; Loaded 0])); [by apply (gate_exchange 1 0 [Loaded 0; Loaded 0] 0 0)|].
  apply rtc_once. by apply (gate_retry 1 1 [Holding; Loaded 0] 1 0).
Defined.

(** ** The endpoint with one session *)
Definition all_documents : list Value := [init_request; call_request; ping].
#[local] Instance example_text : JsonText := fixture_text all_documents.
Definition example_laws : JsonTextLaws := fixture_laws all_documents.
Definition ids (n : nat) : string := "id-" +:+ pretty (N.of_nat n).
Lemma ids_unique i j : ids i = ids j -> i = j.
Proof. unfold ids. simpl. intros [= Heq]. apply pretty_N_inj in Heq. lia. Qed.
Definition workers (_ : nat) : nat -> Worker := in_time.
Definition echo_server : Server := mkServer [echo] 5000 false [].

Definition post_of (session : list (string * string)) (body : list Z) : HttpRequest :=
  mkRequest "POST" "/mcp" ([("host", "localhost"); ("content-type", "application/json")] ++ session) body.
Definition after_init : World :=
  snd (respond "1.0" workers ids echo_server (world_new 16 300000) 5 (post_of [] (print init_request))).
Definition ping_request : HttpRequest := post_of [("mcp-session-id", "id-0")] ping_body.

Lemma accepted_post session body :
  header (post_of session body) "host" = Some "localhost" ->
  header (post_of session body) "origin" = None -> body <> [] -> Z.of_nat (length body) <= MAX_REQUEST_BYTES ->
  accepted (post_of session body).
Proof.
  intros Hh Ho Hb Hl. unfold accepted. rewrite Hh, Ho. split_and!; [reflexivity|by left|done|reflexivity|done|done].
Qed.

(** Two clients initialize at once; the one that came second is answered first, and
    then pings before the other is answered. *)
Definition steps_world (w : World) (now : Z) (session : list (string * string)) (body : list Z) : World :=
  snd (post_session ids echo_server w now (method_of body) (header (post_of session body) "mcp-session-id")).
Definition run1 : Running := mkRunning (steps_world (world_new 16 300000) 5 [] (print init_request))
  [mkPending (Named "id-0") 0 (Some "id-0") (print init_request)] [].
Definition run2 : Running := mkRunning (steps_world (world run1) 6 [] (print init_request))
  (pending run1 ++ [mkPending (Named "id-1") 1 (Some "id-1") (print init_request)]) [].
Definition dispatch_of (w : World) (p : Pending) : option HttpResponse * World :=
  post_dispatch "1.0" workers w (pd_server p) (pd_minted p) (pd_body p).
Definition second : Pending := mkPending (Named "id-1") 1 (Some "id-1") (print init_request).
Definition run3 : Running := mkRunning (snd (dispatch_of (world run2) second)) (pending run1)
  [mkDispatch (Named "id-1") (Some "id-1") (print init_request) (fst (dispatch_of (world run2) second))].
Definition pinging : Pending := mkPending (Named "id-1") 1 None ping_body.
Definition run4 : Running := mkRunning (steps_world (world run3) 7 [("mcp-session-id", "id-1")] ping_body)
  (pending run3 ++ [pinging]) (history run3).
Definition run5 : Running := mkRunning (snd (dispatch_of (world run4) pinging)) (pending run3)
  (history run4 ++ [mkDispatch (Named "id-1") None ping_body (fst (dispatch_of (world run4) pinging))]).

Lemma run5_reachable : rtc (endpoint_step "1.0" workers ids echo_server) (started_with 16 300000) run5.
Proof.
  assert (forall w now session body n minted ps h,
    header (post_of session body) "host" = Some "localhost" -> header (post_of session body) "origin" = None ->
    body <> [] -> Z.of_nat (length body) <= MAX_REQUEST_BYTES ->
    fst (post_session ids echo_server w now (method_of body) (header (post_of session body) "mcp-session-id"))
    = Ok (n, minted) ->
    endpoint_step "1.0" workers ids echo_server (mkRunning w ps h)
      (mkRunning (steps_world w now session body)
         (ps ++ [mkPending (address_of (post_of session body) minted (made w)) n minted body]) h)) as Hstep.
  { intros w now session body n minted ps h Hh Ho Hb Hl Hp. unfold steps_world.
    eapply (step_session _ _ _ _ _ _ _ _ now (post_of session body)); [by apply accepted_post|].
    cbn [rq_body post_of]. rewrite <-Hp. apply surjective_pairing. }
  assert (forall w ps1 ps2 h p, endpoint_step "1.0" workers ids echo_server (mkRunning w (ps1 ++ p :: ps2) h)
    (mkRunning (snd (dispatch_of w p)) (ps1 ++ ps2)
       (h ++ [mkDispatch (pd_address p) (pd_minted p) (pd_body p) (fst (dispatch_of w p))]))) as Hdisp.
  { intros w ps1 ps2 h p. apply step_dispatch. apply surjective_pairing. }
  apply (rtc_l _ _ run1).
  { apply (Hstep (world_new 16 300000) 5 [] (print init_request) 0%nat (Some "id-0") [] []);
      [reflexivity|reflexivity|vm_compute; discriminate..|vm_compute; reflexivity]. }
  apply (rtc_l _ _ run2).
  { apply (Hstep (world run1) 6 [] (print init_request) 1%nat (Some "id-1") (pending run1) []);
      [reflexivity|reflexivity|vm_compute; discriminate..|vm_compute; reflexivity]. }
  apply (rtc_l _ _ run3); [apply (Hdisp (world run2) (pending run1) [] [] second)|].
  apply (rtc_l _ _ run4).
  { apply (Hstep (world run3) 7 [("mcp-session-id", "id-1")] ping_body 1%nat None (pending run3) (history run3));
      [reflexivity|reflexivity|vm_compute; discriminate..|vm_compute; reflexivity]. }
  apply (rtc_l _ _ run5); [apply (Hdisp (world run4) (pending run1) [] (history run4) pinging)|]. apply rtc_refl.
Qed.

Lemma connections_keep_sessions_apart_witness :
  map (fun d => rs_status <$> ds_answer d) (history run5) = [Some 200; Some 200]
  /\ exists n, ids n = "id-1"
    /\ fst (dispatch_of (world run4) pinging)
      = private_answer "1.0" workers echo_server n None [print init_request] ping_body.
Proof.
  split; [vm_compute; reflexivity|].
  destruct (proj1 (@connections_keep_sessions_apart _ example_text example_laws fixture_urls "1.0" workers ids echo_server
    16 300000 run5 eq_refl ids_unique run5_reachable) (history run4) _ [] eq_refl) as (n & Hn & Ha & _).
  exists n. split; [symmetry; exact Hn|]. refine (eq_trans Ha _). vm_compute. reflexivity.
Defined.

Lemma http_answers_like_stdio_witness :
  exists line w', respond "1.0" workers ids echo_server after_init 100 ping_request
    = (Some (mkResponse 200 [] line), w') /\ line = print (success (Num 3) (Obj [])).
Proof.
  destruct (get_at (table after_init) "id-0" 100) as [[n|] t] eqn:Hg; [|vm_compute in Hg; discriminate Hg].
  assert (n = 0%nat) as -> by (vm_compute in Hg; congruence).
  destruct (servers after_init !! 0%nat) as [s|] eqn:Hserver; [|vm_compute in Hserver; discriminate Hserver].
  assert (s = mkSession (mkServer [echo] 5000 true []) 0 []) as Hsess by (vm_compute in Hserver; vm_compute; congruence).
  assert (transcript "1.0" (workers 0) s (lines (rq_body ping_request ++ [NEWLINE]))
    = ([print (success (Num 3) (Obj []))], s)) as Ht by (rewrite Hsess; vm_compute; reflexivity).
  destruct (@http_answers_like_stdio _ example_text example_laws fixture_urls "1.0" workers ids echo_server after_init 100
    ping_request "id-0" 0 t s) as (dispatched & s' & frames & _ & _ & Hr & Hline).
  - apply accepted_post; [done|done|vm_compute; discriminate|vm_compute; discriminate].
  - vm_compute. discriminate.
  - reflexivity.
  - exact Hg.
  - exact Hserver.
  - rewrite Ht in Hline. specialize (Hline ltac:(vm_compute; reflexivity)
      ltac:(apply (bool_decide_eq_true_1 _); vm_compute; reflexivity) ltac:(vm_compute; discriminate)).
    injection Hline as <- <-. eexists _, _. split; [exact Hr|]. vm_compute. reflexivity.
Defined.
End HttpFixture.
